(* ===== verification/_CoqProject ===== *)
-Q . S2P
Prelude.v
CppStd.v
Traces.v
Errno.v
Values.v
SharedBlock.v
StringUtils.v
Security.v
StoreConfig.v
RawData.v
Predicates.v
SqlBuilder.v
ConnPool.v
ConnectionPool.v
FillBlock.v
SqliteStmt.v
Encryption.v
ResultSet.v
ResultRows.v
StepResultSet.v
Transactions.v
Notify.v
Store.v
StoreOpen.v
Manager.v
Replica.v
ReplicaSteps.v
ReplicaProps.v
FileBackup.v
FileBackupProps.v
DefaultFunctions.v
Attach.v
Configure.v
