(* ===== verification/Prelude.v ===== *)
(** * The relational store: a model of its native core

    The program is the native library of the relational database (frameworks/native/rdb and
    frameworks/native/appdatafwk, with the headers under interfaces/inner_api).  A caller
    describes a query or a change with predicates and values; the library turns them into SQL
    text and arguments, borrows a connection from a pool, lets SQLite run the statement and
    hands the rows to the caller through a result set, whose rows live in a block of shared
    memory.  SQLite, the JSON library, the key and cloud services and the language runtimes are
    not part of the repository; where the modelled code calls them they are arguments.

    ** Files, in the order of their dependencies

    - [Prelude]: machine integers with their wrap-around, little-endian bytes, the shared tactics,
      and [Run], operations on a state that may be undefined, with their weakest preconditions.
    - [CppStd]: the parts of the C++ library the code uses: strings ([Str]) and ordered maps
      ([OMap], a sorted list of pairs, with [insert], [insert_or_assign], [find] and [erase]).
    - [Traces]: worlds with their history and a logic for everything an operation goes through, so
      also for an operation that is cut off.
    - [Errno]: interfaces/inner_api/rdb/include/rdb_errno.h.
    - [Values]: value_object.cpp, values_bucket.cpp, values_buckets.cpp, big_integer.cpp,
      asset_value.h.  A [ValueObject] is an inductive type with the alternatives of the variant;
      a [double] or [float] is its bit pattern; the batch of rows keeps its shared values in a
      heap, because rows refer to them by address.
    - [SharedBlock]: shared_block.cpp.  [Mem] is the byte memory, [Block] the operations with
      their 32-bit offsets, [BlockInv] the layout invariant, [BlockSpec] the abstract table with
      its transition relation, [BlockProps] the theorems.
    - [StringUtils]: string_utils.cpp and the text functions of sqlite_utils.cpp.
    - [Security]: relational_store_crypt.cpp ([Crypt]) over the key service [Huks],
      rdb_security_manager.cpp ([RdbPassword], [SecurityManager]) over the file system [Files];
      [KeyLaws] states what the key service and the file system promise, [SmallKeys] is an
      instance.
    - [StoreConfig]: rdb_store_config.h and rdb_store_config.cpp ([RegisterInfo], [CryptoParam],
      [RdbStoreConfig]), the paths of sqlite_global_config.cpp ([GlobalConfig], [DbPath]).
    - [RawData]: raw_data_parser.cpp and serializable.cpp; the JSON text is the class [JsonText]
      with its round-trip law, and [bits_json] is an instance of it.
    - [Predicates]: abs_predicates.cpp ([AbsPreds]), abs_rdb_predicates.cpp ([AbsRdbPreds]) and
      rdb_predicates.cpp ([RdbPreds]).
    - [SqlBuilder]: sqlite_sql_builder.cpp and rdb_sql_utils.cpp.
    - [ConnPool]: the struct [Container] of connection_pool.cpp, one function per member function
      under its mutex, and [ContainerInv], the interleavings of several threads as a step
      relation (all of them, and the orderly ones in which nobody clears the container during an
      [AcquireAll]), with [ContainerProps].  [ConnectionPool]: the class [ConnectionPool] on top of
      three containers.
    - [FillBlock]: abs_shared_block.h as the class [AbsSharedBlock] with the promise [TableBlock]
      its clients rely on; share_block.cpp against the class ([Fill]); the instance for
      [SharedBlock]; cache_block.cpp ([CacheBlock]).
    - [SqliteStmt]: sqlite_errno.h ([SQLiteError]) and sqlite_statement.cpp ([SqliteStatement])
      over the class [Sqlite], the functions of the SQLite library that are called, with the laws
      [SqliteLaws] of its manual; [SmallSqlite] is an instance.
    - [Encryption]: the functions of sqlite_connection.cpp that set and change the key of a
      database, over the encryption of SQLite ([Codec], with [CodecLaws]), a configuration and the
      security manager; [SmallCodec] is an instance.
    - [ResultSet]: abs_result_set.cpp, abs_shared_result_set.cpp and sqlite_shared_result_set.cpp
      ([SharedResultSet]), cache_result_set.cpp ([CacheResultSet]).
    - [ResultRows]: whole rows, names and types of result sets, [RowEntity].
    - [StepResultSet]: step_result_set.cpp ([Stepping]) against the class [Statement];
      [RowStatement] is the promise of a statement over a query, and [SqliteRowStatement] shows
      that [SqliteStatement] keeps it.
    - [Transactions]: trans_db.cpp ([TransDB]), transaction_impl.cpp and transaction.cpp
      ([TransactionImpl]) against the class [Connection], with the promise [Transactional] of a
      connection; [SmallConn] is an instance.
    - [Notify]: the tables to be synchronised with the cloud and their interleavings with the
      executor, delay_notify.cpp, the observers of a store and rdb_obs_manager.cpp.
    - [Store]: base_transaction.cpp and rdb_store_impl.cpp ([Store]) over the class [Database] of
      the pool and its connections; [view] makes a connection of the pool an instance of
      [Connection], on which [Transactions] works.
    - [StoreOpen]: the opening and closing of a store ([StoreObject], from rdb_store_impl.cpp and
      connection_pool.cpp) and its label (security_policy.cpp), over the classes [Service] and
      [Opening].
    - [Manager]: rdb_store_manager.cpp and silent_proxy.cpp ([RdbStoreManager]) with the stores as
      shared objects that strong and weak references refer to; [ManagerInv] has the critical
      sections as steps.
    - [Replica]: the replica of a database: of sqlite_utils.cpp the files that mark it
      ([SlaveMarks]), of sqlite_connection.cpp its creation, verification, backup, restore, repair,
      the binary log and the strategy ([SqliteConnection]), of rdb_store_impl.cpp what the store
      asks of them ([ReplicaStore]), over the classes [Disk] and [Engine].
    - [ReplicaSteps]: [Crash], the instances of [Traces] for the replica; [ReplicaInv], the documented
      behaviour of SQLite and of the files ([ReplicaLaws]), the progress of a copy, which nobody documents
      ([CopyProgress]), and the specifications of the operations.
    - [ReplicaProps]: [SmallReplica], an instance of the laws, and the theorems.
    - [FileBackup]: the backup of a store to a file and the restore from it: of rdb_store_impl.cpp
      [Backup], [InnerBackup], [RestoreCommon] and what they call, of connection_pool.cpp
      [RestoreMasterDb] and [CheckIntegrity], over the class [Backing].
    - [FileBackupProps]: [BackupInv], the laws of the files, statements and connections
      ([BackupLaws], [RestoreLaws]) and the specifications; [SmallBackup], an instance; the theorems.
    - [DefaultFunctions]: sqlite_default_function.cpp: the merge of assets ([AssetMerge]) and the import
      of a database file ([DbImport]), with their theorems.
    - [Attach]: [Attach] and [Detach] of rdb_store_impl.cpp over the classes [Backing] and [AttachPool], the
      laws [AttachLaws], the instance [SmallPool] and the theorems.
    - [Configure]: the opening of a connection, [InnerOpen] of sqlite_connection.cpp with all it calls
      ([OpenConnection]) over the class [Database], the laws [DatabaseLaws], the instance [SmallDatabase]
      and the theorems.

    A member function is a function from the object's state (a record with the names of the
    members) and its arguments to the result and the new state.  An out parameter with an error
    code is a sum, or a pair where the code writes it in both cases.  A read outside of a buffer,
    or of an iterator that refers to nothing, is [None].  Logging and error messages are left out.

    ** What the theorems show

    - The block: any history of operations follows the abstract table, statuses included; cells
      read back; no write leaves the data area; a put fails exactly when there is no room; the
      raw copy carries the table over.
    - Filling and reading: for every block that keeps the promise of [TableBlock], a fill leaves
      exactly a window of the result in it; a cursor that is moved anywhere, any number of times,
      reads the cells of the query's table; [GetRowsData] and [GetRow] give whole rows; the same
      for rows in memory.  The exceptions are a row larger than the block and a row with an empty blob,
      which is never filled.
    - Statements: a successful [Execute] has bound every argument in the form of its type before
      the step; [Bind] leaves nothing of an earlier use; a value that is bound, stored and read
      again is the same value but for what SQLite stores as null, and every value read has the type
      reported for its column.
    - Stepping: a cursor that steps follows the cursor a caller has in mind, counts the rows and
      comes back, and agrees with the cursor on shared memory over the same columns.
    - Transactions: rollback restores the data of the beginning and commit keeps what the
      operations made of it; an ended transaction refuses everything.  The transactions of a store
      nest as they should, by the savepoints they make, up to a roll back of the outermost one that
      fails; a store that is read only is untouched.
    - Notification: one cloud synchronisation is on its way exactly when there are changes, unless a
      thread found no executor for it, and every change is handed to one; tables
      wait until the service took them; observers hear of an event once.
    - The pool: in every interleaving no connection has two holders, and connections of an
      earlier generation that are given back stay out; in the orderly ones the counters of a container count its
      connections, and [AcquireAll] has all of them when it succeeds; how many transactions are out, at most
      four where limited calls do not overlap; what [Acquire]
      answers on each branch; what failures of [Initialize], [Rekey] and [AcquireAll] leave behind.
    - The SQL texts: any use of the predicates that does not put in a text of the caller gives a condition that a small grammar accepts,
      with the parentheses of the calls and its arguments in order; statements have as many placeholders as arguments; batches of
      an insert carry every value once; accepted table names cannot break out of the statement.
    - The packed values: assets, vectors and big integers are read back, and no parser leaves its
      buffer whatever the bytes are.
    - Keys: a key that was stored is read again through encryption, packaging and the file; a
      password that was given once is given again; upgrades of the key file keep it on a disk that takes
      the write; where the key files belong to the configuration, opening the writer leaves the key of the database in the configuration and in the key file, also in the
      middle of a change of keys, and after a restart it is found there.
    - Opening: [GetRdbStore] hands out open stores only and leaves no reference behind when it
      fails; in every interleaving of calls that agree on the configurations, from one removal to the next, there is one new store
      per path; a different configuration of a store in use is refused where it has to be; a
      database is deleted only with the permission to rebuild it, and its files are removed otherwise only for
      a replica that was checked.
    - The replica: a backup with verification that is cut off anywhere leaves the main database as it was and the
      replica whole or marked as unfinished; a marked replica is never used; a restore copies
      exactly the replica that was verified; the strategy replaces a main database only when it is
      damaged, empty or cannot be read, and the replica only by a main database that has tables.
    - Backup to a file: wherever a backup is cut off, the main database is as it was and a restore is
      offered the old backup or the complete new one; a restore replaces the database only by a backup
      that passed its check, and leaves the backup as it is.
    - Attached databases: any calls of [Attach] and [Detach] answer as a set of names does, and both the
      map of the store and SQLite have this set.
    - Connections: a connection that was opened, of any role but a visitor's, has its functions, no loading of extensions, a log that
      stays, and the configured journal mode if it may write.
    - SQL functions: the merge of assets is the merge key by key, and repeating it changes nothing but
      added assets that are marked as deleted; the import of a database copies sound databases only, and ends if the
      source is written finitely often.
    - Configurations: whatever the calls, sizes and time limits stay in their bounds; equality
      holds exactly between configurations of the same store; paths identify databases.
    - Text functions: [Split] and [Replace] end and give the pieces; keyword and statement tables
      are looked up correctly.

    Some theorems record behaviour that the names or comments of the code do not suggest; they
    stand beside the definitions they are about.

    ** Bounds and fuel

    Integers are unbounded with the wrap-around written out where the code relies on a width;
    the exceptions, [right_++] and positions plus offsets, are said where they occur.  Loops over
    texts ([Split], [Replace]) take a fuel, and the theorems show that one round more than there
    are characters is enough; with an empty delimiter no fuel is.  [ClearCache] takes one round
    more than there are idle readers.  [GetRowCount] of a stepping cursor takes one round more than
    there are rows.  A locked table is stepped again at most 51 times, as in the code.  The copy of
    a database has a fuel; [limit] of [CopyProgress] bounds the steps that one copy takes while others lock the databases, and
    the theorems show that every fuel beyond it is enough.  The import of a database has a fuel too;
    [import_ends] gives one that is enough where there is [ImportProgress].  Waits are lists of what other threads
    do until the deadline, of any length.

    ** Not modelled

    The fill through the shared-block extension of SQLite; of the store its distributed tables and
    synchronisation, and the overloads of the base class (rdb_store.cpp); of the connection the
    observers and the calls of the synchronisation library; of the pool its dump; the executor; the
    lock file of the security manager; fault reports; the vector database driver, services, adapters,
    bindings and the inspection plugin.  They are calls of libraries and services that are not part of
    the repository, conversions of arguments, or logging. *)
From Stdlib Require Import ZArith Lia Ascii.
From stdpp Require Import base gmap list strings pretty.

Declare Scope rdb_scope.
Delimit Scope rdb_scope with rdb.
Open Scope rdb_scope.

(** Comparisons of integers whose outcome [lia] knows, evaluated from the left. *)
Ltac decide_z :=
  repeat match goal with
  | |- context [(?a <=? ?b)%Z] =>
      first [rewrite (proj2 (Z.leb_le a b)) by lia | rewrite (proj2 (Z.leb_gt a b)) by lia]
  | |- context [(?a <? ?b)%Z] =>
      first [rewrite (proj2 (Z.ltb_lt a b)) by lia | rewrite (proj2 (Z.ltb_ge a b)) by lia]
  end; cbn [orb andb negb].

(** ** Machine integers *)

Module Int.

(** Reduction of a mathematical integer to an unsigned machine word of [w] bits. *)
Definition wrap (w z : Z) : Z := (z mod 2 ^ w)%Z.

Definition u16 (z : Z) : Z := wrap 16 z.
Definition u32 (z : Z) : Z := wrap 32 z.
Definition u64 (z : Z) : Z := wrap 64 z.

(** Two's complement reading of a [w]-bit word. *)
Definition swrap (w z : Z) : Z := ((z + 2 ^ (w - 1)) mod 2 ^ w - 2 ^ (w - 1))%Z.

Definition i32 (z : Z) : Z := swrap 32 z.
Definition i64 (z : Z) : Z := swrap 64 z.

Definition INT_MIN : Z := (- 2 ^ 31)%Z.
Definition UINT32_MAX : Z := (2 ^ 32 - 1)%Z.

Local Open Scope Z_scope.

Lemma u32_range z : 0 <= u32 z < 2 ^ 32.
Proof. unfold u32, wrap. apply Z.mod_pos_bound. lia. Qed.

Lemma u32_small z : 0 <= z < 2 ^ 32 -> u32 z = z.
Proof. intros H. unfold u32, wrap. apply Z.mod_small. lia. Qed.

Lemma u16_range z : 0 <= u16 z < 2 ^ 16.
Proof. unfold u16, wrap. apply Z.mod_pos_bound. lia. Qed.

Lemma u16_small z : 0 <= z < 2 ^ 16 -> u16 z = z.
Proof. intros H. unfold u16, wrap. apply Z.mod_small. lia. Qed.

Lemma u64_small z : 0 <= z < 2 ^ 64 -> u64 z = z.
Proof. intros H. unfold u64, wrap. apply Z.mod_small. lia. Qed.

Lemma i32_range z : - 2 ^ 31 <= i32 z < 2 ^ 31.
Proof.
  unfold i32, swrap. change (32 - 1) with 31.
  pose proof (Z.mod_pos_bound (z + 2 ^ 31) (2 ^ 32) ltac:(lia)). lia.
Qed.

Lemma i32_small z : - 2 ^ 31 <= z < 2 ^ 31 -> i32 z = z.
Proof.
  intros H. unfold i32, swrap. change (32 - 1) with 31. rewrite Z.mod_small; lia.
Qed.

(** Storing a signed word through its unsigned image and reading it back is the identity. *)
Lemma i32_u32 z : - 2 ^ 31 <= z < 2 ^ 31 -> i32 (u32 z) = z.
Proof.
  intros H. unfold i32, u32, swrap, wrap. change (32 - 1) with 31.
  rewrite Z.add_mod_idemp_l by lia. rewrite Z.mod_small; lia.
Qed.

Lemma i64_u64 z : - 2 ^ 63 <= z < 2 ^ 63 -> i64 (u64 z) = z.
Proof.
  intros H. unfold i64, u64, swrap, wrap. change (64 - 1) with 63.
  rewrite Z.add_mod_idemp_l by lia. rewrite Z.mod_small; lia.
Qed.

Lemma u64_range z : 0 <= u64 z < 2 ^ 64.
Proof. unfold u64, wrap. apply Z.mod_pos_bound. lia. Qed.

End Int.

(** ** Bytes and little-endian words *)

Module Bytes.
Local Open Scope Z_scope.

(** The [n] low bytes of a word, least significant first. *)
Fixpoint le_split (n : nat) (z : Z) : list Z :=
  match n with
  | O => []
  | S n' => (z mod 256) :: le_split n' (z / 256)
  end.

(** The word a little-endian byte sequence denotes. *)
Fixpoint le_join (bs : list Z) : Z :=
  match bs with
  | [] => 0
  | b :: bs' => b + 256 * le_join bs'
  end.

Definition is_byte (b : Z) : Prop := 0 <= b < 256.

Lemma le_split_length n z : length (le_split n z) = n.
Proof. revert z. induction n as [|n IH]; intros z; simpl; [done|]. by rewrite IH. Qed.

Lemma le_split_bytes n z : Forall is_byte (le_split n z).
Proof.
  revert z. induction n as [|n IH]; intros z; simpl; constructor; [|done].
  apply Z.mod_pos_bound. lia.
Qed.

Lemma le_join_split n z : le_join (le_split n z) = z mod 256 ^ Z.of_nat n.
Proof.
  revert z. induction n as [|n IH]; intros z.
  { by rewrite Z.mod_1_r. }
  simpl le_split. simpl le_join. rewrite IH.
  replace (256 ^ Z.of_nat (S n)) with (256 * 256 ^ Z.of_nat n)
    by (rewrite Nat2Z.inj_succ, Z.pow_succ_r; lia).
  by rewrite Z.rem_mul_r by lia.
Qed.

Lemma le_join_split_small n z :
  0 <= z < 256 ^ Z.of_nat n -> le_join (le_split n z) = z.
Proof. intros H. rewrite le_join_split. by apply Z.mod_small. Qed.

Lemma le_join_bound bs : Forall is_byte bs -> 0 <= le_join bs < 256 ^ Z.of_nat (length bs).
Proof.
  induction 1 as [|b bs Hb Hbs IH]; [simpl; lia|].
  cbn [le_join length]. rewrite Nat2Z.inj_succ, Z.pow_succ_r by lia.
  unfold is_byte in Hb. lia.
Qed.

Lemma le_split_join bs :
  Forall is_byte bs -> le_split (length bs) (le_join bs) = bs.
Proof.
  induction 1 as [|b bs Hb Hbs IH]; [done|].
  unfold is_byte in Hb. cbn [le_split le_join length].
  rewrite Z.mul_comm, Z.mod_add, Z.mod_small by lia.
  rewrite Z.div_add, Z.div_small, Z.add_0_l by lia.
  by rewrite IH.
Qed.

End Bytes.

(** ** Programs that may read outside of a buffer

    A program on a state [S]: [None] is undefined behaviour.  [wp] is total: the program has a
    defined result, and the postcondition holds of it. *)

Module Run.

Definition run (S A : Type) : Type := S -> option (A * S).

Section Ops.
Context {S A B : Type}.

Definition ret (a : A) : run S A := fun s => Some (a, s).
Definition bind (m : run S A) (k : A -> run S B) : run S B :=
  fun s => match m s with Some (a, s') => k a s' | None => None end.
Definition undefined : run S A := fun _ => None.

(** A call of another component. *)
Definition call (f : S -> A * S) : run S A := fun s => Some (f s).
Definition get (f : S -> A) : run S A := fun s => Some (f s, s).

Definition wp (m : run S A) (Q : A -> S -> Prop) (s : S) : Prop :=
  match m s with Some (a, s') => Q a s' | None => False end.

End Ops.

Lemma wp_ret {S A} (a : A) (Q : A -> S -> Prop) s : Q a s -> wp (ret a) Q s.
Proof. done. Qed.

Lemma wp_bind {S A B} (m : run S A) (k : A -> run S B) (Q : B -> S -> Prop) s :
  wp m (fun a => wp (k a) Q) s -> wp (bind m k) Q s.
Proof. unfold wp, bind. by destruct (m s) as [[a s']|]. Qed.

Lemma wp_call {S A} (f : S -> A * S) (Q : A -> S -> Prop) s a s' : f s = (a, s') -> Q a s' -> wp (call f) Q s.
Proof. unfold wp, call. by intros ->. Qed.

Lemma wp_get {S A} (f : S -> A) (Q : A -> S -> Prop) s : Q (f s) s -> wp (get f) Q s.
Proof. done. Qed.

Lemma wp_mono {S A} (m : run S A) (Q R : A -> S -> Prop) s :
  wp m Q s -> (forall a s', Q a s' -> R a s') -> wp m R s.
Proof. unfold wp. destruct (m s) as [[a s']|]; auto. Qed.

Lemma wp_and {S A} (m : run S A) (Q R : A -> S -> Prop) s :
  wp m Q s -> wp m R s -> wp m (fun a s' => Q a s' /\ R a s') s.
Proof. unfold wp. destruct (m s) as [[a s']|]; auto. Qed.

Lemma wp_run {S A} (m : run S A) (Q : A -> S -> Prop) s :
  wp m Q s -> exists a s', m s = Some (a, s') /\ Q a s'.
Proof. unfold wp. destruct (m s) as [[a s']|]; [eauto|done]. Qed.

Lemma wp_intro {S A} (m : run S A) (Q : A -> S -> Prop) s a s' : m s = Some (a, s') -> Q a s' -> wp m Q s.
Proof. unfold wp. by intros ->. Qed.

(** *** An object in a world *)

Section Object.
Context {O W : Type}.

Definition self : run (O * W) O := get fst.
Definition modify (f : O -> O) : run (O * W) unit := fun s => Some (tt, (f s.1, s.2)).
(** Calls that change the world. *)
Definition sys {A} (f : W -> A * W) : run (O * W) A := fun s => let '(a, w) := f s.2 in Some (a, (s.1, w)).
Definition sys_ (f : W -> W) : run (O * W) unit := fun s => Some (tt, (s.1, f s.2)).
Definition when (b : bool) (m : run (O * W) unit) : run (O * W) unit := if b then m else ret tt.

Lemma wp_modify f (Q : unit -> O * W -> Prop) s : Q tt (f s.1, s.2) -> wp (modify f) Q s.
Proof. done. Qed.

Lemma wp_sys {A} (f : W -> A * W) (Q : A -> O * W -> Prop) s : (forall a w, f s.2 = (a, w) -> Q a (s.1, w)) -> wp (sys f) Q s.
Proof. intros HQ. unfold wp, sys. destruct (f s.2) as [a w] eqn:E. by apply HQ. Qed.

(** The operation gives an answer and changes the object as [R] says. *)
Definition keeps {A} (R : relation O) (m : run (O * W) A) : Prop := forall s, wp m (fun _ s' => R s.1 s'.1) s.

Lemma wp_keeps {A} R (m : run (O * W) A) (Q : A -> O * W -> Prop) s :
  keeps R m -> (forall a s', R s.1 s'.1 -> Q a s') -> wp m Q s.
Proof. intros Hm HQ. eapply wp_mono; [apply Hm|]. apply HQ. Qed.

Context (R : relation O) `{!PreOrder R}.

Lemma keeps_ret {A} (a : A) : keeps R (ret a).
Proof. intros s. apply wp_ret. reflexivity. Qed.

Lemma keeps_bind {A B} (m : run (O * W) A) (k : A -> run (O * W) B) :
  keeps R m -> (forall a, keeps R (k a)) -> keeps R (bind m k).
Proof.
  intros Hm Hk s. apply wp_bind. eapply wp_mono; [apply Hm|]. intros a s1 H1. eapply wp_mono; [apply Hk|].
  intros b s2 H2. simpl in *. by etrans.
Qed.

Lemma keeps_get {A} (f : O * W -> A) : keeps R (get f).
Proof. intros s. apply wp_get. reflexivity. Qed.

Lemma keeps_self : keeps R self.
Proof. apply keeps_get. Qed.

Lemma keeps_sys {A} (f : W -> A * W) : keeps R (sys f).
Proof. intros s. unfold wp, sys. destruct (f s.2). simpl. reflexivity. Qed.

Lemma keeps_sys_ (f : W -> W) : keeps R (sys_ f).
Proof. intros s. unfold wp, sys_. simpl. reflexivity. Qed.

Lemma keeps_when b m : keeps R m -> keeps R (when b m).
Proof. intros Hm. destruct b; [done|]. apply keeps_ret. Qed.

Lemma keeps_modify f : (forall o, R o (f o)) -> keeps R (modify f).
Proof. intros Hf s. apply Hf. Qed.

End Object.

End Run.

Create HintDb keeps.
#[export] Hint Resolve Run.keeps_ret Run.keeps_get Run.keeps_self Run.keeps_sys Run.keeps_sys_ Run.keeps_when : keeps.

(** Splits a sequence of operations and settles the calls of other components. *)
Ltac keeping :=
  repeat first
    [ solve [eauto with keeps typeclass_instances]
    | apply Run.keeps_bind; [apply _| |intros ?]
    | apply Run.keeps_when; [apply _|]
    | apply Run.keeps_modify; intros ?; by split
    | case_match ].

Notation "'let!' p := m 'in' k" := (Run.bind m (fun x => match x with p => k end))
  (at level 200, p pattern, m at level 200, k at level 200, only parsing) : rdb_scope.
