(* ===== verification/CppStd.v ===== *)
(** * The parts of the C++ standard library the modelled code calls

    [Str]: the [std::string] operations used by the sources ([find], [rfind],
    [find_last_of], [substr], [erase], [pop_back], [toupper] over a string, the order of
    [operator<]), as total functions, with the lemmas the components share.
    Positions are [nat]; [npos] is [None].

    [OMap]: [std::map] and [std::set] as lists sorted by a comparison function, since
    the sources iterate over them in key order; [insert] keeps an existing
    element (as [std::map::insert] and [emplace] do) and [insert_or_assign]
    overwrites it. *)
From Stdlib Require Import ZArith Lia Ascii Sorted.
From stdpp Require Import base gmap list strings pretty.
From S2P Require Import Prelude.

Module Str.

(** [s.size()]. *)
Abbreviation size := String.length.

(** [s.empty()]. *)
Definition empty (s : string) : bool :=
  match s with EmptyString => true | String _ _ => false end.

Fixpoint take (n : nat) (s : string) : string :=
  match n, s with
  | S n', String c s' => String c (take n' s')
  | _, _ => EmptyString
  end.

Fixpoint drop (n : nat) (s : string) : string :=
  match n, s with
  | S n', String _ s' => drop n' s'
  | _, _ => s
  end.

(** [s.substr(pos, n)] for [pos <= s.size()]. *)
Definition substr (s : string) (pos n : nat) : string := take n (drop pos s).

(** [s.substr(pos)] for [pos <= s.size()]. *)
Definition substr_from (s : string) (pos : nat) : string := drop pos s.

(** First position at which [pat] occurs in [s]. *)
Fixpoint search (pat s : string) : option nat :=
  if String.prefix pat s then Some 0%nat
  else match s with
       | EmptyString => None
       | String _ s' => S <$> search pat s'
       end.

(** [s.find(pat, pos)]. *)
Definition find (s pat : string) (pos : nat) : option nat :=
  if (pos <=? size s)%nat then Nat.add pos <$> search pat (drop pos s) else None.

(** [s.find(c)] for a character. *)
Fixpoint find_char (c : ascii) (s : string) : option nat :=
  match s with
  | EmptyString => None
  | String c' s' => if Ascii.eqb c c' then Some 0%nat else S <$> find_char c s'
  end.

(** The last position whose character satisfies [p]: [rfind] and [find_last_of]. *)
Fixpoint find_last (p : ascii -> bool) (s : string) : option nat :=
  match s with
  | EmptyString => None
  | String c s' =>
      match find_last p s' with
      | Some n => Some (S n)
      | None => if p c then Some 0%nat else None
      end
  end.

(** The first position whose character satisfies [p]. *)
Fixpoint find_first (p : ascii -> bool) (s : string) : option nat :=
  match s with
  | EmptyString => None
  | String c s' => if p c then Some 0%nat else S <$> find_first p s'
  end.

(** [s.erase(std::remove(...))]: the characters different from [c]. *)
Fixpoint remove_char (c : ascii) (s : string) : string :=
  match s with
  | EmptyString => EmptyString
  | String c' s' =>
      if Ascii.eqb c c' then remove_char c s' else String c' (remove_char c s')
  end.

(** [s.erase(pos, 1)]. *)
Definition erase1 (s : string) (pos : nat) : string := take pos s +:+ drop (S pos) s.

(** [s.pop_back()]. *)
Definition pop_back (s : string) : string := take (size s - 1) s.

Lemma pop_back_app_r x y : y <> EmptyString -> pop_back (String.append x y) = String.append x (pop_back y).
Proof.
  intros Hy. induction x as [|c x IH]; [done|].
  assert (exists n, size (String.append x y) = S n) as [n Hn].
  { destruct x as [|d x]; simpl; [|by eexists]. destruct y; simpl; [done|by eexists]. }
  unfold pop_back in *. simpl.
  rewrite Hn in *. simpl in *. rewrite Nat.sub_0_r in IH. by rewrite IH.
Qed.

Fixpoint map (f : ascii -> ascii) (s : string) : string :=
  match s with
  | EmptyString => EmptyString
  | String c s' => String (f c) (map f s')
  end.

(** [std::toupper] in the C locale. *)
Definition toupper (c : ascii) : ascii :=
  let n := N_of_ascii c in
  if (97 <=? n)%N && (n <=? 122)%N then ascii_of_N (n - 32) else c.

(** The number of occurrences of a character. *)
Fixpoint count (c : ascii) (s : string) : nat :=
  match s with
  | EmptyString => 0
  | String c' s' => (if Ascii.eqb c c' then 1 else 0) + count c s'
  end.

(** [a < b] on [std::string]: lexicographic on unsigned characters. *)
Definition ltb (a b : string) : bool := String.ltb a b.

(** [std::string(n, c)]. *)
Fixpoint fill (n : nat) (c : ascii) : string :=
  match n with O => EmptyString | S n' => String c (fill n' c) end.

(** [sep]-separated concatenation, the reference for the joining loops. *)
Fixpoint join (sep : string) (l : list string) : string :=
  match l with
  | [] => EmptyString
  | [x] => x
  | x :: l' => x +:+ sep +:+ join sep l'
  end.

(** *** Lemmas *)

#[local] Arguments String.append !_ _ / : simpl nomatch.

Lemma app_nil_r s : s +:+ EmptyString = s.
Proof. induction s as [|c s IH]; simpl; [done|]. by rewrite IH. Qed.

Lemma app_assoc a b c : (a +:+ b) +:+ c = a +:+ (b +:+ c).
Proof. induction a as [|x a IH]; simpl; [done|]. by rewrite IH. Qed.

Lemma size_app a b : size (a +:+ b) = (size a + size b)%nat.
Proof. induction a as [|x a IH]; simpl; [done|]. by rewrite IH. Qed.

Lemma app_cancel_l a b c : a +:+ b = a +:+ c -> b = c.
Proof. induction a as [|x a IH]; simpl; [done|]. intros [= Ha]. auto. Qed.

Lemma app_cancel_r a b c : a +:+ c = b +:+ c -> a = b.
Proof.
  revert b. induction a as [|x a IH]; intros [|y b] Heq; [done|..].
  - apply (f_equal size) in Heq. rewrite !size_app in Heq. simpl in Heq. lia.
  - apply (f_equal size) in Heq. rewrite !size_app in Heq. simpl in Heq. lia.
  - simpl in Heq. injection Heq as -> Heq. f_equal. by apply IH.
Qed.

Lemma count_app c a b : count c (a +:+ b) = (count c a + count c b)%nat.
Proof. induction a as [|x a IH]; simpl; [done|]. rewrite IH. lia. Qed.

Lemma take_drop n s : take n s +:+ drop n s = s.
Proof.
  revert n. induction s as [|c s IH]; intros [|n]; simpl; try done.
  f_equal. apply IH.
Qed.

Lemma size_take n s : size (take n s) = Nat.min n (size s).
Proof. revert n. induction s as [|c s IH]; intros [|n]; simpl; [done..|]. by rewrite IH. Qed.

Lemma size_drop n s : size (drop n s) = (size s - n)%nat.
Proof. revert n. induction s as [|c s IH]; intros [|n]; simpl; [done..|]. by rewrite IH. Qed.

Lemma take_app_size a b : take (size a) (a +:+ b) = a.
Proof. induction a as [|c a IH]; simpl; [by destruct b|]. by rewrite IH. Qed.

Lemma drop_app_size a b : drop (size a) (a +:+ b) = b.
Proof. induction a as [|c a IH]; simpl; [by destruct b|]. by rewrite IH. Qed.

Lemma drop_drop n m s : drop n (drop m s) = drop (m + n) s.
Proof. revert n s. induction m as [|m IH]; intros n [|c s]; simpl; auto. by destruct n. Qed.

Lemma take_all n s : (size s <= n)%nat -> take n s = s.
Proof.
  revert n. induction s as [|c s IH]; intros [|n]; simpl; intros H; try done; try lia.
  f_equal. apply IH. lia.
Qed.

Lemma drop_all n s : (size s <= n)%nat -> drop n s = EmptyString.
Proof.
  revert n. induction s as [|c s IH]; intros [|n]; simpl; intros H; try done; try lia.
  apply IH. lia.
Qed.

Lemma empty_true s : empty s = true <-> s = EmptyString.
Proof. by destruct s. Qed.

Lemma prefix_app p s : String.prefix p s = true <-> exists r, s = p +:+ r.
Proof.
  revert s. induction p as [|c p IH]; intros s.
  { split; [intros _; by exists s|]. by destruct s. }
  destruct s as [|c' s].
  { split; [done|]. intros [r Hr]. done. }
  simpl. destruct (ascii_dec c c') as [->|Hne].
  - rewrite IH. split; intros [r Hr]; exists r; simpl in *; [by f_equal|]. by inversion Hr.
  - split; [done|]. intros [r Hr]. simpl in Hr. congruence.
Qed.

(** [search] finds an occurrence, and the first one. *)
Lemma search_Some pat s n :
  search pat s = Some n ->
  (n + size pat <= size s)%nat /\
  s = take n s +:+ pat +:+ drop (n + size pat) s /\
  (forall m, (m < n)%nat -> String.prefix pat (drop m s) = false).
Proof.
  revert n. induction s as [|c s IH]; intros n H; cbn [search] in H.
  - destruct (String.prefix pat EmptyString) eqn:Hp; [|done].
    injection H as <-. apply prefix_app in Hp as [r Hr].
    destruct pat; simpl in Hr; [|done]. simpl. split; [lia|]. split; [done|]. intros m Hm; lia.
  - destruct (String.prefix pat (String c s)) eqn:Hp.
    + injection H as <-. apply prefix_app in Hp as [r Hr].
      rewrite Hr. split; [rewrite size_app; lia|]. split; [|intros m Hm; lia].
      simpl take. by rewrite Nat.add_0_l, drop_app_size.
    + destruct (search pat s) as [m|] eqn:Hs; [|done]. simpl in H. injection H as <-.
      destruct (IH m eq_refl) as (Hle & Heq & Hfst). simpl.
      split; [lia|]. split; [by f_equal|].
      intros [|k] Hk; [done|]. simpl. apply Hfst. lia.
Qed.

Lemma search_None pat s :
  search pat s = None -> forall m, (m <= size s)%nat -> String.prefix pat (drop m s) = false.
Proof.
  induction s as [|c s IH]; intros H [|m] Hm; cbn [search] in H.
  - cbn [drop]. by destruct (String.prefix pat EmptyString).
  - simpl in Hm. lia.
  - cbn [drop]. by destruct (String.prefix pat (String c s)).
  - destruct (String.prefix pat (String c s)); [done|].
    destruct (search pat s) eqn:Hs; [done|]. simpl in *. apply IH; [done|lia].
Qed.

Lemma find_Some s pat pos n :
  find s pat pos = Some n -> (pos <= n)%nat /\ (n + size pat <= size s)%nat /\
  search pat (drop pos s) = Some (n - pos)%nat.
Proof.
  unfold find. destruct (Nat.leb_spec pos (size s)) as [Hle|]; [|done].
  destruct (search pat (drop pos s)) as [m|] eqn:Hs; [|done]. simpl. intros [= <-].
  destruct (search_Some _ _ _ Hs) as (Hb & _ & _). rewrite size_drop in Hb.
  split; [lia|]. split; [lia|]. f_equal. lia.
Qed.

Lemma find_last_Some p s n :
  find_last p s = Some n ->
  (n < size s)%nat /\ exists c, p c = true /\ s = take n s +:+ String c (drop (S n) s).
Proof.
  revert n. induction s as [|c s IH]; intros n H; simpl in H; [done|].
  destruct (find_last p s) as [m|] eqn:Hs.
  - injection H as <-. destruct (IH m eq_refl) as (Hlt & c' & Hc & Heq).
    simpl. split; [lia|]. exists c'. split; [done|]. by f_equal.
  - destruct (p c) eqn:Hc; [|done]. injection H as <-. simpl.
    split; [lia|]. exists c. split; [done|]. by destruct s.
Qed.

Lemma find_char_Some c s n :
  find_char c s = Some n ->
  s = take n s +:+ String c (drop (S n) s) /\ count c (take n s) = 0%nat.
Proof.
  revert n. induction s as [|c' s IH]; intros n H; simpl in H; [done|].
  destruct (Ascii.eqb_spec c c') as [->|Hne].
  - injection H as <-. split; [|done]. by destruct s.
  - destruct (find_char c s) as [m|] eqn:Hs; [|done]. simpl in H. injection H as <-.
    destruct (IH m eq_refl) as [Heq Hcnt]. simpl. split; [by f_equal|].
    rewrite Hcnt. by destruct (Ascii.eqb_spec c c').
Qed.

Lemma find_char_None c s : find_char c s = None -> count c s = 0%nat.
Proof.
  induction s as [|c' s IH]; simpl; [done|].
  destruct (Ascii.eqb c c'); [done|]. destruct (find_char c s); [done|]. auto.
Qed.

Lemma size_fill n c : size (fill n c) = n.
Proof. induction n as [|n IH]; simpl; [done|]. by rewrite IH. Qed.

Lemma join_cons sep x l :
  l <> [] -> join sep (x :: l) = x +:+ sep +:+ join sep l.
Proof. by destruct l. Qed.

Lemma join_app sep l x :
  l <> [] -> join sep (l ++ [x]) = join sep l +:+ sep +:+ x.
Proof.
  induction l as [|y l IH]; [done|]. intros _. destruct l as [|z l]; [done|].
  change ((y :: z :: l) ++ [x]) with (y :: (z :: l) ++ [x]).
  rewrite (join_cons _ y ((z :: l) ++ [x])), (join_cons _ y (z :: l)) by done.
  rewrite IH by done. by rewrite !app_assoc.
Qed.

Lemma count_join_sep c sep l :
  count c sep = 0%nat -> count c (join sep l) = sum_list_with (count c) l.
Proof.
  intros Hs. induction l as [|x l IH]; [done|]. destruct l as [|y l].
  - simpl. lia.
  - rewrite join_cons by done. rewrite !count_app, Hs, IH. simpl. lia.
Qed.

(** The order on strings is a strict total order. *)
Lemma ltb_irrefl s : ltb s s = false.
Proof.
  unfold ltb, String.ltb. induction s as [|c s IH]; simpl; [done|].
  unfold Ascii.compare. by rewrite N.compare_refl.
Qed.

Lemma ltb_cons c s c' s' :
  ltb (String c s) (String c' s') =
  (N_of_ascii c <? N_of_ascii c')%N || ((N_of_ascii c =? N_of_ascii c')%N && ltb s s').
Proof.
  unfold ltb, String.ltb. simpl. unfold Ascii.compare.
  destruct (N.compare_spec (N_of_ascii c) (N_of_ascii c')) as [H|H|H].
  - rewrite H, N.eqb_refl, N.ltb_irrefl. done.
  - by apply N.ltb_lt in H as ->.
  - replace (N_of_ascii c <? N_of_ascii c')%N with false by (symmetry; apply N.ltb_ge; lia).
    replace (N_of_ascii c =? N_of_ascii c')%N with false by (symmetry; apply N.eqb_neq; lia).
    done.
Qed.

Lemma ltb_trans a b c : ltb a b = true -> ltb b c = true -> ltb a c = true.
Proof.
  revert b c. induction a as [|x a IH]; intros [|y b] [|z c]; try done.
  rewrite !ltb_cons.
  rewrite !orb_true_iff, !andb_true_iff, !N.ltb_lt, !N.eqb_eq.
  intros [H1|[H1 H1']] [H2|[H2 H2']]; [left; lia|left; lia|left; lia|].
  right. split; [congruence|eauto].
Qed.

Lemma ltb_total a b : ltb a b = false -> ltb b a = false -> a = b.
Proof.
  revert b. induction a as [|x a IH]; intros [|y b]; try done.
  rewrite !ltb_cons, !orb_false_iff, !andb_false_iff, !N.ltb_ge, !N.eqb_neq.
  intros [H1 H1'] [H2 H2']. assert (N_of_ascii x = N_of_ascii y) as Heq by lia.
  f_equal.
  - by rewrite <-(ascii_N_embedding x), <-(ascii_N_embedding y), Heq.
  - apply IH; [destruct H1'|destruct H2']; done.
Qed.

Lemma ltb_asym a b : ltb a b = true -> ltb b a = false.
Proof.
  intros H. destruct (ltb b a) eqn:H'; [|done].
  by rewrite <-(ltb_irrefl a), (ltb_trans a b a H H').
Qed.

End Str.

(** ** std::map and std::set as sorted lists *)

Module OMap.

Section Ordered.
Context {K V : Type} (lt : K -> K -> bool).

(** [m.insert({k, v})]: the first element not less than [k] decides; an equivalent key
    keeps its value. *)
Fixpoint insert (k : K) (v : V) (m : list (K * V)) : list (K * V) :=
  match m with
  | [] => [(k, v)]
  | (k', v') :: m' =>
      if lt k' k then (k', v') :: insert k v m'
      else if lt k k' then (k, v) :: (k', v') :: m'
      else (k', v') :: m'
  end.

(** [m.insert_or_assign(k, v)]. *)
Fixpoint insert_or_assign (k : K) (v : V) (m : list (K * V)) : list (K * V) :=
  match m with
  | [] => [(k, v)]
  | (k', v') :: m' =>
      if lt k' k then (k', v') :: insert_or_assign k v m'
      else if lt k k' then (k, v) :: (k', v') :: m'
      else (k', v) :: m'
  end.

(** [m.find(k)]: the element equivalent to [k]. *)
Fixpoint find (k : K) (m : list (K * V)) : option (K * V) :=
  match m with
  | [] => None
  | (k', v') :: m' =>
      if lt k' k then find k m'
      else if lt k k' then None
      else Some (k', v')
  end.

Definition lookup (k : K) (m : list (K * V)) : option V := snd <$> find k m.

(** [m.erase(k)]. *)
Fixpoint erase (k : K) (m : list (K * V)) : list (K * V) :=
  match m with
  | [] => []
  | (k', v') :: m' =>
      if lt k' k then (k', v') :: erase k m'
      else if lt k k' then (k', v') :: m'
      else m'
  end.

(** The representation invariant: keys strictly increasing. *)
Definition sorted (m : list (K * V)) : Prop :=
  StronglySorted (fun a b => lt a.1 b.1 = true) m.

End Ordered.

(** *** Maps with string keys, where the order is total *)

Abbreviation smap V := (list (string * V)).

Section StringKeys.
Context {V : Type}.
Implicit Types (m : smap V) (k : string) (v : V).

Abbreviation sinsert := (@insert string V Str.ltb).
Abbreviation sassign := (@insert_or_assign string V Str.ltb).
Abbreviation slookup := (@lookup string V Str.ltb).
Abbreviation serase := (@erase string V Str.ltb).
Abbreviation ssorted := (@sorted string V Str.ltb).

Lemma lookup_nil k : slookup k [] = None.
Proof. done. Qed.

Lemma lookup_below k m : Forall (fun p => Str.ltb k p.1 = true) m -> slookup k m = None.
Proof.
  destruct m as [|[k' v'] m]; [done|]. inversion 1 as [|? ? Hlt _]; subst. simpl in Hlt.
  unfold lookup. cbn [find]. by rewrite (Str.ltb_asym _ _ Hlt), Hlt.
Qed.

Lemma sorted_below k p m :
  ssorted (p :: m) -> Str.ltb k p.1 = true -> Forall (fun q => Str.ltb k q.1 = true) m.
Proof.
  inversion 1 as [|? ? Hs Hall]; subst. intros Hk. eapply Forall_impl; [exact Hall|].
  intros q Hq. by eapply Str.ltb_trans.
Qed.

Lemma lookup_cons k k' v' m :
  ssorted ((k', v') :: m) ->
  slookup k ((k', v') :: m) = if decide (k = k') then Some v' else slookup k m.
Proof.
  intros Hs. unfold lookup. cbn [find].
  destruct (Str.ltb k' k) eqn:H1.
  { case_decide as He; [|done]. subst. by rewrite Str.ltb_irrefl in H1. }
  destruct (Str.ltb k k') eqn:H2.
  - case_decide as He; [subst; by rewrite Str.ltb_irrefl in H2|].
    symmetry. apply lookup_below. by eapply sorted_below.
  - rewrite (Str.ltb_total _ _ H2 H1). by rewrite decide_True.
Qed.

Lemma sorted_tail p m : ssorted (p :: m) -> ssorted m.
Proof. by inversion 1. Qed.

Lemma insert_keys k v m p : p ∈ sinsert k v m -> p = (k, v) \/ p ∈ m.
Proof.
  induction m as [|[k' v'] m IH]; simpl; [set_solver|].
  destruct (Str.ltb k' k); [set_solver|]. destruct (Str.ltb k k'); set_solver.
Qed.

Lemma assign_keys k v m p :
  p ∈ sassign k v m -> p.1 = k \/ p ∈ m.
Proof.
  induction m as [|[k' v'] m IH]; simpl; [set_solver|].
  destruct (Str.ltb k' k) eqn:H1; [set_solver|].
  destruct (Str.ltb k k') eqn:H2; [set_solver|].
  rewrite elem_of_cons. intros [->|Hp]; [left; simpl; symmetry; by apply Str.ltb_total|set_solver].
Qed.

Lemma insert_sorted k v m : ssorted m -> ssorted (sinsert k v m).
Proof.
  induction m as [|[k' v'] m IH]; simpl; intros Hs; [repeat constructor|].
  inversion Hs as [|? ? Hs' Hall]; subst.
  destruct (Str.ltb k' k) eqn:H1.
  - constructor; [by apply IH|]. apply Forall_forall. intros p Hp.
    apply insert_keys in Hp as [->|Hp]; [done|]. exact (proj1 (Forall_forall _ _) Hall _ Hp).
  - destruct (Str.ltb k k') eqn:H2; [|done].
    constructor; [done|]. constructor; [done|].
    eapply Forall_impl; [exact Hall|]. intros [k2 v2] Hk2. simpl in *. by eapply Str.ltb_trans.
Qed.

Lemma assign_sorted k v m : ssorted m -> ssorted (sassign k v m).
Proof.
  induction m as [|[k' v'] m IH]; simpl; intros Hs; [repeat constructor|].
  inversion Hs as [|? ? Hs' Hall]; subst.
  destruct (Str.ltb k' k) eqn:H1.
  - constructor; [by apply IH|]. apply Forall_forall. intros [k2 v2] Hp.
    apply assign_keys in Hp as [Hp|Hp]; simpl in *; [by subst|].
    exact (proj1 (Forall_forall _ _) Hall _ Hp).
  - destruct (Str.ltb k k') eqn:H2; [|by constructor].
    constructor; [done|]. constructor; [done|].
    eapply Forall_impl; [exact Hall|]. intros [k2 v2] Hk2. simpl in *. by eapply Str.ltb_trans.
Qed.

Lemma erase_sub k m p : p ∈ serase k m -> p ∈ m.
Proof.
  induction m as [|[k' v'] m IH]; simpl; [done|].
  destruct (Str.ltb k' k); [set_solver|]. destruct (Str.ltb k k'); set_solver.
Qed.

Lemma erase_sorted k m : ssorted m -> ssorted (serase k m).
Proof.
  induction m as [|[k' v'] m IH]; simpl; intros Hs; [done|].
  inversion Hs as [|? ? Hs' Hall]; subst.
  destruct (Str.ltb k' k) eqn:H1; [|by destruct (Str.ltb k k')].
  constructor; [by apply IH|]. apply Forall_forall. intros p Hp.
  apply erase_sub in Hp. exact (proj1 (Forall_forall _ _) Hall _ Hp).
Qed.

(** The three updates, read through [lookup]. *)
Lemma lookup_insert k v m k2 :
  ssorted m ->
  slookup k2 (sinsert k v m) =
  if decide (k2 = k) then Some (default v (slookup k m)) else slookup k2 m.
Proof.
  induction m as [|[k' v'] m IH]; intros Hs.
  { cbn [insert]. rewrite (lookup_cons k2 k v []); [by case_decide|]. repeat constructor. }
  pose proof (sorted_tail _ _ Hs) as Hs'. pose proof (insert_sorted k v _ Hs) as Hi.
  revert Hi. cbn [insert]. rewrite (lookup_cons k), (lookup_cons k2 k' v' m) by done.
  destruct (Str.ltb k' k) eqn:H1; intros Hi.
  { rewrite lookup_cons, IH by done.
    assert (k <> k') as Hne by (intros ->; by rewrite Str.ltb_irrefl in H1).
    rewrite (decide_False (P := k = k')) by done.
    repeat case_decide; subst; done. }
  destruct (Str.ltb k k') eqn:H2.
  - rewrite lookup_cons, lookup_cons by done.
    assert (k <> k') as Hne by (intros ->; by rewrite Str.ltb_irrefl in H2).
    rewrite (decide_False (P := k = k')) by done.
    destruct (decide (k2 = k)); [|done]. f_equal.
    pose proof (lookup_cons k k' v' m Hs) as Hl. rewrite decide_False in Hl by done.
    rewrite <-Hl. unfold lookup. cbn [find]. by rewrite H1, H2.
  - assert (k = k') as -> by (by apply Str.ltb_total).
    rewrite lookup_cons by done. rewrite (decide_True (P := k' = k')) by done.
    by repeat case_decide.
Qed.

Lemma lookup_assign k v m k2 :
  ssorted m ->
  slookup k2 (sassign k v m) = if decide (k2 = k) then Some v else slookup k2 m.
Proof.
  induction m as [|[k' v'] m IH]; intros Hs.
  { cbn [insert_or_assign]. rewrite (lookup_cons k2 k v []); [by case_decide|]. repeat constructor. }
  pose proof (sorted_tail _ _ Hs) as Hs'. pose proof (assign_sorted k v _ Hs) as Hi.
  revert Hi. cbn [insert_or_assign]. rewrite (lookup_cons k2 k' v' m) by done.
  destruct (Str.ltb k' k) eqn:H1; intros Hi.
  { rewrite lookup_cons, IH by done.
    assert (k <> k') as Hne by (intros ->; by rewrite Str.ltb_irrefl in H1).
    repeat case_decide; subst; done. }
  destruct (Str.ltb k k') eqn:H2.
  - by rewrite lookup_cons, lookup_cons by done.
  - assert (k = k') as -> by (by apply Str.ltb_total).
    rewrite lookup_cons by done. by repeat case_decide.
Qed.

Lemma lookup_erase k m k2 :
  ssorted m ->
  slookup k2 (serase k m) = if decide (k2 = k) then None else slookup k2 m.
Proof.
  induction m as [|[k' v'] m IH]; intros Hs; [by case_decide|].
  pose proof (sorted_tail _ _ Hs) as Hs'. pose proof (erase_sorted k _ Hs) as Hi.
  revert Hi. cbn [erase]. rewrite (lookup_cons k2 k' v' m) by done.
  destruct (Str.ltb k' k) eqn:H1; intros Hi.
  { rewrite lookup_cons, IH by done.
    assert (k <> k') as Hne by (intros ->; by rewrite Str.ltb_irrefl in H1).
    repeat case_decide; subst; done. }
  destruct (Str.ltb k k') eqn:H2.
  - rewrite lookup_cons by done. case_decide as He; [|by case_decide].
    subst. rewrite decide_False by (intros ->; by rewrite Str.ltb_irrefl in H2).
    apply lookup_below. by eapply sorted_below.
  - assert (k = k') as -> by (by apply Str.ltb_total).
    case_decide as He; [|done]. subst.
    apply lookup_below. by inversion Hs.
Qed.

(** Splitting a sorted map at its last entry. *)
Lemma sorted_app_l m m' : ssorted (m ++ m') -> ssorted m.
Proof.
  induction m as [|p m IH]; intros Hs; [constructor|]. inversion Hs as [|? ? Hs' Hall]; subst.
  constructor; [by apply IH|]. by apply Forall_app in Hall as [? _].
Qed.

Lemma lookup_fresh_app m c v : ssorted (m ++ [(c, v)]) -> slookup c m = None.
Proof.
  induction m as [|[k' v'] m IH]; intros Hs; [done|].
  rewrite lookup_cons by (by apply (sorted_app_l _ [(c, v)])).
  inversion Hs as [|? ? Hs' Hall]; subst. apply Forall_app in Hall as [_ Hlt].
  inversion Hlt as [|? ? Hc _]; subst. simpl in Hc.
  rewrite decide_False by (intros ->; by rewrite Str.ltb_irrefl in Hc). by apply IH.
Qed.

Lemma lookup_app_last m c v k :
  ssorted (m ++ [(c, v)]) ->
  slookup k (m ++ [(c, v)]) = if decide (k = c) then Some v else slookup k m.
Proof.
  induction m as [|[k' v'] m IH]; intros Hs.
  { cbn [app]. rewrite lookup_cons by done. done. }
  cbn [app] in *. rewrite lookup_cons by done.
  rewrite (lookup_cons k k' v' m) by (by apply (sorted_app_l _ [(c, v)])).
  inversion Hs as [|? ? Hs' Hall]; subst. apply Forall_app in Hall as [_ Hlt].
  inversion Hlt as [|? ? Hc _]; subst. simpl in Hc.
  assert (k' <> c) as Hne by (intros ->; by rewrite Str.ltb_irrefl in Hc).
  rewrite IH by done. repeat case_decide; subst; done.
Qed.

Lemma lookup_elem k v m : ssorted m -> slookup k m = Some v <-> (k, v) ∈ m.
Proof.
  induction m as [|[k' v'] m IH]; intros Hs; [rewrite lookup_nil; set_solver|].
  rewrite lookup_cons, elem_of_cons by done. specialize (IH (sorted_tail _ _ Hs)).
  inversion Hs as [|? ? _ Hall]; subst. case_decide as Hk.
  - subst. split; [intros [= ->]; by left|]. intros [Hp|Hp]; [by injection Hp as ->|].
    rewrite Forall_forall in Hall. specialize (Hall _ Hp). simpl in Hall. by rewrite Str.ltb_irrefl in Hall.
  - rewrite IH. split; [by right|]. intros [Hp|Hp]; [by injection Hp as -> ->|done].
Qed.

Lemma sorted_nodup m : ssorted m -> NoDup (map fst m).
Proof.
  induction 1 as [|[k v] m Hs IH Hall]; simpl; constructor; [|done]. intros Hin.
  apply list_elem_of_fmap in Hin as ([k2 v2] & Hk & Hin). simpl in Hk. subst k2.
  rewrite Forall_forall in Hall. specialize (Hall _ Hin). simpl in Hall. by rewrite Str.ltb_irrefl in Hall.
Qed.

End StringKeys.

End OMap.
