(* ===== verification/Traces.v ===== *)
(** * The worlds that an operation goes through

    Worlds with their history, and a logic for operations on them: every world that an operation
    goes through, and not only the last one, is in an invariant, so a process that ends half way
    leaves a world that is in it too. *)
From stdpp Require Import base list.
From S2P Require Import Prelude.

Import Run.

Module Traces.

(** A world with the worlds behind it, the last one first: every call that changes the world is
    recorded, so an operation that is cut off leaves one of them. *)
Definition traced (W : Type) : Type := W * list W.

Section Traced.
Context {O W : Type}.

(** A world without a history. *)
Definition fresh (w : W) : traced W := (w, []).

Definition lift {A} (f : W -> A * W) (s : traced W) : A * traced W :=
  let '(a, w) := f s.1 in (a, (w, w :: s.2)).
Definition lift_ (f : W -> W) (s : traced W) : traced W := let w := f s.1 in (w, w :: s.2).

Abbreviation op := (run (O * traced W)).

(** The operation gives an answer; every world it goes through is in [I], and [Q] holds of the end. *)
Definition through {A} (I : W -> Prop) (m : op A) (Q : A -> O -> W -> Prop) (o : O) (w : W) : Prop :=
  forall tr, wp m (fun a s => (exists ws, s.2.2 = ws ++ tr /\ Forall I ws) /\ Q a s.1 s.2.1) (o, (w, tr)).

Section Rules.
Context (I : W -> Prop).

Lemma th_ret {A} (a : A) (Q : A -> O -> W -> Prop) o w : Q a o w -> through I (ret a) Q o w.
Proof. intros HQ tr. apply wp_ret. split; [by exists []|done]. Qed.

Lemma th_bind {A B} (m : op A) (k : A -> op B) Q o w :
  through I m (fun a => through I (k a) Q) o w -> through I (bind m k) Q o w.
Proof.
  intros Hm tr. apply wp_bind. eapply wp_mono; [apply Hm|]. intros a [o1 [w1 tr1]] ((ws & Hws & HI) & Hk). simpl in *. subst tr1.
  eapply wp_mono; [apply Hk|]. intros b s2 ((ws2 & Hws2 & HI2) & HQ). split; [|done]. exists (ws2 ++ ws).
  rewrite Hws2, <- app_assoc. split; [done|]. by apply Forall_app.
Qed.

Lemma th_mono {A} (m : op A) (Q R : A -> O -> W -> Prop) o w :
  through I m Q o w -> (forall a o' w', Q a o' w' -> R a o' w') -> through I m R o w.
Proof. intros Hm HR tr. eapply wp_mono; [apply Hm|]. intros a s [Hws HQ]. auto. Qed.

Lemma th_get {A} (f : O * traced W -> A) Q o w : (forall tr, Q (f (o, (w, tr))) o w) -> through I (get f) Q o w.
Proof. intros HQ tr. apply wp_get. split; [by exists []|apply HQ]. Qed.

Lemma th_modify f Q o w : Q tt (f o) w -> through I (modify f) Q o w.
Proof. intros HQ tr. apply wp_modify. split; [by exists []|done]. Qed.

Lemma th_sys {A} (f : W -> A * W) Q o w :
  (forall a w', f w = (a, w') -> I w' /\ Q a o w') -> through I (sys (lift f)) Q o w.
Proof.
  intros Hf tr. apply wp_sys. intros a s Hs. unfold lift in Hs. simpl in Hs. destruct (f w) as [b w'] eqn:E.
  injection Hs as <- <-. destruct (Hf _ _ eq_refl) as [HI HQ]. split; [|done]. exists [w']. by repeat constructor.
Qed.

Lemma th_sys_ (f : W -> W) Q o w : I (f w) -> Q tt o (f w) -> through I (sys_ (lift_ f)) Q o w.
Proof. intros HI HQ tr. split; [|done]. exists [f w]. by repeat constructor. Qed.

(** A sequence of world operations in one step. *)
Lemma th_sys_bind_ (f : W -> W) (g : traced W -> traced W) Q o w :
  I (f w) -> through I (sys_ g) Q o (f w) -> through I (sys_ (fun s => g (lift_ f s))) Q o w.
Proof.
  intros HI Hg tr. specialize (Hg (f w :: tr)) as ((ws & Hws & HIs) & HQ). split; [|done].
  exists (ws ++ [f w]). rewrite <- app_assoc. split; [exact Hws|]. apply Forall_app. by repeat constructor.
Qed.

(** A call of the world and what is done with its answer, in one step. *)
Lemma th_sys_then {A B} (f : traced W -> A * traced W) (g : A -> traced W -> B * traced W) Q o w :
  through I (sys f) (fun a => through I (sys (g a)) Q) o w -> through I (sys (fun s => let '(a, s) := f s in g a s)) Q o w.
Proof.
  intros Hm. enough (through I (bind (sys f) (fun a => sys (g a))) Q o w) as Hb by
    (intros tr; specialize (Hb tr); unfold wp, bind, sys in *; simpl in *; by destruct (f (w, tr))).
  by apply th_bind.
Qed.

Lemma th_sys_after (f g : traced W -> traced W) Q o w :
  through I (sys_ f) (fun _ => through I (sys_ g) Q) o w -> through I (sys_ (fun s => g (f s))) Q o w.
Proof. intros Hm. exact (th_bind (sys_ f) (fun _ => sys_ g) Q o w Hm). Qed.

End Rules.

Lemma th_weaken {A} (I J : W -> Prop) (m : op A) Q o w : (forall w', I w' -> J w') -> through I m Q o w -> through J m Q o w.
Proof.
  intros HJ Hm tr. eapply wp_mono; [apply Hm|]. intros a s ((ws & Hws & HI) & HQ). split; [|done].
  exists ws. split; [done|]. eapply Forall_impl; [exact HI|apply HJ].
Qed.

(** The run behind a triple. *)
Lemma th_run {A} I (m : op A) Q o w tr : through I m Q o w ->
  exists a o' w' ws, m (o, ((w, tr) : traced W)) = Some (a, (o', (w', ws ++ tr))) /\ Forall I ws /\ Q a o' w'.
Proof.
  intros Hm. destruct (wp_run _ _ _ (Hm tr)) as (a & [o' [w' tr']] & E & (ws & Hws & HI) & HQ). simpl in *. subst tr'. eauto 10.
Qed.

End Traced.
End Traces.
