(* ===== verification/Errno.v ===== *)
(** * The error codes of the native store (interfaces/inner_api/rdb/include/rdb_errno.h)

    A code is [E_OK] or [E_BASE] plus an offset.  [E_BASE] comes from [ErrCodeOffset] of the
    platform's errors.h, which is not part of the repository, so a code is modelled by its
    name; [errno_offset] gives the documented offset from [E_BASE].  Only the codes that the
    modelled components return are listed.  [E_NATIVE c] is the number [- c] the store returns
    for a result code [c] of SQLite that has no code of its own (sqlite_errno.h). *)
From Stdlib Require Import ZArith.
From stdpp Require Import base decidable list.

Inductive errno :=
| E_OK | E_NOT_SUPPORT | E_ERROR | E_INVALID_ARGS | E_EMPTY_TABLE_NAME | E_EMPTY_VALUES_BUCKET
| E_COLUMN_OUT_RANGE | E_INVALID_COLUMN_TYPE | E_INVALID_FILE_PATH | E_ROW_OUT_RANGE
| E_INVALID_OBJECT_TYPE | E_INVALID_CONFLICT_FLAG | E_ALREADY_CLOSED | E_DATABASE_BUSY
| E_CREATE_FOLDER_FAIL | E_ARGS_READ_CON_OVERLOAD | E_NULL_OBJECT | E_SQLITE_FULL
| E_SQLITE_ERROR | E_SQLITE_CORRUPT | E_SQLITE_BUSY | E_SQLITE_LOCKED | E_SQLITE_CONSTRAINT
| E_INNER_WARNING | E_NO_MORE_ROWS | E_NOT_SELECT | E_EXECUTE_WRITE_IN_READ_CONNECTION
| E_BEGIN_TRANSACTION_IN_READ_CONNECTION | E_NO_TRANSACTION_IN_SESSION | E_NO_ROW_IN_QUERY
| E_INVALID_BIND_ARGS_COUNT | E_STEP_RESULT_QUERY_EXCEEDED | E_STATEMENT_NOT_PREPARED
| E_WAL_SIZE_OVER_LIMIT | E_NOT_SUPPORT_THE_SQL | E_SQLITE_ABORT | E_SQLITE_PERM | E_SQLITE_NOMEM
| E_SQLITE_READONLY | E_SQLITE_IOERR | E_SQLITE_CANTOPEN | E_SQLITE_TOOBIG | E_SQLITE_MISMATCH
| E_SQLITE_MISUSE | E_SQLITE_SCHEMA | E_SQLITE_IOERR_FULL | E_SQLITE_META_RECOVERED
| E_SQLITE_INTERRUPT | E_WAIT_COMPENSATED_SYNC | E_NOT_SUPPORTED_ATTACH_IN_WAL_MODE | E_INVALID_ARGS_NEW
| E_INVALID_SECRET_KEY | E_CONFIG_INVALID_CHANGE | E_CANCEL | E_DB_NOT_EXIST
| E_ATTACHED_DATABASE_EXIST | E_SET_PERSIST_WAL | E_EXECUTE_RESULT_INCORRECT
| E_NATIVE (code : Z).

(** The offset from [E_BASE]; [E_OK] is the constant 0. *)
Definition errno_offset (e : errno) : option Z :=
  match e with
  | E_OK => None
  | E_NOT_SUPPORT => Some 801
  | E_ERROR => Some 0
  | E_INVALID_ARGS => Some 0x1
  | E_EMPTY_TABLE_NAME => Some 0x5
  | E_EMPTY_VALUES_BUCKET => Some 0x6
  | E_COLUMN_OUT_RANGE => Some 0x8
  | E_INVALID_COLUMN_TYPE => Some 0x9
  | E_INVALID_FILE_PATH => Some 0xb
  | E_ROW_OUT_RANGE => Some 0xd
  | E_INVALID_OBJECT_TYPE => Some 0x14
  | E_INVALID_CONFLICT_FLAG => Some 0x15
  | E_ALREADY_CLOSED => Some 0x1e
  | E_DATABASE_BUSY => Some 0x22
  | E_CREATE_FOLDER_FAIL => Some 0x25
  | E_ARGS_READ_CON_OVERLOAD => Some 0x2e
  | E_NULL_OBJECT => Some 0x31
  | E_SQLITE_FULL => Some 0x34
  | E_SQLITE_ERROR => Some 0x37
  | E_SQLITE_CORRUPT => Some 0x38
  | E_SQLITE_BUSY => Some 0x3c
  | E_SQLITE_LOCKED => Some 0x3d
  | E_SQLITE_CONSTRAINT => Some 0x43
  | E_INNER_WARNING => Some 0x4c
  | E_NO_MORE_ROWS => Some 0x1a
  | E_NOT_SELECT => Some 0x7
  | E_EXECUTE_WRITE_IN_READ_CONNECTION => Some 0xe
  | E_BEGIN_TRANSACTION_IN_READ_CONNECTION => Some 0xf
  | E_NO_TRANSACTION_IN_SESSION => Some 0x10
  | E_NO_ROW_IN_QUERY => Some 0x12
  | E_INVALID_BIND_ARGS_COUNT => Some 0x13
  | E_STEP_RESULT_QUERY_EXCEEDED => Some 0x1b
  | E_STATEMENT_NOT_PREPARED => Some 0x1c
  | E_WAL_SIZE_OVER_LIMIT => Some 0x2f
  | E_NOT_SUPPORT_THE_SQL => Some 0x35
  | E_SQLITE_ABORT => Some 0x3a
  | E_SQLITE_PERM => Some 0x3b
  | E_SQLITE_NOMEM => Some 0x3e
  | E_SQLITE_READONLY => Some 0x3f
  | E_SQLITE_IOERR => Some 0x40
  | E_SQLITE_CANTOPEN => Some 0x41
  | E_SQLITE_TOOBIG => Some 0x42
  | E_SQLITE_MISMATCH => Some 0x44
  | E_SQLITE_MISUSE => Some 0x45
  | E_SQLITE_SCHEMA => Some 0x48
  | E_SQLITE_IOERR_FULL => Some 0x4b
  | E_SQLITE_META_RECOVERED => Some 0x57
  | E_SQLITE_INTERRUPT => Some 0x5a
  | E_WAIT_COMPENSATED_SYNC => Some 0x39
  | E_NOT_SUPPORTED_ATTACH_IN_WAL_MODE => Some 0x24
  | E_INVALID_ARGS_NEW => Some 0x58
  | E_INVALID_SECRET_KEY => Some 0x4a
  | E_CONFIG_INVALID_CHANGE => Some 0x46
  | E_CANCEL => Some 0x49
  | E_DB_NOT_EXIST => Some 0x2d
  | E_ATTACHED_DATABASE_EXIST => Some 0x36
  | E_SET_PERSIST_WAL => Some 0x2c
  | E_EXECUTE_RESULT_INCORRECT => Some 0x1d
  | E_NATIVE _ => None
  end%Z.

#[export] Instance errno_eq_dec : EqDecision errno.
Proof. solve_decision. Defined.

(** [code == E_OK]. *)
Definition is_ok (e : errno) : bool := bool_decide (e = E_OK).

Lemma is_ok_true e : is_ok e = true <-> e = E_OK.
Proof. apply bool_decide_eq_true. Qed.

Lemma is_ok_false e : is_ok e = false <-> e <> E_OK.
Proof. apply bool_decide_eq_false. Qed.

(** Distinct names are distinct codes. *)
Lemma errno_offset_inj e1 e2 z : errno_offset e1 = Some z -> errno_offset e2 = Some z -> e1 = e2.
Proof. destruct e1, e2; simpl; intros [= <-]; by intros [=]. Qed.

(** Tests of known codes, evaluated. *)
Ltac ok_simpl :=
  repeat first [progress change (is_ok E_OK) with true | progress change (is_ok E_ERROR) with false]; cbn [negb].
