(* ===== verification/Values.v ===== *)
(** * Values, rows and batches of rows

    Models asset_value.h, big_integer.cpp, value_object.{h,cpp}, values_bucket.cpp and
    values_buckets.cpp.

    - [AssetValue], [BigInteger] and [ValueObject] are the source's types; a [double] and a
      [float] are kept as their IEEE 754 bit patterns ([Float]), bytes as [Z].
    - [ValuesBucket] is the [std::map] from column names to values.
    - [ValuesBuckets] is the deduplicated batch: rows hold references into a shared
      [std::set<ValueObject>], so the model keeps a store of value objects and rows of
      addresses; what is shared in the source is shared here. *)
From Stdlib Require Import ZArith Lia Ascii Sorted.
From stdpp Require Import base gmap list strings pretty.
From S2P Require Import Prelude CppStd Errno.

(** ** IEEE 754 bit patterns *)

Module Float.
Local Open Scope Z_scope.

(** [w]-bit patterns with an [ew]-bit exponent: 64 and 11 for [double], 32 and 8 for
    [float]. *)
Definition magnitude (w bits : Z) : Z := bits mod 2 ^ (w - 1).
Definition negative (w bits : Z) : bool := Z.testbit bits (w - 1).

Definition is_nan (w ew bits : Z) : bool :=
  (2 ^ ew - 1) * 2 ^ (w - 1 - ew) <? magnitude w bits.

(** The position of a non-NaN pattern in the order of the values it denotes; both zeros
    are at 0. *)
Definition key (w bits : Z) : Z :=
  if negative w bits then - magnitude w bits else magnitude w bits.

(** [a < b]: false as soon as a NaN is involved. *)
Definition ltb (w ew a b : Z) : bool :=
  negb (is_nan w ew a) && negb (is_nan w ew b) && (key w a <? key w b).

Definition double_ltb : Z -> Z -> bool := ltb 64 11.
Definition float_ltb : Z -> Z -> bool := ltb 32 8.

(** Sign, mantissa and exponent of a finite [double]; [None] for infinities and NaN. *)
Definition finite (bits : Z) : option (bool * Z * Z) :=
  let m := magnitude 64 bits in
  let e := m / 2 ^ 52 in
  let f := m mod 2 ^ 52 in
  if e =? 2047 then None
  else if e =? 0 then Some (negative 64 bits, f, - 1074)
  else Some (negative 64 bits, f + 2 ^ 52, e - 1075).

(** [int64_t(x)] for a [double]: truncation; out of the range of [int64_t] (and for
    infinities and NaN) the conversion is undefined in C++, and the model gives the
    [INT64_MIN] that the hardware conversion gives. *)
Definition to_int64 (bits : Z) : Z :=
  match finite bits with
  | None => - 2 ^ 63
  | Some (s, m, e) =>
      let a := if 0 <=? e then m * 2 ^ e else m / 2 ^ (- e) in
      let z := if s then - a else a in
      if (- 2 ^ 63 <=? z) && (z <? 2 ^ 63) then z else - 2 ^ 63
  end.

(** [num / den] rounded to the nearest integer, ties to even. *)
Definition round_half_even (num den : Z) : Z :=
  let q := num / den in
  let r := num mod den in
  if 2 * r <? den then q
  else if den <? 2 * r then q + 1
  else if Z.even q then q else q + 1.

Definition pad_zeros (n : nat) (s : string) : string :=
  Str.fill (n - String.length s) "0"%char +:+ s.

(** The [printf] conversion [%.<p>f]. *)
Definition fixed (p : nat) (bits : Z) : string :=
  let sign := if negative 64 bits then "-" else "" in
  match finite bits with
  | None => sign +:+ (if is_nan 64 11 bits then "nan" else "inf")
  | Some (_, m, e) =>
      let scaled := m * 10 ^ Z.of_nat p in
      let n := if 0 <=? e then scaled * 2 ^ e else round_half_even scaled (2 ^ (- e)) in
      let ip := pretty (n / 10 ^ Z.of_nat p) in
      sign +:+ ip +:+
      (match p with O => "" | _ => "." +:+ pad_zeros p (pretty (n mod 10 ^ Z.of_nat p)) end)
  end.

(** [std::to_string(double)]. *)
Definition to_string (bits : Z) : string := fixed 6 bits.

Example to_string_1 : to_string 0x3ff8000000000000 = "1.500000".
Proof. vm_compute. reflexivity. Qed.

Example to_string_2 : to_string 0xc05edd2f1a9fbe77 = "-123.456000".
Proof. vm_compute. reflexivity. Qed.

Lemma key_magnitude w a : Z.abs (key w a) = magnitude w a \/ magnitude w a < 0.
Proof. unfold key. destruct (negative w a); lia. Qed.

End Float.

(** ** Lexicographic order of vectors *)

Section Lex.
Context {A : Type} (lt : A -> A -> bool).

(** [operator<] of [std::vector]. *)
Fixpoint lex_ltb (a b : list A) : bool :=
  match a, b with
  | _, [] => false
  | [], _ :: _ => true
  | x :: a', y :: b' => if lt x y then true else if lt y x then false else lex_ltb a' b'
  end.

(** When the element order only identifies equal elements, so does the vector order. *)
Lemma lex_ltb_total a b :
  (forall x y, x ∈ a -> lt x y = false -> lt y x = false -> x = y) ->
  lex_ltb a b = false -> lex_ltb b a = false -> a = b.
Proof.
  revert b. induction a as [|x a IH]; intros [|y b] Htot; try done. simpl.
  destruct (lt x y) eqn:H1; [done|]. destruct (lt y x) eqn:H2; [done|]. intros H3 H4.
  rewrite (Htot x y) by (done || constructor). f_equal. apply IH; [|done..].
  intros x' y' Hx'. apply Htot. by constructor.
Qed.

Lemma lex_ltb_irrefl a : (forall x, x ∈ a -> lt x x = false) -> lex_ltb a a = false.
Proof.
  induction a as [|x a IH]; intros H; [done|]. simpl.
  rewrite !(H x) by constructor. apply IH. intros y Hy. apply H. by constructor.
Qed.
End Lex.

(** ** Assets *)

Record AssetValue := mkAsset {
  a_version : Z;
  a_status : Z;
  a_expiresTime : Z;
  a_id : string;
  a_name : string;
  a_uri : string;
  a_createTime : string;
  a_modifyTime : string;
  a_size : string;
  a_hash : string;
  a_path : string;
  a_extension : string }.

Module Asset.
Local Open Scope Z_scope.

Definition STATUS_UNKNOWN : Z := 0.
Definition STATUS_NORMAL : Z := 1.
Definition STATUS_INSERT : Z := 2.
Definition STATUS_UPDATE : Z := 3.
Definition STATUS_DELETE : Z := 4.
Definition STATUS_ABNORMAL : Z := 5.
Definition STATUS_DOWNLOADING : Z := 6.
Definition STATUS_TO_DOWNLOAD : Z := 7.

(** A default-constructed asset. *)
Definition empty : AssetValue :=
  mkAsset 0 STATUS_UNKNOWN 0 "" "" "" "" "" "" "" "" "".

Definition set_status (st : Z) (a : AssetValue) : AssetValue :=
  mkAsset (a_version a) st (a_expiresTime a) (a_id a) (a_name a) (a_uri a) (a_createTime a)
    (a_modifyTime a) (a_size a) (a_hash a) (a_path a) (a_extension a).

(** One field of the comparison chain of [AssetValue::operator<]. *)
Definition by_field (x y : string) (rest : bool) : bool :=
  if String.eqb x y then rest else Str.ltb x y.

(** [AssetValue::operator<]: [version] and [expiresTime] take no part. *)
Definition ltb (a b : AssetValue) : bool :=
  by_field (a_name a) (a_name b)
    (if negb (a_status a =? a_status b) then a_status a <? a_status b
     else by_field (a_id a) (a_id b)
       (by_field (a_uri a) (a_uri b)
         (by_field (a_createTime a) (a_createTime b)
           (by_field (a_modifyTime a) (a_modifyTime b)
             (by_field (a_size a) (a_size b)
               (by_field (a_hash a) (a_hash b)
                 (by_field (a_path a) (a_path b)
                   (Str.ltb (a_extension a) (a_extension b))))))))).

(** The identity the order sees. *)
Definition erase_meta (a : AssetValue) : AssetValue :=
  mkAsset 0 (a_status a) 0 (a_id a) (a_name a) (a_uri a) (a_createTime a) (a_modifyTime a)
    (a_size a) (a_hash a) (a_path a) (a_extension a).

Lemma by_field_total x y r1 r2 :
  by_field x y r1 = false -> by_field y x r2 = false -> x = y /\ r1 = false /\ r2 = false.
Proof.
  unfold by_field. destruct (String.eqb_spec x y) as [->|Hne].
  - by rewrite String.eqb_refl.
  - destruct (String.eqb_spec y x) as [->|_]; [done|]. intros H1 H2.
    by destruct Hne; apply Str.ltb_total.
Qed.

Lemma by_field_refl x r : by_field x x r = r.
Proof. unfold by_field. by rewrite String.eqb_refl. Qed.

Lemma asset_ltb_irrefl a : ltb a a = false.
Proof. unfold ltb. rewrite Z.eqb_refl. simpl. rewrite !by_field_refl. apply Str.ltb_irrefl. Qed.

(** Assets the order does not separate agree on every field but [version] and
    [expiresTime]. *)
Lemma asset_ltb_total a b : ltb a b = false -> ltb b a = false -> erase_meta a = erase_meta b.
Proof.
  unfold ltb. intros H1 H2.
  destruct (by_field_total _ _ _ _ H1 H2) as (Hname & H3 & H4).
  assert (a_status a = a_status b) as Hst.
  { destruct (Z.eqb_spec (a_status a) (a_status b)) as [|Hne]; [done|].
    destruct (Z.eqb_spec (a_status b) (a_status a)) as [|_]; [done|]. simpl in *. lia. }
  rewrite Hst, Z.eqb_refl in H3, H4. simpl in H3, H4.
  repeat match goal with
  | H1 : by_field ?x ?y _ = false, H2 : by_field ?y ?x _ = false |- _ =>
      let E := fresh "E" in
      destruct (by_field_total _ _ _ _ H1 H2) as (E & ? & ?); clear H1 H2
  end.
  assert (a_extension a = a_extension b) as Hx by (by apply Str.ltb_total).
  unfold erase_meta. congruence.
Qed.

End Asset.

(** ** Big integers *)

(** Sign-magnitude; the magnitude is a vector of 64-bit words. *)
Record BigInteger := mkBig { sign_ : Z; value_ : list Z }.

Module BigInt.
Local Open Scope Z_scope.

(** [BigInteger(int64_t)]; [value *= -1] wraps for [INT64_MIN] on the machines the code
    targets. *)
Definition of_int64 (v : Z) : BigInteger :=
  if v <? 0 then mkBig 1 [Int.u64 (Int.i64 (v * -1))] else mkBig 0 [Int.u64 v].

(** [operator==]. *)
Definition eqb (a b : BigInteger) : bool :=
  if negb (sign_ a =? sign_ b) then false else bool_decide (value_ a = value_ b).

(** [operator<]. *)
Definition ltb (a b : BigInteger) : bool :=
  if negb (sign_ a =? sign_ b) then sign_ b <? sign_ a
  else if sign_ a =? 0 then lex_ltb Z.ltb (value_ a) (value_ b)
  else lex_ltb Z.ltb (value_ b) (value_ a).

(** The integer the words denote, least significant word first. *)
Fixpoint words (l : list Z) : Z :=
  match l with [] => 0 | w :: l' => w + 2 ^ 64 * words l' end.

Definition denote (a : BigInteger) : Z :=
  if sign_ a =? 0 then words (value_ a) else - words (value_ a).

Lemma zltb_total x y : (x <? y) = false -> (y <? x) = false -> x = y.
Proof. lia. Qed.

Lemma bigint_ltb_total a b : ltb a b = false -> ltb b a = false -> a = b.
Proof.
  unfold ltb. destruct a as [sa va], b as [sb vb]. simpl.
  destruct (Z.eqb_spec sa sb) as [->|Hne].
  - rewrite Z.eqb_refl. simpl. destruct (sb =? 0); intros H1 H2; f_equal.
    + eapply lex_ltb_total; [|done..]. intros ? ? _. apply zltb_total.
    + eapply lex_ltb_total; [|done..]. intros ? ? _. apply zltb_total.
  - destruct (Z.eqb_spec sb sa); [done|]. simpl. lia.
Qed.

Lemma bigint_ltb_irrefl a : ltb a a = false.
Proof.
  unfold ltb. rewrite Z.eqb_refl. simpl.
  destruct (sign_ a =? 0); apply lex_ltb_irrefl; intros; apply Z.ltb_irrefl.
Qed.

(** On one-word values of the same range the order is the numeric order. *)
Lemma ltb_one_word sa x sb y :
  (sa = 0 \/ sa = 1) -> (sb = 0 \/ sb = 1) -> 0 <= x -> 0 <= y -> (sa = 1 -> 0 < x) -> (sb = 1 -> 0 < y) ->
  ltb (mkBig sa [x]) (mkBig sb [y]) = (denote (mkBig sa [x]) <? denote (mkBig sb [y])).
Proof.
  intros [-> | ->] [-> | ->] Hx Hy Px Py; unfold ltb, denote; simpl; apply Bool.eq_iff_eq_true;
    repeat match goal with |- context [?a <? ?b] => destruct (Z.ltb_spec a b) end;
    simpl; split; intros; try done; try lia.
Qed.

End BigInt.

(** ** Value objects *)

(** [std::variant<Nil, int64_t, double, std::string, bool, Blob, Asset, Assets, FloatVector,
    BigInt>], in the order of the alternatives. *)
Inductive ValueObject :=
| VNil
| VInt (v : Z)
| VDouble (bits : Z)
| VString (s : string)
| VBool (b : bool)
| VBlob (bs : list Z)
| VAsset (a : AssetValue)
| VAssets (l : list AssetValue)
| VFloats (l : list Z)
| VBigInt (b : BigInteger).

Module Value.
Local Open Scope Z_scope.

(** [GetType()]: the index of the alternative. *)
Definition GetType (v : ValueObject) : Z :=
  match v with
  | VNil => 0 | VInt _ => 1 | VDouble _ => 2 | VString _ => 3 | VBool _ => 4 | VBlob _ => 5
  | VAsset _ => 6 | VAssets _ => 7 | VFloats _ => 8 | VBigInt _ => 9
  end.

(** [ValueObject::DeclType<T>()], by the index of [T]. *)
Definition DECLARE_TYPES : list string :=
  [""; "INT"; "REAL"; "TEXT"; "BOOL"; "BLOB"; "ASSET"; "ASSETS"; "FLOATVECTOR"; "UNLIMITED INT"].

(** A getter's outcome: the error code, or the value written to the out parameter. *)
Abbreviation res A := (errno + A)%type.

Definition GetLong (v : ValueObject) : res Z :=
  match v with VInt z => inr z | _ => inl E_INVALID_OBJECT_TYPE end.
Definition GetDouble (v : ValueObject) : res Z :=
  match v with VDouble d => inr d | _ => inl E_INVALID_OBJECT_TYPE end.
Definition GetBool (v : ValueObject) : res bool :=
  match v with VBool b => inr b | _ => inl E_INVALID_OBJECT_TYPE end.
Definition GetBlob (v : ValueObject) : res (list Z) :=
  match v with VBlob b => inr b | _ => inl E_INVALID_OBJECT_TYPE end.
Definition GetAsset (v : ValueObject) : res AssetValue :=
  match v with VAsset a => inr a | _ => inl E_INVALID_OBJECT_TYPE end.
Definition GetAssets (v : ValueObject) : res (list AssetValue) :=
  match v with VAssets l => inr l | _ => inl E_INVALID_OBJECT_TYPE end.
Definition GetVecs (v : ValueObject) : res (list Z) :=
  match v with VFloats l => inr l | _ => inl E_INVALID_OBJECT_TYPE end.

(** [GetInt]: the out parameter is written on failure too (with 0). *)
Definition GetInt (v : ValueObject) : errno * Z :=
  match GetLong v with
  | inr z => (E_OK, Int.i32 z)
  | inl e => (e, 0)
  end.

Definition string_of_bool (b : bool) : string := if b then "1" else "0".

(** [GetString]: strings, then doubles, integers and booleans through [std::to_string]. *)
Definition GetString (v : ValueObject) : res string :=
  match v with
  | VString s => inr s
  | VDouble d => inr (Float.to_string d)
  | VInt z => inr (pretty z)
  | VBool b => inr (string_of_bool b)
  | _ => inl E_INVALID_OBJECT_TYPE
  end.

(** *** strtoll with base 0 *)

Definition is_space (c : ascii) : bool :=
  let n := N_of_ascii c in (n =? 32)%N || ((9 <=? n)%N && (n <=? 13)%N).

Fixpoint skip_spaces (s : string) : string :=
  match s with
  | EmptyString => EmptyString
  | String c s' => if is_space c then skip_spaces s' else s
  end.

Definition digit_value (c : ascii) : Z :=
  let n := Z.of_N (N_of_ascii c) in
  if (48 <=? n) && (n <=? 57) then n - 48
  else if (97 <=? n) && (n <=? 122) then n - 87
  else if (65 <=? n) && (n <=? 90) then n - 55
  else 99.

Fixpoint digits (base acc : Z) (s : string) : Z :=
  match s with
  | EmptyString => acc
  | String c s' =>
      let d := digit_value c in
      if d <? base then digits base (acc * base + d) s' else acc
  end.

Definition clamp_int64 (z : Z) : Z := Z.max (- 2 ^ 63) (Z.min (2 ^ 63 - 1) z).

(** The magnitude after the optional sign: 0x selects base 16 when a hexadecimal digit
    follows, a leading 0 base 8, otherwise base 10. *)
Definition strtoll_magnitude (s : string) : Z :=
  match s with
  | String "0" (String x (String h s')) =>
      if (Ascii.eqb x "x" || Ascii.eqb x "X") && (digit_value h <? 16)
      then digits 16 0 (String h s')
      else digits 8 0 s
  | String "0" _ => digits 8 0 s
  | _ => digits 10 0 s
  end.

Definition strtoll (s : string) : Z :=
  match skip_spaces s with
  | String "-" s' => clamp_int64 (- strtoll_magnitude s')
  | String "+" s' => clamp_int64 (strtoll_magnitude s')
  | s' => clamp_int64 (strtoll_magnitude s')
  end.

Example strtoll_dec : strtoll "  -42abc" = -42. Proof. reflexivity. Qed.
Example strtoll_hex : strtoll "0x1F" = 31. Proof. reflexivity. Qed.
Example strtoll_oct : strtoll "010" = 8. Proof. reflexivity. Qed.
Example strtoll_max : strtoll "99999999999999999999" = 2 ^ 63 - 1. Proof. reflexivity. Qed.

(** *** Conversion operators *)

Definition to_int64 (v : ValueObject) : Z :=
  match v with
  | VInt z => z
  | VDouble d => Float.to_int64 d
  | VBool b => if b then 1 else 0
  | VString s => if Str.empty s then 0 else strtoll s
  | _ => 0
  end.

Definition to_int (v : ValueObject) : Z := Int.i32 (to_int64 v).

Definition to_bool (v : ValueObject) : bool :=
  match v with
  | VInt z => negb (z =? 0)
  | VDouble d => negb (Float.to_int64 d =? 0)
  | VBool b => b
  | VString s => negb (String.eqb s "0")
  | _ => false
  end.

Definition bytes_of_string (s : string) : list Z :=
  (fun c => Z.of_N (N_of_ascii c)) <$> String.list_ascii_of_string s.

(** [std::string(data, size)]. *)
Definition string_of_bytes (bs : list Z) : string :=
  String.string_of_list_ascii (map (fun z => ascii_of_N (Z.to_N z)) bs).

Lemma string_of_bytes_of_string s : string_of_bytes (bytes_of_string s) = s.
Proof.
  unfold string_of_bytes, bytes_of_string. rewrite <- list_fmap_compose.
  rewrite <- (String.string_of_list_ascii_of_string s) at 2. f_equal.
  rewrite <- (map_id (String.list_ascii_of_string s)) at 2. apply map_ext. intros c. simpl.
  by rewrite N2Z.id, ascii_N_embedding.
Qed.

Definition to_blob (v : ValueObject) : list Z :=
  match v with
  | VBlob b => b
  | VString s => bytes_of_string s
  | _ => []
  end.

Definition to_asset (v : ValueObject) : AssetValue :=
  match v with VAsset a => a | _ => Asset.empty end.
Definition to_assets (v : ValueObject) : list AssetValue :=
  match v with VAssets l => l | _ => [] end.
Definition to_floats (v : ValueObject) : list Z :=
  match v with VFloats l => l | _ => [] end.
Definition to_bigint (v : ValueObject) : BigInteger :=
  match v with VBigInt b => b | _ => mkBig 0 [] end.

(** *** operator<, operator== *)

Definition ltb (a b : ValueObject) : bool :=
  if negb (GetType a =? GetType b) then GetType a <? GetType b
  else match a, b with
       | VNil, _ => false
       | VInt x, VInt y => x <? y
       | VDouble x, VDouble y => Float.double_ltb x y
       | VString x, VString y => Str.ltb x y
       | VBool x, VBool y => negb x && y
       | VBlob x, VBlob y => lex_ltb Z.ltb x y
       | VAsset x, VAsset y => Asset.ltb x y
       | VAssets x, VAssets y => lex_ltb Asset.ltb x y
       | VFloats x, VFloats y => lex_ltb Float.float_ltb x y
       | VBigInt x, VBigInt y => BigInt.ltb x y
       | _, _ => true
       end.

Definition eqb (a b : ValueObject) : bool := negb (ltb b a || ltb a b).

Definition neqb (a b : ValueObject) : bool := ltb b a || ltb a b.

(** Values whose [operator==] is equality: everything but floating point numbers (equal
    zeros, incomparable NaN) and assets (fields outside the order). *)
Definition plain (v : ValueObject) : bool :=
  match v with
  | VNil | VInt _ | VString _ | VBool _ | VBlob _ | VBigInt _ => true
  | _ => false
  end.

Lemma float_ltb_irrefl w ew x : Float.ltb w ew x x = false.
Proof. unfold Float.ltb. rewrite Z.ltb_irrefl. by rewrite andb_false_r. Qed.

Lemma value_ltb_irrefl v : ltb v v = false.
Proof.
  unfold ltb. rewrite Z.eqb_refl. simpl. destruct v; try done.
  - apply Z.ltb_irrefl.
  - apply float_ltb_irrefl.
  - apply Str.ltb_irrefl.
  - by destruct b.
  - apply lex_ltb_irrefl. intros; apply Z.ltb_irrefl.
  - apply Asset.asset_ltb_irrefl.
  - apply lex_ltb_irrefl. intros; apply Asset.asset_ltb_irrefl.
  - apply lex_ltb_irrefl. intros; apply float_ltb_irrefl.
  - apply BigInt.bigint_ltb_irrefl.
Qed.

Lemma equiv_type a b : ltb a b = false -> ltb b a = false -> GetType a = GetType b.
Proof.
  unfold ltb. destruct (Z.eqb_spec (GetType a) (GetType b)) as [|Hne]; [done|].
  destruct (Z.eqb_spec (GetType b) (GetType a)) as [|_]; [done|]. simpl. lia.
Qed.

Lemma plain_equiv a b : plain a = true -> ltb a b = false -> ltb b a = false -> a = b.
Proof.
  intros Hp H1 H2. pose proof (equiv_type a b H1 H2) as Ht.
  destruct a, b; try done; unfold ltb in *; simpl in *; f_equal.
  - by apply BigInt.zltb_total.
  - by apply Str.ltb_total.
  - by destruct b, b0.
  - eapply lex_ltb_total; [|done..]. intros ? ? _. apply BigInt.zltb_total.
  - by apply BigInt.bigint_ltb_total.
Qed.

End Value.

(** ** ValuesBucket: one row *)

Module Bucket.

(** The [std::map] [values_]. *)
Abbreviation ValuesBucket := (OMap.smap ValueObject).

Definition new : ValuesBucket := [].

Definition PutString (b : ValuesBucket) (col : string) (v : string) : ValuesBucket :=
  OMap.insert Str.ltb col (VString v) b.
Definition PutInt (b : ValuesBucket) (col : string) (v : Z) : ValuesBucket :=
  OMap.insert Str.ltb col (VInt v) b.
Definition PutLong (b : ValuesBucket) (col : string) (v : Z) : ValuesBucket :=
  OMap.insert Str.ltb col (VInt v) b.
Definition PutDouble (b : ValuesBucket) (col : string) (v : Z) : ValuesBucket :=
  OMap.insert Str.ltb col (VDouble v) b.
Definition PutBool (b : ValuesBucket) (col : string) (v : bool) : ValuesBucket :=
  OMap.insert Str.ltb col (VBool v) b.
Definition PutBlob (b : ValuesBucket) (col : string) (v : list Z) : ValuesBucket :=
  OMap.insert Str.ltb col (VBlob v) b.
Definition PutNull (b : ValuesBucket) (col : string) : ValuesBucket :=
  OMap.insert Str.ltb col VNil b.

(** [Put(columnName, value)] overwrites, unlike the typed setters. *)
Definition Put (b : ValuesBucket) (col : string) (v : ValueObject) : ValuesBucket :=
  OMap.insert_or_assign Str.ltb col v b.

Definition Delete (b : ValuesBucket) (col : string) : ValuesBucket := OMap.erase Str.ltb col b.
Definition Clear (b : ValuesBucket) : ValuesBucket := [].
Definition Size (b : ValuesBucket) : nat := length b.
Definition IsEmpty (b : ValuesBucket) : bool := bool_decide (length b = 0%nat).
Definition HasColumn (b : ValuesBucket) (col : string) : bool :=
  bool_decide (is_Some (OMap.find Str.ltb col b)).
Definition GetObject (b : ValuesBucket) (col : string) : option ValueObject :=
  OMap.lookup Str.ltb col b.

(** The operations as data, to speak of arbitrary sequences of calls. *)
Inductive op :=
| OPutString (col v : string) | OPutLong (col : string) (v : Z) | OPutDouble (col : string) (v : Z)
| OPutBool (col : string) (v : bool) | OPutBlob (col : string) (v : list Z) | OPutNull (col : string)
| OPut (col : string) (v : ValueObject) | ODelete (col : string) | OClear.

Definition run1 (b : ValuesBucket) (o : op) : ValuesBucket :=
  match o with
  | OPutString c v => PutString b c v
  | OPutLong c v => PutLong b c v
  | OPutDouble c v => PutDouble b c v
  | OPutBool c v => PutBool b c v
  | OPutBlob c v => PutBlob b c v
  | OPutNull c => PutNull b c
  | OPut c v => Put b c v
  | ODelete c => Delete b c
  | OClear => Clear b
  end.

(** The abstract row: a finite map, with insertion that keeps the old value for the typed
    setters and overwrites for [Put]. *)
Definition keep (c : string) (v : ValueObject) (m : gmap string ValueObject) : gmap string ValueObject :=
  match m !! c with Some _ => m | None => <[c := v]> m end.

Definition spec1 (m : gmap string ValueObject) (o : op) : gmap string ValueObject :=
  match o with
  | OPutString c v => keep c (VString v) m
  | OPutLong c v => keep c (VInt v) m
  | OPutDouble c v => keep c (VDouble v) m
  | OPutBool c v => keep c (VBool v) m
  | OPutBlob c v => keep c (VBlob v) m
  | OPutNull c => keep c VNil m
  | OPut c v => <[c := v]> m
  | ODelete c => delete c m
  | OClear => ∅
  end.

(** The row implements the map when it is sorted and every lookup agrees. *)
Definition refines (b : ValuesBucket) (m : gmap string ValueObject) : Prop :=
  OMap.sorted Str.ltb b /\ forall c, GetObject b c = m !! c.

Lemma insert_refines b m c v :
  refines b m -> refines (OMap.insert Str.ltb c v b) (keep c v m).
Proof.
  intros [Hs Hl]. split; [by apply OMap.insert_sorted|]. intros k. unfold GetObject.
  rewrite OMap.lookup_insert by done. unfold keep, GetObject in *.
  rewrite !Hl. destruct (m !! c) eqn:Hc; case_decide; simplify_map_eq; done.
Qed.

Lemma run1_refines b m o : refines b m -> refines (run1 b o) (spec1 m o).
Proof.
  intros Hr. destruct o; simpl; try by apply insert_refines.
  - destruct Hr as [Hs Hl]. split; [by apply OMap.assign_sorted|]. intros k.
    unfold GetObject, Put in *. rewrite OMap.lookup_assign by done.
    case_decide; simplify_map_eq; done.
  - destruct Hr as [Hs Hl]. split; [by apply OMap.erase_sorted|]. intros k.
    unfold GetObject, Delete in *. rewrite OMap.lookup_erase by done.
    case_decide; simplify_map_eq; done.
  - split; [constructor|done].
Qed.

Lemma run_refines ops b m :
  refines b m -> refines (foldl run1 b ops) (foldl spec1 m ops).
Proof.
  revert b m. induction ops as [|o ops IH]; intros b m Hr; [done|]. apply IH. by apply run1_refines.
Qed.

End Bucket.

(** ** ValuesBuckets: a batch with shared values *)

Module Buckets.

(** [heap] holds the value objects owned by the set [values_] (addresses are positions and
    never move); [values] lists the addresses in set order; a row maps field names to
    addresses. *)
Record ValuesBuckets := mkBuckets {
  heap : list ValueObject;
  fields : list (string * unit);
  values : list nat;
  buckets : list (OMap.smap nat) }.

Definition new : ValuesBuckets := mkBuckets [] [] [] [].

Definition deref (h : list ValueObject) (p : nat) : ValueObject := default VNil (h !! p).

(** [values_->insert(value)] on the set: the first element not less than the value is it,
    if equivalent, else the new one is placed before it.  Returns the address. *)
Fixpoint set_insert (h : list ValueObject) (v : ValueObject) (s : list nat) :
  list nat * nat * list ValueObject :=
  match s with
  | [] => ([length h], length h, h ++ [v])
  | p :: s' =>
      if Value.ltb (deref h p) v then
        let '(s2, a, h2) := set_insert h v s' in (p :: s2, a, h2)
      else if Value.ltb v (deref h p) then (length h :: p :: s', length h, h ++ [v])
      else (p :: s', p, h)
  end.

(** [RowSize()]. *)
Definition RowSize (b : ValuesBuckets) : nat := length (buckets b).

(** The loop of [Put] over the columns of a row. *)
Fixpoint put_columns (cols : Bucket.ValuesBucket) (h : list ValueObject)
    (fs : list (string * unit)) (vs : list nat) (row : OMap.smap nat) :
    list ValueObject * list (string * unit) * list nat * OMap.smap nat :=
  match cols with
  | [] => (h, fs, vs, row)
  | (field, value) :: cols' =>
      let fs' := OMap.insert Str.ltb field tt fs in
      let '(vs', a, h') := set_insert h value vs in
      put_columns cols' h' fs' vs' (OMap.insert Str.ltb field a row)
  end.

Definition Put (b : ValuesBuckets) (bucket : Bucket.ValuesBucket) : ValuesBuckets :=
  let '(h, fs, vs, row) := put_columns bucket (heap b) (fields b) (values b) [] in
  mkBuckets h fs vs (buckets b ++ [row]).

Definition of_rows (rows : list Bucket.ValuesBucket) : ValuesBuckets := foldl Put new rows.

(** [Get(row, field)]: the address of the value, or [E_INVALID_ARGS]. *)
Definition Get (b : ValuesBuckets) (row : nat) (field : string) : errno + nat :=
  match buckets b !! row with
  | None => inl E_INVALID_ARGS
  | Some bucket =>
      match OMap.lookup Str.ltb field bucket with
      | None => inl E_INVALID_ARGS
      | Some a => inr a
      end
  end.

Definition Clear (b : ValuesBuckets) : ValuesBuckets := mkBuckets (heap b) [] [] [].

Lemma deref_app h h' p : (p < length h)%nat -> deref (h ++ h') p = deref h p.
Proof. intros Hp. unfold deref. by rewrite lookup_app_l. Qed.

Lemma deref_new h v : deref (h ++ [v]) (length h) = v.
Proof. unfold deref. by rewrite lookup_app_r, Nat.sub_diag by lia. Qed.

(** What [set_insert] gives back: the store only grows, addresses stay valid, and the
    returned address holds a value the order does not distinguish from the argument. *)
Lemma set_insert_spec h v s s' a h' :
  Forall (fun p => p < length h)%nat s ->
  set_insert h v s = (s', a, h') ->
  (exists l, h' = h ++ l) /\ (a < length h')%nat /\ Forall (fun p => p < length h')%nat s' /\
  Value.ltb (deref h' a) v = false /\ Value.ltb v (deref h' a) = false.
Proof.
  intros Hok. revert s' a h'. induction Hok as [|p s Hp Hs IH]; intros s' a h' H; simpl in H.
  - simplify_eq. split; [by eexists|]. rewrite deref_new, length_app. simpl.
    split; [lia|]. split; [by repeat constructor; lia|]. by rewrite !Value.value_ltb_irrefl.
  - destruct (Value.ltb (deref h p) v) eqn:H1.
    + destruct (set_insert h v s) as [[s2 a2] h2] eqn:Hi. simplify_eq.
      destruct (IH _ _ _ eq_refl) as ([l ->] & Ha & Hs2 & Heq).
      split; [by eexists|]. split; [done|]. split; [|done].
      constructor; [rewrite length_app; lia|done].
    + destruct (Value.ltb v (deref h p)) eqn:H2; simplify_eq.
      * split; [by eexists|]. rewrite deref_new, length_app. simpl. split; [lia|]. split.
        { constructor; [lia|]. constructor; [lia|].
          eapply Forall_impl; [exact Hs|]. simpl. lia. }
        by rewrite !Value.value_ltb_irrefl.
      * split; [exists []; by rewrite app_nil_r|]. split; [done|]. split; [by constructor|done].
Qed.

(** A stored row represents the columns it was built from. *)
Definition represents (h : list ValueObject) (row : OMap.smap nat) (cols : Bucket.ValuesBucket) : Prop :=
  OMap.sorted Str.ltb row /\
  forall c, match OMap.lookup Str.ltb c row, OMap.lookup Str.ltb c cols with
            | Some a, Some v =>
                (a < length h)%nat /\ Value.ltb (deref h a) v = false /\ Value.ltb v (deref h a) = false
            | None, None => True
            | _, _ => False
            end.

Lemma represents_grow h l row cols : represents h row cols -> represents (h ++ l) row cols.
Proof.
  intros [Hs H]. split; [done|]. intros c. specialize (H c).
  destruct (OMap.lookup Str.ltb c row), (OMap.lookup Str.ltb c cols); try done.
  destruct H as (Ha & H). rewrite deref_app by done. rewrite length_app. split; [lia|done].
Qed.

Lemma put_columns_spec cols h fs vs row h' fs' vs' row' done_ :
  OMap.sorted Str.ltb (done_ ++ cols) ->
  Forall (fun p => p < length h)%nat vs ->
  represents h row done_ ->
  put_columns cols h fs vs row = (h', fs', vs', row') ->
  (exists l, h' = h ++ l) /\ Forall (fun p => p < length h')%nat vs' /\
  represents h' row' (done_ ++ cols).
Proof.
  revert h fs vs row done_. induction cols as [|[c v] cols IH]; intros h fs vs row dn Hso Hvs Hrep H.
  { simpl in H. simplify_eq. rewrite app_nil_r. split; [exists []; by rewrite app_nil_r|done]. }
  cbn [put_columns] in H. destruct (set_insert h v vs) as [[vs2 a] h2] eqn:Hi.
  destruct (set_insert_spec _ _ _ _ _ _ Hvs Hi) as ([l ->] & Ha & Hvs2 & Heq).
  replace (dn ++ (c, v) :: cols) with ((dn ++ [(c, v)]) ++ cols) in * by (by rewrite <-app_assoc).
  assert (OMap.sorted Str.ltb (dn ++ [(c, v)])) as Hdn by (by eapply OMap.sorted_app_l).
  assert (represents (h ++ l) (OMap.insert Str.ltb c a row) (dn ++ [(c, v)])) as Hrep2.
  { apply (represents_grow _ l) in Hrep. destruct Hrep as [Hrs Hrl].
    split; [by apply OMap.insert_sorted|]. intros k.
    rewrite OMap.lookup_insert by done.
    assert (OMap.lookup Str.ltb c dn = None) as Hfresh.
    { apply OMap.lookup_fresh_app with (1 := Hdn). }
    rewrite OMap.lookup_app_last by done. case_decide as Hk.
    - subst. specialize (Hrl c). rewrite Hfresh in Hrl.
      destruct (OMap.lookup Str.ltb c row); [done|]. by split.
    - apply Hrl. }
  destruct (IH _ _ _ _ _ Hso Hvs2 Hrep2 H) as ([l' ->] & Hv & Hr).
  split; [|done]. exists (l ++ l'). by rewrite app_assoc.
Qed.

(** The invariant of a batch against the rows it was given. *)
Definition holds (b : ValuesBuckets) (rows : list Bucket.ValuesBucket) : Prop :=
  Forall (fun p => p < length (heap b))%nat (values b) /\
  Forall2 (represents (heap b)) (buckets b) rows.

Lemma Put_holds b rows cols :
  OMap.sorted Str.ltb cols -> holds b rows -> holds (Put b cols) (rows ++ [cols]).
Proof.
  intros Hso [Hv Hr]. unfold Put.
  destruct (put_columns cols (heap b) (fields b) (values b) []) as [[[h fs] vs] row] eqn:Hp.
  destruct (put_columns_spec cols _ _ _ _ _ _ _ _ [] Hso Hv ltac:(by split; [constructor|]) Hp)
    as ([l ->] & Hv2 & Hr2).
  split; [done|]. simpl. apply Forall2_app; [|constructor; [done|constructor]].
  eapply Forall2_impl; [exact Hr|]. intros r c. apply represents_grow.
Qed.

Lemma of_rows_holds rows : Forall (OMap.sorted Str.ltb) rows -> holds (of_rows rows) rows.
Proof.
  intros Hs. unfold of_rows.
  enough (forall b done_, holds b done_ -> holds (foldl Put b rows) (done_ ++ rows)) as H.
  { apply (H new []). by split; constructor. }
  induction Hs as [|c rows Hc Hs IH]; intros b dn Hb; simpl; [by rewrite app_nil_r|].
  replace (dn ++ c :: rows) with ((dn ++ [c]) ++ rows) by (by rewrite <-app_assoc).
  apply IH. by apply Put_holds.
Qed.

Lemma holds_Get b rows i c cols v :
  holds b rows -> rows !! i = Some cols -> OMap.lookup Str.ltb c cols = Some v ->
  exists a, Get b i c = inr a /\
    Value.ltb (deref (heap b) a) v = false /\ Value.ltb v (deref (heap b) a) = false.
Proof.
  intros [_ Hr] Hi Hc. destruct (Forall2_lookup_r _ _ _ _ _ Hr Hi) as (row & Hrow & _ & Hrep).
  specialize (Hrep c). rewrite Hc in Hrep. unfold Get. rewrite Hrow.
  destruct (OMap.lookup Str.ltb c row) as [a|]; [|done]. exists a. naive_solver.
Qed.

Lemma holds_Get_missing b rows i c :
  holds b rows -> (rows !! i ≫= OMap.lookup Str.ltb c) = None -> Get b i c = inl E_INVALID_ARGS.
Proof.
  intros [_ Hr] Hi. unfold Get.
  destruct (buckets b !! i) as [row|] eqn:Hb; [|done].
  destruct (Forall2_lookup_l _ _ _ _ _ Hr Hb) as (cols & Hcols & _ & Hrep).
  specialize (Hrep c). rewrite Hcols in Hi. simpl in Hi. rewrite Hi in Hrep.
  by destruct (OMap.lookup Str.ltb c row).
Qed.

End Buckets.

(** ** Properties *)

(** any sequence of calls on a fresh [ValuesBucket] behaves as the finite map in which the
    typed setters keep an existing column and [Put] replaces it, and the row stays sorted by
    column name. *)
Theorem bucket_refines_map (ops : list Bucket.op) :
  Bucket.refines (foldl Bucket.run1 Bucket.new ops) (foldl Bucket.spec1 ∅ ops).
Proof. apply Bucket.run_refines. split; [constructor|done]. Qed.

(** reading a field of a row of a batch gives a value that [operator==] identifies with the
    one put there, the very same value when it is not a floating point number or an asset, and
    [E_INVALID_ARGS] exactly when the row or the field does not exist. *)
Theorem buckets_get (rows : list Bucket.ValuesBucket) (i : nat) (c : string) :
  Forall (OMap.sorted Str.ltb) rows ->
  match rows !! i ≫= OMap.lookup Str.ltb c with
  | None => Buckets.Get (Buckets.of_rows rows) i c = inl E_INVALID_ARGS
  | Some v =>
      exists a, Buckets.Get (Buckets.of_rows rows) i c = inr a /\
        Value.eqb (Buckets.deref (Buckets.heap (Buckets.of_rows rows)) a) v = true /\
        (Value.plain v = true -> Buckets.deref (Buckets.heap (Buckets.of_rows rows)) a = v)
  end.
Proof.
  intros Hs. apply Buckets.of_rows_holds in Hs.
  destruct (rows !! i ≫= OMap.lookup Str.ltb c) as [v|] eqn:Hv.
  - destruct (rows !! i) as [cols|] eqn:Hi; [|done]. simpl in Hv.
    destruct (Buckets.holds_Get _ _ _ _ _ _ Hs Hi Hv) as (a & Ha & H1 & H2).
    exists a. split; [done|]. unfold Value.eqb. rewrite H1, H2. split; [done|].
    intros Hp. symmetry. by apply Value.plain_equiv.
  - by eapply Buckets.holds_Get_missing.
Qed.

Definition demo_rows : list Bucket.ValuesBucket :=
  [ [("age", VInt 3); ("name", VString "x")]; [("age", VInt 3)] ].

Lemma buckets_get_witness :
  exists a, Buckets.Get (Buckets.of_rows demo_rows) 1 "age" = inr a /\
    Buckets.deref (Buckets.heap (Buckets.of_rows demo_rows)) a = VInt 3.
Proof.
  pose proof (buckets_get demo_rows 1 "age" ltac:(repeat constructor)) as H.
  destruct H as (a & Ha & _ & Hp). exists a. split; [exact Ha|]. apply Hp. reflexivity.
Defined.

(** Two assets that differ only in [version] or [expiresTime] are one element of the
    batch's value set, so the second row reads back the first row's asset. *)
Theorem buckets_merge_assets (c : string) (a1 a2 : AssetValue) :
  Asset.erase_meta a1 = Asset.erase_meta a2 ->
  let b := Buckets.of_rows [ [(c, VAsset a1)]; [(c, VAsset a2)] ] in
  exists p, Buckets.Get b 0 c = inr p /\ Buckets.Get b 1 c = inr p /\
            Buckets.deref (Buckets.heap b) p = VAsset a1.
Proof.
  intros He. unfold Buckets.of_rows. simpl.
  assert (forall x y, Asset.ltb x y = Asset.ltb (Asset.erase_meta x) (Asset.erase_meta y)) as Hm
    by done.
  unfold Buckets.Put. cbn -[Value.ltb]. unfold Value.ltb. simpl.
  rewrite (Hm a1 a2), (Hm a2 a1), He, Asset.asset_ltb_irrefl. simpl.
  unfold Buckets.Get. simpl. unfold OMap.lookup. simpl. rewrite Str.ltb_irrefl. simpl.
  by exists 0%nat.
Qed.

Definition asset_v (version : Z) : AssetValue :=
  mkAsset version 1 0 "id" "name" "uri" "c" "m" "s" "h" "p" "".

Lemma buckets_merge_assets_witness :
  let b := Buckets.of_rows [ [("file", VAsset (asset_v 1))]; [("file", VAsset (asset_v 2))] ] in
  exists p, Buckets.Get b 0 "file" = inr p /\ Buckets.Get b 1 "file" = inr p /\
            Buckets.deref (Buckets.heap b) p = VAsset (asset_v 1).
Proof. apply (buckets_merge_assets "file" (asset_v 1) (asset_v 2)). reflexivity. Defined.

(** [BigInteger::operator<] is the numeric order on one-word values but not on longer ones:
    it compares the words from the least significant one. *)
Theorem bigint_ltb_not_numeric :
  (forall sa x sb y, (sa = 0 \/ sa = 1)%Z -> (sb = 0 \/ sb = 1)%Z -> (0 < x)%Z -> (0 < y)%Z ->
    BigInt.ltb (mkBig sa [x]) (mkBig sb [y]) =
    (BigInt.denote (mkBig sa [x]) <? BigInt.denote (mkBig sb [y]))%Z) /\
  (let small := mkBig 0 [2; 0]%Z in let large := mkBig 0 [1; 1]%Z in
   (BigInt.denote small < BigInt.denote large)%Z /\
   BigInt.ltb large small = true /\ BigInt.ltb small large = false).
Proof.
  split.
  - intros sa x sb y Ha Hb Hx Hy. apply BigInt.ltb_one_word; auto; lia.
  - vm_compute. done.
Qed.
