(* ===== verification/SharedBlock.v ===== *)
(** * The shared block: query results in a flat memory area

    Models frameworks/native/appdatafwk/src/shared_block.cpp and the class declaration
    in interfaces/inner_api/appdatafwk/include/shared_block.h.

    The block is a bump allocator over [mSize] bytes.  Its first 536 bytes are the header
    ([SharedBlockHeader]); the rest holds row groups (128 offsets of 4 bytes each), field
    directories (one 12-byte packed [CellUnit] per column) and the bytes of strings and blobs.
    The header is kept as a record; [mem] are the bytes from the header's end on, and the
    invariant shows that no write ever falls below it or beyond [mSize].

    [Mem]: byte memory with little-endian words.  [Block]: the operations.  [BlockInv]: the
    layout invariant, and the relation [repr] between a block and the table of cells it
    stands for. *)
From Stdlib Require Import ZArith Lia.
From stdpp Require Import base gmap list.
From S2P Require Import Prelude.

Local Open Scope Z_scope.

(** ** Byte memory *)

Module Mem.

Definition mem := gmap Z Z.

(** Shared memory is zero-filled when it is created. *)
Definition rd (m : gmap Z Z) (a : Z) : Z := default 0 (m !! a).

Fixpoint rdn (m : gmap Z Z) (a : Z) (n : nat) : list Z :=
  match n with O => [] | S n' => rd m a :: rdn m (a + 1) n' end.

(** [memcpy]. *)
Fixpoint wr (m : gmap Z Z) (a : Z) (bs : list Z) : gmap Z Z :=
  match bs with [] => m | b :: bs' => wr (<[a := b]> m) (a + 1) bs' end.

Definition rd32 (m : gmap Z Z) (a : Z) : Z := Bytes.le_join (rdn m a 4).
Definition wr32 (m : gmap Z Z) (a v : Z) : gmap Z Z := wr m a (Bytes.le_split 4 v).

(** Two address ranges without a common byte. *)
Definition disj (lo1 hi1 lo2 hi2 : Z) : Prop := hi1 <= lo2 \/ hi2 <= lo1.

Lemma rdn_length m a n : length (rdn m a n) = n.
Proof. revert a. induction n as [|n IH]; intros a; simpl; [done|]. by rewrite IH. Qed.

Lemma rd_wr_out m a bs x : x < a \/ a + Z.of_nat (length bs) <= x -> rd (wr m a bs) x = rd m x.
Proof.
  revert m a. induction bs as [|b bs IH]; intros m a H; simpl; [done|].
  simpl in H. rewrite IH by lia. unfold rd. by rewrite lookup_insert_ne by lia.
Qed.

Lemma rdn_wr_out m a bs x n :
  disj x (x + Z.of_nat n) a (a + Z.of_nat (length bs)) -> rdn (wr m a bs) x n = rdn m x n.
Proof.
  revert x. induction n as [|n IH]; intros x H; simpl; [done|].
  unfold disj in *. f_equal; [apply rd_wr_out; lia|apply IH; lia].
Qed.

Lemma rdn_wr_same m a bs : rdn (wr m a bs) a (length bs) = bs.
Proof.
  revert m a. induction bs as [|b bs IH]; intros m a; simpl; [done|].
  f_equal; [|apply IH]. rewrite rd_wr_out by lia. unfold rd. by rewrite lookup_insert_eq.
Qed.

Lemma rdn_app m a n1 n2 : rdn m a (n1 + n2) = rdn m a n1 ++ rdn m (a + Z.of_nat n1) n2.
Proof.
  revert a. induction n1 as [|n1 IH]; intros a; simpl.
  - f_equal; lia.
  - rewrite IH. by replace (a + 1 + Z.of_nat n1) with (a + Z.of_nat (S n1)) by lia.
Qed.

Lemma rd32_wr_out m a bs x :
  disj x (x + 4) a (a + Z.of_nat (length bs)) -> rd32 (wr m a bs) x = rd32 m x.
Proof. intros H. unfold rd32. by rewrite rdn_wr_out. Qed.

Lemma rd32_wr32 m a v : 0 <= v < 2 ^ 32 -> rd32 (wr32 m a v) a = v.
Proof.
  intros Hv. unfold rd32, wr32.
  change (rdn (wr m a (Bytes.le_split 4 v)) a 4)
    with (rdn (wr m a (Bytes.le_split 4 v)) a (length (Bytes.le_split 4 v))).
  rewrite rdn_wr_same. apply Bytes.le_join_split_small. lia.
Qed.

End Mem.
Import Mem.

(** ** The block *)

Module Block.

Definition ROW_NUM_IN_A_GROUP : Z := 128.
Definition GROUP_NUM : Z := 128.
Definition COL_MAX_NUM : Z := 32767.

(** [sizeof] of the structures (all fields are 4 bytes, [CellUnit] is packed). *)
Definition sizeof_header : Z := 536.
Definition sizeof_group : Z := 512.
Definition sizeof_cell : Z := 12.

Inductive status :=
| SHARED_BLOCK_OK | SHARED_BLOCK_BAD_VALUE | SHARED_BLOCK_NO_MEMORY
| SHARED_BLOCK_INVALID_OPERATION | SHARED_BLOCK_ASHMEM_ERROR | SHARED_BLOCK_SET_PORT_ERROR.

#[export] Instance status_eq_dec : EqDecision status.
Proof. solve_decision. Defined.

Definition CELL_UNIT_TYPE_NULL : Z := 0.
Definition CELL_UNIT_TYPE_INTEGER : Z := 1.
Definition CELL_UNIT_TYPE_FLOAT : Z := 2.
Definition CELL_UNIT_TYPE_STRING : Z := 3.
Definition CELL_UNIT_TYPE_BLOB : Z := 4.
Definition CELL_UNIT_TYPE_ASSET : Z := 5.
Definition CELL_UNIT_TYPE_ASSETS : Z := 6.
Definition CELL_UNIT_TYPE_FLOATS : Z := 7.
Definition CELL_UNIT_TYPE_BIGINT : Z := 8.

Record SharedBlockHeader := mkHeader {
  unusedOffset : Z;
  rowNums : Z;
  columnNums : Z;
  startPos_ : Z;
  lastPos_ : Z;
  blockPos_ : Z;
  groupOffset : list Z }.

Record SharedBlock := mkBlock {
  mSize : Z;
  mReadOnly : bool;
  mHeader : SharedBlockHeader;
  mData : gmap Z Z }.

Definition set_header (b : SharedBlock) (h : SharedBlockHeader) : SharedBlock :=
  mkBlock (mSize b) (mReadOnly b) h (mData b).
Definition set_data (b : SharedBlock) (m : gmap Z Z) : SharedBlock :=
  mkBlock (mSize b) (mReadOnly b) (mHeader b) m.

Definition with_unused (h : SharedBlockHeader) (u : Z) : SharedBlockHeader :=
  mkHeader u (rowNums h) (columnNums h) (startPos_ h) (lastPos_ h) (blockPos_ h) (groupOffset h).
Definition with_rows (h : SharedBlockHeader) (r : Z) : SharedBlockHeader :=
  mkHeader (unusedOffset h) r (columnNums h) (startPos_ h) (lastPos_ h) (blockPos_ h) (groupOffset h).
Definition with_columns (h : SharedBlockHeader) (c : Z) : SharedBlockHeader :=
  mkHeader (unusedOffset h) (rowNums h) c (startPos_ h) (lastPos_ h) (blockPos_ h) (groupOffset h).
Definition with_groups (h : SharedBlockHeader) (g : list Z) : SharedBlockHeader :=
  mkHeader (unusedOffset h) (rowNums h) (columnNums h) (startPos_ h) (lastPos_ h) (blockPos_ h) g.

(** [mHeader->groupOffset[i]]. *)
Definition grp (b : SharedBlock) (i : Z) : Z := nth (Z.to_nat i) (groupOffset (mHeader b)) 0.

(** The header [Clear] writes. *)
Definition cleared_header : SharedBlockHeader :=
  mkHeader (sizeof_header + sizeof_group) 0 0 0 0 0 (sizeof_header :: replicate 127 0).

Definition Clear (b : SharedBlock) : status * SharedBlock :=
  if mReadOnly b then (SHARED_BLOCK_INVALID_OPERATION, b)
  else (SHARED_BLOCK_OK, set_header b cleared_header).

(** [Init]: [read_ok] is whether [Ashmem::ReadFromAshmem] gave a pointer. *)
Definition Init (b : SharedBlock) (read_ok : bool) : bool * SharedBlock :=
  if read_ok then (true, snd (Clear b)) else (false, b).

(** A fresh zero-filled area. *)
Definition zero_header : SharedBlockHeader := mkHeader 0 0 0 0 0 0 (replicate 128 0).

Definition CreateSharedBlock (size : Z) (read_ok : bool) : status * option SharedBlock :=
  match Init (mkBlock size false zero_header ∅) read_ok with
  | (true, b) => (SHARED_BLOCK_OK, Some b)
  | (false, _) => (SHARED_BLOCK_ASHMEM_ERROR, None)
  end.

(** [Create]: [created], [mapped] and [read_ok] are the outcomes of the Ashmem calls. *)
Definition Create (size : Z) (created mapped read_ok : bool) : status * option SharedBlock :=
  if negb created then (SHARED_BLOCK_ASHMEM_ERROR, None)
  else if negb mapped then (SHARED_BLOCK_SET_PORT_ERROR, None)
  else CreateSharedBlock size read_ok.

Definition SetColumnNum (b : SharedBlock) (numColumns : Z) : status * SharedBlock :=
  if mReadOnly b then (SHARED_BLOCK_INVALID_OPERATION, b)
  else
    let cur := columnNums (mHeader b) in
    if ((0 <? cur) || (0 <? rowNums (mHeader b))) && negb (cur =? numColumns)
    then (SHARED_BLOCK_INVALID_OPERATION, b)
    else if COL_MAX_NUM <? numColumns then (SHARED_BLOCK_INVALID_OPERATION, b)
    else (SHARED_BLOCK_OK, set_header b (with_columns (mHeader b) numColumns)).

(** [OffsetToPtr]: [None] is [nullptr]; the sum is a 32-bit one. *)
Definition OffsetToPtr (b : SharedBlock) (offset bufferSize : Z) : option Z :=
  if mSize b <? Int.u32 (offset + bufferSize) then None else Some offset.

(** [Alloc]: the returned offset, 0 when there is not enough space.  The offset is rounded up
    to a multiple of 4 and the sums are 32-bit ones. *)
Definition Alloc (b : SharedBlock) (size : Z) : Z * SharedBlock :=
  let u := unusedOffset (mHeader b) in
  let offset := Int.u32 (u + Z.land (Int.u32 (Z.lnot u + 1)) 3) in
  let nextFreeOffset := Int.u32 (offset + size) in
  if mSize b <? nextFreeOffset then (0, b)
  else (offset, set_header b (with_unused (mHeader b) nextFreeOffset)).

(** [AllocRowOffset]: the address of the row's slot in its group, [None] for [nullptr]. *)
Definition AllocRowOffset (b : SharedBlock) : option Z * SharedBlock :=
  let groupPos := rowNums (mHeader b) / ROW_NUM_IN_A_GROUP in
  if GROUP_NUM <=? groupPos then (None, b)
  else
    let b1 :=
      if grp b groupPos =? 0 then
        let '(off, b') := Alloc b sizeof_group in
        set_header b' (with_groups (mHeader b')
          (<[Z.to_nat groupPos := off]> (groupOffset (mHeader b'))))
      else b in
    if grp b1 groupPos =? 0 then (None, b1)
    else
      let rowPos := rowNums (mHeader b1) mod ROW_NUM_IN_A_GROUP in
      let group := OffsetToPtr b1 (grp b1 groupPos) 0 in
      let b2 := set_header b1 (with_rows (mHeader b1) (Int.u32 (rowNums (mHeader b1) + 1))) in
      match group with
      | None => (None, b2)
      | Some g => (Some (g + 4 * rowPos), b2)
      end.

Definition AllocRow (b : SharedBlock) : status * SharedBlock :=
  match AllocRowOffset b with
  | (None, b1) => (SHARED_BLOCK_NO_MEMORY, b1)
  | (Some rowOffset, b1) =>
      let fieldDirSize := columnNums (mHeader b1) * sizeof_cell in
      let '(fieldDirOffset, b2) := Alloc b1 fieldDirSize in
      if fieldDirOffset =? 0 then
        (SHARED_BLOCK_NO_MEMORY,
         set_header b2 (with_rows (mHeader b2) (Int.u32 (rowNums (mHeader b2) - 1))))
      else (SHARED_BLOCK_OK, set_data b2 (wr32 (mData b2) rowOffset fieldDirOffset))
  end.

Definition FreeLastRow (b : SharedBlock) : status * SharedBlock :=
  (SHARED_BLOCK_OK,
   if 0 <? rowNums (mHeader b)
   then set_header b (with_rows (mHeader b) (rowNums (mHeader b) - 1))
   else b).

(** The offset of a row's field directory, read from its group. *)
Definition dir (b : SharedBlock) (row : Z) : Z :=
  rd32 (mData b) (grp b (row / ROW_NUM_IN_A_GROUP) + 4 * (row mod ROW_NUM_IN_A_GROUP)).

(** The address [mData + group->rowOffsets[rowPos]] + [column] cell units. *)
Definition cell_addr (b : SharedBlock) (row column : Z) : Z := dir b row + sizeof_cell * column.

Definition out_of_range (b : SharedBlock) (row column : Z) : bool :=
  (rowNums (mHeader b) <=? row) || (columnNums (mHeader b) <=? column).

Definition GetCellUnit (b : SharedBlock) (row column : Z) : option Z :=
  if out_of_range b row column then None else Some (cell_addr b row column).

(** The 12 bytes of a cell: the type, then the 8 bytes of the union. *)
Definition long_cell (ty v : Z) : list Z := Bytes.le_split 4 (Int.u32 ty) ++ Bytes.le_split 8 (Int.u64 v).
Definition slice_cell (ty off size : Z) : list Z :=
  Bytes.le_split 4 (Int.u32 ty) ++ Bytes.le_split 4 (Int.u32 off) ++ Bytes.le_split 4 (Int.u32 size).

(** [memcpy_s] of the bounds-checking library refuses sizes above [SECUREC_MEM_MAX_LEN]. *)
Definition SECUREC_MEM_MAX_LEN : Z := 2 ^ 31 - 1.

(** [PutBlobOrString]; [value = None] is a null pointer, and [size] is the length of the
    buffer. *)
Definition PutBlobOrString (b : SharedBlock) (row column : Z) (value : option (list Z)) (ty : Z) :
  status * SharedBlock :=
  match value with
  | None => (SHARED_BLOCK_BAD_VALUE, b)
  | Some bs =>
      if out_of_range b row column then (SHARED_BLOCK_BAD_VALUE, b)
      else
        let size := Z.of_nat (length bs) in
        let cellUnit := cell_addr b row column in
        let offset := unusedOffset (mHeader b) in
        let end_ := Int.u32 (offset + size) in
        if mSize b <? end_ then (SHARED_BLOCK_NO_MEMORY, b)
        else
          let b1 := set_header b (with_unused (mHeader b) end_) in
          if negb (size =? 0) && (SECUREC_MEM_MAX_LEN <? size) then (SHARED_BLOCK_NO_MEMORY, b1)
          else
            let m := wr (mData b1) offset bs in
            (SHARED_BLOCK_OK, set_data b1 (wr m cellUnit (slice_cell ty offset size)))
  end.

Definition PutBlob (b : SharedBlock) (row column : Z) (value : option (list Z)) : status * SharedBlock :=
  PutBlobOrString b row column value CELL_UNIT_TYPE_BLOB.
Definition PutString (b : SharedBlock) (row column : Z) (value : option (list Z)) : status * SharedBlock :=
  PutBlobOrString b row column value CELL_UNIT_TYPE_STRING.
Definition PutAsset (b : SharedBlock) (row column : Z) (value : option (list Z)) : status * SharedBlock :=
  PutBlobOrString b row column value CELL_UNIT_TYPE_ASSET.
Definition PutAssets (b : SharedBlock) (row column : Z) (value : option (list Z)) : status * SharedBlock :=
  PutBlobOrString b row column value CELL_UNIT_TYPE_ASSETS.
Definition PutFloats (b : SharedBlock) (row column : Z) (value : option (list Z)) : status * SharedBlock :=
  PutBlobOrString b row column value CELL_UNIT_TYPE_FLOATS.
Definition PutBigInt (b : SharedBlock) (row column : Z) (value : option (list Z)) : status * SharedBlock :=
  PutBlobOrString b row column value CELL_UNIT_TYPE_BIGINT.

Definition PutLong (b : SharedBlock) (row column value : Z) : status * SharedBlock :=
  if out_of_range b row column then (SHARED_BLOCK_BAD_VALUE, b)
  else (SHARED_BLOCK_OK,
        set_data b (wr (mData b) (cell_addr b row column) (long_cell CELL_UNIT_TYPE_INTEGER value))).

(** The [double] is given by its bits. *)
Definition PutDouble (b : SharedBlock) (row column value : Z) : status * SharedBlock :=
  if out_of_range b row column then (SHARED_BLOCK_BAD_VALUE, b)
  else (SHARED_BLOCK_OK,
        set_data b (wr (mData b) (cell_addr b row column) (long_cell CELL_UNIT_TYPE_FLOAT value))).

Definition PutNull (b : SharedBlock) (row column : Z) : status * SharedBlock :=
  if out_of_range b row column then (SHARED_BLOCK_BAD_VALUE, b)
  else (SHARED_BLOCK_OK,
        set_data b (wr (mData b) (cell_addr b row column) (slice_cell CELL_UNIT_TYPE_NULL 0 0))).

(** *** Reading a cell *)

Definition cell_type (b : SharedBlock) (a : Z) : Z := Int.i32 (rd32 (mData b) a).
Definition cell_long (b : SharedBlock) (a : Z) : Z := Int.i64 (Bytes.le_join (rdn (mData b) (a + 4) 8)).
Definition cell_bits (b : SharedBlock) (a : Z) : Z := Bytes.le_join (rdn (mData b) (a + 4) 8).
Definition cell_offset (b : SharedBlock) (a : Z) : Z := rd32 (mData b) (a + 4).
Definition cell_size (b : SharedBlock) (a : Z) : Z := rd32 (mData b) (a + 8).

(** [CellUnit::GetBlob]: [None] is the undefined case of a null data pointer. *)
Definition GetBlob (b : SharedBlock) (a : Z) : option (list Z) :=
  match OffsetToPtr b (cell_offset b a) (cell_size b a) with
  | None => None
  | Some p => Some (rdn (mData b) p (Z.to_nat (cell_size b a)))
  end.

(** The characters up to the first NUL. *)
Fixpoint c_str (bs : list Z) : list Z :=
  match bs with [] => [] | c :: bs' => if c =? 0 then [] else c :: c_str bs' end.

(** [CellUnit::GetString], for data that holds a terminating NUL. *)
Definition GetString (b : SharedBlock) (a : Z) : list Z :=
  match OffsetToPtr b (cell_offset b a) (cell_size b a) with
  | None => []
  | Some p => if cell_size b a <? 1 then [] else c_str (rdn (mData b) p (Z.to_nat (cell_size b a)))
  end.

(** *** The block as raw bytes *)

(** The 536 bytes of the header: 134 words. *)
Definition header_words (h : SharedBlockHeader) : list Z :=
  [unusedOffset h; rowNums h; columnNums h; startPos_ h; lastPos_ h; blockPos_ h] ++ groupOffset h.

Definition header_bytes (h : SharedBlockHeader) : list Z :=
  concat (map (Bytes.le_split 4) (header_words h)).

Fixpoint words (n : nat) (bs : list Z) : list Z :=
  match n with O => [] | S n' => Bytes.le_join (take 4 bs) :: words n' (drop 4 bs) end.

Definition header_of (bs : list Z) : SharedBlockHeader :=
  let ws := words 134 bs in
  mkHeader (nth 0 ws 0) (nth 1 ws 0) (nth 2 ws 0) (nth 3 ws 0) (nth 4 ws 0) (nth 5 ws 0) (drop 6 ws).

(** The first [n] bytes from [mHeader] on. *)
Definition raw_bytes (b : SharedBlock) (n : nat) : list Z :=
  take n (header_bytes (mHeader b) ++ rdn (mData b) sizeof_header (n - 536)).

(** [SetRawData]: [memcpy_s] of the bytes over the header and the data. *)
Definition SetRawData (b : SharedBlock) (rawData : option (list Z)) : status * SharedBlock :=
  match rawData with
  | None => (SHARED_BLOCK_INVALID_OPERATION, b)
  | Some bs =>
      let size := Z.of_nat (length bs) in
      if size <=? 0 then (SHARED_BLOCK_INVALID_OPERATION, b)
      else if mSize b <? size then (SHARED_BLOCK_NO_MEMORY, b)
      else if SECUREC_MEM_MAX_LEN <? mSize b then (SHARED_BLOCK_NO_MEMORY, b)
      else
        let hdr := take 536 bs ++ drop (length bs) (header_bytes (mHeader b)) in
        (SHARED_BLOCK_OK,
         mkBlock (mSize b) (mReadOnly b) (header_of hdr) (wr (mData b) sizeof_header (drop 536 bs)))
  end.

Definition GetRowNum (b : SharedBlock) : Z := rowNums (mHeader b).
Definition GetColumnNum (b : SharedBlock) : Z := columnNums (mHeader b).
Definition GetUsedBytes (b : SharedBlock) : Z := unusedOffset (mHeader b).

End Block.

(** ** The layout invariant *)

Module BlockInv.
Import Block.

(** The structures placed in the block: group directories and field directories. *)
Inductive piece := PGroup (i : Z) | PDir (row : Z).

#[export] Instance piece_eq_dec : EqDecision piece.
Proof. solve_decision. Defined.

(** The address range of a structure, when it exists. *)
Definition extent (b : SharedBlock) (p : piece) : option (Z * Z) :=
  match p with
  | PGroup i =>
      if (0 <=? i) && (i <? GROUP_NUM) && negb (grp b i =? 0)
      then Some (grp b i, grp b i + sizeof_group) else None
  | PDir r =>
      if (0 <=? r) && (r <? rowNums (mHeader b))
      then Some (dir b r, dir b r + sizeof_cell * columnNums (mHeader b)) else None
  end.

Record wf (b : SharedBlock) : Prop := {
  wf_size : sizeof_header + sizeof_group <= unusedOffset (mHeader b) <= mSize b /\ mSize b < 2 ^ 31;
  wf_groups : length (groupOffset (mHeader b)) = 128%nat;
  wf_rows : 0 <= rowNums (mHeader b) <= GROUP_NUM * ROW_NUM_IN_A_GROUP;
  wf_cols : 0 <= columnNums (mHeader b) <= COL_MAX_NUM;
  wf_grp : forall r, 0 <= r < rowNums (mHeader b) -> grp b (r / ROW_NUM_IN_A_GROUP) <> 0;
  wf_in : forall p lo hi, extent b p = Some (lo, hi) ->
    sizeof_header <= lo <= hi /\ hi <= unusedOffset (mHeader b);
  wf_disj : forall p q lo1 hi1 lo2 hi2, p <> q ->
    extent b p = Some (lo1, hi1) -> extent b q = Some (lo2, hi2) -> disj lo1 hi1 lo2 hi2 }.

Ltac unfold_sizes :=
  unfold sizeof_header, sizeof_group, sizeof_cell, GROUP_NUM, ROW_NUM_IN_A_GROUP, COL_MAX_NUM in *.

(** *** Consequences for addresses *)

Lemma slot_bounds r : 0 <= r mod ROW_NUM_IN_A_GROUP < 128.
Proof. apply Z.mod_pos_bound. unfold_sizes. lia. Qed.

Lemma group_index_bounds r n :
  0 <= r < n -> n <= GROUP_NUM * ROW_NUM_IN_A_GROUP -> 0 <= r / ROW_NUM_IN_A_GROUP < GROUP_NUM.
Proof.
  unfold_sizes. intros Hr Hn. split; [apply Z.div_pos; lia|apply Z.div_lt_upper_bound; lia].
Qed.

Lemma extent_group b i :
  0 <= i < GROUP_NUM -> grp b i <> 0 -> extent b (PGroup i) = Some (grp b i, grp b i + sizeof_group).
Proof. intros Hi Hg. unfold extent. replace (_ && _) with true; [done|]. symmetry. lia. Qed.

Lemma extent_dir b r :
  0 <= r < rowNums (mHeader b) ->
  extent b (PDir r) = Some (dir b r, dir b r + sizeof_cell * columnNums (mHeader b)).
Proof. intros Hr. unfold extent. replace (_ && _) with true; [done|]. symmetry. lia. Qed.

Lemma extent_dir_inv b r lo hi :
  extent b (PDir r) = Some (lo, hi) ->
  0 <= r < rowNums (mHeader b) /\ lo = dir b r /\ hi = dir b r + sizeof_cell * columnNums (mHeader b).
Proof. unfold extent. destruct (_ && _) eqn:E; [|done]. intros [= <- <-]. lia. Qed.

Lemma extent_group_inv b i lo hi :
  extent b (PGroup i) = Some (lo, hi) ->
  0 <= i < GROUP_NUM /\ grp b i <> 0 /\ lo = grp b i /\ hi = grp b i + sizeof_group.
Proof. unfold extent. destruct (_ && _) eqn:E; [|done]. intros [= <- <-]. lia. Qed.

(** The slot of a row lies in its group. *)
Lemma slot_in_group b r :
  wf b -> 0 <= r < rowNums (mHeader b) ->
  extent b (PGroup (r / ROW_NUM_IN_A_GROUP)) =
    Some (grp b (r / ROW_NUM_IN_A_GROUP), grp b (r / ROW_NUM_IN_A_GROUP) + sizeof_group).
Proof.
  intros Hwf Hr. apply extent_group; [|by apply (wf_grp b)].
  eapply group_index_bounds; [exact Hr|]. apply (wf_rows b Hwf).
Qed.

(** A cell lies in its row's field directory. *)
Lemma cell_in_dir b row column :
  wf b -> 0 <= row -> 0 <= column -> out_of_range b row column = false ->
  dir b row <= cell_addr b row column /\
  cell_addr b row column + sizeof_cell <= dir b row + sizeof_cell * columnNums (mHeader b) /\
  0 <= row < rowNums (mHeader b) /\ 0 <= column < columnNums (mHeader b).
Proof. intros Hwf Hr Hc. unfold out_of_range, cell_addr. unfold_sizes. lia. Qed.

(** *** Alignment *)

Lemma land3 x : Z.land x 3 = x mod 4.
Proof. exact (Z.land_ones x 2 ltac:(lia)). Qed.

Lemma align_up u :
  0 <= u < 2 ^ 31 ->
  let o := Int.u32 (u + Z.land (Int.u32 (Z.lnot u + 1)) 3) in u <= o <= u + 3 /\ o mod 4 = 0.
Proof.
  intros Hu. cbv zeta. replace (Z.lnot u + 1) with (- u) by (unfold Z.lnot; lia).
  rewrite (land3 (Int.u32 (- u))). unfold Int.u32, Int.wrap.
  assert ((- u) mod 2 ^ 32 mod 4 = (- u) mod 4) as ->
    by (apply Z.mod_mod_divide; exists (2 ^ 30); lia).
  pose proof (Z.mod_pos_bound (- u) 4 ltac:(lia)) as Hb.
  rewrite (Z.mod_small (u + _) (2 ^ 32)) by lia. split; [lia|].
  rewrite Z.add_mod_idemp_r by lia. by replace (u + - u) with 0 by lia.
Qed.

(** *** Allocation *)

Lemma Alloc_spec b size off b' :
  sizeof_header + sizeof_group <= unusedOffset (mHeader b) <= mSize b -> mSize b < 2 ^ 31 ->
  0 <= size < 2 ^ 30 ->
  Alloc b size = (off, b') ->
  (off = 0 /\ b' = b) \/
  (unusedOffset (mHeader b) <= off /\ off + size <= mSize b /\ off mod 4 = 0 /\ off <> 0 /\
   b' = set_header b (with_unused (mHeader b) (off + size))).
Proof.
  intros Hu Hm Hs H. unfold Alloc in H. unfold_sizes.
  pose proof (align_up (unusedOffset (mHeader b)) ltac:(lia)) as [Ho Hal].
  revert H Ho Hal. set (o := Int.u32 (unusedOffset (mHeader b) + _)). intros H Ho Hal.
  assert (Int.u32 (o + size) = o + size) as Hn by (apply Int.u32_small; lia).
  rewrite Hn in H. destruct (Z.ltb_spec (mSize b) (o + size)) as [|Hle].
  - left. by simplify_eq.
  - right. simplify_eq. unfold_sizes. repeat split; try done; lia.
Qed.

(** Changing only the unused offset leaves every structure where it is. *)
Lemma extent_unused b u p : extent (set_header b (with_unused (mHeader b) u)) p = extent b p.
Proof. by destruct p. Qed.

Lemma wf_unused b u :
  wf b -> unusedOffset (mHeader b) <= u <= mSize b ->
  wf (set_header b (with_unused (mHeader b) u)).
Proof.
  intros Hwf Hu. destruct Hwf as [Hs Hg Hr Hc Hgr Hin Hd].
  constructor; simpl; try done; try lia.
  intros p lo hi Hp. rewrite extent_unused in Hp. apply Hin in Hp. lia.
Qed.

(** Fewer rows: the structures that remain are unchanged. *)
Lemma extent_fewer_rows b r p lo hi :
  r <= rowNums (mHeader b) ->
  extent (set_header b (with_rows (mHeader b) r)) p = Some (lo, hi) -> extent b p = Some (lo, hi).
Proof.
  intros Hr. destruct p as [i|r']; [done|]. intros H.
  apply extent_dir_inv in H as (Hr' & -> & ->). simpl in Hr'. by rewrite extent_dir by lia.
Qed.

Lemma wf_fewer_rows b r :
  wf b -> 0 <= r <= rowNums (mHeader b) -> wf (set_header b (with_rows (mHeader b) r)).
Proof.
  intros Hwf Hr. destruct Hwf as [Hs Hg Hrows Hc Hgr Hin Hd].
  constructor; simpl; try done; try lia.
  - intros r' Hr'. apply Hgr. lia.
  - intros p lo hi Hp. eapply Hin, extent_fewer_rows; [|exact Hp]. lia.
  - intros p q lo1 hi1 lo2 hi2 Hne Hp Hq.
    eapply Hd; [exact Hne|..]; (eapply extent_fewer_rows; [|eassumption]; lia).
Qed.

(** A write outside all group directories does not move any field directory. *)
Lemma dir_write_out b a bs r :
  wf b -> 0 <= r < rowNums (mHeader b) ->
  (forall i lo hi, extent b (PGroup i) = Some (lo, hi) -> disj lo hi a (a + Z.of_nat (length bs))) ->
  dir (set_data b (wr (mData b) a bs)) r = dir b r.
Proof.
  intros Hwf Hr Hout. unfold dir. simpl.
  apply rd32_wr_out. pose proof (slot_bounds r) as Hsl.
  specialize (Hout _ _ _ (slot_in_group b r Hwf Hr)). unfold disj in *. unfold_sizes.
  unfold grp in *; simpl in *. lia.
Qed.

Lemma extent_write_out b a bs p :
  wf b ->
  (forall i lo hi, extent b (PGroup i) = Some (lo, hi) -> disj lo hi a (a + Z.of_nat (length bs))) ->
  extent (set_data b (wr (mData b) a bs)) p = extent b p.
Proof.
  intros Hwf Hout. destruct p as [i|r]; [done|]. unfold extent. simpl.
  destruct (_ && _) eqn:E; [|done]. rewrite dir_write_out; [done|done|lia|done].
Qed.

Lemma wf_write_out b a bs :
  wf b ->
  (forall i lo hi, extent b (PGroup i) = Some (lo, hi) -> disj lo hi a (a + Z.of_nat (length bs))) ->
  wf (set_data b (wr (mData b) a bs)).
Proof.
  intros Hwf Hout. pose proof (fun p => extent_write_out b a bs p Hwf Hout) as He.
  destruct Hwf as [Hs Hg Hr Hc Hgr Hin Hd].
  constructor; simpl; try done.
  - intros p lo hi. rewrite He. apply Hin.
  - intros p q lo1 hi1 lo2 hi2. rewrite !He. apply Hd.
Qed.

(** A cell is outside every group directory. *)
Lemma cell_out_of_groups b row column i lo hi :
  wf b -> 0 <= row -> 0 <= column -> out_of_range b row column = false ->
  extent b (PGroup i) = Some (lo, hi) ->
  disj lo hi (cell_addr b row column) (cell_addr b row column + sizeof_cell).
Proof.
  intros Hwf Hr Hc Ho Hg. destruct (cell_in_dir b row column Hwf Hr Hc Ho) as (H1 & H2 & Hrow & _).
  pose proof (wf_disj b Hwf (PGroup i) (PDir row) _ _ _ _ ltac:(done) Hg (extent_dir b row Hrow)) as Hd.
  unfold disj in *. lia.
Qed.

(** The area from [unusedOffset] on is outside every structure. *)
Lemma fresh_out b p lo hi x y :
  wf b -> extent b p = Some (lo, hi) -> unusedOffset (mHeader b) <= x -> disj lo hi x y.
Proof. intros Hwf Hp Hx. apply (wf_in b Hwf) in Hp. unfold disj. lia. Qed.

(** ** The table a block stands for *)

Inductive cell :=
| CNull
| CLong (v : Z)
| CDouble (bits : Z)
| CBytes (ty : Z) (bs : list Z).

(** A range of addresses that no structure occupies. *)
Definition free_range (b : SharedBlock) (lo hi : Z) : Prop :=
  sizeof_header + sizeof_group <= lo <= hi /\ hi <= unusedOffset (mHeader b) /\
  forall p l h, extent b p = Some (l, h) -> disj l h lo hi.

(** The twelve bytes at [a], with the data they point to, hold [v]. *)
Definition encodes (b : SharedBlock) (a : Z) (v : cell) : Prop :=
  match v with
  | CNull => rdn (mData b) a 12 = slice_cell CELL_UNIT_TYPE_NULL 0 0
  | CLong z => rdn (mData b) a 12 = long_cell CELL_UNIT_TYPE_INTEGER z
  | CDouble w => rdn (mData b) a 12 = long_cell CELL_UNIT_TYPE_FLOAT w
  | CBytes ty bs => exists off,
      free_range b off (off + Z.of_nat (length bs)) /\
      rdn (mData b) a 12 = slice_cell ty off (Z.of_nat (length bs)) /\
      rdn (mData b) off (length bs) = bs
  end.

Definition repr (b : SharedBlock) (M : gmap (Z * Z) cell) : Prop :=
  forall r c v, M !! (r, c) = Some v ->
    (0 <= r < rowNums (mHeader b) /\ 0 <= c < columnNums (mHeader b)) /\
    encodes b (cell_addr b r c) v.

(** From [b] to [b'] nothing that is in use is overwritten. *)
Record kept (b b' : SharedBlock) : Prop := {
  kept_unused : unusedOffset (mHeader b) <= unusedOffset (mHeader b');
  kept_extent : forall p lo hi, extent b' p = Some (lo, hi) ->
    extent b p = Some (lo, hi) \/ unusedOffset (mHeader b) <= lo;
  kept_data : forall lo n, free_range b lo (lo + Z.of_nat n) ->
    rdn (mData b') lo n = rdn (mData b) lo n }.

Lemma kept_free b b' lo hi : kept b b' -> free_range b lo hi -> free_range b' lo hi.
Proof.
  intros [Hu He _] (H1 & H2 & H3). split; [done|]. split; [lia|].
  intros p l h Hp. destruct (He _ _ _ Hp) as [Hp'|Hl]; [by eapply H3|]. unfold disj. lia.
Qed.

#[export] Instance kept_preorder : PreOrder kept.
Proof.
  split.
  - intros b. split; [lia|by left|done].
  - intros b1 b2 b3 H12 H23. split.
    + pose proof (kept_unused _ _ H12). pose proof (kept_unused _ _ H23). lia.
    + intros p lo hi Hp. pose proof (kept_unused _ _ H12).
      destruct (kept_extent _ _ H23 _ _ _ Hp) as [Hp'|]; [|right; lia].
      by apply (kept_extent _ _ H12).
    + intros lo n Hf. rewrite (kept_data _ _ H23) by (by eapply kept_free).
      by apply (kept_data _ _ H12).
Qed.

Lemma encodes_kept b b' a a' v :
  kept b b' -> rdn (mData b') a' 12 = rdn (mData b) a 12 -> encodes b a v -> encodes b' a' v.
Proof.
  intros Hk Hr. destruct v as [|z|w|ty bs]; cbn [encodes]; try (by rewrite Hr).
  intros (off & Hf & Hc & Hd). exists off. split; [by eapply kept_free|].
  split; [by rewrite Hr|]. by rewrite (kept_data _ _ Hk).
Qed.

(** A header change that only raises the unused offset. *)
Lemma kept_raise b u :
  unusedOffset (mHeader b) <= u -> kept b (set_header b (with_unused (mHeader b) u)).
Proof. intros Hu. split; simpl; [done| |done]. intros p lo hi. rewrite extent_unused. by left. Qed.

(** A write inside one field directory, or into the unused area. *)
Lemma kept_write b a bs :
  wf b ->
  (forall i lo hi, extent b (PGroup i) = Some (lo, hi) -> disj lo hi a (a + Z.of_nat (length bs))) ->
  (forall lo hi, free_range b lo hi -> disj lo hi a (a + Z.of_nat (length bs))) ->
  kept b (set_data b (wr (mData b) a bs)).
Proof.
  intros Hwf Hg Hf. split; simpl; [lia| |].
  - intros p lo hi. rewrite extent_write_out by done. by left.
  - intros lo n Hfr. apply rdn_wr_out. by apply Hf.
Qed.

(** Writing the twelve bytes of one cell. *)
Lemma cell_write b row column bs :
  wf b -> 0 <= row -> 0 <= column -> out_of_range b row column = false -> length bs = 12%nat ->
  let b' := set_data b (wr (mData b) (cell_addr b row column) bs) in
  wf b' /\ kept b b' /\ (forall r, 0 <= r < rowNums (mHeader b) -> dir b' r = dir b r) /\
  rdn (mData b') (cell_addr b row column) 12 = bs /\
  forall r c, 0 <= r < rowNums (mHeader b) -> 0 <= c < columnNums (mHeader b) -> (r, c) <> (row, column) ->
    rdn (mData b') (cell_addr b r c) 12 = rdn (mData b) (cell_addr b r c) 12.
Proof.
  intros Hwf Hr Hc Ho Hl b'.
  destruct (cell_in_dir b row column Hwf Hr Hc Ho) as (H1 & H2 & Hrow & Hcol).
  assert (forall i lo hi, extent b (PGroup i) = Some (lo, hi) ->
    disj lo hi (cell_addr b row column) (cell_addr b row column + Z.of_nat (length bs))) as Hg.
  { intros i lo hi Hi. rewrite Hl. by eapply (cell_out_of_groups b row column i). }
  split; [by apply wf_write_out|]. split.
  { apply kept_write; [done|done|]. intros lo hi (_ & _ & Hf).
    specialize (Hf _ _ _ (extent_dir b row Hrow)). rewrite Hl. unfold disj in *. unfold_sizes. lia. }
  split; [intros r Hr'; by apply dir_write_out|]. split.
  { replace 12%nat with (length bs). apply rdn_wr_same. }
  intros r c Hr' Hc' Hne. apply rdn_wr_out. rewrite Hl.
  destruct (decide (r = row)) as [->|Hrr].
  - unfold disj, cell_addr. unfold_sizes. assert (c <> column) by congruence. lia.
  - pose proof (wf_disj b Hwf (PDir r) (PDir row) _ _ _ _ ltac:(congruence)
      (extent_dir b r Hr') (extent_dir b row Hrow)) as Hd.
    unfold disj, cell_addr in *. unfold_sizes. lia.
Qed.

Lemma repr_cell_write b row column bs v M :
  wf b -> repr b M -> 0 <= row -> 0 <= column -> out_of_range b row column = false ->
  length bs = 12%nat ->
  let b' := set_data b (wr (mData b) (cell_addr b row column) bs) in
  (rdn (mData b') (cell_addr b row column) 12 = bs -> encodes b' (cell_addr b row column) v) ->
  wf b' /\ repr b' (<[(row, column) := v]> M).
Proof.
  intros Hwf HM Hr Hc Ho Hl b' Hv.
  destruct (cell_write b row column bs Hwf Hr Hc Ho Hl) as (Hwf' & Hk & Hd & Hs & Hf).
  destruct (cell_in_dir b row column Hwf Hr Hc Ho) as (_ & _ & Hrow & Hcol).
  split; [done|]. intros r c v'. rewrite lookup_insert_Some. intros [[[= <- <-] <-]|[Hne Hv']].
  - split; [done|]. unfold cell_addr at 1. rewrite Hd by done. by apply Hv.
  - destruct (HM r c v' Hv') as [[Hr' Hc'] He]. split; [done|].
    eapply encodes_kept; [exact Hk| |exact He]. unfold cell_addr at 1. rewrite Hd by done.
    apply Hf; [done|done|congruence].
Qed.

(** Appending data in the unused area. *)
Lemma append_data b bs M :
  wf b -> repr b M -> unusedOffset (mHeader b) + Z.of_nat (length bs) <= mSize b ->
  let b' := set_header (set_data b (wr (mData b) (unusedOffset (mHeader b)) bs))
              (with_unused (mHeader b) (unusedOffset (mHeader b) + Z.of_nat (length bs))) in
  wf b' /\ repr b' M /\ (forall r, 0 <= r < rowNums (mHeader b) -> dir b' r = dir b r) /\
  free_range b' (unusedOffset (mHeader b)) (unusedOffset (mHeader b) + Z.of_nat (length bs)) /\
  rdn (mData b') (unusedOffset (mHeader b)) (length bs) = bs.
Proof.
  intros Hwf HM Hu b'. set (u := unusedOffset (mHeader b)) in *.
  set (b1 := set_data b (wr (mData b) u bs)).
  assert (forall p lo hi y, extent b p = Some (lo, hi) -> disj lo hi u y) as Hout.
  { intros p lo hi y Hp. eapply (fresh_out b p lo hi u y); [done|done|subst u; lia]. }
  assert (wf b1) as Hwf1 by (apply wf_write_out; [done|]; intros; by eapply Hout).
  assert (kept b b1) as Hk1.
  { apply kept_write; [done|intros; by eapply Hout|].
    intros lo hi (_ & Hh & _). unfold disj. subst u. lia. }
  assert (kept b b') as Hk.
  { etransitivity; [exact Hk1|]. apply (kept_raise b1). simpl. subst u. lia. }
  assert (forall r, 0 <= r < rowNums (mHeader b) -> dir b' r = dir b r) as Hd.
  { intros r Hr. apply (dir_write_out b u bs r); [done|done|]. intros; by eapply Hout. }
  pose proof (wf_size b Hwf) as Hsz.
  split; [apply (wf_unused b1); [done|]; simpl; subst u; lia|]. split_and!; try done.
  - intros r c v Hv. destruct (HM r c v Hv) as [[Hr Hc] He]. split; [done|].
    eapply encodes_kept; [exact Hk| |exact He]. unfold cell_addr. rewrite Hd by done.
    apply rdn_wr_out. specialize (Hout _ _ _ (u + Z.of_nat (length bs)) (extent_dir b r Hr)).
    pose proof (wf_in b Hwf _ _ _ (extent_dir b r Hr)). unfold disj. unfold_sizes. subst u. lia.
  - split; [subst u; lia|]. split; [done|]. intros p l h Hp.
    change b' with (set_header b1 (with_unused (mHeader b1) (u + Z.of_nat (length bs)))) in Hp.
    rewrite extent_unused in Hp. subst b1. rewrite extent_write_out in Hp;
      [by eapply Hout|done|intros; by eapply Hout].
  - apply rdn_wr_same.
Qed.

Lemma cell_length ty v : length (long_cell ty v) = 12%nat.
Proof. unfold long_cell. by rewrite length_app, !Bytes.le_split_length. Qed.
Lemma slice_length ty off n : length (slice_cell ty off n) = 12%nat.
Proof. unfold slice_cell. by rewrite !length_app, !Bytes.le_split_length. Qed.

(** *** The put operations *)

Lemma PutBlobOrString_spec b row column bs ty M :
  wf b -> repr b M -> 0 <= row -> 0 <= column -> Z.of_nat (length bs) < 2 ^ 31 ->
  out_of_range b row column = false ->
  let r := PutBlobOrString b row column (Some bs) ty in
  if mSize b <? unusedOffset (mHeader b) + Z.of_nat (length bs)
  then r = (SHARED_BLOCK_NO_MEMORY, b)
  else fst r = SHARED_BLOCK_OK /\ wf (snd r) /\ repr (snd r) (<[(row, column) := CBytes ty bs]> M) /\
       rowNums (mHeader (snd r)) = rowNums (mHeader b) /\
       columnNums (mHeader (snd r)) = columnNums (mHeader b).
Proof.
  intros Hwf HM Hr Hc Hl Ho r. subst r. unfold PutBlobOrString. rewrite Ho.
  pose proof (wf_size b Hwf) as Hsz. cbv zeta.
  assert (Int.u32 (unusedOffset (mHeader b) + Z.of_nat (length bs)) =
    unusedOffset (mHeader b) + Z.of_nat (length bs)) as -> by (apply Int.u32_small; unfold_sizes; lia).
  destruct (Z.ltb_spec (mSize b) (unusedOffset (mHeader b) + Z.of_nat (length bs))) as [|Hle]; [done|].
  replace (_ && _) with false by (unfold SECUREC_MEM_MAX_LEN; lia).
  destruct (append_data b bs M Hwf HM Hle) as (Hwf' & HM' & Hd & Hf & Hbs).
  set (b' := set_header _ _) in *.
  destruct (cell_in_dir b row column Hwf Hr Hc Ho) as (_ & _ & Hrow & Hcol).
  assert (cell_addr b' row column = cell_addr b row column) as Ha
    by (unfold cell_addr; by rewrite Hd).
  assert (out_of_range b' row column = false) as Ho' by done.
  set (cb := slice_cell ty (unusedOffset (mHeader b)) (Z.of_nat (length bs))).
  destruct (cell_write b' row column cb Hwf' Hr Hc Ho' (slice_length _ _ _)) as (_ & Hk & _).
  destruct (repr_cell_write b' row column cb (CBytes ty bs) M) as [Hw2 HM2]; try done.
  - intros Hcb. exists (unusedOffset (mHeader b)).
    split; [by eapply kept_free|]. split; [exact Hcb|]. by rewrite (kept_data _ _ Hk).
  - rewrite Ha in Hw2, HM2. done.
Qed.

Lemma PutFixed_spec b row column bs v M :
  wf b -> repr b M -> 0 <= row -> 0 <= column -> out_of_range b row column = false ->
  length bs = 12%nat ->
  (forall b', rdn (mData b') (cell_addr b row column) 12 = bs -> encodes b' (cell_addr b row column) v) ->
  let b' := set_data b (wr (mData b) (cell_addr b row column) bs) in
  wf b' /\ repr b' (<[(row, column) := v]> M).
Proof. intros Hwf HM Hr Hc Ho Hl Hv. apply repr_cell_write; auto. Qed.

(** *** Allocating a row *)

(** The group directory of group [g], allocated when it does not exist yet. *)
Definition ensure_group (b : SharedBlock) (g : Z) : SharedBlock :=
  if grp b g =? 0 then
    let '(off, b') := Alloc b sizeof_group in
    set_header b' (with_groups (mHeader b') (<[Z.to_nat g := off]> (groupOffset (mHeader b'))))
  else b.

(** Placing a new group directory in the unused area. *)
Lemma add_group b g off M :
  wf b -> repr b M -> 0 <= g < GROUP_NUM -> grp b g = 0 -> off <> 0 ->
  unusedOffset (mHeader b) <= off -> off + sizeof_group <= mSize b ->
  let h := with_unused (mHeader b) (off + sizeof_group) in
  let b' := set_header b (with_groups h (<[Z.to_nat g := off]> (groupOffset (mHeader b)))) in
  wf b' /\ repr b' M.
Proof.
  intros Hwf HM Hg Hg0 Hoff Hlo Hhi h b'.
  pose proof (wf_groups b Hwf) as Hlen. pose proof (wf_size b Hwf) as Hsz.
  assert (forall i, 0 <= i < GROUP_NUM -> grp b' i = if decide (i = g) then off else grp b i) as Hgrp.
  { intros i Hi. unfold grp, b'. simpl. unfold_sizes. rewrite !nth_lookup. destruct (decide (i = g)) as [->|Hne].
    - by rewrite list_lookup_insert_eq by lia.
    - by rewrite list_lookup_insert_ne by lia. }
  assert (forall r, 0 <= r < rowNums (mHeader b) -> dir b' r = dir b r) as Hd.
  { intros r Hr. unfold dir. change (mData b') with (mData b).
    rewrite Hgrp by (eapply group_index_bounds; [exact Hr|apply (wf_rows b Hwf)]).
    rewrite decide_False; [done|]. intros E. by apply (wf_grp b Hwf r Hr); rewrite E. }
  assert (forall p lo hi, extent b' p = Some (lo, hi) ->
    (p <> PGroup g /\ extent b p = Some (lo, hi)) \/ (p = PGroup g /\ lo = off /\ hi = off + sizeof_group)) as He.
  { intros [i|r] lo hi Hp.
    - apply extent_group_inv in Hp as (Hi & Hn & -> & ->). rewrite Hgrp in * by done.
      destruct (decide (i = g)) as [->|Hne]; [by right|]. left. split; [congruence|]. by apply extent_group.
    - apply extent_dir_inv in Hp as (Hr & -> & ->). left. split; [done|].
      rewrite Hd by done. exact (extent_dir b r Hr). }
  assert (kept b b') as Hk.
  { split; simpl; [unfold_sizes; lia| |done]. intros p lo hi Hp. destruct (He _ _ _ Hp) as [[_ H]|(_ & -> & _)]; auto. }
  split.
  - destruct Hwf as [_ _ Hr Hc Hgr Hin Hdj]. constructor; try done; simpl.
    + unfold_sizes; lia.
    + by rewrite length_insert.
    + intros r Hr'. rewrite Hgrp by (by eapply group_index_bounds; [exact Hr'|apply Hr]).
      destruct (decide _); [done|by apply Hgr].
    + intros p lo hi Hp. destruct (He _ _ _ Hp) as [[_ Hp']|(_ & -> & ->)].
      * apply Hin in Hp'. unfold_sizes; lia.
      * unfold_sizes; lia.
    + intros p q lo1 hi1 lo2 hi2 Hpq Hp Hq.
      destruct (He _ _ _ Hp) as [[_ Hp']|(-> & -> & ->)], (He _ _ _ Hq) as [[_ Hq']|(-> & -> & ->)]; [by eapply (Hdj p q)| | |done].
      * apply Hin in Hp'. unfold disj; lia.
      * apply Hin in Hq'. unfold disj; lia.
  - intros r c v Hv. destruct (HM r c v Hv) as [[Hr Hc] Hen]. split; [done|].
    eapply encodes_kept; [exact Hk| |exact Hen]. unfold cell_addr. by rewrite Hd.
Qed.

Lemma ensure_group_spec b g M :
  wf b -> repr b M -> 0 <= g < GROUP_NUM ->
  let b' := ensure_group b g in
  wf b' /\ repr b' M /\ rowNums (mHeader b') = rowNums (mHeader b) /\
  columnNums (mHeader b') = columnNums (mHeader b).
Proof.
  intros Hwf HM Hg b'. subst b'. unfold ensure_group.
  destruct (Z.eqb_spec (grp b g) 0) as [H0|]; [|done].
  destruct (Alloc b sizeof_group) as [off b1] eqn:E.
  destruct (wf_size b Hwf) as [Hs1 Hs2].
  destruct (Alloc_spec b sizeof_group off b1 Hs1 Hs2 ltac:(unfold_sizes; lia) E)
    as [[-> ->]|(H1 & H2 & _ & H4 & ->)].
  - assert (<[Z.to_nat g := 0]> (groupOffset (mHeader b)) = groupOffset (mHeader b)) as Hid.
    { apply list_insert_id. pose proof (wf_groups b Hwf). unfold grp in H0. rewrite nth_lookup in H0.
      destruct (lookup_lt_is_Some_2 (groupOffset (mHeader b)) (Z.to_nat g)) as [x Hx]; [unfold_sizes; lia|].
      rewrite Hx in *. simpl in H0. by subst. }
    rewrite Hid. by destruct b as [? ? [] ?].
  - by destruct (add_group b g off M Hwf HM Hg H0 H4 H1 H2).
Qed.

(** Placing the field directory of a new row. *)
Lemma add_row b off M :
  wf b -> repr b M -> rowNums (mHeader b) < GROUP_NUM * ROW_NUM_IN_A_GROUP ->
  grp b (rowNums (mHeader b) / ROW_NUM_IN_A_GROUP) <> 0 ->
  unusedOffset (mHeader b) <= off -> off + columnNums (mHeader b) * sizeof_cell <= mSize b ->
  let n := rowNums (mHeader b) in
  let slot := grp b (n / ROW_NUM_IN_A_GROUP) + 4 * (n mod ROW_NUM_IN_A_GROUP) in
  let h := with_unused (with_rows (mHeader b) (n + 1)) (off + columnNums (mHeader b) * sizeof_cell) in
  let b' := set_data (set_header b h) (wr32 (mData b) slot off) in
  wf b' /\ repr b' M.
Proof.
  intros Hwf HM Hn Hg Hlo Hhi n slot h b'.
  pose proof (wf_size b Hwf) as Hsz. pose proof (wf_rows b Hwf) as Hrows. pose proof (wf_cols b Hwf) as Hcols.
  assert (0 <= n / ROW_NUM_IN_A_GROUP < GROUP_NUM) as Hgi by (eapply (group_index_bounds n (n + 1)); subst n; lia).
  pose proof (extent_group b _ Hgi Hg) as Hext. pose proof (slot_bounds n) as Hsb.
  assert (forall i, grp b' i = grp b i) as Hgrp by done.
  assert (dir b' n = off) as Hdn by (apply (rd32_wr32 (mData b) slot off); unfold_sizes; lia).
  assert (forall r, 0 <= r < n -> dir b' r = dir b r) as Hd.
  { intros r Hr. unfold dir. rewrite Hgrp. apply rd32_wr_out. rewrite Bytes.le_split_length.
    fold n slot. pose proof (slot_bounds r) as Hsr.
    destruct (decide (r / ROW_NUM_IN_A_GROUP = n / ROW_NUM_IN_A_GROUP)) as [E|E].
    - assert (r mod ROW_NUM_IN_A_GROUP <> n mod ROW_NUM_IN_A_GROUP)
        by (unfold_sizes; Z.to_euclidean_division_equations; lia).
      unfold disj, slot. rewrite E. lia.
    - pose proof (wf_disj b Hwf (PGroup (r / ROW_NUM_IN_A_GROUP)) (PGroup (n / ROW_NUM_IN_A_GROUP)) _ _ _ _ ltac:(congruence)
        (slot_in_group b r Hwf Hr) Hext) as Hdj.
      unfold disj, slot in *. unfold_sizes. lia. }
  assert (forall p lo hi, extent b' p = Some (lo, hi) ->
    extent b p = Some (lo, hi) \/ (p = PDir n /\ lo = off /\ hi = off + columnNums (mHeader b) * sizeof_cell)) as He.
  { intros [i|r] lo hi Hp; [by left|]. apply extent_dir_inv in Hp as (Hr & -> & ->).
    change (0 <= r < n + 1) in Hr. destruct (decide (r = n)) as [->|Hne].
    - right. rewrite Hdn. split_and!; try done. simpl. lia.
    - left. rewrite Hd by lia. exact (extent_dir b r ltac:(subst n; lia)). }
  assert (kept b b') as Hk.
  { split; [simpl; unfold_sizes; lia| |].
    - intros p lo hi Hp. destruct (He _ _ _ Hp) as [?|(_ & -> & _)]; auto.
    - intros lo k (_ & _ & Hf). apply rdn_wr_out. rewrite Bytes.le_split_length.
      specialize (Hf _ _ _ Hext). unfold disj, slot in *. unfold_sizes. lia. }
  split.
  - destruct Hwf as [_ Hgl _ _ Hgr Hin Hdj]. constructor; try done; simpl.
    + unfold_sizes; lia.
    + subst n; lia.
    + intros r Hr. rewrite Hgrp. destruct (decide (r = n)) as [->|]; [done|]. apply Hgr. subst n; lia.
    + intros p lo hi Hp. destruct (He _ _ _ Hp) as [Hp'|(_ & -> & ->)]; [apply Hin in Hp'|]; unfold_sizes; lia.
    + intros p q lo1 hi1 lo2 hi2 Hpq Hp Hq.
      destruct (He _ _ _ Hp) as [Hp'|(-> & -> & ->)], (He _ _ _ Hq) as [Hq'|(-> & -> & ->)]; [by eapply (Hdj p q)| | |done].
      * apply Hin in Hp'. unfold disj; lia.
      * apply Hin in Hq'. unfold disj; lia.
  - intros r c v Hv. destruct (HM r c v Hv) as [[Hr Hc] Hen]. split; [simpl; subst n; lia|].
    eapply encodes_kept; [exact Hk| |exact Hen]. unfold cell_addr. rewrite Hd by done.
    apply rdn_wr_out. rewrite Bytes.le_split_length.
    pose proof (wf_disj b Hwf (PDir r) (PGroup (n / ROW_NUM_IN_A_GROUP)) _ _ _ _ ltac:(done) (extent_dir b r Hr) Hext) as Hdj.
    unfold disj, slot in *. unfold_sizes. lia.
Qed.

Lemma AllocRow_spec b M :
  wf b -> repr b M ->
  let r := AllocRow b in
  wf (snd r) /\ repr (snd r) M /\ columnNums (mHeader (snd r)) = columnNums (mHeader b) /\
  ((fst r = SHARED_BLOCK_OK /\ rowNums (mHeader b) < GROUP_NUM * ROW_NUM_IN_A_GROUP /\
    rowNums (mHeader (snd r)) = rowNums (mHeader b) + 1) \/
   (fst r = SHARED_BLOCK_NO_MEMORY /\ rowNums (mHeader (snd r)) = rowNums (mHeader b))).
Proof.
  intros Hwf HM r. subst r. unfold AllocRow, AllocRowOffset.
  set (n := rowNums (mHeader b)). set (g := n / ROW_NUM_IN_A_GROUP).
  pose proof (wf_rows b Hwf) as Hrows. fold n in Hrows.
  destruct (Z.leb_spec GROUP_NUM g) as [|Hg]; [split_and!; auto|].
  assert (0 <= g) by (subst g; apply Z.div_pos; unfold_sizes; lia).
  assert (n < GROUP_NUM * ROW_NUM_IN_A_GROUP) as Hn by (subst g; unfold_sizes; Z.to_euclidean_division_equations; lia).
  fold (ensure_group b g).
  destruct (ensure_group_spec b g M Hwf HM ltac:(lia)) as (Hwf1 & HM1 & Hr1 & Hc1).
  set (b1 := ensure_group b g) in *. fold n in Hr1. rewrite Hr1.
  destruct (Z.eqb_spec (grp b1 g) 0) as [|Hg1]; [split_and!; auto|].
  pose proof (wf_size b1 Hwf1) as [Hsz1 Hsz2]. pose proof (wf_cols b1 Hwf1) as Hcols.
  pose proof (wf_in b1 Hwf1 _ _ _ (extent_group b1 g ltac:(lia) Hg1)) as Hge.
  unfold OffsetToPtr. rewrite Int.u32_small by (unfold_sizes; lia).
  destruct (Z.ltb_spec (mSize b1) (grp b1 g + 0)) as [Hlt|_]; [unfold_sizes; lia|].
  rewrite (Int.u32_small (n + 1)) by (unfold_sizes; lia).
  set (b2 := set_header b1 (with_rows (mHeader b1) (n + 1))).
  destruct (Alloc b2 (columnNums (mHeader b2) * sizeof_cell)) as [off b3] eqn:E.
  assert (0 <= columnNums (mHeader b2) * sizeof_cell < 2 ^ 30) as Hcs by (simpl; unfold_sizes; lia).
  destruct (Alloc_spec b2 (columnNums (mHeader b2) * sizeof_cell) off b3 Hsz1 Hsz2 Hcs E)
    as [[-> ->]|(H1 & H2 & _ & H4 & ->)].
  - change (0 =? 0) with true. cbn [fst snd]. simpl rowNums.
    replace (n + 1 - 1) with n by lia. rewrite (Int.u32_small n) by (unfold_sizes; lia).
    assert (set_header b2 (with_rows (mHeader b2) n) = b1) as ->.
    { subst b2 n. destruct b1 as [? ? [] ?]. simpl in *. by subst. }
    split_and!; auto.
  - destruct (Z.eqb_spec off 0) as [|_]; [done|]. cbn [fst snd].
    pose proof (add_row b1 off M Hwf1 HM1) as HR. cbv zeta in HR. rewrite Hr1 in HR.
    destruct (HR Hn Hg1 H1 H2) as [HA HB].
    split_and!; [exact HA|exact HB|done|left; split_and!; try done; lia].
Qed.

(** *** The other operations *)

Lemma Clear_wf b :
  sizeof_header + sizeof_group <= mSize b < 2 ^ 31 ->
  let b' := set_header b cleared_header in wf b' /\ repr b' ∅.
Proof.
  intros Hm b'. split; [|by intros r c v Hv].
  assert (forall i, 0 < i < 128 -> grp b' i = 0) as Hg.
  { intros i Hi. unfold grp. cbn [mHeader b' set_header groupOffset cleared_header].
    replace (Z.to_nat i) with (S (Z.to_nat (i - 1))) by lia. cbn [nth].
    rewrite nth_lookup. destruct (replicate 127 0 !! Z.to_nat (i - 1)) as [x|] eqn:E; [|done].
    by apply lookup_replicate in E as [-> _]. }
  assert (forall p lo hi, extent b' p = Some (lo, hi) ->
    p = PGroup 0 /\ lo = sizeof_header /\ hi = sizeof_header + sizeof_group) as He.
  { intros [i|r] lo hi Hp.
    - apply extent_group_inv in Hp as (Hi & Hn & -> & ->).
      destruct (decide (i = 0)) as [->|]; [done|]. destruct Hn. apply Hg. unfold_sizes. lia.
    - apply extent_dir_inv in Hp as (Hr & _). simpl in Hr. lia. }
  constructor; simpl; try (unfold_sizes; done || lia).
  - intros p lo hi Hp. apply He in Hp as (-> & -> & ->). unfold_sizes. lia.
  - intros p q lo1 hi1 lo2 hi2 Hne Hp Hq. apply He in Hp as (-> & _). apply He in Hq as (-> & _). done.
Qed.

Lemma SetColumnNum_wf b n M :
  wf b -> repr b M -> 0 <= n <= COL_MAX_NUM ->
  (columnNums (mHeader b) = n \/ (columnNums (mHeader b) = 0 /\ rowNums (mHeader b) = 0)) ->
  let b' := set_header b (with_columns (mHeader b) n) in wf b' /\ repr b' M.
Proof.
  intros Hwf HM Hn [<-|[Hc Hr]] b'.
  { subst b'. by destruct b as [? ? [] ?]. }
  assert (forall p lo hi, extent b' p = Some (lo, hi) -> extent b p = Some (lo, hi)) as He.
  { intros [i|r] lo hi Hp; [done|]. apply extent_dir_inv in Hp as (H & _). simpl in H. lia. }
  split.
  - destruct Hwf as [Hs Hg Hrows Hcols Hgr Hin Hd]. constructor; simpl; try done.
    + intros p lo hi Hp. by eapply Hin, He.
    + intros p q lo1 hi1 lo2 hi2 Hne Hp Hq. eapply (Hd p q); eauto.
  - intros r c v Hv. destruct (HM r c v Hv) as [[H _] _]. lia.
Qed.

Lemma kept_fewer_rows b r :
  r <= rowNums (mHeader b) -> kept b (set_header b (with_rows (mHeader b) r)).
Proof.
  intros Hr. split; simpl; [lia| |done]. intros p lo hi Hp. left. by eapply extent_fewer_rows.
Qed.

Lemma FreeLastRow_wf b M :
  wf b -> repr b M -> 0 < rowNums (mHeader b) ->
  let n := rowNums (mHeader b) - 1 in
  let b' := set_header b (with_rows (mHeader b) n) in
  wf b' /\ repr b' (filter (fun kv => fst (fst kv) < n) M).
Proof.
  intros Hwf HM Hn n b'. split; [apply wf_fewer_rows; [done|lia]|].
  intros r c v Hv. apply map_lookup_filter_Some in Hv as [Hv Hr]. simpl in Hr.
  destruct (HM r c v Hv) as [[Hr' Hc] He]. split; [simpl; lia|].
  eapply encodes_kept; [apply kept_fewer_rows; lia| |exact He]. done.
Qed.

End BlockInv.

(** ** The specification of the block, and the simulation *)

Module BlockSpec.
Import Block BlockInv.

(** What a block promises: a table of cells with a number of rows and of columns. *)
Record table := mkTable { t_rows : Z; t_cols : Z; t_cells : gmap (Z * Z) cell }.

Definition empty_table : table := mkTable 0 0 ∅.

Inductive bop :=
| OClear
| OSetColumnNum (n : Z)
| OAllocRow
| OFreeLastRow
| OPutBytes (ty row column : Z) (value : option (list Z))
| OPutLong (row column v : Z)
| OPutDouble (row column bits : Z)
| OPutNull (row column : Z).

(** The operations as the block performs them. *)
Definition run (o : bop) (b : SharedBlock) : status * SharedBlock :=
  match o with
  | OClear => Clear b
  | OSetColumnNum n => SetColumnNum b n
  | OAllocRow => AllocRow b
  | OFreeLastRow => FreeLastRow b
  | OPutBytes ty r c v => PutBlobOrString b r c v ty
  | OPutLong r c v => PutLong b r c v
  | OPutDouble r c v => PutDouble b r c v
  | OPutNull r c => PutNull b r c
  end.

(** The arguments are unsigned, and a value fits the bounds-checked copy. *)
Definition op_ok (o : bop) : Prop :=
  match o with
  | OClear | OAllocRow | OFreeLastRow => True
  | OSetColumnNum n => 0 <= n
  | OPutBytes _ r c v => 0 <= r /\ 0 <= c /\ match v with None => True | Some bs => Z.of_nat (length bs) < 2 ^ 31 end
  | OPutLong r c _ | OPutDouble r c _ | OPutNull r c => 0 <= r /\ 0 <= c
  end.

Definition in_table (t : table) (r c : Z) : Prop := r < t_rows t /\ c < t_cols t.

Definition put (t : table) (r c : Z) (v : cell) : table :=
  mkTable (t_rows t) (t_cols t) (<[(r, c) := v]> (t_cells t)).

(** The steps of a writable table: what each operation may answer, and its effect.  Running
    out of memory is the only choice left to the implementation. *)
Inductive spec_step : bop -> table -> status -> table -> Prop :=
| st_clear t : spec_step OClear t SHARED_BLOCK_OK empty_table
| st_columns t n :
    (t_cols t = n \/ (t_cols t = 0 /\ t_rows t = 0)) -> n <= COL_MAX_NUM ->
    spec_step (OSetColumnNum n) t SHARED_BLOCK_OK (mkTable (t_rows t) n (t_cells t))
| st_columns_bad t n :
    ((t_cols t <> n /\ (t_cols t <> 0 \/ t_rows t <> 0)) \/ COL_MAX_NUM < n) ->
    spec_step (OSetColumnNum n) t SHARED_BLOCK_INVALID_OPERATION t
| st_row t :
    t_rows t < GROUP_NUM * ROW_NUM_IN_A_GROUP ->
    spec_step OAllocRow t SHARED_BLOCK_OK (mkTable (t_rows t + 1) (t_cols t) (t_cells t))
| st_row_full t : spec_step OAllocRow t SHARED_BLOCK_NO_MEMORY t
| st_free t :
    0 < t_rows t ->
    spec_step OFreeLastRow t SHARED_BLOCK_OK
      (mkTable (t_rows t - 1) (t_cols t) (filter (fun kv => fst (fst kv) < t_rows t - 1) (t_cells t)))
| st_free_none t : t_rows t = 0 -> spec_step OFreeLastRow t SHARED_BLOCK_OK t
| st_bytes t ty r c bs :
    in_table t r c -> spec_step (OPutBytes ty r c (Some bs)) t SHARED_BLOCK_OK (put t r c (CBytes ty bs))
| st_bytes_full t ty r c bs :
    in_table t r c -> spec_step (OPutBytes ty r c (Some bs)) t SHARED_BLOCK_NO_MEMORY t
| st_bytes_bad t ty r c v :
    v = None \/ ~ in_table t r c -> spec_step (OPutBytes ty r c v) t SHARED_BLOCK_BAD_VALUE t
| st_long t r c v : in_table t r c -> spec_step (OPutLong r c v) t SHARED_BLOCK_OK (put t r c (CLong v))
| st_long_bad t r c v : ~ in_table t r c -> spec_step (OPutLong r c v) t SHARED_BLOCK_BAD_VALUE t
| st_double t r c v : in_table t r c -> spec_step (OPutDouble r c v) t SHARED_BLOCK_OK (put t r c (CDouble v))
| st_double_bad t r c v : ~ in_table t r c -> spec_step (OPutDouble r c v) t SHARED_BLOCK_BAD_VALUE t
| st_null t r c : in_table t r c -> spec_step (OPutNull r c) t SHARED_BLOCK_OK (put t r c CNull)
| st_null_bad t r c : ~ in_table t r c -> spec_step (OPutNull r c) t SHARED_BLOCK_BAD_VALUE t.

Create HintDb block discriminated.
#[export] Hint Constructors spec_step : block.

Record abstracts (b : SharedBlock) (t : table) : Prop := {
  abs_wf : wf b;
  abs_writable : mReadOnly b = false;
  abs_rows : rowNums (mHeader b) = t_rows t;
  abs_cols : columnNums (mHeader b) = t_cols t;
  abs_repr : repr b (t_cells t) }.

Lemma in_table_iff b t r c :
  abstracts b t -> (out_of_range b r c = false <-> in_table t r c).
Proof. intros [_ _ Hr Hc _]. unfold out_of_range, in_table. lia. Qed.

Lemma out_of_range_not b t r c :
  abstracts b t -> out_of_range b r c = true -> ~ in_table t r c.
Proof. intros [_ _ Hr Hc _]. unfold out_of_range, in_table. lia. Qed.

Lemma Alloc_const b n :
  mReadOnly (snd (Alloc b n)) = mReadOnly b /\ mSize (snd (Alloc b n)) = mSize b /\
  mData (snd (Alloc b n)) = mData b.
Proof. unfold Alloc. by destruct (_ <? _). Qed.

Lemma ensure_group_const b g :
  mReadOnly (ensure_group b g) = mReadOnly b /\ mSize (ensure_group b g) = mSize b /\
  mData (ensure_group b g) = mData b.
Proof.
  unfold ensure_group. destruct (_ =? _); [|done]. pose proof (Alloc_const b sizeof_group).
  by destruct (Alloc b sizeof_group).
Qed.

Lemma AllocRow_const b :
  mReadOnly (snd (AllocRow b)) = mReadOnly b /\ mSize (snd (AllocRow b)) = mSize b.
Proof.
  unfold AllocRow, AllocRowOffset. destruct (_ <=? _); [done|].
  fold (ensure_group b (rowNums (mHeader b) / ROW_NUM_IN_A_GROUP)).
  pose proof (ensure_group_const b (rowNums (mHeader b) / ROW_NUM_IN_A_GROUP)) as (He1 & He2 & _).
  set (b1 := ensure_group _ _) in *. destruct (_ =? 0); [done|].
  destruct (OffsetToPtr _ _ _); [|done]. set (b2 := set_header _ _).
  pose proof (Alloc_const b2 (columnNums (mHeader b2) * sizeof_cell)) as (Ha1 & Ha2 & _).
  destruct (Alloc b2 _) as [off b3]. simpl in Ha1, Ha2. destruct (off =? 0); simpl; split; congruence.
Qed.

Lemma fixed_step b t row column bs v :
  abstracts b t -> 0 <= row -> 0 <= column -> out_of_range b row column = false ->
  length bs = 12%nat ->
  (forall b', rdn (mData b') (cell_addr b row column) 12 = bs -> encodes b' (cell_addr b row column) v) ->
  abstracts (set_data b (wr (mData b) (cell_addr b row column) bs)) (put t row column v).
Proof.
  intros Hab Hr Hc Ho Hl Hv. destruct Hab as [Hwf Hw Hrow Hcol HM].
  by destruct (PutFixed_spec b row column bs v (t_cells t) Hwf HM Hr Hc Ho Hl Hv).
Qed.

Lemma sim_put_bytes b t ty r c v :
  abstracts b t -> op_ok (OPutBytes ty r c v) ->
  exists t', spec_step (OPutBytes ty r c v) t (fst (PutBlobOrString b r c v ty)) t' /\
             abstracts (snd (PutBlobOrString b r c v ty)) t'.
Proof.
  intros Hab (Hr & Hc & Hv). destruct v as [bs|]; [|exists t; eauto with block].
  destruct (out_of_range b r c) eqn:Ho.
  { exists t. unfold PutBlobOrString. rewrite Ho. split; [|done]. constructor. right. by eapply out_of_range_not. }
  apply (in_table_iff b t) in Ho as Hin; [|done].
  pose proof (PutBlobOrString_spec b r c bs ty (t_cells t) (abs_wf _ _ Hab) (abs_repr _ _ Hab) Hr Hc Hv Ho) as H.
  cbv zeta in H. destruct (_ <? _).
  - rewrite H. exists t. eauto with block.
  - assert (mReadOnly (snd (PutBlobOrString b r c (Some bs) ty)) = mReadOnly b) as Hw.
    { unfold PutBlobOrString. rewrite Ho. destruct (_ <? _); [done|]. by destruct (_ && _). }
    destruct H as (Hs & Hwf & HM & Hrow & Hcol). exists (put t r c (CBytes ty bs)).
    rewrite Hs. split; [eauto with block|]. destruct Hab.
    split; [exact Hwf|congruence|by rewrite Hrow|by rewrite Hcol|exact HM].
Qed.

(** Every operation of the block is a step of the table. *)
Lemma simulates o b t :
  abstracts b t -> op_ok o ->
  exists t', spec_step o t (fst (run o b)) t' /\ abstracts (snd (run o b)) t'.
Proof.
  intros Hab Hok. destruct o as [|n| | |ty r c v|r c v|r c v|r c]; simpl run.
  - exists empty_table. unfold Clear. rewrite (abs_writable _ _ Hab). split; [constructor|].
    pose proof (wf_size b (abs_wf _ _ Hab)).
    destruct (Clear_wf b ltac:(lia)) as [H1 H2]. split; try done. apply (abs_writable _ _ Hab).
  - unfold SetColumnNum. rewrite (abs_writable _ _ Hab). destruct Hab as [Hwf Hw Hr Hc HM].
    pose proof (wf_cols b Hwf). pose proof (wf_rows b Hwf).
    destruct (_ && _) eqn:E; [exists t; split; [constructor; simpl in *; lia|done]|].
    destruct (COL_MAX_NUM <? n) eqn:E2; [exists t; split; [constructor; simpl in *; lia|done]|].
    exists (mkTable (t_rows t) n (t_cells t)). simpl in Hok.
    split; [constructor; simpl in *; lia|].
    destruct (SetColumnNum_wf b n (t_cells t) Hwf HM ltac:(lia) ltac:(lia)). by split.
  - destruct (AllocRow_spec b (t_cells t) (abs_wf _ _ Hab) (abs_repr _ _ Hab))
      as (Hwf & HM & Hc & [(Hs & Hn & Hr)|(Hs & Hr)]); rewrite Hs;
      destruct (AllocRow_const b) as [Hw _]; destruct Hab as [? Hw' Hr' Hc' _].
    + exists (mkTable (t_rows t + 1) (t_cols t) (t_cells t)). split; [constructor; lia|].
      split; simpl; congruence || lia || done.
    + exists t. split; [constructor|]. split; congruence || done.
  - unfold FreeLastRow. destruct Hab as [Hwf Hw Hr Hc HM]. pose proof (wf_rows b Hwf).
    destruct (Z.ltb_spec 0 (rowNums (mHeader b))) as [Hp|Hp].
    + destruct (FreeLastRow_wf b (t_cells t) Hwf HM Hp). rewrite Hr in *.
      eexists. split; [constructor; lia|]. by split.
    + exists t. split; [constructor 7; lia|by split].
  - by apply sim_put_bytes.
  - destruct Hok as [Hr Hc]. unfold PutLong. destruct (out_of_range b r c) eqn:Ho.
    + exists t. split; [constructor; by eapply out_of_range_not|done].
    + exists (put t r c (CLong v)). split; [constructor; by eapply in_table_iff|].
      by apply fixed_step.
  - destruct Hok as [Hr Hc]. unfold PutDouble. destruct (out_of_range b r c) eqn:Ho.
    + exists t. split; [constructor; by eapply out_of_range_not|done].
    + exists (put t r c (CDouble v)). split; [constructor; by eapply in_table_iff|].
      by apply fixed_step.
  - destruct Hok as [Hr Hc]. unfold PutNull. destruct (out_of_range b r c) eqn:Ho.
    + exists t. split; [constructor; by eapply out_of_range_not|done].
    + exists (put t r c CNull). split; [constructor; by eapply in_table_iff|].
      by apply fixed_step.
Qed.

(** *** Raw bytes *)

Lemma words_bytes ws rest :
  Forall (fun w => 0 <= w < 2 ^ 32) ws ->
  words (length ws) (concat (map (Bytes.le_split 4) ws) ++ rest) = ws.
Proof.
  induction 1 as [|w ws Hw Hws IH]; [done|]. cbn [length words map concat].
  rewrite <-(app_assoc _ _ rest). rewrite take_app_length', drop_app_length' by done.
  rewrite Bytes.le_join_split_small by lia. by rewrite IH.
Qed.

Lemma header_bytes_length h :
  length (groupOffset h) = 128%nat -> length (header_bytes h) = 536%nat.
Proof.
  intros Hl. unfold header_bytes.
  assert (forall ws, length (concat (map (Bytes.le_split 4) ws)) = (4 * length ws)%nat) as H.
  { induction ws as [|w ws IH]; [done|]. cbn [map concat].
    rewrite length_app, Bytes.le_split_length, IH. simpl. lia. }
  rewrite H. unfold header_words. rewrite length_app, Hl. done.
Qed.

Definition header_u32 (h : SharedBlockHeader) : Prop :=
  length (groupOffset h) = 128%nat /\ Forall (fun w => 0 <= w < 2 ^ 32) (header_words h).

Lemma header_of_bytes h rest : header_u32 h -> header_of (header_bytes h ++ rest) = h.
Proof.
  intros [Hl Hw]. unfold header_of, header_bytes.
  replace 134%nat with (length (header_words h)) by (unfold header_words; by rewrite length_app, Hl).
  rewrite words_bytes by done. by destruct h.
Qed.

(** Two blocks that agree on the part in use. *)
Record same_used (b b' : SharedBlock) : Prop := {
  su_header : mHeader b' = mHeader b;
  su_data : forall lo n, sizeof_header <= lo -> lo + Z.of_nat n <= unusedOffset (mHeader b) ->
    rdn (mData b') lo n = rdn (mData b) lo n }.

Lemma same_used_dir b b' r :
  wf b -> same_used b b' -> 0 <= r < rowNums (mHeader b) -> dir b' r = dir b r.
Proof.
  intros Hwf [Hh Hd] Hr. unfold dir, grp, rd32. rewrite Hh.
  pose proof (slot_in_group b r Hwf Hr) as Hs. pose proof (wf_in b Hwf _ _ _ Hs) as Hi.
  pose proof (slot_bounds r). fold (grp b (r / ROW_NUM_IN_A_GROUP)). rewrite Hd; [done|lia|unfold_sizes; lia].
Qed.

Lemma same_used_extent b b' p : wf b -> same_used b b' -> extent b' p = extent b p.
Proof.
  intros Hwf Hs. pose proof (su_header _ _ Hs) as Hh. destruct p as [i|r]; unfold extent, grp; rewrite Hh; [done|].
  destruct (_ && _) eqn:E; [|done]. rewrite (same_used_dir b b') by (done || lia). done.
Qed.

Lemma same_used_abstracts b b' t :
  abstracts b t -> same_used b b' -> mReadOnly b' = false ->
  unusedOffset (mHeader b) <= mSize b' < 2 ^ 31 -> abstracts b' t.
Proof.
  intros [Hwf Hw Hr Hc HM] Hs Hw' Hm. pose proof (su_header _ _ Hs) as Hh.
  pose proof (fun p => same_used_extent b b' p Hwf Hs) as He.
  split; [|done|by rewrite Hh|by rewrite Hh|].
  - pose proof Hwf as [Hsz Hg Hrows Hcols Hgr Hin Hd].
    constructor; unfold grp; rewrite ?Hh; try done; try lia.
    + intros p lo hi. rewrite He. apply Hin.
    + intros p q lo1 hi1 lo2 hi2. rewrite !He. apply Hd.
  - intros r c v Hv. destruct (HM r c v Hv) as [[Hr' Hc'] Hen]. rewrite Hh. split; [done|].
    assert (kept b b') as Hk.
    { split; [by rewrite Hh|intros p lo hi; rewrite He; by left|].
      intros lo n (H1 & H2 & _). apply (su_data _ _ Hs); unfold_sizes; lia. }
    eapply encodes_kept; [exact Hk| |exact Hen]. unfold cell_addr. rewrite (same_used_dir b b') by done.
    pose proof (wf_in b Hwf _ _ _ (extent_dir b r Hr')). apply (su_data _ _ Hs); unfold_sizes; lia.
Qed.

Lemma rdn_sub m a k n : (k <= n)%nat -> rdn m a k = take k (rdn m a n).
Proof.
  intros Hk. replace n with (k + (n - k))%nat by lia. rewrite rdn_app.
  rewrite take_app_length'; [done|by rewrite rdn_length].
Qed.

Lemma rdn_take_all m a n k : (k <= n)%nat -> length (take k (rdn m a n)) = k.
Proof. intros H. rewrite length_take, rdn_length. lia. Qed.

Lemma raw_bytes_split b :
  wf b -> raw_bytes b (Z.to_nat (unusedOffset (mHeader b))) =
    header_bytes (mHeader b) ++ rdn (mData b) sizeof_header (Z.to_nat (unusedOffset (mHeader b)) - 536).
Proof.
  intros Hwf. pose proof (wf_size b Hwf) as [[Hs _] _]. unfold raw_bytes. apply take_ge.
  rewrite length_app, rdn_length, header_bytes_length by apply (wf_groups b Hwf). unfold_sizes. lia.
Qed.

Lemma wr_rdn_same_used m m' a n lo k :
  a <= lo -> lo + Z.of_nat k <= a + Z.of_nat n -> rdn (wr m' a (rdn m a n)) lo k = rdn m lo k.
Proof.
  intros Hlo Hhi.
  assert (n = (Z.to_nat (lo - a) + (n - Z.to_nat (lo - a)))%nat) as En by lia.
  assert (rdn (wr m' a (rdn m a n)) a n = rdn m a n) as Hall.
  { pose proof (rdn_wr_same m' a (rdn m a n)) as H. by rewrite rdn_length in H. }
  rewrite En in Hall at 2 3. rewrite !rdn_app in Hall. apply app_inj_1 in Hall as [_ Hall];
    [|by rewrite !rdn_length]. replace (a + Z.of_nat (Z.to_nat (lo - a))) with lo in Hall by lia.
  rewrite (rdn_sub _ lo k (n - Z.to_nat (lo - a))) by lia. rewrite Hall. symmetry. apply rdn_sub. lia.
Qed.

(** *** Histories *)

Fixpoint run_all (os : list bop) (b : SharedBlock) : list status * SharedBlock :=
  match os with
  | [] => ([], b)
  | o :: os' =>
      let '(s, b1) := run o b in
      let '(ss, b2) := run_all os' b1 in (s :: ss, b2)
  end.

Inductive spec_run : list bop -> table -> list status -> table -> Prop :=
| run_nil t : spec_run [] t [] t
| run_cons o os s ss t t1 t2 :
    spec_step o t s t1 -> spec_run os t1 ss t2 -> spec_run (o :: os) t (s :: ss) t2.

Lemma run_all_simulates os b t :
  abstracts b t -> Forall op_ok os ->
  exists t', spec_run os t (fst (run_all os b)) t' /\ abstracts (snd (run_all os b)) t'.
Proof.
  intros Hab Hos. revert b t Hab. induction Hos as [|o os Ho Hos IH]; intros b t Hab.
  { exists t. split; [constructor|done]. }
  destruct (simulates o b t Hab Ho) as (t1 & Hs & Hab1). cbn [run_all].
  destruct (run o b) as [s b1]. destruct (IH b1 t1 Hab1) as (t2 & Hr & Hab2).
  destruct (run_all os b1) as [ss b2]. exists t2. split; [|done]. by econstructor.
Qed.

Lemma Create_abstracts size b :
  sizeof_header + sizeof_group <= size < 2 ^ 31 ->
  Create size true true true = (SHARED_BLOCK_OK, Some b) -> abstracts b empty_table.
Proof.
  intros Hs [= <-]. destruct (Clear_wf (mkBlock size false zero_header ∅) Hs) as [H1 H2]. by split.
Qed.

(** What the readers of a cell return, for each kind of cell. *)
Definition reads_as (b : SharedBlock) (a : Z) (v : cell) : Prop :=
  match v with
  | CNull => cell_type b a = CELL_UNIT_TYPE_NULL
  | CLong z => cell_type b a = CELL_UNIT_TYPE_INTEGER /\ cell_long b a = z
  | CDouble w => cell_type b a = CELL_UNIT_TYPE_FLOAT /\ cell_bits b a = w
  | CBytes ty bs => cell_type b a = ty /\ GetBlob b a = Some bs /\ GetString b a = c_str bs
  end.

(** The values of the machine types. *)
Definition cell_ok (v : cell) : Prop :=
  match v with
  | CNull => True
  | CLong z => - 2 ^ 63 <= z < 2 ^ 63
  | CDouble w => 0 <= w < 2 ^ 64
  | CBytes ty _ => - 2 ^ 31 <= ty < 2 ^ 31
  end.

Lemma rdn_parts m a n1 n2 l1 l2 :
  rdn m a (n1 + n2) = l1 ++ l2 -> length l1 = n1 ->
  rdn m a n1 = l1 /\ rdn m (a + Z.of_nat n1) n2 = l2.
Proof. rewrite rdn_app. intros H Hl. apply app_inj_1 in H; [done|]. by rewrite rdn_length. Qed.

Lemma long_cell_reads b a ty v :
  rdn (mData b) a 12 = long_cell ty v -> - 2 ^ 31 <= ty < 2 ^ 31 ->
  cell_type b a = ty /\ cell_bits b a = Int.u64 v.
Proof.
  intros H Hty. apply (rdn_parts _ _ 4 8) in H as [H1 H2]; [|apply Bytes.le_split_length].
  unfold cell_type, cell_bits, rd32. change (Z.of_nat 4) with 4 in H2. rewrite H1, H2.
  rewrite !Bytes.le_join_split_small by (apply Int.u32_range || apply Int.u64_range).
  by rewrite Int.i32_u32.
Qed.

Lemma slice_cell_reads b a ty off n :
  rdn (mData b) a 12 = slice_cell ty off n -> - 2 ^ 31 <= ty < 2 ^ 31 ->
  0 <= off < 2 ^ 32 -> 0 <= n < 2 ^ 32 ->
  cell_type b a = ty /\ cell_offset b a = off /\ cell_size b a = n.
Proof.
  intros H Hty Hoff Hn. apply (rdn_parts _ _ 4 8) in H as [H1 H2]; [|apply Bytes.le_split_length].
  apply (rdn_parts _ _ 4 4) in H2 as [H2 H3]; [|apply Bytes.le_split_length].
  unfold cell_type, cell_offset, cell_size, rd32. change (Z.of_nat 4) with 4 in H2, H3.
  replace (a + 4 + 4) with (a + 8) in H3 by lia. rewrite H1, H2, H3.
  rewrite !Bytes.le_join_split_small by apply Int.u32_range.
  by rewrite Int.i32_u32, !Int.u32_small.
Qed.

Lemma encodes_reads b a v : wf b -> cell_ok v -> encodes b a v -> reads_as b a v.
Proof.
  intros Hwf Hok He. pose proof (wf_size b Hwf) as Hs. destruct v as [|z|w|ty bs]; simpl in Hok; unfold encodes in He.
  - by destruct (slice_cell_reads b a _ _ _ He).
  - destruct (long_cell_reads b a _ _ He) as [H1 H2]; [done|]. split; [done|].
    unfold cell_long. fold (cell_bits b a). rewrite H2. by apply Int.i64_u64.
  - destruct (long_cell_reads b a _ _ He) as [H1 H2]; [done|]. split; [done|]. rewrite H2. by apply Int.u64_small.
  - destruct He as (off & (Hf1 & Hf2 & _) & He & Hd).
    destruct (slice_cell_reads b a _ _ _ He) as (H1 & H2 & H3); [done|unfold_sizes; lia..|].
    assert (OffsetToPtr b (cell_offset b a) (cell_size b a) = Some off) as Hp.
    { unfold OffsetToPtr. rewrite H2, H3, Int.u32_small by (unfold_sizes; lia).
      by destruct (Z.ltb_spec (mSize b) (off + Z.of_nat (length bs))); [lia|]. }
    split; [done|]. unfold GetBlob, GetString. rewrite Hp, H3, Nat2Z.id, Hd. split; [done|].
    by destruct (Z.ltb_spec (Z.of_nat (length bs)) 1); [destruct bs; simpl in *; [|lia]|].
Qed.

(** *** Where the operations write *)

Lemma rd_wr_change m a bs x : rd (wr m a bs) x <> rd m x -> a <= x < a + Z.of_nat (length bs).
Proof.
  intros H. destruct (decide (a <= x < a + Z.of_nat (length bs))) as [|Hn]; [done|].
  destruct H. apply rd_wr_out. lia.
Qed.

(** A write has the same effect at [x] on memories that agree at [x]. *)
Lemma rd_wr_local m m' a bs x : rd m x = rd m' x -> rd (wr m a bs) x = rd (wr m' a bs) x.
Proof.
  revert m m' a. induction bs as [|b bs IH]; intros m m' a H; [done|]. cbn [wr]. apply IH.
  unfold rd in *. destruct (decide (a = x)) as [->|]; by rewrite ?lookup_insert_eq, ?lookup_insert_ne.
Qed.

Lemma cell_write_in b t r c bs x :
  abstracts b t -> 0 <= r -> 0 <= c -> out_of_range b r c = false -> length bs = 12%nat ->
  rd (wr (mData b) (cell_addr b r c) bs) x <> rd (mData b) x -> sizeof_header <= x < mSize b.
Proof.
  intros Hab Hr Hc Ho Hl H. apply rd_wr_change in H. pose proof (abs_wf _ _ Hab) as Hwf.
  destruct (cell_in_dir b r c Hwf Hr Hc Ho) as (H1 & H2 & Hrow & _).
  pose proof (wf_in b Hwf _ _ _ (extent_dir b r Hrow)). pose proof (wf_size b Hwf). unfold_sizes. lia.
Qed.

Lemma AllocRow_writes b t x :
  abstracts b t -> rd (mData (snd (AllocRow b))) x <> rd (mData b) x -> sizeof_header <= x < mSize b.
Proof.
  intros Hab. pose proof (abs_wf _ _ Hab) as Hwf. unfold AllocRow, AllocRowOffset.
  set (g := rowNums (mHeader b) / ROW_NUM_IN_A_GROUP). pose proof (wf_rows b Hwf) as Hrows.
  destruct (Z.leb_spec GROUP_NUM g) as [|Hg]; [done|].
  assert (0 <= g) by (subst g; apply Z.div_pos; unfold_sizes; lia). fold (ensure_group b g).
  destruct (ensure_group_spec b g _ Hwf (abs_repr _ _ Hab) ltac:(lia)) as (Hwf1 & _ & Hr1 & _).
  destruct (ensure_group_const b g) as (_ & Hsz & Hdt). set (b1 := ensure_group b g) in *.
  destruct (Z.eqb_spec (grp b1 g) 0) as [|Hg1]; [by cbn [snd]; rewrite Hdt|].
  pose proof (wf_in b1 Hwf1 _ _ _ (extent_group b1 g ltac:(lia) Hg1)) as Hge.
  pose proof (wf_size b1 Hwf1) as Hs1. pose proof (slot_bounds (rowNums (mHeader b1))) as Hsl.
  unfold OffsetToPtr. destruct (_ <? _); [by simpl; rewrite Hdt|].
  set (b2 := set_header _ _).
  pose proof (Alloc_const b2 (columnNums (mHeader b2) * sizeof_cell)) as (_ & _ & Ha).
  destruct (Alloc b2 _) as [off b3]. cbn [snd] in Ha. destruct (off =? 0).
  - cbn [snd set_header mData]. rewrite Ha. change (mData b2) with (mData b1). by rewrite Hdt.
  - cbn [snd set_data mData]. rewrite Ha. change (mData b2) with (mData b1). rewrite Hdt. intros H'%rd_wr_change.
    rewrite Bytes.le_split_length in H'. unfold_sizes. lia.
Qed.

Lemma run_writes o b t x :
  abstracts b t -> op_ok o -> rd (mData (snd (run o b))) x <> rd (mData b) x ->
  sizeof_header <= x < mSize b.
Proof.
  intros Hab Hok. pose proof (abs_wf _ _ Hab) as Hwf. pose proof (wf_size b Hwf) as Hs.
  destruct o as [|n| | |ty r c v|r c v|r c v|r c]; simpl run.
  - unfold Clear. by destruct (mReadOnly b).
  - unfold SetColumnNum. destruct (mReadOnly b); [done|]. destruct (_ && _); [done|]. by destruct (_ <? _).
  - by apply (AllocRow_writes b t).
  - unfold FreeLastRow. by destruct (_ <? _).
  - destruct Hok as (Hr & Hc & Hv). destruct v as [bs|]; [|done]. unfold PutBlobOrString.
    destruct (out_of_range b r c) eqn:Ho; [done|]. cbv zeta.
    rewrite Int.u32_small by (unfold_sizes; lia).
    destruct (Z.ltb_spec (mSize b) (unusedOffset (mHeader b) + Z.of_nat (length bs))); [done|].
    destruct (_ && _); [done|]. cbn [snd set_data mData set_header]. intros H'.
    destruct (decide (rd (wr (mData b) (unusedOffset (mHeader b)) bs) x = rd (mData b) x)) as [E|E].
    + apply (cell_write_in b t r c _ x Hab Hr Hc Ho (slice_length ty (unusedOffset (mHeader b)) (Z.of_nat (length bs)))).
      intros E2. apply H'. rewrite <-E2. by apply rd_wr_local.
    + apply rd_wr_change in E. unfold_sizes. lia.
  - unfold PutLong. destruct Hok. destruct (out_of_range b r c) eqn:Ho; [done|].
    by apply (cell_write_in b t).
  - unfold PutDouble. destruct Hok. destruct (out_of_range b r c) eqn:Ho; [done|].
    by apply (cell_write_in b t).
  - unfold PutNull. destruct Hok. destruct (out_of_range b r c) eqn:Ho; [done|].
    by apply (cell_write_in b t).
Qed.

End BlockSpec.

(** ** Properties *)

Module BlockProps.
Import Block BlockInv BlockSpec.

(** C1: from creation on, whatever operations are called and in whatever order,
    the block answers as the table specification allows (out-of-range writes are refused, a
    write changes one cell, running out of memory changes nothing the reader sees) and stands
    for the resulting table. *)
Theorem block_refines_table (size : Z) (os : list bop) (b : SharedBlock)
  (Hsize : sizeof_header + sizeof_group <= size < 2 ^ 31)
  (Hcreate : Create size true true true = (SHARED_BLOCK_OK, Some b))
  (Hos : Forall op_ok os) :
  exists t, spec_run os empty_table (fst (run_all os b)) t /\ abstracts (snd (run_all os b)) t.
Proof. apply run_all_simulates; [by eapply Create_abstracts|done]. Qed.

Definition demo_ops : list bop :=
  [OSetColumnNum 2; OAllocRow; OPutLong 0 0 (-7); OPutBytes CELL_UNIT_TYPE_BLOB 0 1 (Some [1; 2; 3]);
   OAllocRow; OPutLong 2 0 1; OPutNull 1 0; OFreeLastRow].

Lemma block_refines_table_witness :
  exists t, spec_run demo_ops empty_table
      (fst (run_all demo_ops (set_header (mkBlock 2048 false zero_header ∅) cleared_header))) t /\
    abstracts (snd (run_all demo_ops (set_header (mkBlock 2048 false zero_header ∅) cleared_header))) t.
Proof.
  apply (block_refines_table 2048 demo_ops).
  - unfold_sizes. lia.
  - reflexivity.
  - unfold demo_ops. repeat apply Forall_cons_2; try apply Forall_nil_2; simpl; lia.
Defined.

(** C10: a cell of the table is read back from the block with the type and the value
    that was put there: the 64-bit integer, the bits of the double, the bytes of a string or
    blob. *)
Theorem block_reads_back (b : SharedBlock) (t : table) (r c : Z) (v : cell)
  (Hab : abstracts b t) (Hcell : t_cells t !! (r, c) = Some v) (Hv : cell_ok v) :
  exists a, GetCellUnit b r c = Some a /\ reads_as b a v.
Proof.
  destruct (abs_repr _ _ Hab r c v Hcell) as [[Hr Hc] He]. exists (cell_addr b r c). split.
  - unfold GetCellUnit, out_of_range. replace (_ || _) with false; [done|]. symmetry. lia.
  - apply encodes_reads; [apply (abs_wf _ _ Hab)|done|done].
Qed.

Lemma demo_abstracts :
  abstracts (set_header (mkBlock 2048 false zero_header ∅) cleared_header) empty_table.
Proof. apply (Create_abstracts 2048); [unfold_sizes; lia|reflexivity]. Qed.

Lemma block_reads_back_witness :
  exists b, exists a, GetCellUnit b 0 1 = Some a /\ reads_as b a (CBytes CELL_UNIT_TYPE_BLOB [1; 2; 3]).
Proof.
  destruct (simulates (OSetColumnNum 2) _ _ demo_abstracts) as (t1 & S1 & H1); [done|].
  destruct (simulates OAllocRow _ _ H1) as (t2 & S2 & H2); [done|].
  destruct (simulates (OPutBytes CELL_UNIT_TYPE_BLOB 0 1 (Some [1; 2; 3])) _ _ H2) as (t3 & S3 & H3); [done|].
  eexists. apply (block_reads_back _ t3 0 1 _ H3); [|done].
  vm_compute in S3. inversion S3; subst. simpl. apply lookup_insert_eq.
Defined.

(** C11: no operation writes a byte below the end of the header or beyond the
    memory area, and the unused offset stays inside it. *)
Theorem block_writes_in_bounds (o : bop) (b : SharedBlock) (t : table)
  (Hab : abstracts b t) (Hok : op_ok o) :
  (forall x, rd (mData (snd (run o b))) x <> rd (mData b) x -> sizeof_header <= x < mSize b) /\
  unusedOffset (mHeader (snd (run o b))) <= mSize (snd (run o b)).
Proof.
  split; [intros x; by apply (run_writes o b t)|].
  destruct (simulates o b t Hab Hok) as (t' & _ & [Hwf _ _ _ _]). apply (wf_size _ Hwf).
Qed.

Lemma block_writes_in_bounds_witness :
  (forall x, rd (mData (snd (run OAllocRow (set_header (mkBlock 2048 false zero_header ∅) cleared_header)))) x <>
      rd (mData (set_header (mkBlock 2048 false zero_header ∅) cleared_header)) x -> sizeof_header <= x < 2048) /\
  unusedOffset (mHeader (snd (run OAllocRow (set_header (mkBlock 2048 false zero_header ∅) cleared_header)))) <=
  mSize (snd (run OAllocRow (set_header (mkBlock 2048 false zero_header ∅) cleared_header))).
Proof. exact (block_writes_in_bounds OAllocRow _ _ demo_abstracts I). Defined.

(** putting bytes in range succeeds exactly when they fit behind the used part;
    otherwise the block is unchanged. *)
Theorem block_put_exact (b : SharedBlock) (t : table) (ty row column : Z) (bs : list Z)
  (Hab : abstracts b t) (Hok : op_ok (OPutBytes ty row column (Some bs))) (Hin : in_table t row column) :
  if unusedOffset (mHeader b) + Z.of_nat (length bs) <=? mSize b
  then fst (PutBlobOrString b row column (Some bs) ty) = SHARED_BLOCK_OK /\
       abstracts (snd (PutBlobOrString b row column (Some bs) ty)) (put t row column (CBytes ty bs))
  else PutBlobOrString b row column (Some bs) ty = (SHARED_BLOCK_NO_MEMORY, b).
Proof.
  destruct Hok as (Hr & Hc & Hl). apply (in_table_iff b t) in Hin as Ho; [|done].
  destruct (sim_put_bytes b t ty row column (Some bs) Hab (conj Hr (conj Hc Hl))) as (t' & Hst & Hab').
  pose proof (PutBlobOrString_spec b row column bs ty (t_cells t) (abs_wf _ _ Hab) (abs_repr _ _ Hab) Hr Hc Hl Ho) as H.
  cbv zeta in H. rewrite Z.ltb_antisym in H. destruct (_ <=? _); cbn [negb] in H; [|done].
  destruct H as (Hs & _). rewrite Hs in Hst. split; [done|]. by inversion Hst; subst.
Qed.

Lemma block_put_exact_witness :
  exists b t, abstracts b t /\
  (if unusedOffset (mHeader b) + Z.of_nat (length [1; 2; 3]) <=? mSize b
   then fst (PutBlobOrString b 0 1 (Some [1; 2; 3]) CELL_UNIT_TYPE_BLOB) = SHARED_BLOCK_OK /\
        abstracts (snd (PutBlobOrString b 0 1 (Some [1; 2; 3]) CELL_UNIT_TYPE_BLOB))
          (put t 0 1 (CBytes CELL_UNIT_TYPE_BLOB [1; 2; 3]))
   else PutBlobOrString b 0 1 (Some [1; 2; 3]) CELL_UNIT_TYPE_BLOB = (SHARED_BLOCK_NO_MEMORY, b)).
Proof.
  destruct (simulates (OSetColumnNum 2) _ _ demo_abstracts) as (t1 & S1 & H1); [done|].
  destruct (simulates OAllocRow _ _ H1) as (t2 & S2 & H2); [done|].
  eexists _, t2. split; [exact H2|]. apply (block_put_exact _ t2); [exact H2|done|].
  inversion S1; subst; vm_compute in S2; inversion S2; subst; vm_compute; done.
Defined.

(** copying the used bytes of a block over another block that is large enough
    ([SetRawData] of [GetUsedBytes] bytes, the way a block is transferred) makes the
    destination stand for the same table. *)
Theorem block_raw_roundtrip (b b' : SharedBlock) (t : table)
  (Hab : abstracts b t) (Hh : header_u32 (mHeader b)) (Hw : mReadOnly b' = false)
  (Hg : length (groupOffset (mHeader b')) = 128%nat)
  (Hm : GetUsedBytes b <= mSize b' < 2 ^ 31) :
  exists b2, SetRawData b' (Some (raw_bytes b (Z.to_nat (GetUsedBytes b)))) = (SHARED_BLOCK_OK, b2) /\
    mHeader b2 = mHeader b /\ abstracts b2 t.
Proof.
  pose proof (abs_wf _ _ Hab) as Hwf. pose proof (wf_size b Hwf) as Hs. unfold GetUsedBytes in *.
  pose proof (header_bytes_length _ (proj1 Hh)) as Hhl.
  set (n := (Z.to_nat (unusedOffset (mHeader b)) - 536)%nat).
  assert (length (rdn (mData b) sizeof_header n) = n) as Hnl by apply rdn_length.
  unfold SetRawData. rewrite raw_bytes_split by done. fold n. rewrite length_app, Hhl, Hnl.
  rewrite take_app_length' , drop_app_length' by done.
  destruct (Z.leb_spec (Z.of_nat (536 + n)) 0); [lia|].
  destruct (Z.ltb_spec (mSize b') (Z.of_nat (536 + n))); [unfold_sizes; lia|].
  destruct (Z.ltb_spec SECUREC_MEM_MAX_LEN (mSize b')); [unfold SECUREC_MEM_MAX_LEN in *; lia|].
  rewrite header_of_bytes by done. eexists. split; [done|]. split; [done|].
  eapply same_used_abstracts; [exact Hab| |done|simpl; lia].
  split; [done|]. intros lo k Hlo Hhi. apply wr_rdn_same_used; [done|]. unfold_sizes. lia.
Qed.

Lemma block_raw_roundtrip_witness :
  exists b2, SetRawData (mkBlock 4096 false zero_header ∅)
      (Some (raw_bytes (set_header (mkBlock 2048 false zero_header ∅) cleared_header) 1048))
      = (SHARED_BLOCK_OK, b2) /\
    mHeader b2 = cleared_header /\ abstracts b2 empty_table.
Proof.
  apply (block_raw_roundtrip (set_header (mkBlock 2048 false zero_header ∅) cleared_header)
    (mkBlock 4096 false zero_header ∅) empty_table demo_abstracts).
  - split; [reflexivity|]. apply (bool_decide_unpack _). vm_compute. exact I.
  - reflexivity.
  - reflexivity.
  - vm_compute. split; [discriminate|reflexivity].
Defined.

End BlockProps.
