(* ===== verification/StringUtils.v ===== *)
(** * String helpers of the native library

    [StringUtils]: frameworks/native/rdb/src/string_utils.cpp and include/string_utils.h.
    [Search]: [std::lower_bound] as the standard library computes it, by halving.
    [SqliteUtils]: the functions of frameworks/native/rdb/src/sqlite_utils.cpp that compute on
    strings: statement classification, replacement, keyword lookup, file-name and log
    anonymisation.

    The loops that advance by the length of an argument take fuel; the theorems show which
    fuel is enough, and that no fuel is when the argument is empty. *)
From Stdlib Require Import ZArith Lia Ascii.
From stdpp Require Import base list strings.
From S2P Require Import Prelude CppStd.

Local Open Scope nat_scope.
#[local] Arguments String.append !_ _ / : simpl nomatch.

Module StringUtils.

Definition SurroundWithQuote (value quote : string) : string :=
  if Str.empty value then value else quote +:+ value +:+ quote.

(** The loop keeps [isFirst] beside the text built so far. *)
Definition SurroundWithFunction (function separator : string) (array : list string) : string :=
  fst (foldl (fun '(builder, isFirst) text =>
        ((if isFirst : bool then builder else builder +:+ " " +:+ separator +:+ " ") +:+ text, false))
      (function +:+ "(", true) array) +:+ ")".

(** [Split]: [None] when the fuel runs out. *)
Fixpoint split_loop (fuel : nat) (str delim : string) (pos : nat) (res : list string) : option (list string) :=
  match fuel with
  | O => None
  | S fuel' =>
      if pos <? Str.size str then
        match Str.find str delim pos with
        | None => Some (res ++ [Str.substr_from str pos])
        | Some found =>
            split_loop fuel' str delim (found + Str.size delim) (res ++ [Str.substr str pos (found - pos)])
        end
      else Some res
  end.

Definition Split (fuel : nat) (str delim : string) : option (list string) := split_loop fuel str delim 0 [].

(** [s.rfind("/") + 1], where [npos + 1] is 0. *)
Definition after_slash (s : string) : nat :=
  match Str.find_last (Ascii.eqb "/") s with Some n => S n | None => 0 end.

Definition ExtractFilePath (fileFullName : string) : string :=
  Str.substr fileFullName 0 (after_slash fileFullName).

Definition ExtractFileName (fileFullName : string) : string :=
  Str.substr fileFullName (after_slash fileFullName) (Str.size fileFullName).

Definition TruncateAfterFirstParen (str : string) : string :=
  match Str.find_char "(" str with Some pos => Str.substr str 0 pos | None => str end.

Definition GetParentPath (path : string) : string :=
  match Str.find_last (fun c => Ascii.eqb c "/" || Ascii.eqb c "\") path with
  | None => EmptyString
  | Some 0 => "/"
  | Some pos => Str.substr path 0 pos
  end.

(** [Trim] computes the trimmed text in a local copy and returns its argument. *)
Definition Trim (source : string) : string := if Str.empty source then EmptyString else source.

(** *** Lemmas *)

Lemma surround_fold sep l b :
  fst (foldl (fun '(builder, isFirst) text =>
        ((if isFirst : bool then builder else builder +:+ " " +:+ sep +:+ " ") +:+ text, false)) (b, false) l) =
  b +:+ (match l with [] => EmptyString | _ => " " +:+ sep +:+ " " +:+ Str.join (" " +:+ sep +:+ " ") l end).
Proof.
  revert b. induction l as [|x l IH]; intros b; cbn [foldl fst].
  - by rewrite Str.app_nil_r.
  - rewrite IH. rewrite !Str.app_assoc. destruct l as [|y l]; [by rewrite !Str.app_nil_r|].
    rewrite (Str.join_cons _ x (y :: l)) by done. by rewrite !Str.app_assoc.
Qed.

Lemma SurroundWithFunction_eq f sep l :
  SurroundWithFunction f sep l = f +:+ "(" +:+ Str.join (" " +:+ sep +:+ " ") l +:+ ")".
Proof.
  unfold SurroundWithFunction. destruct l as [|x l]; cbn [foldl fst]; [by rewrite Str.app_assoc|].
  rewrite surround_fold. destruct l as [|y l].
  - rewrite Str.app_nil_r. by rewrite !Str.app_assoc.
  - rewrite (Str.join_cons _ x (y :: l)) by done. by rewrite !Str.app_assoc.
Qed.

Lemma drop_app_le n a b : n <= Str.size a -> Str.drop n (a +:+ b) = Str.drop n a +:+ b.
Proof. revert n. induction a as [|c a IH]; intros [|n] H; simpl in *; try done; try lia. apply IH. lia. Qed.

(** The text before the first occurrence does not contain the pattern. *)
Lemma search_before pat s n :
  Str.empty pat = false -> Str.search pat s = Some n -> Str.search pat (Str.take n s) = None.
Proof.
  intros Hp Hs. destruct (Str.search_Some _ _ _ Hs) as (Hb & _ & Hfirst).
  destruct (Str.search pat (Str.take n s)) as [m|] eqn:E; [|done].
  destruct (Str.search_Some _ _ _ E) as (Hm & Heq & _). rewrite Str.size_take in Hm.
  assert (0 < Str.size pat) by (destruct pat; simpl in *; [done|lia]).
  assert (String.prefix pat (Str.drop m s) = true) as Hpre.
  { apply Str.prefix_app. rewrite <-(Str.take_drop n s), drop_app_le by (rewrite Str.size_take; lia).
    rewrite Heq. eexists. rewrite drop_app_le by (rewrite !Str.size_take; lia).
    rewrite (Str.drop_all m (Str.take m _)) by (rewrite Str.size_take; lia). simpl. by rewrite Str.app_assoc. }
  by rewrite (Hfirst m) in Hpre by lia.
Qed.

(** What [Split] returns for the text from [pos] on: pieces without the delimiter that join
    to the text, a delimiter at its very end excepted. *)
Definition splits (text delim : string) (ps : list string) : Prop :=
  (text = Str.join delim ps \/ text = Str.join delim ps +:+ delim) /\
  Forall (fun x => Str.search delim x = None) ps /\ (text <> EmptyString -> ps <> []).

Lemma splits_cons piece rest delim ps :
  Str.search delim piece = None -> splits rest delim ps ->
  splits (piece +:+ delim +:+ rest) delim (piece :: ps).
Proof.
  intros Hp (Hj & Hf & Hn). split; [|by split; [constructor|]].
  destruct ps as [|y ps].
  - right. simpl in *. destruct (decide (rest = EmptyString)) as [->|Hr]; [|by destruct (Hn Hr)].
    by rewrite Str.app_nil_r.
  - rewrite (Str.join_cons _ piece (y :: ps)) by done.
    destruct Hj as [->| ->]; [by left|right]. by rewrite !Str.app_assoc.
Qed.

Lemma split_loop_spec fuel str delim pos res :
  Str.empty delim = false -> Str.size str - pos < fuel ->
  exists ps, split_loop fuel str delim pos res = Some (res ++ ps) /\ splits (Str.drop pos str) delim ps.
Proof.
  intros Hd. assert (0 < Str.size delim) as Hds by (destruct delim; simpl in *; [done|lia]).
  revert pos res. induction fuel as [|fuel IH]; intros pos res Hf; [lia|]. cbn [split_loop].
  destruct (Nat.ltb_spec pos (Str.size str)) as [Hlt|Hge].
  2:{ exists []. rewrite app_nil_r. rewrite Str.drop_all by lia. by split; [|split; [left|]]. }
  destruct (Str.find str delim pos) as [found|] eqn:E.
  - destruct (Str.find_Some _ _ _ _ E) as (Hle & Hb & Hs).
    destruct (Str.search_Some _ _ _ Hs) as (_ & Heq & _).
    destruct (IH (found + Str.size delim) (res ++ [Str.substr str pos (found - pos)]) ltac:(lia))
      as (ps & -> & Hps).
    exists (Str.substr str pos (found - pos) :: ps). rewrite <-app_assoc. split; [done|].
    rewrite Heq, Str.drop_drop. replace (pos + (found - pos + Str.size delim)) with (found + Str.size delim) by lia.
    apply splits_cons; [|done]. unfold Str.substr. by apply search_before.
  - exists [Str.substr_from str pos]. split; [done|]. unfold Str.find in E.
    destruct (Nat.leb_spec pos (Str.size str)) as [_|]; [|lia].
    destruct (Str.search delim (Str.drop pos str)) eqn:Hs; [done|].
    split; [by left|]. by split; [constructor|].
Qed.

(** With an empty delimiter the position never advances. *)
Lemma split_loop_stuck fuel str pos res :
  pos < Str.size str -> split_loop fuel str EmptyString pos res = None.
Proof.
  intros Hp. revert res. induction fuel as [|fuel IH]; intros res; [done|]. cbn [split_loop].
  destruct (Nat.ltb_spec pos (Str.size str)) as [_|]; [|lia].
  assert (Str.find str EmptyString pos = Some pos) as ->.
  { unfold Str.find. destruct (Nat.leb_spec pos (Str.size str)) as [_|]; [|lia].
    destruct (Str.drop pos str); simpl; f_equal; lia. }
  simpl. rewrite Nat.add_0_r. apply IH.
Qed.

Lemma after_slash_le s : after_slash s <= Str.size s.
Proof.
  unfold after_slash. destruct (Str.find_last _ s) as [n|] eqn:E; [|lia].
  apply Str.find_last_Some in E as [H _]. lia.
Qed.

End StringUtils.

(** ** Binary search *)

Module Search.
Section LowerBound.
Context {A : Type} (less : A -> bool).

(** [std::lower_bound] with the comparison [less x = comp(x, value)]. *)
Fixpoint lower_bound_loop (fuel : nat) (l : list A) (first count : nat) : nat :=
  match fuel with
  | O => first
  | S fuel' =>
      if count =? 0 then first
      else
        let step := Nat.div2 count in
        match l !! (first + step) with
        | Some x => if less x then lower_bound_loop fuel' l (first + step + 1) (count - (step + 1))
                    else lower_bound_loop fuel' l first step
        | None => first
        end
  end.

Definition lower_bound (l : list A) : nat := lower_bound_loop (length l) l 0 (length l).

(** On a partitioned list the loop finds the boundary. *)
Lemma lower_bound_loop_spec fuel l first count :
  (forall i j x y, i < j -> l !! i = Some x -> l !! j = Some y -> less y = true -> less x = true) ->
  count <= fuel -> first + count <= length l ->
  (forall i x, i < first -> l !! i = Some x -> less x = true) ->
  (forall i x, first + count <= i -> l !! i = Some x -> less x = false) ->
  let r := lower_bound_loop fuel l first count in
  r <= length l /\ (forall i x, i < r -> l !! i = Some x -> less x = true) /\
  (forall i x, r <= i -> l !! i = Some x -> less x = false).
Proof.
  intros Hm. revert first count. induction fuel as [|fuel IH]; intros first count Hf Hb Hlo Hhi; cbn [lower_bound_loop].
  - split; [lia|]. split; [done|]. intros i x Hi. apply Hhi. lia.
  - destruct (Nat.eqb_spec count 0) as [->|Hc].
    { split; [lia|]. split; [done|]. intros i x Hi. apply Hhi. lia. }
    assert (Nat.div2 count < count) as Hs by (apply Nat.lt_div2; lia).
    revert Hs. generalize (Nat.div2 count). intros step Hs.
    destruct (l !! (first + step)) as [y|] eqn:Hy;
      [|apply lookup_ge_None in Hy; lia].
    destruct (less y) eqn:Hl.
    + apply IH; [lia|lia| |intros i x Hi; apply Hhi; lia].
      intros i x Hi Hx. destruct (decide (i = first + step)) as [->|]; [congruence|].
      destruct (decide (i < first + step)); [by eapply Hm|lia].
    + apply IH; [lia|lia|done|]. intros i x Hi Hx.
      destruct (decide (i = first + step)) as [->|]; [congruence|].
      destruct (less x) eqn:Hlx; [|done]. rewrite <-Hl. symmetry. eapply (Hm _ i); eauto. lia.
Qed.

Lemma lower_bound_spec l :
  (forall i j x y, i < j -> l !! i = Some x -> l !! j = Some y -> less y = true -> less x = true) ->
  lower_bound l <= length l /\
  (forall i x, i < lower_bound l -> l !! i = Some x -> less x = true) /\
  (forall i x, lower_bound l <= i -> l !! i = Some x -> less x = false).
Proof.
  intros Hm. apply lower_bound_loop_spec; try done; [lia|]. intros i x Hi Hx.
  apply lookup_lt_Some in Hx. lia.
Qed.

End LowerBound.
End Search.

Module SqliteUtils.
Import StringUtils.

Definition SQL_KEYWORD : list string :=
  ["ABORT"; "ABS"; "ACTION"; "ADD"; "AFTER"; "ALIAS"; "ALL"; "ALTER"; "ALWAYS"; "AMBIGUOUS";
  "ANALYZE"; "AND"; "AS"; "ASC"; "ATTACH"; "AUTOINCREMENT"; "AVG"; "BEFORE"; "BEGIN"; "BETWEEN";
  "BIG"; "BIGINT"; "BLOB"; "BOOLEAN"; "BY"; "CASCADE"; "CASE"; "CAST"; "CEIL"; "CEILING";
  "CHARACTER"; "CHECK"; "CLOB"; "COALESCE"; "COLLATE"; "COLUMN"; "COMMIT"; "CONCAT"; "CONFLICT";
  "CONSTRAINT"; "COUNT"; "CREATE"; "CROSS"; "CURRENT"; "CURRENT_DATE"; "CURRENT_TIME";
  "CURRENT_TIMESTAMP"; "DATABASE"; "DATE"; "DATETIME"; "DECIMAL"; "DEFAULT"; "DEFERRABLE";
  "DEFERRED"; "DELETE"; "DESC"; "DETACH"; "DIGIT"; "DISTINCT"; "DO"; "DOUBLE"; "DROP"; "E";
  "EACH"; "ELSE"; "END"; "ESCAPE"; "EXCEPT"; "EXCLUDE"; "EXCLUSIVE"; "EXISTS"; "EXP"; "EXPLAIN";
  "EXPR"; "FAIL"; "FALSE"; "FILENAME"; "FILTER"; "FIRST"; "FLOAT"; "FLOOR"; "FOLLOWING"; "FOR";
  "FOREIGN"; "FROM"; "FULL"; "GENERATED"; "GLOB"; "GROUP"; "GROUPS"; "GROUP_CONCAT"; "HAVING";
  "HEXDIGIT"; "IF"; "IFNULL"; "IGNORE"; "IMMEDIATE"; "IN"; "INDEX"; "INDEXED"; "INITIALLY";
  "INNER"; "INSERT"; "INSTEAD"; "INSTR"; "INT"; "INT2"; "INT8"; "INTEGER"; "INTERSECT"; "INTO";
  "IS"; "ISNULL"; "JOIN"; "JULIANDAY"; "KEY"; "LAST"; "LEFT"; "LENGTH"; "LIKE"; "LIMIT"; "LN";
  "LOG"; "LOWER"; "LTRIM"; "MATCH"; "MATERIALIZED"; "MAX"; "MEDIUMINT"; "MIN"; "NAME"; "NATIVE";
  "NATURAL"; "NCHAR"; "NEWLINE"; "NO"; "NOT"; "NOTHING"; "NOTNULL"; "NULL"; "NULLIF"; "NULLS";
  "NUMERIC"; "NVARCHAR"; "OF"; "OFFSET"; "ON"; "OR"; "ORDER"; "OTHERS"; "OUTER"; "OVER";
  "PARTITION"; "PLAN"; "POWER"; "PRAGMA"; "PRECEDING"; "PRECISION"; "PRIMARY"; "QUERY"; "RAISE";
  "RANDOM"; "RANGE"; "REAL"; "RECURSIVE"; "REFERENCES"; "REGEXP"; "REINDEX"; "RELEASE"; "RENAME";
  "REPLACE"; "RESTRICT"; "RETURNING"; "RIGHT"; "ROLLBACK"; "ROUND"; "ROW"; "ROWID"; "ROWS";
  "RTRIM"; "SAVEPOINT"; "SELECT"; "SET"; "SMALLINT"; "SQRT"; "STORED"; "STRFTIME"; "STRICT";
  "SUBSTR"; "SUM"; "TABLE"; "TEMP"; "TEMPORARY"; "TEXT"; "THEN"; "TIES"; "TIME"; "TINYINT"; "TO";
  "TOTAL"; "TRANSACTION"; "TRIGGER"; "TRIM"; "TRUE"; "TYPEOF"; "UNBOUNDED"; "UNION"; "UNIQUE";
  "UNSIGNED"; "UPDATE"; "UPPER"; "USING"; "VACUUM"; "VALUES"; "VARCHAR"; "VARYING"; "VIEW";
  "VIRTUAL"; "WHEN"; "WHERE"; "WINDOW"; "WITH"; "WITHOUT"].

Definition WHILE_KEYWORDS : list string :=
  ["ABORTS"; "ACQLOCK"; "ALREADY"; "AT"; "BUSYLINE"; "CHANGED"; "CURLOCK"; "DBREF"; "DEL";
  "DUPLICATE"; "ENABLE"; "ERRNO"; "ERROR"; "FAILED"; "FD"; "FILE"; "FILELOCK"; "FRAMES";
  "F_RDLCK"; "F_WRLCK"; "GO"; "HANDLELOCKS"; "HAS"; "IDX"; "INCOMPLETE"; "INPUT"; "LEN"; "LINE";
  "LITERAL"; "LOCKCNT"; "LOCKS"; "MISUSE"; "MONITOR"; "NEAR"; "NONE"; "PID"; "PROCESSLOCK";
  "QUOTED"; "READ"; "RECOVERED"; "SCHEMA"; "SHARED_FIRST"; "SQLITE"; "STATEMENT"; "STRING";
  "SUCH"; "SYNTAX"; "TID"; "TRX"; "TYPE"; "WAL"; "WAL_DMS"; "WARNING"; "WRITE"; "WRONG"].

(** The characters of a C string: those before the first NUL. *)
Fixpoint c_str (s : string) : string :=
  match s with
  | EmptyString => EmptyString
  | String c s' => if Ascii.eqb c "000" then EmptyString else String c (c_str s')
  end.

Definition uchar (c : ascii) : Z := Z.of_N (N_of_ascii c).

(** [WordCompare] on C strings; the end of a string is the character 0. *)
Fixpoint WordCompare (a b : string) : Z :=
  match a, b with
  | EmptyString, EmptyString => 0
  | EmptyString, String y _ => 0 - uchar y
  | String x _, EmptyString => uchar x - 0
  | String x a', String y b' => if Ascii.eqb x y then WordCompare a' b' else uchar x - uchar y
  end.

Fixpoint IsLexSorted (keyword : list string) : bool :=
  match keyword with
  | a :: ((b :: _) as rest) => if (0 <=? WordCompare a b)%Z then false else IsLexSorted rest
  | _ => true
  end.

Definition IsMatchKeyword (keyword : list string) (str : string) : bool :=
  let it := Search.lower_bound (fun a => (WordCompare a str <? 0)%Z) keyword in
  match keyword !! it with
  | Some w => (WordCompare w str =? 0)%Z
  | None => false
  end.

Definition StrToUpper (s : string) : string := Str.map Str.toupper s.

Definition IsKeyword (word : string) : bool :=
  IsMatchKeyword SQL_KEYWORD (c_str (StrToUpper word)) ||
  IsMatchKeyword WHILE_KEYWORDS (c_str (StrToUpper word)).

Definition STATEMENT_SELECT : Z := 1.
Definition STATEMENT_UPDATE : Z := 2.
Definition STATEMENT_ATTACH : Z := 3.
Definition STATEMENT_DETACH : Z := 4.
Definition STATEMENT_BEGIN : Z := 5.
Definition STATEMENT_COMMIT : Z := 6.
Definition STATEMENT_ROLLBACK : Z := 7.
Definition STATEMENT_PRAGMA : Z := 8.
Definition STATEMENT_DDL : Z := 9.
Definition STATEMENT_INSERT : Z := 10.
Definition STATEMENT_ERROR : Z := 11.
Definition STATEMENT_OTHER : Z := 99.

Definition SQL_TYPE_MAP : list (string * Z) :=
  [("ALT", STATEMENT_DDL); ("ATT", STATEMENT_ATTACH); ("BEG", STATEMENT_BEGIN);
   ("COM", STATEMENT_COMMIT); ("CRE", STATEMENT_DDL); ("DEL", STATEMENT_UPDATE);
   ("DET", STATEMENT_DETACH); ("DRO", STATEMENT_DDL); ("END", STATEMENT_COMMIT);
   ("INS", STATEMENT_INSERT); ("PRA", STATEMENT_PRAGMA); ("REP", STATEMENT_UPDATE);
   ("ROL", STATEMENT_ROLLBACK); ("SAV", STATEMENT_BEGIN); ("SEL", STATEMENT_SELECT);
   ("UPD", STATEMENT_UPDATE)].

(** [std::isspace] and [std::iscntrl] in the C locale; both are false beyond ASCII. *)
Definition isspace (c : ascii) : bool :=
  let n := N_of_ascii c in (n =? 32)%N || ((9 <=? n)%N && (n <=? 13)%N).
Definition iscntrl (c : ascii) : bool :=
  let n := N_of_ascii c in (n <? 32)%N || (n =? 127)%N.

(** The comparison of [GetSqlStatementType] is [strcmp(a, b) < 0]. *)
Definition GetSqlStatementType (sql : string) : Z :=
  match Str.find_first (fun ch => negb (isspace ch) && negb (iscntrl ch)) sql with
  | None => STATEMENT_ERROR
  | Some pos =>
      if Str.size sql <=? pos + 3 then STATEMENT_ERROR
      else
        let prefixSql := c_str (StrToUpper (Str.substr sql pos 3)) in
        let it := Search.lower_bound (fun t => (WordCompare (fst t) prefixSql <? 0)%Z) SQL_TYPE_MAP in
        match SQL_TYPE_MAP !! it with
        | Some (w, ty) => if (WordCompare prefixSql w <? 0)%Z then STATEMENT_OTHER else ty
        | None => STATEMENT_OTHER
        end
  end.

(** [Replace]: [None] when the fuel runs out. *)
Fixpoint replace_loop (fuel : nat) (res rep dst : string) (pos : nat) : option string :=
  match fuel with
  | O => None
  | S fuel' =>
      match Str.find res rep pos with
      | None => Some res
      | Some p =>
          replace_loop fuel' (Str.take p res +:+ dst +:+ Str.drop (p + Str.size rep) res) rep dst (p + Str.size dst)
      end
  end.

Definition Replace (fuel : nat) (src rep dst : string) : option string :=
  if Str.empty src || Str.empty rep then Some EmptyString else replace_loop fuel src rep dst 0.

Definition IsSupportSqlForExecute (sqlType : Z) : bool :=
  ((sqlType =? STATEMENT_DDL) || (sqlType =? STATEMENT_INSERT) || (sqlType =? STATEMENT_UPDATE) ||
   (sqlType =? STATEMENT_PRAGMA))%Z.

Definition IsSqlReadOnly (sqlType : Z) : bool := (sqlType =? STATEMENT_SELECT)%Z.

Definition IsSpecial (sqlType : Z) : bool :=
  if ((sqlType =? STATEMENT_BEGIN) || (sqlType =? STATEMENT_COMMIT) || (sqlType =? STATEMENT_ROLLBACK))%Z
  then true else false.

Definition CONFLICT_CLAUSE_COUNT : Z := 6.
Definition ON_CONFLICT_CLAUSE : list string :=
  [EmptyString; " OR ROLLBACK"; " OR ABORT"; " OR FAIL"; " OR IGNORE"; " OR REPLACE"].

Definition GetConflictClause (conflictResolution : Z) : option string :=
  if ((conflictResolution <? 0) || (CONFLICT_CLAUSE_COUNT <=? conflictResolution))%Z then None
  else ON_CONFLICT_CLAUSE !! Z.to_nat conflictResolution.

(** [s.rfind(pat)]. *)
Fixpoint rfind (pat s : string) : option nat :=
  match s with
  | EmptyString => if String.prefix pat s then Some 0 else None
  | String _ s' =>
      match rfind pat s' with
      | Some n => Some (S n)
      | None => if String.prefix pat s then Some 0 else None
      end
  end.

(** The position of the suffix, when the last occurrence is at the end: the negation of
    [pos == npos || pos < name.length() - suffix.length()]. *)
Definition suffix_pos (suffix name : string) : option nat :=
  match rfind suffix name with
  | Some pos => if pos <? Str.size name - Str.size suffix then None else Some pos
  | None => None
  end.

Definition RemoveSuffix (name : string) : string :=
  match suffix_pos ".db" name with Some pos => Str.substr name 0 pos | None => name end.

Definition GetSlavePath (name : string) : string :=
  match suffix_pos ".db" name with
  | Some pos => Str.substr name 0 pos +:+ "_slave.db"
  | None => name +:+ "_slave.db"
  end.

Definition GetMasterBackupPath (name : string) : string :=
  match suffix_pos ".db" name with
  | Some pos => Str.substr name 0 pos +:+ "_master_corrupted.db"
  | None => name +:+ "_master_corrupted.db"
  end.

Definition IsSlaveDbName (fileName : string) : bool :=
  if Str.size fileName <? Str.size "_slave.db" then false
  else match rfind "_slave.db" fileName with
       | Some pos => pos =? Str.size fileName - Str.size "_slave.db"
       | None => false
       end.

(** *** Anonymisation for logs *)

Definition HEAD_SIZE : nat := 3.
Definition END_SIZE : nat := 3.
Definition MIN_SIZE : nat := HEAD_SIZE + END_SIZE + 3.
Definition CONTINUOUS_DIGITS_MINI_SIZE : nat := 6.
Definition FILE_PATH_MINI_SIZE : nat := 6.
Definition AREA_MINI_SIZE : nat := 4.
Definition AREA_OFFSET_SIZE : nat := 5.
Definition PRE_OFFSET_SIZE : nat := 1.

Definition GetAnonymousName (fileName : string) : string :=
  if Str.empty fileName then EmptyString
  else if Str.size fileName <=? HEAD_SIZE then Str.substr fileName 0 1 +:+ "**"
  else if Str.size fileName <? MIN_SIZE then Str.substr fileName 0 HEAD_SIZE +:+ "***"
  else Str.substr fileName 0 HEAD_SIZE +:+ "***" +:+
       Str.substr fileName (Str.size fileName - END_SIZE) END_SIZE.

Definition AnonymousDigits (digits : string) (fullyAnonymize : bool) : string :=
  if Str.size digits <? CONTINUOUS_DIGITS_MINI_SIZE then (if fullyAnonymize then "***" else digits)
  else if Str.size digits =? CONTINUOUS_DIGITS_MINI_SIZE
  then "***" +:+ Str.substr_from digits (Str.size digits - 3)
  else "***" +:+ Str.substr_from digits (Str.size digits - 4).

Fixpoint byte_loop (input output : string) (maskCurrent : bool) : string :=
  match input with
  | EmptyString => output
  | String b rest =>
      if (0x7F <? N_of_ascii b)%N
      then byte_loop rest (if maskCurrent then output else output +:+ "***") true
      else byte_loop rest (output +:+ String b EmptyString) false
  end.

Definition ByteAnonymous (input : string) : string := byte_loop input EmptyString false.

Definition in_range (lo hi : N) (c : ascii) : bool := (lo <=? N_of_ascii c)%N && (N_of_ascii c <=? hi)%N.

(** [[a-zA-Z0-9_]]. *)
Definition is_word (c : ascii) : bool :=
  in_range 97 122 c || in_range 65 90 c || in_range 48 57 c || Ascii.eqb c "_".

(** [[0-9a-fA-F]]. *)
Definition is_hex (c : ascii) : bool := in_range 48 57 c || in_range 97 102 c || in_range 65 70 c.

Fixpoint all (p : ascii -> bool) (s : string) : bool :=
  match s with EmptyString => true | String c s' => p c && all p s' end.

(** The longest prefix whose characters satisfy [p], and the rest. *)
Fixpoint span (p : ascii -> bool) (s : string) : string * string :=
  match s with
  | EmptyString => (EmptyString, EmptyString)
  | String c s' => if p c then let '(a, b) := span p s' in (String c a, b) else (EmptyString, s)
  end.

(** What one match of the identifier pattern contributes, with the flag it leaves. *)
Definition anonymous_word (word : string) (fullyAnonymize : bool) : string * bool :=
  if IsKeyword word then (word, false)
  else if all is_hex word then (AnonymousDigits word fullyAnonymize, true)
  else (GetAnonymousName word, false).

(** [SqlAnonymous]: a match of [\b[a-zA-Z0-9_]+\b] is a maximal run of these characters, since
    they are the word characters of [\b] and the repetition is greedy. *)
Fixpoint sql_loop (fuel : nat) (sql : string) (fully : bool) : string :=
  match fuel with
  | O => EmptyString
  | S fuel' =>
      let '(gap, rest) := span (fun c => negb (is_word c)) sql in
      match rest with
      | EmptyString => ByteAnonymous gap
      | String _ _ =>
          let '(word, rest') := span is_word rest in
          let '(out, fully') := anonymous_word word fully in
          ByteAnonymous gap +:+ out +:+ sql_loop fuel' rest' fully'
      end
  end.

Definition SqlAnonymous (sql : string) : string := sql_loop (S (Str.size sql)) sql false.

(** [Anonymous]: the offsets are unsigned; [rfind] succeeds when [find] does. *)
Definition Anonymous (srcFile : string) : string :=
  match Str.find_char "/" srcFile, Str.find_last (Ascii.eqb "/") srcFile with
  | Some pre, Some end_ =>
      if end_ - pre <? FILE_PATH_MINI_SIZE then GetAnonymousName srcFile
      else
        let path := Str.substr srcFile pre (end_ - pre) in
        let path' :=
          match Str.find path "/el" 0 with
          | None => EmptyString
          | Some area =>
              if Str.size path <? area + AREA_MINI_SIZE then EmptyString
              else if area + AREA_OFFSET_SIZE <? Str.size path
              then Str.substr path area AREA_MINI_SIZE +:+ "/***"
              else Str.substr path area AREA_MINI_SIZE
          end in
        Str.substr srcFile 0 (pre + PRE_OFFSET_SIZE) +:+ "***" +:+ path' +:+ "/" +:+
        GetAnonymousName (Str.substr_from srcFile (end_ + 1))
  | _, _ => GetAnonymousName srcFile
  end.

Definition GetArea (srcFile : string) : string :=
  match Str.find srcFile "/el" 0 with
  | None => EmptyString
  | Some start =>
      match Str.find srcFile "/" (start + 1) with
      | Some end_ => Str.substr srcFile (start + 1) (end_ - start - 1)
      | None => EmptyString
      end
  end.

Definition GetErrInfoFromMsg (message errStr : string) : string :=
  match Str.find message errStr 0 with
  | Some startPos =>
      let startPos := startPos + Str.size errStr in
      Str.substr message startPos (Str.size message - startPos)
  | None => EmptyString
  end.

(** *** Comparison and lookup *)

Definition nul_free (s : string) : Prop := Str.count "000" s = 0.

Lemma c_str_nul_free s : nul_free (c_str s).
Proof.
  unfold nul_free. induction s as [|c s IH]; [done|]. cbn [c_str].
  destruct (Ascii.eqb_spec c "000") as [->|Hne]; [done|]. cbn [Str.count].
  destruct (Ascii.eqb_spec "000" c) as [<-|]; [done|]. done.
Qed.

Lemma c_str_id s : nul_free s -> c_str s = s.
Proof.
  unfold nul_free. induction s as [|c s IH]; [done|]. cbn [c_str Str.count].
  destruct (Ascii.eqb_spec "000" c) as [<-|Hne]; [done|]. intros H.
  destruct (Ascii.eqb_spec c "000") as [->|]; [done|]. f_equal. apply IH. lia.
Qed.

Lemma uchar_pos c s : nul_free (String c s) -> (0 < uchar c)%Z /\ nul_free s.
Proof.
  unfold nul_free, uchar. cbn [Str.count]. destruct (Ascii.eqb_spec "000" c) as [|Hne]; [done|].
  intros H. split; [|lia]. destruct (N.eq_dec (N_of_ascii c) 0%N) as [E|]; [|lia].
  destruct Hne. rewrite <-(ascii_N_embedding c), E. done.
Qed.

Lemma uchar_inj x y : uchar x = uchar y -> x = y.
Proof. unfold uchar. intros H. rewrite <-(ascii_N_embedding x), <-(ascii_N_embedding y). f_equal. lia. Qed.

Lemma WordCompare_spec a b :
  nul_free a -> nul_free b ->
  (WordCompare a b <? 0)%Z = Str.ltb a b /\ (WordCompare a b = 0%Z <-> a = b).
Proof.
  revert b. induction a as [|x a IH]; intros [|y b] Ha Hb.
  - done.
  - apply uchar_pos in Hb as [Hy _]. cbn [WordCompare]. split; [|by split; [lia|]].
    change (Str.ltb "" (String y b)) with true. lia.
  - apply uchar_pos in Ha as [Hx _]. cbn [WordCompare]. split; [|by split; [lia|]].
    change (Str.ltb (String x a) "") with false. lia.
  - apply uchar_pos in Ha as [Hx Ha]. apply uchar_pos in Hb as [Hy Hb].
    cbn [WordCompare]. rewrite Str.ltb_cons. unfold uchar in *. destruct (Ascii.eqb_spec x y) as [->|Hne].
    + rewrite N.ltb_irrefl, N.eqb_refl. simpl. destruct (IH b Ha Hb) as [-> ->].
      split; [done|]. split; congruence.
    + assert (N_of_ascii x <> N_of_ascii y) by (intros E; apply Hne, uchar_inj; unfold uchar; by rewrite E).
      split; [|split; [lia|congruence]].
      rewrite (proj2 (N.eqb_neq _ _)) by done. cbn [andb]. rewrite orb_false_r.
      destruct (N.ltb_spec (N_of_ascii x) (N_of_ascii y)); lia.
Qed.

Lemma IsLexSorted_ltb l i j x y :
  IsLexSorted l = true -> Forall nul_free l ->
  i < j -> l !! i = Some x -> l !! j = Some y -> Str.ltb x y = true.
Proof.
  intros Hs Hn. revert i j x y. induction l as [|a l IH]; intros i j x y Hij Hx Hy; [done|].
  inversion Hn as [|? ? Ha Hl]; subst. destruct l as [|b l].
  { apply lookup_lt_Some in Hy. simpl in Hy. lia. }
  cbn [IsLexSorted] in Hs. destruct (0 <=? WordCompare a b)%Z eqn:E; [done|].
  assert (Str.ltb a b = true) as Hab.
  { inversion Hl; subst. destruct (WordCompare_spec a b) as [<- _]; [done..|]. lia. }
  destruct i as [|i], j as [|j]; try lia; simpl in Hx, Hy; [|eapply (IH Hs Hl i j); eauto; lia].
  simplify_eq. destruct j as [|j]; simpl in Hy; [by simplify_eq|].
  eapply Str.ltb_trans; [exact Hab|]. eapply (IH Hs Hl 0 (S j)); eauto. lia.
Qed.

(** Over a sorted table the binary search is membership. *)
Lemma lower_bound_lookup {A} (key : A -> string) (l : list A) (str : string) :
  IsLexSorted (key <$> l) = true -> Forall nul_free (key <$> l) -> nul_free str ->
  (forall x, x ∈ l -> key x = str -> l !! Search.lower_bound (fun t => (WordCompare (key t) str <? 0)%Z) l = Some x) /\
  (forall x, l !! Search.lower_bound (fun t => (WordCompare (key t) str <? 0)%Z) l = Some x ->
     (WordCompare (key x) str <? 0)%Z = false).
Proof.
  intros Hs Hn Hstr. set (less := fun t : A => (WordCompare (key t) str <? 0)%Z).
  assert (forall x, x ∈ l -> nul_free (key x)) as Hk.
  { intros x Hx. rewrite Forall_fmap, Forall_forall in Hn. by apply Hn. }
  assert (forall i j x y, i < j -> l !! i = Some x -> l !! j = Some y -> Str.ltb (key x) (key y) = true) as Hlt.
  { intros i j x y Hij Hx Hy. eapply (IsLexSorted_ltb (key <$> l) i j); try done;
      rewrite list_lookup_fmap; [by rewrite Hx|by rewrite Hy]. }
  destruct (Search.lower_bound_spec less l) as (Hb & Hlo & Hhi).
  { intros i j x y Hij Hx Hy. unfold less. apply list_elem_of_lookup_2 in Hx as Hx', Hy as Hy'.
    destruct (WordCompare_spec (key x) str) as [-> _]; [auto..|].
    destruct (WordCompare_spec (key y) str) as [-> _]; [auto..|]. intros H.
    eapply Str.ltb_trans; [by eapply (Hlt i j)|done]. }
  split; [|intros x Hx; exact (Hhi _ x (le_n _) Hx)].
  intros x Hx Hkx. apply list_elem_of_lookup in Hx as [i Hi].
  assert (less x = false) as Hlx.
  { unfold less. rewrite Hkx. destruct (WordCompare_spec str str) as [-> _]; [done..|]. apply Str.ltb_irrefl. }
  destruct (decide (i = Search.lower_bound less l)) as [->|Hne]; [done|].
  destruct (decide (i < Search.lower_bound less l)) as [H|H]; [by rewrite (Hlo i x H Hi) in Hlx|].
  destruct (lookup_lt_is_Some_2 l (Search.lower_bound less l)) as [y Hy].
  { apply lookup_lt_Some in Hi. lia. }
  pose proof (Hhi _ y (le_n _) Hy) as Hly.
  pose proof (Hlt (Search.lower_bound less l) i _ _ ltac:(lia) Hy Hi) as Hc. rewrite Hkx in Hc.
  apply list_elem_of_lookup_2 in Hy. unfold less in Hly.
  destruct (WordCompare_spec (key y) str) as [Hw _]; [auto..|]. congruence.
Qed.

Lemma IsMatchKeyword_spec keyword str :
  IsLexSorted keyword = true -> Forall nul_free keyword -> nul_free str ->
  IsMatchKeyword keyword str = true <-> str ∈ keyword.
Proof.
  intros Hs Hn Hstr. pose proof (lower_bound_lookup id keyword str) as H. rewrite list_fmap_id in H.
  destruct (H Hs Hn Hstr) as [Hin _]. unfold IsMatchKeyword, id in *. split.
  - destruct (keyword !! _) as [w|] eqn:E; [|done]. intros Hw%Z.eqb_eq.
    apply list_elem_of_lookup_2 in E as Hew. rewrite Forall_forall in Hn.
    apply WordCompare_spec in Hw; [|auto..]. by subst.
  - intros Hx. rewrite (Hin str Hx eq_refl). apply Z.eqb_eq. by apply WordCompare_spec.
Qed.

(** *** Replacement *)

Lemma replace_loop_spec fuel a r rep dst :
  Str.empty rep = false -> Str.size r < fuel ->
  exists ps, r = Str.join rep ps /\ ps <> [] /\ Forall (fun x => Str.search rep x = None) ps /\
    replace_loop fuel (a +:+ r) rep dst (Str.size a) = Some (a +:+ Str.join dst ps).
Proof.
  intros Hr. assert (0 < Str.size rep) as Hrs by (destruct rep; simpl in *; [done|lia]).
  revert a r. induction fuel as [|fuel IH]; intros a r Hf; [lia|]. cbn [replace_loop].
  assert (Str.find (a +:+ r) rep (Str.size a) = Nat.add (Str.size a) <$> Str.search rep r) as ->.
  { unfold Str.find. rewrite Str.size_app, Str.drop_app_size.
    by destruct (Nat.leb_spec (Str.size a) (Str.size a + Str.size r)); [|lia]. }
  destruct (Str.search rep r) as [n|] eqn:E; simpl; [|exists [r]; split_and!; [done|done|by constructor|done]].
  destruct (Str.search_Some _ _ _ E) as (Hb & Heq & _).
  set (r' := Str.drop (n + Str.size rep) r) in *. set (q := Str.take n r) in *.
  assert (Str.size q = n) as Hq by (subst q; rewrite Str.size_take; lia).
  assert (Str.take (Str.size a + n) (a +:+ r) = a +:+ q) as ->.
  { rewrite Heq, <-Str.app_assoc, <-Hq, <-Str.size_app. apply Str.take_app_size. }
  assert (Str.drop (Str.size a + n + Str.size rep) (a +:+ r) = r') as ->.
  { rewrite <-Nat.add_assoc, <-Str.drop_drop, Str.drop_app_size. done. }
  destruct (IH (a +:+ q +:+ dst) r') as (ps & Hj & Hps & Hfree & Hres).
  { subst r'. rewrite Str.size_drop. lia. }
  exists (q :: ps). rewrite !Str.join_cons by done. rewrite <-Hj. split_and!; try done.
  - constructor; [by apply StringUtils.search_before|done].
  - replace (Str.size a + n + Str.size dst) with (Str.size (a +:+ q +:+ dst)) by (rewrite !Str.size_app; lia).
    rewrite !Str.app_assoc in Hres. rewrite !Str.app_assoc. by rewrite Hres.
Qed.

(** *** Suffixes *)

Lemma rfind_bound pat s n : rfind pat s = Some n -> n + Str.size pat <= Str.size s.
Proof.
  assert (forall t, String.prefix pat t = true -> Str.size pat <= Str.size t) as Hp.
  { intros t [r ->]%Str.prefix_app. rewrite Str.size_app. lia. }
  revert n. induction s as [|c s IH]; intros n H; cbn [rfind] in H.
  - destruct (String.prefix pat "") eqn:E; [|done]. injection H as <-. by apply Hp.
  - destruct (rfind pat s) as [m|]; [injection H as <-; specialize (IH m eq_refl); simpl; lia|].
    destruct (String.prefix pat (String c s)) eqn:E; [|done]. injection H as <-. by apply Hp.
Qed.

Lemma rfind_app pat s : Str.empty pat = false -> rfind pat (s +:+ pat) = Some (Str.size s).
Proof.
  intros Hp. induction s as [|c s IH].
  - destruct pat as [|c p]; [done|]. change ("" +:+ String c p) with (String c p). cbn [rfind].
    destruct (rfind (String c p) p) as [n|] eqn:E; [apply rfind_bound in E; simpl in E; lia|].
    assert (String.prefix (String c p) (String c p) = true) as ->; [|done].
    apply Str.prefix_app. exists EmptyString. by rewrite Str.app_nil_r.
  - change (String c s +:+ pat) with (String c (s +:+ pat)). cbn [rfind]. by rewrite IH.
Qed.

Lemma suffix_pos_app pat s : Str.empty pat = false -> suffix_pos pat (s +:+ pat) = Some (Str.size s).
Proof.
  intros Hp. unfold suffix_pos. rewrite rfind_app, Str.size_app by done.
  by destruct (Nat.ltb_spec (Str.size s) (Str.size s + Str.size pat - Str.size pat)); [lia|].
Qed.

(** *** ASCII output *)

Definition is_ascii (c : ascii) : bool := (N_of_ascii c <=? 0x7F)%N.

Lemma all_app p a b : all p (a +:+ b) = all p a && all p b.
Proof. induction a as [|c a IH]; [done|]. simpl. rewrite IH. apply andb_assoc. Qed.

Lemma all_take p n s : all p s = true -> all p (Str.take n s) = true.
Proof.
  revert n. induction s as [|c s IH]; intros [|n]; try done. simpl. intros [-> H]%andb_prop. simpl. by apply IH.
Qed.

Lemma all_drop p n s : all p s = true -> all p (Str.drop n s) = true.
Proof.
  revert n. induction s as [|c s IH]; intros [|n]; try done. simpl. intros [_ H]%andb_prop. by apply IH.
Qed.

Lemma all_mono (p q : ascii -> bool) s : (forall c, p c = true -> q c = true) -> all p s = true -> all q s = true.
Proof. intros Hpq. induction s as [|c s IH]; [done|]. simpl. intros [H1 H2]%andb_prop. by rewrite (Hpq c H1), IH. Qed.

Lemma span_all p s : all p (fst (span p s)) = true.
Proof. induction s as [|c s IH]; [done|]. simpl. destruct (p c) eqn:E; [|done]. destruct (span p s). simpl in *. by rewrite E. Qed.

Lemma is_word_ascii c : is_word c = true -> is_ascii c = true.
Proof.
  unfold is_word, is_ascii, in_range. destruct (Ascii.eqb_spec c "_") as [->|_]; [done|].
  destruct (N.leb_spec (N_of_ascii c) 0x7F); [done|]. intros H'. exfalso.
  rewrite !orb_true_iff, !andb_true_iff, !N.leb_le in H'. destruct H' as [[[H'|H']|H']|H']; [lia..|done].
Qed.

Lemma byte_loop_ascii input output m :
  all is_ascii output = true -> all is_ascii (byte_loop input output m) = true.
Proof.
  revert output m. induction input as [|b input IH]; intros output m Ho; [done|]. cbn [byte_loop].
  destruct (N.ltb_spec 0x7F (N_of_ascii b)) as [|Hle]; apply IH.
  - destruct m; [done|]. by rewrite all_app, Ho.
  - rewrite all_app, Ho. simpl. unfold is_ascii. by apply N.leb_le in Hle as ->.
Qed.

Lemma anonymous_word_ascii w f : all is_ascii w = true -> all is_ascii (fst (anonymous_word w f)) = true.
Proof.
  intros H. unfold anonymous_word. destruct (IsKeyword w); [done|]. destruct (all is_hex w); cbn [fst].
  - unfold AnonymousDigits, Str.substr_from. destruct (_ <? _); [by destruct f|].
    destruct (_ =? _); rewrite all_app, all_drop; done.
  - unfold GetAnonymousName, Str.substr. destruct (Str.empty w); [done|].
    destruct (_ <=? _); [rewrite all_app, all_take by (by apply all_drop); done|].
    destruct (_ <? _); rewrite !all_app, !all_take by (by apply all_drop); done.
Qed.

Lemma sql_loop_ascii fuel sql f : all is_ascii (sql_loop fuel sql f) = true.
Proof.
  revert sql f. induction fuel as [|fuel IH]; intros sql f; [done|]. cbn [sql_loop].
  destruct (span _ sql) as [gap rest]. destruct rest as [|c rest]; [by apply byte_loop_ascii|].
  pose proof (span_all is_word (String c rest)) as Hw. destruct (span is_word (String c rest)) as [w rest'].
  pose proof (anonymous_word_ascii w f) as Ha. destruct (anonymous_word w f) as [out f'].
  rewrite !all_app, IH. unfold ByteAnonymous. rewrite byte_loop_ascii by done.
  simpl in *. rewrite Ha; [done|]. by eapply all_mono, Hw; exact is_word_ascii.
Qed.

(** *** The fuel of [SqlAnonymous] is enough *)

Lemma span_size p s : Str.size (fst (span p s)) + Str.size (snd (span p s)) = Str.size s.
Proof. induction s as [|c s IH]; [done|]. simpl. destruct (p c); [|done]. destruct (span p s). simpl in *. lia. Qed.

Lemma span_stop p s c r : snd (span p s) = String c r -> p c = false.
Proof.
  induction s as [|x s IH]; [done|]. simpl. destruct (p x) eqn:E; [|by intros [= <- <-]].
  destruct (span p s). simpl in *. done.
Qed.

Lemma sql_loop_fuel f1 f2 sql b :
  Str.size sql < f1 -> Str.size sql < f2 -> sql_loop f1 sql b = sql_loop f2 sql b.
Proof.
  revert f2 sql b. induction f1 as [|f1 IH]; intros [|f2] sql b H1 H2; try lia. cbn [sql_loop].
  pose proof (span_size (fun c => negb (is_word c)) sql) as Hs.
  pose proof (span_stop (fun c => negb (is_word c)) sql) as Hstop.
  destruct (span _ sql) as [gap rest]. simpl in Hs, Hstop. destruct rest as [|c rest]; [done|].
  specialize (Hstop c rest eq_refl). apply negb_false_iff in Hstop.
  pose proof (span_size is_word (String c rest)) as Hw. cbn [span] in *. rewrite Hstop in *.
  destruct (span is_word rest) as [w rest']. simpl in Hs, Hw.
  destruct (anonymous_word _ b) as [out b']. rewrite (IH f2); [done|lia..].
Qed.

End SqliteUtils.

(** ** Properties *)

Module StringProps.
Import StringUtils SqliteUtils.

(** with a non-empty delimiter [Split] terminates (as many rounds as characters are
    enough) and returns pieces that do not contain the delimiter and join to the text, except
    that a delimiter at the very end adds no empty piece. *)
Theorem split_pieces (str delim : string) (fuel : nat)
  (Hd : Str.empty delim = false) (Hf : Str.size str < fuel) :
  exists ps, Split fuel str delim = Some ps /\
    (str = Str.join delim ps \/ str = Str.join delim ps +:+ delim) /\
    Forall (fun x => Str.search delim x = None) ps.
Proof.
  destruct (split_loop_spec fuel str delim 0 [] Hd ltac:(lia)) as (ps & Hs & Hj & Hp & _).
  exists ps. split; [exact Hs|]. by destruct str.
Qed.

Lemma split_pieces_witness :
  exists ps, Split 9 "a,b,,cd," "," = Some ps /\
    ("a,b,,cd," = Str.join "," ps \/ "a,b,,cd," = Str.join "," ps +:+ ",") /\
    Forall (fun x => Str.search "," x = None) ps.
Proof. apply (split_pieces "a,b,,cd," "," 9); [reflexivity|simpl; lia]. Defined.

(** With an empty delimiter the loop of [Split] never ends on a non-empty
    text. *)
Theorem split_empty_delim_diverges (str : string) (Hs : Str.empty str = false) :
  forall fuel, Split fuel str EmptyString = None.
Proof. intros fuel. apply split_loop_stuck. destruct str; simpl in *; [done|lia]. Qed.

Lemma split_empty_delim_diverges_witness : forall fuel, Split fuel "ab" EmptyString = None.
Proof. exact (split_empty_delim_diverges "ab" eq_refl). Defined.

(** A full file name is its path followed by its name; the name has no separator. *)
Theorem path_and_name (f : string) :
  ExtractFilePath f +:+ ExtractFileName f = f /\ Str.count "/" (ExtractFileName f) = 0.
Proof.
  unfold ExtractFilePath, ExtractFileName, Str.substr. simpl Str.drop. split.
  - rewrite (Str.take_all (Str.size f)) by (rewrite Str.size_drop; lia). apply Str.take_drop.
  - rewrite Str.take_all by (rewrite Str.size_drop; lia). unfold after_slash.
    induction f as [|c f IH]; [done|]. cbn [Str.find_last].
    destruct (Str.find_last (Ascii.eqb "/") f) as [n|]; [exact IH|].
    cbn [Str.drop] in IH. destruct (Ascii.eqb_spec "/" c) as [<-|Hne]; cbn [Str.drop Str.count].
    + exact IH.
    + destruct (Ascii.eqb_spec "/" c); [done|exact IH].
Qed.

(** the binary searches of [IsKeyword] decide membership of the upper-cased word in
    the two keyword tables. *)
Theorem keyword_lookup (word : string) (Hn : nul_free word) :
  IsKeyword word = true <-> StrToUpper word ∈ SQL_KEYWORD ++ WHILE_KEYWORDS.
Proof.
  assert (nul_free (StrToUpper word)) as Hu.
  { revert Hn. unfold nul_free. induction word as [|c w IH]; [done|]. cbn [Str.count StrToUpper Str.map].
    destruct (Ascii.eqb_spec "000" c) as [|Hne]; [done|]. intros H.
    destruct (Ascii.eqb_spec "000" (Str.toupper c)) as [E|_]; [|apply IH; lia].
    destruct c as [[] [] [] [] [] [] [] []]; vm_compute in E; congruence. }
  unfold IsKeyword. rewrite (c_str_id _ Hu), orb_true_iff, elem_of_app.
  rewrite !IsMatchKeyword_spec; try done.
  all: apply (bool_decide_unpack _); vm_compute; exact I.
Qed.

Lemma keyword_lookup_witness :
  IsKeyword "Select" = true <-> StrToUpper "Select" ∈ SQL_KEYWORD ++ WHILE_KEYWORDS.
Proof. apply (keyword_lookup "Select"). reflexivity. Defined.

(** The type the table gives to a three-letter prefix. *)
Definition table_type (w : string) : Z :=
  match list_find (fun t => fst t = w) SQL_TYPE_MAP with
  | Some (_, t) => snd t
  | None => STATEMENT_OTHER
  end.

Definition blank (c : ascii) : bool := isspace c || iscntrl c.

Lemma find_first_skip pre c s :
  all blank pre = true -> blank c = false ->
  Str.find_first (fun ch => negb (isspace ch) && negb (iscntrl ch)) (pre +:+ String c s) = Some (Str.size pre).
Proof.
  intros Hp Hc. induction pre as [|x pre IH]; cbn [String.append Str.find_first].
  - rewrite <-negb_orb. fold (blank c). by rewrite Hc.
  - cbn [all] in Hp. apply andb_prop in Hp as [Hx Hp]. rewrite <-negb_orb. fold (blank x). rewrite Hx. simpl.
    by rewrite IH.
Qed.

(** a statement is classified by the table entry of its first three letters, in
    any case, after leading blanks and control characters; a prefix that is not in the table
    gives [STATEMENT_OTHER]. *)
Theorem statement_type_lookup (pre rest : string) (c1 c2 c3 c4 : ascii)
  (Hpre : all blank pre = true) (Hc : blank c1 = false)
  (Hn : nul_free (StrToUpper (String c1 (String c2 (String c3 EmptyString))))) :
  GetSqlStatementType (pre +:+ String c1 (String c2 (String c3 (String c4 rest)))) =
  table_type (StrToUpper (String c1 (String c2 (String c3 EmptyString)))).
Proof.
  unfold GetSqlStatementType. rewrite find_first_skip by done. rewrite Str.size_app.
  destruct (Nat.leb_spec (Str.size pre + Str.size (String c1 (String c2 (String c3 (String c4 rest))))) (Str.size pre + 3));
    [simpl in *; lia|].
  unfold Str.substr. rewrite Str.drop_app_size. cbn [Str.take].
  set (w := StrToUpper _) in *. rewrite (c_str_id _ Hn).
  destruct (lower_bound_lookup fst SQL_TYPE_MAP w) as [Hin Hge]; [vm_compute; done| |done|].
  { apply (bool_decide_unpack _). vm_compute. exact I. }
  assert (Forall nul_free SQL_TYPE_MAP.*1) as Hk by (apply (bool_decide_unpack _); vm_compute; exact I).
  unfold table_type. destruct (list_find (fun t => fst t = w) SQL_TYPE_MAP) as [[j [k ty]]|] eqn:E.
  - apply list_find_Some in E as (Hj & Hkw & _). rewrite (Hin (k, ty)); [|by eapply list_elem_of_lookup_2|done].
    simpl in Hkw. subst k. destruct (WordCompare_spec w w) as [-> _]; [done..|]. by rewrite Str.ltb_irrefl.
  - destruct (SQL_TYPE_MAP !! _) as [[k ty]|] eqn:El; [|done].
    specialize (Hge _ eq_refl). apply list_elem_of_lookup_2 in El.
    assert (nul_free k) as Hnk by (rewrite Forall_fmap, Forall_forall in Hk; by apply (Hk (k, ty))).
    simpl in Hge. destruct (WordCompare_spec w k) as [-> _]; [done..|].
    destruct (WordCompare_spec k w) as [Hl _]; [done..|]. rewrite Hl in Hge.
    destruct (Str.ltb w k) eqn:Hw; [done|]. exfalso.
    apply list_find_None in E. rewrite Forall_forall in E. apply (E _ El). simpl. by apply Str.ltb_total.
Qed.

Lemma statement_type_lookup_witness :
  GetSqlStatementType ("  " +:+ "select 1") = table_type "SEL".
Proof. apply (statement_type_lookup "  " "ect 1" "s" "e" "l" "e"); reflexivity. Defined.

(** A text of exactly three letters is refused, although the comment in the code
    says that only a text shorter than three letters cannot be a statement: [END], which the
    table lists as a commit, is an error while [END;] is a commit. *)
Theorem statement_type_three_letters :
  GetSqlStatementType "END" = STATEMENT_ERROR /\ table_type "END" = STATEMENT_COMMIT /\
  GetSqlStatementType "END;" = STATEMENT_COMMIT /\
  forall c1 c2 c3, GetSqlStatementType (String c1 (String c2 (String c3 EmptyString))) = STATEMENT_ERROR.
Proof.
  do 3 (split; [reflexivity|]). intros c1 c2 c3. unfold GetSqlStatementType.
  destruct (Str.find_first _ _) as [n|]; [|done].
  by destruct (Nat.leb_spec (Str.size (String c1 (String c2 (String c3 EmptyString)))) (n + 3)); [|simpl in *; lia].
Qed.

(** [Replace] terminates for a non-empty pattern and replaces exactly the
    occurrences found from left to right: the source is the pieces between them joined by the
    pattern, and the result the same pieces joined by the replacement. *)
Theorem replace_pieces (src rep dst : string) (fuel : nat)
  (Hs : Str.empty src = false) (Hr : Str.empty rep = false) (Hf : Str.size src < fuel) :
  exists ps, src = Str.join rep ps /\ Forall (fun x => Str.search rep x = None) ps /\
    Replace fuel src rep dst = Some (Str.join dst ps).
Proof.
  destruct (replace_loop_spec fuel EmptyString src rep dst Hr Hf) as (ps & Hj & _ & Hp & H).
  exists ps. split; [done|]. split; [done|]. unfold Replace. by rewrite Hs, Hr.
Qed.

Lemma replace_pieces_witness :
  exists ps, "#_a#_b" = Str.join "#_" ps /\ Forall (fun x => Str.search "#_" x = None) ps /\
    Replace 7 "#_a#_b" "#_" "log." = Some (Str.join "log." ps).
Proof. apply (replace_pieces "#_a#_b" "#_" "log." 7); [reflexivity|reflexivity|simpl; lia]. Defined.

(** The slave path of a database is recognised as one, whatever the name; for a name
    with the [.db] suffix the suffix is replaced, so different bases have different slaves. *)
Theorem slave_path (name base : string) :
  IsSlaveDbName (GetSlavePath name) = true /\
  GetSlavePath (base +:+ ".db") = base +:+ "_slave.db" /\
  GetMasterBackupPath (base +:+ ".db") = base +:+ "_master_corrupted.db" /\
  RemoveSuffix (base +:+ ".db") = base.
Proof.
  assert (forall s, IsSlaveDbName (s +:+ "_slave.db") = true) as H.
  { intros s. unfold IsSlaveDbName. rewrite rfind_app, Str.size_app by done.
    destruct (Nat.ltb_spec (Str.size s + Str.size "_slave.db") (Str.size "_slave.db")); [lia|].
    apply Nat.eqb_eq. lia. }
  unfold GetSlavePath, GetMasterBackupPath, RemoveSuffix. rewrite !suffix_pos_app by done.
  unfold Str.substr. simpl Str.drop. rewrite Str.take_app_size. split; [|done].
  destruct (suffix_pos ".db" name); apply H.
Qed.

(** The anonymised form of a name of nine or more characters depends only on its
    first and last three characters, and that of a name of four to eight only on its first
    three. *)
Theorem anonymous_name_hides (a b : string)
  (Hhead : Str.take 3 a = Str.take 3 b)
  (Hsize : (3 < Str.size a < 9 /\ 3 < Str.size b < 9) \/
           (9 <= Str.size a /\ 9 <= Str.size b /\
            Str.drop (Str.size a - 3) a = Str.drop (Str.size b - 3) b)) :
  GetAnonymousName a = GetAnonymousName b.
Proof.
  assert (forall s, 3 < Str.size s -> GetAnonymousName s =
    if Str.size s <? 9 then Str.take 3 s +:+ "***"
    else Str.take 3 s +:+ "***" +:+ Str.drop (Str.size s - 3) s) as H.
  { intros s Hs. unfold GetAnonymousName, MIN_SIZE, HEAD_SIZE, END_SIZE, Str.substr.
    destruct s as [|c s]; [simpl in Hs; lia|]. cbn [Str.empty].
    destruct (Nat.leb_spec (Str.size (String c s)) 3); [lia|].
    rewrite (Str.take_all 3 (Str.drop (Str.size (String c s) - 3) _)) by (rewrite Str.size_drop; lia). done. }
  destruct Hsize as [[H1 H2]|(H1 & H2 & Ht)]; rewrite !H by lia;
    destruct (Nat.ltb_spec (Str.size a) 9), (Nat.ltb_spec (Str.size b) 9); try lia; by rewrite Hhead, ?Ht.
Qed.

Lemma anonymous_name_hides_witness :
  GetAnonymousName "customer_table" = GetAnonymousName "cusXXXX_secret_ble".
Proof.
  apply (anonymous_name_hides "customer_table" "cusXXXX_secret_ble"); [reflexivity|].
  right. split; [simpl; lia|]. split; [simpl; lia|reflexivity].
Defined.

(** Whatever bytes a statement contains, its anonymised form for the log is
    plain ASCII; the scan ends with the text, more rounds change nothing. *)
Theorem sql_anonymous_ascii (sql : string) :
  all is_ascii (SqlAnonymous sql) = true /\
  forall n, sql_loop (S (Str.size sql) + n) sql false = SqlAnonymous sql.
Proof. split; [apply sql_loop_ascii|]. intros n. apply sql_loop_fuel; lia. Qed.

End StringProps.
