(* ===== verification/Security.v ===== *)
(** * Keys of encrypted databases

    [Crypt]: frameworks/native/rdb_crypt/relational_store_crypt.cpp over the class [Huks], the
    functions of the key service of the system that are called.
    [RdbPassword] and [SecurityManager]: frameworks/native/rdb/src/rdb_security_manager.cpp, with
    the file functions of sqlite_utils.cpp over the class [Files].
    [KeyLaws]: what the manuals of both say, and lemmas.
    [SmallKeys]: an instance.
    [SecurityProps]: the theorems.

    Operations on the key files of one database run under the lock of that database, so they are
    modelled one at a time; the lock file itself is left out. *)
From Stdlib Require Import ZArith Lia Ascii.
From stdpp Require Import base gmap list strings pretty.
From coqutil Require Import Datatypes.RecordSetters.
Import OCamlLikeNotations.
From S2P Require Import Prelude CppStd Errno Values StringUtils.

Local Open Scope Z_scope.
Import Run.
#[local] Arguments constant {E} newValue _ /.

Module Huks.

(** What a session is for: [HKS_KEY_PURPOSE_ENCRYPT] with a nonce, or [HKS_KEY_PURPOSE_DECRYPT]
    with a nonce and the tag of the message. *)
Inductive purpose := ENCRYPT (nonce : list Z) | DECRYPT (nonce tag : list Z).

Definition HKS_SUCCESS : Z := 0.
Definition HKS_FAILURE : Z := -1.
Definition HKS_ERROR_NOT_EXIST : Z := -13.
Definition HKS_ERROR_CODE_KEY_ALREADY_EXIST : Z := -167.

(** [ParamSet] stands for the calls that initialise, fill and build a parameter set, of which
    the first that fails decides; the functions on keys include the one for their parameters.
    [HMAC] is [HMAC] of OpenSSL with SHA-256 and an empty key, [dlopen] and [dlsym] load the
    library of [Crypt]. *)
Class Huks (W : Type) := {
  handle : Type;
  ParamSet : purpose -> W -> Z * W;
  HksGenerateKey : list Z -> W -> Z * W;
  HksKeyExist : list Z -> W -> Z * W;
  HksGenerateRandom : nat -> W -> (Z * list Z) * W;
  HksInit : list Z -> purpose -> W -> (Z * handle) * W;
  HksUpdate : handle -> list Z -> W -> (Z * list Z) * W;
  HksFinish : handle -> list Z -> W -> (Z * list Z) * W;
  HMAC : list Z -> list Z;
  dlopen : W -> bool * W;
  dlsym : string -> W -> bool
}.

End Huks.

Module Crypt.
Import Huks.

Definition TIMES : Z := 4.
Definition MAX_UPDATE_SIZE : Z := 64.
Definition AEAD_LEN : Z := 16.
Definition RETRY_MAX_TIMES : nat := 5.

(** A pointer to [off] in a buffer, read for [n] bytes. *)
Definition read {W} (buf : list Z) (off n : Z) : run W (list Z) :=
  if (0 <=? off) && (off + n <=? Z.of_nat (length buf)) then ret (take (Z.to_nat n) (drop (Z.to_nat off) buf))
  else undefined.

Section Ops.
Context {W : Type} `{Huks W}.

(** The end of [HksLoopUpdate]: the last piece. *)
Definition finish (h : handle) (buf : list Z) (off size : Z) (out : list Z) : run W (option (list Z)) :=
  let! x := read buf off size in
  let! (result, o) := call (HksFinish h x) in
  ret (if result =? HKS_SUCCESS then Some (out ++ o) else None).

(** The loop of [HksLoopUpdate]: [buf] is the memory at [inData->data], [size] is
    [inData->size], [off] is [input.data - inData->data]. *)
Fixpoint update_loop (fuel : nat) (h : handle) (buf : list Z) (size off : Z) (out : list Z) : run W (option (list Z)) :=
  match fuel with
  | O => undefined
  | S fuel' =>
      if size - 1 <? off then finish h buf off MAX_UPDATE_SIZE out
      else if size - 1 <? off + MAX_UPDATE_SIZE then finish h buf off (size - 1 - off + 1) out
      else
        let! x := read buf off MAX_UPDATE_SIZE in
        let! (result, o) := call (HksUpdate h x) in
        if result =? HKS_SUCCESS then update_loop fuel' h buf size (off + MAX_UPDATE_SIZE) (out ++ o) else ret None
  end.

(** [outSize] is [outData->size]; [None] is every error. *)
Definition HksLoopUpdate (h : handle) (buf : list Z) (size outSize : Z) : run W (option (list Z)) :=
  if outSize <? Int.u32 (size * TIMES) then ret None
  else update_loop (S (length buf)) h buf size 0 [].

(** [HksEncryptThreeStage] and [HksDecryptThreeStage]. *)
Definition ThreeStage (keyAlias : list Z) (p : purpose) (buf : list Z) (size outSize : Z) : run W (option (list Z)) :=
  let! (result, h) := call (HksInit keyAlias p) in
  if result =? HKS_SUCCESS then HksLoopUpdate h buf size outSize else ret None.

Definition out_size (size : Z) : Z := Int.u32 (size * TIMES + 1).

Definition Encrypt (rootAlias : list Z) (nonce keyValue : list Z) : run W (list Z) :=
  let size := Int.u32 (Z.of_nat (length keyValue)) in
  let! r := call (ParamSet (ENCRYPT nonce)) in
  if negb (r =? HKS_SUCCESS) then ret []
  else
    let! c := ThreeStage rootAlias (ENCRYPT nonce) keyValue size (out_size size) in
    ret (default [] c).

Definition Decrypt (rootAlias : list Z) (nonce source : list Z) : run W (list Z) :=
  let size := Int.u32 (Z.of_nat (length source) - AEAD_LEN) in
  let! tag := read source (Z.of_nat (length source) - AEAD_LEN) AEAD_LEN in
  let! r := call (ParamSet (DECRYPT nonce tag)) in
  if negb (r =? HKS_SUCCESS) then ret []
  else
    let! p := ThreeStage rootAlias (DECRYPT nonce tag) source size (out_size size) in
    ret (default [] p).

Definition GenerateRootKey (rootKeyAlias : list Z) : run W Z :=
  let! r := call (HksGenerateKey rootKeyAlias) in
  ret (if r =? HKS_ERROR_CODE_KEY_ALREADY_EXIST then HKS_SUCCESS else r).

(** The retries of [Init] on a new object; [last] is the result so far. *)
Fixpoint init_loop (tries : nat) (rootAlias : list Z) (last : Z) : run W Z :=
  match tries with
  | O => ret last
  | S tries' =>
      let! r := GenerateRootKey rootAlias in
      if r =? HKS_SUCCESS then ret r else init_loop tries' rootAlias r
  end.

Definition Init (rootAlias : list Z) : run W Z := init_loop RETRY_MAX_TIMES rootAlias HKS_FAILURE.

Fixpoint exists_loop (tries : nat) (rootAlias : list Z) : run W bool :=
  match tries with
  | O => ret false
  | S tries' =>
      let! r := call (HksKeyExist rootAlias) in
      if r =? HKS_SUCCESS then ret true
      else if r =? HKS_ERROR_NOT_EXIST then ret false
      else exists_loop tries' rootAlias
  end.

Definition RootKeyExists (rootAlias : list Z) : run W bool := exists_loop RETRY_MAX_TIMES rootAlias.

Definition GenerateRandomNum (len : nat) : run W (list Z) :=
  let! (r, value) := call (HksGenerateRandom len) in
  ret (if negb (r =? HKS_SUCCESS) || (length value =? 0)%nat then [] else value).

End Ops.
End Crypt.

Module RdbPassword.

Definition MAX_PASSWORD_SIZE : nat := 128.
Definition UCHAR_MAX : Z := 255.

Record t := { data_ : list Z; size_ : nat }.

(** The constructor: only the first byte of the array has an initialiser. *)
Definition new : t := {| data_ := UCHAR_MAX :: replicate (MAX_PASSWORD_SIZE - 1) 0; size_ := 0 |}.

(** [operator==]. *)
Definition eqb (p input : t) : bool :=
  (size_ p =? size_ input)%nat && bool_decide (take (size_ p) (data_ p) = take (size_ p) (data_ input)).

(** [SetValue(inputData, inputData.size())]. *)
Definition SetValue (inputData : list Z) (p : t) : errno * t :=
  let inputSize := length inputData in
  if (MAX_PASSWORD_SIZE <? inputSize)%nat then (E_ERROR, p)
  else
    let data := inputData ++ drop inputSize (data_ p) in
    let filledSize := (size_ p `min` MAX_PASSWORD_SIZE)%nat in
    (E_OK, {| data_ := if (inputSize <? filledSize)%nat
                       then take inputSize data ++ replicate (filledSize - inputSize) UCHAR_MAX ++ drop filledSize data
                       else data;
              size_ := inputSize |}).

Definition Clear (p : t) : errno * t := SetValue [] p.

Definition IsValid (p : t) : bool := negb (size_ p =? 0)%nat.

(** [vector(p.GetData(), p.GetData() + p.GetSize())]. *)
Definition value (p : t) : list Z := take (size_ p) (data_ p).

End RdbPassword.

Module Files.

(** Files of the system.  [open_create] is [open] with [O_CREAT] and [close], [remove] gives the
    error number of a failure; [mkdir] and [rename] answer whether they succeeded. *)
Class Files (W : Type) := {
  stat_size : string -> W -> option Z;
  LoadBufferFromFile : string -> W -> option (list Z);
  open_create : string -> W -> bool * W;
  SaveBufferToFile : string -> list Z -> W -> bool * W;
  remove : string -> W -> option Z * W;
  rename : string -> string -> W -> bool * W;
  access : string -> W -> bool;
  MkDir : string -> W -> option Z * W
}.

Definition ENOENT : Z := 2.
Definition EEXIST : Z := 17.

Section Utils.
Context {W : Type} `{Files W}.

Definition IsFileEmpty (filePath : string) (w : W) : bool :=
  match stat_size filePath w with None => true | Some n => n =? 0 end.

Definition IsFilesEmpty (filePaths : list string) (w : W) : bool := forallb (fun p => IsFileEmpty p w) filePaths.

Definition DeleteFile (filePath : string) (w : W) : bool * W :=
  let '(err, w) := remove filePath w in
  (match err with None => true | Some e => e =? ENOENT end, w).

Fixpoint DeleteFiles (filePaths : list string) (w : W) : bool * W :=
  match filePaths with
  | [] => (true, w)
  | p :: rest => let '(ok, w) := DeleteFile p w in if ok then DeleteFiles rest w else (false, w)
  end.

Definition RenameFile (srcFile destFile : string) (w : W) : bool * W := rename srcFile destFile w.

End Utils.
End Files.

Module SecurityManager.
Import Huks Files.

Definition CURRENT_VERSION : Z := 2.
Definition NONCE_VALUE_SIZE : nat := 12.
Definition MAGIC_NUMBER : Z := 0x6B6B6B6B.
Definition RDB_KEY_SIZE : nat := 32.
Definition HMAC_SIZE : nat := 8.
Definition AEAD_LEN : Z := 16.
Definition TIME_SIZE : nat := 8.
Definition RDB_HKS_BLOB_TYPE_NONCE : string := "Z5s0Bo571Koq".
Definition RDB_ROOT_KEY_ALIAS : string := "DistributedDataRdb".

Record RdbSecretKeyData := { kd_version : Z; timeValue : Z; secretKey : list Z }.
Record RdbSecretContent := { magicNum : Z; version : Z; nonce_ : list Z; encrypt_ : list Z }.

Definition no_key : RdbSecretKeyData := {| kd_version := CURRENT_VERSION; timeValue := 0; secretKey := [] |}.
Definition no_content : RdbSecretContent :=
  {| magicNum := MAGIC_NUMBER; version := CURRENT_VERSION; nonce_ := []; encrypt_ := [] |}.

(** [handle_] and [rdbCrypto_]: whether the pointer is not null. *)
Record t := { handle_ : bool; rdbCrypto_ : bool; bundleNames_ : OMap.smap unit }.

Definition new : t := {| handle_ := false; rdbCrypto_ := false; bundleNames_ := [] |}.

Inductive KeyFileType := PUB_KEY_FILE | PUB_KEY_FILE_NEW_KEY.

(** ** File names *)

Definition PUB_KEY_SUFFIX (type : KeyFileType) : string :=
  match type with PUB_KEY_FILE => ".pub_key_v2" | PUB_KEY_FILE_NEW_KEY => ".pub_key_v2.new" end.

(** [OLD_PUB_KEY_SUFFIXES] and [OLD_PUB_NEW_KEY_SUFFIXES]. *)
Definition old_suffixes (type : KeyFileType) : list string :=
  match type with
  | PUB_KEY_FILE => [".pub_key"; ".pub_key_v1"]
  | PUB_KEY_FILE_NEW_KEY => [".pub_key.new"; ".pub_key.new"]
  end.

Definition dbKeyDir (dbPath : string) : string := StringUtils.ExtractFilePath dbPath +:+ "key/".
Definition dbName (dbPath : string) : string := SqliteUtils.RemoveSuffix (StringUtils.ExtractFileName dbPath).

(** [KeyFiles(dbPath).GetKeyFile(type)]. *)
Definition GetKeyFile (dbPath : string) (type : KeyFileType) : string :=
  dbKeyDir dbPath +:+ dbName dbPath +:+ PUB_KEY_SUFFIX type.

Definition old_key_paths (dbPath : string) (type : KeyFileType) : list string :=
  (fun suffix => dbKeyDir dbPath +:+ dbName dbPath +:+ suffix) <$> old_suffixes type.

(** ** Keys and their encrypted form *)

Section Ops.
Context {W : Type} `{Huks W} `{Files W}.
Abbreviation op := (run (t * W)).

Definition rootAlias_ : list Z := Value.bytes_of_string RDB_ROOT_KEY_ALIAS.

(** An operation of [Crypt] or of the system. *)
Definition lift {A} (m : run W A) : op A :=
  fun s => match m s.2 with Some (a, w) => Some (a, (s.1, w)) | None => None end.

Definition GetHandle : op bool :=
  fun s => if handle_ s.1 then Some (true, s)
           else let '(ok, w) := dlopen s.2 in Some (ok, ({s.1 with handle_ := ok}, w)).

(** The delegate for an alias is the alias; the answer is whether there is one. *)
Definition CreateDelegate : op bool :=
  let! handle := GetHandle in
  if handle then get (fun s => dlsym "CreateRdbCryptoDelegate" s.2) else ret false.

Definition GetDelegate : op bool :=
  fun s => if rdbCrypto_ s.1 then Some (true, s)
           else (let! created := CreateDelegate in
                 if created then
                   let! r := lift (Crypt.Init rootAlias_) in
                   fun s => Some (r =? HKS_SUCCESS, ({s.1 with rdbCrypto_ := r =? HKS_SUCCESS}, s.2))
                 else ret false) s.

Definition SetBundleName (bundleName : string) : op unit :=
  fun s => Some (tt, ({s.1 with bundleNames_ := OMap.insert Str.ltb bundleName tt (bundleNames_ s.1)}, s.2)).

Definition Init (bundleName : string) : op errno :=
  let! rdbCrypto := GetDelegate in
  if rdbCrypto then
    let! _ := (if Str.empty bundleName then ret tt else SetBundleName bundleName) in
    ret E_OK
  else ret E_ERROR.

Definition GenerateRandomNum (len : nat) : op (list Z) :=
  let! handle := GetHandle in
  if handle then
    let! found := get (fun s => dlsym "GenerateRdbRandomNum" s.2) in
    if found then lift (Crypt.GenerateRandomNum len) else ret []
  else ret [].

Definition EncryptWorkKey (key : list Z) : op (bool * RdbSecretContent) :=
  let! rdbCrypto := GetDelegate in
  if rdbCrypto then
    let! nonce := GenerateRandomNum NONCE_VALUE_SIZE in
    match nonce with
    | [] => ret (false, no_content)
    | _ =>
        let! encryptKey := lift (Crypt.Encrypt rootAlias_ nonce key) in
        ret (true, {no_content with nonce_ := nonce; encrypt_ := encryptKey})
    end
  else ret (false, no_content).

(** The delegates of the bundles that were named before. *)
Fixpoint bundles_loop (key nonce : list Z) (names : list string) : op (list Z) :=
  match names with
  | [] => ret []
  | bundleName :: rest =>
      let rootKeyAlias := rootAlias_ ++ Value.bytes_of_string bundleName in
      let! created := CreateDelegate in
      let! usable := (if created then lift (Crypt.RootKeyExists rootKeyAlias) else ret false) in
      if usable then
        let! decryptKey := lift (Crypt.Decrypt rootKeyAlias nonce key) in
        match decryptKey with [] => bundles_loop key nonce rest | _ => ret decryptKey end
      else bundles_loop key nonce rest
  end.

Definition DecryptWorkKey (key nonce : list Z) : op (list Z) :=
  let! rdbCrypto := GetDelegate in
  if rdbCrypto then
    let! decryptKey := lift (Crypt.Decrypt rootAlias_ nonce key) in
    match decryptKey with
    | [] => let! names := get (fun s => (bundleNames_ s.1).*1) in bundles_loop key nonce names
    | _ => ret decryptKey
    end
  else ret [].

(** ** The formats of key files *)

Definition GenerateHMAC (data : list Z) : list Z :=
  take HMAC_SIZE (HMAC data) ++ replicate (HMAC_SIZE - length (HMAC data)) 0.

(** The bytes [SaveSecretKeyToDisk] writes. *)
Definition package (c : RdbSecretContent) : list Z :=
  let payload := version c :: nonce_ c ++ encrypt_ c in
  payload ++ GenerateHMAC payload.

Definition Unpack (content : list Z) : bool * RdbSecretContent :=
  if (length content <=? HMAC_SIZE)%nat then (false, no_content)
  else
    let originalData := take (length content - HMAC_SIZE) content in
    if (length originalData <=? 1 + NONCE_VALUE_SIZE)%nat then (false, no_content)
    else (true, {no_content with version := nth 0 originalData 0;
                                 nonce_ := take NONCE_VALUE_SIZE (drop 1 originalData);
                                 encrypt_ := drop (1 + NONCE_VALUE_SIZE) originalData}).

Definition UnpackV0 (content : list Z) : bool * RdbSecretContent :=
  (true, {no_content with version := 0; nonce_ := Value.bytes_of_string RDB_HKS_BLOB_TYPE_NONCE; encrypt_ := content}).

Definition UnpackV1 (content : list Z) : bool * RdbSecretContent :=
  let size := length content in
  if (size <=? 4)%nat then (false, no_content)
  else
    let c := {no_content with magicNum := Bytes.le_join (take 4 content)} in
    if (size <=? 4 + NONCE_VALUE_SIZE)%nat then (false, c)
    else (true, {c with nonce_ := take NONCE_VALUE_SIZE (drop 4 content); encrypt_ := drop (4 + NONCE_VALUE_SIZE) content}).

(** The header that [DecryptV0] and [DecryptV1] read: a version, a time, and what follows. *)
Definition key_header (value : list Z) : option (RdbSecretKeyData * list Z) * RdbSecretKeyData :=
  let size := length value in
  if (size <=? 1)%nat then (None, no_key)
  else
    let d := {no_key with kd_version := nth 0 value 0} in
    if (size <=? 1 + TIME_SIZE)%nat then (None, d)
    else
      let d := {d with timeValue := Int.i64 (Bytes.le_join (take TIME_SIZE (drop 1 value)))} in
      if Z.of_nat size <=? Z.of_nat (1 + TIME_SIZE) + AEAD_LEN then (None, d)
      else (Some (d, drop (1 + TIME_SIZE) value), d).

Definition DecryptV0 (content : RdbSecretContent) : op (bool * RdbSecretKeyData) :=
  match key_header (encrypt_ content) with
  | (None, d) => ret (false, d)
  | (Some (d, key), _) =>
      let! secret := DecryptWorkKey key (nonce_ content) in ret (true, {d with secretKey := secret})
  end.

Definition DecryptV1 (content : RdbSecretContent) : op (bool * RdbSecretKeyData) :=
  let! value := DecryptWorkKey (encrypt_ content) (nonce_ content) in
  ret (match key_header value with
       | (None, d) => (false, d)
       | (Some (d, key), _) => (true, {d with secretKey := key})
       end).

Definition Decrypt (content : RdbSecretContent) : op (bool * RdbSecretKeyData) :=
  let! value := DecryptWorkKey (encrypt_ content) (nonce_ content) in
  ret (match value with [] => (false, no_key) | _ => (true, {no_key with secretKey := value}) end).

(** ** Key files *)

Definition SaveSecretKeyToDisk (keyPath : string) (c : RdbSecretContent) : op bool :=
  lift (let! opened := call (open_create keyPath) in
        if opened then call (SaveBufferToFile keyPath (package c)) else ret false).

Definition SaveSecretKeyToFile (keyFile : string) (workKey : list Z) : op bool :=
  let! key := (match workKey with [] => GenerateRandomNum RDB_KEY_SIZE | _ => ret workKey end) in
  match key with
  | [] => ret false
  | _ =>
      let! (res, secretContent) := EncryptWorkKey key in
      if negb res || (length (encrypt_ secretContent) =? 0)%nat then ret false
      else SaveSecretKeyToDisk keyFile secretContent
  end.

Definition LoadSecretKeyFromDiskV0 (keyPath : string) : op (bool * RdbSecretKeyData) :=
  let! empty := get (fun s => IsFileEmpty keyPath s.2) in
  if empty then ret (false, no_key)
  else
    let! content := get (fun s => LoadBufferFromFile keyPath s.2) in
    match content with
    | None => ret (false, no_key)
    | Some content => DecryptV0 (UnpackV0 content).2
    end.

Definition LoadSecretKeyFromDiskV1 (keyPath : string) : op (bool * RdbSecretKeyData) :=
  let! empty := get (fun s => IsFileEmpty keyPath s.2) in
  if empty then ret (false, no_key)
  else
    let! content := get (fun s => LoadBufferFromFile keyPath s.2) in
    match content with
    | None => ret (false, no_key)
    | Some content => let '(res, c) := UnpackV1 content in if res then DecryptV1 c else ret (false, no_key)
    end.

Definition LoadSecretKeyFromDisk (keyPath : string) : op (bool * RdbSecretKeyData) :=
  let! content := get (fun s => LoadBufferFromFile keyPath s.2) in
  match content with
  | None => ret (false, no_key)
  | Some content => let '(res, c) := Unpack content in if res then Decrypt c else ret (false, no_key)
  end.

Definition LoadSecretKeyFromFile (keyPath : string) : op RdbPassword.t :=
  let! (_, keyData) := LoadSecretKeyFromDisk keyPath in
  ret (match secretKey keyData with
       | [] => RdbPassword.new
       | key => snd (RdbPassword.SetValue key RdbPassword.new)
       end).

(** The loop of [UpgradeKey]: each old file with the function that reads its format. *)
Fixpoint upgrade_loop (keyPath : string) (oldKeyPaths : list string)
    (todo : list (string * (string -> op (bool * RdbSecretKeyData)))) : op unit :=
  match todo with
  | [] => ret tt
  | (oldKeyPath, load) :: rest =>
      let! (ok, keyData) := load oldKeyPath in
      if negb ok || (length (secretKey keyData) =? 0)%nat then upgrade_loop keyPath oldKeyPaths rest
      else
        let! saved := SaveSecretKeyToFile keyPath (secretKey keyData) in
        if saved then let! _ := lift (call (DeleteFiles oldKeyPaths)) in ret tt
        else upgrade_loop keyPath oldKeyPaths rest
  end.

Definition UpgradeKey (keyPath dbPath : string) (type : KeyFileType) : op unit :=
  let oldKeyPaths := old_key_paths dbPath type in
  let! empty := get (fun s => IsFilesEmpty oldKeyPaths s.2) in
  if empty then ret tt
  else upgrade_loop keyPath oldKeyPaths (zip oldKeyPaths [LoadSecretKeyFromDiskV0; LoadSecretKeyFromDiskV1]).

Definition CreateDir (fileDir : string) (w : W) : bool * W :=
  if access fileDir w then (true, w)
  else let '(err, w) := MkDir fileDir w in (match err with None => true | Some e => e =? EEXIST end, w).

(** [KeyFiles(dbPath).InitKeyPath()], whose answer nobody reads. *)
Definition InitKeyPath (dbPath : string) : op unit :=
  let! _ := lift (call (CreateDir (StringUtils.ExtractFilePath (GetKeyFile dbPath PUB_KEY_FILE)))) in ret tt.

Definition GetRdbPassword (dbPath : string) (type : KeyFileType) : op RdbPassword.t :=
  let keyFile := GetKeyFile dbPath type in
  let! _ := UpgradeKey keyFile dbPath type in
  let! empty := get (fun s => IsFileEmpty keyFile s.2) in
  let! saved := (if empty then let! _ := InitKeyPath dbPath in SaveSecretKeyToFile keyFile [] else ret true) in
  if saved then LoadSecretKeyFromFile keyFile else ret RdbPassword.new.

Definition DelAllKeyFiles (dbPath : string) : op unit :=
  let! there := get (fun s => access (dbKeyDir dbPath) s.2) in
  if there then
    let! _ := lift (call (DeleteFile (GetKeyFile dbPath PUB_KEY_FILE))) in
    let! _ := lift (call (DeleteFile (GetKeyFile dbPath PUB_KEY_FILE_NEW_KEY))) in
    ret tt
  else ret tt.

Definition DelKeyFile (dbPath : string) (type : KeyFileType) : op unit :=
  let! _ := lift (call (DeleteFile (GetKeyFile dbPath type))) in ret tt.

Definition IsKeyFileExists (dbPath : string) (type : KeyFileType) : op bool :=
  get (fun s => negb (IsFilesEmpty (old_key_paths dbPath type ++ [GetKeyFile dbPath type]) s.2)).

Definition ChangeKeyFile (dbPath : string) : op unit :=
  let! _ := lift (call (RenameFile (GetKeyFile dbPath PUB_KEY_FILE_NEW_KEY) (GetKeyFile dbPath PUB_KEY_FILE))) in ret tt.

Definition RestoreKeyFile (dbPath : string) (key : list Z) : op errno :=
  let! _ := lift (call (DeleteFile (GetKeyFile dbPath PUB_KEY_FILE))) in
  let! _ := lift (call (DeleteFile (GetKeyFile dbPath PUB_KEY_FILE_NEW_KEY))) in
  let! _ := SaveSecretKeyToFile (GetKeyFile dbPath PUB_KEY_FILE) key in
  ret E_OK.

End Ops.
End SecurityManager.

(** ** What the system promises *)

Module KeyLaws.
Import Huks Files.

(** [files w p] is the content of a file, [root w a] says that there is a key for the alias [a],
    [seal w a n m] is the message [m] encrypted with it and the nonce [n], followed by the tag
    of 16 bytes.  [up w]: the service answers.  [session w h a p c o]: the session [h] has taken
    [c] and given [o]. *)
Class KeyModel (W : Type) `{Huks W} := {
  files : W -> string -> option (list Z);
  root : W -> list Z -> Prop;
  seal : W -> list Z -> list Z -> list Z -> list Z;
  up : W -> Prop;
  session : W -> handle -> list Z -> purpose -> list Z -> list Z -> Prop
}.

Section Frames.
Context {W : Type} `{KeyModel W}.

(** The keys of the service stay. *)
Definition serves (w w' : W) : Prop :=
  (up w -> up w') /\ (forall a, root w a -> root w' a /\ forall n m, seal w' a n m = seal w a n m).

Definition keeps (w w' : W) : Prop := serves w w' /\ (forall p, files w' p = files w p).

(** Nothing but the file [p] changes. *)
Definition touches (p : string) (w w' : W) : Prop :=
  serves w w' /\ (forall q, q <> p -> files w' q = files w q).

Lemma serves_refl w : serves w w.
Proof. by split; auto. Qed.

Lemma serves_trans w1 w2 w3 : serves w1 w2 -> serves w2 w3 -> serves w1 w3.
Proof.
  intros [U1 R1] [U2 R2]. split; [auto|]. intros a Ha. destruct (R1 a Ha) as [Ha2 E1].
  destruct (R2 a Ha2) as [Ha3 E2]. split; [done|]. intros n m. by rewrite E2, E1.
Qed.

#[export] Instance keeps_preorder : PreOrder keeps.
Proof.
  split.
  - intros w. split; [apply serves_refl|done].
  - intros w1 w2 w3 [S1 F1] [S2 F2]. split; [by eapply serves_trans|]. intros p. by rewrite F2, F1.
Qed.

#[export] Instance touches_preorder p : PreOrder (touches p).
Proof.
  split.
  - intros w. split; [apply serves_refl|done].
  - intros w1 w2 w3 [S1 F1] [S2 F2]. split; [by eapply serves_trans|]. intros q Hq. by rewrite F2, F1.
Qed.

Lemma keeps_touches p w w' : keeps w w' -> touches p w w'.
Proof. intros [Hs Hf]. split; auto. Qed.

Lemma keeps_up w w' : keeps w w' -> up w -> up w'.
Proof. by intros [[Hu _] _]. Qed.

Lemma keeps_root w w' a : keeps w w' -> root w a -> root w' a.
Proof. intros [[_ Hr] _] Ha. by apply Hr. Qed.

Lemma keeps_seal w w' a n m : keeps w w' -> root w a -> seal w' a n m = seal w a n m.
Proof. intros [[_ Hr] _] Ha. by apply Hr. Qed.

End Frames.

(** The manual of the key service: encryption is authenticated and works on a message in pieces;
    keys are not replaced.  The manual of the files: a call changes the files it names. *)
Class KeyLaws (W : Type) `{KeyModel W} `{Files W} := {
  params_law p w : keeps w (ParamSet p w).2 /\ (up w -> (ParamSet p w).1 = HKS_SUCCESS);
  generate_law a w r w' : HksGenerateKey a w = (r, w') -> keeps w w' /\
    (r = HKS_SUCCESS \/ r = HKS_ERROR_CODE_KEY_ALREADY_EXIST -> root w' a) /\
    (up w -> r = HKS_SUCCESS \/ r = HKS_ERROR_CODE_KEY_ALREADY_EXIST);
  exist_law a w : keeps w (HksKeyExist a w).2;
  random_law n w r v w' : HksGenerateRandom n w = ((r, v), w') ->
    keeps w w' /\ length v = n /\ (up w -> r = HKS_SUCCESS);
  init_law a p w r h w' : HksInit a p w = ((r, h), w') -> keeps w w' /\
    (r = HKS_SUCCESS -> session w' h a p [] []) /\ (up w -> root w a -> r = HKS_SUCCESS);
  update_law h x w r o w' a p c out : HksUpdate h x w = ((r, o), w') -> session w h a p c out -> keeps w w' /\
    (r = HKS_SUCCESS -> session w' h a p (c ++ x) (out ++ o)) /\ (up w -> r = HKS_SUCCESS);
  encrypt_law h x w r o w' a n c out : HksFinish h x w = ((r, o), w') -> session w h a (ENCRYPT n) c out ->
    keeps w w' /\ (r = HKS_SUCCESS -> out ++ o = seal w a n (c ++ x)) /\ (up w -> r = HKS_SUCCESS);
  decrypt_law h x w r o w' a n tag c out : HksFinish h x w = ((r, o), w') -> session w h a (DECRYPT n tag) c out -> length tag = 16%nat ->
    keeps w w' /\ (r = HKS_SUCCESS -> (c ++ x) ++ tag = seal w a n (out ++ o)) /\
    (up w -> (exists m, (c ++ x) ++ tag = seal w a n m) -> r = HKS_SUCCESS);
  seal_inj w a n m m' : root w a -> seal w a n m = seal w a n m' -> m = m';
  seal_length w a n m : length (seal w a n m) = (length m + 16)%nat;
  dlopen_law w : keeps w (dlopen w).2 /\ (up w -> (dlopen w).1 = true);
  dlsym_law s w : up w -> dlsym s w = true;
  stat_law p w : stat_size p w = (fun c => Z.of_nat (length c)) <$> files w p;
  load_law p w : LoadBufferFromFile p w = files w p;
  create_law p w : touches p w (open_create p w).2;
  save_law p c w : touches p w (SaveBufferToFile p c w).2 /\
    ((SaveBufferToFile p c w).1 = true -> files (SaveBufferToFile p c w).2 p = Some c);
  remove_law p w : touches p w (remove p w).2 /\
    (if bool_decide ((remove p w).1 = None \/ (remove p w).1 = Some ENOENT) then files (remove p w).2 p = None
     else files (remove p w).2 p = files w p);
  rename_law src dst w ok w' : rename src dst w = (ok, w') -> serves w w' /\
    (forall q, q <> src -> q <> dst -> files w' q = files w q) /\
    (if ok then files w' dst = files w src /\ (src <> dst -> files w' src = None) else forall q, files w' q = files w q);
  mkdir_law p w : keeps w (MkDir p w).2
}.

End KeyLaws.

Module CryptInv.
Import Huks Files KeyLaws Crypt.

Section Laws.
Context {W : Type} `{KeyLaws W}.

Lemma wp_read buf off n (Q : list Z -> W -> Prop) w :
  0 <= off -> off + n <= Z.of_nat (length buf) -> Q (take (Z.to_nat n) (drop (Z.to_nat off) buf)) w -> wp (read buf off n) Q w.
Proof. intros Hlo Hhi HQ. unfold read. decide_z. by apply wp_ret. Qed.

(** How [HksLoopUpdate] ends: with an error of a piece, or with the last call. *)
Definition fed (h : handle) (a : list Z) (p : purpose) (m : list Z) (w : W) (r : option (list Z)) (w' : W) : Prop :=
  (r = None /\ keeps w w' /\ ~ up w) \/
  exists w1 c x o rc o', keeps w w1 /\ session w1 h a p c o /\ c ++ x = m /\
    HksFinish h x w1 = ((rc, o'), w') /\ r = if rc =? HKS_SUCCESS then Some (o ++ o') else None.

Lemma fed_after h a p m w w1 r w' : keeps w w1 -> fed h a p m w1 r w' -> fed h a p m w r w'.
Proof.
  intros Hk [(-> & Hk' & Hu)|(w2 & c & x & o & rc & o' & Hk' & Hrest)].
  - left. split; [done|]. split; [by transitivity w1|]. intros ?. apply Hu. by eapply keeps_up.
  - right. exists w2, c, x, o, rc, o'. split; [by transitivity w1|done].
Qed.

Lemma take_piece {A} (l : list A) (i j : Z) : 0 <= i -> 0 <= j ->
  take (Z.to_nat i) l ++ take (Z.to_nat j) (drop (Z.to_nat i) l) = take (Z.to_nat (i + j)) l.
Proof. intros Hi Hj. rewrite Z2Nat.inj_add by done. apply take_take_drop. Qed.

Lemma finish_fed h a p buf off n out w :
  0 <= off -> 0 <= n -> off + n <= Z.of_nat (length buf) -> session w h a p (take (Z.to_nat off) buf) out ->
  wp (finish h buf off n out) (fed h a p (take (Z.to_nat (off + n)) buf) w) w.
Proof.
  intros Hlo Hn Hhi Hs. unfold finish. apply wp_bind, wp_read; [done|done|].
  set (x := take (Z.to_nat n) (drop (Z.to_nat off) buf)).
  apply wp_bind. destruct (HksFinish h x w) as [[rc o] w'] eqn:E. eapply wp_call; [exact E|].
  apply wp_ret. right. exists w, (take (Z.to_nat off) buf), x, out, rc, o.
  repeat split; try done; [by apply take_piece].
Qed.

Lemma update_loop_fed h a p buf size : size <= Z.of_nat (length buf) -> forall fuel off out w,
  0 <= off < size -> size - off < Z.of_nat fuel * MAX_UPDATE_SIZE -> session w h a p (take (Z.to_nat off) buf) out ->
  wp (update_loop fuel h buf size off out) (fed h a p (take (Z.to_nat size) buf) w) w.
Proof.
  unfold MAX_UPDATE_SIZE. intros Hbuf fuel. induction fuel as [|fuel IH]; intros off out w Hoff Hfuel Hs; [lia|].
  cbn [update_loop]. unfold MAX_UPDATE_SIZE. rewrite (proj2 (Z.ltb_ge (size - 1) off)) by lia.
  destruct (Z.ltb_spec (size - 1) (off + 64)).
  - replace (size - 1 - off + 1) with (size - off) by lia. eapply wp_mono; [eapply finish_fed; [..|exact Hs]; lia|].
    intros r w'. by replace (off + (size - off)) with size by lia.
  - apply wp_bind, wp_read; [lia|lia|]. apply wp_bind.
    set (x := take (Z.to_nat 64) (drop (Z.to_nat off) buf)).
    destruct (HksUpdate h x w) as [[rc o] w'] eqn:E. eapply wp_call; [exact E|].
    destruct (update_law _ _ _ _ _ _ _ _ _ _ E Hs) as (Hk & Hses & Hup).
    destruct (Z.eqb_spec rc HKS_SUCCESS) as [->|Hne].
    + eapply wp_mono; [apply (IH (off + 64) (out ++ o) w'); [lia|lia|]|].
      { rewrite <- take_piece by lia. by apply Hses. }
      intros r w''. by apply fed_after.
    + apply wp_ret. left. split; [done|]. split; [done|]. intros Hu. by apply Hne, Hup.
Qed.

Lemma out_size_enough size : (out_size size <? Int.u32 (size * TIMES)) = false.
Proof.
  unfold out_size, Int.u32, Int.wrap, TIMES. apply Z.ltb_ge.
  pose proof (Z.mod_pos_bound (size * 4) (2 ^ 32) ltac:(lia)).
  assert ((size * 4) mod 2 ^ 32 = 4 * (size mod 2 ^ 30)) as E.
  { replace (2 ^ 32) with (4 * 2 ^ 30) by lia. rewrite Z.mul_comm. by rewrite Z.mul_mod_distr_l by lia. }
  rewrite <- Z.add_mod_idemp_l, E by lia. rewrite E in *. rewrite (Z.mod_small (_ + 1)); lia.
Qed.

(** A message of one byte or more is given to the service once, in pieces of at most 64 bytes. *)
Lemma three_stage_fed a p buf size w :
  0 < size <= Z.of_nat (length buf) ->
  wp (ThreeStage a p buf size (out_size size))
     (fun r w' => (r = None /\ keeps w w' /\ (up w -> ~ root w a)) \/
                  exists w1 h, keeps w w1 /\ fed h a p (take (Z.to_nat size) buf) w1 r w') w.
Proof.
  intros Hsize. unfold ThreeStage. apply wp_bind. destruct (HksInit a p w) as [[rc h] w'] eqn:E.
  eapply wp_call; [exact E|]. destruct (init_law _ _ _ _ _ _ E) as (Hk & Hs & Hu).
  destruct (Z.eqb_spec rc HKS_SUCCESS) as [Hrc|Hne].
  - unfold HksLoopUpdate. rewrite out_size_enough.
    eapply wp_mono; [eapply (update_loop_fed h a p buf size); [lia|lia|unfold MAX_UPDATE_SIZE; lia|]|].
    { change (take (Z.to_nat 0) buf) with (@nil Z). by apply Hs. }
    intros r w'' Hf. right. by exists w', h.
  - apply wp_ret. left. split; [done|]. split; [done|]. intros Hup Hr. by apply Hne, Hu.
Qed.

Lemma u32_length (l : list Z) : Z.of_nat (length l) < 2 ^ 32 -> Int.u32 (Z.of_nat (length l)) = Z.of_nat (length l).
Proof. intros Hl. apply Int.u32_small. lia. Qed.

Lemma encrypt_seals a n k w : root w a -> k <> [] -> Z.of_nat (length k) < 2 ^ 32 ->
  wp (Encrypt a n k) (fun c w' => keeps w w' /\ (c = [] \/ c = seal w a n k) /\ (up w -> c = seal w a n k)) w.
Proof.
  intros Hroot Hk Hlen. assert (0 < Z.of_nat (length k)) by (destruct k; [done|simpl; lia]).
  unfold Encrypt. rewrite u32_length by done. apply wp_bind.
  destruct (params_law (ENCRYPT n) w) as [Hk1 Hu1]. destruct (ParamSet (ENCRYPT n) w) as [rc w1] eqn:E.
  eapply wp_call; [exact E|]. simpl in Hk1, Hu1. destruct (Z.eqb_spec rc HKS_SUCCESS) as [->|Hne]; cbn [negb].
  2: { apply wp_ret. split; [done|]. split; [by left|]. intros Hu. by destruct Hne; apply Hu1. }
  apply wp_bind. eapply wp_mono; [apply three_stage_fed; lia|]. rewrite Nat2Z.id, take_ge by done.
  intros r w2 [(-> & Hk2 & Hu2)|(w0 & h & Hk2 & Hfed)]; apply wp_ret; simpl.
  { split; [by transitivity w1|]. split; [by left|]. intros Hu. destruct Hu2; eauto using keeps_up, keeps_root. }
  assert (keeps w w0) as Hk0 by by transitivity w1.
  destruct Hfed as [(-> & Hk3 & Hu3)|(w3 & c & x & o & rc & o' & Hk3 & Hs & <- & Hfin & ->)]; simpl.
  { split; [by transitivity w0|]. split; [by left|]. intros Hu. destruct Hu3. eauto using keeps_up. }
  assert (keeps w w3) as Hk4 by by transitivity w0.
  destruct (encrypt_law _ _ _ _ _ _ _ _ _ _ Hfin Hs) as (Hk5 & Hseal & Hu5). rewrite (keeps_seal w w3) in Hseal by done.
  split; [by transitivity w3|]. destruct (Z.eqb_spec rc HKS_SUCCESS) as [->|Hne]; simpl.
  - by rewrite Hseal; auto.
  - split; [by left|]. intros Hu. destruct Hne. eauto using keeps_up.
Qed.

Lemma decrypt_opens a n c w : root w a -> (16 < length c)%nat -> Z.of_nat (length c) < 2 ^ 32 ->
  wp (Decrypt a n c) (fun m w' => keeps w w' /\ (up w -> forall m', c = seal w a n m' -> m = m')) w.
Proof.
  intros Hroot Hlo Hlen. unfold Decrypt, AEAD_LEN. rewrite (Int.u32_small (_ - 16)) by lia.
  apply wp_bind, wp_read; [lia|lia|]. set (size := Z.of_nat (length c) - 16).
  set (tag := take (Z.to_nat 16) (drop (Z.to_nat size) c)).
  assert (take (Z.to_nat size) c ++ tag = c) as Hc.
  { unfold tag. rewrite take_piece by lia. apply take_ge. lia. }
  assert (length tag = 16%nat) as Htag by (unfold tag; rewrite length_take, length_drop; lia).
  apply wp_bind. destruct (params_law (DECRYPT n tag) w) as [Hk1 Hu1].
  destruct (ParamSet (DECRYPT n tag) w) as [rc w1] eqn:E. eapply wp_call; [exact E|]. simpl in Hk1, Hu1.
  destruct (Z.eqb_spec rc HKS_SUCCESS) as [->|Hne]; cbn [negb].
  2: { apply wp_ret. split; [done|]. intros Hu. by destruct Hne; apply Hu1. }
  apply wp_bind. eapply wp_mono; [apply three_stage_fed; lia|].
  intros r w2 [(-> & Hk2 & Hu2)|(w0 & h & Hk2 & Hfed)]; apply wp_ret; simpl.
  { split; [by transitivity w1|]. intros Hu. destruct Hu2; eauto using keeps_up, keeps_root. }
  assert (keeps w w0) as Hk0 by by transitivity w1.
  destruct Hfed as [(-> & Hk3 & Hu3)|(w3 & d & x & o & rc & o' & Hk3 & Hs & Hdx & Hfin & ->)]; simpl.
  { split; [by transitivity w0|]. intros Hu. destruct Hu3. eauto using keeps_up. }
  assert (keeps w w3) as Hk4 by by transitivity w0.
  destruct (decrypt_law _ _ _ _ _ _ _ _ _ _ _ Hfin Hs Htag) as (Hk5 & Hseal & Hu5). rewrite Hdx, Hc in Hseal, Hu5.
  split; [by transitivity w3|]. intros Hu m' Hm'. assert (c = seal w3 a n m') as Hm3 by by rewrite (keeps_seal w w3).
  rewrite Hu5 in * by eauto using keeps_up. simpl. apply (seal_inj w3 a n); [by eapply keeps_root|]. by rewrite <- Hseal.
Qed.

End Laws.
End CryptInv.

Module SecurityInv.
Import Huks Files KeyLaws CryptInv SecurityManager.

Section Laws.
Context {W : Type} `{KeyLaws W}.
Abbreviation state := (SecurityManager.t * W)%type.
Implicit Types (s : state) (w : W).

(** A delegate that was made has its key. *)
Definition ready s : Prop := rdbCrypto_ s.1 = true -> root s.2 rootAlias_.

(** A step that changes no file. *)
Definition idle s s' : Prop := keeps s.2 s'.2 /\ (ready s -> ready s').

Lemma idle_trans s1 s2 s3 : idle s1 s2 -> idle s2 s3 -> idle s1 s3.
Proof. intros [K1 R1] [K2 R2]. split; [by transitivity s2.2|auto]. Qed.

Lemma idle_refl s : idle s s.
Proof. by split. Qed.

Lemma idle_up s s' : idle s s' -> up s.2 -> up s'.2.
Proof. intros [? _]. by apply keeps_up. Qed.

Lemma wp_lift {A} (m : run W A) (Q : A -> state -> Prop) s :
  wp m (fun a w => Q a (s.1, w)) s.2 -> wp (lift m) Q s.
Proof. unfold wp, lift. by destruct (m s.2) as [[a w]|]. Qed.

Lemma idle_lift s w : keeps s.2 w -> idle s (s.1, w).
Proof. intros Hk. split; [done|]. unfold ready. simpl. intros Hr Hc. eauto using keeps_root. Qed.

Lemma get_handle_spec s : wp GetHandle (fun b s' => idle s s' /\ (up s.2 -> b = true)) s.
Proof.
  unfold GetHandle, wp. destruct (handle_ s.1); [by auto using idle_refl|].
  destruct (dlopen_law s.2) as [Hk Hu]. destruct (dlopen s.2) as [ok w]. simpl in *. split; [|done].
  split; [done|]. unfold ready. simpl. eauto using keeps_root.
Qed.

Lemma create_delegate_spec s : wp CreateDelegate (fun b s' => idle s s' /\ (up s.2 -> b = true)) s.
Proof.
  unfold CreateDelegate. apply wp_bind. eapply wp_mono; [apply get_handle_spec|].
  intros [] s1 [Hi Hu]; apply wp_ret || apply wp_get; [|by auto].
  split; [done|]. intros Hup. apply dlsym_law. by eapply idle_up.
Qed.

Lemma init_loop_spec tries last w : last <> HKS_SUCCESS ->
  wp (Crypt.init_loop tries rootAlias_ last)
     (fun r w' => keeps w w' /\ (r = HKS_SUCCESS -> root w' rootAlias_) /\ ((0 < tries)%nat -> up w -> r = HKS_SUCCESS)) w.
Proof.
  revert last w. induction tries as [|tries IH]; intros last w Hlast; cbn [Crypt.init_loop].
  - apply wp_ret. split; [done|]. split; [done|lia].
  - apply wp_bind. unfold Crypt.GenerateRootKey. apply wp_bind.
    destruct (HksGenerateKey rootAlias_ w) as [r w1] eqn:E. eapply wp_call; [exact E|]. apply wp_ret.
    destruct (generate_law _ _ _ _ E) as (Hk & Hr & Hu).
    set (r' := if r =? HKS_ERROR_CODE_KEY_ALREADY_EXIST then HKS_SUCCESS else r).
    assert (r' = HKS_SUCCESS <-> r = HKS_SUCCESS \/ r = HKS_ERROR_CODE_KEY_ALREADY_EXIST) as Hr'.
    { unfold r'. destruct (Z.eqb_spec r HKS_ERROR_CODE_KEY_ALREADY_EXIST); intuition. }
    destruct (Z.eqb_spec r' HKS_SUCCESS) as [->|Hne].
    + apply wp_ret. split; [done|]. split; [|done]. intros _. by apply Hr, Hr'.
    + eapply wp_mono; [by apply IH|]. intros r2 w2 (Hk2 & Hr2 & _). split; [by transitivity w1|].
      split; [done|]. intros _ Hup. destruct Hne. by apply Hr', Hu.
Qed.

Lemma get_delegate_spec s : ready s ->
  wp GetDelegate (fun b s' => idle s s' /\ (b = true -> root s'.2 rootAlias_) /\ (up s.2 -> b = true)) s.
Proof.
  intros Hready. unfold GetDelegate, wp at 1. destruct (rdbCrypto_ s.1) eqn:Ec; [by auto using idle_refl|].
  change (wp (let! created := CreateDelegate in
                 if created then
                   let! r := lift (Crypt.Init rootAlias_) in
                   fun s => Some (r =? HKS_SUCCESS, ({s.1 with rdbCrypto_ := r =? HKS_SUCCESS}, s.2))
                 else ret false)
    (fun b s' => idle s s' /\ (b = true -> root s'.2 rootAlias_) /\ (up s.2 -> b = true)) s).
  apply wp_bind. eapply wp_mono; [apply create_delegate_spec|]. intros [] s1 [Hi Hu].
  2: { apply wp_ret. split; [done|]. split; [done|]. intros Hup. by specialize (Hu Hup). }
  apply wp_bind, wp_lift. eapply wp_mono; [apply init_loop_spec; done|]. intros r w (Hk & Hr & Hup).
  unfold wp. simpl. split; [|split].
  - split; simpl; [by transitivity s1.2; [apply Hi|]|]. unfold ready. simpl. intros _ ?%Z.eqb_eq. auto.
  - intros ?%Z.eqb_eq. auto.
  - intros Hu0. apply Z.eqb_eq, Hup; [unfold Crypt.RETRY_MAX_TIMES; lia|]. by eapply idle_up.
Qed.

Lemma random_spec len s : wp (GenerateRandomNum len)
  (fun v s' => idle s s' /\ (v = [] \/ length v = len) /\ (up s.2 -> length v = len)) s.
Proof.
  unfold GenerateRandomNum. apply wp_bind. eapply wp_mono; [apply get_handle_spec|]. intros [] s1 [Hi Hu].
  2: { apply wp_ret. split; [done|]. split; [by left|]. intros Hup. by specialize (Hu Hup). }
  apply wp_bind, wp_get. destruct (dlsym _ s1.2) eqn:Ed.
  2: { apply wp_ret. split; [done|]. split; [by left|]. intros Hup. rewrite dlsym_law in Ed by by eapply idle_up. done. }
  apply wp_lift. unfold Crypt.GenerateRandomNum. apply wp_bind.
  destruct (HksGenerateRandom len s1.2) as [[r v] w] eqn:E. eapply wp_call; [exact E|]. apply wp_ret.
  destruct (random_law _ _ _ _ _ E) as (Hk & Hlen & Hup). split; [eapply idle_trans; [done|by apply idle_lift]|].
  destruct (Z.eqb_spec r HKS_SUCCESS) as [->|Hne]; simpl.
  - destruct v; simpl; auto.
  - split; [by left|]. intros Hu0. destruct Hne. apply Hup. by eapply idle_up.
Qed.

(** The content holds a key, encrypted for the alias of the library. *)
Definition sealed w (c : RdbSecretContent) (key : list Z) : Prop :=
  root w rootAlias_ /\ length (nonce_ c) = NONCE_VALUE_SIZE /\ encrypt_ c = seal w rootAlias_ (nonce_ c) key.

Lemma encrypt_work_key_spec key s : ready s -> key <> [] -> Z.of_nat (length key) < 2 ^ 32 ->
  wp (EncryptWorkKey key) (fun '(res, c) s' => idle s s' /\ (res = true -> encrypt_ c <> [] -> sealed s'.2 c key) /\
                                               (up s.2 -> res = true /\ encrypt_ c <> [])) s.
Proof.
  intros Hready Hkey Hlen. unfold EncryptWorkKey. apply wp_bind. eapply wp_mono; [by apply get_delegate_spec|].
  intros [] s1 (Hi & Hr & Hu). 2: { apply wp_ret. split; [done|]. split; [done|]. intros Hup. by specialize (Hu Hup). }
  apply wp_bind. eapply wp_mono; [apply random_spec|]. intros v s2 (Hi2 & Hv & Hu2).
  assert (idle s s2) as Hi0 by by eapply idle_trans.
  destruct v as [|b v'] eqn:Ev.
  { apply wp_ret. split; [done|]. split; [done|]. intros Hup. exfalso.
    assert (@length Z [] = NONCE_VALUE_SIZE) by (apply Hu2; by eapply idle_up). done. }
  assert (v <> []) as Hne by congruence. rewrite <- Ev in *. clear Ev b v'. apply wp_bind, wp_lift.
  assert (root s2.2 rootAlias_) as Hroot by (eapply keeps_root; [apply Hi2|by apply Hr]).
  eapply wp_mono; [by apply encrypt_seals|]. intros c w (Hk & Hc & Hup). apply wp_ret. simpl.
  split; [eapply idle_trans; [done|by apply idle_lift]|]. split.
  - intros _ Hnn. destruct Hc as [->|Hc]; [done|]. split; [by eapply keeps_root|]. simpl. split; [|by rewrite (keeps_seal s2.2 w)].
    by destruct Hv.
  - intros Hu0. split; [done|]. rewrite Hup by (eapply idle_up; eauto). intros Heq.
    pose proof (seal_length s2.2 rootAlias_ v key) as Hl. rewrite Heq in Hl. simpl in Hl. lia.
Qed.

(** *** Files *)

Lemma hmac_length data : length (GenerateHMAC data) = HMAC_SIZE.
Proof. unfold GenerateHMAC, HMAC_SIZE. rewrite length_app, length_take, length_replicate. lia. Qed.

(** A key file reads back what was packed, whatever its last bytes are. *)
Lemma unpack_package c mac : length (nonce_ c) = NONCE_VALUE_SIZE -> encrypt_ c <> [] -> length mac = HMAC_SIZE ->
  Unpack ((version c :: nonce_ c ++ encrypt_ c) ++ mac) =
    (true, {no_content with version := version c; nonce_ := nonce_ c; encrypt_ := encrypt_ c}).
Proof.
  intros Hn He Hm. unfold Unpack. rewrite length_app, Hm.
  replace (_ + HMAC_SIZE - HMAC_SIZE)%nat with (length (version c :: nonce_ c ++ encrypt_ c)) by lia.
  rewrite take_app_length. cbn [length]. rewrite length_app, Hn.
  assert (length (encrypt_ c) <> 0)%nat by (destruct (encrypt_ c); done).
  rewrite (proj2 (Nat.leb_gt _ HMAC_SIZE)) by (unfold NONCE_VALUE_SIZE; lia).
  rewrite (proj2 (Nat.leb_gt _ (1 + NONCE_VALUE_SIZE))) by lia.
  cbn [nth drop Nat.add]. by rewrite drop_0, <- Hn, take_app_length, drop_app_length.
Qed.

(** The file holds a key. *)
Definition stored w (p : string) (key : list Z) : Prop :=
  key <> [] /\ Z.of_nat (length key) + AEAD_LEN < 2 ^ 32 /\
  exists c, sealed w c key /\ files w p = Some (package c).

Definition writes (p : string) s s' : Prop := touches p s.2 s'.2 /\ (ready s -> ready s').

Lemma writes_trans p s1 s2 s3 : writes p s1 s2 -> writes p s2 s3 -> writes p s1 s3.
Proof. intros [K1 R1] [K2 R2]. split; [by transitivity s2.2|auto]. Qed.

Lemma idle_writes p s s' : idle s s' -> writes p s s'.
Proof. intros [Hk Hr]. split; [by apply keeps_touches|done]. Qed.

Lemma writes_lift p s w : touches p s.2 w -> writes p s (s.1, w).
Proof. intros Ht. split; [done|]. unfold ready. simpl. intros Hr Hc. by apply Ht, Hr. Qed.

Lemma sealed_serves w w' c key : serves w w' -> sealed w c key -> sealed w' c key.
Proof.
  intros [_ Hs] (Hr & Hn & He). destruct (Hs _ Hr) as [Hr' Hseal].
  split; [done|]. split; [done|]. by rewrite Hseal.
Qed.

Lemma stored_touches p q w w' key : touches q w w' -> p <> q -> stored w p key -> stored w' p key.
Proof.
  intros [Hs Hf] Hpq (Hne & Hlen & c & Hc & Hp). split; [done|]. split; [done|]. exists c.
  split; [by eapply sealed_serves|by rewrite Hf].
Qed.

Lemma stored_keeps p w w' key : keeps w w' -> stored w p key -> stored w' p key.
Proof.
  intros [Hs Hf] (Hne & Hlen & c & Hc & Hp). split; [done|]. split; [done|]. exists c.
  split; [by eapply sealed_serves|by rewrite Hf].
Qed.

(** The disk takes every write. *)
Definition writable : Prop := forall p c w, (open_create p w).1 = true /\ (SaveBufferToFile p c w).1 = true.

Lemma save_to_disk_spec p c s : wp (SaveSecretKeyToDisk p c)
  (fun ok s' => writes p s s' /\ (ok = true -> files s'.2 p = Some (package c)) /\ (writable -> ok = true)) s.
Proof.
  unfold SaveSecretKeyToDisk. apply wp_lift, wp_bind. pose proof (create_law p s.2) as Hc.
  destruct (open_create p s.2) as [opened w1] eqn:E. eapply wp_call; [exact E|]. simpl in Hc.
  destruct opened.
  - destruct (save_law p (package c) w1) as [Ht Hf]. destruct (SaveBufferToFile p (package c) w1) as [ok w2] eqn:E2.
    eapply wp_call; [exact E2|]. split; [apply writes_lift; by transitivity w1|]. split; [done|].
    intros Hw. destruct (Hw p (package c) w1) as [_ Hok]. by rewrite E2 in Hok.
  - apply wp_ret. split; [by apply writes_lift|]. split; [done|].
    intros Hw. destruct (Hw p [] s.2) as [Hok _]. by rewrite E in Hok.
Qed.

(** A key that was saved is stored; without a key of the caller it is a new one. *)
Lemma save_spec p k s : ready s -> Z.of_nat (length k) + AEAD_LEN < 2 ^ 32 ->
  wp (SaveSecretKeyToFile p k) (fun ok s' => writes p s s' /\
    (ok = true -> exists key, stored s'.2 p key /\ (k <> [] -> key = k) /\ (k = [] -> length key = RDB_KEY_SIZE)) /\
    (writable -> up s.2 -> ok = true)) s.
Proof.
  intros Hready Hlen. unfold SaveSecretKeyToFile. apply wp_bind.
  apply (wp_mono _ (fun key s1 => idle s s1 /\ (k <> [] -> key = k) /\ (k = [] -> key <> [] -> length key = RDB_KEY_SIZE) /\
                                  (up s.2 -> key <> []))).
  { destruct k; [|apply wp_ret; split; [apply idle_refl|done]].
    eapply wp_mono; [apply random_spec|]. intros v s1 (Hi & [->|Hv] & Hu); (split; [done|]); (split; [done|]); (split; [done|]).
    - intros Hup. by specialize (Hu Hup).
    - by destruct v. }
  intros key s1 (Hi & Hk & Hl & Hup1). assert (ready s1) as Hready1 by by apply Hi.
  destruct key as [|b key'] eqn:Ekey; [apply wp_ret; split; [by apply idle_writes|]; split; [done|]; intros _ Hup; by destruct (Hup1 Hup)|].
  rewrite <- Ekey in *. assert (key <> []) as Hne by congruence. clear Ekey b key'.
  assert (Z.of_nat (length key) + AEAD_LEN < 2 ^ 32) as Hlen'.
  { destruct (decide (k = [])) as [->|Hkn]; [rewrite Hl by done; unfold RDB_KEY_SIZE, AEAD_LEN; lia|by rewrite Hk]. }
  apply wp_bind. eapply wp_mono; [apply encrypt_work_key_spec; [done|done|unfold AEAD_LEN in *; lia]|].
  intros [res c] s2 (Hi2 & Hc & Hup2). assert (writes p s s2) as Hw by (apply idle_writes; by eapply idle_trans).
  destruct res; simpl; [|apply wp_ret; split; [done|]; split; [done|]; intros _ Hup; by destruct Hup2; [eapply idle_up|]].
  destruct (encrypt_ c) eqn:Ee; simpl.
  { apply wp_ret. split; [done|]. split; [done|]. intros _ Hup. by destruct Hup2; [eapply idle_up|]. }
  rewrite <- Ee in Hc. eapply wp_mono; [apply save_to_disk_spec|].
  intros ok s3 (Hw3 & Hf & Hwr). split; [by eapply writes_trans|]. split; [|by auto]. intros Hok. exists key. split; [|by eauto].
  split; [done|]. split; [done|]. exists c. split; [|by apply Hf]. eapply sealed_serves; [apply Hw3|apply Hc; congruence].
Qed.

Lemma decrypt_work_key_spec c n key s : ready s -> up s.2 -> key <> [] -> Z.of_nat (length key) + AEAD_LEN < 2 ^ 32 ->
  root s.2 rootAlias_ -> c = seal s.2 rootAlias_ n key ->
  wp (DecryptWorkKey c n) (fun v s' => idle s s' /\ v = key) s.
Proof.
  intros Hready Hup Hne Hlen Hroot He. unfold DecryptWorkKey. apply wp_bind.
  eapply wp_mono; [by apply get_delegate_spec|]. intros [] s1 (Hi & Hr1 & Hu). 2: { by specialize (Hu Hup). }
  assert (length c = length key + 16)%nat as Hel by by rewrite He, seal_length.
  apply wp_bind, wp_lift. assert (0 < length key)%nat by (destruct key; simpl; [done|lia]).
  eapply wp_mono; [apply decrypt_opens; [by apply Hr1|lia|unfold AEAD_LEN in *; lia]|].
  intros m w [Hk Hm]. assert (m = key) as ->.
  { apply Hm; [by eapply idle_up|]. rewrite He. symmetry. by apply keeps_seal; [apply Hi|]. }
  destruct key as [|b key']; [done|]. apply wp_ret. split; [|done]. eapply idle_trans; [done|by apply idle_lift].
Qed.

(** A stored key is read, if the service answers; other files never matter. *)
Lemma load_spec p key s : ready s -> up s.2 -> stored s.2 p key ->
  wp (LoadSecretKeyFromDisk p) (fun '(_, d) s' => idle s s' /\ secretKey d = key) s.
Proof.
  intros Hready Hup (Hne & Hlen & c & Hc & Hf). unfold LoadSecretKeyFromDisk.
  apply wp_bind, wp_get. rewrite load_law, Hf. assert (Hsealed := Hc). destruct Hc as (Hr & Hn & He).
  assert (length (encrypt_ c) = length key + 16)%nat as Hel by by rewrite He, seal_length.
  unfold package. rewrite unpack_package by (try apply hmac_length; try done; intros Hnil; rewrite Hnil in Hel; simpl in Hel; lia).
  unfold Decrypt. cbn [encrypt_ nonce_]. apply wp_bind.
  eapply wp_mono; [by apply (decrypt_work_key_spec _ _ key)|]. intros v s1 [Hi ->]. apply wp_ret.
  by destruct key.
Qed.

(** *** Passwords *)

(** No byte of an earlier password is left behind the current one. *)
Definition clean (p : RdbPassword.t) : Prop :=
  length (RdbPassword.data_ p) = RdbPassword.MAX_PASSWORD_SIZE /\ (RdbPassword.size_ p <= RdbPassword.MAX_PASSWORD_SIZE)%nat /\
  Forall (fun b => b = 0 \/ b = RdbPassword.UCHAR_MAX) (drop (RdbPassword.size_ p) (RdbPassword.data_ p)).

Lemma new_clean : clean RdbPassword.new.
Proof.
  split; [done|]. split; [unfold RdbPassword.MAX_PASSWORD_SIZE; simpl; lia|].
  constructor; [by right|]. apply Forall_replicate. by left.
Qed.

Lemma set_value_clean key p : clean p -> clean (RdbPassword.SetValue key p).2.
Proof.
  intros (Hl & Hs & Hd). unfold RdbPassword.SetValue. destruct (Nat.ltb_spec RdbPassword.MAX_PASSWORD_SIZE (length key)); [done|].
  rewrite (Nat.min_l _ RdbPassword.MAX_PASSWORD_SIZE) by done. cbn [snd].
  assert (length (key ++ drop (length key) (RdbPassword.data_ p)) = RdbPassword.MAX_PASSWORD_SIZE) as Hlen
    by (rewrite length_app, length_drop; lia).
  destruct (Nat.ltb_spec (length key) (RdbPassword.size_ p)); (split; [|split]); cbn [RdbPassword.data_ RdbPassword.size_]; try lia.
  - rewrite !length_app, length_take, length_replicate, length_drop, Hlen. lia.
  - rewrite take_app_length, drop_app_length. apply Forall_app. split; [apply Forall_replicate; by right|].
    rewrite drop_app, (drop_ge key) by lia. simpl. rewrite drop_drop.
    by replace (length key + _)%nat with (RdbPassword.size_ p) by lia.
  - rewrite drop_app_length. replace (length key) with (RdbPassword.size_ p + (length key - RdbPassword.size_ p))%nat by lia.
    rewrite <- drop_drop. by apply Forall_drop.
Qed.

Lemma set_value_value key p : (length key <= RdbPassword.MAX_PASSWORD_SIZE)%nat ->
  RdbPassword.value (RdbPassword.SetValue key p).2 = key.
Proof.
  intros Hlen. unfold RdbPassword.SetValue, RdbPassword.value. rewrite (proj2 (Nat.ltb_ge _ _)) by done.
  cbn [snd RdbPassword.data_ RdbPassword.size_]. destruct (_ <? _)%nat; [rewrite take_app_length|]; by rewrite take_app_length.
Qed.

Lemma stored_unique p key key' s : ready s -> up s.2 -> stored s.2 p key -> stored s.2 p key' -> key = key'.
Proof.
  intros Hready Hup Hst Hst'.
  destruct (wp_run _ _ _ (load_spec p key s Hready Hup Hst)) as ([b d] & s1 & E & _ & <-).
  destruct (wp_run _ _ _ (load_spec p key' s Hready Hup Hst')) as ([b' d'] & s2 & E' & _ & <-). congruence.
Qed.

Lemma load_password_spec p key s : ready s -> up s.2 -> stored s.2 p key -> (length key <= RdbPassword.MAX_PASSWORD_SIZE)%nat ->
  wp (LoadSecretKeyFromFile p) (fun pw s' => idle s s' /\ RdbPassword.value pw = key) s.
Proof.
  intros Hready Hup Hst Hlen. unfold LoadSecretKeyFromFile. apply wp_bind. eapply wp_mono; [by apply load_spec|].
  intros [b d] s1 [Hi Hd]. apply wp_ret. split; [done|]. rewrite Hd.
  destruct key as [|x key']; [by destruct Hst|]. by apply set_value_value.
Qed.

(** *** The files of one database *)

Lemma key_file_old dbPath type type' p : p ∈ old_key_paths dbPath type -> p <> GetKeyFile dbPath type'.
Proof.
  unfold old_key_paths, GetKeyFile. intros Hin ->. apply list_elem_of_fmap in Hin as (x & Heq & Hx).
  do 2 apply Str.app_cancel_l in Heq. subst x. destruct type, type'; simpl in Hx; set_solver.
Qed.

Lemma key_files_differ dbPath : GetKeyFile dbPath PUB_KEY_FILE <> GetKeyFile dbPath PUB_KEY_FILE_NEW_KEY.
Proof. unfold GetKeyFile. intros Heq. by do 2 apply Str.app_cancel_l in Heq. Qed.

Lemma stored_not_empty w p key : stored w p key -> IsFileEmpty p w = false.
Proof.
  intros (_ & _ & c & _ & Hf). unfold IsFileEmpty. by rewrite stat_law, Hf.
Qed.

Lemma upgrade_nothing keyPath dbPath type s : IsFilesEmpty (old_key_paths dbPath type) s.2 = true ->
  wp (UpgradeKey keyPath dbPath type) (fun _ s' => s' = s) s.
Proof. intros He. unfold UpgradeKey. apply wp_bind, wp_get. rewrite He. by apply wp_ret. Qed.

Lemma files_empty_ext ps w w' : (forall p, p ∈ ps -> files w' p = files w p) -> IsFilesEmpty ps w' = IsFilesEmpty ps w.
Proof.
  intros Hf. unfold IsFilesEmpty. induction ps as [|p ps IH]; [done|]. simpl. rewrite IH by set_solver.
  f_equal. unfold IsFileEmpty. by rewrite !stat_law, Hf by set_solver.
Qed.

Lemma init_key_path_spec dbPath s : wp (InitKeyPath dbPath) (fun _ s' => idle s s') s.
Proof.
  unfold InitKeyPath. apply wp_bind, wp_lift. set (d := StringUtils.ExtractFilePath _).
  destruct (CreateDir d s.2) as [b w] eqn:E. eapply wp_call; [exact E|]. apply wp_ret. apply idle_lift.
  unfold CreateDir in E. destruct (access d s.2); [by simplify_eq|]. pose proof (mkdir_law d s.2).
  destruct (MkDir d s.2). by simplify_eq.
Qed.

(** Without files of earlier formats: a stored key is the password; when there is none, a new
    one of 32 bytes is stored, and is the password. *)
Lemma get_password_spec dbPath type s : ready s -> up s.2 -> IsFilesEmpty (old_key_paths dbPath type) s.2 = true ->
  (IsFileEmpty (GetKeyFile dbPath type) s.2 = true \/
   exists key, stored s.2 (GetKeyFile dbPath type) key /\ (length key <= RdbPassword.MAX_PASSWORD_SIZE)%nat) ->
  wp (GetRdbPassword dbPath type) (fun pw s' => writes (GetKeyFile dbPath type) s s' /\
    (forall key, stored s.2 (GetKeyFile dbPath type) key -> (length key <= RdbPassword.MAX_PASSWORD_SIZE)%nat ->
       RdbPassword.value pw = key) /\
    (RdbPassword.IsValid pw = true -> stored s'.2 (GetKeyFile dbPath type) (RdbPassword.value pw) /\
       (length (RdbPassword.value pw) <= RdbPassword.MAX_PASSWORD_SIZE)%nat)) s.
Proof.
  intros Hready Hup Hold Hfile. unfold GetRdbPassword. set (f := GetKeyFile dbPath type) in *.
  apply wp_bind. eapply wp_mono; [by apply upgrade_nothing|]. intros _ s0 ->. apply wp_bind, wp_get.
  destruct (IsFileEmpty f s.2) eqn:Ee.
  - apply wp_bind, wp_bind. eapply wp_mono; [apply init_key_path_spec|]. intros ? s1 Hi.
    eapply wp_mono; [apply save_spec; [by apply Hi|unfold AEAD_LEN; simpl; lia]|]. intros ok s2 (Hw & Hok & _).
    assert (writes f s s2) as Hw0 by exact (writes_trans f s s1 s2 (idle_writes f s s1 Hi) Hw).
    destruct ok; [|apply wp_ret; split; [done|]; split; [|done]; intros key Hst%stored_not_empty; congruence].
    destruct Hok as (key & Hst & _ & Hlen); [done|]. specialize (Hlen eq_refl).
    assert (length key <= RdbPassword.MAX_PASSWORD_SIZE)%nat by (unfold RDB_KEY_SIZE, RdbPassword.MAX_PASSWORD_SIZE in *; lia).
    eapply wp_mono; [apply (load_password_spec f key); [by apply Hw0|by apply Hw0|done|done]|].
    intros pw s3 [Hi3 ->]. split; [exact (writes_trans f s s2 s3 Hw0 (idle_writes f s2 s3 Hi3))|].
    split; [intros key' Hst'%stored_not_empty; congruence|]. intros _. split; [|done]. eapply stored_keeps; [apply Hi3|done].
  - apply wp_bind, wp_ret. destruct Hfile as [|(key & Hst & Hlen)]; [done|].
    eapply wp_mono; [by apply (load_password_spec f key)|]. intros pw s1 [Hi Hv]. rewrite Hv.
    split; [by apply idle_writes|]. split.
    + intros key' Hst' _. by eapply stored_unique.
    + intros _. split; [|done]. eapply stored_keeps; [apply Hi|done].
Qed.

(** *** Files of earlier formats *)

Lemma key_header_reads ver time rest : length time = TIME_SIZE -> (16 < length rest)%nat ->
  exists d, key_header (ver :: time ++ rest) = (Some (d, rest), d) /\ secretKey d = [].
Proof.
  intros Ht Hr. unfold key_header. cbn [length]. rewrite length_app, Ht. unfold TIME_SIZE, AEAD_LEN in *.
  rewrite (proj2 (Nat.leb_gt _ 1)), (proj2 (Nat.leb_gt _ (1 + 8))), (proj2 (Z.leb_gt _ _)) by lia.
  eexists. split; [change (drop (1 + 8) (ver :: time ++ rest)) with (drop 8 (time ++ rest))|].
  - replace (drop 8 (time ++ rest)) with rest by by rewrite <- Ht, drop_app_length. reflexivity.
  - done.
Qed.

(** A key in the first or in the second format. *)
Definition old_stored w (p : string) (v1 : bool) (key : list Z) : Prop :=
  (16 < length key)%nat /\ Z.of_nat (length key) + 9 + AEAD_LEN < 2 ^ 32 /\ root w rootAlias_ /\
  exists ver time, length time = TIME_SIZE /\
    if v1 then exists magic nonce, length magic = 4%nat /\ length nonce = NONCE_VALUE_SIZE /\
                 files w p = Some (magic ++ nonce ++ seal w rootAlias_ nonce (ver :: time ++ key))
    else files w p = Some (ver :: time ++ seal w rootAlias_ (Value.bytes_of_string RDB_HKS_BLOB_TYPE_NONCE) key).

Lemma is_file_empty_some p w c : files w p = Some c -> c <> [] -> IsFileEmpty p w = false.
Proof. intros Hf Hc. unfold IsFileEmpty. rewrite stat_law, Hf. by destruct c. Qed.

Lemma load_v0_spec p key s : ready s -> up s.2 -> old_stored s.2 p false key ->
  wp (LoadSecretKeyFromDiskV0 p) (fun '(ok, d) s' => idle s s' /\ ok = true /\ secretKey d = key) s.
Proof.
  intros Hready Hup (Hlo & Hhi & Hroot & ver & time & Ht & Hf). unfold LoadSecretKeyFromDiskV0. unfold AEAD_LEN in Hhi.
  apply wp_bind, wp_get. erewrite is_file_empty_some by done. apply wp_bind, wp_get. rewrite load_law, Hf.
  unfold DecryptV0. cbn [UnpackV0 snd encrypt_]. set (c := seal _ _ _ _) in *.
  assert (length c = length key + 16)%nat by apply seal_length.
  destruct (key_header_reads ver time c) as (d & Hd & _); [done|lia|]. cbn. rewrite Hd.
  apply wp_bind. eapply wp_mono; [eapply (decrypt_work_key_spec c _ key); try done|].
  - intros ->. simpl in Hlo. lia.
  - unfold AEAD_LEN. lia.
  - intros v s1 [Hi ->]. by apply wp_ret.
Qed.

Lemma load_v1_spec p key s : ready s -> up s.2 -> old_stored s.2 p true key ->
  wp (LoadSecretKeyFromDiskV1 p) (fun '(ok, d) s' => idle s s' /\ ok = true /\ secretKey d = key) s.
Proof.
  intros Hready Hup (Hlo & Hhi & Hroot & ver & time & Ht & magic & nonce & Hm & Hn & Hf). unfold LoadSecretKeyFromDiskV1.
  unfold AEAD_LEN in Hhi. apply wp_bind, wp_get. erewrite is_file_empty_some by (try done; by destruct magic).
  apply wp_bind, wp_get. rewrite load_law, Hf. set (c := seal _ _ _ _) in *.
  assert (length c = length key + 9 + 16)%nat as Hlc
    by (unfold c; rewrite seal_length; simpl; rewrite length_app, Ht; unfold TIME_SIZE; lia).
  unfold UnpackV1. rewrite !length_app, Hm, Hn, Hlc. unfold NONCE_VALUE_SIZE in *.
  rewrite (proj2 (Nat.leb_gt _ 4)), (proj2 (Nat.leb_gt _ (4 + 12))) by lia.
  assert (drop 4 (magic ++ nonce ++ c) = nonce ++ c) as E4 by by rewrite <- Hm, drop_app_length.
  rewrite E4, <- (drop_drop _ 12 4), E4.
  assert (take 12 (nonce ++ c) = nonce /\ drop 12 (nonce ++ c) = c) as [-> ->]
    by by rewrite <- Hn, take_app_length, drop_app_length.
  unfold DecryptV1. apply wp_bind. eapply wp_mono; [eapply (decrypt_work_key_spec c _ (ver :: time ++ key)); try done|].
  - simpl. rewrite length_app, Ht. unfold TIME_SIZE, AEAD_LEN. lia.
  - intros v s1 [Hi ->]. apply wp_ret. destruct (key_header_reads ver time key) as (d & -> & _); [done|done|]. done.
Qed.

Lemma load_empty_v0 p s : IsFileEmpty p s.2 = true -> wp (LoadSecretKeyFromDiskV0 p) (fun '(ok, _) s' => s' = s /\ ok = false) s.
Proof. intros He. unfold LoadSecretKeyFromDiskV0. apply wp_bind, wp_get. rewrite He. by apply wp_ret. Qed.

Lemma delete_files_touch ps w (P : string -> Prop) : (forall p, p ∈ ps -> ~ P p) ->
  serves w (DeleteFiles ps w).2 /\ (forall q, P q -> files (DeleteFiles ps w).2 q = files w q).
Proof.
  revert w. induction ps as [|p ps IH]; intros w HP; simpl; [by split; [apply serves_refl|]|].
  unfold DeleteFile. destruct (remove_law p w) as [[Hs Hf] _]. destruct (remove p w) as [err w1]. simpl in Hs, Hf.
  assert (forall q, P q -> files w1 q = files w q) as Hf1 by (intros q Hq; apply Hf; intros ->; eapply HP; [|done]; set_solver).
  destruct (match err with Some e => e =? ENOENT | None => true end); [|done].
  destruct (IH w1) as [Hs2 Hf2]; [set_solver|]. split; [by eapply serves_trans|].
  intros q Hq. by rewrite Hf2, Hf1.
Qed.

Lemma absent_empty w p : files w p = None -> IsFileEmpty p w = true.
Proof. intros Hf. unfold IsFileEmpty. by rewrite stat_law, Hf. Qed.

(** Deleting a file empties it or leaves it. *)
Lemma delete_file_law p w : touches p w (DeleteFile p w).2 /\
  (files (DeleteFile p w).2 p = None \/ files (DeleteFile p w).2 p = files w p).
Proof.
  unfold DeleteFile. destruct (remove_law p w) as [Ht Hf]. destruct (remove p w) as [e w']. simpl in *.
  split; [done|]. case_bool_decide; auto.
Qed.

(** Nothing but the file [p] and the files [ps] changed, and these were deleted at most. *)
Definition cleans (p : string) (ps : list string) w w' : Prop :=
  serves w w' /\ forall q, q <> p -> files w' q = files w q \/ q ∈ ps /\ files w' q = None.

Lemma cleans_touches p ps w w' : touches p w w' -> cleans p ps w w'.
Proof. intros [Hs Hf]. split; [done|]. auto. Qed.

Lemma cleans_trans p ps w1 w2 w3 : cleans p ps w1 w2 -> cleans p ps w2 w3 -> cleans p ps w1 w3.
Proof.
  intros [S1 F1] [S2 F2]. split; [by eapply serves_trans|]. intros q Hq.
  destruct (F2 q Hq) as [->|[? ->]]; [by apply F1|by right].
Qed.

Lemma delete_files_clean p ps w : cleans p ps w (DeleteFiles ps w).2.
Proof.
  revert w. induction ps as [|q ps IH]; intros w; simpl; [by apply cleans_touches|].
  destruct (delete_file_law q w) as [[Hs Hf] Hq]. destruct (DeleteFile q w) as [ok w1]. simpl in *.
  assert (cleans p (q :: ps) w w1) as Hc1.
  { split; [done|]. intros q' Hq'. destruct (decide (q' = q)) as [->|Hne]; [|left; by apply Hf].
    destruct Hq as [->| ->]; [right|by left]. split; [set_solver|done]. }
  destruct ok; [|done]. eapply cleans_trans; [exact Hc1|]. destruct (IH w1) as [S2 F2]. split; [done|].
  intros q' Hq'. destruct (F2 q' Hq') as [?|[? ?]]; [by left|right]. split; [set_solver|done].
Qed.

(** The round of [UpgradeKey] that has found a key. *)
Lemma upgrade_found_spec dbPath type key s : ready s -> up s.2 -> writable -> key <> [] -> Z.of_nat (length key) + AEAD_LEN < 2 ^ 32 ->
  wp (let! saved := SaveSecretKeyToFile (GetKeyFile dbPath type) key in
      if saved then let! _ := lift (call (DeleteFiles (old_key_paths dbPath type))) in ret tt else undefined)
     (fun _ s' => cleans (GetKeyFile dbPath type) (old_key_paths dbPath type) s.2 s'.2 /\
        ready s' /\ up s'.2 /\ stored s'.2 (GetKeyFile dbPath type) key) s.
Proof.
  intros Hready Hup Hdisk Hne Hlen. apply wp_bind. eapply wp_mono; [by apply save_spec|].
  intros ok s1 (Hw & Hok & Hwr). rewrite Hwr in * by done. destruct (Hok eq_refl) as (k & Hst & Hk & _). rewrite Hk in Hst by done.
  apply wp_bind, wp_lift. set (ps := old_key_paths dbPath type).
  destruct (delete_files_touch ps s1.2 (fun q => q = GetKeyFile dbPath type)) as [Hs Hf].
  { intros p Hp. by eapply key_file_old. }
  pose proof (delete_files_clean (GetKeyFile dbPath type) ps s1.2) as Hcl.
  destruct (DeleteFiles ps s1.2) as [b w] eqn:E. eapply wp_call; [exact E|]. apply wp_ret. simpl in *.
  split; [eapply cleans_trans; [apply cleans_touches, Hw|done]|].
  assert (ready s1) as Hready1 by by apply Hw. assert (up s1.2) by by apply Hw.
  split; [intros Hc; by apply Hs, Hready1|]. split; [by apply Hs|].
  destruct Hst as (? & ? & c & Hc & Hp). split; [done|]. split; [done|]. exists c. split; [by eapply sealed_serves|by rewrite Hf].
Qed.

(** Where [UpgradeKey] looks for a key: the first format, then the second. *)
Definition old_key w (dbPath : string) (key : list Z) : Prop :=
  old_stored w (dbKeyDir dbPath +:+ dbName dbPath +:+ ".pub_key") false key \/
  IsFileEmpty (dbKeyDir dbPath +:+ dbName dbPath +:+ ".pub_key") w = true /\
  old_stored w (dbKeyDir dbPath +:+ dbName dbPath +:+ ".pub_key_v1") true key.

Lemma old_stored_not_empty w p v1 key : old_stored w p v1 key -> IsFileEmpty p w = false.
Proof.
  intros (_ & _ & _ & ver & time & _ & Hf). destruct v1; [destruct Hf as (magic & nonce & Hm & _ & Hf)|];
    eapply is_file_empty_some; try done. by destruct magic.
Qed.

Lemma wp_bind_mono {A B} (m : run state A) (k k' : A -> run state B) Q s :
  (forall a s', wp (k a) Q s' -> wp (k' a) Q s') -> wp (bind m k) Q s -> wp (bind m k') Q s.
Proof. unfold wp, bind. intros Hk. destruct (m s) as [[a s']|]; [apply Hk|done]. Qed.

Lemma upgrade_spec dbPath key s : ready s -> up s.2 -> writable -> old_key s.2 dbPath key ->
  wp (UpgradeKey (GetKeyFile dbPath PUB_KEY_FILE) dbPath PUB_KEY_FILE)
     (fun _ s' => cleans (GetKeyFile dbPath PUB_KEY_FILE) (old_key_paths dbPath PUB_KEY_FILE) s.2 s'.2 /\
        ready s' /\ up s'.2 /\ stored s'.2 (GetKeyFile dbPath PUB_KEY_FILE) key) s.
Proof.
  intros Hready Hup Hdisk Hkey. unfold old_key in Hkey. unfold UpgradeKey. apply wp_bind, wp_get.
  set (p0 := dbKeyDir dbPath +:+ dbName dbPath +:+ ".pub_key") in *.
  set (p1 := dbKeyDir dbPath +:+ dbName dbPath +:+ ".pub_key_v1") in *.
  change (old_key_paths dbPath PUB_KEY_FILE) with [p0; p1] at 1 3. cbn [zip zip_with upgrade_loop].
  assert (key <> [] /\ Z.of_nat (length key) + AEAD_LEN < 2 ^ 32 /\ IsFilesEmpty [p0; p1] s.2 = false) as (Hne & Hlen & ->).
  { assert (exists p v1, old_stored s.2 p v1 key) as (p & v1 & Hlo & Hhi & _) by (destruct Hkey as [|[]]; eauto).
    split; [by intros ->; simpl in Hlo; lia|]. split; [lia|]. unfold IsFilesEmpty. simpl.
    destruct Hkey as [Ho|[He Ho]]; apply old_stored_not_empty in Ho; rewrite Ho, ?andb_false_r; done. }
  destruct Hkey as [Ho|[He Ho]].
  - apply wp_bind. eapply wp_mono; [by apply load_v0_spec|]. intros [ok d] s1 (Hi & -> & ->).
    assert ((length key =? 0)%nat = false) as -> by by destruct key. simpl.
    eapply wp_bind_mono; [|eapply wp_mono; [eapply (upgrade_found_spec dbPath PUB_KEY_FILE key s1); try done; [by apply Hi|by eapply idle_up]|]].
    + intros []; [done|]. intros ? Hu. exact (False_ind _ Hu).
    + intros ? s2 (Hcl & Hrest). split; [|done]. eapply cleans_trans; [|exact Hcl]. by apply cleans_touches, keeps_touches, Hi.
  - apply wp_bind. eapply wp_mono; [by apply load_empty_v0|]. intros [ok d] s1 [-> ->]. simpl.
    apply wp_bind. eapply wp_mono; [by apply load_v1_spec|]. intros [ok' d'] s1 (Hi & -> & ->).
    assert ((length key =? 0)%nat = false) as -> by by destruct key. simpl.
    eapply wp_bind_mono; [|eapply wp_mono; [eapply (upgrade_found_spec dbPath PUB_KEY_FILE key s1); try done; [by apply Hi|by eapply idle_up]|]].
    + intros []; [done|]. intros ? Hu. exact (False_ind _ Hu).
    + intros ? s2 (Hcl & Hrest). split; [|done]. eapply cleans_trans; [|exact Hcl]. by apply cleans_touches, keeps_touches, Hi.
Qed.

(** The old files hold this key, each that is there. *)
Definition old_agree w dbPath key : Prop :=
  (IsFileEmpty (dbKeyDir dbPath +:+ dbName dbPath +:+ ".pub_key") w = true \/
   old_stored w (dbKeyDir dbPath +:+ dbName dbPath +:+ ".pub_key") false key) /\
  (IsFileEmpty (dbKeyDir dbPath +:+ dbName dbPath +:+ ".pub_key_v1") w = true \/
   old_stored w (dbKeyDir dbPath +:+ dbName dbPath +:+ ".pub_key_v1") true key).

Lemma old_agree_key w dbPath key : old_agree w dbPath key ->
  if IsFilesEmpty (old_key_paths dbPath PUB_KEY_FILE) w then True else old_key w dbPath key.
Proof.
  intros [A1 A2]. change (old_key_paths dbPath PUB_KEY_FILE) with
    [dbKeyDir dbPath +:+ dbName dbPath +:+ ".pub_key"; dbKeyDir dbPath +:+ dbName dbPath +:+ ".pub_key_v1"].
  destruct (IsFilesEmpty _ w) eqn:E; [done|]. destruct A1 as [E1|A1]; [|by left]. right. split; [done|].
  destruct A2 as [E2|A2]; [|done]. unfold IsFilesEmpty in E. cbn in E. by rewrite E1, E2 in E.
Qed.

Lemma old_stored_cleans f ps w w' p v1 key : cleans f ps w w' -> p <> f ->
  IsFileEmpty p w = true \/ old_stored w p v1 key -> IsFileEmpty p w' = true \/ old_stored w' p v1 key.
Proof.
  intros [[_ Hs] Hf] Hp Ho. destruct (Hf p Hp) as [Hq|[_ Hq]]; [|left; by apply absent_empty].
  destruct Ho as [He|(Hlo & Hhi & Hroot & ver & time & Ht & Ho)]; [left; unfold IsFileEmpty in *; rewrite stat_law in *; by rewrite Hq|right].
  destruct (Hs _ Hroot) as [Hr Hseal]. split; [done|]. split; [done|]. split; [done|]. exists ver, time. split; [done|].
  rewrite Hq. destruct v1; [|by rewrite Hseal]. destruct Ho as (magic & nonce & Hm & Hn & Ho). exists magic, nonce. by rewrite Hseal.
Qed.

Lemma old_agree_cleans ps w w' dbPath key : cleans (GetKeyFile dbPath PUB_KEY_FILE) ps w w' -> old_agree w dbPath key -> old_agree w' dbPath key.
Proof.
  intros Hc [A1 A2]. split; (eapply old_stored_cleans; [exact Hc| |done]); eapply (key_file_old dbPath PUB_KEY_FILE);
    unfold old_key_paths; cbn; set_solver.
Qed.

(** With files of earlier formats that agree on a key: it is the password, stored in the current format. *)
Lemma get_password_upgrades dbPath key s : ready s -> up s.2 -> writable -> old_agree s.2 dbPath key ->
  IsFilesEmpty (old_key_paths dbPath PUB_KEY_FILE) s.2 = false -> (length key <= RdbPassword.MAX_PASSWORD_SIZE)%nat ->
  wp (GetRdbPassword dbPath PUB_KEY_FILE) (fun pw s' => RdbPassword.value pw = key /\ ready s' /\ up s'.2 /\
    cleans (GetKeyFile dbPath PUB_KEY_FILE) (old_key_paths dbPath PUB_KEY_FILE) s.2 s'.2 /\
    stored s'.2 (GetKeyFile dbPath PUB_KEY_FILE) key) s.
Proof.
  intros Hready Hup Hdisk Ho He Hlen. pose proof (old_agree_key _ _ _ Ho) as Hkey. rewrite He in Hkey.
  unfold GetRdbPassword. apply wp_bind. eapply wp_mono; [by apply upgrade_spec|]. intros ? s1 (Hcl & Hr & Hu & Hst). apply wp_bind, wp_get.
  erewrite stored_not_empty by done. apply wp_bind, wp_ret. eapply wp_mono; [by apply load_password_spec|].
  intros pw s2 [Hi Hv]. split; [done|]. split; [by apply Hi|]. split; [by eapply idle_up|]. split; [|eapply stored_keeps; [apply Hi|done]].
  eapply cleans_trans; [exact Hcl|]. by apply cleans_touches, keeps_touches, Hi.
Qed.

(** Without them, what was given once is given again. *)
Lemma password_repeats dbPath type s : ready s -> up s.2 -> IsFilesEmpty (old_key_paths dbPath type) s.2 = true ->
  (IsFileEmpty (GetKeyFile dbPath type) s.2 = true \/
   exists key, stored s.2 (GetKeyFile dbPath type) key /\ (length key <= RdbPassword.MAX_PASSWORD_SIZE)%nat) ->
  exists pw s1, GetRdbPassword dbPath type s = Some (pw, s1) /\
    (RdbPassword.IsValid pw = true ->
     exists pw' s2, GetRdbPassword dbPath type s1 = Some (pw', s2) /\ RdbPassword.value pw' = RdbPassword.value pw /\
       forall q, q <> GetKeyFile dbPath type -> files s2.2 q = files s.2 q).
Proof.
  intros Hready Hup Hold Hfile.
  destruct (wp_run _ _ _ (get_password_spec dbPath type s Hready Hup Hold Hfile)) as (pw & s1 & E & [[Hs Hf] Hr] & _ & Hst).
  exists pw, s1. split; [done|]. intros Hvalid. destruct (Hst Hvalid) as [Hst1 Hlen].
  assert (IsFilesEmpty (old_key_paths dbPath type) s1.2 = true) as Hold1.
  { rewrite (files_empty_ext _ s.2); [done|]. intros p Hp. apply Hf. by eapply key_file_old. }
  destruct (wp_run _ _ _ (get_password_spec dbPath type s1 (Hr Hready) (proj1 Hs Hup) Hold1 (or_intror (ex_intro _ _ (conj Hst1 Hlen)))))
    as (pw' & s2 & E2 & [[_ Hf2] _] & Hv & _).
  exists pw', s2. split; [done|]. split; [by apply Hv|]. intros q Hq. by rewrite Hf2, Hf.
Qed.

(** A stored key that the old files agree with is the password. *)
Lemma get_password_again dbPath key s : ready s -> up s.2 -> writable -> old_agree s.2 dbPath key ->
  stored s.2 (GetKeyFile dbPath PUB_KEY_FILE) key -> (length key <= RdbPassword.MAX_PASSWORD_SIZE)%nat ->
  wp (GetRdbPassword dbPath PUB_KEY_FILE) (fun pw s' => RdbPassword.value pw = key /\
    cleans (GetKeyFile dbPath PUB_KEY_FILE) (old_key_paths dbPath PUB_KEY_FILE) s.2 s'.2) s.
Proof.
  intros Hready Hup Hdisk Ho Hst Hlen. destruct (IsFilesEmpty (old_key_paths dbPath PUB_KEY_FILE) s.2) eqn:He.
  - eapply wp_mono; [by apply get_password_spec; [| | |right; exists key]|]. intros pw s' (Hw & Hv & _).
    split; [by apply Hv|]. by apply cleans_touches, Hw.
  - eapply wp_mono; [by apply get_password_upgrades|]. by intros pw s' (? & _ & _ & ? & _).
Qed.

(** *** The two key files of a database together *)

(** The file of the new key is empty, or holds a key. *)
Definition new_key_ok w dbPath : Prop :=
  IsFileEmpty (GetKeyFile dbPath PUB_KEY_FILE_NEW_KEY) w = true \/
  exists k, stored w (GetKeyFile dbPath PUB_KEY_FILE_NEW_KEY) k /\ (length k <= RdbPassword.MAX_PASSWORD_SIZE)%nat.

Definition no_old_files w dbPath : Prop := forall type, IsFilesEmpty (old_key_paths dbPath type) w = true.

(** The key service answers, the files have the current format, and the key file holds [key]. *)
Definition holds s dbPath key : Prop :=
  ready s /\ up s.2 /\ new_key_ok s.2 dbPath /\ no_old_files s.2 dbPath /\
  stored s.2 (GetKeyFile dbPath PUB_KEY_FILE) key /\ (length key <= RdbPassword.MAX_PASSWORD_SIZE)%nat.

(** Nothing but the two files changes. *)
Definition two_files dbPath w w' : Prop :=
  serves w w' /\ forall q, (forall type, q <> GetKeyFile dbPath type) -> files w' q = files w q.

Lemma touches_two_files dbPath type w w' : touches (GetKeyFile dbPath type) w w' -> two_files dbPath w w'.
Proof. intros [Hs Hf]. split; [done|]. intros q Hq. by apply Hf. Qed.

Lemma two_files_trans dbPath w1 w2 w3 : two_files dbPath w1 w2 -> two_files dbPath w2 w3 -> two_files dbPath w1 w3.
Proof. intros [S1 F1] [S2 F2]. split; [by eapply serves_trans|]. intros q Hq. by rewrite F2, F1. Qed.

Lemma two_files_old dbPath w w' : two_files dbPath w w' -> no_old_files w dbPath -> no_old_files w' dbPath.
Proof.
  intros [_ Hf] Ho type. rewrite (files_empty_ext _ w); [apply Ho|]. intros p Hp. apply Hf. intros type'. by eapply key_file_old.
Qed.

Lemma serves_ready s w : serves s.2 w -> ready s -> ready (s.1, w).
Proof. intros [_ Hs] Hr Hc. by apply Hs, Hr. Qed.

Lemma stored_same w w' p key : serves w w' -> files w' p = files w p -> stored w p key -> stored w' p key.
Proof.
  intros Hs Hf (Hne & Hlen & c & Hc & Hp). split; [done|]. split; [done|]. exists c.
  split; [by eapply sealed_serves|by rewrite Hf].
Qed.

Lemma new_key_ok_same w w' dbPath : serves w w' ->
  files w' (GetKeyFile dbPath PUB_KEY_FILE_NEW_KEY) = files w (GetKeyFile dbPath PUB_KEY_FILE_NEW_KEY) ->
  new_key_ok w dbPath -> new_key_ok w' dbPath.
Proof.
  intros Hs Hf [He|(k & Hk & Hlen)]; [left|right].
  - unfold IsFileEmpty in *. by rewrite stat_law in *; rewrite Hf.
  - exists k. split; [|done]. by eapply stored_same.
Qed.

Definition renamable : Prop := forall src dst w, files w src <> None -> (rename src dst w).1 = true.

Lemma change_holds dbPath key s : ready s -> up s.2 -> no_old_files s.2 dbPath -> renamable ->
  stored s.2 (GetKeyFile dbPath PUB_KEY_FILE_NEW_KEY) key -> (length key <= RdbPassword.MAX_PASSWORD_SIZE)%nat ->
  wp (ChangeKeyFile dbPath) (fun _ s' => holds s' dbPath key) s.
Proof.
  intros Hready Hup Hold Hren Hst Hlen. unfold ChangeKeyFile. apply wp_bind, wp_lift. unfold RenameFile.
  destruct (rename (GetKeyFile dbPath PUB_KEY_FILE_NEW_KEY) (GetKeyFile dbPath PUB_KEY_FILE) s.2) as [ok w] eqn:E.
  eapply wp_call; [exact E|]. apply wp_ret. assert (ok = true) as ->.
  { assert (ok = (rename (GetKeyFile dbPath PUB_KEY_FILE_NEW_KEY) (GetKeyFile dbPath PUB_KEY_FILE) s.2).1) as -> by by rewrite E.
    apply Hren. destruct Hst as (_ & _ & c & _ & ->). done. }
  destruct (rename_law _ _ _ _ _ E) as (Hs & Hother & Hdst & Hsrc).
  split; [by apply serves_ready|]. split; [by apply Hs|]. split; [left; apply absent_empty, Hsrc; intros ?; by eapply key_files_differ|].
  split; [eapply two_files_old; [split; [exact Hs|]|done]; intros q Hq; apply Hother; apply Hq|].
  split; [|done]. destruct Hst as (Hne & Hl & c & Hc & Hf). split; [done|]. split; [done|]. exists c. simpl.
  split; [by eapply sealed_serves|congruence].
Qed.

Lemma delete_new_holds dbPath key s : holds s dbPath key ->
  wp (DelKeyFile dbPath PUB_KEY_FILE_NEW_KEY) (fun _ s' => holds s' dbPath key) s.
Proof.
  intros (Hready & Hup & Hnew & Hold & Hst & Hlen). unfold DelKeyFile. apply wp_bind, wp_lift.
  set (f := GetKeyFile dbPath PUB_KEY_FILE_NEW_KEY). destruct (delete_file_law f s.2) as [Ht Hf].
  destruct (DeleteFile f s.2) as [b w] eqn:E. eapply wp_call; [exact E|]. apply wp_ret. simpl in Ht, Hf.
  assert (Hs := proj1 Ht). split; [by apply serves_ready|]. split; [by apply Hs|].
  split; [destruct Hf as [Hf|Hf]; [left; by apply absent_empty|by eapply new_key_ok_same]|].
  split; [eapply two_files_old; [by eapply touches_two_files|done]|]. split; [|done].
  eapply stored_touches; [exact Ht|apply key_files_differ|done].
Qed.

Lemma restore_holds dbPath key s : ready s -> up s.2 -> new_key_ok s.2 dbPath -> no_old_files s.2 dbPath -> writable ->
  key <> [] -> (length key <= RdbPassword.MAX_PASSWORD_SIZE)%nat ->
  wp (RestoreKeyFile dbPath key) (fun _ s' => holds s' dbPath key) s.
Proof.
  intros Hready Hup Hnew Hold Hwr Hne Hlen. unfold RestoreKeyFile.
  set (f := GetKeyFile dbPath PUB_KEY_FILE). set (g := GetKeyFile dbPath PUB_KEY_FILE_NEW_KEY).
  apply wp_bind, wp_lift. destruct (delete_file_law f s.2) as [Ht _]. destruct (DeleteFile f s.2) as [b w] eqn:E.
  eapply wp_call; [exact E|]. apply wp_bind, wp_lift. simpl in Ht. cbn [fst snd].
  destruct (delete_file_law g w) as [Ht2 Hg]. destruct (DeleteFile g w) as [b2 w2] eqn:E2. eapply wp_call; [exact E2|].
  simpl in Ht2, Hg. assert (serves s.2 w2) as Hs by (eapply serves_trans; [apply Ht|apply Ht2]).
  assert (f <> g) as Hfg by apply key_files_differ. unfold RdbPassword.MAX_PASSWORD_SIZE in Hlen.
  apply wp_bind. eapply wp_mono; [apply save_spec; [by apply serves_ready|unfold AEAD_LEN; lia]|]. cbn [snd].
  intros ok s3 ((Ht3 & Hr3) & Hst & Hok). apply wp_ret. rewrite Hok in Hst by (try apply Hs; done).
  destruct (Hst eq_refl) as (k & Hk & Heq & _). rewrite Heq in Hk by done. cbn [snd] in Ht3.
  split; [by apply Hr3, serves_ready|]. split; [by apply Ht3, Hs|]. split; [|split; [|split; [done|exact Hlen]]].
  - eapply new_key_ok_same; [apply Ht3|by apply Ht3|]. destruct Hg as [Hg|Hg]; [left; by apply absent_empty|].
    eapply new_key_ok_same; [exact Hs| |exact Hnew]. fold g. rewrite Hg. by apply Ht.
  - eapply two_files_old; [|exact Hold]. eapply two_files_trans; [by apply (touches_two_files dbPath PUB_KEY_FILE s.2 w)|].
    eapply two_files_trans; [by apply (touches_two_files dbPath PUB_KEY_FILE_NEW_KEY w w2)|]. by eapply touches_two_files.
Qed.

End Laws.
End SecurityInv.

(** A system with one session at a time, whose encryption appends a constant tag. *)
Module SmallKeys.
Import Huks Files KeyLaws.

Record world := {
  disk : gmap string (list Z);
  current : option (list Z * purpose * list Z)
}.

Definition tag : list Z := replicate 16 7.

#[export] Instance small_huks : Huks world := {
  handle := unit;
  ParamSet _ w := (HKS_SUCCESS, w);
  HksGenerateKey _ w := (HKS_SUCCESS, w);
  HksKeyExist _ w := (HKS_SUCCESS, w);
  HksGenerateRandom n w := ((HKS_SUCCESS, replicate n 5), w);
  HksInit a p w := ((HKS_SUCCESS, tt), {w with current := Some (a, p, [])});
  HksUpdate _ x w :=
    match current w with
    | Some (a, p, c) => ((HKS_SUCCESS, []), {w with current := Some (a, p, c ++ x)})
    | None => ((HKS_FAILURE, []), w)
    end;
  HksFinish _ x w :=
    match current w with
    | Some (_, ENCRYPT _, c) => ((HKS_SUCCESS, (c ++ x) ++ tag), {w with current := None})
    | Some (_, DECRYPT _ t, c) =>
        if bool_decide (t = tag) then ((HKS_SUCCESS, c ++ x), {w with current := None})
        else ((HKS_FAILURE, []), {w with current := None})
    | None => ((HKS_FAILURE, []), w)
    end;
  HMAC l := replicate 32 (Z.of_nat (length l) mod 256);
  dlopen w := (true, w);
  dlsym _ _ := true
}.

#[export] Instance small_files : Files world := {
  stat_size p w := (fun c => Z.of_nat (length c)) <$> disk w !! p;
  LoadBufferFromFile p w := disk w !! p;
  open_create p w := (true, match disk w !! p with Some _ => w | None => {w with disk := <[p := []]> (disk w)} end);
  SaveBufferToFile p c w := (true, {w with disk := <[p := c]> (disk w)});
  remove p w := (match disk w !! p with Some _ => None | None => Some ENOENT end, {w with disk := delete p (disk w)});
  rename src dst w :=
    match disk w !! src with
    | Some c => (true, {w with disk := <[dst := c]> (delete src (disk w))})
    | None => (false, w)
    end;
  access _ _ := true;
  MkDir _ w := (None, w)
}.

#[export] Instance small_model : KeyModel world := {
  files w p := disk w !! p;
  root _ _ := True;
  seal _ _ _ m := m ++ tag;
  up _ := True;
  session w _ a p c o := current w = Some (a, p, c) /\ o = []
}.

#[export] Instance small_key_laws : KeyLaws world.
Proof.
  split.
  - done.
  - intros a w r w' [= <- <-]. split; [reflexivity|]. split; [done|]. by left.
  - done.
  - intros n w r v w' [= <- <- <-]. split; [done|]. split; [apply length_replicate|done].
  - intros a p w r h w' [= <- <- <-]. split; [by repeat split|]. done.
  - intros h x w r o w' a p c out Hu [Hc ->]. unfold HksUpdate, small_huks in Hu. rewrite Hc in Hu. simplify_eq.
    split; [by repeat split|]. done.
  - intros h x w r o w' a n c out Hu [Hc ->]. unfold HksFinish, small_huks in Hu. rewrite Hc in Hu. simplify_eq.
    split; [by repeat split|]. done.
  - intros h x w r o w' a n t c out Hu [Hc ->] Ht. unfold HksFinish, small_huks in Hu. rewrite Hc in Hu.
    destruct (bool_decide_reflect (t = tag)) as [->|Hne]; simplify_eq; (split; [by repeat split|]); [done|].
    split; [done|]. intros _ [m Hm]. destruct Hne. simpl in Hm.
    by apply app_inj_2 in Hm as [_ ->].
  - intros w a n m m' _ Hs. by apply app_inv_tail in Hs.
  - intros w a n m. simpl. by rewrite length_app.
  - done.
  - done.
  - done.
  - done.
  - intros p w. split; [by repeat split; simpl; case_match|]. simpl. intros q Hq. case_match; [done|]. simpl. by rewrite lookup_insert_ne.
  - intros p c w. split; [split; [by repeat split|]|]; simpl; [|by rewrite lookup_insert_eq].
    intros q Hq. by rewrite lookup_insert_ne.
  - intros p w. split; [split; [by repeat split|]|]; simpl; [intros q Hq; by rewrite lookup_delete_ne|].
    rewrite lookup_delete_eq. rewrite bool_decide_eq_true_2; [done|]. case_match; auto.
  - intros src dst w ok w' Hr. unfold rename, small_files in Hr. destruct (disk w !! src) as [c|] eqn:E; simplify_eq.
    + split; [by repeat split|]. simpl. split; [intros q H1 H2; by rewrite lookup_insert_ne, lookup_delete_ne|].
      split; [by rewrite lookup_insert_eq|]. intros Hne. by rewrite lookup_insert_ne, lookup_delete_eq.
    + by repeat split.
  - done.
Qed.

End SmallKeys.

Module SecurityProps.
Import Huks Files KeyLaws SecurityManager SecurityInv.

(** C32: a key that [SaveSecretKeyToFile] stored is what [LoadSecretKeyFromFile] gives, as long as
    the key service answers: it went to the service in pieces of at most 64 bytes, into the file
    with nonce and check sum, and back.  Reading changes no file. *)
Theorem key_file_roundtrip {W} `{KeyLaws W} p k (s s' : SecurityManager.t * W) :
  ready s -> k <> [] -> (length k <= RdbPassword.MAX_PASSWORD_SIZE)%nat ->
  SaveSecretKeyToFile p k s = Some (true, s') -> up s'.2 ->
  exists pw s'', LoadSecretKeyFromFile p s' = Some (pw, s'') /\ RdbPassword.value pw = k /\
    forall q, files s''.2 q = files s'.2 q.
Proof.
  intros Hready Hne Hlen Hsave Hup. unfold RdbPassword.MAX_PASSWORD_SIZE in Hlen.
  assert (Z.of_nat (length k) + AEAD_LEN < 2 ^ 32) as Hl by (unfold AEAD_LEN; lia).
  destruct (wp_run _ _ _ (save_spec p k s Hready Hl)) as (ok & s1 & E & [_ Hr] & Hst & _). simplify_eq.
  destruct (Hst eq_refl) as (key & Hkey & Hk & _). rewrite Hk in Hkey by done.
  destruct (wp_run _ _ _ (load_password_spec p k s' (Hr Hready) Hup Hkey Hlen)) as (pw & s2 & E2 & [[_ Hf] _] & Hv).
  exists pw, s2. auto.
Qed.

(** C31: the password of a database is stable while the key service is up, in a process that has its root key if it says
    so ([ready]).  Where there is no file of an earlier format, the key file of [dbPath] is empty or holds a key of at most 128 bytes that
    was sealed by the service: where it is empty a key is made, and if [GetRdbPassword] gives a password at
    all, the next call gives the same one, and no other file changed.  Where there are files of earlier formats of the current key, all of one key, and the
    disk takes the writes, the password is that key, also the second time, and at most the old files were deleted.  (If the
    disk refuses the first write of such an upgrade, a new random key is made and given instead.) *)
Theorem password_stable {W} `{KeyLaws W} dbPath type (s : SecurityManager.t * W) :
  ready s -> up s.2 ->
  (IsFilesEmpty (old_key_paths dbPath type) s.2 = true /\
   (IsFileEmpty (GetKeyFile dbPath type) s.2 = true \/
    exists key, stored s.2 (GetKeyFile dbPath type) key /\ (length key <= RdbPassword.MAX_PASSWORD_SIZE)%nat)) \/
  (type = PUB_KEY_FILE /\ writable /\ IsFilesEmpty (old_key_paths dbPath type) s.2 = false /\
   exists key, old_agree s.2 dbPath key /\ (length key <= RdbPassword.MAX_PASSWORD_SIZE)%nat) ->
  exists pw s1, GetRdbPassword dbPath type s = Some (pw, s1) /\
    (IsFilesEmpty (old_key_paths dbPath type) s.2 = false -> old_agree s.2 dbPath (RdbPassword.value pw)) /\
    (RdbPassword.IsValid pw = true ->
     exists pw' s2, GetRdbPassword dbPath type s1 = Some (pw', s2) /\ RdbPassword.value pw' = RdbPassword.value pw /\
       forall q, q <> GetKeyFile dbPath type -> files s2.2 q = files s.2 q \/
         IsFilesEmpty (old_key_paths dbPath type) s.2 = false /\ q ∈ old_key_paths dbPath type /\ files s2.2 q = None).
Proof.
  intros Hready Hup [[Hold Hfile]|(-> & Hdisk & Hold & key & Ho & Hlen)].
  - destruct (password_repeats dbPath type s Hready Hup Hold Hfile) as (pw & s1 & E & Hr). exists pw, s1. split; [done|].
    rewrite Hold. split; [done|]. intros Hv. destruct (Hr Hv) as (pw' & s2 & E2 & Hp & Hf). exists pw', s2. auto.
  - destruct (wp_run _ _ _ (get_password_upgrades dbPath key s Hready Hup Hdisk Ho Hold Hlen)) as (pw & s1 & E & Hv & Hr1 & Hu1 & Hc1 & Hst1).
    exists pw, s1. split; [done|]. rewrite Hold. split; [by rewrite Hv|]. intros _.
    destruct (wp_run _ _ _ (get_password_again dbPath key s1 Hr1 Hu1 Hdisk (old_agree_cleans _ _ _ _ _ Hc1 Ho) Hst1 Hlen)) as (pw' & s2 & E2 & Hv' & Hc2).
    exists pw', s2. split; [done|]. split; [congruence|]. intros q Hq.
    destruct (cleans_trans _ _ _ _ _ Hc1 Hc2) as [_ Hf]. destruct (Hf q Hq) as [?|[? ?]]; auto.
Qed.

(** the password survives the upgrade of its key file from the first format (a constant nonce,
    the key encrypted behind a header) or the second one (header and key encrypted together): on a
    disk that takes the write, [GetRdbPassword] gives the old key and has stored it anew. *)
Theorem upgrade_keeps_key {W} `{KeyLaws W} dbPath key (s : SecurityManager.t * W) :
  ready s -> up s.2 -> writable -> old_key s.2 dbPath key -> (length key <= RdbPassword.MAX_PASSWORD_SIZE)%nat ->
  exists pw s1, GetRdbPassword dbPath PUB_KEY_FILE s = Some (pw, s1) /\ RdbPassword.value pw = key /\
    stored s1.2 (GetKeyFile dbPath PUB_KEY_FILE) key.
Proof.
  intros Hready Hup Hdisk Hkey Hlen. apply wp_run. unfold GetRdbPassword. apply wp_bind.
  eapply wp_mono; [by apply upgrade_spec|]. intros ? s1 (_ & Hr & Hu & Hst). apply wp_bind, wp_get.
  erewrite stored_not_empty by done. apply wp_bind, wp_ret. eapply wp_mono; [by apply load_password_spec|].
  intros pw s2 [Hi Hv]. split; [done|]. eapply stored_keeps; [apply Hi|done].
Qed.

(** [ChangeKeyFile] makes the new key of a database its key. *)
Theorem changed_key_file {W} `{KeyLaws W} dbPath key (s : SecurityManager.t * W) :
  ready s -> up s.2 -> stored s.2 (GetKeyFile dbPath PUB_KEY_FILE_NEW_KEY) key ->
  (length key <= RdbPassword.MAX_PASSWORD_SIZE)%nat -> IsFilesEmpty (old_key_paths dbPath PUB_KEY_FILE) s.2 = true ->
  (rename (GetKeyFile dbPath PUB_KEY_FILE_NEW_KEY) (GetKeyFile dbPath PUB_KEY_FILE) s.2).1 = true ->
  exists s1 pw s2, ChangeKeyFile dbPath s = Some (tt, s1) /\ GetRdbPassword dbPath PUB_KEY_FILE s1 = Some (pw, s2) /\
    RdbPassword.value pw = key.
Proof.
  intros Hready Hup (Hne & Hl & c & Hc & Hf) Hlen Hold Hren. unfold ChangeKeyFile, bind, lift, call, RenameFile.
  destruct (rename _ _ s.2) as [ok w] eqn:E. simpl in Hren. subst ok. simpl.
  destruct (rename_law _ _ _ _ _ E) as (Hs & Hother & Hdst & _).
  assert (stored w (GetKeyFile dbPath PUB_KEY_FILE) key) as Hst.
  { split; [done|]. split; [done|]. exists c. split; [by eapply sealed_serves|congruence]. }
  assert (IsFilesEmpty (old_key_paths dbPath PUB_KEY_FILE) w = true) as Hold1.
  { rewrite (files_empty_ext _ s.2); [done|]. intros p Hp. apply Hother; by eapply key_file_old. }
  assert (ready (s.1, w)) as Hready1 by (intros Hcr; by apply Hs, Hready).
  destruct (wp_run _ _ _ (get_password_spec dbPath PUB_KEY_FILE (s.1, w) Hready1 (proj1 Hs Hup) Hold1
    (or_intror (ex_intro _ _ (conj Hst Hlen))))) as (pw & s2 & E2 & _ & Hv & _).
  exists (s.1, w), pw, s2. split; [done|]. split; [done|]. by apply Hv.
Qed.

(** A history of a password object. *)
Inductive filled : RdbPassword.t -> Prop :=
| filled_new : filled RdbPassword.new
| filled_set key p : filled p -> filled (RdbPassword.SetValue key p).2.

(** a password object holds the last key it accepted and nothing of the ones before: whatever
    was set and cleared, the bytes behind the current password are the filling value or were
    never written. *)
Theorem password_leaves_nothing p : filled p -> clean p /\ (RdbPassword.Clear p).1 = E_OK /\
  Forall (fun b => b = 0 \/ b = RdbPassword.UCHAR_MAX) (RdbPassword.data_ (RdbPassword.Clear p).2).
Proof.
  intros Hp. assert (clean p) as Hc by (induction Hp; auto using new_clean, set_value_clean).
  split; [done|]. split; [done|]. by apply (set_value_clean [] p).
Qed.

(** The check sum of a key file is compared but the outcome is only reported. *)
Theorem hmac_ignored data mac mac' : length mac = HMAC_SIZE -> length mac' = HMAC_SIZE ->
  Unpack (data ++ mac) = Unpack (data ++ mac').
Proof.
  intros Hm Hm'. unfold Unpack. rewrite !length_app, Hm, Hm'.
  replace (length data + HMAC_SIZE - HMAC_SIZE)%nat with (length data) by lia. by rewrite !take_app_length.
Qed.

(** A key file with fewer than 16 encrypted bytes is accepted by [Unpack], and [Decrypt] of the
    cryptographic library then takes its tag from in front of the buffer. *)
Theorem short_key_file_undefined {W} `{KeyLaws W} p content (s : SecurityManager.t * W) :
  rdbCrypto_ s.1 = true -> files s.2 p = Some content ->
  (1 + NONCE_VALUE_SIZE + HMAC_SIZE < length content < 1 + NONCE_VALUE_SIZE + 16 + HMAC_SIZE)%nat ->
  LoadSecretKeyFromFile p s = None.
Proof.
  intros Hc Hf Hlen. unfold LoadSecretKeyFromFile, LoadSecretKeyFromDisk, bind, get. rewrite load_law, Hf.
  unfold Unpack, NONCE_VALUE_SIZE, HMAC_SIZE in *. rewrite (proj2 (Nat.leb_gt _ 8)) by lia.
  rewrite length_take, (proj2 (Nat.leb_gt _ (1 + 12))) by lia.
  unfold Decrypt, DecryptWorkKey, GetDelegate, bind, lift. rewrite Hc. unfold Crypt.Decrypt, bind, Crypt.read. simpl.
  rewrite length_drop, length_take. rewrite (proj2 (Z.leb_gt 0 _)) by (unfold Crypt.AEAD_LEN; lia). done.
Qed.

(** *** Witnesses *)

Import SmallKeys.

Definition demo_key : list Z := replicate 100 9.
Definition demo_db : string := "/data/rdb/a.db".
Definition fresh (d : gmap string (list Z)) : SecurityManager.t * world := (new, {| disk := d; current := None |}).

Lemma fresh_ready d : ready (fresh d).
Proof. done. Defined.

Definition after_save : SecurityManager.t * world :=
  match SaveSecretKeyToFile "/k" demo_key (fresh ∅) with Some (_, s) => s | None => fresh ∅ end.

Lemma key_file_roundtrip_witness :
  SaveSecretKeyToFile "/k" demo_key (fresh ∅) = Some (true, after_save) /\
  exists pw s, LoadSecretKeyFromFile "/k" after_save = Some (pw, s) /\ RdbPassword.value pw = demo_key /\
    forall q, files s.2 q = files after_save.2 q.
Proof.
  split; [vm_compute; reflexivity|].
  apply (key_file_roundtrip "/k" demo_key (fresh ∅) after_save); [apply fresh_ready|done|vm_compute; lia|vm_compute; reflexivity|exact I].
Defined.

(** The key was really made: it has 32 bytes. *)
Example fresh_password : (fun r => RdbPassword.size_ r.1) <$> GetRdbPassword demo_db PUB_KEY_FILE (fresh ∅) = Some 32%nat.
Proof. vm_compute. reflexivity. Qed.

Definition old_disk : gmap string (list Z) := {[ "/data/rdb/key/a.pub_key" := 1 :: replicate 8 0 ++ demo_key ++ tag ]}.

Lemma demo_old_agree : old_agree (fresh old_disk).2 demo_db demo_key.
Proof.
  split; [right|left; vm_compute; reflexivity]. split; [vm_compute; lia|]. split; [vm_compute; reflexivity|]. split; [exact I|].
  exists 1, (replicate 8 0). split; [done|]. vm_compute. reflexivity.
Qed.

Lemma password_stable_witness :
  (exists pw s1, GetRdbPassword demo_db PUB_KEY_FILE (fresh ∅) = Some (pw, s1) /\
    (RdbPassword.IsValid pw = true ->
     exists pw' s2, GetRdbPassword demo_db PUB_KEY_FILE s1 = Some (pw', s2) /\
       RdbPassword.value pw' = RdbPassword.value pw)) /\
  (exists pw s1, GetRdbPassword demo_db PUB_KEY_FILE (fresh old_disk) = Some (pw, s1) /\ old_agree (fresh old_disk).2 demo_db (RdbPassword.value pw)).
Proof.
  split.
  - destruct (password_stable demo_db PUB_KEY_FILE (fresh ∅)) as (pw & s1 & E & _ & Hr);
      [apply fresh_ready|exact I|left; split; [vm_compute; reflexivity|left; vm_compute; reflexivity]|].
    exists pw, s1. split; [exact E|]. intros Hv. destruct (Hr Hv) as (pw' & s2 & E2 & Hp & _). by exists pw', s2.
  - destruct (password_stable demo_db PUB_KEY_FILE (fresh old_disk)) as (pw & s1 & E & Hk & _); [apply fresh_ready|exact I| |].
    + right. split; [reflexivity|]. split; [by split|]. split; [vm_compute; reflexivity|]. exists demo_key. split; [exact demo_old_agree|vm_compute; lia].
    + exists pw, s1. split; [exact E|]. apply Hk. vm_compute. reflexivity.
Defined.

Lemma upgrade_keeps_key_witness :
  exists pw s1, GetRdbPassword demo_db PUB_KEY_FILE (fresh old_disk) = Some (pw, s1) /\ RdbPassword.value pw = demo_key /\
    stored s1.2 (GetKeyFile demo_db PUB_KEY_FILE) demo_key.
Proof.
  apply upgrade_keeps_key; [apply fresh_ready|exact I|by split| |vm_compute; lia].
  left. split; [vm_compute; lia|]. split; [vm_compute; reflexivity|]. split; [exact I|].
  exists 1, (replicate 8 0). split; [done|]. vm_compute. reflexivity.
Defined.

Definition demo_password : RdbPassword.t := (RdbPassword.SetValue [1; 2] (RdbPassword.SetValue [3; 4; 5] RdbPassword.new).2).2.

Lemma password_leaves_nothing_witness : filled demo_password /\ RdbPassword.value demo_password = [1; 2] /\
  clean demo_password /\ (RdbPassword.Clear demo_password).1 = E_OK /\
  Forall (fun b => b = 0 \/ b = RdbPassword.UCHAR_MAX) (RdbPassword.data_ (RdbPassword.Clear demo_password).2).
Proof.
  assert (filled demo_password) as Hf by (do 2 apply filled_set; apply filled_new).
  split; [done|]. split; [reflexivity|]. apply password_leaves_nothing. exact Hf.
Defined.

End SecurityProps.
