(* ===== verification/StoreConfig.v ===== *)
(** * The configuration of a store

    [RegisterInfo], [CryptoParam], [RdbStoreConfig]: interfaces/inner_api/rdb/include/rdb_store_config.h
    and frameworks/native/rdb/src/rdb_store_config.cpp.  [GlobalConfig]: the constants and paths of
    frameworks/native/rdb/src/sqlite_global_config.cpp.  [ConfigProps]: the theorems.

    A getter that returns a member is the projection of the record.  The destructors and the
    assignments of zeros in front of a new key wipe memory that nobody can name any more. *)
From Stdlib Require Import ZArith Lia Ascii.
From stdpp Require Import base gmap list strings pretty.
From coqutil Require Import Datatypes.RecordSetters.
Import OCamlLikeNotations.
From S2P Require Import Prelude CppStd Errno StringUtils Security.

Local Open Scope Z_scope.
Import Run.
#[local] Arguments constant {E} newValue _ /.

Module GlobalConfig.

Definition DB_PAGE_SIZE : Z := 4096.
Definition DB_JOURNAL_SIZE : Z := 1024 * 1024.
Definition CLEAR_MEMORY_SIZE : Z := 1024 * 1024.
Definition DB_WAL_SIZE_LIMIT_MIN : Z := 20 * 1024 * 1024.
Definition DB_WAL_WARNING_SIZE : Z := 256 * 1024 * 1024.
Definition DB_WAL_DEFAULT_SIZE : Z := 0x20000000.
Definition DB_WAL_SIZE_LIMIT_MAX : Z := 0x7FFFFFFF.
Definition SHARED_MEMORY_DB_PATH_PREFIX : string := "file:".
Definition SHARED_MEMORY_DB_PATH_SUFFIX : string := "?mode=memory&cache=shared".

(** A character of the class in the pattern of [GetSharedMemoryDbPath]: word characters, the
    hyphen and the dot. *)
Definition name_char (c : ascii) : bool :=
  let n := N_of_ascii c in
  ((48 <=? n) && (n <=? 57) || (65 <=? n) && (n <=? 90) || (97 <=? n) && (n <=? 122))%N ||
  Ascii.eqb c "_" || Ascii.eqb c "-" || Ascii.eqb c ".".

Definition GetSharedMemoryDbPath (name : string) : string :=
  if negb (Str.empty name) && negb (forallb name_char (String.list_ascii_of_string name)) then EmptyString
  else SHARED_MEMORY_DB_PATH_PREFIX +:+ name +:+ SHARED_MEMORY_DB_PATH_SUFFIX.

End GlobalConfig.

Module RegisterInfo.

(** [RegisterType]. *)
Definition STORE_OBSERVER : Z := 0.
Definition CLIENT_OBSERVER : Z := 1.

(** [info_], a byte. *)
Definition t := Z.
Definition new : t := 0.

(** [type % sizeof(uint8_t)]. *)
Definition bit (type : Z) : Z := type mod 1.

Definition Get (type : Z) (info : t) : bool := negb (Z.land (Z.shiftl 1 (bit type)) info =? 0).

Definition Set_ (type : Z) (state : bool) (info : t) : t := Z.lor info (Z.shiftl 1 (bit type)) mod 256.

(** [operator==]. *)
Definition eqb (info info' : t) : bool := info =? info'.

End RegisterInfo.

Module CryptoParam.

(** [EncryptAlgo], [HmacAlgo] and [KdfAlgo]. *)
Definition AES_256_GCM : Z := 0.
Definition AES_256_CBC : Z := 1.
Definition PLAIN_TEXT : Z := 2.
Definition SHA1 : Z := 0.
Definition SHA256 : Z := 1.
Definition SHA512 : Z := 2.
Definition KDF_SHA1 : Z := 0.
Definition KDF_SHA256 : Z := 1.
Definition KDF_SHA512 : Z := 2.

Definition DB_DEFAULT_CRYPTO_PAGE_SIZE : Z := 1024.
Definition DB_INVALID_CRYPTO_PAGE_SIZE_MASK : Z := 0xFFFE03FF.

Record t := {
  iterNum : Z;
  encryptAlgo : Z;
  hmacAlgo : Z;
  kdfAlgo : Z;
  cryptoPageSize : Z;
  encryptKey_ : list Z
}.

Definition new : t :=
  {| iterNum := 0; encryptAlgo := AES_256_GCM; hmacAlgo := SHA256; kdfAlgo := KDF_SHA256;
     cryptoPageSize := DB_DEFAULT_CRYPTO_PAGE_SIZE; encryptKey_ := [] |}.

Definition IsValid (p : t) : bool :=
  if iterNum p <? 0 then false
  else if (encryptAlgo p <? AES_256_GCM) || (PLAIN_TEXT <? encryptAlgo p) then false
  else if (hmacAlgo p <? SHA1) || (SHA512 <? hmacAlgo p) then false
  else if (kdfAlgo p <? KDF_SHA1) || (KDF_SHA512 <? kdfAlgo p) then false
  else negb (cryptoPageSize p =? 0) && (Z.land (cryptoPageSize p) DB_INVALID_CRYPTO_PAGE_SIZE_MASK =? 0) &&
       (Z.land (cryptoPageSize p) (Int.u32 (cryptoPageSize p - 1)) =? 0).

Definition Equal (p other : t) : bool :=
  let baseEqual := (encryptAlgo p =? encryptAlgo other) && (hmacAlgo p =? hmacAlgo other) &&
                   (kdfAlgo p =? kdfAlgo other) && (cryptoPageSize p =? cryptoPageSize other) in
  if iterNum other =? 0 then baseEqual else (iterNum p =? iterNum other) && baseEqual.

End CryptoParam.

Module RdbStoreConfig.

Inductive StorageMode := MODE_MEMORY | MODE_DISK.
Inductive JournalMode := JOURNAL_DELETE | JOURNAL_TRUNCATE | JOURNAL_PERSIST | JOURNAL_MEMORY | JOURNAL_WAL | JOURNAL_OFF.
Inductive SyncMode := SYNC_OFF | SYNC_NORMAL | SYNC_FULL | SYNC_EXTRA.
Inductive DatabaseFileType := FILE_NORMAL | FILE_BACKUP | FILE_CORRUPT.
Inductive SecurityLevel := S1 | S2 | S3 | S4 | LAST.
Inductive IntegrityCheck := CHECK_NONE | CHECK_QUICK | CHECK_FULL.
Inductive SilentAccessibleStatus := UNKNOWN | SUPPORT | NOSUPPORT.

(** [static_cast<int32_t>] of a level. *)
Definition level (s : SecurityLevel) : Z := match s with S1 => 1 | S2 => 2 | S3 => 3 | S4 => 4 | LAST => 5 end.

(** [RoleType], [DBType], [HAMode], [ConfigVersion] and [RdbDistributedType] are numbers. *)
Definition OWNER : Z := 0.
Definition VISITOR : Z := 1.
Definition VISITOR_WRITE : Z := 2.
Definition DB_SQLITE : Z := 0.
Definition DB_VECTOR : Z := 1.
Definition HA_SINGLE : Z := 0.
Definition DEFAULT_VERSION : Z := 0.
Definition INVALID_CONFIG_CHANGE_NOT_ALLOWED : Z := 1.
Definition RDB_DEVICE_COLLABORATION : Z := 10.
Definition NONE_TOKENIZER : Z := 0.
Definition MAX_TIMEOUT : Z := 300.
Definition MIN_TIMEOUT : Z := 1.

Record PromiseInfo := { user_ : string; tokenIds_ : list Z; uids_ : list Z; permissionNames_ : list string }.

(** A scalar function: which callable, and its number of arguments. *)
Record ScalarFunctionInfo := { function_ : Z; argc_ : Z }.

#[export] Instance StorageMode_dec : EqDecision StorageMode.
Proof. solve_decision. Defined.
#[export] Instance SecurityLevel_dec : EqDecision SecurityLevel.
Proof. solve_decision. Defined.
#[export] Instance SilentAccessibleStatus_dec : EqDecision SilentAccessibleStatus.
Proof. solve_decision. Defined.

Record t := {
  readOnly_ : bool;
  isEncrypt_ : bool;
  isCreateNecessary_ : bool;
  isSearchable_ : bool;
  isSilentAccessible_ : option bool;
  autoCheck_ : bool;
  isAutoClean_ : bool;
  isAutoCleanDevice_ : bool;
  isVector_ : bool;
  autoRekey_ : bool;
  customEncryptParam_ : bool;
  enableSemanticIndex_ : bool;
  journalSize_ : Z;
  pageSize_ : Z;
  readConSize_ : Z;
  area_ : Z;
  writeTimeout_ : Z;
  transactionTimeout_ : Z;
  readTimeout_ : Z;
  dbType_ : Z;
  haMode_ : Z;
  securityLevel_ : SecurityLevel;
  role_ : Z;
  tokenizer_ : Z;
  distributedType_ : Z;
  storageMode_ : StorageMode;
  checkType_ : IntegrityCheck;
  cryptoParam_ : CryptoParam.t;
  name_ : string;
  path_ : string;
  journalMode_ : string;
  syncMode_ : string;
  databaseFileType : string;
  promiseInfo_ : PromiseInfo;
  walLimitSize_ : Z;
  checkpointSize_ : Z;
  startCheckpointSize_ : Z;
  clearMemorySize_ : Z;
  collatorLocales_ : string;
  bundleName_ : string;
  moduleName_ : string;
  visitorDir_ : string;
  dataGroupId_ : string;
  customDir_ : string;
  newEncryptKey_ : list Z;
  customScalarFunctions_ : OMap.smap ScalarFunctionInfo;
  pluginLibs_ : list string;
  allowRebuilt_ : bool;
  isLocalOnly_ : bool;
  subUser_ : Z;
  registerInfo_ : RegisterInfo.t;
  version_ : Z;
  serverPath_ : string
}.

Definition new (name : string) (storageMode : StorageMode) (isReadOnly : bool) (encryptKey : list Z)
    (journalMode syncMode fileType : string) (securityLevel : SecurityLevel) (isCreateNecessary autoCheck : bool)
    (journalSize pageSize : Z) : t :=
  {| readOnly_ := isReadOnly; isEncrypt_ := false; isCreateNecessary_ := isCreateNecessary; isSearchable_ := false;
     isSilentAccessible_ := None; autoCheck_ := autoCheck; isAutoClean_ := true; isAutoCleanDevice_ := true;
     isVector_ := false; autoRekey_ := false; customEncryptParam_ := false; enableSemanticIndex_ := false;
     journalSize_ := journalSize; pageSize_ := pageSize; readConSize_ := 4; area_ := 0; writeTimeout_ := 2;
     transactionTimeout_ := 2; readTimeout_ := 1; dbType_ := DB_SQLITE; haMode_ := HA_SINGLE;
     securityLevel_ := securityLevel; role_ := OWNER; tokenizer_ := NONE_TOKENIZER;
     distributedType_ := RDB_DEVICE_COLLABORATION; storageMode_ := storageMode; checkType_ := CHECK_NONE;
     cryptoParam_ := {CryptoParam.new with CryptoParam.encryptKey_ := encryptKey};
     name_ := StringUtils.ExtractFileName name; path_ := name; journalMode_ := journalMode; syncMode_ := syncMode;
     databaseFileType := fileType;
     promiseInfo_ := {| user_ := EmptyString; tokenIds_ := []; uids_ := []; permissionNames_ := [] |};
     walLimitSize_ := GlobalConfig.DB_WAL_DEFAULT_SIZE; checkpointSize_ := GlobalConfig.DB_WAL_WARNING_SIZE;
     startCheckpointSize_ := GlobalConfig.DB_WAL_SIZE_LIMIT_MIN; clearMemorySize_ := GlobalConfig.CLEAR_MEMORY_SIZE;
     collatorLocales_ := EmptyString; bundleName_ := EmptyString; moduleName_ := EmptyString; visitorDir_ := EmptyString;
     dataGroupId_ := EmptyString; customDir_ := EmptyString; newEncryptKey_ := []; customScalarFunctions_ := [];
     pluginLibs_ := []; allowRebuilt_ := false; isLocalOnly_ := false; subUser_ := 0; registerInfo_ := RegisterInfo.new;
     version_ := DEFAULT_VERSION; serverPath_ := EmptyString |}.

(** The constructor with its default arguments. *)
Definition of_path (path : string) : t :=
  new path MODE_DISK false [] "WAL" EmptyString EmptyString LAST true false GlobalConfig.DB_JOURNAL_SIZE GlobalConfig.DB_PAGE_SIZE.

(** ** Questions *)

Definition IsMemoryRdb (c : t) : bool := bool_decide (storageMode_ c = MODE_MEMORY).

Definition IsEncrypt (c : t) : bool :=
  if CryptoParam.encryptAlgo (cryptoParam_ c) =? CryptoParam.PLAIN_TEXT then false
  else isEncrypt_ c || negb (length (CryptoParam.encryptKey_ (cryptoParam_ c)) =? 0)%nat.

Definition GetSilentAccessibleStatus (c : t) : SilentAccessibleStatus :=
  match isSilentAccessible_ c with None => UNKNOWN | Some true => SUPPORT | Some false => NOSUPPORT end.

Definition GetEncryptKey (c : t) : list Z := CryptoParam.encryptKey_ (cryptoParam_ c).

Definition GetJournalModeValue (m : JournalMode) : string :=
  match m with
  | JOURNAL_DELETE => "DELETE" | JOURNAL_TRUNCATE => "TRUNCATE" | JOURNAL_PERSIST => "PERSIST"
  | JOURNAL_MEMORY => "MEMORY" | JOURNAL_WAL => "WAL" | JOURNAL_OFF => "OFF"
  end.

Definition GetSyncModeValue (m : SyncMode) : string :=
  match m with
  | SYNC_OFF => "MODE_OFF" | SYNC_NORMAL => "MODE_NORMAL" | SYNC_FULL => "MODE_FULL" | SYNC_EXTRA => "MODE_EXTRA"
  end.

Definition GetDatabaseFileTypeValue (d : DatabaseFileType) : string :=
  match d with FILE_NORMAL => "db" | FILE_BACKUP => "backup" | FILE_CORRUPT => "corrupt" end.

(** [operator==]. *)
Definition eqb (c config : t) : bool :=
  bool_decide ((customScalarFunctions_ c).*1 = (customScalarFunctions_ config).*1) &&
  bool_decide (storageMode_ c = storageMode_ config) && bool_decide (journalMode_ c = journalMode_ config) &&
  bool_decide (syncMode_ c = syncMode_ config) && bool_decide (databaseFileType c = databaseFileType config) &&
  (journalSize_ c =? journalSize_ config) && (pageSize_ c =? pageSize_ config) && (dbType_ c =? dbType_ config) &&
  bool_decide (customDir_ c = customDir_ config) && bool_decide (pluginLibs_ c = pluginLibs_ config) &&
  (haMode_ c =? haMode_ config) && bool_decide (serverPath_ c = serverPath_ config) &&
  (if bool_decide (storageMode_ c = MODE_MEMORY) then bool_decide (name_ c = name_ config)
   else bool_decide (path_ c = path_ config) && bool_decide (securityLevel_ c = securityLevel_ config)).

(** ** Changes *)

Definition SetName (name : string) (c : t) : t := {c with name_ := name}.
Definition SetJournalMode (m : JournalMode) (c : t) : t := {c with journalMode_ := GetJournalModeValue m}.
Definition SetJournalModeText (m : string) (c : t) : t := {c with journalMode_ := m}.
Definition SetDatabaseFileType (d : DatabaseFileType) (c : t) : t := {c with databaseFileType := GetDatabaseFileTypeValue d}.
Definition SetPath (path : string) (c : t) : t := {c with path_ := path}.
Definition SetStorageMode (m : StorageMode) (c : t) : t := {c with storageMode_ := m}.
Definition SetAutoCheck (b : bool) (c : t) : t := {c with autoCheck_ := b}.
Definition SetJournalSize (n : Z) (c : t) : t := {c with journalSize_ := n}.
Definition SetPageSize (n : Z) (c : t) : t := {c with pageSize_ := n}.
Definition SetEncryptAlgo (a : Z) (c : t) : t := {c with cryptoParam_ ::= fun p => {p with CryptoParam.encryptAlgo := a}}.
Definition SetReadOnly (b : bool) (c : t) : t := {c with readOnly_ := b}.

Definition SetDistributedType (type : Z) (c : t) : errno * t :=
  if negb (type =? RDB_DEVICE_COLLABORATION) then (E_ERROR, c) else (E_OK, {c with distributedType_ := type}).

Definition SetBundleName (bundleName : string) (c : t) : errno * t :=
  if Str.empty bundleName then (E_ERROR, c) else (E_OK, {c with bundleName_ := bundleName}).

Definition SetModuleName (m : string) (c : t) : t := {c with moduleName_ := m}.
Definition SetServiceName (serviceName : string) (c : t) : t := snd (SetBundleName serviceName c).
Definition SetArea (area : Z) (c : t) : t := {c with area_ := area + 1}.
Definition SetSecurityLevel (l : SecurityLevel) (c : t) : t := {c with securityLevel_ := l}.
Definition SetEncryptStatus (b : bool) (c : t) : t := {c with isEncrypt_ := b}.
Definition SetCreateNecessary (b : bool) (c : t) : t := {c with isCreateNecessary_ := b}.
Definition SetReadConSize (n : Z) (c : t) : t := {c with readConSize_ := n}.

Definition set_key (key : list Z) (c : t) : t := {c with cryptoParam_ ::= fun p => {p with CryptoParam.encryptKey_ := key}}.
Definition SetEncryptKey (encryptKey : list Z) (c : t) : t := set_key encryptKey c.
Definition ResetEncryptKey (encryptKey : list Z) (c : t) : t := set_key encryptKey c.

Definition SetScalarFunction (functionName : string) (argc : Z) (f : Z) (c : t) : t :=
  {c with customScalarFunctions_ ::= OMap.insert Str.ltb functionName {| function_ := f; argc_ := argc |}}.
Definition SetScalarFunctions (m : OMap.smap ScalarFunctionInfo) (c : t) : t := {c with customScalarFunctions_ := m}.
Definition SetDataGroupId (s : string) (c : t) : t := {c with dataGroupId_ := s}.
Definition SetAutoClean (b : bool) (c : t) : t := {c with isAutoClean_ := b}.
Definition SetAutoCleanDevice (b : bool) (c : t) : t := {c with isAutoCleanDevice_ := b}.
Definition SetDBType (n : Z) (c : t) : t := {c with dbType_ := n}.
Definition SetIsVector (b : bool) (c : t) : t := SetDBType (if b then DB_VECTOR else DB_SQLITE) {c with isVector_ := b}.
Definition SetCustomDir (s : string) (c : t) : t := {c with customDir_ := s}.
Definition SetVisitorDir (s : string) (c : t) : t := {c with visitorDir_ := s}.
Definition SetServerPath (s : string) (c : t) : t := {c with serverPath_ := s}.
Definition SetSearchable (b : bool) (c : t) : t := {c with isSearchable_ := b}.
Definition SetSilentAccessible (b : bool) (c : t) : t := {c with isSilentAccessible_ := Some b}.

Definition clamp_timeout (timeout : Z) : Z := MIN_TIMEOUT `max` (MAX_TIMEOUT `min` timeout).
Definition SetWriteTime (timeout : Z) (c : t) : t := {c with writeTimeout_ := clamp_timeout timeout}.
Definition SetTransactionTime (timeout : Z) (c : t) : t := {c with transactionTimeout_ := clamp_timeout timeout}.
Definition SetReadTime (timeout : Z) (c : t) : t := {c with readTimeout_ := clamp_timeout timeout}.
Definition SetRoleType (r : Z) (c : t) : t := {c with role_ := r}.
Definition SetAllowRebuild (b : bool) (c : t) : t := {c with allowRebuilt_ := b}.
Definition SetLocalOnly (b : bool) (c : t) : t := {c with isLocalOnly_ := b}.
Definition SetIntegrityCheck (i : IntegrityCheck) (c : t) : t := {c with checkType_ := i}.
Definition SetIter (n : Z) (c : t) : t := {c with cryptoParam_ ::= fun p => {p with CryptoParam.iterNum := n}}.
Definition SetPluginLibs (l : list string) (c : t) : t := {c with pluginLibs_ := l}.
Definition SetHaMode (n : Z) (c : t) : t := {c with haMode_ := n}.
Definition SetPromiseInfo (p : PromiseInfo) (c : t) : t := {c with promiseInfo_ := p}.
Definition SetTokenizer (n : Z) (c : t) : t := {c with tokenizer_ := n}.
Definition SetEnableSemanticIndex (b : bool) (c : t) : t := {c with enableSemanticIndex_ := b}.
Definition SetVersion (v : Z) (c : t) : t := {c with version_ := v}.

Definition SetWalLimitSize (size : Z) (c : t) : t :=
  let size := if size <? GlobalConfig.DB_WAL_DEFAULT_SIZE then GlobalConfig.DB_WAL_DEFAULT_SIZE else size in
  let size := if GlobalConfig.DB_WAL_SIZE_LIMIT_MAX <? size then GlobalConfig.DB_WAL_SIZE_LIMIT_MAX else size in
  {c with walLimitSize_ := size;
          checkpointSize_ := Z.shiftr size 1 + Z.shiftr size 2;
          startCheckpointSize_ := Z.shiftr size 5 + Z.shiftr size 7}.

Definition SetClearMemorySize (size : Z) (c : t) : t :=
  {c with clearMemorySize_ := if (size <? 0) || (GlobalConfig.CLEAR_MEMORY_SIZE <? size) then GlobalConfig.CLEAR_MEMORY_SIZE else size}.

Definition SetCollatorLocales (s : string) (c : t) : t := {c with collatorLocales_ := s}.
Definition SetSubUser (n : Z) (c : t) : t := {c with subUser_ := n}.
Definition EnableRekey (b : bool) (c : t) : t := {c with autoRekey_ := b}.

Definition SetCryptoParam (p : CryptoParam.t) (c : t) : t :=
  let p := if CryptoParam.encryptAlgo p =? CryptoParam.PLAIN_TEXT then {p with CryptoParam.encryptKey_ := [] } else p in
  {c with cryptoParam_ := p; customEncryptParam_ := negb (length (CryptoParam.encryptKey_ p) =? 0)%nat}.

Definition SetRegisterInfo (type : Z) (state : bool) (c : t) : t := {c with registerInfo_ ::= RegisterInfo.Set_ type state}.
Definition GetRegisterInfo (type : Z) (c : t) : bool := RegisterInfo.Get type (registerInfo_ c).
Definition IsEqualRegisterInfo (c config : t) : bool := RegisterInfo.eqb (registerInfo_ c) (registerInfo_ config).

(** ** Keys *)

Section Keys.
Context {W : Type} `{Huks.Huks W} `{Files.Files W}.
Abbreviation op := (run (SecurityManager.t * W)).

Definition RestoreEncryptKey (encryptKey : list Z) (c : t) : op t :=
  let! _ := SecurityManager.RestoreKeyFile (path_ c) encryptKey in
  ret (set_key encryptKey {c with newEncryptKey_ := replicate (length (newEncryptKey_ c)) 0}).

Definition ChangeEncryptKey (c : t) : op t :=
  let! _ := SecurityManager.ChangeKeyFile (path_ c) in
  ret (match newEncryptKey_ c with
       | [] => c
       | key => set_key key {c with newEncryptKey_ := [] }
       end).

Definition GenerateEncryptedKey (c : t) : op (errno * t) :=
  if negb (isEncrypt_ c) || negb (length (GetEncryptKey c) =? 0)%nat ||
     (CryptoParam.encryptAlgo (cryptoParam_ c) =? CryptoParam.PLAIN_TEXT) then ret (E_OK, c)
  else
    let name := if Str.empty (bundleName_ c) then StringUtils.ExtractFilePath (path_ c) else bundleName_ c in
    let! errCode := SecurityManager.Init name in
    if negb (bool_decide (errCode = E_OK)) then ret (errCode, c)
    else
      let! rdbPwd := SecurityManager.GetRdbPassword (path_ c) SecurityManager.PUB_KEY_FILE in
      let c := if RdbPassword.IsValid rdbPwd then set_key (RdbPassword.value rdbPwd) c else c in
      let! exists_ := SecurityManager.IsKeyFileExists (path_ c) SecurityManager.PUB_KEY_FILE_NEW_KEY in
      if exists_ then
        let! rdbNewPwd := SecurityManager.GetRdbPassword (path_ c) SecurityManager.PUB_KEY_FILE_NEW_KEY in
        ret (E_OK, if RdbPassword.IsValid rdbNewPwd then {c with newEncryptKey_ := RdbPassword.value rdbNewPwd} else c)
      else ret (E_OK, c).

Definition Initialize (c : t) : op (errno * t) := GenerateEncryptedKey c.

End Keys.
End RdbStoreConfig.

(** ** The path of a database *)

Module DbPath.
Import RdbStoreConfig.

(** [path.front() == '/'] for a path that is not empty. *)
Definition front_is_slash (path : string) : bool := match path with String c _ => Ascii.eqb c "/" | EmptyString => false end.

(** [SqliteGlobalConfig::GetDbPath]. *)
Definition GetDbPath (config : t) : errno * string :=
  if bool_decide (storageMode_ config = MODE_MEMORY) then
    if negb (role_ config =? OWNER) then (E_NOT_SUPPORT, EmptyString)
    else
      let dbPath := GlobalConfig.GetSharedMemoryDbPath (name_ config) in
      (if Str.empty dbPath then E_INVALID_FILE_PATH else E_OK, dbPath)
  else
    let open (path : string) : errno * string :=
      if Str.empty path || negb (front_is_slash path) then (E_INVALID_FILE_PATH, EmptyString) else (E_OK, path) in
    if role_ config =? OWNER then open (path_ config)
    else if (role_ config =? VISITOR) || (role_ config =? VISITOR_WRITE) then open (visitorDir_ config)
    else (E_NOT_SUPPORT, EmptyString).

End DbPath.

Module ConfigProps.
Import RdbStoreConfig DbPath.

(** ** Limits *)

(** A call of one of the functions that change a configuration. *)
Inductive change :=
| CSetName (name : string)
| CSetJournalMode (m : JournalMode)
| CSetJournalModeText (m : string)
| CSetDatabaseFileType (d : DatabaseFileType)
| CSetPath (path : string)
| CSetStorageMode (m : StorageMode)
| CSetAutoCheck (b : bool)
| CSetJournalSize (n : Z)
| CSetPageSize (n : Z)
| CSetEncryptAlgo (a : Z)
| CSetReadOnly (b : bool)
| CSetDistributedType (type : Z)
| CSetBundleName (bundleName : string)
| CSetModuleName (m : string)
| CSetServiceName (serviceName : string)
| CSetArea (area : Z)
| CSetSecurityLevel (l : SecurityLevel)
| CSetEncryptStatus (b : bool)
| CSetCreateNecessary (b : bool)
| CSetReadConSize (n : Z)
| CSetEncryptKey (encryptKey : list Z)
| CResetEncryptKey (encryptKey : list Z)
| CSetScalarFunction (functionName : string) (argc : Z) (f : Z)
| CSetScalarFunctions (m : OMap.smap ScalarFunctionInfo)
| CSetDataGroupId (s : string)
| CSetAutoClean (b : bool)
| CSetAutoCleanDevice (b : bool)
| CSetDBType (n : Z)
| CSetIsVector (b : bool)
| CSetCustomDir (s : string)
| CSetVisitorDir (s : string)
| CSetServerPath (s : string)
| CSetSearchable (b : bool)
| CSetSilentAccessible (b : bool)
| CSetWriteTime (timeout : Z)
| CSetTransactionTime (timeout : Z)
| CSetReadTime (timeout : Z)
| CSetRoleType (r : Z)
| CSetAllowRebuild (b : bool)
| CSetLocalOnly (b : bool)
| CSetIntegrityCheck (i : IntegrityCheck)
| CSetIter (n : Z)
| CSetPluginLibs (l : list string)
| CSetHaMode (n : Z)
| CSetPromiseInfo (p : PromiseInfo)
| CSetTokenizer (n : Z)
| CSetEnableSemanticIndex (b : bool)
| CSetVersion (v : Z)
| CSetWalLimitSize (size : Z)
| CSetClearMemorySize (size : Z)
| CSetCollatorLocales (s : string)
| CSetSubUser (n : Z)
| CEnableRekey (b : bool)
| CSetCryptoParam (p : CryptoParam.t)
| CSetRegisterInfo (type : Z) (state : bool).

Definition apply (x : change) (c : t) : t :=
  match x with
  | CSetName name => SetName name c
  | CSetJournalMode m => SetJournalMode m c
  | CSetJournalModeText m => SetJournalModeText m c
  | CSetDatabaseFileType d => SetDatabaseFileType d c
  | CSetPath path => SetPath path c
  | CSetStorageMode m => SetStorageMode m c
  | CSetAutoCheck b => SetAutoCheck b c
  | CSetJournalSize n => SetJournalSize n c
  | CSetPageSize n => SetPageSize n c
  | CSetEncryptAlgo a => SetEncryptAlgo a c
  | CSetReadOnly b => SetReadOnly b c
  | CSetDistributedType type => snd (SetDistributedType type c)
  | CSetBundleName bundleName => snd (SetBundleName bundleName c)
  | CSetModuleName m => SetModuleName m c
  | CSetServiceName serviceName => SetServiceName serviceName c
  | CSetArea area => SetArea area c
  | CSetSecurityLevel l => SetSecurityLevel l c
  | CSetEncryptStatus b => SetEncryptStatus b c
  | CSetCreateNecessary b => SetCreateNecessary b c
  | CSetReadConSize n => SetReadConSize n c
  | CSetEncryptKey encryptKey => SetEncryptKey encryptKey c
  | CResetEncryptKey encryptKey => ResetEncryptKey encryptKey c
  | CSetScalarFunction functionName argc f => SetScalarFunction functionName argc f c
  | CSetScalarFunctions m => SetScalarFunctions m c
  | CSetDataGroupId s => SetDataGroupId s c
  | CSetAutoClean b => SetAutoClean b c
  | CSetAutoCleanDevice b => SetAutoCleanDevice b c
  | CSetDBType n => SetDBType n c
  | CSetIsVector b => SetIsVector b c
  | CSetCustomDir s => SetCustomDir s c
  | CSetVisitorDir s => SetVisitorDir s c
  | CSetServerPath s => SetServerPath s c
  | CSetSearchable b => SetSearchable b c
  | CSetSilentAccessible b => SetSilentAccessible b c
  | CSetWriteTime timeout => SetWriteTime timeout c
  | CSetTransactionTime timeout => SetTransactionTime timeout c
  | CSetReadTime timeout => SetReadTime timeout c
  | CSetRoleType r => SetRoleType r c
  | CSetAllowRebuild b => SetAllowRebuild b c
  | CSetLocalOnly b => SetLocalOnly b c
  | CSetIntegrityCheck i => SetIntegrityCheck i c
  | CSetIter n => SetIter n c
  | CSetPluginLibs l => SetPluginLibs l c
  | CSetHaMode n => SetHaMode n c
  | CSetPromiseInfo p => SetPromiseInfo p c
  | CSetTokenizer n => SetTokenizer n c
  | CSetEnableSemanticIndex b => SetEnableSemanticIndex b c
  | CSetVersion v => SetVersion v c
  | CSetWalLimitSize size => SetWalLimitSize size c
  | CSetClearMemorySize size => SetClearMemorySize size c
  | CSetCollatorLocales s => SetCollatorLocales s c
  | CSetSubUser n => SetSubUser n c
  | CEnableRekey b => EnableRekey b c
  | CSetCryptoParam p => SetCryptoParam p c
  | CSetRegisterInfo type state => SetRegisterInfo type state c
  end.

Definition configured (path : string) (calls : list change) : t := foldl (fun c x => apply x c) (of_path path) calls.

(** The numbers that have a limit keep it, and the sizes of the log are in the order in which they matter. *)
Definition within_limits (c : t) : Prop :=
  0 < startCheckpointSize_ c < checkpointSize_ c /\ checkpointSize_ c < walLimitSize_ c <= GlobalConfig.DB_WAL_SIZE_LIMIT_MAX /\
  GlobalConfig.DB_WAL_DEFAULT_SIZE <= walLimitSize_ c /\
  0 <= clearMemorySize_ c <= GlobalConfig.CLEAR_MEMORY_SIZE /\
  MIN_TIMEOUT <= writeTimeout_ c <= MAX_TIMEOUT /\ MIN_TIMEOUT <= readTimeout_ c <= MAX_TIMEOUT /\
  MIN_TIMEOUT <= transactionTimeout_ c <= MAX_TIMEOUT.

Lemma clamp_range n : MIN_TIMEOUT <= clamp_timeout n <= MAX_TIMEOUT.
Proof. unfold clamp_timeout, MIN_TIMEOUT, MAX_TIMEOUT. lia. Qed.

Lemma wal_limits n c : within_limits c -> within_limits (SetWalLimitSize n c).
Proof.
  intros (_ & _ & _ & Hrest). unfold within_limits, SetWalLimitSize.
  set (low := if n <? GlobalConfig.DB_WAL_DEFAULT_SIZE then GlobalConfig.DB_WAL_DEFAULT_SIZE else n).
  set (size := if GlobalConfig.DB_WAL_SIZE_LIMIT_MAX <? low then GlobalConfig.DB_WAL_SIZE_LIMIT_MAX else low).
  assert (0x20000000 <= size <= 0x7FFFFFFF) as Hsize.
  { unfold size, low, GlobalConfig.DB_WAL_DEFAULT_SIZE, GlobalConfig.DB_WAL_SIZE_LIMIT_MAX.
    destruct (Z.ltb_spec n 0x20000000); case_match; rewrite ?Z.ltb_lt, ?Z.ltb_ge in *; lia. }
  unfold GlobalConfig.DB_WAL_DEFAULT_SIZE, GlobalConfig.DB_WAL_SIZE_LIMIT_MAX.
  clearbody size. cbn. rewrite !Z.shiftr_div_pow2 by lia. change (2 ^ 1) with 2; change (2 ^ 2) with 4; change (2 ^ 5) with 32;
    change (2 ^ 7) with 128. clear low. split; [|split; [|split; [|exact Hrest]]]; Z.to_euclidean_division_equations; lia.
Qed.

Lemma clear_memory_limits n c : within_limits c -> within_limits (SetClearMemorySize n c).
Proof.
  intros (H1 & H2 & H3 & _ & H5). split; [exact H1|]. split; [exact H2|]. split; [exact H3|]. split; [|exact H5].
  cbn. unfold GlobalConfig.CLEAR_MEMORY_SIZE. destruct (Z.ltb_spec n 0), (Z.ltb_spec (1024 * 1024) n); simpl; lia.
Qed.

(** whatever calls a caller makes of the 55 functions that change a configuration, the sizes
    of the write-ahead log stay in their order (start of checkpoints, checkpoint under load, limit)
    and below 2 GB, memory and timeouts stay within their limits: out-of-range requests are cut
    off, not stored. *)
Theorem config_within_limits path calls : within_limits (configured path calls).
Proof.
  unfold configured. assert (within_limits (of_path path)) as Hc by (cbn; repeat split; vm_compute; congruence).
  revert Hc. generalize (of_path path). induction calls as [|x calls IH]; intros c Hc; [done|].
  simpl. apply IH. pose proof Hc as (H1 & H2 & H3 & H4 & H5 & H6 & H7). pose proof clamp_range as Hcl.
  destruct x; try exact Hc; cbn [apply];
    try (unfold SetDistributedType, SetServiceName, SetBundleName; case_match; exact Hc);
    [exact (conj H1 (conj H2 (conj H3 (conj H4 (conj (Hcl _) (conj H6 H7))))))
    |exact (conj H1 (conj H2 (conj H3 (conj H4 (conj H5 (conj H6 (Hcl _)))))))
    |exact (conj H1 (conj H2 (conj H3 (conj H4 (conj H5 (conj (Hcl _) H7))))))
    |by apply wal_limits|by apply clear_memory_limits].
Qed.

(** ** Crypto parameters *)

Lemma land_part (p m k : Z) : Z.land p m = 0 -> Z.land m k = k -> Z.land p k = 0.
Proof. intros Hp Hk. by rewrite <- Hk, Z.land_assoc, Hp. Qed.

(** The mask leaves the bits 10 to 16. *)
Lemma page_size_masked p : 0 <= p < 2 ^ 32 -> Z.land p CryptoParam.DB_INVALID_CRYPTO_PAGE_SIZE_MASK = 0 ->
  exists j : nat, (j < 128)%nat /\ p = 1024 * Z.of_nat j.
Proof.
  intros Hp Hm. pose proof (land_part p _ 1023 Hm eq_refl) as Hlow. pose proof (land_part p _ 0xFFFE0000 Hm eq_refl) as Hhigh.
  change 1023 with (Z.ones 10) in Hlow. rewrite Z.land_ones in Hlow by lia.
  assert (Z.shiftr p 17 = 0) as Hs.
  { apply Z.bits_inj'. intros i Hi. rewrite Z.shiftr_spec, Z.bits_0 by done.
    destruct (Z.lt_ge_cases (i + 17) 32).
    - assert (Z.testbit (Z.land p 0xFFFE0000) (i + 17) = false) as Hb by by rewrite Hhigh, Z.bits_0.
      rewrite Z.land_spec in Hb. replace (Z.testbit 0xFFFE0000 (i + 17)) with true in Hb; [by rewrite andb_true_r in Hb|].
      change 0xFFFE0000 with (Z.shiftl (Z.ones 15) 17). rewrite Z.shiftl_spec, Z.ones_spec_low by lia. done.
    - apply Z.testbit_false; [lia|]. rewrite Z.div_small; [done|].
      split; [lia|]. apply Z.lt_le_trans with (2 ^ 32); [lia|]. apply Z.pow_le_mono_r; lia. }
  rewrite Z.shiftr_div_pow2 in Hs by lia. exists (Z.to_nat (p / 1024)).
  change (2 ^ 10) with 1024 in Hlow. change (2 ^ 17) with 131072 in Hs.
  Z.to_euclidean_division_equations. lia.
Qed.

(** The candidates, one by one. *)
Definition page_size_ok (p : Z) : bool := negb (p =? 0) && (Z.land p (Int.u32 (p - 1)) =? 0).

Lemma page_sizes_checked :
  forallb (fun j => Bool.eqb (page_size_ok (1024 * Z.of_nat j)) (existsb (fun k => 1024 * Z.of_nat j =? 2 ^ k) [10; 11; 12; 13; 14; 15; 16]))
          (seq 0 128) = true.
Proof. vm_compute. reflexivity. Qed.

Lemma page_size_valid p : 0 <= p < 2 ^ 32 ->
  negb (p =? 0) && (Z.land p CryptoParam.DB_INVALID_CRYPTO_PAGE_SIZE_MASK =? 0) && (Z.land p (Int.u32 (p - 1)) =? 0) = true <->
  exists k, 10 <= k <= 16 /\ p = 2 ^ k.
Proof.
  intros Hp. split.
  - intros ((Hz & Hm%Z.eqb_eq)%andb_true_iff & Hl)%andb_true_iff. destruct (page_size_masked p Hp Hm) as (j & Hj & ->).
    pose proof page_sizes_checked as Hall. rewrite forallb_forall in Hall. specialize (Hall j ltac:(apply in_seq; lia)).
    apply Bool.eqb_prop in Hall. unfold page_size_ok in Hall. rewrite Hz, Hl in Hall. symmetry in Hall.
    apply existsb_exists in Hall as (k & Hk & ->%Z.eqb_eq). exists k. split; [|done]. simpl in Hk. lia.
  - intros (k & Hk & ->).
    assert (k = 10 \/ k = 11 \/ k = 12 \/ k = 13 \/ k = 14 \/ k = 15 \/ k = 16) as Hcases by lia.
    by repeat (destruct Hcases as [->|Hcases]); [..|subst k].
Qed.

(** crypto parameters are valid exactly when the number of iterations is not negative, the
    three algorithms are known ones and the page size is a power of two from 1 KB to 64 KB. *)
Theorem crypto_param_valid (p : CryptoParam.t) : 0 <= CryptoParam.cryptoPageSize p < 2 ^ 32 ->
  CryptoParam.IsValid p = true <->
  0 <= CryptoParam.iterNum p /\ 0 <= CryptoParam.encryptAlgo p <= 2 /\ 0 <= CryptoParam.hmacAlgo p <= 2 /\
  0 <= CryptoParam.kdfAlgo p <= 2 /\ exists k, 10 <= k <= 16 /\ CryptoParam.cryptoPageSize p = 2 ^ k.
Proof.
  intros Hp. rewrite <- (page_size_valid _ Hp). unfold CryptoParam.IsValid, CryptoParam.AES_256_GCM, CryptoParam.PLAIN_TEXT,
    CryptoParam.SHA1, CryptoParam.SHA512, CryptoParam.KDF_SHA1, CryptoParam.KDF_SHA512.
  set (page := negb _ && _ && _).
  destruct (Z.ltb_spec (CryptoParam.iterNum p) 0); [split; [done|lia]|].
  destruct (Z.ltb_spec (CryptoParam.encryptAlgo p) 0); [split; [done|lia]|].
  destruct (Z.ltb_spec 2 (CryptoParam.encryptAlgo p)); [split; [done|lia]|].
  destruct (Z.ltb_spec (CryptoParam.hmacAlgo p) 0); [split; [done|lia]|].
  destruct (Z.ltb_spec 2 (CryptoParam.hmacAlgo p)); [split; [done|lia]|].
  destruct (Z.ltb_spec (CryptoParam.kdfAlgo p) 0); [split; [done|lia]|].
  destruct (Z.ltb_spec 2 (CryptoParam.kdfAlgo p)); simpl; [split; [done|lia]|]. naive_solver lia.
Qed.

Lemma crypto_param_valid_witness : CryptoParam.IsValid CryptoParam.new = true <->
  0 <= 0 /\ 0 <= 0 <= 2 /\ 0 <= 1 <= 2 /\ 0 <= 1 <= 2 /\ exists k, 10 <= k <= 16 /\ 1024 = 2 ^ k.
Proof. apply (crypto_param_valid CryptoParam.new). split; vm_compute; congruence. Defined.

(** ** Equality *)

(** The members [operator==] looks at. *)
Definition identity (c : t) :=
  ((customScalarFunctions_ c).*1, storageMode_ c, journalMode_ c, syncMode_ c, databaseFileType c,
   (journalSize_ c, pageSize_ c, dbType_ c, customDir_ c, pluginLibs_ c, haMode_ c, serverPath_ c),
   if bool_decide (storageMode_ c = MODE_MEMORY) then (name_ c, None) else (path_ c, Some (securityLevel_ c))).

(** The comparison is the equality of what a store is identified by; encryption, roles and
    timeouts do not count. *)
Lemma eqb_identity c c' : eqb c c' = true <-> identity c = identity c'.
Proof.
  unfold eqb, identity. rewrite !andb_true_iff, !bool_decide_eq_true, !Z.eqb_eq. split.
  - intros H. destruct_and! H. repeat (match goal with E : _ = _ |- _ => rewrite E in * end). simplify_eq.
    case_bool_decide; rewrite ?andb_true_iff, ?bool_decide_eq_true in *; naive_solver congruence.
  - intros [=]. repeat split; try done.
    case_bool_decide; case_bool_decide; rewrite ?andb_true_iff, ?bool_decide_eq_true; naive_solver congruence.
Qed.

Definition same_store (c c' : t) : Prop := eqb c c' = true.

#[export] Instance same_store_equivalence : Equivalence same_store.
Proof.
  unfold same_store. split; [intros c|intros c c' Hc|intros c1 c2 c3 H1 H2]; rewrite ?eqb_identity in *; congruence.
Qed.

(** ** Paths *)

Lemma shared_path_inj n n' : GlobalConfig.GetSharedMemoryDbPath n <> EmptyString ->
  GlobalConfig.GetSharedMemoryDbPath n = GlobalConfig.GetSharedMemoryDbPath n' -> n = n'.
Proof.
  unfold GlobalConfig.GetSharedMemoryDbPath. do 2 case_match; try done. intros _ Heq.
  apply Str.app_cancel_l in Heq. by apply Str.app_cancel_r in Heq.
Qed.

(** What a successful [GetDbPath] tells of the configuration. *)
Lemma db_path_cases c p : GetDbPath c = (E_OK, p) ->
  (storageMode_ c = MODE_MEMORY /\ role_ c = OWNER /\ p = GlobalConfig.GetSharedMemoryDbPath (name_ c) /\
   exists q, p = GlobalConfig.SHARED_MEMORY_DB_PATH_PREFIX +:+ q) \/
  (storageMode_ c = MODE_DISK /\ (exists q, p = String "/" q) /\
   p = if role_ c =? OWNER then path_ c else visitorDir_ c).
Proof.
  unfold GetDbPath. destruct (storageMode_ c) eqn:Em; simpl.
  - destruct (Z.eqb_spec (role_ c) OWNER); simpl; [|done]. destruct (Str.empty _) eqn:Ee; [done|]. intros [= <-]. left.
    split; [done|]. split; [done|]. split; [done|]. unfold GlobalConfig.GetSharedMemoryDbPath in *. case_match; [done|]. by eexists.
  - intros Hp. right. split; [done|].
    assert (forall path, (if Str.empty path || negb (front_is_slash path) then (E_INVALID_FILE_PATH, EmptyString) else (E_OK, path)) =
      (E_OK, p) -> (exists q, p = String "/" q) /\ p = path) as Hopen.
    { intros [|a path]; [done|]. simpl. destruct (Ascii.eqb_spec a "/") as [->|]; [|done]. intros [= <-]. by eauto. }
    destruct (role_ c =? OWNER); [by apply Hopen|]. case_match; [by apply Hopen|done].
Qed.

(** paths identify databases.  Of two configurations that have the same path, both are in memory
    or both are on disk; the ones in memory have the same name, and the names were accepted by the
    pattern, so that no name can add a parameter to the address or reach a file. *)
Theorem db_paths_distinct c c' p : GetDbPath c = (E_OK, p) -> GetDbPath c' = (E_OK, p) ->
  storageMode_ c = storageMode_ c' /\
  (storageMode_ c = MODE_MEMORY -> name_ c = name_ c' /\
     forallb GlobalConfig.name_char (String.list_ascii_of_string (name_ c)) = true) /\
  (storageMode_ c = MODE_DISK -> exists q, p = String "/" q).
Proof.
  intros H1%db_path_cases H2%db_path_cases.
  destruct H1 as [(M1 & R1 & P1 & q1 & Q1)|(M1 & [q1 Q1] & P1)], H2 as [(M2 & R2 & P2 & q2 & Q2)|(M2 & [q2 Q2] & P2)];
    rewrite M1, M2; [|by rewrite Q1 in Q2|by rewrite Q1 in Q2|].
  - split; [done|]. split; [|done]. intros _. split.
    + apply shared_path_inj; [by rewrite <- P1, Q1|congruence].
    + rewrite P1 in Q1. unfold GlobalConfig.GetSharedMemoryDbPath in Q1. case_match; [done|].
      destruct (name_ c); [done|]. simpl in *. by destruct (_ && _).
  - split; [done|]. split; [done|]. eauto.
Qed.

Definition memory_config (name : string) : t := SetStorageMode MODE_MEMORY (of_path ("/d/" +:+ name)).

Lemma db_paths_distinct_witness :
  let c := memory_config "a.db" in let c' := SetReadOnly true c in
  GetDbPath c = (E_OK, "file:a.db?mode=memory&cache=shared") /\
  storageMode_ c = storageMode_ c' /\
  (storageMode_ c = MODE_MEMORY -> name_ c = name_ c' /\
     forallb GlobalConfig.name_char (String.list_ascii_of_string (name_ c)) = true) /\
  (storageMode_ c = MODE_DISK -> exists q, "file:a.db?mode=memory&cache=shared"%string = String "/" q).
Proof.
  intros c c'. split; [vm_compute; reflexivity|].
  apply (db_paths_distinct c c' "file:a.db?mode=memory&cache=shared"); vm_compute; reflexivity.
Defined.

(** ** Register bits *)

(** Every type of observer has the same bit, and the state is not looked at: registering, or
    unregistering, one type makes all of them registered. *)
Theorem register_types_confused type type' state info : 0 <= info < 256 ->
  RegisterInfo.Get type' (RegisterInfo.Set_ type state info) = true.
Proof.
  intros Hi. unfold RegisterInfo.Get, RegisterInfo.Set_, RegisterInfo.bit. rewrite !Z.mod_1_r. change (Z.shiftl 1 0) with 1.
  rewrite negb_true_iff. apply Z.eqb_neq. intros H0.
  assert (Z.testbit (Z.land 1 (Z.lor info 1 mod 256)) 0 = false) as Hb by by rewrite H0, Z.bits_0.
  change 256 with (2 ^ 8) in Hb. rewrite Z.land_spec, Z.mod_pow2_bits_low, Z.lor_spec in Hb by lia.
  by rewrite orb_true_r in Hb.
Qed.

End ConfigProps.
