(* ===== verification/RawData.v ===== *)
(** * Packing of structured values into byte buffers

    [Serializable]: frameworks/native/appdatafwk/src/serializable.cpp, the mapping between
    structures and JSON.  The text form of a JSON value is produced and read by the nlohmann
    library; it is the class [JsonText], with the documented law that a value whose strings
    are valid UTF-8 is read back from its text.  [bits_json] is a concrete instance.

    [RawDataParser]: frameworks/native/rdb/src/raw_data_parser.cpp.  A buffer is a list of
    bytes.  Reads go through [read] and [slice], which give [None] outside the buffer, so that
    a parser that answers [Some] has read inside it.  A parser answers the number of bytes used
    (0 for a refusal) and the value, which is the caller's old value when it refused.  The host is little-endian. *)
From Stdlib Require Import ZArith Lia Ascii.
From stdpp Require Import base list strings option countable.
From S2P Require Import Prelude CppStd Values.

Local Open Scope Z_scope.

(** ** JSON *)

Module Serializable.

(** The kinds of JSON values; an object is a [std::map] from names to values. *)
Inductive json :=
| JNull | JBoolean (b : bool) | JInteger (z : Z) | JUnsigned (n : Z) | JFloat (bits : Z)
| JString (s : string) | JArray (l : list json) | JObject (l : list (string * json)).

(** [node[name] = v] on an object, or on a null node, which becomes an object. *)
Definition set_field (node : json) (name : string) (v : json) : json :=
  match node with
  | JObject l => JObject (OMap.insert_or_assign Str.ltb name v l)
  | JNull => JObject [(name, v)]
  | _ => node
  end.

Definition GetSubNode (node : json) (name : string) : json :=
  match node with
  | JNull => JNull
  | _ => if Str.empty name then node
         else match node with
              | JObject l => default JNull (OMap.lookup Str.ltb name l)
              | _ => JNull
              end
  end.

(** The [GetValue] overloads: the new value of the output and the result. *)
Definition GetString (node : json) (name : string) (value : string) : bool * string :=
  match GetSubNode node name with JString s => (true, s) | _ => (false, value) end.

Definition GetUint32 (node : json) (name : string) (value : Z) : bool * Z :=
  match GetSubNode node name with JUnsigned n => (true, Int.u32 n) | _ => (false, value) end.

Definition GetUint64 (node : json) (name : string) (value : Z) : bool * Z :=
  match GetSubNode node name with
  | JUnsigned n => (true, Int.u64 n)
  | JInteger z => (true, Int.u64 z)
  | _ => (false, value)
  end.

(** A value the text form keeps: a flat object with names in order, unsigned numbers of 64
    bits and strings that are valid UTF-8. *)
Definition leaf_ok (utf8 : string -> bool) (j : json) : bool :=
  match j with
  | JUnsigned n => (0 <=? n) && (n <? 2 ^ 64)
  | JString s => utf8 s
  | _ => false
  end.

Definition json_ok (utf8 : string -> bool) (j : json) : Prop :=
  match j with
  | JObject l => OMap.sorted Str.ltb l /\ Forall (fun kv => utf8 (fst kv) = true /\ leaf_ok utf8 (snd kv) = true) l
  | _ => False
  end.

Fixpoint ascii_text (s : string) : bool :=
  match s with EmptyString => true | String c s' => (N_of_ascii c <? 128)%N && ascii_text s' end.

(** [json::dump] and [json::parse]. *)
Class JsonText := {
  utf8 : string -> bool;
  utf8_ascii : forall s, ascii_text s = true -> utf8 s = true;
  dump : json -> list Z;
  parse : list Z -> option json;
  parse_dump : forall j, json_ok utf8 j -> parse (dump j) = Some j }.

(** [Unmarshall] up to the call of [Unmarshal]: a text that does not parse is tried once more
    without its first character. *)
Definition parse_lenient `{JsonText} (text : list Z) : option json :=
  match parse text with
  | Some j => Some j
  | None => match text with [] => None | _ :: rest => parse rest end
  end.

(** *** A concrete text form: the binary digits of a number that encodes the object. *)

Fixpoint to_bits (p : positive) : list Z :=
  match p with xH => [1] | xO q => 0 :: to_bits q | xI q => 1 :: to_bits q end.

Fixpoint of_bits (l : list Z) : option positive :=
  match l with
  | [] => None
  | [_] => Some xH
  | b :: l' => (fun q => if b =? 0 then xO q else xI q) <$> of_bits l'
  end.

Lemma of_to_bits p : of_bits (to_bits p) = Some p.
Proof.
  assert (forall q, to_bits q <> []) as Hn by (by destruct q).
  induction p as [p IH|p IH|]; cbn [to_bits of_bits]; [..|done];
    destruct (to_bits p) as [|b l] eqn:E; try (by destruct (Hn p)); by rewrite IH.
Qed.

Definition leaf_of (j : json) : option (Z + string) :=
  match j with JUnsigned n => Some (inl n) | JString s => Some (inr s) | _ => None end.

Definition of_leaf (x : Z + string) : json :=
  match x with inl n => JUnsigned n | inr s => JString s end.

Fixpoint fields (l : list (string * json)) : list (string * (Z + string)) :=
  match l with
  | [] => []
  | (k, v) :: l' => match leaf_of v with Some x => (k, x) :: fields l' | None => fields l' end
  end.

Definition fields_of (j : json) : list (string * (Z + string)) :=
  match j with JObject l => fields l | _ => [] end.

Lemma fields_of_ok u j :
  json_ok u j -> JObject ((fun kv => (fst kv, of_leaf (snd kv))) <$> fields_of j) = j.
Proof.
  destruct j as [| | | | | | |l]; try done. intros [_ Hf]. f_equal. cbn [fields_of].
  induction Hf as [|[k v] l [_ Hv] Hf IH]; [done|]. cbn [snd fields] in *.
  destruct v; try done; cbn [leaf_of]; rewrite fmap_cons, IH; done.
Qed.

#[global] Program Instance bits_json : JsonText := {|
  utf8 := fun _ => true;
  dump := fun j => to_bits (encode (fields_of j));
  parse := fun text =>
    JObject ∘ fmap (fun kv => (fst kv, of_leaf (snd kv))) <$> (of_bits text ≫= decode) |}.
Next Obligation. done. Qed.
Next Obligation.
  intros j Hj. simpl. rewrite of_to_bits. simpl. rewrite decode_encode. simpl. f_equal.
  by eapply (fields_of_ok (fun _ => true)).
Qed.

End Serializable.
Import Serializable.

(** ** The parser *)

Module RawDataParser.

Definition ASSET_MAGIC : Z := 0x41534554.
Definition ASSETS_MAGIC : Z := 0x41534553.
Definition FLOUT32_ARRAY : Z := 0x46333241.
Definition BIG_INT : Z := 0x42494749.

Definition len {A} (l : list A) : Z := Z.of_nat (length l).

(** The bytes of [data] from [off] on; [None] outside the buffer. *)
Definition slice (data : list Z) (off n : Z) : option (list Z) :=
  if (0 <=? off) && (0 <=? n) && (off + n <=? len data)
  then Some (take (Z.to_nat n) (drop (Z.to_nat off) data)) else None.

(** A little-endian number of [n] bytes. *)
Definition read (n : Z) (data : list Z) (off : Z) : option Z := Bytes.le_join <$> slice data off n.

(** [count] numbers of [n] bytes each. *)
Fixpoint read_array (n : Z) (count : nat) (data : list Z) (off : Z) : option (list Z) :=
  match count with
  | O => Some []
  | S count' => x ← read n data off; xs ← read_array n count' data (off + n); Some (x :: xs)
  end.

(** *** Assets as JSON *)

(** [InnerAsset::Marshal]. *)
Definition Marshal (a : AssetValue) : json :=
  foldl (fun node '(name, v) => set_field node name v) JNull
    [("version", JUnsigned (a_version a)); ("expiresTime", JUnsigned (a_expiresTime a));
     ("id", JString (a_id a)); ("name", JString (a_name a)); ("uri", JString (a_uri a));
     ("createTime", JString (a_createTime a)); ("modifyTime", JString (a_modifyTime a));
     ("size", JString (a_size a)); ("hash", JString (a_hash a)); ("path", JString (a_path a));
     ("status", JUnsigned (a_status a)); ("extension", JString (a_extension a))].

(** [InnerAsset::Unmarshal]: the fields that are there are stored even when another is missing;
    [now] is the system clock. *)
Definition Unmarshal (now : Z) (node : json) (a : AssetValue) : bool * AssetValue :=
  let '(r1, version) := GetUint32 node "version" (a_version a) in
  let '(r2, expiresTime) := GetUint64 node "expiresTime" (a_expiresTime a) in
  let '(r3, id) := GetString node "id" (a_id a) in
  let '(r4, name) := GetString node "name" (a_name a) in
  let '(r5, uri) := GetString node "uri" (a_uri a) in
  let '(r6, createTime) := GetString node "createTime" (a_createTime a) in
  let '(r7, modifyTime) := GetString node "modifyTime" (a_modifyTime a) in
  let '(r8, size) := GetString node "size" (a_size a) in
  let '(r9, hash) := GetString node "hash" (a_hash a) in
  let '(r10, path) := GetString node "path" (a_path a) in
  let '(r11, status) := GetUint32 node "status" (a_status a) in
  let '(_, extension) := GetString node "extension" (a_extension a) in
  let status' :=
    if (status =? Asset.STATUS_DOWNLOADING) && (expiresTime <? Int.u64 now)
    then Asset.STATUS_ABNORMAL else status in
  (r11 && (r10 && (r9 && (r8 && (r7 && (r6 && (r5 && (r4 && (r3 && (r2 && (r1 && true)))))))))),
   mkAsset version status' expiresTime id name uri createTime modifyTime size hash path extension).

Section Text.
Context `{JsonText} (now : Z).

(** [ParserRawData(data, length, Asset &)]. *)
Definition ParserAsset (data : list Z) (asset : AssetValue) : option (Z * AssetValue) :=
  if len data - 0 <? 4 then Some (0, asset)
  else
    magic ← read 4 data 0;
    if negb (magic =? ASSET_MAGIC) then Some (0, asset)
    else if len data - 4 <? 2 then Some (0, asset)
    else
      size ← read 2 data 4;
      if len data - 6 <? size then Some (0, asset)
      else
        rawData ← slice data 6 size;
        match parse_lenient rawData with
        | None => Some (0, asset)
        | Some node =>
            let '(ok, asset') := Unmarshal now node asset in
            if ok then Some (6 + size, asset') else Some (0, asset')
        end.

(** The loop of [ParserRawData(data, length, Assets &)]: [n] is [num - count]. *)
Fixpoint assets_loop (n : nat) (data : list Z) (used : Z) (assets : list AssetValue) :
  option (Z * list AssetValue) :=
  match n with
  | O => Some (used, assets)
  | S n' =>
      if used <? len data then
        rest ← slice data used (len data - used);
        '(dataLen, asset) ← ParserAsset rest Asset.empty;
        if dataLen =? 0 then Some (used, assets)
        else assets_loop n' data (used + dataLen) (assets ++ [asset])
      else Some (used, assets)
  end.

(** The number of assets is read from the start of the buffer, [alignData.assign(data, ...)],
    where the magic number is. *)
Definition ParserAssets (data : list Z) (assets : list AssetValue) : option (Z * list AssetValue) :=
  if len data - 0 <? 4 then Some (0, assets)
  else
    magic ← read 4 data 0;
    if negb (magic =? ASSETS_MAGIC) then Some (0, assets)
    else if len data - 4 <? 2 then Some (0, assets)
    else
      num ← read 2 data 0;
      assets_loop (Z.to_nat num) data 6 assets.

(** [ParserRawData(data, length, std::map &)]: the first asset of a name is kept. *)
Definition ParserAssetMap (data : list Z) (assets : OMap.smap AssetValue) :
  option (Z * OMap.smap AssetValue) :=
  '(used, res) ← ParserAssets data [];
  Some (used, foldl (fun m a => OMap.insert Str.ltb (a_name a) a m) assets res).

(** [PackageRawData(const Asset &)]. *)
Definition PackageAsset (asset : AssetValue) : list Z :=
  let data := dump (Marshal asset) in
  Bytes.le_split 4 ASSET_MAGIC ++ Bytes.le_split 2 (Int.u16 (len data)) ++ data.

Definition PackageAssets (assets : list AssetValue) : list Z :=
  Bytes.le_split 4 ASSETS_MAGIC ++ Bytes.le_split 2 (Int.u16 (len assets)) ++
  concat (map PackageAsset assets).

Definition PackageAssetMap (assets : OMap.smap AssetValue) : list Z := PackageAssets (map snd assets).

End Text.

(** [ParserRawData(data, length, BigInteger &)]. *)
Definition ParserBigInt (data : list Z) (bigint : BigInteger) : option (Z * BigInteger) :=
  if len data - 0 <? 4 then Some (0, bigint)
  else
    magic ← read 4 data 0;
    if negb (magic =? BIG_INT) then Some (0, bigint)
    else if len data - 4 <? 4 then Some (0, bigint)
    else
      sign ← read 4 data 4;
      if len data - 8 <? 8 then Some (0, bigint)
      else
        count ← read 8 data 8;
        if (len data - 16) / 8 <? count then Some (0, bigint)
        else
          trueForm ← read_array 8 (Z.to_nat count) data 16;
          Some (16 + 8 * count, mkBig (Int.i32 sign) trueForm).

(** [ParserRawData(data, length, Floats &)]; a [float] is its 32 bits. *)
Definition ParserFloats (data : list Z) (floats : list Z) : option (Z * list Z) :=
  if len data - 0 <? 4 then Some (0, floats)
  else
    magic ← read 4 data 0;
    if negb (magic =? FLOUT32_ARRAY) then Some (0, floats)
    else if len data - 4 <? 4 then Some (0, floats)
    else
      count ← read 4 data 4;
      if (len data - 8) / 4 <? count then Some (0, floats)
      else
        values ← read_array 4 (Z.to_nat count) data 8;
        Some (8 + 4 * count, values).

(** [PackageRawData(const BigInteger &)]: the words of an empty vector have no address, and
    nothing is packed. *)
Definition PackageBigInt (bigint : BigInteger) : list Z :=
  match value_ bigint with
  | [] => []
  | ws => Bytes.le_split 4 BIG_INT ++ Bytes.le_split 4 (Int.u32 (sign_ bigint)) ++
          Bytes.le_split 8 (Int.u64 (len ws)) ++ concat (map (Bytes.le_split 8) ws)
  end.

Definition PackageFloats (floats : list Z) : list Z :=
  Bytes.le_split 4 FLOUT32_ARRAY ++ Bytes.le_split 4 (Int.u32 (len floats)) ++
  concat (map (Bytes.le_split 4) floats).

(** *** Reads *)

Lemma slice_app a b c : slice (a ++ b ++ c) (len a) (len b) = Some b.
Proof.
  unfold slice, len. rewrite !length_app.
  replace (_ && _) with true by (symmetry; rewrite !andb_true_iff, !Z.leb_le; lia).
  by rewrite !Nat2Z.id, drop_app_length, take_app_length.
Qed.

Lemma slice_total data off n :
  0 <= off -> 0 <= n -> off + n <= len data -> exists l, slice data off n = Some l /\ len l = n.
Proof.
  intros Ho Hn Hb. unfold slice. replace (_ && _) with true by (symmetry; rewrite !andb_true_iff, !Z.leb_le; lia).
  eexists. split; [done|]. unfold len in *. rewrite length_take, length_drop. lia.
Qed.

Lemma slice_bytes data off n l : Forall Bytes.is_byte data -> slice data off n = Some l -> Forall Bytes.is_byte l.
Proof. unfold slice. intros Hd. destruct (_ && _); [|done]. intros [= <-]. by apply Forall_take, Forall_drop. Qed.

Lemma read_app n a z c :
  0 <= z < 256 ^ Z.of_nat n -> read (Z.of_nat n) (a ++ Bytes.le_split n z ++ c) (len a) = Some z.
Proof.
  intros Hz. unfold read. replace (Z.of_nat n) with (len (Bytes.le_split n z)) by (unfold len; by rewrite Bytes.le_split_length).
  rewrite slice_app. simpl. by rewrite Bytes.le_join_split_small.
Qed.

Lemma read_total n data off :
  Forall Bytes.is_byte data -> 0 <= n -> 0 <= off -> off + n <= len data ->
  exists z, read n data off = Some z /\ 0 <= z < 256 ^ n.
Proof.
  intros Hd Hn Ho Hb. destruct (slice_total data off n Ho Hn Hb) as (l & Hl & Hlen).
  exists (Bytes.le_join l). unfold read. rewrite Hl. split; [done|].
  replace n with (Z.of_nat (length l)) by done. apply Bytes.le_join_bound. by eapply slice_bytes.
Qed.

Lemma read_array_app n a xs c :
  Forall (fun x => 0 <= x < 256 ^ Z.of_nat n) xs ->
  read_array (Z.of_nat n) (length xs) (a ++ concat (map (Bytes.le_split n) xs) ++ c) (len a) = Some xs.
Proof.
  intros Hx. revert a. induction Hx as [|x xs Hx _ IH]; intros a; [done|].
  cbn [map concat length read_array]. rewrite <-(app_assoc (Bytes.le_split n x)), read_app by done. simpl.
  specialize (IH (a ++ Bytes.le_split n x)). rewrite <-app_assoc in IH.
  replace (len (a ++ Bytes.le_split n x)) with (len a + Z.of_nat n) in IH
    by (unfold len; rewrite length_app, Bytes.le_split_length; lia).
  by rewrite IH.
Qed.

Lemma read_array_total n count data off :
  Forall Bytes.is_byte data -> 0 <= n -> 0 <= off -> off + n * Z.of_nat count <= len data ->
  exists xs, read_array n count data off = Some xs.
Proof.
  intros Hd Hn. revert off. induction count as [|count IH]; intros off Ho Hb; [by exists []|].
  cbn [read_array]. destruct (read_total n data off Hd Hn Ho ltac:(lia)) as (z & -> & _). simpl.
  destruct (IH (off + n)) as (xs & ->); [lia|lia|]. by exists (z :: xs).
Qed.

(** A parser that stays in the buffer: it never reads outside, and it uses at most all. *)
Definition safe {A} (data : list Z) (r : option (Z * A)) : Prop :=
  exists used v, r = Some (used, v) /\ 0 <= used <= len data.

Lemma safe_refuse {A} data (v : A) : safe data (Some (0, v)).
Proof. exists 0, v. unfold len. split; [done|lia]. Qed.

Create HintDb rawdata discriminated.
#[export] Hint Resolve safe_refuse : rawdata.

(** Takes a read that the preceding length check allows. *)
Ltac step_read :=
  match goal with
  | Hd : Forall Bytes.is_byte ?data |- safe _ (read ?n ?data ?off ≫= _) =>
      let z := fresh "z" in let Hz := fresh "Hz" in let E := fresh "E" in
      destruct (read_total n data off Hd ltac:(lia) ltac:(lia) ltac:(lia)) as (z & E & Hz);
      rewrite E; cbn [mbind option_bind]
  | |- safe _ (if ?x <? ?y then _ else _) => destruct (Z.ltb_spec x y); [by auto with rawdata|]
  | |- safe _ (if negb ?c then _ else _) => destruct c; cbn [negb]; [|by auto with rawdata]
  end.

Lemma floats_safe data fs : Forall Bytes.is_byte data -> safe data (ParserFloats data fs).
Proof.
  intros Hd. unfold ParserFloats. repeat step_read.
  assert (8 + 4 * z0 <= len data) by (Z.to_euclidean_division_equations; lia).
  destruct (read_array_total 4 (Z.to_nat z0) data 8 Hd) as (xs & ->); [lia..|]. simpl.
  eexists _, _. split; [done|]. lia.
Qed.

Lemma bigint_safe data b : Forall Bytes.is_byte data -> safe data (ParserBigInt data b).
Proof.
  intros Hd. unfold ParserBigInt. repeat step_read.
  assert (16 + 8 * z1 <= len data) by (Z.to_euclidean_division_equations; lia).
  destruct (read_array_total 8 (Z.to_nat z1) data 16 Hd) as (xs & ->); [lia..|]. simpl.
  eexists _, _. split; [done|]. lia.
Qed.

Lemma asset_safe `{JsonText} now data a : Forall Bytes.is_byte data -> safe data (ParserAsset now data a).
Proof.
  intros Hd. unfold ParserAsset. repeat step_read.
  destruct (slice_total data 6 z0) as (l & -> & _); [lia..|]. cbn [mbind option_bind].
  destruct (parse_lenient l) as [node|]; [|by auto with rawdata].
  destruct (Unmarshal now node a) as [[] a']; [|by auto with rawdata]. eexists _, _. split; [done|]. lia.
Qed.

(** The used length is never negative, also on lists that are not bytes. *)
Lemma asset_used `{JsonText} now data a k a' : ParserAsset now data a = Some (k, a') -> 0 <= k.
Proof.
  unfold ParserAsset. destruct (_ <? _); [by intros [= <- _]|].
  destruct (read 4 data 0) as [m|]; [|done]. cbn [mbind option_bind].
  destruct (negb _); [by intros [= <- _]|]. destruct (_ <? _); [by intros [= <- _]|].
  destruct (read 2 data 4) as [size|]; [|done]. cbn [mbind option_bind].
  destruct (_ <? _); [by intros [= <- _]|]. unfold slice.
  destruct (_ && _) eqn:E; [|done]. rewrite !andb_true_iff, !Z.leb_le in E. cbn [mbind option_bind].
  destruct (parse_lenient _) as [node|]; [|by intros [= <- _]].
  destruct (Unmarshal now node a) as [[] ?]; intros [= <- _]; lia.
Qed.

Lemma assets_loop_safe `{JsonText} now n data used acc :
  Forall Bytes.is_byte data -> 0 <= used <= len data -> safe data (assets_loop now n data used acc).
Proof.
  intros Hd. revert used acc. induction n as [|n IH]; intros used acc Hu; [by eexists _, _|]. cbn [assets_loop].
  destruct (Z.ltb_spec used (len data)); [|by eexists _, _].
  destruct (slice_total data used (len data - used)) as (l & E & Hl); [lia..|]. rewrite E. cbn [mbind option_bind].
  destruct (asset_safe now l Asset.empty) as (k & a & -> & Hk); [by eapply slice_bytes|]. cbn [mbind option_bind].
  destruct (Z.eqb_spec k 0); [by eexists _, _|]. apply IH. lia.
Qed.

Lemma assets_safe `{JsonText} now data acc : Forall Bytes.is_byte data -> safe data (ParserAssets now data acc).
Proof. intros Hd. unfold ParserAssets. repeat step_read. apply assets_loop_safe; [done|lia]. Qed.

(** *** Round trip of one asset *)

(** The fields are in the ranges of their types and the strings are text. *)
Definition asset_ok (u : string -> bool) (a : AssetValue) : Prop :=
  0 <= a_version a < 2 ^ 32 /\ 0 <= a_status a < 2 ^ 32 /\ 0 <= a_expiresTime a < 2 ^ 64 /\
  Forall (fun s => u s = true)
    [a_id a; a_name a; a_uri a; a_createTime a; a_modifyTime a; a_size a; a_hash a; a_path a; a_extension a].

(** What reading does to the status: a download that has expired is abnormal. *)
Definition expire (now : Z) (a : AssetValue) : AssetValue :=
  if (a_status a =? Asset.STATUS_DOWNLOADING) && (a_expiresTime a <? Int.u64 now)
  then Asset.set_status Asset.STATUS_ABNORMAL a else a.

Lemma Marshal_eq a :
  Marshal a = JObject
    [("createTime", JString (a_createTime a)); ("expiresTime", JUnsigned (a_expiresTime a));
     ("extension", JString (a_extension a)); ("hash", JString (a_hash a)); ("id", JString (a_id a));
     ("modifyTime", JString (a_modifyTime a)); ("name", JString (a_name a)); ("path", JString (a_path a));
     ("size", JString (a_size a)); ("status", JUnsigned (a_status a)); ("uri", JString (a_uri a));
     ("version", JUnsigned (a_version a))].
Proof. reflexivity. Qed.

Lemma Marshal_ok `{JsonText} a : asset_ok utf8 a -> json_ok utf8 (Marshal a).
Proof.
  intros (Hv & Hs & He & Hf). rewrite Marshal_eq.
  rewrite !Forall_cons_iff in Hf. destruct_and! Hf.
  split; [repeat constructor|]. rewrite !Forall_cons_iff. split_and!;
    first [by apply utf8_ascii|done|by apply Forall_nil|cbn [snd leaf_ok]].
  all: rewrite andb_true_iff, Z.leb_le, Z.ltb_lt; lia.
Qed.

(** Every field is found under its name. *)
Lemma Marshal_get a :
  GetSubNode (Marshal a) "version" = JUnsigned (a_version a) /\
  GetSubNode (Marshal a) "expiresTime" = JUnsigned (a_expiresTime a) /\
  GetSubNode (Marshal a) "id" = JString (a_id a) /\
  GetSubNode (Marshal a) "name" = JString (a_name a) /\
  GetSubNode (Marshal a) "uri" = JString (a_uri a) /\
  GetSubNode (Marshal a) "createTime" = JString (a_createTime a) /\
  GetSubNode (Marshal a) "modifyTime" = JString (a_modifyTime a) /\
  GetSubNode (Marshal a) "size" = JString (a_size a) /\
  GetSubNode (Marshal a) "hash" = JString (a_hash a) /\
  GetSubNode (Marshal a) "path" = JString (a_path a) /\
  GetSubNode (Marshal a) "status" = JUnsigned (a_status a) /\
  GetSubNode (Marshal a) "extension" = JString (a_extension a).
Proof. repeat split. Qed.

Lemma Unmarshal_Marshal now a b u :
  asset_ok u a -> Unmarshal now (Marshal a) b = (true, expire now a).
Proof.
  intros (Hv & Hs & He & _). unfold Unmarshal, GetUint32, GetUint64, GetString.
  destruct (Marshal_get a) as (-> & -> & -> & -> & -> & -> & -> & -> & -> & -> & -> & ->).
  rewrite !Int.u32_small, Int.u64_small by lia. unfold expire.
  destruct ((a_status a =? _) && (_ <? Int.u64 now)); by destruct a.
Qed.

(** *** Round trip of a list of assets *)

Section Roundtrip.
Context `{JsonText} (now : Z).

(** The text of an asset fits the 16-bit length in front of it. *)
Definition fits (a : AssetValue) : Prop := asset_ok utf8 a /\ len (dump (Marshal a)) < 2 ^ 16.

Lemma PackageAsset_len a : fits a -> len (PackageAsset a) = 6 + len (dump (Marshal a)).
Proof. intros _. unfold PackageAsset, len. rewrite !length_app, !Bytes.le_split_length. lia. Qed.

Lemma ParserAsset_Package a old rest :
  fits a -> ParserAsset now (PackageAsset a ++ rest) old = Some (len (PackageAsset a), expire now a).
Proof.
  intros [Hok Hl]. set (text := dump (Marshal a)) in *.
  assert (0 <= len text) by (unfold len; lia).
  assert (Int.u16 (len text) = len text) as Hu by (apply Int.u16_small; lia).
  assert (PackageAsset a ++ rest = Bytes.le_split 4 ASSET_MAGIC ++ (Bytes.le_split 2 (len text) ++ text ++ rest)) as E.
  { unfold PackageAsset. fold text. by rewrite Hu, <-!app_assoc. }
  assert (len (PackageAsset a ++ rest) = 6 + len text + len rest) as Hlen.
  { rewrite E. unfold len. rewrite !length_app, !Bytes.le_split_length. lia. }
  assert (0 <= len rest) by (unfold len; lia).
  unfold ParserAsset. rewrite Hlen.
  destruct (Z.ltb_spec (6 + len text + len rest - 0) 4); [lia|].
  assert (read 4 (PackageAsset a ++ rest) 0 = Some ASSET_MAGIC) as ->.
  { rewrite E. exact (read_app 4 [] ASSET_MAGIC _ ltac:(done)). }
  cbn [mbind option_bind]. rewrite Z.eqb_refl. cbn [negb].
  destruct (Z.ltb_spec (6 + len text + len rest - 4) 2); [lia|].
  assert (read 2 (PackageAsset a ++ rest) 4 = Some (len text)) as ->.
  { rewrite E. exact (read_app 2 (Bytes.le_split 4 ASSET_MAGIC) (len text) (text ++ rest) ltac:(lia)). }
  cbn [mbind option_bind]. destruct (Z.ltb_spec (6 + len text + len rest - 6) (len text)); [lia|].
  assert (slice (PackageAsset a ++ rest) 6 (len text) = Some text) as ->.
  { rewrite E, (app_assoc (Bytes.le_split 4 _)). exact (slice_app (Bytes.le_split 4 ASSET_MAGIC ++ Bytes.le_split 2 (len text)) text rest). }
  cbn [mbind option_bind]. unfold parse_lenient, text. rewrite (parse_dump _ (Marshal_ok a Hok)).
  rewrite (Unmarshal_Marshal now a old utf8 Hok). by rewrite PackageAsset_len.
Qed.

Lemma assets_loop_Package assets n pre acc :
  Forall fits assets -> (length assets <= n)%nat ->
  assets_loop now n (pre ++ concat (map PackageAsset assets)) (len pre) acc =
  Some (len (pre ++ concat (map PackageAsset assets)), acc ++ map (expire now) assets).
Proof.
  intros Hf. revert n pre acc. induction Hf as [|a assets Ha Hf IH]; intros n pre acc Hn.
  - simpl. rewrite !app_nil_r. destruct n as [|n]; cbn [assets_loop]; [done|]. by rewrite Z.ltb_irrefl.
  - destruct n as [|n]; [simpl in Hn; lia|]. cbn [assets_loop map concat].
    set (rest := concat (map PackageAsset assets)) in *.
    pose proof (PackageAsset_len a Ha) as Hl.
    assert (0 <= len (dump (Marshal a))) by (unfold len; lia).
    assert (len (pre ++ PackageAsset a ++ rest) = len pre + len (PackageAsset a) + len rest) as Ht
      by (unfold len; rewrite !length_app; lia).
    assert (0 <= len rest) by (unfold len; lia).
    destruct (Z.ltb_spec (len pre) (len (pre ++ PackageAsset a ++ rest))); [|lia].
    assert (slice (pre ++ PackageAsset a ++ rest) (len pre) (len (pre ++ PackageAsset a ++ rest) - len pre)
      = Some (PackageAsset a ++ rest)) as ->.
    { pose proof (slice_app pre (PackageAsset a ++ rest) []) as Hs. rewrite !app_nil_r in Hs.
      rewrite <-Hs. f_equal. unfold len. rewrite !length_app. lia. }
    cbn [mbind option_bind]. rewrite (ParserAsset_Package a Asset.empty rest Ha). cbn [mbind option_bind].
    destruct (Z.eqb_spec (len (PackageAsset a)) 0); [lia|].
    specialize (IH n (pre ++ PackageAsset a) (acc ++ [expire now a]) ltac:(simpl in Hn; lia)).
    rewrite <-!app_assoc in IH. etransitivity; [|exact IH]. f_equal. unfold len. rewrite length_app. lia.
Qed.

End Roundtrip.


(** The loop sees only the bytes from its position on. *)
Lemma assets_loop_suffix `{JsonText} now n h1 h2 body used acc :
  length h1 = length h2 -> len h1 <= used ->
  assets_loop now n (h1 ++ body) used acc = assets_loop now n (h2 ++ body) used acc.
Proof.
  intros Hh. revert used acc. induction n as [|n IH]; intros used acc Hu; [done|]. cbn [assets_loop].
  assert (len (h1 ++ body) = len (h2 ++ body)) as Hl by (unfold len; rewrite !length_app; lia).
  assert (forall k, slice (h1 ++ body) used k = slice (h2 ++ body) used k) as Hs.
  { intros k. unfold slice. rewrite Hl. destruct (_ && _); [|done]. unfold len in Hu.
    rewrite !drop_app_ge by lia. by rewrite Hh. }
  rewrite Hs, Hl. destruct (used <? _); [|done]. destruct (slice _ _ _) as [rest|]; [|done]. cbn [mbind option_bind].
  pose proof (asset_used now rest Asset.empty) as Hk.
  destruct (ParserAsset now rest Asset.empty) as [[k a]|]; [|done]. cbn [mbind option_bind].
  destruct (k =? 0); [done|]. apply IH. specialize (Hk k a eq_refl). lia.
Qed.

End RawDataParser.

(** ** Properties *)

Module RawDataProps.
Import RawDataParser.

(** a vector of floats is read back from its packed form, bit for bit, whatever
    follows it in the buffer. *)
Theorem floats_roundtrip (fs old rest : list Z)
  (Hf : Forall (fun x => 0 <= x < 2 ^ 32) fs) (Hl : len fs < 2 ^ 32) :
  ParserFloats (PackageFloats fs ++ rest) old = Some (len (PackageFloats fs), fs).
Proof.
  assert (0 <= len fs /\ 0 <= len rest) as [H0 Hr] by (unfold len; lia).
  assert (len (concat (map (Bytes.le_split 4) fs)) = 4 * len fs) as Hc.
  { clear. induction fs as [|x fs IH]; [done|]. cbn [map concat]. unfold len in *.
    rewrite length_app, Bytes.le_split_length, length_cons. lia. }
  set (data := concat (map (Bytes.le_split 4) fs)) in *.
  assert (PackageFloats fs ++ rest = Bytes.le_split 4 FLOUT32_ARRAY ++ Bytes.le_split 4 (len fs) ++ data ++ rest) as E.
  { unfold PackageFloats. rewrite Int.u32_small by lia. by rewrite <-!app_assoc. }
  assert (len (PackageFloats fs) = 8 + 4 * len fs) as Hp.
  { unfold PackageFloats. fold data. unfold len in *. rewrite !length_app, !Bytes.le_split_length. lia. }
  assert (len (PackageFloats fs ++ rest) = 8 + 4 * len fs + len rest) as Ht
    by (unfold len in *; rewrite length_app; lia).
  unfold ParserFloats. rewrite Ht, Hp.
  destruct (Z.ltb_spec (8 + 4 * len fs + len rest - 0) 4); [lia|].
  assert (read 4 (PackageFloats fs ++ rest) 0 = Some FLOUT32_ARRAY) as ->.
  { rewrite E. exact (read_app 4 [] FLOUT32_ARRAY _ ltac:(done)). }
  cbn [mbind option_bind]. rewrite Z.eqb_refl. cbn [negb].
  destruct (Z.ltb_spec (8 + 4 * len fs + len rest - 4) 4); [lia|].
  assert (read 4 (PackageFloats fs ++ rest) 4 = Some (len fs)) as ->.
  { rewrite E. exact (read_app 4 (Bytes.le_split 4 FLOUT32_ARRAY) (len fs) (data ++ rest) ltac:(lia)). }
  cbn [mbind option_bind].
  destruct (Z.ltb_spec ((8 + 4 * len fs + len rest - 8) / 4) (len fs)); [Z.to_euclidean_division_equations; lia|].
  rewrite E, app_assoc. replace (Z.to_nat (len fs)) with (length fs) by (unfold len; lia).
  pose proof (read_array_app 4 (Bytes.le_split 4 FLOUT32_ARRAY ++ Bytes.le_split 4 (len fs)) fs rest Hf) as Ha.
  fold data in Ha. change (len (_ ++ _)) with 8 in Ha. change (Z.of_nat 4) with 4 in Ha. by rewrite Ha.
Qed.

Lemma floats_roundtrip_witness :
  ParserFloats (PackageFloats [0x3f800000; 0xbf800000] ++ [7; 7]) [] =
  Some (len (PackageFloats [0x3f800000; 0xbf800000]), [0x3f800000; 0xbf800000]).
Proof.
  apply (floats_roundtrip [0x3f800000; 0xbf800000] [] [7; 7]); [|reflexivity].
  repeat constructor; discriminate.
Defined.

(** C30: whatever bytes a buffer holds, no parser reads outside of it, and none claims
    to have used more bytes than it has. *)
Theorem parsers_stay_in_buffer `{JsonText} (now : Z) (data : list Z)
  (Hd : Forall Bytes.is_byte data) :
  (forall fs, safe data (ParserFloats data fs)) /\
  (forall b, safe data (ParserBigInt data b)) /\
  (forall a, safe data (ParserAsset now data a)) /\
  (forall l, safe data (ParserAssets now data l)).
Proof.
  split; [intros; by apply floats_safe|]. split; [intros; by apply bigint_safe|].
  split; [intros; by apply asset_safe|intros; by apply assets_safe].
Qed.

Lemma parsers_stay_in_buffer_witness :
  let data := [0x41; 0x32; 0x33; 0x46; 255; 255; 255; 255; 1] in
  (forall fs, safe data (ParserFloats data fs)) /\
  (forall b, safe data (ParserBigInt data b)) /\
  (forall a, safe data (ParserAsset 0 data a)) /\
  (forall l, safe data (ParserAssets 0 data l)).
Proof.
  apply (parsers_stay_in_buffer (H := bits_json) 0). repeat constructor; discriminate.
Defined.

(** a list of up to 17747 assets whose texts fit the 16-bit length is read back
    from its packed form; a download that has expired comes back as abnormal. *)
Theorem assets_roundtrip `{JsonText} (now : Z) (assets : list AssetValue)
  (Hf : Forall fits assets) (Hn : len assets <= 17747) :
  ParserAssets now (PackageAssets assets) [] = Some (len (PackageAssets assets), map (expire now) assets).
Proof.
  assert (0 <= len assets) by (unfold len; lia).
  set (body := concat (map PackageAsset assets)).
  set (head := Bytes.le_split 4 ASSETS_MAGIC ++ Bytes.le_split 2 (Int.u16 (len assets))).
  assert (PackageAssets assets = head ++ body) as E by (unfold PackageAssets, head; by rewrite <-app_assoc).
  assert (len head = 6) as Hh by (unfold head, len; by rewrite length_app, !Bytes.le_split_length).
  assert (len (head ++ body) = 6 + len body) as Ht by (unfold len in *; rewrite length_app; lia).
  assert (0 <= len body) by (unfold len; lia).
  unfold ParserAssets. rewrite E, Ht.
  destruct (Z.ltb_spec (6 + len body - 0) 4); [lia|].
  assert (read 4 (head ++ body) 0 = Some ASSETS_MAGIC) as ->.
  { unfold head. rewrite <-app_assoc. exact (read_app 4 [] ASSETS_MAGIC _ ltac:(done)). }
  cbn [mbind option_bind]. rewrite Z.eqb_refl. cbn [negb].
  destruct (Z.ltb_spec (6 + len body - 4) 2); [lia|].
  assert (read 2 (head ++ body) 0 = Some 17747) as ->.
  { unfold head. rewrite <-app_assoc. unfold read, slice.
    replace (_ && _) with true; [reflexivity|]. symmetry. rewrite !andb_true_iff, !Z.leb_le.
    unfold len. rewrite !length_app, !Bytes.le_split_length. lia. }
  cbn [mbind option_bind].
  pose proof (assets_loop_Package now assets (Z.to_nat 17747) head [] Hf ltac:(unfold len in Hn; lia)) as HL.
  rewrite Hh in HL. fold body in HL. by rewrite HL, Ht.
Qed.

Definition demo_asset (name : string) (status : Z) : AssetValue :=
  mkAsset 1 status 10 "i" name "u" "c" "m" "s" "h" "p" "e".

Lemma assets_roundtrip_witness :
  ParserAssets 20 (PackageAssets [demo_asset "a" 1; demo_asset "b" 6]) [] =
  Some (len (PackageAssets [demo_asset "a" 1; demo_asset "b" 6]),
        map (expire 20) [demo_asset "a" 1; demo_asset "b" 6]).
Proof.
  apply (assets_roundtrip (H := bits_json) 20 [demo_asset "a" 1; demo_asset "b" 6]).
  - repeat constructor; vm_compute; try done; discriminate.
  - vm_compute. discriminate.
Defined.

(** The number of assets stored in the packed form is never read: two buffers that
    differ only in it are parsed alike, since the count is taken from the magic number. *)
Theorem assets_count_ignored `{JsonText} (now n1 n2 : Z) (body : list Z) (old : list AssetValue) :
  ParserAssets now (Bytes.le_split 4 ASSETS_MAGIC ++ Bytes.le_split 2 n1 ++ body) old =
  ParserAssets now (Bytes.le_split 4 ASSETS_MAGIC ++ Bytes.le_split 2 n2 ++ body) old.
Proof.
  set (h := fun n => Bytes.le_split 4 ASSETS_MAGIC ++ Bytes.le_split 2 n ++ body).
  fold (h n1). fold (h n2).
  assert (forall n, len (h n) = 6 + len body) as Hl
    by (intros n; unfold h, len; rewrite !length_app, !Bytes.le_split_length; lia).
  assert (0 <= len body) by (unfold len; lia).
  assert (forall k n, k = 2 \/ k = 4 -> read k (h n) 0 = Some (Bytes.le_join (take (Z.to_nat k) (Bytes.le_split 4 ASSETS_MAGIC)))) as Hr.
  { intros k n Hk. unfold read, slice. rewrite Hl.
    replace (_ && _) with true by (symmetry; rewrite !andb_true_iff, !Z.leb_le; lia).
    by destruct Hk as [-> | ->]. }
  unfold ParserAssets. rewrite !Hl, !Hr by lia.
  destruct (6 + len body - 0 <? 4); [reflexivity|]. cbn [mbind option_bind].
  destruct (negb _); [reflexivity|]. destruct (6 + len body - 4 <? 2); [reflexivity|]. cbn [mbind option_bind].
  unfold h. rewrite !(app_assoc _ _ body). apply assets_loop_suffix.
  - by rewrite !length_app, !Bytes.le_split_length.
  - unfold len. rewrite length_app, !Bytes.le_split_length. lia.
Qed.

(** a big integer with at least one word is read back from its packed form, sign
    and words; one without words is packed to nothing, which the parser refuses. *)
Theorem bigint_roundtrip (b old : BigInteger) (rest : list Z)
  (Hs : - 2 ^ 31 <= sign_ b < 2 ^ 31) (Hw : Forall (fun x => 0 <= x < 2 ^ 64) (value_ b))
  (Hl : len (value_ b) < 2 ^ 64) :
  match value_ b with
  | [] => ParserBigInt (PackageBigInt b) old = Some (0, old)
  | _ => ParserBigInt (PackageBigInt b ++ rest) old = Some (len (PackageBigInt b), b)
  end.
Proof.
  destruct b as [sg ws]. cbn [sign_ value_] in *. destruct ws as [|w0 ws0]; [done|].
  unfold PackageBigInt. cbn [value_ sign_]. set (ws := w0 :: ws0) in *.
  set (data := concat (map (Bytes.le_split 8) ws)).
  set (h1 := Bytes.le_split 4 BIG_INT). set (h2 := Bytes.le_split 4 (Int.u32 sg)).
  assert (0 <= len ws /\ 0 <= len rest) as [H0 Hr] by (unfold len; lia).
  rewrite Int.u64_small by lia. set (h3 := Bytes.le_split 8 (len ws)).
  assert (len data = 8 * len ws) as Hc.
  { subst data. clear. induction ws as [|x l IH]; [done|]. cbn [map concat]. unfold len in *.
    rewrite length_app, Bytes.le_split_length, length_cons. lia. }
  assert (len (h1 ++ h2 ++ h3 ++ data) = 16 + 8 * len ws) as Hp.
  { unfold len in *. rewrite !length_app. subst h1 h2 h3. rewrite !Bytes.le_split_length. lia. }
  assert (len ((h1 ++ h2 ++ h3 ++ data) ++ rest) = 16 + 8 * len ws + len rest) as Ht
    by (unfold len in *; rewrite length_app; lia).
  unfold ParserBigInt. rewrite Ht, Hp, <-!app_assoc.
  destruct (Z.ltb_spec (16 + 8 * len ws + len rest - 0) 4); [lia|].
  assert (read 4 (h1 ++ h2 ++ h3 ++ data ++ rest) 0 = Some BIG_INT) as ->
    by exact (read_app 4 [] BIG_INT _ ltac:(done)).
  cbn [mbind option_bind]. rewrite Z.eqb_refl. cbn [negb].
  destruct (Z.ltb_spec (16 + 8 * len ws + len rest - 4) 4); [lia|].
  assert (read 4 (h1 ++ h2 ++ h3 ++ data ++ rest) 4 = Some (Int.u32 sg)) as ->
    by exact (read_app 4 h1 (Int.u32 sg) _ (Int.u32_range sg)).
  cbn [mbind option_bind].
  destruct (Z.ltb_spec (16 + 8 * len ws + len rest - 8) 8); [lia|].
  assert (read 8 (h1 ++ h2 ++ h3 ++ data ++ rest) 8 = Some (len ws)) as ->.
  { rewrite (app_assoc h1). exact (read_app 8 (h1 ++ h2) (len ws) _ ltac:(lia)). }
  cbn [mbind option_bind].
  destruct (Z.ltb_spec ((16 + 8 * len ws + len rest - 16) / 8) (len ws)); [Z.to_euclidean_division_equations; lia|].
  replace (Z.to_nat (len ws)) with (length ws) by (unfold len; lia).
  assert (read_array 8 (length ws) (h1 ++ h2 ++ h3 ++ data ++ rest) 16 = Some ws) as ->.
  { rewrite (app_assoc h1), (app_assoc (h1 ++ h2)). exact (read_array_app 8 ((h1 ++ h2) ++ h3) ws rest Hw). }
  cbn [mbind option_bind]. by rewrite Int.i32_u32.
Qed.

Lemma bigint_roundtrip_witness :
  ParserBigInt (PackageBigInt (mkBig 1 [5; 2 ^ 63]) ++ [9]) (mkBig 0 [0]) =
  Some (len (PackageBigInt (mkBig 1 [5; 2 ^ 63])), mkBig 1 [5; 2 ^ 63]).
Proof.
  apply (bigint_roundtrip (mkBig 1 [5; 2 ^ 63]) (mkBig 0 [0]) [9]).
  - simpl. lia.
  - cbn [value_]. repeat constructor; lia.
  - reflexivity.
Defined.

End RawDataProps.
