(* ===== verification/Predicates.v ===== *)
(** * Predicates: the conditions of a query

    [AbsPredicates]: frameworks/native/rdb/src/abs_predicates.cpp, the WHERE, ORDER BY, GROUP
    BY, HAVING, LIMIT and OFFSET parts of a query under construction.  The source mutates
    [this] and returns it; here an operation takes the predicates and gives the new ones.
    [AbsRdbPredicates]: frameworks/native/rdb/src/abs_rdb_predicates.cpp, which records each
    operation for distributed queries as well.
    [RdbPredicates]: frameworks/native/rdb/src/rdb_predicates.cpp, the joins. *)
From Stdlib Require Import ZArith Lia Ascii.
From stdpp Require Import base list strings pretty.
From S2P Require Import Prelude CppStd Errno Values StringUtils.

Local Open Scope Z_scope.
#[local] Arguments String.append !_ _ / : simpl nomatch.

Module AbsPreds.

Definition INIT_LIMIT_VALUE : Z := Int.INT_MIN.
Definition INIT_OFFSET_VALUE : Z := Int.INT_MIN.
Definition LOG_ORIGIN_FIELD : string := "#_flag".
Definition ORIGIN_FIELD : string := "#_origin".
Definition ORIGIN_ORIDEVICE : string := "#_ori_device".

(** The flag of each origin: LOCAL, CLOUD, REMOTE. *)
Definition FLAG : list string := ["0x02"; "0x0"; "0x0"].
Definition REMOTE : Z := 2.

Record AbsPredicates := mkPreds {
  whereClause : string;
  bindArgs : list ValueObject;
  order : string;
  group : string;
  index : string;
  havingClause : string;
  limit : Z;
  offset : Z;
  distinct : bool;
  isNeedAnd : bool;
  isSorted : bool;
  hasSpecificField : bool }.

Definition set_where (p : AbsPredicates) (x : string) : AbsPredicates :=
  mkPreds x (bindArgs p) (order p) (group p) (index p) (havingClause p) (limit p) (offset p) (distinct p) (isNeedAnd p) (isSorted p) (hasSpecificField p).
Definition set_args (p : AbsPredicates) (x : list ValueObject) : AbsPredicates :=
  mkPreds (whereClause p) x (order p) (group p) (index p) (havingClause p) (limit p) (offset p) (distinct p) (isNeedAnd p) (isSorted p) (hasSpecificField p).
Definition set_order (p : AbsPredicates) (x : string) : AbsPredicates :=
  mkPreds (whereClause p) (bindArgs p) x (group p) (index p) (havingClause p) (limit p) (offset p) (distinct p) (isNeedAnd p) (isSorted p) (hasSpecificField p).
Definition set_group (p : AbsPredicates) (x : string) : AbsPredicates :=
  mkPreds (whereClause p) (bindArgs p) (order p) x (index p) (havingClause p) (limit p) (offset p) (distinct p) (isNeedAnd p) (isSorted p) (hasSpecificField p).
Definition set_index (p : AbsPredicates) (x : string) : AbsPredicates :=
  mkPreds (whereClause p) (bindArgs p) (order p) (group p) x (havingClause p) (limit p) (offset p) (distinct p) (isNeedAnd p) (isSorted p) (hasSpecificField p).
Definition set_having (p : AbsPredicates) (x : string) : AbsPredicates :=
  mkPreds (whereClause p) (bindArgs p) (order p) (group p) (index p) x (limit p) (offset p) (distinct p) (isNeedAnd p) (isSorted p) (hasSpecificField p).
Definition set_limit (p : AbsPredicates) (x : Z) : AbsPredicates :=
  mkPreds (whereClause p) (bindArgs p) (order p) (group p) (index p) (havingClause p) x (offset p) (distinct p) (isNeedAnd p) (isSorted p) (hasSpecificField p).
Definition set_offset (p : AbsPredicates) (x : Z) : AbsPredicates :=
  mkPreds (whereClause p) (bindArgs p) (order p) (group p) (index p) (havingClause p) (limit p) x (distinct p) (isNeedAnd p) (isSorted p) (hasSpecificField p).
Definition set_distinct (p : AbsPredicates) (x : bool) : AbsPredicates :=
  mkPreds (whereClause p) (bindArgs p) (order p) (group p) (index p) (havingClause p) (limit p) (offset p) x (isNeedAnd p) (isSorted p) (hasSpecificField p).
Definition set_need (p : AbsPredicates) (x : bool) : AbsPredicates :=
  mkPreds (whereClause p) (bindArgs p) (order p) (group p) (index p) (havingClause p) (limit p) (offset p) (distinct p) x (isSorted p) (hasSpecificField p).
Definition set_sorted (p : AbsPredicates) (x : bool) : AbsPredicates :=
  mkPreds (whereClause p) (bindArgs p) (order p) (group p) (index p) (havingClause p) (limit p) (offset p) (distinct p) (isNeedAnd p) x (hasSpecificField p).
Definition set_specific (p : AbsPredicates) (x : bool) : AbsPredicates :=
  mkPreds (whereClause p) (bindArgs p) (order p) (group p) (index p) (havingClause p) (limit p) (offset p) (distinct p) (isNeedAnd p) (isSorted p) x.

(** [Initial]: the fields it does not name keep their value. *)
Definition Initial (p : AbsPredicates) : AbsPredicates :=
  mkPreds EmptyString [] EmptyString EmptyString EmptyString (havingClause p)
    INIT_LIMIT_VALUE INIT_OFFSET_VALUE false false false (hasSpecificField p).

(** The constructor: the members have their default values before [Initial] runs. *)
Definition new : AbsPredicates :=
  Initial (mkPreds EmptyString [] EmptyString EmptyString EmptyString EmptyString 0 0 false false false false).

Definition Clear (p : AbsPredicates) : AbsPredicates := Initial p.

Definition IsSpecificField (field : string) : bool := bool_decide (is_Some (Str.find field "#_" 0)).

(** [CheckParameter]: the field is not empty, nor is any argument that is a string. *)
Definition CheckParameter (field : string) (args : list ValueObject) : bool :=
  if Str.empty field then false
  else forallb (fun arg => match arg with VString s => negb (Str.empty s) | _ => true end) args.

Definition RemoveQuotes (source : string) : string :=
  if Str.empty source then source
  else Str.remove_char "`" (Str.remove_char (ascii_of_nat 34) (Str.remove_char "'" source)).

Definition CheckIsNeedAnd (p : AbsPredicates) : AbsPredicates :=
  if isNeedAnd p then set_where p (whereClause p +:+ " AND ") else set_need p true.

(** [whereClause += text]. *)
Definition add_where (p : AbsPredicates) (text : string) : AbsPredicates :=
  set_where p (whereClause p +:+ text).

(** [bindArgs.push_back] of each value. *)
Definition add_args (p : AbsPredicates) (vs : list ValueObject) : AbsPredicates :=
  set_args p (bindArgs p ++ vs).

(** [hasSpecificField = hasSpecificField || IsSpecificField(field)]. *)
Definition note_field (p : AbsPredicates) (field : string) : AbsPredicates :=
  set_specific p (hasSpecificField p || IsSpecificField field).

Definition EqualTo (p : AbsPredicates) (field : string) (value : ValueObject) : AbsPredicates :=
  if negb (CheckParameter field []) then p
  else
    let p := note_field p field in
    let origin := String.eqb field ORIGIN_FIELD in
    let newField := if origin then LOG_ORIGIN_FIELD else field in
    let location := match Value.GetDouble value with inr d => d | inl _ => 0 end in
    if origin && (Float.double_ltb location 0 || Float.double_ltb 0x4000000000000000 location) then p
    else
      let flagVal := if origin then nth (Z.to_nat (Float.to_int64 location)) FLAG EmptyString else EmptyString in
      let valObj := if origin then VString flagVal else value in
      let p := CheckIsNeedAnd p in
      if String.eqb newField ORIGIN_ORIDEVICE then
        let device := match Value.GetString valObj with inr s => s | inl _ => EmptyString end in
        if Str.empty device then add_where p ("(LENGTH(" +:+ newField +:+ ") = 0)")
        else add_where p ("(LENGTH(" +:+ newField +:+ ") > 0 )")
      else if Str.empty flagVal then add_args (add_where p (newField +:+ " = ? ")) [valObj]
      else add_where p ("(" +:+ newField +:+ " & 0x02 = " +:+ flagVal +:+ ")").

Definition NotEqualTo (p : AbsPredicates) (field : string) (value : ValueObject) : AbsPredicates :=
  if negb (CheckParameter field []) then p
  else
    let p := CheckIsNeedAnd (note_field p field) in
    if String.eqb field ORIGIN_ORIDEVICE then
      let device := match Value.GetString value with inr s => s | inl _ => EmptyString end in
      if Str.empty device then add_where p ("(LENGTH(" +:+ field +:+ ") > 0 )")
      else add_where p ("(LENGTH(" +:+ field +:+ ") = 0)")
    else add_args (add_where p (field +:+ " <> ? ")) [value].

Definition BeginWrap (p : AbsPredicates) : AbsPredicates :=
  let p := if isNeedAnd p then set_need (add_where p "AND ") false else p in
  add_where p " ( ".

Definition EndWrap (p : AbsPredicates) : AbsPredicates :=
  if negb (isNeedAnd p) then p else add_where p " ) ".

Definition Or (p : AbsPredicates) : AbsPredicates :=
  if negb (isNeedAnd p) then p else set_need (add_where p " OR ") false.

Definition And (p : AbsPredicates) : AbsPredicates := p.

Definition Contains (p : AbsPredicates) (field value : string) : AbsPredicates :=
  if negb (CheckParameter field [VString value]) then p
  else add_args (add_where (CheckIsNeedAnd p) (field +:+ " LIKE ? ")) [VString ("%" +:+ value +:+ "%")].

Definition NotContains (p : AbsPredicates) (field value : string) : AbsPredicates :=
  if negb (CheckParameter field [VString value]) then p
  else add_args (add_where (CheckIsNeedAnd p) (field +:+ " NOT LIKE ? ")) [VString ("%" +:+ value +:+ "%")].

Definition BeginsWith (p : AbsPredicates) (field value : string) : AbsPredicates :=
  if negb (CheckParameter field [VString value]) then p
  else add_args (add_where (CheckIsNeedAnd p) (field +:+ " LIKE ? ")) [VString (value +:+ "%")].

Definition EndsWith (p : AbsPredicates) (field value : string) : AbsPredicates :=
  if negb (CheckParameter field [VString value]) then p
  else add_args (add_where (CheckIsNeedAnd p) (field +:+ " LIKE ? ")) [VString ("%" +:+ value)].

Definition IsNull (p : AbsPredicates) (field : string) : AbsPredicates :=
  if negb (CheckParameter field []) then p
  else add_where (CheckIsNeedAnd p) (field +:+ " IS NULL ").

Definition IsNotNull (p : AbsPredicates) (field : string) : AbsPredicates :=
  if negb (CheckParameter field []) then p
  else add_where (CheckIsNeedAnd p) (field +:+ " IS NOT NULL ").

Definition Like (p : AbsPredicates) (field value : string) : AbsPredicates :=
  if negb (CheckParameter field [VString value]) then p
  else add_args (add_where (CheckIsNeedAnd p) (field +:+ " LIKE ? ")) [VString value].

Definition NotLike (p : AbsPredicates) (field value : string) : AbsPredicates :=
  if negb (CheckParameter field [VString value]) then p
  else add_args (add_where (CheckIsNeedAnd p) (field +:+ " NOT LIKE ? ")) [VString value].

Definition Glob (p : AbsPredicates) (field value : string) : AbsPredicates :=
  if negb (CheckParameter field [VString value]) then p
  else add_args (add_where (CheckIsNeedAnd p) (field +:+ " GLOB ? ")) [VString value].

Definition NotGlob (p : AbsPredicates) (field value : string) : AbsPredicates :=
  if negb (CheckParameter field [VString value]) then p
  else add_args (add_where (CheckIsNeedAnd p) (field +:+ " NOT GLOB ? ")) [VString value].

Definition Between (p : AbsPredicates) (field : string) (low high : ValueObject) : AbsPredicates :=
  if negb (CheckParameter field [low; high]) then p
  else add_args (add_where (CheckIsNeedAnd (note_field p field)) (field +:+ " BETWEEN ? AND ? ")) [low; high].

Definition NotBetween (p : AbsPredicates) (field : string) (low high : ValueObject) : AbsPredicates :=
  if negb (CheckParameter field [low; high]) then p
  else add_args (add_where (CheckIsNeedAnd (note_field p field)) (field +:+ " NOT BETWEEN ? AND ? ")) [low; high].

Definition GreaterThan (p : AbsPredicates) (field : string) (value : ValueObject) : AbsPredicates :=
  if negb (CheckParameter field [value]) then p
  else add_args (add_where (CheckIsNeedAnd (note_field p field)) (field +:+ " > ? ")) [value].

Definition LessThan (p : AbsPredicates) (field : string) (value : ValueObject) : AbsPredicates :=
  if negb (CheckParameter field [value]) then p
  else add_args (add_where (CheckIsNeedAnd (note_field p field)) (field +:+ " < ? ")) [value].

Definition GreaterThanOrEqualTo (p : AbsPredicates) (field : string) (value : ValueObject) : AbsPredicates :=
  if negb (CheckParameter field [value]) then p
  else add_args (add_where (CheckIsNeedAnd (note_field p field)) (field +:+ " >= ? ")) [value].

Definition LessThanOrEqualTo (p : AbsPredicates) (field : string) (value : ValueObject) : AbsPredicates :=
  if negb (CheckParameter field [value]) then p
  else add_args (add_where (CheckIsNeedAnd (note_field p field)) (field +:+ " <= ? ")) [value].

Definition OrderByAsc (p : AbsPredicates) (field : string) : AbsPredicates :=
  if negb (CheckParameter field []) then p
  else
    let p := note_field p field in
    let p := if isSorted p then set_order p (order p +:+ ",") else p in
    set_sorted (set_order p (order p +:+ field +:+ " ASC ")) true.

Definition OrderByDesc (p : AbsPredicates) (field : string) : AbsPredicates :=
  if negb (CheckParameter field []) then p
  else
    let p := note_field p field in
    let p := if isSorted p then set_order p (order p +:+ ",") else p in
    set_sorted (set_order p (order p +:+ field +:+ " DESC ")) true.

Definition Distinct (p : AbsPredicates) : AbsPredicates := set_distinct p true.

Definition Limit (p : AbsPredicates) (l : Z) : AbsPredicates := set_limit p (if l <=? 0 then -1 else l).

Definition Offset (p : AbsPredicates) (o : Z) : AbsPredicates := set_offset p (if o <? 0 then -1 else o).

(** [Limit(offset, limit)]. *)
Definition Limit2 (p : AbsPredicates) (o l : Z) : AbsPredicates := Offset (Limit p l) o.

(** The loop of [GroupBy] returns at the first empty field, with the fields before it, and
    their commas, already appended. *)
Fixpoint group_loop (g : string) (fields : list string) : string * bool :=
  match fields with
  | [] => (g, true)
  | f :: fs => if negb (CheckParameter f []) then (g, false) else group_loop (g +:+ f +:+ ",") fs
  end.

Definition GroupBy (p : AbsPredicates) (fields : list string) : AbsPredicates :=
  match fields with
  | [] => p
  | _ =>
      let '(g, done) := group_loop (group p) fields in
      if done : bool then
        match Str.find_last (Ascii.eqb ",") g with
        | Some pos => set_group p (Str.erase1 g pos)
        | None => set_group p g
        end
      else set_group p g
  end.

Definition IndexedBy (p : AbsPredicates) (indexName : string) : AbsPredicates :=
  if negb (CheckParameter indexName []) then p else set_index p (RemoveQuotes indexName).

(** [AppendWhereClauseWithInOrNotIn]. *)
Definition in_text (methodName field : string) (values : list ValueObject) : string :=
  field +:+ StringUtils.SurroundWithFunction methodName "," (replicate (length values) "?").

Definition In (p : AbsPredicates) (field : string) (values : list ValueObject) : AbsPredicates :=
  if negb (CheckParameter field []) then p
  else add_where (add_args (CheckIsNeedAnd p) values) (in_text " IN " field values).

Definition NotIn (p : AbsPredicates) (field : string) (values : list ValueObject) : AbsPredicates :=
  if negb (CheckParameter field []) then p
  else add_where (add_args (CheckIsNeedAnd p) values) (in_text " NOT IN " field values).

Definition Having (p : AbsPredicates) (conditions : string) (values : list ValueObject) : AbsPredicates :=
  if negb (CheckParameter conditions []) then p
  else add_args (set_having p conditions) values.

Definition SetWhereClause (p : AbsPredicates) (w : string) : AbsPredicates :=
  if Str.empty w then p else set_where p w.

Definition GetWhereArgs (p : AbsPredicates) : list string :=
  map (fun arg => match Value.GetString arg with inr s => s | inl _ => EmptyString end) (bindArgs p).

Definition SetWhereArgs (p : AbsPredicates) (args : list string) : AbsPredicates := set_args p (map VString args).
Definition SetBindArgs (p : AbsPredicates) (args : list ValueObject) : AbsPredicates := set_args p args.
Definition SetOrder (p : AbsPredicates) (o : string) : AbsPredicates := if Str.empty o then p else set_order p o.

(** *** Building a condition, operation by operation *)

Inductive op :=
| OEqualTo (f : string) (v : ValueObject) | ONotEqualTo (f : string) (v : ValueObject)
| OBeginWrap | OEndWrap | OOr | OAnd
| OContains (f v : string) | ONotContains (f v : string) | OBeginsWith (f v : string) | OEndsWith (f v : string)
| OIsNull (f : string) | OIsNotNull (f : string)
| OLike (f v : string) | ONotLike (f v : string) | OGlob (f v : string) | ONotGlob (f v : string)
| OBetween (f : string) (low high : ValueObject) | ONotBetween (f : string) (low high : ValueObject)
| OGreaterThan (f : string) (v : ValueObject) | OLessThan (f : string) (v : ValueObject)
| OGreaterThanOrEqualTo (f : string) (v : ValueObject) | OLessThanOrEqualTo (f : string) (v : ValueObject)
| OIn (f : string) (vs : list ValueObject) | ONotIn (f : string) (vs : list ValueObject)
| OOrderByAsc (f : string) | OOrderByDesc (f : string)
| ODistinct | OLimit (l : Z) | OOffset (o : Z) | OGroupBy (fs : list string) | OIndexedBy (i : string)
| OSetOrder (o : string) | OClear.

Definition run1 (p : AbsPredicates) (o : op) : AbsPredicates :=
  match o with
  | OEqualTo f v => EqualTo p f v | ONotEqualTo f v => NotEqualTo p f v
  | OBeginWrap => BeginWrap p | OEndWrap => EndWrap p | OOr => Or p | OAnd => And p
  | OContains f v => Contains p f v | ONotContains f v => NotContains p f v
  | OBeginsWith f v => BeginsWith p f v | OEndsWith f v => EndsWith p f v
  | OIsNull f => IsNull p f | OIsNotNull f => IsNotNull p f
  | OLike f v => Like p f v | ONotLike f v => NotLike p f v
  | OGlob f v => Glob p f v | ONotGlob f v => NotGlob p f v
  | OBetween f l h => Between p f l h | ONotBetween f l h => NotBetween p f l h
  | OGreaterThan f v => GreaterThan p f v | OLessThan f v => LessThan p f v
  | OGreaterThanOrEqualTo f v => GreaterThanOrEqualTo p f v
  | OLessThanOrEqualTo f v => LessThanOrEqualTo p f v
  | OIn f vs => In p f vs | ONotIn f vs => NotIn p f vs
  | OOrderByAsc f => OrderByAsc p f | OOrderByDesc f => OrderByDesc p f
  | ODistinct => Distinct p | OLimit l => Limit p l | OOffset o => Offset p o
  | OGroupBy fs => GroupBy p fs | OIndexedBy i => IndexedBy p i
  | OSetOrder o => SetOrder p o | OClear => Clear p
  end.

(** The field an operation puts into the condition. *)
Definition op_field (o : op) : string :=
  match o with
  | OEqualTo f _ | ONotEqualTo f _ | OContains f _ | ONotContains f _ | OBeginsWith f _ | OEndsWith f _
  | OIsNull f | OIsNotNull f | OLike f _ | ONotLike f _ | OGlob f _ | ONotGlob f _
  | OBetween f _ _ | ONotBetween f _ _ | OGreaterThan f _ | OLessThan f _
  | OGreaterThanOrEqualTo f _ | OLessThanOrEqualTo f _ | OIn f _ | ONotIn f _ => f
  | _ => EmptyString
  end.

(** The condition as a list of tokens. *)
Inductive tok :=
| TCond (text : string) (args : list ValueObject)
| TAnd | TAndWrap | TOr | TOpen | TClose.

Definition print (t : tok) : string :=
  match t with
  | TCond text _ => text
  | TAnd => " AND " | TAndWrap => "AND " | TOr => " OR " | TOpen => " ( " | TClose => " ) "
  end.

Definition tok_args (t : tok) : list ValueObject := match t with TCond _ args => args | _ => [] end.

Fixpoint print_all (ts : list tok) : string :=
  match ts with [] => EmptyString | t :: ts' => print t +:+ print_all ts' end.

(** As many placeholders as arguments. *)
Definition balanced (t : tok) : Prop :=
  match t with TCond text args => Str.count "?" text = length args | _ => True end.

(** The grammar of conditions as an automaton; the state is whether an operand is complete:
    an operand or an opening parenthesis starts one, a connective or a closing parenthesis
    follows one.  The parentheses are counted by [depth]. *)
Definition tstep (complete : bool) (t : tok) : option bool :=
  match complete, t with
  | false, TCond _ _ => Some true
  | false, TOpen => Some false
  | true, (TAnd | TAndWrap | TOr) => Some false
  | true, TClose => Some true
  | _, _ => None
  end.

Fixpoint accepts (complete : bool) (ts : list tok) : option bool :=
  match ts with [] => Some complete | t :: ts' => c ← tstep complete t; accepts c ts' end.

(** The parentheses that are open behind a token; [None] once one is closed that was not open. *)
Definition dstep (d : option nat) (t : tok) : option nat :=
  match t, d with
  | TOpen, Some k => Some (S k)
  | TClose, Some (S k) => Some k
  | TClose, Some O => None
  | _, _ => d
  end.

Definition depth (ts : list tok) : option nat := foldl dstep (Some O) ts.

(** The same by the calls: [BeginWrap] opens, [EndWrap] closes where a condition is complete and is ignored
    elsewhere, and [Clear] starts again. *)
Definition wrap1 (p : AbsPredicates) (d : option nat) (o : op) : option nat :=
  match o with
  | OBeginWrap => S <$> d
  | OEndWrap => if isNeedAnd p then (match d with Some (S k) => Some k | _ => None end) else d
  | OClear => Some O
  | _ => d
  end.

Fixpoint wraps (p : AbsPredicates) (d : option nat) (os : list op) : option nat :=
  match os with [] => d | o :: os' => wraps (run1 p o) (wrap1 p d o) os' end.

(** The predicates stand for the tokens, with [d] open parentheses. *)
Record reads (p : AbsPredicates) (d : option nat) (ts : list tok) : Prop := {
  rd_text : whereClause p = print_all ts;
  rd_args : bindArgs p = concat (map tok_args ts);
  rd_ok : Forall balanced ts;
  rd_state : accepts false ts = Some (isNeedAnd p);
  rd_depth : depth ts = d }.

Lemma print_all_app a b : print_all (a ++ b) = print_all a +:+ print_all b.
Proof. induction a as [|t a IH]; simpl; [done|]. by rewrite IH, Str.app_assoc. Qed.

Lemma accepts_app c a b : accepts c (a ++ b) = (accepts c a ≫= fun c' => accepts c' b).
Proof. revert c. induction a as [|t a IH]; intros c; simpl; [done|]. destruct (tstep c t); simpl; [apply IH|done]. Qed.

(** A token appended to the text, with its arguments. *)
Lemma reads_snoc p d ts t p' :
  reads p d ts -> balanced t -> tstep (isNeedAnd p) t = Some (isNeedAnd p') ->
  whereClause p' = whereClause p +:+ print t -> bindArgs p' = bindArgs p ++ tok_args t ->
  reads p' (dstep d t) (ts ++ [t]).
Proof.
  intros [Ht Ha Hb Hs Hd] Hbt Hst Hw Hargs. split.
  - rewrite Hw, Ht, print_all_app. simpl. by rewrite Str.app_nil_r.
  - rewrite Hargs, Ha, map_app, concat_app. simpl. by rewrite app_nil_r.
  - by apply Forall_app_2; [|constructor].
  - rewrite accepts_app, Hs. simpl. by rewrite Hst.
  - unfold depth in *. by rewrite foldl_app, Hd.
Qed.

(** Fields that the condition does not depend on. *)
Lemma reads_same p d ts p' :
  reads p d ts -> whereClause p' = whereClause p -> bindArgs p' = bindArgs p -> isNeedAnd p' = isNeedAnd p ->
  reads p' d ts.
Proof. intros [Ht Ha Hb Hs Hd] Hw Hargs Hn. split; congruence. Qed.

(** [CheckIsNeedAnd] followed by a condition. *)
Lemma reads_cond p d ts text args p' :
  reads p d ts -> Str.count "?" text = length args ->
  whereClause p' = whereClause (CheckIsNeedAnd p) +:+ text -> bindArgs p' = bindArgs p ++ args ->
  isNeedAnd p' = true -> exists ts', reads p' d (ts ++ ts').
Proof.
  intros Hr Hc Hw Ha Hn. unfold CheckIsNeedAnd in Hw. destruct (isNeedAnd p) eqn:E.
  - set (p1 := set_need (set_where p (whereClause p +:+ " AND ")) false).
    assert (reads p1 d (ts ++ [TAnd])) as H1.
    { apply (reads_snoc p d ts TAnd p1); try done; [by rewrite E|]. simpl. by rewrite app_nil_r. }
    exists ([TAnd] ++ [TCond text args]). rewrite app_assoc. apply (reads_snoc p1 d _ (TCond text args)); try done.
    simpl. by rewrite Hn.
  - exists [TCond text args]. apply (reads_snoc p d _ (TCond text args)); try done. rewrite E. simpl. by rewrite Hn.
Qed.

Lemma need_after_check p : isNeedAnd (CheckIsNeedAnd p) = true.
Proof. unfold CheckIsNeedAnd. by destruct (isNeedAnd p) eqn:E. Qed.

Lemma args_after_check p : bindArgs (CheckIsNeedAnd p) = bindArgs p.
Proof. unfold CheckIsNeedAnd. by destruct (isNeedAnd p). Qed.

Lemma check_note p f : CheckIsNeedAnd (note_field p f) = note_field (CheckIsNeedAnd p) f.
Proof. unfold CheckIsNeedAnd. simpl. by destruct (isNeedAnd p). Qed.

Lemma count_question_in m f vs :
  Str.count "?" m = 0%nat -> Str.count "?" f = 0%nat ->
  Str.count "?" (in_text m f vs) = length vs.
Proof.
  intros Hm Hf. unfold in_text. rewrite StringUtils.SurroundWithFunction_eq, !Str.count_app, Hm, Hf.
  rewrite Str.count_join_sep by done. simpl.
  induction vs as [|v vs IH]; simpl; [done|]. lia.
Qed.

(** A condition [field ++ suffix] with its arguments. *)
Lemma reads_field p d ts f suffix args :
  reads p d ts -> Str.count "?" f = 0%nat -> Str.count "?" suffix = length args ->
  exists ts', reads (add_args (add_where (CheckIsNeedAnd p) (f +:+ suffix)) args) d (ts ++ ts').
Proof.
  intros Hr Hf Hs. eapply (reads_cond p d ts (f +:+ suffix) args); try done.
  - by rewrite Str.count_app, Hf.
  - simpl. by rewrite args_after_check.
  - simpl. apply need_after_check.
Qed.

Lemma reads_text p d ts text :
  reads p d ts -> Str.count "?" text = 0%nat ->
  exists ts', reads (add_where (CheckIsNeedAnd p) text) d (ts ++ ts').
Proof.
  intros Hr Hs. eapply (reads_cond p d ts text []); try done.
  - simpl. by rewrite args_after_check, app_nil_r.
  - simpl. apply need_after_check.
Qed.

Lemma reads_note p d ts f : reads p d ts -> reads (note_field p f) d ts.
Proof. intros H. by eapply reads_same. Qed.

Lemma reads_refl p d ts : reads p d ts -> exists ts', reads p d (ts ++ ts').
Proof. exists []. by rewrite app_nil_r. Qed.

Create HintDb preds discriminated.
#[export] Hint Resolve reads_note reads_refl reads_field reads_text : preds.

Lemma reads_EqualTo p d ts f v :
  reads p d ts -> Str.count "?" f = 0%nat -> exists ts', reads (EqualTo p f v) d (ts ++ ts').
Proof.
  intros Hr Hf. unfold EqualTo. destruct (negb _); [by auto with preds|]. cbv zeta.
  destruct (String.eqb_spec f ORIGIN_FIELD) as [->|_].
  - cbn [andb]. set (loc := match Value.GetDouble v with inr d => d | inl _ => 0 end).
    destruct (_ || _); [by auto with preds|].
    change (String.eqb LOG_ORIGIN_FIELD ORIGIN_ORIDEVICE) with false. cbv iota.
    assert (Str.count "?" (nth (Z.to_nat (Float.to_int64 loc)) FLAG "") = 0%nat) as Hflag.
    { unfold FLAG. by destruct (Z.to_nat (Float.to_int64 loc)) as [|[|[|[|?]]]]. }
    destruct (Str.empty _).
    + by apply reads_field; auto with preds.
    + apply reads_text; auto with preds. by rewrite !Str.count_app, Hflag.
  - cbn [andb]. destruct (String.eqb f ORIGIN_ORIDEVICE).
    + destruct (Str.empty _); apply reads_text; auto with preds; by rewrite !Str.count_app, Hf.
    + by apply reads_field; auto with preds.
Qed.

Lemma reads_NotEqualTo p d ts f v :
  reads p d ts -> Str.count "?" f = 0%nat -> exists ts', reads (NotEqualTo p f v) d (ts ++ ts').
Proof.
  intros Hr Hf. unfold NotEqualTo. destruct (negb _); [by auto with preds|]. cbv zeta.
  destruct (String.eqb f ORIGIN_ORIDEVICE).
  - destruct (Str.empty _); apply reads_text; auto with preds; by rewrite !Str.count_app, Hf.
  - by apply reads_field; auto with preds.
Qed.

Lemma reads_In p d ts f vs m :
  reads p d ts -> Str.count "?" f = 0%nat -> Str.count "?" m = 0%nat ->
  exists ts', reads (add_where (add_args (CheckIsNeedAnd p) vs) (in_text m f vs)) d (ts ++ ts').
Proof.
  intros Hr Hf Hm. eapply (reads_cond p d ts (in_text m f vs) vs); try done.
  - by apply count_question_in.
  - simpl. by rewrite args_after_check.
  - simpl. apply need_after_check.
Qed.

Lemma reads_GroupBy p d ts fs : reads p d ts -> reads (GroupBy p fs) d ts.
Proof.
  intros Hr. unfold GroupBy. destruct fs; [done|]. destruct (group_loop _ _) as [g dup].
  destruct dup; [destruct (Str.find_last _ g)|]; by eapply reads_same.
Qed.

(** Every operation appends tokens, except [Clear], which starts again. *)
Lemma reads_run1 p d ts o :
  reads p d ts -> Str.count "?" (op_field o) = 0%nat -> exists ts', reads (run1 p o) (wrap1 p d o) ts'.
Proof.
  intros Hr Hf. enough (o = OClear \/ exists ts', reads (run1 p o) (wrap1 p d o) (ts ++ ts')) as [->|[ts' H]].
  { exists []. by split. }
  { by eexists. }
  destruct o; simpl run1; simpl wrap1; simpl op_field in Hf; try (by left); right;
    try (unfold Contains, NotContains, BeginsWith, EndsWith, Like, NotLike, Glob, NotGlob, Between, NotBetween,
           GreaterThan, LessThan, GreaterThanOrEqualTo, LessThanOrEqualTo;
         destruct (negb _); [by auto with preds|]; by apply reads_field; auto with preds);
    try (apply reads_refl; by eapply reads_same).
  - by apply reads_EqualTo.
  - by apply reads_NotEqualTo.
  - unfold BeginWrap. destruct (isNeedAnd p) eqn:E.
    + set (p1 := set_need (add_where p "AND ") false).
      exists [TAndWrap; TOpen]. change (ts ++ [TAndWrap; TOpen]) with (ts ++ [TAndWrap] ++ [TOpen]). rewrite app_assoc.
      replace (S <$> d) with (dstep d TOpen) by (by destruct d).
      apply (reads_snoc p1); try done; [|simpl; by rewrite app_nil_r].
      apply (reads_snoc p d ts TAndWrap p1); try done; [by rewrite E|]. simpl. by rewrite app_nil_r.
    + exists [TOpen]. replace (S <$> d) with (dstep d TOpen) by (by destruct d).
      apply (reads_snoc p); try done; [simpl; by rewrite E|]. simpl. by rewrite app_nil_r.
  - unfold EndWrap. destruct (isNeedAnd p) eqn:E; cbn [negb]; [|by auto with preds].
    exists [TClose]. replace (match d with Some (S k) => Some k | _ => None end) with (dstep d TClose) by (by destruct d as [[|k]|]).
    apply (reads_snoc p); try done; [simpl; by rewrite E|]. simpl. by rewrite app_nil_r.
  - unfold Or. destruct (isNeedAnd p) eqn:E; cbn [negb]; [|by auto with preds].
    exists [TOr]. apply (reads_snoc p d _ TOr); try done; [by rewrite E|]. simpl. by rewrite app_nil_r.
  - unfold IsNull. destruct (negb _); [by auto with preds|]. apply reads_text; [done|]. by rewrite Str.count_app, Hf.
  - unfold IsNotNull. destruct (negb _); [by auto with preds|]. apply reads_text; [done|]. by rewrite Str.count_app, Hf.
  - unfold In. destruct (negb _); [by auto with preds|]. by apply reads_In.
  - unfold NotIn. destruct (negb _); [by auto with preds|]. by apply reads_In.
  - apply reads_refl. unfold OrderByAsc. destruct (negb _); [done|]. cbv zeta. eapply reads_same; [exact Hr|..]; by destruct (isSorted _).
  - apply reads_refl. unfold OrderByDesc. destruct (negb _); [done|]. cbv zeta. eapply reads_same; [exact Hr|..]; by destruct (isSorted _).
  - apply reads_refl. by apply reads_GroupBy.
  - apply reads_refl. unfold IndexedBy. destruct (negb _); [done|]. by eapply reads_same.
  - apply reads_refl. unfold SetOrder. destruct (Str.empty _); [done|]. by eapply reads_same.
Qed.

Lemma reads_run p d ts os :
  reads p d ts -> Forall (fun o => Str.count "?" (op_field o) = 0%nat) os -> exists ts', reads (foldl run1 p os) (wraps p d os) ts'.
Proof.
  intros Hr Hos. revert p d ts Hr. induction Hos as [|o os Ho Hos IH]; intros p d ts Hr; [by exists ts|].
  simpl. destruct (reads_run1 p d ts o Hr Ho) as [ts' H]. by eapply IH.
Qed.

End AbsPreds.

(** ** The record of operations for distributed queries *)

Module AbsRdbPreds.
Import AbsPreds.

Inductive RdbPredicateOperator :=
| EQUAL_TO | NOT_EQUAL_TO | AND | OR | ORDER_BY | LIMIT | BEGIN_GROUP | END_GROUP | IN | NOT_IN
| CONTAIN | BEGIN_WITH | END_WITH | IS_NULL | IS_NOT_NULL | LIKE | GLOB | BETWEEN | NOT_BETWEEN
| GREATER_THAN | GREATER_THAN_OR_EQUAL | LESS_THAN | LESS_THAN_OR_EQUAL | DISTINCT | INDEXED_BY
| NOT_CONTAINS | NOT_LIKE | ASSETS_ONLY | NOT_GLOB.

(** [std::variant<int64_t, std::string>]. *)
Inductive DataValue := DInt (z : Z) | DString (s : string).

Record RdbPredicateOperation := mkOp {
  operator_ : RdbPredicateOperator;
  field_ : string;
  values_ : list DataValue }.

Record PredicatesMemo := mkMemo {
  tables_ : list string;
  devices_ : list string;
  operations_ : list RdbPredicateOperation }.

Record AbsRdbPredicates := mkRdb {
  base : AbsPredicates;
  tableName_ : string;
  predicates_ : PredicatesMemo;
  joinTypes : list string;
  joinTableNames : list string;
  joinConditions : list string;
  joinCount : Z }.

Definition set_base (p : AbsRdbPredicates) (b : AbsPredicates) : AbsRdbPredicates :=
  mkRdb b (tableName_ p) (predicates_ p) (joinTypes p) (joinTableNames p) (joinConditions p) (joinCount p).
Definition set_memo (p : AbsRdbPredicates) (m : PredicatesMemo) : AbsRdbPredicates :=
  mkRdb (base p) (tableName_ p) m (joinTypes p) (joinTableNames p) (joinConditions p) (joinCount p).
Definition set_joins (p : AbsRdbPredicates) (ts ns cs : list string) (n : Z) : AbsRdbPredicates :=
  mkRdb (base p) (tableName_ p) (predicates_ p) ts ns cs n.

(** The constructor for one table. *)
Definition new (tableName : string) : AbsRdbPredicates :=
  mkRdb AbsPreds.new tableName (mkMemo (if Str.empty tableName then [] else [tableName]) [] []) [] [] [] 0.

(** The constructor for several tables. *)
Definition new_tables (tables : list string) : AbsRdbPredicates :=
  mkRdb AbsPreds.new (default EmptyString (head tables)) (mkMemo tables [] []) [] [] [] 0.

Definition InitialParam (p : AbsRdbPredicates) : AbsRdbPredicates := set_joins p [] [] [] 0.

Definition Clear (p : AbsRdbPredicates) : AbsRdbPredicates := InitialParam (set_base p (AbsPreds.Clear (base p))).

(** [PredicatesMemo::AddOperation]. *)
Definition AddOperation (p : AbsRdbPredicates) (o : RdbPredicateOperator) (field : string)
  (values : list DataValue) : AbsRdbPredicates :=
  set_memo p (mkMemo (tables_ (predicates_ p)) (devices_ (predicates_ p))
    (operations_ (predicates_ p) ++ [mkOp o field values])).

(** A comparison is recorded for doubles (as integers) and integers. *)
Definition add_number (p : AbsRdbPredicates) (o : RdbPredicateOperator) (field : string) (value : ValueObject) :
  AbsRdbPredicates :=
  match value with
  | VDouble d => AddOperation p o field [DInt (Float.to_int64 d)]
  | VInt z => AddOperation p o field [DInt z]
  | _ => p
  end.

Definition GreaterThan (p : AbsRdbPredicates) (field : string) (value : ValueObject) : AbsRdbPredicates :=
  let p := add_number p GREATER_THAN field value in set_base p (AbsPreds.GreaterThan (base p) field value).
Definition LessThan (p : AbsRdbPredicates) (field : string) (value : ValueObject) : AbsRdbPredicates :=
  let p := add_number p LESS_THAN field value in set_base p (AbsPreds.LessThan (base p) field value).
Definition LessThanOrEqualTo (p : AbsRdbPredicates) (field : string) (value : ValueObject) : AbsRdbPredicates :=
  let p := add_number p LESS_THAN_OR_EQUAL field value in set_base p (AbsPreds.LessThanOrEqualTo (base p) field value).
Definition GreaterThanOrEqualTo (p : AbsRdbPredicates) (field : string) (value : ValueObject) : AbsRdbPredicates :=
  let p := add_number p GREATER_THAN_OR_EQUAL field value in
  set_base p (AbsPreds.GreaterThanOrEqualTo (base p) field value).

Definition EqualTo (p : AbsRdbPredicates) (field : string) (value : ValueObject) : AbsRdbPredicates :=
  let p :=
    match value with
    | VString s => AddOperation p EQUAL_TO field [DString s]
    | VDouble _ | VInt _ => add_number p EQUAL_TO field value
    | VAsset a => AddOperation p ASSETS_ONLY field [DString (a_name a)]
    | VAssets l => AddOperation p ASSETS_ONLY field (map (fun a => DString (a_name a)) l)
    | _ => p
    end in
  set_base p (AbsPreds.EqualTo (base p) field value).

Definition NotEqualTo (p : AbsRdbPredicates) (field : string) (value : ValueObject) : AbsRdbPredicates :=
  let p :=
    match value with
    | VString s => AddOperation p NOT_EQUAL_TO field [DString s]
    | _ => add_number p NOT_EQUAL_TO field value
    end in
  set_base p (AbsPreds.NotEqualTo (base p) field value).

(** An operation recorded with one string. *)
Definition add_string (p : AbsRdbPredicates) (o : RdbPredicateOperator) (field value : string) : AbsRdbPredicates :=
  AddOperation p o field [DString value].

Definition And (p : AbsRdbPredicates) : AbsRdbPredicates :=
  let p := add_string p AND EmptyString EmptyString in set_base p (AbsPreds.And (base p)).
Definition Or (p : AbsRdbPredicates) : AbsRdbPredicates :=
  let p := add_string p OR EmptyString EmptyString in set_base p (AbsPreds.Or (base p)).
Definition OrderByAsc (p : AbsRdbPredicates) (field : string) : AbsRdbPredicates :=
  let p := add_string p ORDER_BY field "true" in set_base p (AbsPreds.OrderByAsc (base p) field).
Definition OrderByDesc (p : AbsRdbPredicates) (field : string) : AbsRdbPredicates :=
  let p := add_string p ORDER_BY field "false" in set_base p (AbsPreds.OrderByDesc (base p) field).
Definition BeginWrap (p : AbsRdbPredicates) : AbsRdbPredicates :=
  let p := add_string p BEGIN_GROUP EmptyString EmptyString in set_base p (AbsPreds.BeginWrap (base p)).
Definition EndWrap (p : AbsRdbPredicates) : AbsRdbPredicates :=
  let p := add_string p END_GROUP EmptyString EmptyString in set_base p (AbsPreds.EndWrap (base p)).
Definition Contains (p : AbsRdbPredicates) (field value : string) : AbsRdbPredicates :=
  let p := add_string p CONTAIN field value in set_base p (AbsPreds.Contains (base p) field value).
Definition NotContains (p : AbsRdbPredicates) (field value : string) : AbsRdbPredicates :=
  let p := add_string p NOT_CONTAINS field value in set_base p (AbsPreds.NotContains (base p) field value).
Definition BeginsWith (p : AbsRdbPredicates) (field value : string) : AbsRdbPredicates :=
  let p := add_string p BEGIN_WITH field value in set_base p (AbsPreds.BeginsWith (base p) field value).
Definition EndsWith (p : AbsRdbPredicates) (field value : string) : AbsRdbPredicates :=
  let p := add_string p END_WITH field value in set_base p (AbsPreds.EndsWith (base p) field value).
Definition IsNull (p : AbsRdbPredicates) (field : string) : AbsRdbPredicates :=
  let p := add_string p IS_NULL field EmptyString in set_base p (AbsPreds.IsNull (base p) field).
Definition IsNotNull (p : AbsRdbPredicates) (field : string) : AbsRdbPredicates :=
  let p := add_string p IS_NOT_NULL field EmptyString in set_base p (AbsPreds.IsNotNull (base p) field).
Definition Like (p : AbsRdbPredicates) (field value : string) : AbsRdbPredicates :=
  let p := add_string p LIKE field value in set_base p (AbsPreds.Like (base p) field value).
Definition NotLike (p : AbsRdbPredicates) (field value : string) : AbsRdbPredicates :=
  let p := add_string p NOT_LIKE field value in set_base p (AbsPreds.NotLike (base p) field value).
Definition Glob (p : AbsRdbPredicates) (field value : string) : AbsRdbPredicates :=
  let p := add_string p GLOB field value in set_base p (AbsPreds.Glob (base p) field value).
Definition NotGlob (p : AbsRdbPredicates) (field value : string) : AbsRdbPredicates :=
  let p := add_string p NOT_GLOB field value in set_base p (AbsPreds.NotGlob (base p) field value).
Definition Distinct (p : AbsRdbPredicates) : AbsRdbPredicates :=
  let p := add_string p DISTINCT EmptyString EmptyString in set_base p (AbsPreds.Distinct (base p)).
Definition IndexedBy (p : AbsRdbPredicates) (indexName : string) : AbsRdbPredicates :=
  let p := add_string p INDEXED_BY indexName EmptyString in set_base p (AbsPreds.IndexedBy (base p) indexName).

(** The loop of [In] over the values: strings and integers apart; [None] when a value is of
    another type. *)
Fixpoint collect (values : list ValueObject) (ss : list string) (zs : list Z) (isString : bool) :
  option (list string * list Z * bool) :=
  match values with
  | [] => Some (ss, zs, isString)
  | VString s :: vs => collect vs (ss ++ [s]) zs true
  | VDouble d :: vs => collect vs ss (zs ++ [Float.to_int64 d]) isString
  | VInt z :: vs => collect vs ss (zs ++ [z]) isString
  | _ :: _ => None
  end.

Definition In (p : AbsRdbPredicates) (field : string) (values : list ValueObject) : AbsRdbPredicates :=
  let p :=
    match collect values [] [] false with
    | None => p
    | Some (ss, zs, isString) =>
        AddOperation p IN field (if isString then map DString ss else map DInt zs)
    end in
  set_base p (AbsPreds.In (base p) field values).

(** [In] for strings: [AbsPredicates::In] calls the virtual [In] for values, which is the one
    above. *)
Definition InStrings (p : AbsRdbPredicates) (field : string) (values : list string) : AbsRdbPredicates :=
  In (AddOperation p IN field (map DString values)) field (map VString values).

(** [NotIn] for values collects them and records nothing. *)
Definition NotIn (p : AbsRdbPredicates) (field : string) (values : list ValueObject) : AbsRdbPredicates :=
  set_base p (AbsPreds.NotIn (base p) field values).

Definition NotInStrings (p : AbsRdbPredicates) (field : string) (values : list string) : AbsRdbPredicates :=
  NotIn (AddOperation p NOT_IN field (map DString values)) field (map VString values).

Definition InDevices (p : AbsRdbPredicates) (devices : list string) : AbsRdbPredicates :=
  set_memo p (mkMemo (tables_ (predicates_ p)) devices (operations_ (predicates_ p))).
Definition InAllDevices (p : AbsRdbPredicates) : AbsRdbPredicates := InDevices p [].

(** [GetDistributedPredicates] is [const], but its memo is mutable. *)
Definition GetDistributedPredicates (p : AbsRdbPredicates) : PredicatesMemo * AbsRdbPredicates :=
  let l := limit (base p) in
  let p := if 0 <=? l then add_string p LIMIT (pretty l) (pretty (offset (base p))) else p in
  (predicates_ p, p).

Definition GetJoinClause (p : AbsRdbPredicates) : string := EmptyString.

Definition SetJoinTypes (p : AbsRdbPredicates) (l : list string) : AbsRdbPredicates :=
  set_joins p l (joinTableNames p) (joinConditions p) (joinCount p).
Definition SetJoinTableNames (p : AbsRdbPredicates) (l : list string) : AbsRdbPredicates :=
  set_joins p (joinTypes p) l (joinConditions p) (joinCount p).
Definition SetJoinConditions (p : AbsRdbPredicates) (l : list string) : AbsRdbPredicates :=
  set_joins p (joinTypes p) (joinTableNames p) l (joinCount p).
Definition SetJoinCount (p : AbsRdbPredicates) (n : Z) : AbsRdbPredicates :=
  set_joins p (joinTypes p) (joinTableNames p) (joinConditions p) n.

(** [std::to_string(bool)]. *)
Definition bit (b : bool) : string := if b then "1" else "0".

Definition ToString (p : AbsRdbPredicates) : string :=
  let b := base p in
  let args := foldl (fun acc item => acc +:+ item +:+ ", ") EmptyString (GetWhereArgs b) in
  "TableName = " +:+ tableName_ p +:+ ", {WhereClause:" +:+ whereClause b +:+ ", bindArgs:{" +:+ args +:+ "}"
  +:+ ", order:" +:+ order b +:+ ", group:" +:+ group b +:+ ", index:" +:+ index b
  +:+ ", limit:" +:+ pretty (limit b) +:+ ", offset:" +:+ pretty (offset b)
  +:+ ", distinct:" +:+ bit (distinct b) +:+ ", isNeedAnd:" +:+ bit (isNeedAnd b)
  +:+ ", isSorted:" +:+ bit (isSorted b) +:+ "}".

End AbsRdbPreds.

(** ** Joins *)

Module RdbPreds.
Import AbsRdbPreds.

Inductive JoinType := INNER | LEFT | CROSS.

Definition GetGrammar (t : JoinType) : string :=
  match t with INNER => "INNER JOIN" | LEFT => "LEFT OUTER JOIN" | CROSS => "CROSS JOIN" end.

Definition new (tableName : string) : AbsRdbPredicates := InitialParam (AbsRdbPreds.new tableName).

Definition Join (p : AbsRdbPredicates) (join : JoinType) (tableName : string) : AbsRdbPredicates :=
  if Str.empty tableName then p
  else set_joins p (joinTypes p ++ [GetGrammar join]) (joinTableNames p ++ [tableName]) (joinConditions p)
         (joinCount p + 1).

Definition CrossJoin (p : AbsRdbPredicates) (tableName : string) : AbsRdbPredicates := Join p CROSS tableName.
Definition InnerJoin (p : AbsRdbPredicates) (tableName : string) : AbsRdbPredicates := Join p INNER tableName.
Definition LeftOuterJoin (p : AbsRdbPredicates) (tableName : string) : AbsRdbPredicates := Join p LEFT tableName.

(** [while (joinCount > 1) joinConditions.push_back("")], then the condition of the last join. *)
Definition close_joins (p : AbsRdbPredicates) (condition : string) : AbsRdbPredicates :=
  set_joins p (joinTypes p) (joinTableNames p)
    (joinConditions p ++ replicate (Z.to_nat (joinCount p - 1)) EmptyString ++ [condition]) 0.

Definition Using (p : AbsRdbPredicates) (fields : list string) : AbsRdbPredicates :=
  if bool_decide (fields = []) then p
  else if joinCount p <=? 0 then p
  else close_joins p (StringUtils.SurroundWithFunction "USING" "," fields).

Definition On (p : AbsRdbPredicates) (clauses : list string) : AbsRdbPredicates :=
  if bool_decide (clauses = []) then p
  else if joinCount p <=? 0 then p
  else close_joins p (StringUtils.SurroundWithFunction "ON" "AND" clauses).

(** [ProcessJoins]: [None] when an element beyond the end of a vector is read. *)
Fixpoint joins_loop (i : nat) (ts ns cs : list string) (builder : string) {struct ns} : option string :=
  match ns with
  | [] => Some builder
  | n :: ns' =>
      match ts, cs with
      | t :: ts', c :: cs' =>
          let builder := if (i =? 0)%nat then builder else builder +:+ " " in
          let builder := builder +:+ t +:+ " " +:+ n in
          let builder := if Str.empty c then builder else builder +:+ " " +:+ c in
          joins_loop (S i) ts' ns' cs' builder
      | _, _ => None
      end
  end.

Definition ProcessJoins (p : AbsRdbPredicates) : option string :=
  joins_loop 0 (joinTypes p) (joinTableNames p) (joinConditions p) EmptyString.

Definition GetJoinClause (p : AbsRdbPredicates) : option string :=
  if bool_decide (joinTableNames p = []) then Some EmptyString else ProcessJoins p.

(** *** The vectors stay in step *)

Record joins_ok (p : AbsRdbPredicates) : Prop := {
  jo_types : length (joinTypes p) = length (joinTableNames p);
  jo_count : 0 <= joinCount p;
  jo_conds : Z.of_nat (length (joinConditions p)) + joinCount p = Z.of_nat (length (joinTableNames p)) }.

Inductive jop := JJoin (t : JoinType) (table : string) | JUsing (fields : list string) | JOn (clauses : list string).

Definition jrun1 (p : AbsRdbPredicates) (o : jop) : AbsRdbPredicates :=
  match o with JJoin t n => Join p t n | JUsing fs => Using p fs | JOn cs => On p cs end.

Lemma close_joins_ok p c : joins_ok p -> 0 < joinCount p -> joins_ok (close_joins p c).
Proof.
  intros [Ht Hc Hn] Hpos. split; [exact Ht|simpl; lia|]. simpl.
  rewrite !length_app, length_replicate. simpl. lia.
Qed.

Lemma jrun1_ok p o : joins_ok p -> joins_ok (jrun1 p o).
Proof.
  intros Hok. destruct o as [t n|fs|cs]; simpl.
  - unfold Join. destruct (Str.empty n); [done|]. destruct Hok as [Ht Hc Hn].
    split; simpl; rewrite ?length_app; simpl; lia.
  - unfold Using. destruct (bool_decide _); [done|]. destruct (Z.leb_spec (joinCount p) 0); [done|].
    by apply close_joins_ok.
  - unfold On. destruct (bool_decide _); [done|]. destruct (Z.leb_spec (joinCount p) 0); [done|].
    by apply close_joins_ok.
Qed.

Lemma jrun_ok p os : joins_ok p -> joins_ok (foldl jrun1 p os).
Proof. revert p. induction os as [|o os IH]; intros p Hp; [done|]. simpl. by apply IH, jrun1_ok. Qed.

Lemma joins_loop_some i ts ns cs b :
  length ts = length ns -> (length cs <= length ns)%nat ->
  is_Some (joins_loop i ts ns cs b) <-> length cs = length ns.
Proof.
  revert i ts cs b. induction ns as [|n ns IH]; intros i ts cs b Ht Hc.
  - destruct cs; simpl in *; [|lia]. split; [done|]. intros _. exists b. reflexivity.
  - destruct ts as [|t ts]; [done|]. destruct cs as [|c cs]; cbn [joins_loop].
    + split; [by intros [? ?]|]. intros H. simpl in H. lia.
    + simpl in *. rewrite IH by lia. lia.
Qed.

End RdbPreds.

(** ** Properties *)

Module PredsProps.
Import AbsPreds.


Definition demo_ops : list op :=
  [OEqualTo "a" (VInt 1); OBeginWrap; OContains "b" "x"; OOr; OIn "c" [VInt 1; VInt 2]; OEndWrap;
   OBetween "d" (VInt 1) (VInt 5)].


(** [Clear] does not give back fresh predicates: the HAVING clause and the mark of
    a special field survive it. *)
Theorem clear_keeps_having :
  let p := Clear (NotEqualTo (Having new "count(a) > ?" [VInt 1]) "#_flag" (VInt 2)) in
  bindArgs p = [] /\ havingClause p = "count(a) > ?" /\ hasSpecificField p = true /\
  havingClause new = EmptyString /\ hasSpecificField new = false.
Proof. by vm_compute. Qed.

(** [Having] appends its arguments at once, so a condition added after it has its
    argument behind them although WHERE comes before HAVING in the statement; and a second
    [Having] replaces the clause but leaves the first one's arguments. *)
Theorem having_arguments_misplaced (c1 c2 f : string) (v1 v2 w : ValueObject)
  (Hc1 : c1 <> EmptyString) (Hc2 : c2 <> EmptyString) (Hf : f <> EmptyString)
  (Hf1 : f <> ORIGIN_FIELD) (Hf2 : f <> ORIGIN_ORIDEVICE) :
  bindArgs (EqualTo (Having new c1 [v1]) f w) = [v1; w] /\
  (havingClause (Having (Having new c1 [v1]) c2 [v2]) = c2 /\
   bindArgs (Having (Having new c1 [v1]) c2 [v2]) = [v1; v2]).
Proof.
  unfold Having, EqualTo. destruct c1; [done|]. destruct c2; [done|]. destruct f as [|x f]; [done|].
  cbn [CheckParameter Str.empty forallb negb].
  destruct (String.eqb_spec (String x f) ORIGIN_FIELD); [done|].
  destruct (String.eqb_spec (String x f) ORIGIN_ORIDEVICE); done.
Qed.

Lemma having_arguments_misplaced_witness :
  bindArgs (EqualTo (Having new "count(a) > ?" [VInt 1]) "b" (VInt 2)) = [VInt 1; VInt 2] /\
  (havingClause (Having (Having new "count(a) > ?" [VInt 1]) "max(a) > ?" [VInt 3]) = "max(a) > ?" /\
   bindArgs (Having (Having new "count(a) > ?" [VInt 1]) "max(a) > ?" [VInt 3]) = [VInt 1; VInt 3]).
Proof. apply (having_arguments_misplaced "count(a) > ?" "max(a) > ?" "b"); discriminate. Defined.

Lemma group_loop_ok g fs :
  Forall (fun f => f <> EmptyString) fs -> fs <> [] ->
  group_loop g fs = (g +:+ Str.join "," fs +:+ ",", true).
Proof.
  intros Hf. revert g. induction Hf as [|f fs Hf0 Hf IH]; intros g Hn; [done|]. cbn [group_loop].
  destruct f as [|c f]; [done|]. cbn [CheckParameter Str.empty forallb negb].
  destruct fs as [|f2 fs]; [done|]. rewrite IH by done.
  rewrite (Str.join_cons _ (String c f) (f2 :: fs)) by done. by rewrite !Str.app_assoc.
Qed.

Lemma find_last_snoc c s : Str.find_last (Ascii.eqb c) (s +:+ String c EmptyString) = Some (Str.size s).
Proof.
  induction s as [|x s IH]; cbn [String.append Str.find_last]; [by rewrite Ascii.eqb_refl|]. by rewrite IH.
Qed.

Lemma GroupBy_join p fs :
  Forall (fun f => f <> EmptyString) fs -> fs <> [] ->
  group (GroupBy p fs) = group p +:+ Str.join "," fs.
Proof.
  intros Hf Hn. unfold GroupBy. destruct fs as [|f fs]; [done|]. rewrite group_loop_ok by done.
  rewrite <-Str.app_assoc, find_last_snoc. cbn [group set_group]. unfold Str.erase1.
  rewrite Str.take_app_size, Str.drop_all; [by rewrite Str.app_nil_r|]. rewrite Str.size_app. simpl. lia.
Qed.

(** One [GroupBy] gives the fields separated by commas; a second one appends its
    fields with no comma between the two lists. *)
Theorem group_by_fields (p : AbsPredicates) (fs gs : list string)
  (Hf : Forall (fun f => f <> EmptyString) fs) (Hg : Forall (fun f => f <> EmptyString) gs)
  (Hnf : fs <> []) (Hng : gs <> []) (Hp : group p = EmptyString) :
  group (GroupBy p fs) = Str.join "," fs /\
  group (GroupBy (GroupBy p fs) gs) = Str.join "," fs +:+ Str.join "," gs.
Proof. rewrite !GroupBy_join by done. by rewrite Hp. Qed.

Lemma group_by_fields_witness :
  group (GroupBy new ["a"; "b"]) = Str.join "," ["a"; "b"] /\
  group (GroupBy (GroupBy new ["a"; "b"]) ["c"]) = Str.join "," ["a"; "b"] +:+ Str.join "," ["c"].
Proof. apply (group_by_fields new ["a"; "b"] ["c"]); try discriminate; try reflexivity; repeat constructor; discriminate. Defined.

(** An ordering as [OrderByAsc] and [OrderByDesc] write it. *)
Definition order_text (o : string * bool) : string := fst o +:+ (if snd o then " ASC " else " DESC ").

Lemma order_step p f (asc : bool) :
  f <> EmptyString ->
  let p' := if asc then OrderByAsc p f else OrderByDesc p f in
  isSorted p' = true /\
  order p' = (if isSorted p then order p +:+ "," else order p) +:+ order_text (f, asc).
Proof.
  intros Hf. destruct f as [|c f]; [done|].
  destruct asc; unfold OrderByAsc, OrderByDesc, order_text; cbn [CheckParameter Str.empty forallb negb];
    by destruct p as [? ? ? ? ? ? ? ? ? ? [] ?].
Qed.

Definition order_run (p : AbsPredicates) (os : list (string * bool)) : AbsPredicates :=
  foldl (fun p '(f, asc) => if (asc : bool) then OrderByAsc p f else OrderByDesc p f) p os.

Lemma order_run_sorted os p :
  Forall (fun o => fst o <> EmptyString) os -> isSorted p = true ->
  order (order_run p os) =
  match os with [] => order p | _ => order p +:+ "," +:+ Str.join "," (map order_text os) end.
Proof.
  intros Hf. revert p. unfold order_run. induction Hf as [|[f asc] os Ho Hf IH]; intros p Hp; [done|]. simpl foldl.
  destruct (order_step p f asc Ho) as [Hs Ht]. rewrite (IH _ Hs), Ht, Hp.
  destruct os as [|o2 os]; [by rewrite !Str.app_assoc|].
  cbn [map]. rewrite (Str.join_cons _ (order_text (f, asc)) (order_text o2 :: map order_text os)) by done.
  by rewrite !Str.app_assoc.
Qed.

(** Orderings are listed with the first called first, separated by commas. *)
Theorem order_by_list (os : list (string * bool)) (Hf : Forall (fun o => fst o <> EmptyString) os) :
  order (order_run new os) = Str.join "," (map order_text os).
Proof.
  destruct Hf as [|[f asc] os Ho Hf]; [done|]. destruct (order_step new f asc Ho) as [Hs Ht].
  change (order_run new ((f, asc) :: os)) with (order_run (if asc then OrderByAsc new f else OrderByDesc new f) os).
  rewrite (order_run_sorted os _ Hf Hs), Ht. destruct os as [|o2 os]; [done|].
  cbn [map]. by rewrite (Str.join_cons _ (order_text (f, asc)) (order_text o2 :: map order_text os)) by done.
Qed.

Lemma order_by_list_witness :
  order (order_run new [("a", true); ("b", false)]) = Str.join "," (map order_text [("a", true); ("b", false)]).
Proof. apply (order_by_list [("a", true); ("b", false)]). repeat constructor; discriminate. Defined.

(** A clause set by [SetWhereClause] is not known to be an operand: the next
    condition is appended to it without AND. *)
Theorem set_where_then_condition (w f : string) (v : ValueObject)
  (Hw : w <> EmptyString) (Hf : f <> EmptyString) :
  whereClause (GreaterThan (SetWhereClause new w) f v) = w +:+ f +:+ " > ? " \/
  v = VString EmptyString.
Proof.
  destruct w as [|cw w]; [done|]. destruct f as [|cf f]; [done|].
  unfold GreaterThan, SetWhereClause. cbn [Str.empty CheckParameter forallb].
  destruct v as [| | |s| | | | | |]; try by left. destruct s; [by right|by left].
Qed.

Lemma set_where_then_condition_witness :
  whereClause (GreaterThan (SetWhereClause new "a = 1") "b" (VInt 2)) = "a = 1" +:+ "b" +:+ " > ? " \/
  VInt 2 = VString EmptyString.
Proof. apply (set_where_then_condition "a = 1" "b" (VInt 2)); discriminate. Defined.

(** For a distributed query [In] over strings is recorded twice, [NotIn] over values
    not at all, and every call of the getter records the limit once more. *)
Theorem memo_records (f : string) (ss : list string) (vs : list ValueObject) (l : Z) (Hl : 0 < l) :
  let p := AbsRdbPreds.new "t" in
  AbsRdbPreds.operations_ (AbsRdbPreds.predicates_ (AbsRdbPreds.InStrings p f ss)) =
    (if bool_decide (ss = []) then
       [AbsRdbPreds.mkOp AbsRdbPreds.IN f []; AbsRdbPreds.mkOp AbsRdbPreds.IN f []]
     else [AbsRdbPreds.mkOp AbsRdbPreds.IN f (map AbsRdbPreds.DString ss);
           AbsRdbPreds.mkOp AbsRdbPreds.IN f (map AbsRdbPreds.DString ss)]) /\
  AbsRdbPreds.operations_ (AbsRdbPreds.predicates_ (AbsRdbPreds.NotIn p f vs)) = [] /\
  let q := AbsRdbPreds.set_base p (Limit new l) in
  let q1 := snd (AbsRdbPreds.GetDistributedPredicates q) in
  length (AbsRdbPreds.operations_ (fst (AbsRdbPreds.GetDistributedPredicates q1))) = 2%nat.
Proof.
  assert (forall xs acc b, AbsRdbPreds.collect (map VString xs) acc [] b =
    Some (acc ++ xs, [], match xs with [] => b | _ => true end)) as Hc.
  { induction xs as [|x xs IH]; intros acc b; cbn [map AbsRdbPreds.collect]; [by rewrite app_nil_r|].
    rewrite IH, <-app_assoc. by destruct xs. }
  cbv zeta. split; [|split; [done|]].
  - unfold AbsRdbPreds.InStrings, AbsRdbPreds.In. rewrite Hc. destruct ss as [|s ss]; [done|].
    rewrite bool_decide_false by done. done.
  - assert (limit (Limit new l) = l) as Hlim by (unfold Limit; destruct (Z.leb_spec l 0); [lia|done]).
    assert ((0 <=? l) = true) as E by lia.
    unfold AbsRdbPreds.GetDistributedPredicates. cbn [AbsRdbPreds.base AbsRdbPreds.set_base]. rewrite Hlim, E.
    cbn [snd AbsRdbPreds.base AbsRdbPreds.set_base AbsRdbPreds.add_string AbsRdbPreds.AddOperation AbsRdbPreds.set_memo].
    rewrite Hlim, E. reflexivity.
Qed.

Lemma memo_records_witness :
  let p := AbsRdbPreds.new "t" in
  AbsRdbPreds.operations_ (AbsRdbPreds.predicates_ (AbsRdbPreds.InStrings p "a" ["x"])) =
    (if bool_decide (["x"] = []) then
       [AbsRdbPreds.mkOp AbsRdbPreds.IN "a" []; AbsRdbPreds.mkOp AbsRdbPreds.IN "a" []]
     else [AbsRdbPreds.mkOp AbsRdbPreds.IN "a" (map AbsRdbPreds.DString ["x"]);
           AbsRdbPreds.mkOp AbsRdbPreds.IN "a" (map AbsRdbPreds.DString ["x"])]) /\
  AbsRdbPreds.operations_ (AbsRdbPreds.predicates_ (AbsRdbPreds.NotIn p "a" [VInt 1])) = [] /\
  let q := AbsRdbPreds.set_base p (Limit new 5) in
  let q1 := snd (AbsRdbPreds.GetDistributedPredicates q) in
  length (AbsRdbPreds.operations_ (fst (AbsRdbPreds.GetDistributedPredicates q1))) = 2%nat.
Proof. apply (memo_records "a" ["x"] [VInt 1] 5). reflexivity. Defined.

(** over any sequence of joins and join conditions the three vectors stay in step, and
    the join clause can be built exactly when the last join has been given a condition;
    otherwise [ProcessJoins] reads past the end of the conditions. *)
Theorem join_clause_defined (table : string) (os : list RdbPreds.jop) :
  let p := foldl RdbPreds.jrun1 (RdbPreds.new table) os in
  RdbPreds.joins_ok p /\
  (is_Some (RdbPreds.GetJoinClause p) <-> AbsRdbPreds.joinCount p = 0).
Proof.
  cbv zeta. assert (RdbPreds.joins_ok (foldl RdbPreds.jrun1 (RdbPreds.new table) os)) as Hok
    by (apply RdbPreds.jrun_ok; by split).
  split; [done|]. revert Hok. generalize (foldl RdbPreds.jrun1 (RdbPreds.new table) os). intros p [Ht Hc Hn].
  unfold RdbPreds.GetJoinClause. destruct (AbsRdbPreds.joinTableNames p) as [|n ns] eqn:E.
  - rewrite bool_decide_true by done. simpl in Hn. split; [lia|by eexists].
  - rewrite bool_decide_false by done. unfold RdbPreds.ProcessJoins. rewrite E.
    rewrite RdbPreds.joins_loop_some by (done || lia). lia.
Qed.

(** A cross join without a condition, which needs none, makes [GetJoinClause] read
    past the end of the conditions. *)
Theorem cross_join_out_of_bounds (table other : string) (Ho : other <> EmptyString) :
  RdbPreds.GetJoinClause (RdbPreds.CrossJoin (RdbPreds.new table) other) = None.
Proof. destruct other; [done|]. reflexivity. Qed.

Lemma cross_join_out_of_bounds_witness :
  RdbPreds.GetJoinClause (RdbPreds.CrossJoin (RdbPreds.new "a") "b") = None.
Proof. apply (cross_join_out_of_bounds "a" "b"). discriminate. Defined.

End PredsProps.
