(* ===== verification/SqlBuilder.v ===== *)
(** * SQL text from predicates and rows

    [SqliteSqlBuilder]: frameworks/native/rdb/src/sqlite_sql_builder.cpp.
    [RdbSqlUtils]: frameworks/native/rdb/src/rdb_sql_utils.cpp, without the functions that
    create directories.

    [GetJoinClause] is virtual; the functions that call it take its result.  The asset status
    is a mutable member: the functions that set it give back the changed row or store. *)
From Stdlib Require Import ZArith Lia Ascii.
From stdpp Require Import base gmap list strings pretty.
From S2P Require Import Prelude CppStd Errno Values StringUtils Predicates.

Local Open Scope Z_scope.
#[local] Arguments String.append !_ _ / : simpl nomatch.

Module SqliteSqlBuilder.
Import AbsPreds AbsRdbPreds.

Definition REP : string := "#_".
Definition SHARING_RESOURCE : string := "sharing_resource".
Definition SHARING_RESOURCE_FIELD : string := "#_sharing_resource_field".
Definition RDBLOG : string := "_log_".

(** [SqliteUtils::Replace] with as many rounds as the text has characters, which is enough. *)
Definition replace (src rep dst : string) : string :=
  default EmptyString (SqliteUtils.Replace (S (Str.size src)) src rep dst).

Definition AppendClause (builder name clause table : string) : string :=
  if Str.empty clause then builder
  else builder +:+ name +:+ (if Str.empty table then EmptyString else table +:+ ".") +:+ clause.

(** The loop of [AppendColumns]; [prev] is [columns[i - 1]] when [i > 0]. *)
Fixpoint columns_loop (builder : string) (prev : option string) (columns : list string) (table : string) : string :=
  match columns with
  | [] => builder
  | col :: rest =>
      let builder' :=
        if Str.empty col then builder
        else
          (match prev with Some p => if Str.empty p then builder else builder +:+ ", " | None => builder end)
          +:+ (if Str.empty table then EmptyString else table +:+ ".") +:+ col in
      columns_loop builder' (Some col) rest table
  end.

Definition AppendColumns (builder : string) (columns : list string) (table : string) : string :=
  let b := columns_loop builder None columns table in
  if Str.empty table then b +:+ " " else b.

Definition AppendLimitAndOffset (builder : string) (l o : Z) : string :=
  let limitStr := if l =? INIT_LIMIT_VALUE then EmptyString else pretty l in
  let offsetStr := if o =? INIT_OFFSET_VALUE then EmptyString else pretty o in
  AppendClause (AppendClause builder " LIMIT " limitStr EmptyString) " OFFSET " offsetStr EmptyString.

Definition GetSelectClause (columns : list string) (IsDistinct : bool) (ast table : string) : string :=
  let sql := "SELECT " +:+ (if IsDistinct then "DISTINCT " else EmptyString) in
  match columns with
  | [] => sql +:+ table +:+ ast
  | _ => AppendColumns sql columns table
  end.

(** [BuildQueryString] from its parts. *)
Definition BuildQueryParts (isDistinct : bool) (table joinClause : string) (columns : list string)
  (where_ groupBy indexName orderBy : string) (l o : Z) : errno + string :=
  if Str.empty table then inl E_EMPTY_TABLE_NAME
  else
    let sql := GetSelectClause columns isDistinct "*" EmptyString in
    let sql := AppendClause sql " FROM " table EmptyString in
    let sql := AppendClause sql " INDEXED BY " indexName EmptyString in
    let sql := AppendClause sql " " joinClause EmptyString in
    let sql := AppendClause sql " WHERE " where_ EmptyString in
    let sql := AppendClause sql " GROUP BY " groupBy EmptyString in
    let sql := AppendClause sql " ORDER BY " orderBy EmptyString in
    inr (AppendLimitAndOffset sql l o).

Definition BuildClauseFromPredicates (predicates : AbsRdbPredicates) (joinClause : string) : string :=
  let b := base predicates in
  let sql := AppendClause EmptyString " INDEXED BY " (index b) EmptyString in
  let sql := AppendClause sql " " joinClause EmptyString in
  let sql := AppendClause sql " WHERE " (whereClause b) EmptyString in
  let sql := AppendClause sql " GROUP BY " (group b) EmptyString in
  let sql := AppendClause sql " HAVING " (havingClause b) EmptyString in
  let sql := AppendClause sql " ORDER BY " (order b) EmptyString in
  AppendLimitAndOffset sql (limit b) (offset b).

(** [BuildQueryString] from predicates. *)
Definition BuildQueryString (predicates : AbsRdbPredicates) (joinClause : string) (columns : list string) : string :=
  if Str.empty (tableName_ predicates) then EmptyString
  else
    let sql := GetSelectClause columns (distinct (base predicates)) "*" EmptyString in
    AppendClause sql " FROM " (tableName_ predicates) EmptyString +:+
    BuildClauseFromPredicates predicates joinClause.

Definition BuildCountString (predicates : AbsRdbPredicates) (joinClause : string) : string :=
  "SELECT COUNT(*) FROM " +:+ tableName_ predicates +:+ BuildClauseFromPredicates predicates joinClause.

Definition BuildCursorQueryString (predicates : AbsRdbPredicates) (columns : list string) (logTable : string)
  (queryStatus : bool * bool) : string :=
  let table := tableName_ predicates in
  let b := base predicates in
  if Str.empty table || Str.empty logTable then EmptyString
  else
    let sql := GetSelectClause columns (distinct b) ".*" table in
    let logName := logTable +:+ "." in
    let sql :=
      if fst queryStatus then
        replace sql (table +:+ "." +:+ SHARING_RESOURCE_FIELD)
          (logName +:+ SHARING_RESOURCE +:+ " AS " +:+ replace SHARING_RESOURCE_FIELD REP EmptyString)
      else sql in
    let sql :=
      if snd queryStatus then
        sql +:+ ", " +:+ logTable +:+ ".cursor"
        +:+ ", CASE WHEN " +:+ logTable +:+ "." +:+ "flag & 0x8 = 0x8 THEN true ELSE false END AS deleted_flag"
        +:+ ", CASE WHEN " +:+ logTable +:+ "."
        +:+ "flag & 0x808 = 0x808 THEN 3 WHEN " +:+ logTable +:+ ".flag & 0x800 = 0x800 THEN 1 WHEN "
        +:+ logTable +:+ ".flag & 0x8 = 0x8 THEN 2 ELSE 0 END AS data_status"
      else sql in
    let sql := sql +:+ " FROM " +:+ table in
    let sql := AppendClause sql " INDEXED BY " (index b) EmptyString in
    let sql := sql +:+ " INNER JOIN " +:+ logTable +:+ " ON " +:+ table +:+ ".ROWID = " +:+ logTable +:+ ".data_key" in
    let sql := AppendClause sql " WHERE " (replace (whereClause b) REP logName) EmptyString in
    let sql := AppendClause sql " GROUP BY " (group b) table in
    let sql := AppendClause sql " HAVING " (replace (havingClause b) REP logName) EmptyString in
    let sql := AppendClause sql " ORDER BY " (replace (order b) REP logName) EmptyString in
    AppendLimitAndOffset sql (limit b) (offset b).

Definition ORI_LOCAL : Z := 0.

(** [DistributedInfo]. *)
Record DistributedInfo := mkInfo { flag : option Z; oriDevice : option string }.

Definition BuildUpdateLogString (predicates : AbsRdbPredicates) (logTable : string) (info : DistributedInfo) : string :=
  let table := tableName_ predicates in
  let sql := "UPDATE " +:+ logTable +:+ " SET " in
  let sql :=
    match flag info with
    | Some f => sql +:+ (if f =? ORI_LOCAL then "flag=flag|0x2" else "flag=flag&~0x2")
    | None => sql
    end in
  let sql :=
    match oriDevice info with
    | Some d => sql +:+ (match flag info with Some _ => ", " | None => EmptyString end)
                +:+ (if Str.empty d then "ori_device= ?" else "ori_device=calc_hash(?, 0)")
    | None => sql
    end in
  let alias := table +:+ RDBLOG in
  let sql := sql +:+ " WHERE data_key IN (SELECT " +:+ table +:+ ".rowid FROM " +:+ table
    +:+ " INNER JOIN " +:+ "(SELECT data_key AS " +:+ alias +:+ "data_key, flag AS " +:+ alias +:+ "flag, ori_device AS "
    +:+ alias +:+ "ori_device FROM " +:+ logTable +:+ ")"
    +:+ " AS log_data ON " +:+ table +:+ ".rowid = log_data." +:+ alias +:+ "data_key" in
  AppendClause sql " WHERE " (replace (whereClause (base predicates)) REP alias) EmptyString +:+ ")".

Definition BuildLockRowQueryString (predicates : AbsRdbPredicates) (columns : list string) (logTable : string) : string :=
  let table := tableName_ predicates in
  let b := base predicates in
  if Str.empty table || Str.empty logTable then EmptyString
  else
    let sql := GetSelectClause columns (distinct b) ".*" table +:+ " FROM " +:+ table in
    let sql := AppendClause sql " INDEXED BY " (index b) EmptyString in
    let logName := logTable +:+ "." in
    let sql := sql +:+ " INNER JOIN " +:+ logTable +:+ " ON " +:+ table +:+ ".ROWID = " +:+ logName +:+ "data_key" in
    let sql :=
      if Str.empty (whereClause b)
      then sql +:+ " WHERE " +:+ logName +:+ "status = 2 OR " +:+ logName +:+ "status = 3 "
      else AppendClause sql " WHERE " (replace (whereClause b) REP logName) EmptyString in
    let sql := AppendClause sql " GROUP BY " (group b) table in
    let sql := AppendClause sql " HAVING " (replace (havingClause b) REP logName) EmptyString in
    let sql := AppendClause sql " ORDER BY " (replace (order b) REP logName) EmptyString in
    AppendLimitAndOffset sql (limit b) (offset b).

(** [args[pos] = c]. *)
Fixpoint set_char (s : string) (pos : nat) (c : ascii) : string :=
  match s, pos with
  | EmptyString, _ => EmptyString
  | String _ s', O => String c s'
  | String x s', S p => String x (set_char s' p c)
  end.

(** [GetSqlArgs]: for size 0 the length underflows and the string cannot be built. *)
Definition GetSqlArgs (size : nat) : option string :=
  match size with
  | O => None
  | S _ =>
      Some (foldl (fun args i => set_char args (2 * i - 1) ",") (Str.fill (2 * size - 1) "?") (seq 1 (size - 1)))
  end.

(** The statement for [rowNumber] rows: the row pattern, a comma after each, the last comma
    removed. *)
Definition rows_sql (sql rowSql : string) (rowNumber : nat) : string :=
  Str.pop_back (foldl (fun s _ => s +:+ rowSql +:+ ",") sql (seq 0 rowNumber)).

(** Cutting [times] pieces of [n] elements off the front. *)
Fixpoint chunks {A} (times n : nat) (l : list A) : list (list A) * list A :=
  match times with
  | O => ([], l)
  | S t => let '(cs, rest) := chunks t n (drop n l) in (take n l :: cs, rest)
  end.

(** [MakeExecuteSqls]: statements with the argument lists they are executed with; [limit / fieldSize]
    is an [int] division. *)
Definition MakeExecuteSqls {A} (sql : string) (args : list A) (fieldSize : nat) (l : Z) :
  option (list (string * list (list A))) :=
  if (fieldSize =? 0)%nat then Some []
  else
    let rowNumbers := (length args / fieldSize)%nat in
    let maxRows := Z.to_nat (Int.u64 (Z.quot l (Z.of_nat fieldSize))) in
    if (maxRows =? 0)%nat then Some []
    else
      let executeTimes := (rowNumbers / maxRows)%nat in
      let remainingRows := (rowNumbers mod maxRows)%nat in
      sqlArgs ← GetSqlArgs fieldSize;
      let single := "(" +:+ sqlArgs +:+ ")" in
      let '(full, rest) := chunks executeTimes (maxRows * fieldSize) args in
      let first := if (executeTimes =? 0)%nat then [] else [(rows_sql sql single maxRows, full)] in
      let last := if (remainingRows =? 0)%nat then [] else [(rows_sql sql single remainingRows, [rest])] in
      Some (first ++ last).

(** [UpdateAssetStatus]. *)
Definition UpdateAssetStatus (val : ValueObject) (status : Z) : ValueObject :=
  match val with
  | VAsset a => VAsset (Asset.set_status status a)
  | VAssets l => VAssets (map (Asset.set_status status) l)
  | _ => val
  end.

(** The inner loop of [GenerateSqls] for one field: the store with the changed values, and the
    argument slots; a slot that is not filled stays the shared null object, [None]. *)
Fixpoint fill_rows (b : Buckets.ValuesBuckets) (field : string) (columnIndex columnSize row rows : nat)
  (h : list ValueObject) (args : list (option nat)) : list ValueObject * list (option nat) :=
  match rows with
  | O => (h, args)
  | S n =>
      match Buckets.Get b row field with
      | inl _ => fill_rows b field columnIndex columnSize (S row) n h args
      | inr a =>
          fill_rows b field columnIndex columnSize (S row) n
            (<[a := UpdateAssetStatus (Buckets.deref h a) Asset.STATUS_INSERT]> h)
            (<[(columnIndex + row * columnSize)%nat := Some a]> args)
      end
  end.

Fixpoint fill_fields (b : Buckets.ValuesBuckets) (fields : list string) (columnIndex columnSize : nat)
  (h : list ValueObject) (args : list (option nat)) (sql : string) :
  list ValueObject * list (option nat) * string :=
  match fields with
  | [] => (h, args, sql)
  | f :: fs =>
      let '(h', args') := fill_rows b f columnIndex columnSize 0 (Buckets.RowSize b) h args in
      fill_fields b fs (S columnIndex) columnSize h' args' (sql +:+ f +:+ ",")
  end.

(** [GenerateSqls]: the changed store and the statements, whose arguments are references into
    it. *)
Definition GenerateSqls (table : string) (b : Buckets.ValuesBuckets) (l : Z) (resolution : nat) :
  list ValueObject * option (list (string * list (list (option nat)))) :=
  let fields := map fst (Buckets.fields b) in
  let columnSize := length fields in
  let sql := "INSERT" +:+ nth resolution SqliteUtils.ON_CONFLICT_CLAUSE EmptyString +:+ " INTO " +:+ table +:+ " (" in
  let '(h, args, sql) :=
    fill_fields b fields 0 columnSize (Buckets.heap b) (replicate (columnSize * Buckets.RowSize b) None) sql in
  (h, MakeExecuteSqls (Str.pop_back sql +:+ ") VALUES ") args columnSize l).

Definition GetReturningSql (fields : list string) : string :=
  match fields with
  | [] => EmptyString
  | _ => Str.pop_back (foldl (fun sql field => sql +:+ field +:+ ",") " returning " fields)
  end.

(** *** Placeholders of a row *)

Lemma set_char_app a b k c : set_char (a +:+ b) (Str.size a + k) c = a +:+ set_char b k c.
Proof. induction a as [|x a IH]; simpl; [done|]. by rewrite IH. Qed.

Fixpoint pairs (n : nat) : string :=
  match n with O => EmptyString | S n' => "?," +:+ pairs n' end.

Lemma pairs_size n : Str.size (pairs n) = (2 * n)%nat.
Proof. induction n as [|n IH]; simpl; [done|]. lia. Qed.

Lemma pairs_snoc n : pairs (S n) = pairs n +:+ "?,".
Proof. induction n as [|n IH]; [done|]. change (pairs (S (S n))) with ("?," +:+ pairs (S n)). rewrite IH at 1. by rewrite <-Str.app_assoc. Qed.

Lemma pairs_join n : pairs n +:+ "?" = Str.join "," (replicate (S n) "?").
Proof.
  induction n as [|n IH]; [done|]. change (replicate (S (S n)) "?") with ("?" :: replicate (S n) "?").
  rewrite Str.join_cons by done. rewrite <-IH. done.
Qed.

Lemma commas_loop k n :
  (k < n)%nat ->
  foldl (fun args i => set_char args (2 * i - 1) ",") (Str.fill (2 * n - 1) "?") (seq 1 k) =
  pairs k +:+ Str.fill (2 * n - 1 - 2 * k) "?".
Proof.
  induction k as [|k IH]; intros Hk; [by rewrite Nat.sub_0_r|].
  rewrite seq_S, foldl_app, IH by lia. cbn [foldl].
  replace (2 * (1 + k) - 1)%nat with (Str.size (pairs k) + 1)%nat by (rewrite pairs_size; lia).
  rewrite set_char_app, pairs_snoc, Str.app_assoc. f_equal.
  replace (2 * n - 1 - 2 * k)%nat with (S (S (2 * n - 1 - 2 * S k)))%nat by lia. done.
Qed.

Lemma GetSqlArgs_eq n : (0 < n)%nat -> GetSqlArgs n = Some (Str.join "," (replicate n "?")).
Proof.
  intros Hn. destruct n as [|n]; [lia|]. unfold GetSqlArgs. f_equal.
  replace (S n - 1)%nat with n by lia. rewrite commas_loop by lia.
  replace (2 * S n - 1 - 2 * n)%nat with 1%nat by lia. apply pairs_join.
Qed.

Lemma count_marks n : Str.count "?" (Str.join "," (replicate n "?")) = n.
Proof. rewrite Str.count_join_sep by done. induction n as [|n IH]; simpl; [done|]. lia. Qed.

(** *** Batches *)

Lemma pop_back_snoc s c : Str.pop_back (s +:+ String c EmptyString) = s.
Proof.
  unfold Str.pop_back. rewrite Str.size_app. simpl.
  replace (Str.size s + 1 - 1)%nat with (Str.size s) by lia. apply Str.take_app_size.
Qed.

Lemma rows_loop sql single k :
  foldl (fun s _ => s +:+ single +:+ ",") sql (seq 0 k) = sql +:+ Str.join EmptyString (replicate k (single +:+ ",")).
Proof.
  induction k as [|k IH]; [by rewrite Str.app_nil_r|].
  rewrite seq_S, foldl_app, IH. cbn [foldl]. rewrite Str.app_assoc. f_equal.
  rewrite replicate_S_end. destruct k as [|k]; [done|]. by rewrite Str.join_app by done.
Qed.

Lemma rows_sql_eq sql single k :
  (0 < k)%nat -> rows_sql sql single k = sql +:+ Str.join "," (replicate k single).
Proof.
  intros Hk. destruct k as [|k]; [lia|]. unfold rows_sql. rewrite rows_loop.
  assert (Str.join EmptyString (replicate (S k) (single +:+ ",")) = Str.join "," (replicate (S k) single) +:+ ",") as ->.
  { clear. induction k as [|k IH]; [done|].
    change (replicate (S (S k)) (single +:+ ",")) with ((single +:+ ",") :: replicate (S k) (single +:+ ",")).
    change (replicate (S (S k)) single) with (single :: replicate (S k) single).
    rewrite !Str.join_cons by done. rewrite IH. by rewrite !Str.app_assoc. }
  rewrite <-Str.app_assoc. apply pop_back_snoc.
Qed.

Lemma rows_sql_count sql single k n :
  (0 < k)%nat -> Str.count "?" sql = 0%nat -> Str.count "?" single = n ->
  Str.count "?" (rows_sql sql single k) = (k * n)%nat.
Proof.
  intros Hk Hs Hn. rewrite rows_sql_eq, Str.count_app, Hs, Str.count_join_sep by done.
  simpl. clear Hk. induction k as [|k IH]; simpl; [done|]. lia.
Qed.

Lemma chunks_spec {A} times n (l : list A) :
  (times * n <= length l)%nat ->
  concat (fst (chunks times n l)) ++ snd (chunks times n l) = l /\
  Forall (fun c => length c = n) (fst (chunks times n l)) /\
  length (snd (chunks times n l)) = (length l - times * n)%nat.
Proof.
  revert l. induction times as [|t IH]; intros l Hl; cbn [chunks].
  - split; [done|]. split; [constructor|]. simpl. lia.
  - destruct (IH (drop n l)) as (Hc & Hf & Hr); [rewrite length_drop; lia|].
    destruct (chunks t n (drop n l)) as [cs rest]. cbn [fst snd concat] in *.
    split; [by rewrite <-app_assoc, Hc, take_drop|]. split.
    + constructor; [|done]. rewrite length_take. lia.
    + rewrite Hr, length_drop. lia.
Qed.

(** *** Argument slots of a batch insert *)

Lemma fill_rows_spec b f ci cs row rows h args :
  (ci < cs)%nat -> (ci + (row + rows) * cs < length args + cs)%nat ->
  let args' := snd (fill_rows b f ci cs row rows h args) in
  length args' = length args /\
  (forall r, (row <= r < row + rows)%nat ->
     args' !! (ci + r * cs)%nat =
     match Buckets.Get b r f with inr a => Some (Some a) | inl _ => args !! (ci + r * cs)%nat end) /\
  (forall j, (j mod cs <> ci \/ j < ci + row * cs)%nat -> args' !! j = args !! j).
Proof.
  intros Hci. revert row h args. induction rows as [|n IH]; intros row h args Hl; cbn [fill_rows].
  { split; [done|]. split; [intros r Hr; lia|done]. }
  assert (forall r, (ci + r * cs) mod cs = ci)%nat as Hmod.
  { intros r. rewrite Nat.Div0.mod_add. by apply Nat.mod_small. }
  destruct (Buckets.Get b row f) as [e|a] eqn:Eg.
  - destruct (IH (S row) h args) as (H1 & H2 & H3); [nia|]. split; [done|]. split.
    + intros r Hr. destruct (decide (r = row)) as [->|Hne]; [|apply H2; lia].
      rewrite Eg. apply H3. right. nia.
    + intros j Hj. apply H3. destruct Hj as [|]; [by left|right; nia].
  - set (args1 := <[(ci + row * cs)%nat := Some a]> args).
    destruct (IH (S row) (<[a := UpdateAssetStatus (Buckets.deref h a) Asset.STATUS_INSERT]> h) args1) as (H1 & H2 & H3).
    { unfold args1. rewrite length_insert. nia. }
    split; [rewrite H1; unfold args1; apply length_insert|]. split.
    + intros r Hr. destruct (decide (r = row)) as [->|Hne].
      * rewrite Eg, H3 by (right; nia). unfold args1. apply list_lookup_insert_eq. nia.
      * rewrite H2 by lia. unfold args1. by rewrite list_lookup_insert_ne by nia.
    + intros j Hj. rewrite H3 by (destruct Hj; [by left|right; nia]).
      unfold args1. rewrite list_lookup_insert_ne; [done|]. intros <-. rewrite Hmod in Hj. lia.
Qed.

Lemma fill_fields_spec b fs ci cs h args sql :
  (ci + length fs = cs)%nat -> length args = (cs * Buckets.RowSize b)%nat ->
  let args' := snd (fst (fill_fields b fs ci cs h args sql)) in
  length args' = length args /\
  (forall c f r, fs !! c = Some f -> (r < Buckets.RowSize b)%nat ->
     args' !! (ci + c + r * cs)%nat =
     match Buckets.Get b r f with inr a => Some (Some a) | inl _ => args !! (ci + c + r * cs)%nat end) /\
  (forall j, (j mod cs < ci)%nat -> args' !! j = args !! j).
Proof.
  revert ci h args sql. induction fs as [|f fs IH]; intros ci h args sql Hcs Hl; cbn [fill_fields].
  { split; [done|]. split; [done|]. done. }
  simpl in Hcs. pose proof (fill_rows_spec b f ci cs 0 (Buckets.RowSize b) h args ltac:(lia) ltac:(nia)) as H.
  destruct (fill_rows b f ci cs 0 (Buckets.RowSize b) h args) as [h1 args1]. cbn [snd] in H.
  destruct H as (H1 & H2 & H3).
  destruct (IH (S ci) h1 args1 (sql +:+ f +:+ ",")) as (G1 & G2 & G3); [lia|lia|].
  assert (forall k r, (k < cs)%nat -> (k + r * cs) mod cs = k)%nat as Hmod.
  { intros k r Hk. rewrite Nat.Div0.mod_add. by apply Nat.mod_small. }
  split; [lia|]. split.
  - intros c g r Hc Hr. destruct c as [|c]; simpl in Hc.
    + simplify_eq. rewrite Nat.add_0_r, G3 by (rewrite Hmod; lia). apply H2. lia.
    + apply lookup_lt_Some in Hc as Hlt. replace (ci + S c)%nat with (S ci + c)%nat by lia.
      rewrite (G2 c g r Hc Hr). destruct (Buckets.Get b r g); [|done].
      apply H3. left. rewrite Hmod by lia. lia.
  - intros j Hj. rewrite G3 by lia. apply H3. left. lia.
Qed.

End SqliteSqlBuilder.

Module RdbSqlUtils.
Import AbsPreds AbsRdbPreds SqliteSqlBuilder.

Record SqlInfo := mkSqlInfo { sql : string; args : list ValueObject }.

Definition FIELDS_LIMIT : nat := 4.
Definition MAX_RETURNING_COUNT : Z := 0x7FFE.
Definition ON_CONFLICT_REPLACE : Z := 5.

(** [GetCustomDatabasePath]; [stat_ok] is whether [stat] finds the file. *)
Definition GetCustomDatabasePath (rootDir name customDir : string) (stat_ok : bool) : string * errno :=
  let databasePath := rootDir +:+ "/" +:+ customDir +:+ "/" +:+ name in
  if stat_ok then (databasePath, E_OK) else (EmptyString, E_INVALID_FILE_PATH).

(** [GetDefaultDatabasePath]; [created] is the outcome of [CreateDirectory] on the directory. *)
Definition GetDefaultDatabasePath (baseDir name customDir : string) (created : string -> errno) : string * errno :=
  if Str.empty customDir then
    let databaseDir := baseDir +:+ "/rdb" in (databaseDir +:+ "/" +:+ name, created databaseDir)
  else
    let databaseDir := baseDir +:+ "/rdb/" +:+ customDir in (databaseDir +:+ "/" +:+ name, created databaseDir).

(** Drops [seg] from the end of [dir]; [None] when [dir] does not end with it. *)
Definition strip_end (dir seg : string) : option string :=
  if (Str.size seg <=? Str.size dir)%nat && String.eqb (Str.substr_from dir (Str.size dir - Str.size seg)) seg
  then Some (Str.substr dir 0 (Str.size dir - Str.size seg)) else None.

Definition GetDataBaseDirFromRealPath (path : string) (persist : bool) (customDir name : string) : string :=
  if negb persist then path
  else if Str.empty path || Str.empty name then EmptyString
  else
    match Str.find_last (Ascii.eqb "/") path with
    | None => EmptyString
    | Some lastSlash =>
        if negb (String.eqb (Str.substr_from path (lastSlash + 1)) name) then EmptyString
        else
          let dir := Str.substr path 0 lastSlash in
          let dir' := if Str.empty customDir then Some dir else strip_end dir ("/" +:+ customDir) in
          match dir' with
          | None => EmptyString
          | Some d => default EmptyString (strip_end d "/rdb")
          end
    end.

(** The column loop of [GetInsertSqlInfo]; the statuses set so far stay set when it gives up. *)
Fixpoint insert_loop (row : Bucket.ValuesBucket) (resolution : Z) (split sql : string) (bindArgs : list ValueObject) :
  Bucket.ValuesBucket * option (string * list ValueObject) :=
  match row with
  | [] => ([], Some (sql, bindArgs))
  | (key, val) :: rest =>
      if (Value.GetType val =? 7) && (resolution =? ON_CONFLICT_REPLACE) then (row, None)
      else
        let val' := UpdateAssetStatus val Asset.STATUS_INSERT in
        let '(rest', r) := insert_loop rest resolution "," (sql +:+ split +:+ key) (bindArgs ++ [val']) in
        ((key, val') :: rest', r)
  end.

(** [GetInsertSqlInfo]: the row with its statuses, and the statement; [None] stands for the
    exception of [GetSqlArgs], which the checks rule out. *)
Definition GetInsertSqlInfo (table : string) (row : Bucket.ValuesBucket) (resolution : Z) :
  Bucket.ValuesBucket * option (errno + SqlInfo) :=
  if Str.empty table then (row, Some (inl E_EMPTY_TABLE_NAME))
  else if Bucket.IsEmpty row then (row, Some (inl E_EMPTY_VALUES_BUCKET))
  else
    match SqliteUtils.GetConflictClause resolution with
    | None => (row, Some (inl E_INVALID_CONFLICT_FLAG))
    | Some clause =>
        let sql := "INSERT" +:+ clause +:+ " INTO " +:+ table +:+ "(" in
        match insert_loop row resolution EmptyString sql [] with
        | (row', None) => (row', Some (inl E_INVALID_ARGS))
        | (row', Some (sql, bindArgs)) =>
            (row', (fun a => inr (mkSqlInfo (sql +:+ ") VALUES (" +:+ a +:+ ")") bindArgs)) <$> GetSqlArgs (length row))
        end
    end.

Fixpoint update_loop (row : Bucket.ValuesBucket) (split sql : string) : string :=
  match row with
  | [] => sql
  | (key, val) :: rest =>
      let piece :=
        if Value.GetType val =? 7 then key +:+ "=merge_assets(" +:+ key +:+ ", ?)"
        else if Value.GetType val =? 6 then key +:+ "=merge_asset(" +:+ key +:+ ", ?)"
        else key +:+ "=?" in
      update_loop rest "," (sql +:+ split +:+ piece)
  end.

Definition GetUpdateSqlInfo (predicates : AbsRdbPredicates) (row : Bucket.ValuesBucket) (resolution : Z) :
  errno + SqlInfo :=
  if Str.empty (tableName_ predicates) then inl E_EMPTY_TABLE_NAME
  else if Bucket.IsEmpty row then inl E_EMPTY_VALUES_BUCKET
  else
    match SqliteUtils.GetConflictClause resolution with
    | None => inl E_INVALID_CONFLICT_FLAG
    | Some clause =>
        let sql := update_loop row EmptyString ("UPDATE" +:+ clause +:+ " " +:+ tableName_ predicates +:+ " SET ") in
        let where_ := whereClause (base predicates) in
        let sql := if Str.empty where_ then sql else sql +:+ " WHERE " +:+ where_ in
        inr (mkSqlInfo sql (map snd row ++ bindArgs (base predicates)))
    end.

Definition GetDeleteSqlInfo (predicates : AbsRdbPredicates) : errno + SqlInfo :=
  if Str.empty (tableName_ predicates) then inl E_EMPTY_TABLE_NAME
  else
    let sql := "DELETE FROM " +:+ tableName_ predicates in
    let where_ := whereClause (base predicates) in
    let sql := if Str.empty where_ then sql else sql +:+ " WHERE " +:+ where_ in
    inr (mkSqlInfo sql (bindArgs (base predicates))).

Definition GetQuerySqlInfo (predicates : AbsRdbPredicates) (joinClause : string) (columns : list string) : errno + SqlInfo :=
  inr (mkSqlInfo (BuildQueryString predicates joinClause columns) (bindArgs (base predicates))).

(** [[a-zA-Z]] and [[a-zA-Z0-9_]]. *)
Definition is_letter (c : ascii) : bool := SqliteUtils.in_range 97 122 c || SqliteUtils.in_range 65 90 c.

(** A letter followed by word characters. *)
Definition is_name (s : string) : bool :=
  match s with EmptyString => false | String c r => is_letter c && SqliteUtils.all SqliteUtils.is_word r end.

(** [IsValidTableName]: a name, or two names with a dot between them; word characters
    contain no dot, so the first dot is the one of the pattern. *)
Definition IsValidTableName (tableName : string) : bool :=
  if Str.empty tableName then false
  else match Str.find_char "." tableName with
       | None => is_name tableName
       | Some n => is_name (Str.take n tableName) && is_name (Str.drop (S n) tableName)
       end.

(** The class of characters an asterisk, a comma or a space. *)
Definition bad_field_char (c : ascii) : bool := Ascii.eqb c "*" || Ascii.eqb c "," || Ascii.eqb c " ".

Definition IsValidFields (fields : list string) : bool :=
  if (length fields <=? 0)%nat || (FIELDS_LIMIT <? length fields)%nat then false
  else forallb (fun f => SqliteUtils.all (fun c => negb (bad_field_char c)) f) fields.

(** Space, tab, newline, carriage return, form feed, vertical tab. *)
Definition is_blank (c : ascii) : bool :=
  let n := N_of_ascii c in (n =? 32)%N || ((9 <=? n)%N && (n <=? 13)%N).

Definition Trim (str : string) : string :=
  match Str.find_first (fun c => negb (is_blank c)) str, Str.find_last (fun c => negb (is_blank c)) str with
  | Some start, Some end_ => Str.substr str start (end_ - start + 1)
  | _, _ => EmptyString
  end.

Definition BatchTrim (value : list string) : list string := map Trim value.

Definition IsValidReturningMaxCount (maxCount : Z) : bool :=
  if (maxCount <=? 0) || (MAX_RETURNING_COUNT <? maxCount) then false else true.

(** The loop of [HasDuplicateAssets] over the assets, with the set of the names seen. *)
Fixpoint dup_loop (names : list (string * unit)) (assets : list AssetValue) : bool :=
  match assets with
  | [] => false
  | a :: rest =>
      match OMap.lookup Str.ltb (a_name a) names with
      | Some _ => true
      | None => dup_loop (OMap.insert Str.ltb (a_name a) tt names) rest
      end
  end.

Definition HasDuplicateAssets (value : ValueObject) : bool :=
  match value with VAssets l => dup_loop [] l | _ => false end.

Definition HasDuplicateAssetsList (values : list ValueObject) : bool := existsb HasDuplicateAssets values.
Definition HasDuplicateAssetsRow (row : Bucket.ValuesBucket) : bool := existsb (fun kv => HasDuplicateAssets (snd kv)) row.
Definition HasDuplicateAssetsBatch (b : Buckets.ValuesBuckets) : bool :=
  existsb (fun p => HasDuplicateAssets (Buckets.deref (Buckets.heap b) p)) (Buckets.values b).

(** *** Lemmas *)

Definition keys (row : Bucket.ValuesBucket) : list string := map fst row.
Definition inserted (row : Bucket.ValuesBucket) : Bucket.ValuesBucket :=
  map (fun kv => (fst kv, UpdateAssetStatus (snd kv) Asset.STATUS_INSERT)) row.

(** No list of assets under REPLACE. *)
Definition insertable (row : Bucket.ValuesBucket) (resolution : Z) : Prop :=
  Forall (fun kv => (Value.GetType (snd kv) =? 7) && (resolution =? ON_CONFLICT_REPLACE) = false) row.

Lemma insert_loop_ok row resolution split sql bindArgs :
  insertable row resolution ->
  insert_loop row resolution split sql bindArgs =
  (inserted row,
   Some (sql +:+ (match row with [] => EmptyString | _ => split +:+ Str.join "," (keys row) end),
         bindArgs ++ map snd (inserted row))).
Proof.
  intros Hi. revert split sql bindArgs. induction Hi as [|[k v] row Hv Hi IH]; intros split sql bindArgs.
  - simpl. by rewrite Str.app_nil_r, app_nil_r.
  - cbn [insert_loop]. simpl in Hv. rewrite Hv, IH. cbn [inserted map fst snd]. f_equal. f_equal. f_equal.
    + destruct row as [|[k2 v2] row]; [by rewrite Str.app_nil_r|].
      change (keys ((k, v) :: (k2, v2) :: row)) with (k :: keys ((k2, v2) :: row)).
      rewrite (Str.join_cons _ k) by done. by rewrite !Str.app_assoc.
    + by rewrite <-app_assoc.
Qed.

(** What one column contributes to an update. *)
Definition update_piece (kv : string * ValueObject) : string :=
  if Value.GetType (snd kv) =? 7 then fst kv +:+ "=merge_assets(" +:+ fst kv +:+ ", ?)"
  else if Value.GetType (snd kv) =? 6 then fst kv +:+ "=merge_asset(" +:+ fst kv +:+ ", ?)"
  else fst kv +:+ "=?".

Lemma update_loop_eq row split sql :
  update_loop row split sql =
  sql +:+ (match row with [] => EmptyString | _ => split +:+ Str.join "," (map update_piece row) end).
Proof.
  revert split sql. induction row as [|[k v] row IH]; intros split sql; cbn [update_loop].
  - by rewrite Str.app_nil_r.
  - rewrite IH. fold (update_piece (k, v)). destruct row as [|kv2 row].
    + simpl. by rewrite Str.app_nil_r.
    + cbn [map]. rewrite (Str.join_cons _ (update_piece (k, v))) by done. by rewrite !Str.app_assoc.
Qed.

Definition quiet (s : string) : Prop := Str.count "?" s = 0%nat.

Lemma inr_inj' {A B} (x y : B) : @inr A B x = inr y -> x = y.
Proof. by intros [= ->]. Qed.

Lemma update_pieces_count row :
  Forall (fun kv => quiet (fst kv)) row -> Str.count "?" (Str.join "," (map update_piece row)) = length row.
Proof.
  intros Hq. rewrite Str.count_join_sep by done. induction Hq as [|[k v] row Hk Hq IH]; [done|].
  simpl. unfold quiet in Hk. simpl in Hk. rewrite IH.
  assert (Str.count "?" (update_piece (k, v)) = 1%nat) as ->; [|done].
  unfold update_piece. cbn [fst snd]. destruct (_ =? 7); [by rewrite !Str.count_app, Hk|].
  destruct (_ =? 6); by rewrite !Str.count_app, Hk.
Qed.

Lemma conflict_clause_quiet r c : SqliteUtils.GetConflictClause r = Some c -> quiet c.
Proof.
  unfold SqliteUtils.GetConflictClause. destruct (_ || _); [done|]. unfold SqliteUtils.ON_CONFLICT_CLAUSE.
  destruct (Z.to_nat r) as [|[|[|[|[|[|?]]]]]]; simpl; by intros [= <-].
Qed.

Lemma append_clause_count b n c t :
  quiet n -> quiet t -> Str.count "?" (AppendClause b n c t) = (Str.count "?" b + Str.count "?" c)%nat.
Proof.
  unfold quiet. intros Hn Ht. unfold AppendClause. destruct c as [|x c]; [simpl; lia|]. cbn [Str.empty].
  destruct (Str.empty t); rewrite !Str.count_app, Hn, ?Ht; simpl; lia.
Qed.

(** The decimal digits of a number contain no placeholder. *)
Lemma pretty_N_go_quiet x s : quiet s -> quiet (pretty_N_go x s).
Proof.
  unfold quiet. revert s. induction (N.lt_wf_0 x) as [x _ IH]. intros s Hs.
  assert (forall y, Str.count "?" (String (pretty_N_char y) s) = 0%nat) as Hc.
  { intros y. cbn [Str.count]. rewrite Hs. unfold pretty_N_char.
    destruct y as [|[[[[]|[]|]|[[]|[]|]|]|[[[]|[]|]|[[]|[]|]|]|]]; done. }
  destruct (decide (x = 0)%N) as [->|Hx]; [by rewrite pretty_N_go_0|].
  rewrite pretty_N_go_step by lia. apply IH; [apply N.div_lt; lia|apply Hc].
Qed.

Lemma pretty_Z_quiet (z : Z) : quiet (pretty z).
Proof.
  assert (forall p : positive, quiet (pretty p)) as Hp.
  { intros p. unfold pretty, pretty_positive, pretty, pretty_N. destruct (decide _); [done|].
    by apply pretty_N_go_quiet. }
  destruct z as [|p|p]; [done|apply Hp|]. unfold quiet.
  change (pretty (Z.neg p)) with ("-" +:+ pretty p). by rewrite Str.count_app, Hp.
Qed.

Lemma limit_offset_count b l o : Str.count "?" (AppendLimitAndOffset b l o) = Str.count "?" b.
Proof.
  unfold AppendLimitAndOffset. rewrite !append_clause_count by done.
  pose proof (pretty_Z_quiet l) as Hl. pose proof (pretty_Z_quiet o) as Ho. unfold quiet in *.
  destruct (l =? _), (o =? _); simpl; lia.
Qed.

Lemma dup_loop_spec names assets :
  OMap.sorted Str.ltb names ->
  dup_loop names assets = true <->
  ~ (NoDup (map a_name assets) /\ Forall (fun a => OMap.lookup Str.ltb (a_name a) names = None) assets).
Proof.
  revert names. induction assets as [|a assets IH]; intros names Hs; cbn [dup_loop map].
  { split; [done|]. intros H. destruct H. split; constructor. }
  destruct (OMap.lookup Str.ltb (a_name a) names) as [[]|] eqn:E.
  - split; [|done]. intros _ [_ H]. inversion H; subst. congruence.
  - rewrite IH by (by apply OMap.insert_sorted).
    assert (forall x, OMap.lookup Str.ltb x (OMap.insert Str.ltb (a_name a) tt names) = None <->
      OMap.lookup Str.ltb x names = None /\ x <> a_name a) as Hl.
    { intros x. rewrite OMap.lookup_insert by done. destruct (decide (x = a_name a)) as [->|Hne].
      - split; [done|]. by intros [_ H].
      - split; [done|]. by intros [H _]. }
    rewrite NoDup_cons, Forall_cons. setoid_rewrite Hl. rewrite !Forall_forall. split.
    + intros H (( Hni & Hnd) & _ & Hf). apply H. split; [done|]. intros y Hy. split; [by apply Hf|].
      intros Heq. apply Hni. rewrite <-Heq. by apply list_elem_of_fmap_2.
    + intros H [Hnd Hf]. apply H. split; [split; [|done]|split; [done|]].
      * intros Hin. apply list_elem_of_fmap in Hin as (y & Hy & Hiny). by destruct (Hf y Hiny).
      * intros y Hy. by apply Hf.
Qed.

Lemma strip_end_app a seg : strip_end (a +:+ seg) seg = Some a.
Proof.
  unfold strip_end. rewrite Str.size_app. replace (Str.size a + Str.size seg - Str.size seg)%nat with (Str.size a) by lia.
  destruct (Nat.leb_spec (Str.size seg) (Str.size a + Str.size seg)); [|lia].
  unfold Str.substr_from. rewrite Str.drop_app_size, String.eqb_refl. cbn [andb].
  unfold Str.substr. simpl Str.drop. by rewrite Str.take_app_size.
Qed.

Lemma find_last_slash dir name :
  Str.count "/" name = 0%nat -> Str.find_last (Ascii.eqb "/") (dir +:+ "/" +:+ name) = Some (Str.size dir).
Proof.
  intros Hn. induction dir as [|c dir IH].
  - cbn [String.append Str.find_last].
    assert (Str.find_last (Ascii.eqb "/") name = None) as ->; [|done].
    induction name as [|x name IHn]; [done|]. cbn [Str.count Str.find_last] in *.
    destruct (Ascii.eqb "/" x); [lia|]. by rewrite IHn.
  - change (String c dir +:+ "/" +:+ name) with (String c (dir +:+ "/" +:+ name)).
    cbn [Str.find_last]. by rewrite IH.
Qed.

Lemma columns_loop_count b prev cols t :
  quiet t -> Forall quiet cols -> Str.count "?" (columns_loop b prev cols t) = Str.count "?" b.
Proof.
  intros Ht Hc. revert b prev. induction Hc as [|c cols Hc0 Hc IH]; intros b prev; [done|]. cbn [columns_loop].
  rewrite IH. destruct (Str.empty c); [done|]. unfold quiet in *.
  rewrite !Str.count_app, Hc0.
  assert (Str.count "?" (if Str.empty t then EmptyString else t +:+ ".") = 0%nat) as ->
    by (destruct (Str.empty t); [done|by rewrite Str.count_app, Ht]).
  destruct prev as [p|]; [destruct (Str.empty p)|]; rewrite ?Str.count_app; simpl; lia.
Qed.

Lemma select_clause_count cols d ast t :
  quiet t -> quiet ast -> Forall quiet cols -> Str.count "?" (GetSelectClause cols d ast t) = 0%nat.
Proof.
  intros Ht Ha Hc. unfold GetSelectClause, quiet in *.
  assert (Str.count "?" ("SELECT " +:+ (if d then "DISTINCT " else EmptyString)) = 0%nat) as Hs by (by destruct d).
  destruct cols as [|c cols]; [by rewrite !Str.count_app, <-(Str.count_app _ "SELECT "), Hs, Ht, Ha|].
  unfold AppendColumns. destruct (Str.empty t); rewrite ?Str.count_app, columns_loop_count by done; by rewrite Hs.
Qed.

End RdbSqlUtils.

(** ** Properties *)

Module SqlProps.
Import AbsPreds AbsRdbPreds SqliteSqlBuilder RdbSqlUtils.

(** C16: the batches of an insert carry all arguments, each once and in order; no batch
    has more arguments than the limit, and each statement has as many placeholders as the
    arguments it is executed with. *)
Theorem batches_complete {A} (sql : string) (args : list A) (rows fieldSize : nat) (l : Z)
  (Hsql : quiet sql) (Hf : (0 < fieldSize)%nat) (Hargs : length args = (rows * fieldSize)%nat)
  (Hl : Z.of_nat fieldSize <= l < 2 ^ 31) :
  exists out, MakeExecuteSqls sql args fieldSize l = Some out /\
    concat (concat (map snd out)) = args /\
    Forall (fun '(s, batches) => Forall (fun batch =>
      length batch = Str.count "?" s /\ (0 < length batch)%nat /\ Z.of_nat (length batch) <= l) batches) out.
Proof.
  unfold MakeExecuteSqls. destruct (Nat.eqb_spec fieldSize 0); [lia|].
  rewrite GetSqlArgs_eq by done. cbn [mbind option_bind].
  rewrite Hargs, Nat.div_mul by done.
  assert (1 <= Z.quot l (Z.of_nat fieldSize) <= l) as Hq.
  { rewrite Z.quot_div_nonneg by lia. split; [apply Z.div_le_lower_bound; lia|apply Z.div_le_upper_bound; nia]. }
  rewrite Int.u64_small by lia.
  set (m := Z.to_nat (Z.quot l (Z.of_nat fieldSize))).
  assert (Z.of_nat (m * fieldSize) <= l) as Hm.
  { subst m. rewrite Nat2Z.inj_mul, Z2Nat.id by lia. rewrite Z.quot_div_nonneg by lia.
    pose proof (Z.mul_div_le l (Z.of_nat fieldSize) ltac:(lia)). lia. }
  assert (0 < m)%nat as Hm0 by (subst m; lia). destruct (Nat.eqb_spec m 0); [lia|].
  set (single := "(" +:+ Str.join "," (replicate fieldSize "?") +:+ ")").
  assert (Str.count "?" single = fieldSize) as Hc
    by (unfold single; rewrite !Str.count_app, count_marks; simpl; lia).
  pose proof (Nat.div_mod rows m ltac:(lia)) as Hdm. pose proof (Nat.mod_upper_bound rows m ltac:(lia)) as Hmu.
  destruct (chunks_spec (rows / m) (m * fieldSize) args) as (Hcat & Hlen & Hrest); [rewrite Hargs; nia|].
  destruct (chunks (rows / m) (m * fieldSize) args) as [full rest] eqn:E. cbn [fst snd] in *.
  assert (length rest = (rows mod m * fieldSize)%nat) as Hr by (rewrite Hrest, Hargs; nia).
  eexists. split; [done|]. split.
  - rewrite map_app, concat_app, concat_app, <-Hcat. f_equal.
    + destruct (Nat.eqb_spec (rows / m) 0) as [E0|]; [|simpl; by rewrite app_nil_r].
      rewrite E0 in E. simpl in E. by simplify_eq.
    + destruct (Nat.eqb_spec (rows mod m) 0) as [E0|]; [|simpl; by rewrite app_nil_r].
      rewrite E0 in Hr. by destruct rest.
  - apply Forall_app_2.
    + destruct (Nat.eqb_spec (rows / m) 0); constructor; [|constructor].
      eapply Forall_impl; [exact Hlen|]. intros c Hcl. rewrite Hcl.
      rewrite (rows_sql_count _ _ _ fieldSize) by done. nia.
    + destruct (Nat.eqb_spec (rows mod m) 0); constructor; [|constructor].
      constructor; [|constructor]. rewrite (rows_sql_count _ _ _ fieldSize) by (done || lia). nia.
Qed.

Lemma batches_complete_witness :
  exists out, MakeExecuteSqls "INSERT INTO t (a,b) VALUES " [1; 2; 3; 4; 5; 6] 2 4 = Some out /\
    concat (concat (map snd out)) = [1; 2; 3; 4; 5; 6] /\
    Forall (fun '(s, batches) => Forall (fun batch =>
      length batch = Str.count "?" s /\ (0 < length batch)%nat /\ Z.of_nat (length batch) <= 4) batches) out.
Proof. apply (batches_complete "INSERT INTO t (a,b) VALUES " [1; 2; 3; 4; 5; 6] 3 2 4); [reflexivity|lia|reflexivity|lia]. Defined.

(** in the argument list of a batch insert the slot of row [r] and column [c] refers
    to the value that row has for that column, and to the null object when it has none. *)
Theorem generate_slots (b : Buckets.ValuesBuckets) (sql : string) (c r : nat) (f : string)
  (Hf : map fst (Buckets.fields b) !! c = Some f) (Hr : (r < Buckets.RowSize b)%nat) :
  let cs := length (map fst (Buckets.fields b)) in
  let args := snd (fst (fill_fields b (map fst (Buckets.fields b)) 0 cs (Buckets.heap b)
                          (replicate (cs * Buckets.RowSize b) None) sql)) in
  length args = (cs * Buckets.RowSize b)%nat /\
  args !! (c + r * cs)%nat = Some (match Buckets.Get b r f with inr a => Some a | inl _ => None end).
Proof.
  cbv zeta. set (cs := length (map fst (Buckets.fields b))). set (n := (cs * Buckets.RowSize b)%nat).
  destruct (fill_fields_spec b (map fst (Buckets.fields b)) 0 cs (Buckets.heap b) (replicate n None) sql)
    as (H1 & H2 & _); [done|by rewrite length_replicate|].
  rewrite length_replicate in H1. split; [done|].
  specialize (H2 c f r Hf Hr). cbn [Nat.add] in H2. rewrite H2.
  destruct (Buckets.Get b r f); [|done]. apply lookup_replicate_2.
  apply lookup_lt_Some in Hf. fold cs in Hf. subst n. nia.
Qed.

Definition demo_batch : Buckets.ValuesBuckets :=
  Buckets.of_rows [[("a", VInt 1); ("b", VInt 2)]; [("b", VInt 3)]].

Lemma generate_slots_witness :
  let cs := length (map fst (Buckets.fields demo_batch)) in
  let args := snd (fst (fill_fields demo_batch (map fst (Buckets.fields demo_batch)) 0 cs (Buckets.heap demo_batch)
                          (replicate (cs * Buckets.RowSize demo_batch) None) "x")) in
  length args = (cs * Buckets.RowSize demo_batch)%nat /\
  args !! (0 + 1 * cs)%nat =
    Some (match Buckets.Get demo_batch 1 "a" with inr a => Some a | inl _ => None end).
Proof. apply (generate_slots demo_batch "x" 0 1 "a"); [reflexivity|vm_compute; lia]. Defined.

(** an insert lists the columns in order with as many placeholders, binds their
    values, and marks every asset as inserted, in the caller's row too; lists of assets under
    REPLACE are refused. *)
Theorem insert_sql_info (table clause : string) (row : Bucket.ValuesBucket) (resolution : Z)
  (Ht : table <> EmptyString) (Hrow : row <> [])
  (Hc : SqliteUtils.GetConflictClause resolution = Some clause) (Hi : insertable row resolution) :
  GetInsertSqlInfo table row resolution =
  (inserted row, Some (inr (mkSqlInfo
     ("INSERT" +:+ clause +:+ " INTO " +:+ table +:+ "(" +:+ Str.join "," (keys row) +:+ ") VALUES (" +:+
      Str.join "," (replicate (length row) "?") +:+ ")")
     (map snd (inserted row))))).
Proof.
  unfold GetInsertSqlInfo. destruct table as [|x table]; [done|]. cbn [Str.empty].
  unfold Bucket.IsEmpty. destruct row as [|kv row]; [done|]. rewrite bool_decide_false by done.
  rewrite Hc, insert_loop_ok by done. rewrite GetSqlArgs_eq by (simpl; lia). cbn [fmap option_fmap option_map].
  do 4 f_equal. by rewrite !Str.app_assoc.
Qed.

Lemma insert_sql_info_witness :
  GetInsertSqlInfo "t" [("a", VInt 1); ("b", VAsset Asset.empty)] 4 =
  (inserted [("a", VInt 1); ("b", VAsset Asset.empty)], Some (inr (mkSqlInfo
     ("INSERT" +:+ " OR IGNORE" +:+ " INTO " +:+ "t" +:+ "(" +:+ Str.join "," (keys [("a", VInt 1); ("b", VAsset Asset.empty)])
      +:+ ") VALUES (" +:+ Str.join "," (replicate (length [("a", VInt 1); ("b", VAsset Asset.empty)]) "?") +:+ ")")
     (map snd (inserted [("a", VInt 1); ("b", VAsset Asset.empty)]))))).
Proof.
  apply (insert_sql_info "t" " OR IGNORE" [("a", VInt 1); ("b", VAsset Asset.empty)] 4); try discriminate; [reflexivity|].
  repeat constructor.
Defined.

(** in the statements for update, delete and query there are as many placeholders
    as bound arguments, provided the conditions are balanced and the names contain none. *)
Theorem statements_balanced (p : AbsRdbPredicates) (row : Bucket.ValuesBucket) (resolution : Z)
  (joinClause : string) (columns : list string)
  (Ht : quiet (tableName_ p)) (Hk : Forall (fun kv => quiet (fst kv)) row)
  (Hb : (Str.count "?" (whereClause (base p)) + Str.count "?" (havingClause (base p)))%nat = length (bindArgs (base p)))
  (Hq : Forall quiet (index (base p) :: joinClause :: group (base p) :: order (base p) :: columns)) :
  (havingClause (base p) = EmptyString -> forall i, GetUpdateSqlInfo p row resolution = inr i ->
     Str.count "?" (sql i) = length (args i)) /\
  (havingClause (base p) = EmptyString -> forall i, GetDeleteSqlInfo p = inr i ->
     Str.count "?" (sql i) = length (args i)) /\
  (tableName_ p <> EmptyString -> forall i, GetQuerySqlInfo p joinClause columns = inr i ->
     Str.count "?" (sql i) = length (args i)).
Proof.
  unfold quiet in Ht. split; [|split].
  - intros Hh i. unfold GetUpdateSqlInfo. destruct (Str.empty _); [done|].
    destruct row as [|kv row]; [done|]. assert (Bucket.IsEmpty (kv :: row) = false) as -> by done.
    destruct (SqliteUtils.GetConflictClause resolution) as [clause|] eqn:Ec; [|done].
    apply conflict_clause_quiet in Ec. unfold quiet in Ec. intros Hinr. apply inr_inj' in Hinr. subst i. cbn [sql args].
    rewrite Hh in Hb. change (Str.count "?" EmptyString) with 0%nat in Hb.
    assert (forall s, Str.count "?" (if Str.empty (whereClause (base p)) then s else s +:+ " WHERE " +:+ whereClause (base p))
      = (Str.count "?" s + Str.count "?" (whereClause (base p)))%nat) as Hw.
    { intros s. destruct (whereClause (base p)); [simpl; lia|]. cbn [Str.empty]. by rewrite !Str.count_app. }
    rewrite Hw, update_loop_eq, !Str.count_app, update_pieces_count, Ec, Ht by done.
    simpl. rewrite length_app, length_map. lia.
  - intros Hh i. unfold GetDeleteSqlInfo. destruct (Str.empty (tableName_ p)); [done|].
    intros Hinr. apply inr_inj' in Hinr. subst i. cbn [sql args].
    rewrite Hh in Hb. change (Str.count "?" EmptyString) with 0%nat in Hb. rewrite <-Hb, Nat.add_0_r.
    destruct (whereClause (base p)); cbn [Str.empty]; by rewrite !Str.count_app, Ht.
  - intros Hn i Hinr. unfold GetQuerySqlInfo in Hinr. apply inr_inj' in Hinr. subst i. cbn [sql args].
    unfold BuildQueryString. destruct (tableName_ p) as [|x t] eqn:Et; [done|].
    cbn [Str.empty]. rewrite Str.count_app, append_clause_count by done.
    rewrite !Forall_cons_iff in Hq. destruct Hq as (Hi & Hj & Hg & Ho & Hcols). unfold quiet in Hi, Hj, Hg, Ho.
    unfold BuildClauseFromPredicates. rewrite limit_offset_count, !append_clause_count by done.
    rewrite Hi, Hj, Hg, Ho, Ht. rewrite <-Hb. simpl Str.count.
    enough (Str.count "?" (GetSelectClause columns (distinct (base p)) "*" "") = 0%nat) as -> by lia.
    by apply select_clause_count.
Qed.

Definition demo_preds : AbsRdbPredicates := AbsRdbPreds.GreaterThan (AbsRdbPreds.new "t") "a" (VInt 1).

Lemma statements_balanced_witness :
  (havingClause (base demo_preds) = EmptyString -> forall i, GetUpdateSqlInfo demo_preds [("b", VInt 2)] 0 = inr i ->
     Str.count "?" (sql i) = length (args i)) /\
  (havingClause (base demo_preds) = EmptyString -> forall i, GetDeleteSqlInfo demo_preds = inr i ->
     Str.count "?" (sql i) = length (args i)) /\
  (tableName_ demo_preds <> EmptyString -> forall i, GetQuerySqlInfo demo_preds EmptyString ["b"] = inr i ->
     Str.count "?" (sql i) = length (args i)).
Proof.
  apply (statements_balanced demo_preds [("b", VInt 2)] 0 EmptyString ["b"]); try reflexivity; repeat constructor.
Defined.

Lemma columns_loop_join cols b p :
  Forall (fun c => c <> EmptyString) cols -> p <> EmptyString ->
  columns_loop b (Some p) cols EmptyString =
  b +:+ match cols with [] => EmptyString | _ => ", " +:+ Str.join ", " cols end.
Proof.
  intros Hc. revert b p. induction Hc as [|c cols Hc0 Hc IH]; intros b p Hp; [by rewrite Str.app_nil_r|].
  cbn [columns_loop]. rewrite IH by done. destruct c as [|x c]; [done|]. destruct p as [|y p]; [done|].
  cbn [Str.empty]. destruct cols as [|c2 cols]; [by rewrite Str.app_nil_r, !Str.app_assoc|].
  rewrite (Str.join_cons _ (String x c) (c2 :: cols)) by done. by rewrite !Str.app_assoc.
Qed.

(** A list of non-empty columns is separated by commas; an empty column between two
    others loses the comma between these, although the empty names are meant to be skipped. *)
Theorem select_columns (columns : list string) (Hc : Forall (fun c => c <> EmptyString) columns) :
  AppendColumns EmptyString columns EmptyString = Str.join ", " columns +:+ " " /\
  AppendColumns EmptyString ["a"; EmptyString; "b"] EmptyString = "ab ".
Proof.
  split; [|reflexivity]. unfold AppendColumns. cbn [Str.empty]. f_equal.
  destruct Hc as [|c cols Hc0 Hc]; [done|]. cbn [columns_loop].
  destruct c as [|x c]; [done|]. cbn [Str.empty]. rewrite columns_loop_join by done.
  destruct cols as [|c2 cols]; [by rewrite Str.app_nil_r|].
  by rewrite (Str.join_cons _ (String x c) (c2 :: cols)) by done.
Qed.

Lemma select_columns_witness :
  AppendColumns EmptyString ["a"; "b"] EmptyString = Str.join ", " ["a"; "b"] +:+ " " /\
  AppendColumns EmptyString ["a"; EmptyString; "b"] EmptyString = "ab ".
Proof. apply (select_columns ["a"; "b"]). repeat constructor; discriminate. Defined.

(** A character a table name may be spliced into a statement with. *)
Definition name_char (c : ascii) : bool := SqliteUtils.is_word c || Ascii.eqb c ".".

Lemma is_name_safe s : is_name s = true -> SqliteUtils.all name_char s = true.
Proof.
  destruct s as [|c s]; [done|]. cbn [is_name]. intros [Hl Hw]%andb_prop. cbn [SqliteUtils.all].
  rewrite (SqliteUtils.all_mono SqliteUtils.is_word name_char s); [|intros x Hx; unfold name_char; by rewrite Hx|done].
  unfold name_char, SqliteUtils.is_word. unfold is_letter in Hl. by rewrite Hl.
Qed.

(** a name that [IsValidTableName] accepts consists of letters, digits,
    underscores and at most one dot, and starts with a letter: it cannot end a statement or a
    quotation. *)
Theorem valid_table_name_safe (t : string) (Ht : IsValidTableName t = true) :
  SqliteUtils.all name_char t = true /\ (Str.count "." t <= 1)%nat /\
  exists c r, t = String c r /\ is_letter c = true.
Proof.
  unfold IsValidTableName in Ht. destruct t as [|c r]; [done|]. cbn [Str.empty] in Ht.
  assert (forall s, is_name s = true -> Str.count "." s = 0%nat) as Hdot.
  { intros s Hs. destruct s as [|x s]; [done|]. cbn [is_name] in Hs. apply andb_prop in Hs as [Hl Hw].
    assert (forall y, SqliteUtils.is_word y = true -> Ascii.eqb "." y = false) as Hy.
    { intros y Hy. destruct (Ascii.eqb_spec "." y) as [<-|]; [by vm_compute in Hy|done]. }
    assert (SqliteUtils.is_word x = true) as Hx by (unfold SqliteUtils.is_word; unfold is_letter in Hl; by rewrite Hl).
    cbn [Str.count]. rewrite (Hy x Hx). clear -Hw Hy. induction s as [|z s IH]; [done|].
    cbn [SqliteUtils.all] in Hw. apply andb_prop in Hw as [Hz Hw]. cbn [Str.count]. rewrite (Hy z Hz). by apply IH. }
  destruct (Str.find_char "." (String c r)) as [n|] eqn:E.
  - apply andb_prop in Ht as [H1 H2]. apply Str.find_char_Some in E as [Heq _].
    split; [|split].
    + rewrite Heq, SqliteUtils.all_app, (is_name_safe _ H1). cbn [SqliteUtils.all]. by rewrite (is_name_safe _ H2).
    + rewrite Heq, Str.count_app, (Hdot _ H1). cbn [Str.count]. rewrite (Hdot _ H2). simpl. lia.
    + destruct n as [|n]; [done|]. exists c, r. split; [done|]. cbn [Str.take is_name] in H1.
      by apply andb_prop in H1 as [H1 _].
  - split; [by apply is_name_safe|]. split; [by rewrite (Hdot _ Ht); lia|].
    exists c, r. split; [done|]. cbn [is_name] in Ht. by apply andb_prop in Ht as [Ht _].
Qed.

Lemma valid_table_name_safe_witness :
  SqliteUtils.all name_char "main.users_1" = true /\ (Str.count "." "main.users_1" <= 1)%nat /\
  exists c r, "main.users_1" = String c r /\ is_letter c = true.
Proof. apply (valid_table_name_safe "main.users_1"). reflexivity. Defined.

(** A value has duplicate assets exactly when it is a list in which two assets
    have the same name. *)
Theorem duplicate_assets_iff (v : ValueObject) :
  HasDuplicateAssets v = true <-> exists l, v = VAssets l /\ ~ NoDup (map a_name l).
Proof.
  destruct v as [| | | | | | |l| |]; try (split; [done|by intros (? & ? & _)]).
  unfold HasDuplicateAssets. rewrite dup_loop_spec by constructor. split.
  - intros H. exists l. split; [done|]. intros Hn. apply H. split; [done|]. by apply Forall_true.
  - intros (l' & [= <-] & Hn) [Hnd _]. done.
Qed.

(** the directory of a database is found back from its default path, with and
    without a custom directory, for a name without a separator. *)
Theorem database_dir_roundtrip (baseDir name customDir : string) (created : string -> errno)
  (Hn : name <> EmptyString) (Hs : Str.count "/" name = 0%nat) :
  GetDataBaseDirFromRealPath (fst (GetDefaultDatabasePath baseDir name customDir created)) true customDir name = baseDir.
Proof.
  assert (forall dir, GetDataBaseDirFromRealPath (dir +:+ "/" +:+ name) true customDir name =
    match (if Str.empty customDir then Some dir else strip_end dir ("/" +:+ customDir)) with
    | None => EmptyString | Some d => default EmptyString (strip_end d "/rdb") end) as H.
  { intros dir. unfold GetDataBaseDirFromRealPath. cbn [negb].
    assert (Str.empty (dir +:+ "/" +:+ name) = false) as -> by (by destruct dir).
    assert (Str.empty name = false) as -> by (by destruct name). cbn [orb].
    rewrite find_last_slash by done. unfold Str.substr_from.
    replace (Str.size dir + 1)%nat with (Str.size (dir +:+ "/")) by (rewrite Str.size_app; done).
    rewrite <-(Str.app_assoc dir), Str.drop_app_size, String.eqb_refl. cbn [negb].
    unfold Str.substr. simpl Str.drop. by rewrite Str.app_assoc, Str.take_app_size. }
  unfold GetDefaultDatabasePath. destruct (Str.empty customDir) eqn:Ec; cbn [fst]; rewrite H.
  - by rewrite strip_end_app.
  - replace (baseDir +:+ "/rdb/" +:+ customDir) with ((baseDir +:+ "/rdb") +:+ ("/" +:+ customDir))
      by (by rewrite !Str.app_assoc).
    by rewrite strip_end_app, strip_end_app.
Qed.

Lemma database_dir_roundtrip_witness :
  GetDataBaseDirFromRealPath (fst (GetDefaultDatabasePath "/data" "x.db" "sub" (fun _ => E_OK))) true "sub" "x.db" = "/data".
Proof. apply (database_dir_roundtrip "/data" "x.db" "sub"); [discriminate|reflexivity]. Defined.

End SqlProps.
