(* ===== verification/ConnPool.v ===== *)
(** * The connection pool (frameworks/native/rdb/src/connection_pool.cpp and .h)

    [Container]: the three lists of connections (writers, readers, transactions) are each a
    [Container]; every member function is a function on its state, under its mutex.
    ConnectionPool.v has the pool itself, the three containers and the counters around them.
    [ContainerInv]: the interleavings of the operations on one container as a step relation,
    with the accounting invariant.  [ContainerProps]: the claims on one container.

    A [Connection] is made by [Connection::Create] (another component); what the pool sees of
    it is its identity and [IsWriter()].  The outcome of a creator call, the reference counts,
    the liveness of weak pointers, the clock and the thread id are arguments.  A wait on the
    condition variable is the list of what happens until the deadline: for [Acquire] the
    evaluations of its predicate, for [AcquireAll] what other threads do to the container
    while the lock is free.  [right_++] is unbounded here: the C++ counter is an [int32_t]
    whose overflow needs 2^31 connections without a [Clear]. *)
From Stdlib Require Import ZArith Lia.
From stdpp Require Import base list sorting sets relations.
From S2P Require Import Prelude Errno.

Local Open Scope Z_scope.

Module Container.

(** What the pool knows of a connection object. *)
Record Connection := { conn_ptr : Z; conn_writer : bool }.

Record ConnNode := { tid_ : Z; id_ : Z; time_ : Z; connect_ : option Connection }.

(** [Creator]: the error code and the connection, when there is one. *)
Definition created : Type := errno * option Connection.

Record t := {
  disable_ : bool;
  max_ : Z;
  total_ : Z;
  count_ : Z;
  left_ : Z;
  right_ : Z;
  timeout_ : Z;
  nodes_ : list ConnNode;
  details_ : list Z;
  creator_ : bool
}.

Definition MAX_RIGHT : Z := 0x4FFFFFFF.
Definition MIN_TRANS_ID : Z := 10000.
Definition INVALID_TIME : Z := 0.
Definition START_NODE_ID : Z := -1.

(** A container as it is constructed. *)
Definition new : t :=
  {| disable_ := true; max_ := 0; total_ := 0; count_ := 0; left_ := 0; right_ := 0;
     timeout_ := 0; nodes_ := []; details_ := []; creator_ := false |}.

Definition set_disable (b : bool) (c : t) : t :=
  {| disable_ := b; max_ := max_ c; total_ := total_ c; count_ := count_ c; left_ := left_ c;
     right_ := right_ c; timeout_ := timeout_ c; nodes_ := nodes_ c; details_ := details_ c;
     creator_ := creator_ c |}.

(** The list of idle nodes together with its two counters. *)
Definition set_nodes (ns : list ConnNode) (count total : Z) (c : t) : t :=
  {| disable_ := disable_ c; max_ := max_ c; total_ := total; count_ := count; left_ := left_ c;
     right_ := right_ c; timeout_ := timeout_ c; nodes_ := ns; details_ := details_ c;
     creator_ := creator_ c |}.

Definition set_details (ds : list Z) (c : t) : t :=
  {| disable_ := disable_ c; max_ := max_ c; total_ := total_ c; count_ := count_ c;
     left_ := left_ c; right_ := right_ c; timeout_ := timeout_ c; nodes_ := nodes_ c;
     details_ := ds; creator_ := creator_ c |}.

(** [interval] of [Acquire] and [AcquireAll], in milliseconds. *)
Definition interval (milliS : Z) (c : t) : Z :=
  if milliS =? INVALID_TIME then 1000 * timeout_ c else milliS.

Definition InitMembers (max timeout : Z) (disable : bool) (c : t) : t :=
  {| disable_ := disable; max_ := max; total_ := total_ c; count_ := count_ c; left_ := left_ c;
     right_ := right_ c; timeout_ := timeout; nodes_ := nodes_ c; details_ := details_ c;
     creator_ := true |}.

(** [ExtendNode] when the creator call gives [r] at time [now]. *)
Definition ExtendNode (now : Z) (r : created) (c : t) : errno * t :=
  if negb (creator_ c) then (E_ERROR, c)
  else
    match snd r with
    | None => (fst r, c)
    | Some conn =>
        let node := {| tid_ := 0; id_ := right_ c; time_ := now; connect_ := Some conn |} in
        (E_OK,
         {| disable_ := disable_ c; max_ := max_ c; total_ := total_ c + 1; count_ := count_ c + 1;
            left_ := left_ c; right_ := right_ c + 1; timeout_ := timeout_ c;
            nodes_ := nodes_ c ++ [node]; details_ := details_ c ++ [id_ node];
            creator_ := creator_ c |})
    end.

(** The loop of [Initialize]: one creator outcome per round. *)
Fixpoint extend_loop (now : Z) (rs : list created) (c : t) : errno * t :=
  match rs with
  | [] => (E_OK, c)
  | r :: rest =>
      let '(e, c') := ExtendNode now r c in
      if is_ok e then extend_loop now rest c' else (e, c')
  end.

(** [Initialize]; [outcome i] is what the creator gives in round [i]. *)
Definition Initialize (now : Z) (outcome : nat -> created) (max timeout : Z) (disable acquire : bool) (c : t)
    : (errno * option ConnNode) * t :=
  let c0 := InitMembers max timeout disable c in
  let '(e, c1) := extend_loop now (map outcome (seq 0 (Z.to_nat max))) c0 in
  if is_ok e then
    if acquire && (0 <? count_ c1) then
      ((E_OK, last (nodes_ c1)), set_nodes (removelast (nodes_ c1)) (count_ c1 - 1) (total_ c1) c1)
    else ((E_OK, None), c1)
  else ((e, None), set_details [] (set_nodes [] (count_ c1) (total_ c1) c1)).

(** The loop that [Interrupt], [ConfigLocale] and [SetTokenizer] share: expired entries are
    erased, [op] is applied to the others in turn, the first error ends the loop. *)
Fixpoint details_loop (alive : Z -> bool) (op : Z -> errno) (ds : list Z) : errno * list Z :=
  match ds with
  | [] => (E_OK, [])
  | d :: rest =>
      if alive d then
        if is_ok (op d) then let '(e, rest') := details_loop alive op rest in (e, d :: rest')
        else (op d, d :: rest)
      else details_loop alive op rest
  end.

Definition ConfigLocale (alive : Z -> bool) (op : Z -> errno) (c : t) : errno * t :=
  let '(e, ds) := details_loop alive op (details_ c) in (e, set_details ds c).

Definition SetTokenizer (alive : Z -> bool) (op : Z -> errno) (c : t) : errno * t :=
  let '(e, ds) := details_loop alive op (details_ c) in (e, set_details ds c).

(** [Interrupt] ignores what [Connection::Interrupt] answers; the result lists the
    connections it reaches. *)
Definition Interrupt (alive : Z -> bool) (c : t) : list Z * t :=
  let ds := snd (details_loop alive (fun _ => E_OK) (details_ c)) in (ds, set_details ds c).

(** The predicate of [Acquire]'s wait: its value, the new [errCode] and the state. *)
Definition waiter (now : Z) (r : created) (errCode : errno) (c : t) : bool * errno * t :=
  if 0 <? count_ c then (true, errCode, c)
  else if disable_ c then (false, errCode, c)
  else let '(e, c') := ExtendNode now r c in (is_ok e, e, c').

(** [cond_.wait_for]: one evaluation of the predicate per element, until one holds. *)
Fixpoint wait_for (now : Z) (evals : list created) (errCode : errno) (c : t) : bool * errno * t :=
  match evals with
  | [] => (false, errCode, c)
  | r :: rest =>
      let '(ok, e, c') := waiter now r errCode c in
      if ok then (true, e, c') else wait_for now rest e c'
  end.

Definition Acquire (now : Z) (evals : list created) (c : t) : (errno * option ConnNode) * t :=
  if max_ c =? 0 then ((E_ERROR, None), c)
  else
    let '(ok, e, c') := wait_for now evals E_OK c in
    if ok then
      match nodes_ c' with
      | [] => ((E_ERROR, None), set_nodes [] 0 (total_ c') c')
      | ns => ((E_OK, last ns), set_nodes (removelast ns) (count_ c' - 1) (total_ c') c')
      end
    else ((e, None), c').

(** [std::list::merge]: elements of the second list go first when they are smaller. *)
Fixpoint merge (lt : ConnNode -> ConnNode -> bool) (xs : list ConnNode) : list ConnNode -> list ConnNode :=
  match xs with
  | [] => fun ys => ys
  | x :: xs' =>
      fix merge_right (ys : list ConnNode) : list ConnNode :=
        match ys with
        | [] => x :: xs'
        | y :: ys' => if lt y x then y :: merge_right ys' else x :: merge lt xs' ys
        end
  end.

(** What [AcquireAll] holds while it runs: [nodes] and [count]. *)
Record gathering := { g_nodes : list ConnNode; g_count : Z }.

(** The body of the first loop: everything idle moves to the caller's list. *)
Definition all_take (lt : ConnNode -> ConnNode -> bool) (g : gathering) (c : t) : gathering * t :=
  ({| g_nodes := merge lt (g_nodes g) (nodes_ c); g_count := g_count g + count_ c |},
   set_nodes [] 0 (total_ c) c).

(** The failure exits: the gathered nodes replace the idle ones. *)
Definition all_restore (g : gathering) (c : t) : t := set_nodes (g_nodes g) (g_count g) (total_ c) c.

(** The first loop; each element of [env] is what other threads do during one wait. *)
Fixpoint all_collect (lt : ConnNode -> ConnNode -> bool) (env : list (t -> t)) (g : gathering) (c : t)
    : gathering * t :=
  if g_count g <? total_ c then
    let '(g', c') := if 0 <? count_ c then all_take lt g c else (g, c) in
    if g_count g' <? total_ c' then
      match env with
      | [] => (g', c')
      | f :: env' => all_collect lt env' g' (f c')
      end
    else (g', c')
  else (g, c).

(** [func]: no gathered connection has a second owner. *)
Definition all_unshared (use_count : Connection -> Z) (ns : list ConnNode) : bool :=
  forallb (fun n => match connect_ n with None => true | Some k => use_count k =? 1 end) ns.

(** The second loop: [failed] is re-evaluated after each wait that is not a timeout. *)
Fixpoint all_settle (use_count : Connection -> Z) (env : list ((t -> t) * (Connection -> Z))) (g : gathering) (c : t)
    : bool * t :=
  if all_unshared use_count (g_nodes g) then (false, c)
  else
    match env with
    | [] => (true, c)
    | (f, use_count') :: env' => all_settle use_count' env' g (f c)
    end.

Definition AcquireAll (lt : ConnNode -> ConnNode -> bool) (env : list (t -> t))
    (use_count : Connection -> Z) (env2 : list ((t -> t) * (Connection -> Z))) (c : t)
    : (bool * list ConnNode) * t :=
  let '(g, c1) := all_collect lt env {| g_nodes := []; g_count := 0 |} c in
  if negb (g_count g =? total_ c1) then ((false, []), all_restore g c1)
  else
    let '(failed, c2) := all_settle use_count env2 g c1 in
    if failed then ((false, []), all_restore g c2) else ((true, g_nodes g), c2).

(** The scan of [AcquireById]: position and id of the smallest id above [id] so far. *)
Fixpoint byid_scan (id : Z) (i : nat) (res : option (nat * Z)) (ns : list ConnNode) : option (nat * Z) :=
  match ns with
  | [] => res
  | n :: rest =>
      if id_ n <=? id then byid_scan id (S i) res rest
      else
        byid_scan id (S i)
          (match res with
           | None => Some (i, id_ n)
           | Some (_, best) => if id_ n <? best then Some (i, id_ n) else res
           end) rest
  end.

Definition AcquireById (id : Z) (c : t) : option ConnNode * t :=
  if count_ c =? 0 then (None, c)
  else
    match byid_scan id 0 None (nodes_ c) with
    | None => (None, c)
    | Some (i, _) => (nodes_ c !! i, set_nodes (delete i (nodes_ c)) (count_ c - 1) (total_ c) c)
    end.

Definition Disable (c : t) : t := set_disable true c.

Definition Enable (c : t) : t := set_disable false c.

(** [RelDetails]: expired entries go too. *)
Definition RelDetails (alive : Z -> bool) (node : ConnNode) (c : t) : t :=
  set_details (List.filter (fun d => alive d && negb (d =? id_ node)) (details_ c)) c.

Definition outside (node : ConnNode) (c : t) : bool := (id_ node <? left_ c) || (right_ c <=? id_ node).

Definition Release (alive : Z -> bool) (node : ConnNode) (c : t) : t :=
  if outside node c then c
  else if count_ c =? max_ c then
    RelDetails alive node
      (set_nodes (nodes_ c) (count_ c) (if count_ c <? total_ c then total_ c - 1 else count_ c) c)
  else set_nodes (node :: nodes_ c) (count_ c + 1) (total_ c) c.

(** [IsRecyclable] of the node: the connection's flag, [false] without a connection. *)
Definition IsRecyclable (recyclable : Connection -> bool) (node : ConnNode) : bool :=
  match connect_ node with Some k => recyclable k | None => false end.

Definition ReleaseTrans (alive : Z -> bool) (recyclable : Connection -> bool) (node : ConnNode) (c : t) : t :=
  if outside node c then c
  else if IsRecyclable recyclable node then set_nodes (nodes_ c ++ [node]) (count_ c + 1) (total_ c) c
  else RelDetails alive node (set_nodes (nodes_ c) (count_ c) (total_ c - 1) c).

Definition Clear (c : t) : t :=
  let right := if MAX_RIGHT <? right_ c then 0 else right_ c in
  {| disable_ := true; max_ := max_ c; total_ := 0; count_ := 0; left_ := right; right_ := right;
     timeout_ := timeout_ c; nodes_ := []; details_ := []; creator_ := false |}.

Definition IsFull (c : t) : bool := total_ c =? count_ c.

Definition Empty (c : t) : bool := total_ c =? 0.

(** [TRANS_CLEAR_INTERVAL], in milliseconds. *)
Definition TRANS_CLEAR_INTERVAL : Z := 150000.

(** The loop of [ClearUnusedTrans] over the idle nodes: the ones kept and the state. *)
Fixpoint clear_unused_loop (alive : Z -> bool) (now : Z) (kept todo : list ConnNode) (c : t) : t :=
  match todo with
  | [] => set_nodes kept (count_ c) (total_ c) c
  | n :: rest =>
      if now - time_ n <? TRANS_CLEAR_INTERVAL then clear_unused_loop alive now (kept ++ [n]) rest c
      else
        let c' := RelDetails alive n c in
        clear_unused_loop alive now kept rest (set_nodes (nodes_ c') (count_ c' - 1) (total_ c' - 1) c')
  end.

(** [ClearUnusedTrans]: whether it schedules another round, and the state. *)
Definition ClearUnusedTrans (alive : Z -> bool) (now : Z) (c : t) : bool * t :=
  let c' := clear_unused_loop alive now [] (nodes_ c) c in
  (negb (total_ c' =? 0), c').

(** The four ways the nodes are used. *)
Definition GetConnect (now tid : Z) (n : ConnNode) : option Connection * ConnNode :=
  (connect_ n, {| tid_ := tid; id_ := id_ n; time_ := now; connect_ := connect_ n |}).

Definition IsWriter (n : ConnNode) : bool :=
  match connect_ n with Some k => conn_writer k | None => false end.

(** [Unused]; [checkpoint] is what [TryCheckPoint] answers. *)
Definition Unused (now count : Z) (checkpoint : errno) (n : ConnNode) : errno * ConnNode :=
  match connect_ n with
  | None => (E_OK, n)
  | Some k =>
      (if count <=? 0 then checkpoint else E_INNER_WARNING,
       {| tid_ := if conn_writer k then tid_ n else 0; id_ := id_ n; time_ := now; connect_ := connect_ n |})
  end.

End Container.

(** ** Interleavings on one container *)

Module ContainerInv.
Import Container.

(** An [AcquireAll] under way: what it gathered, and whether it is in its second loop. *)
Record pending := { p_gather : gathering; p_settle : bool }.

(** A container, the nodes its callers hold, and the [AcquireAll] calls waiting on it. *)
Record sys := { box : t; lent : list ConnNode; pend : list pending }.

Definition ids (ns : list ConnNode) : list Z := map id_ ns.

Definition gathered (ps : list pending) : list ConnNode := concat (map (fun p => g_nodes (p_gather p)) ps).

(** The ids of all nodes that somebody holds. *)
Definition world (s : sys) : list Z := ids (nodes_ (box s)) ++ ids (gathered (pend s)) ++ ids (lent s).

(** A weak pointer is alive while somebody holds its node. *)
Definition alive (s : sys) (d : Z) : bool := bool_decide (d ∈ world s).

Definition no_settle (s : sys) : Prop := Forall (fun p => p_settle p = false) (pend s).

(** One atomic section of one thread.  Nothing stops a thread from acquiring or initialising while
    an [AcquireAll] waits in its second loop, from an [Initialize] that fails, or from a [Clear]
    while an [AcquireAll] is under way ([ConnectionPool::RestartConns] does the latter without a look at the
    callers of [AcquireAll]).  With [ord] the steps are the orderly ones, without these cases.  The
    ids are taken never to reach [MAX_RIGHT] before a [Clear], which would start them over. *)
Inductive step (lt : ConnNode -> ConnNode -> bool) (ord : bool) : sys -> sys -> Prop :=
| step_acquire s now r e o c' :
    (ord = true -> disable_ (box s) = true \/ no_settle s) ->
    Acquire now [r] (box s) = ((e, o), c') ->
    step lt ord s {| box := c'; lent := option_list o ++ lent s; pend := pend s |}
| step_initialize s now outcome max timeout disable acquire e o c' :
    (ord = true -> no_settle s /\ e = E_OK) ->
    Initialize now outcome max timeout disable acquire (box s) = ((e, o), c') ->
    step lt ord s {| box := c'; lent := option_list o ++ lent s; pend := pend s |}
| step_init_members s max timeout disable :
    step lt ord s {| box := InitMembers max timeout disable (box s); lent := lent s; pend := pend s |}
| step_by_id s id o c' :
    AcquireById id (box s) = (o, c') ->
    step lt ord s {| box := c'; lent := option_list o ++ lent s; pend := pend s |}
| step_touch s l1 n n' l2 :
    lent s = l1 ++ n :: l2 -> id_ n' = id_ n ->
    step lt ord s {| box := box s; lent := l1 ++ n' :: l2; pend := pend s |}
| step_release s l1 n l2 :
    lent s = l1 ++ n :: l2 ->
    step lt ord s {| box := Release (alive s) n (box s); lent := l1 ++ l2; pend := pend s |}
| step_release_trans s recyclable l1 n l2 :
    lent s = l1 ++ n :: l2 ->
    step lt ord s {| box := ReleaseTrans (alive s) recyclable n (box s); lent := l1 ++ l2; pend := pend s |}
| step_clear_unused s now :
    step lt ord s {| box := snd (ClearUnusedTrans (alive s) now (box s)); lent := lent s; pend := pend s |}
| step_disable s : step lt ord s {| box := Disable (box s); lent := lent s; pend := pend s |}
| step_enable s : step lt ord s {| box := Enable (box s); lent := lent s; pend := pend s |}
| step_details s op :
    step lt ord s {| box := snd (ConfigLocale (alive s) op (box s)); lent := lent s; pend := pend s |}
| step_clear s :
    (ord = true -> pend s = []) -> right_ (box s) <= MAX_RIGHT ->
    step lt ord s {| box := Clear (box s); lent := lent s; pend := pend s |}
| step_all_start s :
    step lt ord s {| box := box s; lent := lent s;
                 pend := {| p_gather := {| g_nodes := []; g_count := 0 |}; p_settle := false |} :: pend s |}
| step_all_take s p1 g p2 g' c' :
    pend s = p1 ++ {| p_gather := g; p_settle := false |} :: p2 ->
    g_count g < total_ (box s) -> 0 < count_ (box s) ->
    all_take lt g (box s) = (g', c') ->
    step lt ord s {| box := c'; lent := lent s; pend := p1 ++ {| p_gather := g'; p_settle := false |} :: p2 |}
| step_all_fail s p1 g p2 :
    pend s = p1 ++ {| p_gather := g; p_settle := false |} :: p2 ->
    total_ (box s) <= g_count g \/ count_ (box s) <= 0 -> g_count g <> total_ (box s) ->
    step lt ord s {| box := all_restore g (box s); lent := lent s; pend := p1 ++ p2 |}
| step_all_settle s p1 g p2 :
    pend s = p1 ++ {| p_gather := g; p_settle := false |} :: p2 ->
    g_count g = total_ (box s) ->
    step lt ord s {| box := box s; lent := lent s; pend := p1 ++ {| p_gather := g; p_settle := true |} :: p2 |}
| step_all_done s use_count p1 g p2 :
    pend s = p1 ++ {| p_gather := g; p_settle := true |} :: p2 ->
    all_unshared use_count (g_nodes g) = true ->
    step lt ord s {| box := box s; lent := g_nodes g ++ lent s; pend := p1 ++ p2 |}
| step_all_timeout s use_count p1 g p2 :
    pend s = p1 ++ {| p_gather := g; p_settle := true |} :: p2 ->
    all_unshared use_count (g_nodes g) = false ->
    step lt ord s {| box := all_restore g (box s); lent := lent s; pend := p1 ++ p2 |}.

(** What is reachable from a fresh container; [first] is 0, or [MIN_TRANS_ID] for the
    transactions. *)
Inductive reachable (lt : ConnNode -> ConnNode -> bool) (ord : bool) (first : Z) : sys -> Prop :=
| reach_new :
    reachable lt ord first
      {| box := {| disable_ := true; max_ := 0; total_ := 0; count_ := 0; left_ := first; right_ := first;
                   timeout_ := 0; nodes_ := []; details_ := []; creator_ := false |};
         lent := []; pend := [] |}
| reach_step s s' : reachable lt ord first s -> step lt ord s s' -> reachable lt ord first s'.

(** The ids of the current generation. *)
Definition cur (left : Z) (l : list Z) : list Z := List.filter (fun i => left <=? i) l.

Record Inv (s : sys) : Prop := {
  inv_count : count_ (box s) = Z.of_nat (length (nodes_ (box s)));
  inv_total : total_ (box s) = Z.of_nat (length (cur (left_ (box s)) (world s)));
  inv_nodup : NoDup (world s);
  inv_bound : Forall (fun i => i < right_ (box s)) (world s);
  inv_held : Forall (fun i => left_ (box s) <= i) (ids (nodes_ (box s)) ++ ids (gathered (pend s)));
  inv_left : left_ (box s) <= right_ (box s);
  inv_gather : Forall (fun p => g_count (p_gather p) = Z.of_nat (length (g_nodes (p_gather p))) /\
                                (p_settle p = true -> g_count (p_gather p) = total_ (box s))) (pend s);
  inv_details : Forall (fun i => left_ (box s) <= i -> i ∈ details_ (box s)) (world s)
}.

#[export] Instance cur_proper left : Proper ((≡ₚ) ==> (≡ₚ)) (cur left).
Proof.
  intros l1 l2 H. induction H; unfold cur in *; simpl in *; repeat case_match; try done.
  - by constructor.
  - by constructor.
  - by etrans.
Qed.

#[export] Instance ids_proper : Proper ((≡ₚ) ==> (≡ₚ)) ids.
Proof. intros l1 l2 H. unfold ids. by rewrite H. Qed.

Lemma ids_app l1 l2 : ids (l1 ++ l2) = ids l1 ++ ids l2.
Proof. apply map_app. Qed.

Lemma cur_app left l1 l2 : cur left (l1 ++ l2) = cur left l1 ++ cur left l2.
Proof. apply List.filter_app. Qed.

Lemma cur_all left l : Forall (fun i => left <= i) l -> cur left l = l.
Proof.
  induction 1 as [|i l Hi Hl IH]; [done|]. unfold cur in *. simpl.
  rewrite (proj2 (Z.leb_le _ _) Hi). by rewrite IH.
Qed.

Lemma gathered_app p1 p2 : gathered (p1 ++ p2) = gathered p1 ++ gathered p2.
Proof. unfold gathered. by rewrite map_app, concat_app. Qed.

Lemma gathered_cons p ps : gathered (p :: ps) = g_nodes (p_gather p) ++ gathered ps.
Proof. done. Qed.

(** A step that only moves nodes between holders keeps the invariant. *)
Lemma inv_move s s' :
  Inv s -> world s' ≡ₚ world s ->
  left_ (box s') = left_ (box s) -> right_ (box s') = right_ (box s) -> total_ (box s') = total_ (box s) ->
  details_ (box s') = details_ (box s) ->
  count_ (box s') = Z.of_nat (length (nodes_ (box s'))) ->
  Forall (fun i => left_ (box s) <= i) (ids (nodes_ (box s')) ++ ids (gathered (pend s'))) ->
  Forall (fun p => g_count (p_gather p) = Z.of_nat (length (g_nodes (p_gather p))) /\
                   (p_settle p = true -> g_count (p_gather p) = total_ (box s))) (pend s') ->
  Inv s'.
Proof.
  intros [H1 H2 H3 H4 H5 H6 H7 H8] Hp Hl Hr Ht Hd Hc Hh Hg.
  split; rewrite ?Hl, ?Hr, ?Ht, ?Hd, ?Hp; done.
Qed.

Lemma merge_perm lt xs : forall ys, merge lt xs ys ≡ₚ xs ++ ys.
Proof.
  induction xs as [|x xs IH]; [done|].
  intros ys. induction ys as [|y ys IHy].
  - simpl. by rewrite app_nil_r.
  - cbn [merge]. destruct (lt y x).
    + fold (merge lt (x :: xs) ys). rewrite IHy. by rewrite Permutation_middle.
    + change (x :: merge lt xs (y :: ys) ≡ₚ x :: (xs ++ y :: ys)). by rewrite IH.
Qed.

Lemma last_removelast (ns : list ConnNode) n : last ns = Some n -> ns = removelast ns ++ [n].
Proof.
  intros [l ->]%last_Some. by rewrite removelast_last.
Qed.

Lemma last_perm (ns : list ConnNode) n : last ns = Some n -> n :: removelast ns ≡ₚ ns.
Proof. intros H. rewrite (last_removelast _ _ H) at 2. by rewrite Permutation_app_comm. Qed.

Lemma total_split s :
  Inv s ->
  total_ (box s) = Z.of_nat (length (nodes_ (box s))) + Z.of_nat (length (gathered (pend s)))
                   + Z.of_nat (length (cur (left_ (box s)) (ids (lent s)))).
Proof.
  intros H. rewrite (inv_total _ H). unfold world. rewrite app_assoc, cur_app, length_app.
  rewrite (cur_all _ _ (inv_held _ H)). rewrite length_app. unfold ids. rewrite !length_map. lia.
Qed.

(** An [AcquireAll] in its second loop has everything: nothing is idle, nothing current is lent,
    and no other call has gathered anything. *)
Lemma settle_exclusive s p1 g p2 :
  Inv s -> pend s = p1 ++ {| p_gather := g; p_settle := true |} :: p2 ->
  nodes_ (box s) = [] /\ gathered (p1 ++ p2) = [] /\ cur (left_ (box s)) (ids (lent s)) = [].
Proof.
  intros H Hp. pose proof (total_split _ H) as Ht.
  pose proof (inv_gather _ H) as Hg. rewrite Hp in Hg. apply Forall_app in Hg as [_ Hg].
  apply Forall_cons in Hg as [[Hn Hs] _]. simpl in Hn, Hs. specialize (Hs eq_refl).
  rewrite Hp, gathered_app, gathered_cons in Ht. cbn [p_gather] in Ht. rewrite !length_app in Ht.
  repeat split; apply length_zero_iff_nil; rewrite ?gathered_app, ?length_app; lia.
Qed.

Lemma settle_none s :
  Inv s -> (nodes_ (box s) <> [] \/ cur (left_ (box s)) (ids (lent s)) <> []) -> no_settle s.
Proof.
  intros H Hne. unfold no_settle. apply Forall_forall. intros p Hin.
  apply list_elem_of_split in Hin as (p1 & p2 & Hp). destruct p as [g b]. simpl.
  destruct b; [|done].
  destruct (settle_exclusive _ _ _ _ H Hp) as (H1 & _ & H2). destruct Hne; contradiction.
Qed.

Lemma inv_extend s now r e c' :
  Inv s -> no_settle s -> ExtendNode now r (box s) = (e, c') ->
  Inv {| box := c'; lent := lent s; pend := pend s |}.
Proof.
  intros H Hq. unfold ExtendNode. destruct (creator_ (box s)); cbn [negb]; [|intros [= <- <-]; by destruct s].
  destruct (snd r) as [k|]; intros [= <- <-]; [|by destruct s].
  destruct H as [H1 H2 H3 H4 H5 H6 H7 H8].
  set (s' := Build_sys _ _ _).
  assert (Hw : world s' ≡ₚ right_ (box s) :: world s).
  { unfold world. simpl. rewrite ids_app. simpl. solve_Permutation. }
  assert (Hfresh : right_ (box s) ∉ world s).
  { intros Hin. rewrite Forall_forall in H4. specialize (H4 _ Hin). lia. }
  split; rewrite ?Hw; simpl.
  - rewrite length_app. simpl. lia.
  - rewrite (proj2 (Z.leb_le _ _) H6). simpl. lia.
  - by constructor.
  - constructor; [lia|]. eapply Forall_impl; [exact H4|]. intros i Hi. simpl in Hi. lia.
  - rewrite ids_app. simpl. rewrite !Forall_app in *. destruct H5. split; [split|]; [done| |done].
    by repeat constructor.
  - lia.
  - eapply Forall_impl; [exact (proj2 (Forall_and _ _) (conj H7 Hq))|]. intros p [[Ha _] Hb]. simpl in *.
    split; [done|]. by rewrite Hb.
  - constructor; [set_solver|]. eapply Forall_impl; [exact H8|]. intros i Hi ?. simpl in *. set_solver.
Qed.

Lemma inv_extend_loop now rs : forall s e c',
  Inv s -> no_settle s -> extend_loop now rs (box s) = (e, c') ->
  Inv {| box := c'; lent := lent s; pend := pend s |}.
Proof.
  induction rs as [|r rs IH]; intros s e c' H Hq; simpl.
  - intros [= <- <-]. by destruct s.
  - destruct (ExtendNode now r (box s)) as [e1 c1] eqn:He.
    pose proof (inv_extend _ _ _ _ _ H Hq He) as H1.
    case_match; [|by intros [= <- <-]]. intros Hl.
    exact (IH (Build_sys c1 (lent s) (pend s)) e c' H1 Hq Hl).
Qed.

(** Handing out an idle node. *)
Lemma inv_pop s n ns :
  Inv s -> n :: ns ≡ₚ nodes_ (box s) ->
  Inv {| box := set_nodes ns (count_ (box s) - 1) (total_ (box s)) (box s); lent := n :: lent s; pend := pend s |}.
Proof.
  intros H Hp. pose proof (inv_count _ H) as Hc. pose proof (inv_held _ H) as Hh.
  rewrite <- Hp in Hc, Hh. simpl in Hc, Hh.
  apply (inv_move s); simpl; try done.
  - unfold world. simpl. rewrite <- Hp. simpl. solve_Permutation.
  - lia.
  - by apply Forall_cons in Hh as [_ ?].
  - exact (inv_gather _ H).
Qed.

(** Taking a held node back among the idle ones. *)
Lemma inv_push s l1 n l2 ns :
  Inv s -> lent s = l1 ++ n :: l2 -> left_ (box s) <= id_ n -> ns ≡ₚ n :: nodes_ (box s) ->
  Inv {| box := set_nodes ns (count_ (box s) + 1) (total_ (box s)) (box s); lent := l1 ++ l2; pend := pend s |}.
Proof.
  intros H Hl Hn Hp. pose proof (inv_count _ H) as Hc. pose proof (inv_held _ H) as Hh.
  apply (inv_move s); simpl; try done.
  - unfold world. simpl. rewrite Hl, Hp, !ids_app. simpl. solve_Permutation.
  - rewrite Hp. simpl. lia.
  - rewrite Hp. simpl. by constructor.
  - exact (inv_gather _ H).
Qed.

(** The details survive a clean-up for every node that is still held. *)
Lemma details_filter s (al : Z -> bool) node l :
  Forall (fun i => left_ (box s) <= i -> i ∈ details_ (box s)) l ->
  Forall (fun i => al i = true) l -> id_ node ∉ l ->
  Forall (fun i => left_ (box s) <= i ->
    i ∈ List.filter (fun d => al d && negb (d =? id_ node)) (details_ (box s))) l.
Proof.
  intros Hd Hw Hn. rewrite Forall_forall in Hw. rewrite Forall_forall in Hd |- *. intros i Hi Hl.
  apply list_elem_of_In, filter_In. split; [by apply list_elem_of_In, Hd|].
  rewrite Hw by done. destruct (Z.eqb_spec i (id_ node)) as [->|]; [contradiction|done].
Qed.

Lemma alive_world s : Forall (fun i => alive s i = true) (world s).
Proof. apply Forall_forall. intros i Hi. by apply bool_decide_eq_true_2. Qed.

(** Dropping a node of the current generation that a caller gives up, or that is idle. *)
Lemma inv_drop s al n ns lent' :
  Inv s -> Forall (fun i => al i = true) (world s) -> world s ≡ₚ id_ n :: ids ns ++ ids (gathered (pend s)) ++ ids lent' ->
  left_ (box s) <= id_ n -> no_settle s -> Forall (fun i => left_ (box s) <= i) (ids ns) ->
  Inv {| box := RelDetails al n
                  (set_nodes ns (Z.of_nat (length ns)) (total_ (box s) - 1) (box s));
         lent := lent'; pend := pend s |}.
Proof.
  intros [H1 H2 H3 H4 H5 H6 H7 H8] Hal Hw Hn Hq Hns.
  set (w' := ids ns ++ _) in Hw.
  assert (Hnd : NoDup (id_ n :: w')) by (by rewrite <- Hw). apply NoDup_cons in Hnd as [Hni Hnd].
  split; try (change (world _) with w'); simpl; try done.
  - rewrite H2, Hw. cbn [cur List.filter]. rewrite (proj2 (Z.leb_le _ _) Hn). cbn [length]. fold (cur (left_ (box s)) w'). lia.
  - rewrite Hw in H4. by apply Forall_cons in H4 as [_ ?].
  - apply Forall_app in H5 as [_ H5]. by apply Forall_app.
  - eapply Forall_impl; [exact (proj2 (Forall_and _ _) (conj H7 Hq))|]. intros p [[Ha _] Hb]. simpl in *.
    split; [done|]. by rewrite Hb.
  - rewrite Hw in H8, Hal. apply Forall_cons in H8 as [_ H8]. apply Forall_cons in Hal as [_ Hal].
    by apply details_filter.
Qed.

(** A node of an earlier generation is forgotten without a trace. *)
Lemma inv_forget s l1 n l2 :
  Inv s -> lent s = l1 ++ n :: l2 -> id_ n < left_ (box s) ->
  Inv {| box := box s; lent := l1 ++ l2; pend := pend s |}.
Proof.
  intros [H1 H2 H3 H4 H5 H6 H7 H8] Hl Hn. set (s' := Build_sys _ _ _).
  assert (Hw : world s ≡ₚ id_ n :: world s').
  { unfold world. simpl. rewrite Hl, !ids_app. simpl. solve_Permutation. }
  rewrite Hw in H2, H3, H4, H8. apply Forall_cons in H4 as [_ H4]. apply Forall_cons in H8 as [_ H8].
  apply NoDup_cons in H3 as [_ H3].
  split; try done. simpl. rewrite H2. cbn [cur List.filter].
  by rewrite (proj2 (Z.leb_gt _ _) Hn).
Qed.

Lemma lent_in_world s l1 n l2 :
  lent s = l1 ++ n :: l2 ->
  world s ≡ₚ id_ n :: ids (nodes_ (box s)) ++ ids (gathered (pend s)) ++ ids (l1 ++ l2).
Proof. intros Hl. unfold world. rewrite Hl, !ids_app. simpl. solve_Permutation. Qed.

(** What the test of [Release] means in a consistent state: the node is of an earlier generation. *)
Lemma outside_stale s l1 n l2 :
  Inv s -> lent s = l1 ++ n :: l2 -> outside n (box s) = (id_ n <? left_ (box s)).
Proof.
  intros H Hl. unfold outside. pose proof (inv_bound _ H) as Hb.
  rewrite (lent_in_world _ _ _ _ Hl) in Hb. apply Forall_cons in Hb as [Hb _].
  rewrite (proj2 (Z.leb_gt _ _) Hb). apply orb_false_r.
Qed.

Lemma lent_cur_ne s l1 n l2 :
  lent s = l1 ++ n :: l2 -> left_ (box s) <= id_ n -> cur (left_ (box s)) (ids (lent s)) <> [].
Proof.
  intros -> Hn. rewrite ids_app, cur_app. cbn [ids map cur List.filter].
  rewrite (proj2 (Z.leb_le _ _) Hn). intros [_ ?]%app_eq_nil. done.
Qed.

Lemma inv_drop_lent s l1 n l2 :
  Inv s -> lent s = l1 ++ n :: l2 -> left_ (box s) <= id_ n ->
  Inv {| box := RelDetails (alive s) n (set_nodes (nodes_ (box s)) (count_ (box s)) (total_ (box s) - 1) (box s));
         lent := l1 ++ l2; pend := pend s |}.
Proof.
  intros H Hl Hn. rewrite (inv_count _ H).
  apply inv_drop; try done.
  - apply alive_world.
  - by apply lent_in_world.
  - apply settle_none; [done|]. right. by eapply lent_cur_ne.
  - pose proof (inv_held _ H) as Hh. by apply Forall_app in Hh as [? _].
Qed.

Lemma inv_release s l1 n l2 :
  Inv s -> lent s = l1 ++ n :: l2 ->
  Inv {| box := Release (alive s) n (box s); lent := l1 ++ l2; pend := pend s |}.
Proof.
  intros H Hl. unfold Release. rewrite (outside_stale _ _ _ _ H Hl).
  destruct (Z.ltb_spec (id_ n) (left_ (box s))) as [Hs|Hn]; [by apply (inv_forget _ _ n)|].
  destruct (Z.eqb_spec (count_ (box s)) (max_ (box s))) as [Hf|Hf].
  - rewrite (proj2 (Z.ltb_lt _ _)); [by apply inv_drop_lent|].
    pose proof (total_split _ H) as Ht. rewrite (inv_count _ H), Ht.
    pose proof (lent_cur_ne _ _ _ _ Hl Hn) as Hne.
    destruct (cur _ (ids (lent s))); [done|]. simpl. lia.
  - by apply (inv_push _ _ n).
Qed.

Lemma inv_release_trans s recyclable l1 n l2 :
  Inv s -> lent s = l1 ++ n :: l2 ->
  Inv {| box := ReleaseTrans (alive s) recyclable n (box s); lent := l1 ++ l2; pend := pend s |}.
Proof.
  intros H Hl. unfold ReleaseTrans. rewrite (outside_stale _ _ _ _ H Hl).
  destruct (Z.ltb_spec (id_ n) (left_ (box s))) as [Hs|Hn]; [by apply (inv_forget _ _ n)|].
  case_match.
  - apply (inv_push _ _ n); try done. by rewrite Permutation_app_comm.
  - by apply inv_drop_lent.
Qed.

Lemma inv_clear_unused al now todo : forall kept c l ps,
  let s := {| box := set_nodes (kept ++ todo) (count_ c) (total_ c) c; lent := l; pend := ps |} in
  Inv s -> Forall (fun i => al i = true) (world s) ->
  Inv {| box := clear_unused_loop al now kept todo c; lent := l; pend := ps |}.
Proof.
  induction todo as [|n rest IH]; intros kept c l ps; cbv zeta; intros H Hal; cbn [clear_unused_loop].
  { by rewrite app_nil_r in H. }
  case_match.
  { apply IH; rewrite <- app_assoc; done. }
  set (s := Build_sys _ _ _) in *.
  pose proof (inv_held _ H) as Hh. pose proof (inv_count _ H) as Hc. simpl in Hh, Hc.
  assert (Hw : world s ≡ₚ id_ n :: ids (kept ++ rest) ++ ids (gathered ps) ++ ids l).
  { unfold world. simpl. rewrite !ids_app. simpl. solve_Permutation. }
  rewrite ids_app in Hh. simpl in Hh. rewrite !Forall_app, Forall_cons in Hh.
  destruct Hh as [[Hk [Hn Hr]] Hg].
  assert (Hd : Inv {| box := RelDetails al n (set_nodes (kept ++ rest) (Z.of_nat (length (kept ++ rest)))
      (total_ (box s) - 1) (box s)); lent := l; pend := ps |}).
  { apply (inv_drop s); try done.
    - apply settle_none; [done|]. left. simpl. by destruct kept.
    - rewrite ids_app. by apply Forall_app. }
  apply IH.
  - replace (count_ _) with (Z.of_nat (length (kept ++ rest))); [exact Hd|].
    simpl. rewrite Hc, !length_app. simpl. lia.
  - rewrite Hw in Hal. by apply Forall_cons in Hal as [_ ?].
Qed.

Lemma details_loop_keeps al op ds i : i ∈ ds -> al i = true -> i ∈ snd (details_loop al op ds).
Proof.
  intros Hi Ha. induction ds as [|d ds IH]; [set_solver|]. simpl.
  apply elem_of_cons in Hi as [-> | Hi].
  - rewrite Ha. case_match; [|left]. case_match. left.
  - repeat case_match; simpl in *; try (by auto); try (by right). set_solver.
Qed.

Lemma inv_details_step s op :
  Inv s -> Inv {| box := snd (ConfigLocale (alive s) op (box s)); lent := lent s; pend := pend s |}.
Proof.
  intros [H1 H2 H3 H4 H5 H6 H7 H8]. unfold ConfigLocale.
  destruct (details_loop (alive s) op (details_ (box s))) as [e ds] eqn:Hd. simpl.
  split; try done. simpl. change (world _) with (world s).
  rewrite Forall_forall in H8 |- *. intros i Hi Hl.
  pose proof (alive_world s) as Ha. rewrite Forall_forall in Ha.
  pose proof (details_loop_keeps (alive s) op _ _ (H8 _ Hi Hl) (Ha _ Hi)) as Hk. by rewrite Hd in Hk.
Qed.

Lemma byid_scan_bound id ns : forall k res i b,
  byid_scan id k res ns = Some (i, b) ->
  res = Some (i, b) \/ (k <= i)%nat /\ exists n, ns !! (i - k)%nat = Some n /\ id_ n = b.
Proof.
  induction ns as [|n ns IH]; intros k res i b Hs; simpl in Hs; [by left|].
  assert (Hup : forall r, byid_scan id (S k) r ns = Some (i, b) -> r = res \/ r = Some (k, id_ n) ->
    res = Some (i, b) \/ (k <= i)%nat /\ exists m, (n :: ns) !! (i - k)%nat = Some m /\ id_ m = b).
  { intros r Hr Hor. destruct (IH _ _ _ _ Hr) as [Hq|[Hle [m [Hm Hb]]]].
    - destruct Hor as [-> | ->]; [by left|]. injection Hq as <- <-. right. split; [done|].
      exists n. by rewrite Nat.sub_diag.
    - right. split; [lia|]. exists m. replace (i - k)%nat with (S (i - S k)) by lia. done. }
  case_match; [by apply (Hup res); auto|].
  destruct res as [[j best]|]; [case_match|]; eapply Hup; eauto.
Qed.

Lemma inv_by_id s id o c' :
  Inv s -> AcquireById id (box s) = (o, c') ->
  Inv {| box := c'; lent := option_list o ++ lent s; pend := pend s |}.
Proof.
  intros H. unfold AcquireById. case_match; [intros [= <- <-]; by destruct s|].
  destruct (byid_scan id 0 None (nodes_ (box s))) as [[i b]|] eqn:Hs; [|intros [= <- <-]; by destruct s].
  destruct (byid_scan_bound _ _ _ _ _ _ Hs) as [Hq|[_ [n [Hn _]]]]; [done|].
  rewrite Nat.sub_0_r in Hn. rewrite Hn. intros [= <- <-]. simpl.
  apply inv_pop; [done|]. by rewrite <- delete_Permutation.
Qed.

Lemma inv_acquire s now r e o c' :
  Inv s -> disable_ (box s) = true \/ no_settle s -> Acquire now [r] (box s) = ((e, o), c') ->
  Inv {| box := c'; lent := option_list o ++ lent s; pend := pend s |}.
Proof.
  intros H Hg. unfold Acquire. case_match; [intros [= <- <- <-]; by destruct s|].
  simpl. destruct (waiter now r E_OK (box s)) as [[ok e1] c1] eqn:Hw.
  assert (H1 : Inv {| box := c1; lent := lent s; pend := pend s |}).
  { unfold waiter in Hw. case_match; [injection Hw as <- <- <-; by destruct s|].
    destruct (disable_ (box s)) eqn:Hd; [injection Hw as <- <- <-; by destruct s|].
    destruct (ExtendNode now r (box s)) as [e2 c2] eqn:He. injection Hw as <- <- <-.
    destruct Hg as [|Hq]; [done|]. by eapply inv_extend. }
  pose proof (inv_count _ H1) as Hc. simpl in Hc.
  destruct ok; [|by intros [= <- <- <-]].
  destruct (nodes_ c1) as [|n0 ns0] eqn:Hns.
  - intros [= <- <- <-]. simpl. replace 0 with (count_ c1) by (rewrite Hc; done). rewrite <- Hns.
    by destruct c1.
  - destruct (last (n0 :: ns0)) as [n|] eqn:Hl; [|by apply last_None in Hl].
    intros [= <- <- <-]. apply (inv_pop (Build_sys c1 (lent s) (pend s))); [done|].
    simpl box. rewrite Hns. exact (last_perm _ _ Hl).
Qed.

Lemma inv_init_members s max timeout disable :
  Inv s -> Inv {| box := InitMembers max timeout disable (box s); lent := lent s; pend := pend s |}.
Proof. by intros [H1 H2 H3 H4 H5 H6 H7 H8]. Qed.

Lemma inv_initialize s now outcome max timeout disable acquire o c' :
  Inv s -> no_settle s -> Initialize now outcome max timeout disable acquire (box s) = ((E_OK, o), c') ->
  Inv {| box := c'; lent := option_list o ++ lent s; pend := pend s |}.
Proof.
  intros H Hq. unfold Initialize.
  destruct (extend_loop _ _ _) as [e c1] eqn:He.
  pose proof (inv_extend_loop _ _ (Build_sys _ _ _) _ _ (inv_init_members s max timeout disable H) Hq He) as H1.
  simpl in H1. destruct (is_ok e) eqn:Hok; [|intros Heq; injection Heq as -> _ _; discriminate Hok].
  destruct (acquire && (0 <? count_ c1)) eqn:Ha; [|by intros [= <- <-]].
  apply andb_true_iff in Ha as [_ Ha%Z.ltb_lt].
  pose proof (inv_count _ H1) as Hc. simpl in Hc.
  destruct (last (nodes_ c1)) as [n|] eqn:Hl; [|apply last_None in Hl; rewrite Hl in Hc; simpl in Hc; lia].
  intros [= <- <-]. apply (inv_pop (Build_sys c1 (lent s) (pend s))); [done|]. exact (last_perm _ _ Hl).
Qed.

(** [Clear]: every node that is still lent is of an earlier generation from now on. *)
Lemma inv_clear s :
  Inv s -> pend s = [] -> right_ (box s) <= MAX_RIGHT ->
  Inv {| box := Clear (box s); lent := lent s; pend := pend s |}.
Proof.
  intros [H1 H2 H3 H4 H5 H6 H7 H8] Hp Hr. unfold world in *. rewrite Hp in *. cbn [gathered map concat ids app] in *.
  assert (Hc : Clear (box s) = {| disable_ := true; max_ := max_ (box s); total_ := 0; count_ := 0;
    left_ := right_ (box s); right_ := right_ (box s); timeout_ := timeout_ (box s); nodes_ := [];
    details_ := []; creator_ := false |}).
  { unfold Clear. by rewrite (proj2 (Z.ltb_ge _ _) Hr). }
  apply Forall_app in H4 as [_ H4]. apply NoDup_app in H3 as (_ & _ & H3).
  rewrite Hc. split; unfold world; simpl; try done.
  - replace (cur _ _) with (@nil Z); [done|]. symmetry. clear -H4.
    induction H4 as [|i l Hi _ IH]; [done|]. unfold cur in *. simpl in Hi |- *.
    by rewrite (proj2 (Z.leb_gt _ _) Hi).
  - eapply Forall_impl; [exact H4|]. intros i Hi Hl. simpl in Hi. lia.
Qed.

Lemma pend_entry s p1 g b p2 :
  Inv s -> pend s = p1 ++ {| p_gather := g; p_settle := b |} :: p2 ->
  g_count g = Z.of_nat (length (g_nodes g)) /\
  Forall (fun p => g_count (p_gather p) = Z.of_nat (length (g_nodes (p_gather p))) /\
                   (p_settle p = true -> g_count (p_gather p) = total_ (box s))) (p1 ++ p2) /\
  Forall (fun i => left_ (box s) <= i) (ids (nodes_ (box s)) ++ ids (g_nodes g) ++ ids (gathered (p1 ++ p2))).
Proof.
  intros H Hp. pose proof (inv_gather _ H) as Hg. pose proof (inv_held _ H) as Hh.
  rewrite Hp in Hg, Hh. rewrite gathered_app, gathered_cons, !ids_app in Hh. cbn [p_gather] in Hh.
  rewrite !Forall_app, Forall_cons in Hg. simpl in Hg. rewrite gathered_app, ids_app.
  rewrite !Forall_app in *. naive_solver.
Qed.

Lemma inv_all_take lt s p1 g p2 g' c' :
  Inv s -> pend s = p1 ++ {| p_gather := g; p_settle := false |} :: p2 ->
  all_take lt g (box s) = (g', c') ->
  Inv {| box := c'; lent := lent s; pend := p1 ++ {| p_gather := g'; p_settle := false |} :: p2 |}.
Proof.
  intros H Hp [= <- <-]. destruct (pend_entry _ _ _ _ _ H Hp) as (Hg & Hps & Hh).
  apply (inv_move s); simpl; try done.
  - unfold world. simpl. rewrite Hp, !gathered_app, !gathered_cons, !ids_app. simpl.
    rewrite merge_perm, ids_app. solve_Permutation.
  - rewrite gathered_app, gathered_cons, !ids_app. simpl. rewrite merge_perm, ids_app.
    rewrite gathered_app, ids_app in Hh. rewrite !Forall_app in *. naive_solver.
  - rewrite Forall_app, Forall_cons in *. simpl. rewrite merge_perm, length_app.
    pose proof (inv_count _ H). split; [naive_solver|]. split; [|naive_solver]. split; [lia|done].
Qed.

(** The two failure exits give the gathered nodes back; nothing idle is overwritten. *)
Lemma inv_all_restore s p1 g b p2 :
  Inv s -> pend s = p1 ++ {| p_gather := g; p_settle := b |} :: p2 -> nodes_ (box s) = [] ->
  Inv {| box := all_restore g (box s); lent := lent s; pend := p1 ++ p2 |}.
Proof.
  intros H Hp Hn. destruct (pend_entry _ _ _ _ _ H Hp) as (Hg & Hps & Hh). rewrite Hn in Hh.
  apply (inv_move s); simpl; try done.
  unfold world. simpl. rewrite Hp, Hn, !gathered_app, gathered_cons, !ids_app. simpl. solve_Permutation.
Qed.

Lemma inv_all_done s p1 g p2 :
  Inv s -> pend s = p1 ++ {| p_gather := g; p_settle := true |} :: p2 ->
  Inv {| box := box s; lent := g_nodes g ++ lent s; pend := p1 ++ p2 |}.
Proof.
  intros H Hp. destruct (pend_entry _ _ _ _ _ H Hp) as (Hg & Hps & Hh).
  apply (inv_move s); simpl; try done.
  - unfold world. simpl. rewrite Hp, !gathered_app, gathered_cons, !ids_app. simpl. solve_Permutation.
  - apply (inv_count _ H).
  - rewrite !Forall_app in *. naive_solver.
Qed.

Lemma inv_all_settle s p1 g p2 :
  Inv s -> pend s = p1 ++ {| p_gather := g; p_settle := false |} :: p2 -> g_count g = total_ (box s) ->
  Inv {| box := box s; lent := lent s; pend := p1 ++ {| p_gather := g; p_settle := true |} :: p2 |}.
Proof.
  intros H Hp Ht. destruct (pend_entry _ _ _ _ _ H Hp) as (Hg & Hps & Hh).
  assert (Hsame : gathered (p1 ++ {| p_gather := g; p_settle := true |} :: p2) = gathered (pend s)).
  { by rewrite Hp, !gathered_app. }
  apply (inv_move s); simpl; try done.
  - unfold world. simpl. by rewrite Hsame.
  - apply (inv_count _ H).
  - rewrite Hsame. apply (inv_held _ H).
  - rewrite Forall_app, Forall_cons in *. naive_solver.
Qed.

(** *** Orderly steps *)

Lemma step_inv lt s s' : Inv s -> step lt true s s' -> Inv s'.
Proof.
  intros H Hs. destruct Hs as
    [s now r e o c' Hg Ha|s now outcome mx timeout disable acquire e o c' Hq Hi|s mx timeout disable|s id o c' Ha
    |s l1 n n' l2 Hl Hn|s l1 n l2 Hl|s recyclable l1 n l2 Hl|s now|s|s|s op|s Hp Hr|s
    |s p1 g p2 g' c' Hp _ _ Ht|s p1 g p2 Hp He Hne|s p1 g p2 Hp Ht|s use_count p1 g p2 Hp _|s use_count p1 g p2 Hp _].
  - specialize (Hg eq_refl). by eapply inv_acquire.
  - destruct (Hq eq_refl) as [Hn ->]. by eapply inv_initialize.
  - by apply inv_init_members.
  - by eapply inv_by_id.
  - destruct H. apply (inv_move s); simpl; try done. unfold world. simpl. rewrite Hl, !ids_app. simpl. by rewrite Hn.
  - by apply inv_release.
  - by apply inv_release_trans.
  - destruct s as [[] l ps]. apply (inv_clear_unused _ _ _ []); [exact H|apply alive_world].
  - by destruct H.
  - by destruct H.
  - by apply inv_details_step.
  - specialize (Hp eq_refl). by apply inv_clear.
  - destruct H. apply (inv_move s); simpl; try done. by constructor.
  - by eapply inv_all_take.
  - eapply inv_all_restore; [done..|].
    destruct (pend_entry _ _ _ _ _ H Hp) as (Hg & _). pose proof (total_split _ H) as Ht.
    pose proof (inv_count _ H). rewrite Hp, gathered_app, gathered_cons in Ht. simpl in Ht.
    rewrite !length_app in Ht. apply length_zero_iff_nil. lia.
  - by apply inv_all_settle.
  - by eapply inv_all_done.
  - eapply inv_all_restore; [done..|]. by eapply settle_exclusive.
Qed.

Lemma reachable_inv lt first s : reachable lt true first s -> Inv s.
Proof.
  induction 1 as [|s s' _ IH Hs]; [|by eapply step_inv].
  split; simpl; try done; try constructor; lia.
Qed.

(** *** All steps *)

(** What holds in every interleaving: a node has one holder. *)
Record Own (s : sys) : Prop := {
  own_nodup : NoDup (world s);
  own_bound : Forall (fun i => i < right_ (box s)) (world s);
  own_left : left_ (box s) <= right_ (box s)
}.

(** Nodes are moved or given up. *)
Lemma own_less s s' xs :
  Own s -> world s ≡ₚ xs ++ world s' -> right_ (box s') = right_ (box s) -> left_ (box s') = left_ (box s) -> Own s'.
Proof.
  intros [H1 H2 H3] Hw Hr Hl. rewrite Hw in H1, H2. apply NoDup_app in H1 as (_ & _ & H1). apply Forall_app in H2 as [_ H2].
  split; by rewrite ?Hr, ?Hl.
Qed.

Lemma own_same s s' :
  Own s -> world s' ≡ₚ world s -> right_ (box s') = right_ (box s) -> left_ (box s') = left_ (box s) -> Own s'.
Proof. intros H Hw. apply (own_less s s' []); [done|]. by rewrite Hw. Qed.

Lemma own_extend now r c e c' l ps :
  Own {| box := c; lent := l; pend := ps |} -> ExtendNode now r c = (e, c') -> Own {| box := c'; lent := l; pend := ps |}.
Proof.
  intros [H1 H2 H3]. unfold ExtendNode. destruct (creator_ c); cbn [negb]; [|by intros [= <- <-]].
  destruct (snd r) as [k|]; intros [= <- <-]; [|done]. cbn [box] in *. set (s' := Build_sys _ _ _).
  assert (Hw : world s' ≡ₚ right_ c :: world {| box := c; lent := l; pend := ps |}).
  { unfold world. simpl. rewrite ids_app. simpl. solve_Permutation. }
  split; rewrite ?Hw; cbn [box s' left_ right_].
  - constructor; [|done]. intros Hin. rewrite Forall_forall in H2. specialize (H2 _ Hin). lia.
  - constructor; [lia|]. eapply Forall_impl; [exact H2|]. intros i Hi. simpl in Hi. lia.
  - lia.
Qed.

Lemma own_extend_loop now rs : forall c e c' l ps,
  Own {| box := c; lent := l; pend := ps |} -> extend_loop now rs c = (e, c') -> Own {| box := c'; lent := l; pend := ps |}.
Proof.
  induction rs as [|r rs IH]; intros c e c' l ps H; simpl; [by intros [= <- <-]|].
  destruct (ExtendNode now r c) as [e1 c1] eqn:He. pose proof (own_extend _ _ _ _ _ _ _ H He) as H1.
  case_match; [by apply IH|by intros [= <- <-]].
Qed.

(** The last idle node is handed out, whatever the counters say. *)
Lemma own_pop c n l ps count :
  Own {| box := c; lent := l; pend := ps |} -> last (nodes_ c) = Some n ->
  Own {| box := set_nodes (removelast (nodes_ c)) count (total_ c) c; lent := n :: l; pend := ps |}.
Proof.
  intros H Hl. apply (own_same _ _ H); [|done|done]. unfold world. simpl. rewrite <- (last_perm _ _ Hl) at 2.
  cbn [ids map]. solve_Permutation.
Qed.

Lemma own_acquire s now r e o c' :
  Own s -> Acquire now [r] (box s) = ((e, o), c') -> Own {| box := c'; lent := option_list o ++ lent s; pend := pend s |}.
Proof.
  intros H. unfold Acquire. case_match; [intros [= <- <- <-]; by destruct s|].
  simpl. destruct (waiter now r E_OK (box s)) as [[ok e1] c1] eqn:Hw.
  assert (H1 : Own {| box := c1; lent := lent s; pend := pend s |}).
  { unfold waiter in Hw. destruct s. repeat case_match; simplify_eq; try done. by eapply own_extend. }
  destruct ok; [|by intros [= <- <- <-]]. destruct (nodes_ c1) as [|n0 ns0] eqn:Hns.
  - intros [= <- <- <-]. apply (own_same _ _ H1); [|done|done]. unfold world. simpl. by rewrite Hns.
  - destruct (last (n0 :: ns0)) as [n|] eqn:Hl; [|by apply last_None in Hl].
    intros [= <- <- <-]. rewrite <- Hns in Hl.
    pose proof (own_pop c1 n (lent s) (pend s) (count_ c1 - 1) H1 Hl) as Hp. rewrite Hns in Hp. exact Hp.
Qed.

Lemma own_initialize s now outcome max timeout disable acquire e o c' :
  Own s -> Initialize now outcome max timeout disable acquire (box s) = ((e, o), c') ->
  Own {| box := c'; lent := option_list o ++ lent s; pend := pend s |}.
Proof.
  intros H. unfold Initialize. destruct (extend_loop _ _ _) as [e1 c1] eqn:He.
  assert (H0 : Own {| box := InitMembers max timeout disable (box s); lent := lent s; pend := pend s |}) by (by destruct H).
  pose proof (own_extend_loop _ _ _ _ _ _ _ H0 He) as H1.
  destruct (is_ok e1); [|intros [= <- <- <-]; apply (own_less _ _ (ids (nodes_ c1)) H1); [|done|done]; unfold world; simpl; done].
  destruct (acquire && (0 <? count_ c1)); [|by intros [= <- <- <-]].
  destruct (last (nodes_ c1)) as [n|] eqn:Hl; intros [= <- <- <-]; [by apply own_pop|].
  apply last_None in Hl. apply (own_same _ _ H1); [|done|done]. unfold world. simpl. by rewrite Hl.
Qed.

Lemma own_by_id s id o c' :
  Own s -> AcquireById id (box s) = (o, c') -> Own {| box := c'; lent := option_list o ++ lent s; pend := pend s |}.
Proof.
  intros H. unfold AcquireById. case_match; [intros [= <- <-]; by destruct s|].
  destruct (byid_scan id 0 None (nodes_ (box s))) as [[i b]|] eqn:Hs; [|intros [= <- <-]; by destruct s].
  destruct (byid_scan_bound _ _ _ _ _ _ Hs) as [Hq|[_ [n [Hn _]]]]; [done|].
  rewrite Nat.sub_0_r in Hn. rewrite Hn. intros [= <- <-]. apply (own_same _ _ H); [|done|done]. unfold world. simpl.
  rewrite (delete_Permutation (nodes_ (box s)) i n Hn) at 2. cbn [ids map]. solve_Permutation.
Qed.

(** A lent node is given back: it becomes idle or is dropped. *)
Lemma own_back s l1 n l2 c' :
  Own s -> lent s = l1 ++ n :: l2 -> right_ c' = right_ (box s) -> left_ c' = left_ (box s) ->
  nodes_ c' ≡ₚ n :: nodes_ (box s) \/ nodes_ c' = nodes_ (box s) -> Own {| box := c'; lent := l1 ++ l2; pend := pend s |}.
Proof.
  intros H Hl Hr Hle [Hn|Hn].
  - apply (own_same _ _ H); [|done|done]. rewrite (lent_in_world _ _ _ _ Hl). unfold world. cbn [box lent pend].
    rewrite Hn. done.
  - apply (own_less _ _ [id_ n] H); [|done|done]. rewrite (lent_in_world _ _ _ _ Hl). unfold world. cbn [box lent pend].
    by rewrite Hn.
Qed.

Lemma own_clear_unused al now todo : forall kept c l ps,
  Own {| box := set_nodes (kept ++ todo) (count_ c) (total_ c) c; lent := l; pend := ps |} ->
  Own {| box := clear_unused_loop al now kept todo c; lent := l; pend := ps |}.
Proof.
  induction todo as [|n rest IH]; intros kept c l ps H; cbn [clear_unused_loop]; [by rewrite app_nil_r in H|].
  case_match; [apply IH; by rewrite <- app_assoc|]. apply IH. apply (own_less _ _ [id_ n] H); [|done|done].
  unfold world. simpl. rewrite !ids_app. simpl. solve_Permutation.
Qed.

(** [left_] never goes back, so an id that is stale stays stale. *)
Lemma extend_left now r c e c' : ExtendNode now r c = (e, c') -> left_ c' = left_ c.
Proof. unfold ExtendNode. repeat case_match; by intros [= <- <-]. Qed.

Lemma extend_loop_left now rs : forall c e c', extend_loop now rs c = (e, c') -> left_ c' = left_ c.
Proof.
  induction rs as [|r rs IH]; intros c e c'; simpl; [by intros [= <- <-]|].
  destruct (ExtendNode now r c) as [e1 c1] eqn:He. apply extend_left in He.
  case_match; [|intros [= <- <-]; done]. intros Hl%IH. congruence.
Qed.

Lemma clear_unused_left al now todo : forall kept c, left_ (clear_unused_loop al now kept todo c) = left_ c.
Proof. induction todo as [|n rest IH]; intros kept c; simpl; [done|]. case_match; by rewrite IH. Qed.

Lemma step_left lt ord s s' : left_ (box s) <= right_ (box s) -> step lt ord s s' -> left_ (box s) <= left_ (box s').
Proof.
  intros H Hs. destruct Hs as
    [s now r e o c' Hg Ha|s now outcome mx timeout disable acquire e o c' Hq Hi|s mx timeout disable|s id o c' Ha
    |s l1 n n' l2 Hl Hn|s l1 n l2 Hl|s recyclable l1 n l2 Hl|s now|s|s|s op|s Hp Hr|s
    |s p1 g p2 g' c' Hp _ _ Ht|s p1 g p2 Hp He Hne|s p1 g p2 Hp Ht|s use_count p1 g p2 Hp _|s use_count p1 g p2 Hp _];
    simpl; try lia.
  - unfold Acquire in Ha. case_match; [simplify_eq; lia|]. simpl in Ha.
    destruct (waiter now r E_OK (box s)) as [[ok e1] c1] eqn:Hw.
    assert (left_ c1 = left_ (box s)) as Hl.
    { unfold waiter in Hw. repeat case_match; simplify_eq; try done; by eapply extend_left. }
    repeat case_match; simplify_eq; simpl; lia.
  - unfold Initialize in Hi. destruct (extend_loop _ _ _) as [e1 c1] eqn:He. apply extend_loop_left in He.
    simpl in He. repeat case_match; simplify_eq; simpl; lia.
  - unfold AcquireById in Ha. repeat case_match; simplify_eq; simpl; lia.
  - unfold Release. repeat case_match; simpl; lia.
  - unfold ReleaseTrans. repeat case_match; simpl; lia.
  - rewrite clear_unused_left. lia.
  - unfold ConfigLocale. case_match. simpl. lia.
  - rewrite (proj2 (Z.ltb_ge _ _) Hr). exact H.
  - injection Ht as <- <-. simpl. lia.
Qed.

(** A failing [AcquireAll] replaces what is idle by what it gathered. *)
Lemma own_restore s p1 g b p2 :
  Own s -> pend s = p1 ++ {| p_gather := g; p_settle := b |} :: p2 ->
  Own {| box := all_restore g (box s); lent := lent s; pend := p1 ++ p2 |}.
Proof.
  intros H Hp. apply (own_less _ _ (ids (nodes_ (box s))) H); [|done|done].
  unfold world. simpl. rewrite Hp, !gathered_app, gathered_cons, !ids_app. simpl. solve_Permutation.
Qed.

Lemma step_own lt ord s s' : Own s -> step lt ord s s' -> Own s' /\ left_ (box s) <= left_ (box s').
Proof.
  intros H Hs. split; [|exact (step_left lt ord s s' (own_left s H) Hs)]. destruct Hs as
    [s now r e o c' _ Ha|s now outcome mx timeout disable acquire e o c' _ Hi|s mx timeout disable|s id o c' Ha
    |s l1 n n' l2 Hl Hn|s l1 n l2 Hl|s recyclable l1 n l2 Hl|s now|s|s|s op|s _ Hr|s
    |s p1 g p2 g' c' Hp _ _ Ht|s p1 g p2 Hp He Hne|s p1 g p2 Hp Ht|s use_count p1 g p2 Hp _|s use_count p1 g p2 Hp _].
  - by eapply own_acquire.
  - by eapply own_initialize.
  - by destruct H.
  - by eapply own_by_id.
  - apply (own_same _ _ H); [|done|done]. unfold world. simpl. rewrite Hl, !ids_app. simpl. by rewrite Hn.
  - eapply own_back; [done|done|unfold Release; by repeat case_match..|]. unfold Release. repeat case_match; simpl; auto.
  - eapply own_back; [done|done|unfold ReleaseTrans; by repeat case_match..|].
    unfold ReleaseTrans. repeat case_match; simpl; auto. left. by rewrite Permutation_app_comm.
  - destruct s as [[] l ps]. by apply (own_clear_unused _ _ _ []).
  - by destruct H.
  - by destruct H.
  - unfold ConfigLocale. destruct (details_loop _ _ _). by destruct H.
  - assert (Hc : right_ (Clear (box s)) = right_ (box s)) by (cbn; by rewrite (proj2 (Z.ltb_ge _ _) Hr)).
    destruct H as [H1 H2 H3]. unfold world in *. apply NoDup_app in H1 as (_ & _ & H1). apply Forall_app in H2 as [_ H2].
    split; cbn [box lent pend]; [exact H1|by rewrite Hc|]. cbn. lia.
  - by apply (own_same _ _ H).
  - injection Ht as <- <-. apply (own_same _ _ H); [|done|done].
    unfold world. simpl. rewrite Hp, !gathered_app, !gathered_cons, !ids_app. simpl. rewrite merge_perm, ids_app. solve_Permutation.
  - by eapply own_restore.
  - apply (own_same _ _ H); [|done|done]. unfold world. simpl. by rewrite Hp, !gathered_app.
  - apply (own_same _ _ H); [|done|done].
    unfold world. simpl. rewrite Hp, !gathered_app, gathered_cons, !ids_app. simpl. solve_Permutation.
  - by eapply own_restore.
Qed.

Lemma reachable_own lt ord first s : reachable lt ord first s -> Own s.
Proof.
  induction 1 as [|s s' _ IH Hs]; [|by eapply step_own]. split; simpl; try done; constructor.
Qed.

End ContainerInv.

(** ** The claims on containers *)

Module ContainerProps.
Import Container ContainerInv.

(** *** Containers under interleaving *)

(** [left_] never goes back, so an id that is stale stays stale. *)
Lemma steps_left lt ord s s' : Own s -> rtc (step lt ord) s s' -> Own s' /\ left_ (box s) <= left_ (box s').
Proof.
  intros H Hs. induction Hs as [s|s1 s2 s3 H12 _ IH]; [split; [done|lia]|].
  destruct (step_own _ _ _ _ H H12) as [H2 Hl]. destruct (IH H2). split; [done|lia].
Qed.

(** Releasing a node below [left_] changes nothing. *)
Lemma release_stale al rec n c : id_ n < left_ c -> Release al n c = c /\ ReleaseTrans al rec n c = c.
Proof. intros H. unfold Release, ReleaseTrans, outside. by rewrite (proj2 (Z.ltb_lt _ _) H). Qed.

(** C4: In every interleaving on a container, in which no more than [MAX_RIGHT] (2^30 and more) connections are made, of [Acquire], [AcquireAll], [AcquireById], releases, clean-ups,
    [Initialize] and [Clear], also while an [AcquireAll] is under way, no node has two holders (the container, an [AcquireAll]
    under way, a caller), and ids are below [right_].  In the orderly interleavings ([ord]: every
    [Initialize] succeeds, no [Clear] while an [AcquireAll] is under way, and no new connection
    while one waits in its second loop) moreover [count_] is the number of idle nodes; [total_] is the number of
    nodes of the current generation, idle, gathered or lent; idle and gathered nodes are of the
    current generation; and every current node is in [details_], where [Interrupt] and
    [ConfigLocale] find it. *)
Theorem container_accounting lt ord first s :
  reachable lt ord first s ->
  NoDup (ids (nodes_ (box s)) ++ ids (gathered (pend s)) ++ ids (lent s)) /\
  Forall (fun i => i < right_ (box s)) (world s) /\
  (ord = true ->
     count_ (box s) = Z.of_nat (length (nodes_ (box s))) /\
     total_ (box s) = Z.of_nat (length (nodes_ (box s))) + Z.of_nat (length (gathered (pend s)))
                      + Z.of_nat (length (cur (left_ (box s)) (ids (lent s)))) /\
     Forall (fun i => left_ (box s) <= i) (ids (nodes_ (box s)) ++ ids (gathered (pend s))) /\
     Forall (fun i => left_ (box s) <= i -> i ∈ details_ (box s)) (world s)).
Proof.
  intros Hr. destruct (reachable_own _ _ _ _ Hr) as [H1 H2 _]. split; [exact H1|]. split; [exact H2|]. intros ->.
  apply reachable_inv in Hr as H. split; [apply (inv_count _ H)|]. split; [by apply total_split|].
  split; [apply (inv_held _ H)|apply (inv_details _ H)].
Qed.

(** C5: When [AcquireAll] is about to succeed, every connection of the container is in its
    hands: nothing is idle, no other [AcquireAll] has gathered anything, and what callers still
    hold is of an earlier generation.  This holds in the orderly interleavings: no more than [MAX_RIGHT] connections are made, every [Initialize] succeeds,
    no [Clear] comes while an [AcquireAll] is under way, and no connection is added while one waits
    in its second loop (a disabled container adds none). *)
Theorem acquire_all_has_everything lt first s p1 g p2 :
  reachable lt true first s ->
  pend s = p1 ++ {| p_gather := g; p_settle := true |} :: p2 ->
  nodes_ (box s) = [] /\ gathered (p1 ++ p2) = [] /\
  Forall (fun n => id_ n < left_ (box s)) (lent s) /\
  Z.of_nat (length (g_nodes g)) = total_ (box s).
Proof.
  intros H%reachable_inv Hp. destruct (settle_exclusive _ _ _ _ H Hp) as (Hn & Ho & Hc).
  repeat split; try done.
  - clear -Hc. induction (lent s) as [|n l IH]; [done|]. cbn [ids map cur List.filter] in Hc.
    destruct (Z.leb_spec (left_ (box s)) (id_ n)); [done|]. constructor; [done|]. by apply IH.
  - pose proof (inv_gather _ H) as Hg. rewrite Hp, Forall_app, Forall_cons in Hg.
    destruct Hg as (_ & [Hg Hs] & _). simpl in *. rewrite <- Hg. by apply Hs.
Qed.

(** C13: A connection that was lent before [Clear] never comes back: whatever happens to the
    container afterwards, in any interleaving, giving it back leaves the container as it is.  (The ids have not passed
    [MAX_RIGHT], beyond which [Clear] starts them over.) *)
Theorem stale_release_ignored lt ord first s s2 al rec n :
  reachable lt ord first s -> right_ (box s) <= MAX_RIGHT ->
  rtc (step lt ord) {| box := Clear (box s); lent := lent s; pend := pend s |} s2 ->
  n ∈ lent s ->
  Release al n (box s2) = box s2 /\ ReleaseTrans al rec n (box s2) = box s2.
Proof.
  intros H%reachable_own Hr Hs Hn.
  destruct (step_own lt false _ _ H (step_clear lt false s ltac:(done) Hr)) as [H1 _].
  destruct (steps_left _ _ _ _ H1 Hs) as [_ Hl].
  cbn [box Clear left_] in Hl. rewrite (proj2 (Z.ltb_ge _ _) Hr) in Hl.
  apply release_stale. pose proof (own_bound _ H) as Hb. unfold world in Hb.
  rewrite !Forall_app in Hb. destruct Hb as (_ & _ & Hb). rewrite Forall_forall in Hb.
  assert (Hi : id_ n ∈ ids (lent s)) by (unfold ids; apply list_elem_of_fmap; by exists n).
  specialize (Hb _ Hi). simpl in Hb. lia.
Qed.

(** *** One caller at a time *)

Lemma take_last ns n c' : nodes_ c' = ns ++ [n] ->
  match nodes_ c' with
  | [] => ((E_ERROR, None), set_nodes [] 0 (total_ c') c')
  | l => ((E_OK, last l), set_nodes (removelast l) (count_ c' - 1) (total_ c') c')
  end = ((E_OK, Some n), set_nodes ns (count_ c' - 1) (total_ c') c').
Proof.
  intros ->. destruct (ns ++ [n]) as [|x l] eqn:E; [by destruct ns|].
  assert (H1 : last (x :: l) = Some n) by (rewrite <- E; apply last_snoc).
  assert (H2 : removelast (x :: l) = ns) by (rewrite <- E; apply removelast_last).
  cbv zeta. by rewrite H1, H2.
Qed.

Lemma wait_for_ready now r rest e c : 0 < count_ c -> wait_for now (r :: rest) e c = (true, e, c).
Proof. intros H. simpl. unfold waiter. by rewrite (proj2 (Z.ltb_lt _ _) H). Qed.

Lemma wait_for_disabled now evals e c :
  count_ c <= 0 -> disable_ c = true -> wait_for now evals e c = (false, e, c).
Proof.
  intros H Hd. induction evals as [|r rest IH]; [done|]. simpl. unfold waiter.
  by rewrite (proj2 (Z.ltb_ge _ _) H), Hd.
Qed.

Lemma wait_for_failing now evals c : forall e0,
  count_ c <= 0 -> disable_ c = false -> creator_ c = true ->
  Forall (fun r : created => snd r = None /\ fst r <> E_OK) evals ->
  wait_for now evals e0 c = (false, default e0 (fst <$> last evals), c).
Proof.
  induction evals as [|r rest IH]; intros e0 H Hd Hc Hf; [done|].
  apply Forall_cons in Hf as [[Hr Hr2] Hf]. simpl. unfold waiter, ExtendNode.
  rewrite (proj2 (Z.ltb_ge _ _) H), Hd, Hc, Hr. simpl. unfold is_ok. rewrite bool_decide_eq_false_2 by done.
  rewrite IH by done. destruct rest as [|r2 rest]; [done|]. do 2 f_equal.
  change (last (r :: r2 :: rest)) with (last (r2 :: rest)).
  destruct (last (r2 :: rest)) eqn:E; [done|by apply last_None in E].
Qed.

(** [Acquire] on every branch: an unused container ([max_] is 0) gives [E_ERROR]; an idle
    node is handed out from the back; with none idle, a container that may grow hands out the
    connection its creator makes, under the next id, and reports the creator's last error when
    it makes none; a disabled container waits and then answers [E_OK] without a connection. *)
Theorem acquire_branches now c r rest :
  count_ c = Z.of_nat (length (nodes_ c)) ->
  (max_ c = 0 -> Container.Acquire now (r :: rest) c = ((E_ERROR, None), c)) /\
  (max_ c <> 0 ->
   (forall ns n, nodes_ c = ns ++ [n] ->
      Container.Acquire now (r :: rest) c = ((E_OK, Some n), set_nodes ns (count_ c - 1) (total_ c) c)) /\
   (nodes_ c = [] -> disable_ c = true -> Container.Acquire now (r :: rest) c = ((E_OK, None), c)) /\
   (nodes_ c = [] -> disable_ c = false -> creator_ c = true ->
      (forall k, snd r = Some k -> exists c',
         Container.Acquire now (r :: rest) c =
           ((E_OK, Some {| tid_ := 0; id_ := right_ c; time_ := now; connect_ := Some k |}), c') /\
         nodes_ c' = [] /\ count_ c' = 0 /\ total_ c' = total_ c + 1 /\ right_ c' = right_ c + 1) /\
      (Forall (fun x : created => snd x = None /\ fst x <> E_OK) (r :: rest) ->
         Container.Acquire now (r :: rest) c = ((default E_OK (fst <$> last (r :: rest)), None), c)))).
Proof.
  intros Hc. unfold Container.Acquire. split; [by intros ->|]. intros Hm%Z.eqb_neq. rewrite Hm.
  split; [|split].
  - intros ns n Hn. rewrite wait_for_ready.
    + by apply take_last.
    + rewrite Hc, Hn, length_app. simpl. lia.
  - intros Hn Hd. rewrite Hn in Hc. rewrite wait_for_disabled; [done|simpl in Hc; lia|done].
  - intros Hn Hd Hcr. rewrite Hn in Hc. simpl in Hc. split.
    + intros k Hk. simpl. unfold waiter, ExtendNode. rewrite Hc, Hd, Hcr, Hk, Hn. simpl.
      eexists. repeat split.
    + intros Hf. rewrite wait_for_failing by (try done; lia). done.
Qed.

Lemma extend_loop_app now l1 l2 : forall c e c',
  extend_loop now l1 c = (e, c') -> e <> E_OK -> extend_loop now (l1 ++ l2) c = (e, c').
Proof.
  induction l1 as [|r l1 IH]; intros c e c'; simpl; [by intros [= <- _]|].
  destruct (ExtendNode now r c) as [e1 c1]. case_match; [|done]. apply IH.
Qed.

(** The first loop when nobody else moves. *)
Lemma collect_quiet lt c :
  let g0 := {| g_nodes := []; g_count := 0 |} in
  all_collect lt [] g0 c =
    if (0 <? total_ c) && (0 <? count_ c)
    then ({| g_nodes := nodes_ c; g_count := count_ c |}, set_nodes [] 0 (total_ c) c) else (g0, c).
Proof.
  cbv zeta. unfold all_collect. cbn [g_count]. destruct (0 <? total_ c); [|done]. cbn [andb].
  destruct (0 <? count_ c); unfold all_take; cbn [g_count g_nodes merge total_ set_nodes]; by case_match.
Qed.

(** An [AcquireAll] alone on a container that does not have everything gives up. *)
Lemma acquire_all_short lt use_count c :
  0 < total_ c -> count_ c = 0 -> Container.AcquireAll lt [] use_count [] c = ((false, []), set_nodes [] 0 (total_ c) c).
Proof.
  intros Ht Hc. unfold Container.AcquireAll. rewrite collect_quiet, Hc, andb_false_r. cbn [g_count].
  destruct (Z.eqb_spec 0 (total_ c)); [lia|]. done.
Qed.

(** The rounds of [Initialize] from round [k - j] to the failing round [k]. *)
Lemma extend_loop_failing now outcome k :
  (forall i, (i < k)%nat -> is_Some (snd (outcome i))) ->
  snd (outcome k) = None -> fst (outcome k) <> E_OK ->
  forall j c, (j <= k)%nat -> creator_ c = true -> exists c',
    extend_loop now (map outcome (seq (k - j) (S j))) c = (fst (outcome k), c') /\
    count_ c' = count_ c + Z.of_nat j /\ total_ c' = total_ c + Z.of_nat j /\ disable_ c' = disable_ c /\
    max_ c' = max_ c /\ creator_ c' = true.
Proof.
  intros Hgood Hbad Herr. induction j as [|j IH]; intros c Hj Hcr.
    - rewrite Nat.sub_0_r. simpl. unfold ExtendNode. rewrite Hcr, Hbad. simpl. unfold is_ok.
      rewrite bool_decide_eq_false_2 by done. exists c. repeat split; try done; lia.
    - destruct (Hgood (k - S j)%nat) as [x Hx]; [lia|].
      change (seq (k - S j) (S (S j))) with ((k - S j)%nat :: seq (S (k - S j)) (S j)).
      replace (S (k - S j)) with (k - j)%nat by lia. cbn [map extend_loop].
      unfold ExtendNode at 1. rewrite Hcr, Hx. cbn [negb is_ok].
      edestruct (IH (Build_t (disable_ c) (max_ c) (total_ c + 1) (count_ c + 1) (left_ c) (right_ c + 1)
        (timeout_ c) (nodes_ c ++ [Build_ConnNode 0 (right_ c) now (Some x)]) (details_ c ++ [right_ c]) true))
        as (c' & He & H1 & H2 & H3 & H4 & H5); [lia|done|].
      exists c'. split; [exact He|]. simpl in H1, H2, H3, H4. repeat split; try done; lia.
Qed.

(** An [Initialize] whose creator fails after [k] connections drops these connections but
    not the counters: the container, although allowed to grow, refuses the next [Acquire] with
    [E_ERROR] whatever the creator would give, and from then on no [AcquireAll] succeeds,
    because [total_] counts [k] connections that no longer exist. *)
Theorem failed_initialize_miscounts now now' outcome max timeout (k : nat) lt use_count evals :
  (0 < k)%nat -> Z.of_nat k < max -> evals <> [] ->
  (forall i, (i < k)%nat -> is_Some (snd (outcome i))) ->
  snd (outcome k) = None -> fst (outcome k) <> E_OK ->
  exists c1 c2,
    Initialize now outcome max timeout false false Container.new = ((fst (outcome k), None), c1) /\
    nodes_ c1 = [] /\ disable_ c1 = false /\ creator_ c1 = true /\
    Container.Acquire now' evals c1 = ((E_ERROR, None), c2) /\
    Container.AcquireAll lt [] use_count [] c2 = ((false, []), c2).
Proof.
  intros Hk Hmax Hev Hgood Hbad Herr.
  destruct (extend_loop_failing now outcome k Hgood Hbad Herr k (InitMembers max timeout false Container.new)) as (c' & He & H1 & H2 & H3 & H4 & H5); [done..|].
  rewrite Nat.sub_diag in He.
  set (c1 := set_details [] (set_nodes [] (count_ c') (total_ c') c')).
  exists c1, (set_nodes [] 0 (total_ c') c1).
  assert (Hi : Initialize now outcome max timeout false false Container.new = ((fst (outcome k), None), c1)).
  { unfold Initialize. replace (Z.to_nat max) with (S k + (Z.to_nat max - S k))%nat by lia.
    rewrite seq_app, map_app. erewrite extend_loop_app; [|exact He|done].
    unfold is_ok. by rewrite bool_decide_eq_false_2. }
  simpl in H1, H2, H3, H4. repeat split; try done.
  - unfold Container.Acquire. destruct evals as [|r rest]; [done|].
    rewrite wait_for_ready by (simpl; lia). simpl. rewrite H4.
    destruct (Z.eqb_spec max 0); [lia|done].
  - rewrite acquire_all_short; cbn [total_ count_ set_nodes set_details]; [done|lia|lia].
Qed.

(** C40: [AcquireAll] by a thread that is alone on a consistent container succeeds exactly
    when every connection is idle and none has a second owner; it then takes all of them.
    Otherwise the container is unchanged. *)
Theorem acquire_all_quiet lt use_count c :
  count_ c = Z.of_nat (length (nodes_ c)) -> count_ c <= total_ c ->
  if IsFull c && all_unshared use_count (nodes_ c)
  then Container.AcquireAll lt [] use_count [] c = ((true, nodes_ c), set_nodes [] 0 (total_ c) c)
  else Container.AcquireAll lt [] use_count [] c = ((false, []), c).
Proof.
  intros Hc Ht. unfold Container.AcquireAll, IsFull. rewrite collect_quiet.
  destruct (Z.ltb_spec 0 (count_ c)) as [Hp|Hz].
  - rewrite (proj2 (Z.ltb_lt 0 (total_ c))) by lia. cbn [andb g_count g_nodes total_ set_nodes].
    rewrite (Z.eqb_sym (count_ c)). destruct (Z.eqb_spec (total_ c) (count_ c)) as [He|Hn]; cbn [negb andb].
    + cbn [all_settle g_nodes]. destruct (all_unshared use_count (nodes_ c)); [done|]. by destruct c.
    + by destruct c.
  - assert (Hn : nodes_ c = []) by (apply length_zero_iff_nil; lia).
    assert (H0 : count_ c = 0) by lia. rewrite andb_false_r. cbn [g_count g_nodes].
    rewrite H0, Hn, (Z.eqb_sym 0). destruct (Z.eqb_spec (total_ c) 0) as [He|Hne]; cbn [negb andb].
    + unfold all_settle. cbn [g_nodes all_unshared forallb]. destruct c. simpl in *. by subst.
    + unfold all_restore. destruct c. simpl in *. by subst.
Qed.

(** *** Witnesses *)

Definition demo_conn : created := (E_OK, Some {| conn_ptr := 50; conn_writer := true |}).

Definition demo_lt (a b : ConnNode) : bool := id_ a <? id_ b.

(** Readers numbered from 100. *)
Definition demo_reader (i : nat) : created := (E_OK, Some {| conn_ptr := 100 + Z.of_nat i; conn_writer := false |}).

(** A container with two connections, one of them lent, and an [AcquireAll] that holds the other. *)
Definition demo_sys : sys :=
  let c0 := snd (Initialize 0 demo_reader 2 1 false false Container.new) in
  let '((_, o), c1) := Acquire 0 [demo_conn] c0 in
  let '(g, c2) := all_take demo_lt {| g_nodes := []; g_count := 0 |} c1 in
  {| box := c2; lent := option_list o; pend := [{| p_gather := g; p_settle := false |}] |}.

(** One more step of a run, [H] being the run so far; the new state is computed. *)
Ltac demo_step H tac :=
  let H' := fresh "Hrun" in
  eassert (H' : reachable demo_lt _ 0 _) by (eapply reach_step; [exact H|tac; vm_compute; reflexivity]);
  clear H; rename H' into H; vm_compute in H; change (fun a b : ConnNode => _) with demo_lt in H.

Ltac demo_open ord H :=
  pose proof (reach_new demo_lt ord 0) as H;
  demo_step H ltac:(eapply (step_initialize _ _ _ 0 demo_reader 2 1 false false); [intros _; split; [exact (List.Forall_nil _)|reflexivity]|]);
  demo_step H ltac:(eapply (step_acquire _ _ _ 0 demo_conn); [intros _; right; exact (List.Forall_nil _)|]).

Ltac demo_gather ord H :=
  demo_open ord H;
  demo_step H ltac:(eapply step_all_start);
  demo_step H ltac:(eapply (step_all_take _ _ _ [])).

Lemma container_accounting_witness :
  reachable demo_lt true 0 demo_sys /\ total_ (box demo_sys) = 2 /\
  total_ (box demo_sys) = Z.of_nat (length (nodes_ (box demo_sys))) + Z.of_nat (length (gathered (pend demo_sys)))
                   + Z.of_nat (length (cur (left_ (box demo_sys)) (ids (lent demo_sys)))).
Proof.
  demo_gather true Hrun. assert (H : reachable demo_lt true 0 demo_sys) by exact Hrun.
  split; [exact H|]. split; [reflexivity|]. apply (container_accounting demo_lt true 0 demo_sys H). reflexivity.
Defined.

(** After the lent connection has come back and been gathered too. *)
Definition demo_settled : sys :=
  let n0 := {| tid_ := 0; id_ := 0; time_ := 0; connect_ := Some {| conn_ptr := 100; conn_writer := false |} |} in
  let n1 := {| tid_ := 0; id_ := 1; time_ := 0; connect_ := Some {| conn_ptr := 101; conn_writer := false |} |} in
  {| box := set_nodes [] 0 2 (box demo_sys); lent := [];
     pend := [{| p_gather := {| g_nodes := [n0; n1]; g_count := 2 |}; p_settle := true |}] |}.

Lemma acquire_all_has_everything_witness :
  reachable demo_lt true 0 demo_settled /\ Z.of_nat 2 = total_ (box demo_settled).
Proof.
  demo_gather true Hrun. demo_step Hrun ltac:(eapply (step_release _ _ _ [])).
  demo_step Hrun ltac:(eapply (step_all_take _ _ _ [])). demo_step Hrun ltac:(eapply (step_all_settle _ _ _ [])).
  assert (H : reachable demo_lt true 0 demo_settled) by exact Hrun.
  split; [exact H|].
  apply (acquire_all_has_everything demo_lt 0 demo_settled [] (p_gather (hd {| p_gather := {| g_nodes := []; g_count := 0 |};
    p_settle := true |} (pend demo_settled))) [] H eq_refl).
Defined.

(** Two connections opened and one lent; [Clear] then comes while it is out. *)
Definition demo_lent : sys :=
  let c0 := snd (Initialize 0 demo_reader 2 1 false false Container.new) in
  let '((_, o), c1) := Acquire 0 [demo_conn] c0 in {| box := c1; lent := option_list o; pend := [] |}.

Lemma stale_release_ignored_witness :
  reachable demo_lt true 0 demo_lent /\ length (lent demo_lent) = 1%nat /\
  Forall (fun n => Release (fun _ => true) n (Clear (box demo_lent)) = Clear (box demo_lent)) (lent demo_lent).
Proof.
  demo_open true Hrun. assert (H : reachable demo_lt true 0 demo_lent) by exact Hrun.
  split; [exact H|]. split; [reflexivity|]. apply Forall_forall. intros n Hn.
  refine (proj1 (stale_release_ignored demo_lt true 0 demo_lent {| box := Clear (box demo_lent); lent := lent demo_lent; pend := pend demo_lent |}
    (fun _ => true) (fun _ => true) n H _ (rtc_refl _ _) Hn)).
  vm_compute. discriminate.
Defined.

(** A [Clear] while an [AcquireAll] holds connections: when that one gives up, it puts connections of
    the closed generation back, more than [total_] counts, and the next [Acquire] hands one out. *)
Theorem clear_brings_stale_back :
  exists s, reachable demo_lt false 0 s /\ total_ (box s) = 0 /\ count_ (box s) = 1 /\
    Forall (fun n => id_ n < left_ (box s)) (nodes_ (box s)) /\
    exists n c', Acquire 1 [demo_conn] (box s) = ((E_OK, Some n), c') /\ id_ n < left_ (box s).
Proof.
  demo_gather false Hrun. demo_step Hrun ltac:(eapply step_clear; [discriminate|vm_compute; discriminate]).
  demo_step Hrun ltac:(eapply (step_all_fail _ _ _ []); [vm_compute; reflexivity|left; vm_compute; discriminate|vm_compute; discriminate]).
  eexists. split; [exact Hrun|]. split; [reflexivity|]. split; [reflexivity|]. split; [repeat constructor|].
  eexists _, _. split; reflexivity.
Qed.

(** A container that is not disabled lends a new connection while an [AcquireAll] waits in its
    second loop; this one then succeeds without having it. *)
Theorem late_acquire_missed :
  exists s n, reachable demo_lt false 0 s /\ pend s = [] /\ n ∈ lent s /\ left_ (box s) <= id_ n /\
    total_ (box s) = 3 /\ length (lent s) = 3%nat /\ id_ n = 2.
Proof.
  demo_gather false Hrun. demo_step Hrun ltac:(eapply (step_release _ _ _ [])).
  demo_step Hrun ltac:(eapply (step_all_take _ _ _ [])). demo_step Hrun ltac:(eapply (step_all_settle _ _ _ [])).
  demo_step Hrun ltac:(eapply (step_acquire _ _ _ 0 demo_conn); [discriminate|]).
  demo_step Hrun ltac:(eapply (step_all_done _ _ _ (fun _ => 1) [])).
  eexists _, _. split; [exact Hrun|]. split; [reflexivity|]. split; [right; right; left|].
  split; [vm_compute; discriminate|]. repeat split.
Qed.

Lemma acquire_branches_witness :
  Acquire 5 [demo_conn] (box demo_sys) =
    ((E_OK, Some {| tid_ := 0; id_ := 2; time_ := 5; connect_ := snd demo_conn |}),
     snd (Acquire 5 [demo_conn] (box demo_sys))).
Proof.
  destruct (acquire_branches 5 (box demo_sys) demo_conn []) as [_ H]; [reflexivity|].
  destruct H as (_ & _ & H); [vm_compute; discriminate|].
  destruct (H eq_refl eq_refl eq_refl) as [H1 _].
  destruct (H1 {| conn_ptr := 50; conn_writer := true |} eq_refl) as (c' & Hc & _). rewrite Hc. reflexivity.
Defined.

(** The second of four readers cannot be opened. *)
Definition demo_outcome (i : nat) : created :=
  if (i <? 1)%nat then (E_OK, Some {| conn_ptr := 9; conn_writer := false |}) else (E_SQLITE_CORRUPT, None).

Lemma failed_initialize_miscounts_witness :
  exists c1 c2,
    Initialize 0 demo_outcome 4 1 false false Container.new = ((E_SQLITE_CORRUPT, None), c1) /\
    Acquire 1 [demo_conn] c1 = ((E_ERROR, None), c2) /\
    AcquireAll demo_lt [] (fun _ => 1) [] c2 = ((false, []), c2).
Proof.
  destruct (failed_initialize_miscounts 0 1 demo_outcome 4 1 1 demo_lt (fun _ => 1) [demo_conn])
    as (c1 & c2 & H1 & _ & _ & _ & H2 & H3);
    [lia|lia|discriminate| |reflexivity|discriminate|exists c1, c2; auto].
  intros i Hi. assert (i = 0)%nat as -> by lia. eexists. reflexivity.
Defined.

Definition demo_idle : Container.t := snd (Initialize 0 demo_reader 2 1 false false Container.new).

Lemma acquire_all_quiet_witness :
  AcquireAll demo_lt [] (fun _ => 1) [] demo_idle = ((true, nodes_ demo_idle), set_nodes [] 0 2 demo_idle).
Proof. apply (acquire_all_quiet demo_lt (fun _ => 1) demo_idle); vm_compute; [reflexivity|discriminate]. Defined.

End ContainerProps.
