(* ===== verification/ConnectionPool.v ===== *)
(** * ConnectionPool (frameworks/native/rdb/src/connection_pool.cpp)

    [Pool]: the pool around its three containers: the connections it lends ([handle], the
    shared pointers whose deleter gives the node back), opening and closing, the limits on
    transactions.  [PoolProps]: the claims on the pool.

    The pool's calls run one after the other here; the interleavings of the container
    operations are in ConnPool.v.  Logging, fault reports and [VerifyAndRegisterHook] are left
    out.  What comes from elsewhere is an argument: the configuration ([config], the getters of
    RdbStoreConfig that the pool reads), the outcomes of [Connection::Create], and [env]: clock,
    thread id, reference counts, the recyclable flag, what [TryCheckPoint] answers. *)
From Stdlib Require Import ZArith Lia.
From stdpp Require Import base list sorting sets relations.
From S2P Require Import Prelude Errno ConnPool.

Local Open Scope Z_scope.

Module Pool.
Import Container.

Inductive role_type := OWNER | VISITOR | VISITOR_WRITE.

(** The getters of RdbStoreConfig that the pool reads. *)
Record config := {
  cfg_initialize : errno;
  cfg_role : role_type;
  cfg_read_only : bool;
  cfg_memory : bool;
  cfg_wal : bool;
  cfg_read_con_size : Z;
  cfg_write_time : Z;
  cfg_read_time : Z;
  cfg_trans_time : Z
}.

Record env := {
  now : Z;
  tid : Z;
  alive : Z -> bool;
  use_count : Connection -> Z;
  recyclable : Connection -> bool;
  checkpoint : bool -> errno;
  ptr_lt : ConnNode -> ConnNode -> bool
}.

Record t := {
  config_ : config;
  writers_ : Container.t;
  readers_ : Container.t;
  trans_ : Container.t;
  maxReader_ : Z;
  transactionUsed_ : bool;
  isAttach_ : bool;
  isInTransaction_ : bool;
  transEnable_ : bool;
  transCount_ : Z;
  failedTime_ : Z
}.

Definition MAX_TRANS : Z := 4.
Definition ITERS_COUNT : nat := 2.
(** [minutes(CHECK_POINT_INTERVAL)] in milliseconds. *)
Definition CHECK_POINT_INTERVAL : Z := 300000.

Definition with_writers (c : Container.t) (p : t) : t :=
  {| config_ := config_ p; writers_ := c; readers_ := readers_ p; trans_ := trans_ p; maxReader_ := maxReader_ p;
     transactionUsed_ := transactionUsed_ p; isAttach_ := isAttach_ p; isInTransaction_ := isInTransaction_ p;
     transEnable_ := transEnable_ p; transCount_ := transCount_ p; failedTime_ := failedTime_ p |}.

Definition with_readers (c : Container.t) (p : t) : t :=
  {| config_ := config_ p; writers_ := writers_ p; readers_ := c; trans_ := trans_ p; maxReader_ := maxReader_ p;
     transactionUsed_ := transactionUsed_ p; isAttach_ := isAttach_ p; isInTransaction_ := isInTransaction_ p;
     transEnable_ := transEnable_ p; transCount_ := transCount_ p; failedTime_ := failedTime_ p |}.

Definition with_trans (c : Container.t) (p : t) : t :=
  {| config_ := config_ p; writers_ := writers_ p; readers_ := readers_ p; trans_ := c; maxReader_ := maxReader_ p;
     transactionUsed_ := transactionUsed_ p; isAttach_ := isAttach_ p; isInTransaction_ := isInTransaction_ p;
     transEnable_ := transEnable_ p; transCount_ := transCount_ p; failedTime_ := failedTime_ p |}.

(** The scalar members. *)
Definition with_flags (maxReader : Z) (used attach inTrans enable : bool) (count failed : Z) (p : t) : t :=
  {| config_ := config_ p; writers_ := writers_ p; readers_ := readers_ p; trans_ := trans_ p;
     maxReader_ := maxReader; transactionUsed_ := used; isAttach_ := attach; isInTransaction_ := inTrans;
     transEnable_ := enable; transCount_ := count; failedTime_ := failed |}.

Definition set_transCount (n : Z) (p : t) : t :=
  with_flags (maxReader_ p) (transactionUsed_ p) (isAttach_ p) (isInTransaction_ p) (transEnable_ p) n (failedTime_ p) p.

Definition set_transEnable (b : bool) (p : t) : t :=
  with_flags (maxReader_ p) (transactionUsed_ p) (isAttach_ p) (isInTransaction_ p) b (transCount_ p) (failedTime_ p) p.

Definition set_failedTime (z : Z) (p : t) : t :=
  with_flags (maxReader_ p) (transactionUsed_ p) (isAttach_ p) (isInTransaction_ p) (transEnable_ p) (transCount_ p) z p.

Definition set_used (b : bool) (p : t) : t :=
  with_flags (maxReader_ p) b (isAttach_ p) (isInTransaction_ p) (transEnable_ p) (transCount_ p) (failedTime_ p) p.

Definition set_reader_state (attach : bool) (maxReader : Z) (p : t) : t :=
  with_flags maxReader (transactionUsed_ p) attach (isInTransaction_ p) (transEnable_ p) (transCount_ p) (failedTime_ p) p.

(** The constructor. *)
Definition new (c : config) : t :=
  {| config_ := c; writers_ := Container.new; readers_ := Container.new;
     trans_ := {| disable_ := true; max_ := 0; total_ := 0; count_ := 0; left_ := MIN_TRANS_ID;
                  right_ := MIN_TRANS_ID; timeout_ := 0; nodes_ := []; details_ := []; creator_ := false |};
     maxReader_ := 0; transactionUsed_ := false; isAttach_ := false; isInTransaction_ := false;
     transEnable_ := true; transCount_ := 0; failedTime_ := 0 |}.

(** [attachConfig_]: the same with the journal in TRUNCATE mode. *)
Definition attachConfig (c : config) : config :=
  {| cfg_initialize := cfg_initialize c; cfg_role := cfg_role c; cfg_read_only := cfg_read_only c;
     cfg_memory := cfg_memory c; cfg_wal := false; cfg_read_con_size := cfg_read_con_size c;
     cfg_write_time := cfg_write_time c; cfg_read_time := cfg_read_time c; cfg_trans_time := cfg_trans_time c |}.

Definition GetMaxReaders (c : config) : Z := if negb (cfg_memory c) && cfg_wal c then cfg_read_con_size c else 0.

(** A lent connection: the node its deleter gives back, and how. *)
Record handle := { h_node : ConnNode; h_isTrans : bool }.

Definition Convert2AutoConn (e : env) (node : option ConnNode) (isTrans : bool) (p : t) : option handle * t :=
  match node with
  | None => (None, p)
  | Some n =>
      let '(conn, n') := GetConnect (now e) (tid e) n in
      match conn with
      | None => (None, p)
      | Some _ =>
          (Some {| h_node := n'; h_isTrans := isTrans |},
           if isTrans then set_transCount (Int.u32 (transCount_ p + 1)) p else p)
      end
  end.

Definition ReleaseNode (e : env) (node : ConnNode) (isTrans : bool) (p : t) : t :=
  let timeout :=
    (failedTime_ p + CHECK_POINT_INTERVAL <? now e) || (now e <? failedTime_ p) || (failedTime_ p =? 0) in
  let transCount := Int.u32 (transCount_ p + Z.b2z (isInTransaction_ p)) in
  let remainCount := Int.i32 (if isTrans then Int.u32 (transCount - 1) else transCount) in
  let '(errCode, node') := Unused (now e) remainCount (checkpoint e timeout) node in
  let p1 :=
    if IsWriter node' && negb (bool_decide (errCode = E_INNER_WARNING)) && negb (bool_decide (errCode = E_NOT_SUPPORT))
    then set_failedTime (if is_ok errCode then 0 else now e) p else p in
  if isTrans then with_trans (ReleaseTrans (alive e) (recyclable e) node' (trans_ p1)) p1
  else if IsWriter node' then with_writers (Release (alive e) node' (writers_ p1)) p1
  else with_readers (Release (alive e) node' (readers_ p1)) p1.

(** The deleter of a lent connection. *)
Definition release (e : env) (h : handle) (p : t) : t :=
  let p1 := ReleaseNode e (h_node h) (h_isTrans h) p in
  if h_isTrans h then set_transCount (Int.u32 (transCount_ p1 - 1)) p1 else p1.

Definition release_all (e : env) (hs : list handle) (p : t) : t := fold_left (fun q h => release e h q) hs p.

Definition Acquire (e : env) (isReadOnly : bool) (evals : list created) (p : t) : option handle * t :=
  let fromReaders := isReadOnly && negb (maxReader_ p =? 0) in
  let '((errCode, node), c') := Container.Acquire (now e) evals (if fromReaders then readers_ p else writers_ p) in
  let p1 := if fromReaders then with_readers c' p else with_writers c' p in
  match node with
  | Some _ => if is_ok errCode then Convert2AutoConn e node false p1 else (None, p1)
  | None => (None, p1)
  end.

(** What [AcquireRef] gives: a lent node, or a bare reference to the writer's connection. *)
Inductive reference := Owned (h : handle) | Shared (k : Connection).

Definition AcquireRef (e : env) (isReadOnly : bool) (evals : list created) (p : t) : option reference * t :=
  if negb (maxReader_ p =? 0) then
    let '(h, p1) := Acquire e isReadOnly evals p in (option_map Owned h, p1)
  else
    let '((errCode, node), c') := Container.Acquire (now e) evals (writers_ p) in
    match node with
    | Some n =>
        if is_ok errCode then (option_map Shared (connect_ n), with_writers (Release (alive e) n c') p)
        else (None, with_writers c' p)
    | None => (None, with_writers c' p)
    end.

(** The test at the beginning of [CreateTransConn], and what it does when the test is passed:
    other threads may act in between. *)
Definition trans_refused (limited : bool) (p : t) : bool :=
  negb (transEnable_ p) || ((MAX_TRANS <=? transCount_ p) && limited).

Definition take_trans (e : env) (evals : list created) (p : t) : (errno * option handle) * t :=
  let '((errCode, node), c') := Container.Acquire (now e) evals (trans_ p) in
  let '(h, p1) := Convert2AutoConn e node true (with_trans c' p) in
  ((errCode, h), p1).

Definition CreateTransConn (e : env) (limited : bool) (evals : list created) (p : t)
    : (errno * option handle) * t :=
  if trans_refused limited p then ((E_DATABASE_BUSY, None), p) else take_trans e evals p.

(** Turning gathered nodes into lent connections, in order. *)
Fixpoint convert_all (e : env) (isTrans : bool) (ns : list ConnNode) (p : t) : list handle * t :=
  match ns with
  | [] => ([], p)
  | n :: rest =>
      let '(h, p1) := Convert2AutoConn e (Some n) isTrans p in
      let '(hs, p2) := convert_all e isTrans rest p1 in
      (option_list h ++ hs, p2)
  end.

(** What the waits of one [Container::AcquireAll] see. *)
Record waits := {
  w_env : list (Container.t -> Container.t);
  w_env2 : list ((Container.t -> Container.t) * (Connection -> Z))
}.

Definition all_of (e : env) (w : waits) (c : Container.t) : (bool * list ConnNode) * Container.t :=
  Container.AcquireAll (ptr_lt e) (w_env w) (use_count e) (w_env2 w) c.

(** [AcquireContainer] on the container that [get] reads and [put] writes. *)
Definition AcquireContainer (e : env) (w : waits) (get : t -> Container.t) (put : Container.t -> t -> t) (p : t)
    : (errno * list handle) * t :=
  let '((res, nodes), c') := all_of e w (Disable (get p)) in
  if negb res then ((E_ERROR, []), put (Enable c') p)
  else let '(hs, p1) := convert_all e false nodes (put c' p) in ((E_OK, hs), p1).

(** [AcquireAll]; [used1] and [used2] are the times the clock shows at its two checks.  A
    failure releases what was lent so far; the transaction connections are released on return
    in any case, since only the writer and the readers are in the result. *)
Definition AcquireAll (e : env) (ms used1 used2 : Z) (ww wr wt : waits) (p : t)
    : (option handle * list handle) * t :=
  let '((res, writerNodes), cw) := all_of e ww (writers_ p) in
  let p1 := with_writers cw p in
  if negb res then ((None, []), p1)
  else
    let '(writer, p2) := Convert2AutoConn e (head writerNodes) false p1 in
    let back := option_list writer in
    match writerNodes, writer with
    | _ :: _, None => ((None, []), p2)
    | _, _ =>
        if ms <=? used1 then ((None, []), release_all e back p2)
        else if maxReader_ p2 =? 0 then ((writer, []), p2)
        else
          let '((readersErr, readers), p3) := AcquireContainer e wr readers_ with_readers p2 in
          if negb (is_ok readersErr) then ((None, []), release_all e (readers ++ back) p3)
          else if ms <=? used2 then ((None, []), release_all e (readers ++ back) p3)
          else
            let '((transErr, trans), p4) := AcquireContainer e wt trans_ with_trans p3 in
            if negb (is_ok transErr) then ((None, []), release_all e (trans ++ readers ++ back) p4)
            else ((writer, readers), release_all e trans p4)
    end.

Definition AcquireAndDisableTrans (e : env) (w : waits) (p : t) : (errno * list handle) * t :=
  let p0 := set_transEnable false p in
  let '((res, nodes), c') := all_of e w (trans_ p0) in
  let p1 := with_trans c' p0 in
  if negb res then ((E_DATABASE_BUSY, []), set_transEnable true p1)
  else let '(hs, p2) := convert_all e true nodes p1 in ((E_OK, hs), p2).

Definition EnableTrans (p : t) : t := set_transEnable true p.

(** [AcquireById]: its deleter calls [Container::Release] only. *)
Definition AcquireById (isReadOnly : bool) (id : Z) (p : t) : option ConnNode * t :=
  let '(node, c') := Container.AcquireById id (if isReadOnly then readers_ p else writers_ p) in
  let p1 := if isReadOnly then with_readers c' p else with_writers c' p in
  match node with
  | Some n => (match connect_ n with Some _ => node | None => None end, p1)
  | None => (None, p1)
  end.

Definition release_by_id (e : env) (n : ConnNode) (p : t) : t :=
  if IsWriter n then with_writers (Release (alive e) n (writers_ p)) p
  else with_readers (Release (alive e) n (readers_ p)) p.

(** The readers' loop of [ClearCache]: the next node is taken before the last one is given
    back; the visited ids are collected.  [fuel] bounds the rounds. *)
Fixpoint clear_readers (fuel : nat) (e : env) (n : ConnNode) (p : t) : list Z * t :=
  match fuel with
  | O => ([], p)
  | S fuel' =>
      let '(next, p1) := AcquireById true (id_ n) p in
      let p2 := release_by_id e n p1 in
      match next with
      | None => ([id_ n], p2)
      | Some m => let '(ids, p3) := clear_readers fuel' e m p2 in (id_ n :: ids, p3)
      end
  end.

(** [ClearCache]: the ids of the connections whose cache is cleared, in order. *)
Definition ClearCache (e : env) (p : t) : list Z * t :=
  let '(w, p1) := AcquireById false START_NODE_ID p in
  let '(wids, p2) := match w with Some n => ([id_ n], release_by_id e n p1) | None => ([], p1) end in
  let '(r, p3) := AcquireById true START_NODE_ID p2 in
  match r with
  | None => (wids, p3)
  | Some n =>
      let '(rids, p4) := clear_readers (S (length (nodes_ (readers_ p3)))) e n p3 in
      (wids ++ rids, p4)
  end.

Definition CloseAllConnections (p : t) : t :=
  with_trans (Clear (trans_ p)) (with_readers (Clear (readers_ p)) (with_writers (Clear (writers_ p)) p)).

(** The outcomes of [Connection::Create] during one opening. *)
Record creation := { mk_writer : nat -> created; mk_reader : nat -> created }.

Definition writable (c : config) : bool :=
  match cfg_role c with OWNER | VISITOR_WRITE => negb (cfg_read_only c) | VISITOR => false end.

(** The second half of [Init]: the readers. *)
Definition init_readers (e : env) (k : creation) (cfg : config) (isAttach : bool) (conn : option handle) (p : t)
    : (errno * option handle) * t :=
  let max := GetMaxReaders cfg in
  let p1 := set_reader_state isAttach max p in
  if 64 <? max then ((E_ARGS_READ_CON_OVERLOAD, None), release_all e (option_list conn) p1)
  else
    let '((ret, _), cr) := Initialize (now e) (mk_reader k) max (cfg_read_time cfg) (max =? 0) false (readers_ p1) in
    ((ret, conn), with_readers cr p1).

Definition Init (e : env) (k : creation) (isAttach needWriter : bool) (p : t) : (errno * option handle) * t :=
  let cfg := if isAttach then attachConfig (config_ p) else config_ p in
  if negb (is_ok (cfg_initialize cfg)) then ((cfg_initialize cfg, None), p)
  else if writable cfg then
    let '((errCode, node), cw) :=
      Initialize (now e) (mk_writer k) 1 (cfg_write_time cfg) true needWriter (writers_ p) in
    let '(conn, p1) := Convert2AutoConn e node false (with_writers cw p) in
    if negb (is_ok errCode) then ((errCode, conn), p1)
    else init_readers e k cfg isAttach conn
           (with_trans (InitMembers MAX_TRANS (cfg_trans_time cfg) false (trans_ p1)) p1)
  else init_readers e k cfg isAttach None p.

Definition RestartConns (e : env) (k : creation) (p : t) : errno * t :=
  let cfg := if isAttach_ p then attachConfig (config_ p) else config_ p in
  let '((errCode, _), cr) :=
    Initialize (now e) (mk_reader k) (maxReader_ p) (cfg_read_time cfg) (maxReader_ p =? 0) false (Clear (readers_ p)) in
  (errCode,
   with_trans (InitMembers MAX_TRANS (cfg_trans_time cfg) false (Clear (trans_ p))) (with_readers cr p)).

(** A lent connection nobody keeps is released at once. *)
Definition discard (e : env) (r : (errno * option handle) * t) : errno * t :=
  (fst (fst r), release_all e (option_list (snd (fst r))) (snd r)).

Definition ReopenConns (e : env) (k : creation) (p : t) : errno * t :=
  discard e (Init e k false false (CloseAllConnections p)).

(** [Rekey]; [outcome] is what [Connection::Rekey] answers, [k1] and [k2] are the creations of
    the two openings. *)
Definition Rekey (e : env) (ms used1 used2 : Z) (ww wr wt : waits) (outcome : errno) (k1 k2 : creation) (p : t)
    : errno * t :=
  let '((connection, readers), p1) := AcquireAll e ms used1 used2 ww wr wt p in
  match connection with
  | None => (E_DATABASE_BUSY, release_all e readers p1)
  | Some h =>
      let p2 := release_all e readers (CloseAllConnections p1) in
      if negb (is_ok outcome) then (outcome, release e h p2)
      else
        let '(err1, p3) := discard e (Init e k1 false false (release e h p2)) in
        if negb (is_ok err1) then discard e (Init e k2 false false p3) else (E_OK, p3)
  end.

Definition DisableWal (e : env) (k : creation) (p : t) : (errno * option handle) * t := Init e k true true p.

Definition EnableWal (e : env) (k : creation) (p : t) : errno * t := discard e (Init e k false false p).

(** The retries of [Create] while the file is reported corrupt. *)
Fixpoint create_loop (rounds : nat) (e : env) (k : nat -> creation) (i : nat) (errCode : errno) (p : t) : errno * t :=
  match rounds with
  | O => (errCode, p)
  | S rounds' =>
      let '(err, p1) := discard e (Init e (k i) false false p) in
      if bool_decide (err = E_SQLITE_CORRUPT) then create_loop rounds' e k (S i) err p1 else (err, p1)
  end.

Definition Create (e : env) (k : nat -> creation) (c : config) : errno * option t :=
  let '(err, p) := create_loop ITERS_COUNT e k 0 E_OK (new c) in
  (err, if is_ok err then Some p else None).

(** [AcquireTransaction]: one evaluation of [!transactionUsed_] per element of [env], which is
    what other threads store in it meanwhile. *)
Fixpoint AcquireTransaction (others : list bool) (p : t) : errno * t :=
  if negb (transactionUsed_ p) then (E_OK, set_used true p)
  else
    match others with
    | [] => (E_DATABASE_BUSY, p)
    | b :: rest => AcquireTransaction rest (set_used b p)
    end.

Definition ReleaseTransaction (p : t) : t := set_used false p.

(** [ConfigLocale] and [SetTokenizer]: readers, writers, transactions, until one fails. *)
Definition each_container (f : Container.t -> errno * Container.t) (p : t) : errno * t :=
  let '(e1, cr) := f (readers_ p) in
  let p1 := with_readers cr p in
  if negb (is_ok e1) then (e1, p1)
  else
    let '(e2, cw) := f (writers_ p1) in
    let p2 := with_writers cw p1 in
    if negb (is_ok e2) then (e2, p2)
    else let '(e3, ct) := f (trans_ p2) in (e3, with_trans ct p2).

Definition ConfigLocale (e : env) (op : Z -> errno) (p : t) : errno * t :=
  each_container (Container.ConfigLocale (alive e) op) p.

Definition SetTokenizer (e : env) (op : Z -> errno) (p : t) : errno * t :=
  each_container (Container.SetTokenizer (alive e) op) p.

(** [Interrupt]: bits 1, 2 and 4 select readers, writers and transactions. *)
Definition Interrupt (e : env) (type : Z) (p : t) : t :=
  let p1 := if Z.land type 1 =? 0 then p else with_readers (snd (Container.Interrupt (alive e) (readers_ p))) p in
  let p2 := if Z.land type 2 =? 0 then p1 else with_writers (snd (Container.Interrupt (alive e) (writers_ p1))) p1 in
  if Z.land type 4 =? 0 then p2 else with_trans (snd (Container.Interrupt (alive e) (trans_ p2))) p2.

End Pool.

(** ** The claims *)

Module PoolProps.
Import Container ContainerInv ContainerProps Pool.

(** A container after [Clear]: it lends nothing and takes nothing back. *)
Definition closed (c : Container.t) : Prop := left_ c = right_ c /\ count_ c = 0 /\ nodes_ c = [] /\ disable_ c = true.

Definition pool_closed (p : Pool.t) : Prop := closed (writers_ p) /\ closed (readers_ p) /\ closed (trans_ p).

Lemma closed_clear c : closed (Clear c).
Proof. done. Qed.

Lemma closed_release al rec n c : closed c -> Release al n c = c /\ ReleaseTrans al rec n c = c.
Proof.
  intros [H _]. unfold Release, ReleaseTrans, outside. rewrite H.
  destruct (Z.ltb_spec (id_ n) (right_ c)); [done|]. by rewrite (proj2 (Z.leb_le _ _)).
Qed.

Lemma closed_acquire now evals c : closed c -> exists err, Container.Acquire now evals c = ((err, None), c).
Proof.
  intros (_ & Hc & _ & Hd). unfold Container.Acquire. destruct (max_ c =? 0); [by eexists|].
  rewrite wait_for_disabled by (try done; lia). by eexists.
Qed.

Lemma pool_closed_release e h p : pool_closed p -> pool_closed (release e h p).
Proof.
  intros (Hw & Hr & Ht). unfold release, ReleaseNode.
  destruct (Unused _ _ _ _) as [err n']. cbv zeta.
  match goal with |- context [if ?b then set_failedTime ?z p else p] => set (p1 := if b then set_failedTime z p else p) end.
  assert (H1 : writers_ p1 = writers_ p /\ readers_ p1 = readers_ p /\ trans_ p1 = trans_ p)
    by (unfold p1; by case_match).
  destruct H1 as (H1 & H2 & H3). unfold pool_closed.
  destruct (h_isTrans h); [|destruct (IsWriter n')]; cbn; rewrite ?H1, ?H2, ?H3;
    rewrite ?(proj1 (closed_release _ (recyclable e) _ _ Hw)), ?(proj1 (closed_release _ (recyclable e) _ _ Hr)),
      ?(proj2 (closed_release _ _ _ _ Ht)); done.
Qed.

Lemma pool_closed_release_all e hs : forall p, pool_closed p -> pool_closed (release_all e hs p).
Proof.
  induction hs as [|h hs IH]; intros p H; [done|]. simpl. apply IH. by apply pool_closed_release.
Qed.

(** A closed pool lends nothing. *)
Lemma pool_closed_refuses p : pool_closed p ->
  (forall e ro evals, fst (Pool.Acquire e ro evals p) = None) /\
  (forall e limited evals, snd (fst (CreateTransConn e limited evals p)) = None).
Proof.
  intros (Hw & Hr & Ht). split.
  - intros e ro evals. unfold Pool.Acquire.
    assert (Hc : closed (if ro && negb (maxReader_ p =? 0) then readers_ p else writers_ p)) by (by case_match).
    destruct (closed_acquire (now e) evals _ Hc) as [err ->]. done.
  - intros e limited evals. unfold CreateTransConn, take_trans. case_match; [done|].
    destruct (closed_acquire (now e) evals _ Ht) as [err ->]. done.
Qed.

(** When [Connection::Rekey] fails, the pool has already closed all its connections and
    does not open them again: from then on it lends no connection, neither for reading nor
    writing nor for a transaction, whatever the creators would give. *)
Theorem failed_rekey_leaves_pool_closed e ms used1 used2 ww wr wt outcome k1 k2 p h readers p1 :
  Pool.AcquireAll e ms used1 used2 ww wr wt p = ((Some h, readers), p1) -> outcome <> E_OK ->
  exists p', Rekey e ms used1 used2 ww wr wt outcome k1 k2 p = (outcome, p') /\
    (forall e' ro evals, fst (Pool.Acquire e' ro evals p') = None) /\
    (forall e' limited evals, snd (fst (CreateTransConn e' limited evals p')) = None).
Proof.
  intros Ha Ho. unfold Rekey. rewrite Ha. unfold is_ok. rewrite bool_decide_eq_false_2 by done. simpl.
  eexists. split; [done|]. apply pool_closed_refuses, pool_closed_release, pool_closed_release_all. done.
Qed.

Lemma convert_pool e n p : snd (Convert2AutoConn e n false p) = p.
Proof. unfold Convert2AutoConn. destruct n as [n|]; [|done]. simpl. by case_match. Qed.

Lemma convert_all_pool e ns : forall p, snd (convert_all e false ns p) = p.
Proof.
  induction ns as [|n ns IH]; intros p; [done|]. cbn [convert_all].
  pose proof (convert_pool e (Some n) p) as H1. destruct (Convert2AutoConn _ _ _ _) as [h p1]. simpl in H1. subst p1.
  specialize (IH p). by destruct (convert_all e false ns p).
Qed.

Lemma release_disable al n c : disable_ (Release al n c) = disable_ c.
Proof. unfold Release. by repeat case_match. Qed.

Lemma release_trans_disable al rec n c : disable_ (ReleaseTrans al rec n c) = disable_ c.
Proof. unfold ReleaseTrans. by repeat case_match. Qed.

(** Giving connections back opens or closes no container to growth. *)
Lemma release_flags e h p :
  disable_ (readers_ (release e h p)) = disable_ (readers_ p) /\ disable_ (trans_ (release e h p)) = disable_ (trans_ p).
Proof.
  unfold release, ReleaseNode. destruct (Unused _ _ _ _) as [err n'].
  repeat case_match; cbn; rewrite ?release_disable, ?release_trans_disable; done.
Qed.

Lemma release_all_flags e hs : forall p,
  disable_ (readers_ (release_all e hs p)) = disable_ (readers_ p) /\
  disable_ (trans_ (release_all e hs p)) = disable_ (trans_ p).
Proof.
  induction hs as [|h hs IH]; intros p; [done|]. simpl.
  destruct (IH (release e h p)) as [-> ->]. apply release_flags.
Qed.

(** [AcquireAll] that has the writer and the readers but fails on the transactions
    enables the transaction container again, but leaves the readers disabled: they no longer
    grow when all of them are in use. *)
Theorem acquire_all_leaves_readers_disabled e ms used1 used2 ww wr wt p n ns cw rn cr tn ct :
  all_of e ww (writers_ p) = ((true, n :: ns), cw) -> is_Some (connect_ n) ->
  used1 < ms -> used2 < ms -> maxReader_ p <> 0 ->
  all_of e wr (Disable (readers_ p)) = ((true, rn), cr) -> disable_ cr = true ->
  all_of e wt (Disable (trans_ p)) = ((false, tn), ct) ->
  exists p', Pool.AcquireAll e ms used1 used2 ww wr wt p = ((None, []), p') /\
    disable_ (readers_ p') = true /\ disable_ (trans_ p') = false.
Proof.
  intros Hw [k Hk] H1 H2 Hm Hr Hd Ht. unfold Pool.AcquireAll. rewrite Hw. cbn [negb head].
  unfold Convert2AutoConn. cbn [GetConnect]. unfold GetConnect. rewrite Hk.
  rewrite (proj2 (Z.leb_gt _ _) H1). cbn [maxReader_ with_writers].
  rewrite (proj2 (Z.eqb_neq _ _) Hm). unfold AcquireContainer at 1. cbn [readers_ with_writers].
  rewrite Hr. cbn [negb]. pose proof (convert_all_pool e rn (with_readers cr (with_writers cw p))) as Hc.
  destruct (convert_all e false rn _) as [hs p3]. simpl in Hc. subst p3.
  ok_simpl. rewrite (proj2 (Z.leb_gt _ _) H2).
  unfold AcquireContainer. cbn [trans_ with_readers with_writers]. rewrite Ht. cbn [negb].
  ok_simpl. eexists. split; [done|].
  destruct (release_all_flags e ([] ++ hs ++ option_list (Some
    {| h_node := {| tid_ := tid e; id_ := id_ n; time_ := now e; connect_ := Some k |}; h_isTrans := false |}))
    (with_trans (Enable ct) (with_readers cr (with_writers cw p)))) as [-> ->].
  done.
Qed.

(** *** The transaction limit *)

Definition trans_handles (hs : list handle) : list handle := List.filter h_isTrans hs.

(** Calls on a pool, with the connections [hs] they have lent.  A call of [CreateTransConn] is two
    steps, its test and the rest; [a] calls are between the two, never more than [width] at a time.
    [u] counts what is lent without the test of the limit: calls of [CreateTransConn] that are not
    limited, and the connections [AcquireAndDisableTrans] takes. *)
Inductive calls (width : nat) : Pool.t -> list handle -> nat -> nat -> Prop :=
| calls_new c : calls width (Pool.new c) [] 0 0
| calls_init p hs a u e k isAttach needWriter err h p' :
    calls width p hs a u -> Init e k isAttach needWriter p = ((err, h), p') -> calls width p' (option_list h ++ hs) a u
| calls_acquire p hs a u e ro evals h p' :
    calls width p hs a u -> Pool.Acquire e ro evals p = (h, p') -> calls width p' (option_list h ++ hs) a u
| calls_all p hs a u e ms used1 used2 ww wr wt h rs p' :
    calls width p hs a u -> Pool.AcquireAll e ms used1 used2 ww wr wt p = ((h, rs), p') ->
    calls width p' (option_list h ++ rs ++ hs) a u
| calls_disable p hs a u e w err ts p' :
    calls width p hs a u -> AcquireAndDisableTrans e w p = ((err, ts), p') -> calls width p' (ts ++ hs) a (length ts + u)
| calls_test p hs a u limited :
    calls width p hs a u -> trans_refused limited p = false -> (a < width)%nat ->
    calls width p hs (S a) (if limited then u else S u)
| calls_take p hs a u e evals err h p' :
    calls width p hs (S a) u -> take_trans e evals p = ((err, h), p') -> calls width p' (option_list h ++ hs) a u
| calls_release p l1 h l2 a u e : calls width p (l1 ++ h :: l2) a u -> calls width (release e h p) (l1 ++ l2) a u
| calls_close p hs a u : calls width p hs a u -> calls width (CloseAllConnections p) hs a u
| calls_restart p hs a u e k err p' : calls width p hs a u -> RestartConns e k p = (err, p') -> calls width p' hs a u
| calls_enable p hs a u : calls width p hs a u -> calls width (EnableTrans p) hs a u.

Lemma convert_plain e n p h p' :
  Convert2AutoConn e n false p = (h, p') -> p' = p /\ trans_handles (option_list h) = [].
Proof. unfold Convert2AutoConn. destruct n as [n|]; simpl; [case_match|]; intros [= <- <-]; done. Qed.

Lemma release_node_count e n b p : transCount_ (ReleaseNode e n b p) = transCount_ p.
Proof. unfold ReleaseNode. destruct (Unused _ _ _ _) as [err n']. by repeat case_match. Qed.

Lemma release_plain_all e hs : forall p,
  trans_handles hs = [] -> transCount_ (release_all e hs p) = transCount_ p.
Proof.
  induction hs as [|h hs IH]; intros p H; [done|]. simpl in H |- *. destruct (h_isTrans h) eqn:Hh; [done|].
  rewrite IH by done. unfold release. rewrite Hh. apply release_node_count.
Qed.

Lemma init_readers_count e k cfg a conn p err h p' :
  trans_handles (option_list conn) = [] -> init_readers e k cfg a conn p = ((err, h), p') ->
  transCount_ p' = transCount_ p /\ trans_handles (option_list h) = [].
Proof.
  intros Hc. unfold init_readers. case_match.
  - intros [= <- <- <-]. by rewrite release_plain_all.
  - destruct (Initialize _ _ _ _ _ _ _) as [[ret o] cr]. by intros [= <- <- <-].
Qed.

Lemma init_count e k a w p err h p' :
  Init e k a w p = ((err, h), p') -> transCount_ p' = transCount_ p /\ trans_handles (option_list h) = [].
Proof.
  unfold Init. generalize (if a then attachConfig (config_ p) else config_ p). intros cfg.
  destruct (negb _); [by intros [= <- <- <-]|]. destruct (writable cfg); [|by apply init_readers_count].
  destruct (Initialize _ _ _ _ _ _ _) as [[e1 o] cw]. destruct (Convert2AutoConn _ _ _ _) as [conn p1] eqn:Hc.
  apply convert_plain in Hc as [-> Hc]. case_match; [by intros [= <- <- <-]|].
  intros Hi. by apply init_readers_count in Hi.
Qed.

Lemma trans_handles_app l1 l2 : trans_handles (l1 ++ l2) = trans_handles l1 ++ trans_handles l2.
Proof. apply List.filter_app. Qed.

Abbreviation out hs := (Z.of_nat (length (trans_handles hs))).

Lemma convert_all_plain e ns : forall p, trans_handles (fst (convert_all e false ns p)) = [].
Proof.
  induction ns as [|n ns IH]; intros p; [done|]. cbn [convert_all].
  destruct (Convert2AutoConn e (Some n) false p) as [h p1] eqn:E. apply convert_plain in E as [-> Hh].
  specialize (IH p). destruct (convert_all e false ns p) as [hs p2]. cbn [fst] in *. by rewrite trans_handles_app, Hh.
Qed.

(** The nodes of [AcquireAndDisableTrans] are lent as transaction connections, each of them counted. *)
Lemma convert_all_counts e ns : forall p n,
  transCount_ p = Int.u32 n ->
  let '(hs, p') := convert_all e true ns p in
  trans_handles hs = hs /\ transCount_ p' = Int.u32 (n + Z.of_nat (length hs)).
Proof.
  induction ns as [|x ns IH]; intros p n Hn; cbn [convert_all]; [by rewrite Z.add_0_r|].
  unfold Convert2AutoConn, GetConnect. destruct (connect_ x).
  - specialize (IH (set_transCount (Int.u32 (transCount_ p + 1)) p) (n + 1)).
    destruct (convert_all _ _ _ _) as [hs p']. destruct IH as [IH1 IH2].
    { cbn. rewrite Hn. unfold Int.u32, Int.wrap. by rewrite Zplus_mod_idemp_l. }
    rewrite trans_handles_app, IH1, IH2, length_app. split; [done|]. f_equal. cbn. lia.
  - specialize (IH p n Hn). by destruct (convert_all _ _ _ _).
Qed.

Lemma acquire_container_plain e w get put p err hs p' :
  (forall c q, transCount_ (put c q) = transCount_ q) -> AcquireContainer e w get put p = ((err, hs), p') ->
  transCount_ p' = transCount_ p /\ trans_handles hs = [].
Proof.
  intros Hput. unfold AcquireContainer. destruct (all_of _ _ _) as [[res nodes] c']. destruct res; cbn [negb].
  - pose proof (convert_all_plain e nodes (put c' p)) as Hp. pose proof (convert_all_pool e nodes (put c' p)) as Hq.
    destruct (convert_all _ _ _ _) as [hs' p1]. cbn [fst snd] in *. subst. intros [= <- <- <-]. auto.
  - intros [= <- <- <-]. auto.
Qed.

Lemma acquire_all_plain e ms used1 used2 ww wr wt p h rs p' :
  Pool.AcquireAll e ms used1 used2 ww wr wt p = ((h, rs), p') ->
  transCount_ p' = transCount_ p /\ trans_handles (option_list h ++ rs) = [].
Proof.
  unfold Pool.AcquireAll. destruct (all_of e ww _) as [[res nodes] cw]. destruct res; cbn [negb]; [|by intros [= <- <- <-]].
  destruct (Convert2AutoConn _ _ _ _) as [writer p2] eqn:E. apply convert_plain in E as [-> Hw].
  set (p1 := with_writers cw p). assert (Hp1 : transCount_ p1 = transCount_ p) by done. clearbody p1. intros He.
  assert (Hrest : (if ms <=? used1 then ((None, []), release_all e (option_list writer) p1)
    else if maxReader_ p1 =? 0 then ((writer, []), p1)
    else let '((readersErr, readers), p3) := AcquireContainer e wr readers_ with_readers p1 in
      if negb (is_ok readersErr) then ((None, []), release_all e (readers ++ option_list writer) p3)
      else if ms <=? used2 then ((None, []), release_all e (readers ++ option_list writer) p3)
      else let '((transErr, trans), p4) := AcquireContainer e wt trans_ with_trans p3 in
        if negb (is_ok transErr) then ((None, []), release_all e (trans ++ readers ++ option_list writer) p4)
        else ((writer, readers), release_all e trans p4)) = ((h, rs), p') \/ ((None, []), p1) = ((h, rs), p'))
    by (destruct nodes as [|x nodes]; [by left|]; destruct writer; [by left|by right]).
  clear He. destruct Hrest as [He|[= <- <- <-]]; [|done].
  destruct (ms <=? used1); [injection He as <- <- <-; by rewrite release_plain_all|].
  destruct (maxReader_ p1 =? 0); [injection He as <- <- <-; by rewrite app_nil_r|].
  destruct (AcquireContainer e wr _ _ _) as [[e1 rs1] p3] eqn:E1.
  apply acquire_container_plain in E1 as [Hp3 Hr1]; [|done].
  assert (Hb : trans_handles (rs1 ++ option_list writer) = []) by (by rewrite trans_handles_app, Hr1, Hw).
  destruct (negb (is_ok e1)); [injection He as <- <- <-; rewrite release_plain_all by done; by rewrite Hp3|].
  destruct (ms <=? used2); [injection He as <- <- <-; rewrite release_plain_all by done; by rewrite Hp3|].
  destruct (AcquireContainer e wt _ _ _) as [[e2 ts] p4] eqn:E2.
  apply acquire_container_plain in E2 as [Hp4 Hr2]; [|done].
  assert (Ht : trans_handles (ts ++ rs1 ++ option_list writer) = []) by (by rewrite trans_handles_app, Hr2, Hb).
  destruct (negb (is_ok e2)); injection He as <- <- <-; rewrite release_plain_all by done; rewrite Hp4, Hp3.
  - done.
  - by rewrite trans_handles_app, Hw, Hr1.
Qed.

(** The number of connections that are out, and of those a call is about to take. *)
Lemma calls_bound width p hs a u :
  calls width p hs a u ->
  transCount_ p = Int.u32 (out hs) /\
  (MAX_TRANS + Z.of_nat width + Z.of_nat u < 2 ^ 32 ->
     out hs + Z.of_nat a < MAX_TRANS + Z.of_nat width + Z.of_nat u) /\ (a <= width)%nat.
Proof.
  induction 1 as [c|p hs a u e k at_ w err h p' _ (IH1 & IH2 & IH3) Hi|p hs a u e ro evals h p' _ (IH1 & IH2 & IH3) Ha
    |p hs a u e ms u1 u2 ww wr wt h rs p' _ (IH1 & IH2 & IH3) Ha|p hs a u e w err ts p' _ (IH1 & IH2 & IH3) Ha
    |p hs a u limited _ (IH1 & IH2 & IH3) Ht Hlt|p hs a u e evals err h p' _ (IH1 & IH2 & IH3) Ha
    |p l1 h l2 a u e _ (IH1 & IH2 & IH3)|p hs a u _ IH|p hs a u e k err p' _ IH Hr|p hs a u _ IH]; try exact IH.
  - split; [done|]. unfold MAX_TRANS. cbn. lia.
  - apply init_count in Hi as [-> Hh]. by rewrite trans_handles_app, Hh.
  - unfold Pool.Acquire in Ha. destruct (Container.Acquire _ _ _) as [[e1 o] c'].
    cut (transCount_ p' = transCount_ p /\ trans_handles (option_list h) = []).
    { intros [-> Hh]. by rewrite trans_handles_app, Hh. }
    repeat case_match; simplify_eq; try done; by apply convert_plain in Ha as [-> ?].
  - apply acquire_all_plain in Ha as [-> Hh]. by rewrite app_assoc, trans_handles_app, Hh.
  - unfold AcquireAndDisableTrans in Ha. destruct (all_of _ _ _) as [[res nodes] c']. destruct res; cbn [negb] in Ha;
      [|injection Ha as _ <- <-; split; [exact IH1|split; [exact IH2|exact IH3]]].
    pose proof (convert_all_counts e nodes (with_trans c' (set_transEnable false p)) (out hs) IH1) as Hc.
    destruct (convert_all _ _ _ _) as [ts' p2]. injection Ha as _ <- <-. destruct Hc as [Hc1 Hc2].
    rewrite trans_handles_app, Hc1, length_app, Hc2. split; [f_equal; lia|]. split; [|done]. intros Hu. lia.
  - split; [done|]. split; [|done]. intros Hu. unfold trans_refused in Ht. apply orb_false_iff in Ht as [_ Ht].
    destruct limited; [|specialize (IH2 ltac:(lia)); lia]. rewrite andb_true_r, IH1 in Ht. apply Z.leb_gt in Ht.
    specialize (IH2 Hu). rewrite Int.u32_small in Ht by lia. lia.
  - unfold take_trans in Ha. destruct (Container.Acquire _ _ _) as [[e1 o] c']. unfold Convert2AutoConn in Ha.
    destruct o as [n|]; [unfold GetConnect in Ha; destruct (connect_ n)|]; cbn in Ha; simplify_eq;
      change (option_list (@None handle) ++ hs) with hs; [|split; [done|split; [intros Hu; specialize (IH2 Hu); lia|lia]]..].
    rewrite trans_handles_app, length_app. replace (length (trans_handles (option_list _))) with 1%nat by done. cbn [transCount_ set_transCount with_flags].
    split; [|split; [intros Hu; specialize (IH2 Hu); lia|lia]].
    rewrite IH1. unfold Int.u32, Int.wrap. rewrite Zplus_mod_idemp_l. f_equal. lia.
  - rewrite trans_handles_app in *.
    change (trans_handles (h :: l2)) with (if h_isTrans h then h :: trans_handles l2 else trans_handles l2) in *.
    unfold release. destruct (h_isTrans h).
    + cbn [transCount_ set_transCount with_flags]. rewrite release_node_count, IH1. rewrite !length_app in IH2 |- *. cbn [length] in IH2 |- *.
      split; [|split; [intros Hu; specialize (IH2 Hu); rewrite length_app; lia|done]].
      unfold Int.u32, Int.wrap. rewrite Zminus_mod_idemp_l. f_equal. rewrite ?length_app; cbn [length]; lia.
    + by rewrite release_node_count.
  - unfold RestartConns in Hr. destruct (Initialize _ _ _ _ _ _ _) as [[e1 o] cr]. by injection Hr as _ <-.
Qed.

(** C14: However the calls on a pool interleave, [transCount_] is the number of transaction connections that
    are out (as long as [MAX_TRANS + width + u], below, is less than 2^32).  A limited [CreateTransConn] that finds [MAX_TRANS] or more of them out is refused with
    [E_DATABASE_BUSY] and nothing changes.  The test of the limit and the increment are not one step,
    calls may be not limited ([BeginTrans] of a vector store) and [AcquireAndDisableTrans] takes
    connections without the test: with at most [width] calls of [CreateTransConn] running at the same time
    and [u] connections lent past the limit so far, fewer than [MAX_TRANS + width + u] connections
    are out; in particular limited calls that come one after the other never have more than
    [MAX_TRANS] out. *)
Theorem transaction_limit width p hs a u :
  calls width p hs a u -> MAX_TRANS + Z.of_nat width + Z.of_nat u < 2 ^ 32 ->
  transCount_ p = out hs /\ out hs < MAX_TRANS + Z.of_nat width + Z.of_nat u /\
  (MAX_TRANS <= out hs -> forall e evals, CreateTransConn e true evals p = ((E_DATABASE_BUSY, None), p)).
Proof.
  intros Hc Hu. destruct (calls_bound width p hs a u Hc) as (H1 & H2 & _). specialize (H2 Hu).
  rewrite Int.u32_small in H1 by lia. split; [done|]. split; [lia|]. intros Hm e evals.
  unfold CreateTransConn, trans_refused. rewrite H1, (proj2 (Z.leb_le _ _) Hm). by rewrite orb_true_r.
Qed.

(** *** ClearCache *)

Lemma byid_scan_min id ns : forall k res i b,
  (forall j b0, res = Some (j, b0) -> id < b0) ->
  byid_scan id k res ns = Some (i, b) ->
  id < b /\ (forall j b0, res = Some (j, b0) -> b <= b0) /\ Forall (fun m => id < id_ m -> b <= id_ m) ns.
Proof.
  induction ns as [|n ns IH]; intros k res i b Hr Hs; simpl in Hs.
  { subst res. split; [by eapply Hr|]. split; [|constructor]. intros j b0 [= -> ->]. lia. }
  destruct (Z.leb_spec (id_ n) id) as [Hle|Hgt].
  { apply IH in Hs as (H1 & H2 & H3); [|done]. repeat split; try done. constructor; [lia|done]. }
  destruct res as [[j best]|].
  - specialize (Hr _ _ eq_refl). destruct (Z.ltb_spec (id_ n) best).
    + apply IH in Hs as (H1 & H2 & H3); [|by intros ?? [= <- <-]].
      specialize (H2 _ _ eq_refl). repeat split; try done; [intros ?? [= <- <-]; lia|]. by constructor.
    + apply IH in Hs as (H1 & H2 & H3); [|by intros ?? [= <- <-]].
      specialize (H2 _ _ eq_refl). repeat split; try done; [intros ?? [= <- <-]; lia|].
      constructor; [lia|done].
  - apply IH in Hs as (H1 & H2 & H3); [|by intros ?? [= <- <-]].
    specialize (H2 _ _ eq_refl). repeat split; try done. by constructor.
Qed.

Lemma byid_scan_none id ns : forall k res,
  byid_scan id k res ns = None -> res = None /\ Forall (fun m => id_ m <= id) ns.
Proof.
  induction ns as [|n ns IH]; intros k res Hs; simpl in Hs; [done|].
  destruct (Z.leb_spec (id_ n) id) as [Hle|Hgt].
  - apply IH in Hs as [-> H]. split; [done|by constructor].
  - destruct res as [[j best]|]; [destruct (id_ n <? best)|]; by apply IH in Hs as [? _].
Qed.

(** [AcquireById] takes the idle node with the smallest id above the given one. *)
Lemma acquire_by_id_min id c o c' :
  count_ c = Z.of_nat (length (nodes_ c)) -> Container.AcquireById id c = (o, c') ->
  match o with
  | None => c' = c /\ Forall (fun m => id_ m <= id) (nodes_ c)
  | Some m => exists ns, nodes_ c ≡ₚ m :: ns /\ c' = set_nodes ns (count_ c - 1) (total_ c) c /\
      id < id_ m /\ Forall (fun x => id < id_ x -> id_ m <= id_ x) (nodes_ c)
  end.
Proof.
  intros Hc. unfold Container.AcquireById. destruct (Z.eqb_spec (count_ c) 0) as [H0|H0].
  { intros [= <- <-]. assert (Hn : nodes_ c = []) by (apply length_zero_iff_nil; lia). by rewrite Hn. }
  destruct (byid_scan id 0 None (nodes_ c)) as [[i b]|] eqn:Hs.
  - destruct (byid_scan_bound _ _ _ _ _ _ Hs) as [?|[_ (n & Hn & Hb)]]; [done|].
    rewrite Nat.sub_0_r in Hn. rewrite Hn. intros [= <- <-].
    apply byid_scan_min in Hs as (H1 & _ & H3); [|done]. subst b.
    exists (delete i (nodes_ c)). split; [by apply delete_Permutation|]. done.
  - intros [= <- <-]. by apply byid_scan_none in Hs as [_ ?].
Qed.

(** A reader that belongs to container [c]. *)
Definition reader_of (c : Container.t) (n : ConnNode) : Prop :=
  left_ c <= id_ n < right_ c /\ IsWriter n = false /\ is_Some (connect_ n).

Definition above (id : Z) (l : list Z) : list Z := List.filter (fun i => id <? i) l.

Lemma release_reader e n p :
  reader_of (readers_ p) n -> count_ (readers_ p) <> max_ (readers_ p) ->
  release_by_id e n p =
    with_readers (set_nodes (n :: nodes_ (readers_ p)) (count_ (readers_ p) + 1) (total_ (readers_ p)) (readers_ p)) p.
Proof.
  intros (Hr & Hw & _) Hm. unfold release_by_id, Release, outside. rewrite Hw.
  rewrite (proj2 (Z.ltb_ge _ _)), (proj2 (Z.leb_gt _ _)), (proj2 (Z.eqb_neq _ _) Hm) by lia. done.
Qed.

Lemma above_perm id l1 l2 : l1 ≡ₚ l2 -> above id l1 ≡ₚ above id l2.
Proof.
  intros H. unfold above. induction H; simpl; repeat case_match; try done; try (by constructor). by etrans.
Qed.

(** What is above [id] except its minimum [m] is what is above [m]. *)
Lemma above_next id m l :
  id < m -> NoDup (m :: l) -> Forall (fun x => id < x -> m <= x) l -> above id (m :: l) = m :: above m l.
Proof.
  intros Hm [Hni _]%NoDup_cons Hl. unfold above. simpl. rewrite (proj2 (Z.ltb_lt _ _) Hm). f_equal.
  induction l as [|x l IH]; [done|]. apply Forall_cons in Hl as [Hx Hl].
  apply not_elem_of_cons in Hni as [Hne Hni]. simpl.
  rewrite IH by done. destruct (Z.ltb_spec id x), (Z.ltb_spec m x); try done; lia.
Qed.

Lemma above_none id l : Forall (fun x => x <= id) l -> above id l = [].
Proof.
  induction 1 as [|x l Hx _ IH]; [done|]. unfold above in *. simpl. by rewrite (proj2 (Z.ltb_ge _ _) Hx).
Qed.

Lemma above_all id l : Forall (fun x => id < x) l -> above id l = l.
Proof.
  induction 1 as [|x l Hx _ IH]; [done|]. unfold above in *. simpl.
  by rewrite (proj2 (Z.ltb_lt _ _) Hx), IH.
Qed.

Lemma ids_forall (P : Z -> Prop) ns : Forall (fun n => P (id_ n)) ns -> Forall P (ids ns).
Proof. intros H. unfold ids. by apply Forall_map. Qed.

Lemma clear_readers_visits e : forall fuel n p,
  let c := readers_ p in
  count_ c = Z.of_nat (length (nodes_ c)) -> count_ c < max_ c ->
  Forall (reader_of c) (n :: nodes_ c) -> NoDup (ids (n :: nodes_ c)) ->
  (length (above (id_ n) (ids (nodes_ c))) < fuel)%nat ->
  exists vs ns, clear_readers fuel e n p = (id_ n :: vs, with_readers (set_nodes ns (count_ c + 1) (total_ c) c) p) /\
    StronglySorted Z.lt (id_ n :: vs) /\ vs ≡ₚ above (id_ n) (ids (nodes_ c)) /\ ns ≡ₚ n :: nodes_ c.
Proof.
  induction fuel as [|fuel IH]; intros n p; cbv zeta; intros Hc Hm Hr Hnd Hf; [lia|].
  cbn [clear_readers]. unfold Pool.AcquireById. destruct (Container.AcquireById (id_ n) (readers_ p)) as [o c1] eqn:Ha.
  pose proof (acquire_by_id_min _ _ _ _ Hc Ha) as Hspec. apply Forall_cons in Hr as [Hn Hr]. destruct o as [m|].
  - destruct Hspec as (ns & Hp & -> & Hlt & Hmin). rewrite Hp in Hr, Hmin.
    apply Forall_cons in Hr as [Hmr Hr]. apply Forall_cons in Hmin as [_ Hmin].
    assert (Hw : ids (nodes_ (readers_ p)) ≡ₚ id_ m :: ids ns) by (by rewrite Hp).
    assert (Hl : length (nodes_ (readers_ p)) = S (length ns)) by (by rewrite Hp).
    simpl in Hnd. rewrite Hw in Hnd. apply NoDup_cons in Hnd as [Hni Hnd].
    destruct Hmr as (Hm1 & Hm2 & [k Hk]). rewrite Hk.
    rewrite release_reader; [|done|cbn; lia]. cbn [readers_ with_readers nodes_ count_ total_ set_nodes].
    set (p2 := with_readers _ _).
    assert (Hab : above (id_ n) (ids (nodes_ (readers_ p))) ≡ₚ id_ m :: above (id_ m) (ids (n :: ns))).
    { rewrite (above_perm _ _ _ Hw), above_next; [|done|done|by apply ids_forall].
      simpl. unfold above at 2. simpl. by rewrite (proj2 (Z.ltb_ge _ _)) by lia. }
    destruct (IH m p2) as (vs & ns' & He & Hs & Hv & Hns).
    + simpl. lia.
    + simpl. lia.
    + constructor; [split; [done|by rewrite Hk]|]. by constructor.
    + unfold p2. simpl. apply NoDup_cons in Hnd as [? ?]. apply not_elem_of_cons in Hni as [? ?].
      repeat constructor; [|done|done]. apply not_elem_of_cons. by split.
    + rewrite Hab in Hf. unfold p2. cbn [readers_ with_readers nodes_ set_nodes]. cbn [length] in Hf. lia.
    + exists (id_ m :: vs), ns'. rewrite He. split; [|split; [|split]].
      * unfold p2, with_readers, set_nodes. cbn. do 3 f_equal. lia.
      * constructor; [done|]. constructor; [done|]. apply StronglySorted_inv in Hs as [_ Hs].
        eapply Forall_impl; [exact Hs|]. simpl. lia.
      * rewrite Hab. by rewrite Hv.
      * rewrite Hns. unfold p2. simpl. rewrite Hp. constructor.
  - destruct Hspec as [-> Hle]. replace (with_readers (readers_ p) p) with p by (by destruct p).
    rewrite release_reader; [|done|lia]. exists [], (n :: nodes_ (readers_ p)).
    rewrite (above_none _ _ (ids_forall (fun x => x <= id_ n) _ Hle)). repeat split; try done. by repeat constructor.
Qed.

(** A writer that belongs to container [c]. *)
Definition writer_of (c : Container.t) (n : ConnNode) : Prop :=
  left_ c <= id_ n < right_ c /\ IsWriter n = true /\ is_Some (connect_ n).

(** The writer's part of [ClearCache]. *)
Lemma clear_writer e p :
  let c := writers_ p in
  count_ c = Z.of_nat (length (nodes_ c)) -> count_ c <= max_ c -> 0 <= left_ c ->
  Forall (writer_of c) (nodes_ c) ->
  exists wv ns,
    (let '(w, p1) := Pool.AcquireById false START_NODE_ID p in
     match w with Some n => ([id_ n], release_by_id e n p1) | None => ([], p1) end)
    = (wv, with_writers (set_nodes ns (count_ c) (total_ c) c) p) /\ ns ≡ₚ nodes_ c /\
    length wv = Nat.min 1 (length (nodes_ c)) /\ wv ⊆ ids (nodes_ c) /\
    Forall (fun i => Forall (Z.le i) (ids (nodes_ c))) wv.
Proof.
  cbv zeta. intros Hc Hm H0 Hw. unfold Pool.AcquireById.
  destruct (Container.AcquireById START_NODE_ID (writers_ p)) as [o c1] eqn:Ha.
  pose proof (acquire_by_id_min _ _ _ _ Hc Ha) as Hspec. unfold START_NODE_ID in Hspec. destruct o as [n|].
  - destruct Hspec as (ns & Hp & -> & _ & Hmin). assert (Hl : length (nodes_ (writers_ p)) = S (length ns)) by (by rewrite Hp).
    assert (Hwn := Hw). rewrite Hp in Hwn. apply Forall_cons in Hwn as [(Hr & Hi & [k Hk]) _]. rewrite Hk.
    exists [id_ n], (n :: ns). split; [|split; [|split; [|split]]].
    + unfold release_by_id, Release, outside. rewrite Hi. cbn [writers_ with_writers left_ right_ set_nodes count_ max_].
      rewrite (proj2 (Z.ltb_ge _ _)), (proj2 (Z.leb_gt _ _)), (proj2 (Z.eqb_neq _ _)) by lia. cbn.
      unfold with_writers, set_nodes. cbn. do 3 f_equal. lia.
    + by rewrite Hp.
    + by rewrite Hl.
    + rewrite Hp. set_solver.
    + constructor; [|constructor]. apply ids_forall.
      eapply Forall_impl; [exact (proj2 (Forall_and _ _) (conj Hmin Hw))|].
      intros x [Hx (Hx2 & _)]. simpl in *. apply Hx. lia.
  - destruct Hspec as [-> Hle]. exists [], (nodes_ (writers_ p)).
    assert (Hn : nodes_ (writers_ p) = []).
    { destruct (nodes_ (writers_ p)) as [|x l]; [done|]. apply Forall_cons in Hle as [? _].
      apply Forall_cons in Hw as [(? & _) _]. lia. }
    rewrite Hn. repeat split; try done. destruct p as [? cw]. destruct cw. simpl in *. by subst.
Qed.

(** [ClearCache] on a consistent pool clears the idle writer with the smallest id, then
    every idle reader exactly once in the order of the ids, and puts every connection back; its
    loop ends after as many rounds as there are idle readers. *)
Theorem clear_cache_visits_all e p :
  let w := writers_ p in
  let c := readers_ p in
  count_ w = Z.of_nat (length (nodes_ w)) -> count_ w <= max_ w -> 0 <= left_ w -> Forall (writer_of w) (nodes_ w) ->
  count_ c = Z.of_nat (length (nodes_ c)) -> count_ c <= max_ c -> 0 <= left_ c -> Forall (reader_of c) (nodes_ c) ->
  NoDup (ids (nodes_ c)) ->
  exists wv vs wns ns,
    ClearCache e p = (wv ++ vs, with_readers (set_nodes ns (count_ c) (total_ c) c)
                                  (with_writers (set_nodes wns (count_ w) (total_ w) w) p)) /\
    length wv = Nat.min 1 (length (nodes_ w)) /\ wv ⊆ ids (nodes_ w) /\
    Forall (fun i => Forall (Z.le i) (ids (nodes_ w))) wv /\
    StronglySorted Z.lt vs /\ vs ≡ₚ ids (nodes_ c) /\ wns ≡ₚ nodes_ w /\ ns ≡ₚ nodes_ c.
Proof.
  cbv zeta. intros Hwc Hwm Hw0 Hww Hc Hm H0 Hr Hnd. unfold ClearCache.
  destruct (clear_writer e p Hwc Hwm Hw0 Hww) as (wv & wns & Hw & Hwp & Hwl & Hws & Hwmin).
  destruct (Pool.AcquireById false START_NODE_ID p) as [w p1]. rewrite Hw.
  unfold Pool.AcquireById. cbn [readers_ with_writers].
  destruct (Container.AcquireById START_NODE_ID (readers_ p)) as [o c1] eqn:Ha.
  pose proof (acquire_by_id_min _ _ _ _ Hc Ha) as Hspec. unfold START_NODE_ID in Hspec. destruct o as [n|].
  - destruct Hspec as (ns & Hp & -> & _ & Hmin). assert (Hl : length (nodes_ (readers_ p)) = S (length ns)) by (by rewrite Hp).
    assert (Hrn := Hr). rewrite Hp in Hrn. assert (Hn := Hrn). apply Forall_cons in Hn as [(_ & _ & [k Hk]) _]. rewrite Hk.
    rewrite Hp in Hnd. cbn [readers_ with_readers nodes_ set_nodes].
    set (q := with_readers _ _). destruct (clear_readers_visits e (S (length ns)) n q) as (vs & ns' & He & Hs & Hv & Hns).
    + simpl. lia.
    + simpl. lia.
    + exact Hrn.
    + exact Hnd.
    + simpl. assert (Hle : forall l, (length (above (id_ n) l) <= length l)%nat) by (intros l; apply List.filter_length_le).
      specialize (Hle (ids ns)). unfold ids in Hle. rewrite length_map in Hle. unfold ids. lia.
    + rewrite He. exists wv, (id_ n :: vs), wns, ns'. split; [|repeat split; try done].
      * unfold q, with_readers, set_nodes. cbn. do 3 f_equal. lia.
      * rewrite Hv, Hp. unfold q. simpl. rewrite (above_all (id_ n)); [done|].
        rewrite Hp in Hmin. apply Forall_cons in Hmin as [_ Hmin]. simpl in Hnd. apply NoDup_cons in Hnd as [Hni _].
        apply Forall_cons in Hrn as [_ Hrn]. rewrite Forall_forall in Hmin, Hrn.
        apply Forall_forall. intros i Hi. assert (Hne : i <> id_ n) by (by intros ->).
        unfold ids in Hi. apply list_elem_of_fmap in Hi as (x & -> & Hx).
        destruct (Hrn _ Hx) as (Hx0 & _). specialize (Hmin _ Hx ltac:(lia)). lia.
      * rewrite Hns. unfold q. simpl. by rewrite Hp.
  - destruct Hspec as [-> Hle]. exists wv, [], wns, (nodes_ (readers_ p)).
    assert (Hn : nodes_ (readers_ p) = []).
    { destruct (nodes_ (readers_ p)) as [|x l]; [done|]. apply Forall_cons in Hle as [? _].
      apply Forall_cons in Hr as [(? & _) _]. lia. }
    rewrite Hn, app_nil_r. repeat split; try done; [|constructor].
    destruct p as [? ? cr]. destruct cr. simpl in *. by subst.
Qed.

(** *** Witnesses *)

Definition demo_env : env :=
  {| now := 1; tid := 7; alive := fun _ => true; use_count := fun _ => 1; recyclable := fun _ => true;
     checkpoint := fun _ => E_OK; ptr_lt := fun a b => id_ a <? id_ b |}.

Definition demo_config : config :=
  {| cfg_initialize := E_OK; cfg_role := OWNER; cfg_read_only := false; cfg_memory := false; cfg_wal := true;
     cfg_read_con_size := 2; cfg_write_time := 2; cfg_read_time := 1; cfg_trans_time := 2 |}.

Definition demo_creation : creation :=
  {| mk_writer := fun i => (E_OK, Some {| conn_ptr := Z.of_nat i; conn_writer := true |}); mk_reader := demo_reader |}.

Definition demo_pool : Pool.t := snd (Init demo_env demo_creation false false (Pool.new demo_config)).

Definition no_waits : waits := {| w_env := []; w_env2 := [] |}.

Lemma failed_rekey_leaves_pool_closed_witness :
  exists p', Rekey demo_env 2000 0 0 no_waits no_waits no_waits E_SQLITE_ERROR demo_creation demo_creation demo_pool
    = (E_SQLITE_ERROR, p') /\ (forall e' ro evals, fst (Pool.Acquire e' ro evals p') = None).
Proof.
  destruct (Pool.AcquireAll demo_env 2000 0 0 no_waits no_waits no_waits demo_pool) as [[[h|] rs] p1] eqn:Ha;
    [|vm_compute in Ha; discriminate].
  destruct (failed_rekey_leaves_pool_closed demo_env 2000 0 0 no_waits no_waits no_waits E_SQLITE_ERROR
    demo_creation demo_creation demo_pool h rs p1 Ha) as (p' & H1 & H2 & _); [discriminate|].
  exists p'. split; [exact H1|exact H2].
Defined.

(** The pool with one transaction connection out. *)
Definition demo_trans_pool : Pool.t := snd (CreateTransConn demo_env true [demo_conn] demo_pool).

Lemma acquire_all_leaves_readers_disabled_witness :
  disable_ (readers_ demo_trans_pool) = false /\
  exists p', Pool.AcquireAll demo_env 2000 0 0 no_waits no_waits no_waits demo_trans_pool = ((None, []), p') /\
    disable_ (readers_ p') = true /\ disable_ (trans_ p') = false.
Proof.
  split; [vm_compute; reflexivity|].
  eapply (acquire_all_leaves_readers_disabled demo_env 2000 0 0 no_waits no_waits no_waits demo_trans_pool);
    try (vm_compute; reflexivity).
  - vm_compute. eexists. reflexivity.
  - vm_compute. discriminate.
Defined.

Lemma transaction_limit_witness :
  exists hs, calls 1 demo_trans_pool hs 0 0 /\ transCount_ demo_trans_pool = out hs /\ out hs < 5 /\ length hs = 1%nat.
Proof.
  assert (H : calls 1 demo_trans_pool (option_list (snd (fst (CreateTransConn demo_env true [demo_conn] demo_pool))) ++ []) 0 0).
  { eapply (calls_take 1 demo_pool [] 0 0 demo_env [demo_conn] E_OK).
    - eapply (calls_test 1 demo_pool [] 0 0 true); [|vm_compute; reflexivity|lia].
      change (calls 1 demo_pool (option_list None ++ []) 0 0).
      eapply (calls_init 1 (Pool.new demo_config) [] 0 0 demo_env demo_creation false false E_OK); [apply calls_new|].
      vm_compute. reflexivity.
    - vm_compute. reflexivity. }
  destruct (transaction_limit 1 _ _ 0 0 H) as (H1 & H2 & _); [vm_compute; reflexivity|].
  eexists. split; [exact H|]. split; [exact H1|]. split; [exact H2|reflexivity].
Defined.

Lemma clear_cache_visits_all_witness :
  exists wv vs wns ns,
    ClearCache demo_env demo_pool =
      (wv ++ vs, with_readers (set_nodes ns 2 2 (readers_ demo_pool))
                   (with_writers (set_nodes wns 1 1 (writers_ demo_pool)) demo_pool)) /\
    StronglySorted Z.lt vs /\ vs ≡ₚ [0; 1].
Proof.
  destruct (clear_cache_visits_all demo_env demo_pool) as (wv & vs & wns & ns & H1 & _ & _ & _ & H2 & H3 & _);
    try (vm_compute; first [reflexivity | discriminate]).
  - vm_compute. repeat constructor; try discriminate. eexists. reflexivity.
  - vm_compute. repeat constructor; try discriminate; eexists; reflexivity.
  - vm_compute. repeat constructor; set_solver.
  - exists wv, vs, wns, ns. split; [exact H1|]. split; [exact H2|exact H3].
Defined.

End PoolProps.
