(* ===== verification/FillBlock.v ===== *)
(** * Filling blocks with query results

    [AbsBlock]: the interface frameworks/.../abs_shared_block.h as a class of operations
    ([AbsSharedBlock]) and the promise its clients rely on ([TableBlock]: a growing table whose
    last row is filled from the left).  [SharedBlock] keeps the promise ([shared_block_table]).
    [Fill]: frameworks/native/rdb/src/share_block.cpp, written against the class.
    [CacheBlock]: frameworks/native/rdb/src/cache_block.cpp, the other implementation.
    [FillProps]: the claims.

    SQLite is not part of the repository: [sqlite3_step] is the list of its answers, a row the
    list of what the [sqlite3_column_*] functions give for each column. *)
From Stdlib Require Import ZArith Lia.
From stdpp Require Import base gmap list strings.
From S2P Require Import Prelude CppStd Errno Values SharedBlock StringUtils RawData.

Local Open Scope Z_scope.

Module AbsBlock.
Import Block BlockInv.

(** The virtual methods; a value is a buffer or a null pointer. *)
Class AbsSharedBlock (B : Type) := {
  Clear : B -> status * B;
  SetColumnNum : B -> Z -> status * B;
  AllocRow : B -> status * B;
  FreeLastRow : B -> status * B;
  PutBlob : B -> Z -> Z -> option (list Z) -> status * B;
  PutString : B -> Z -> Z -> option (list Z) -> status * B;
  PutLong : B -> Z -> Z -> Z -> status * B;
  PutDouble : B -> Z -> Z -> Z -> status * B;
  PutAsset : B -> Z -> Z -> option (list Z) -> status * B;
  PutAssets : B -> Z -> Z -> option (list Z) -> status * B;
  PutFloats : B -> Z -> Z -> option (list Z) -> status * B;
  PutBigInt : B -> Z -> Z -> option (list Z) -> status * B;
  PutNull : B -> Z -> Z -> status * B
}.

#[export] Instance shared_block_ops : AbsSharedBlock SharedBlock := {
  Clear := Block.Clear;
  SetColumnNum := Block.SetColumnNum;
  AllocRow := Block.AllocRow;
  FreeLastRow := Block.FreeLastRow;
  PutBlob := Block.PutBlob;
  PutString := Block.PutString;
  PutLong := Block.PutLong;
  PutDouble := Block.PutDouble;
  PutAsset := Block.PutAsset;
  PutAssets := Block.PutAssets;
  PutFloats := Block.PutFloats;
  PutBigInt := Block.PutBigInt;
  PutNull := Block.PutNull
}.

(** The method that stores a given cell. *)
Definition put_cell {B} `{AbsSharedBlock B} (b : B) (row column : Z) (v : cell) : status * B :=
  match v with
  | CNull => PutNull b row column
  | CLong z => PutLong b row column z
  | CDouble w => PutDouble b row column w
  | CBytes ty bs =>
      if ty =? CELL_UNIT_TYPE_STRING then PutString b row column (Some bs)
      else if ty =? CELL_UNIT_TYPE_ASSET then PutAsset b row column (Some bs)
      else if ty =? CELL_UNIT_TYPE_ASSETS then PutAssets b row column (Some bs)
      else if ty =? CELL_UNIT_TYPE_FLOATS then PutFloats b row column (Some bs)
      else if ty =? CELL_UNIT_TYPE_BIGINT then PutBigInt b row column (Some bs)
      else PutBlob b row column (Some bs)
  end.

Definition bytes_type (ty : Z) : Prop := CELL_UNIT_TYPE_STRING <= ty <= CELL_UNIT_TYPE_BIGINT.

(** A cell the interface can take: a known type, a buffer within the bounds of [memcpy_s]. *)
Definition cell_fits (v : cell) : Prop :=
  match v with CBytes ty bs => bytes_type ty /\ Z.of_nat (length bs) < 2 ^ 31 | _ => True end.

(** The bytes a cell needs besides its place in the row's directory. *)
Definition cell_bytes (v : cell) : Z := match v with CBytes _ bs => Z.of_nat (length bs) | _ => 0 end.

Definition row_bytes (vs : list cell) : Z := foldr (fun v k => cell_bytes v + k) 0 vs.

(** What a client may rely on.  [holds b n rows]: the block has [n] columns and these rows; an
    operation that fails leaves the rows as they are.  [capacity b] is the space for rows of a
    block that was just cleared ([cleared]) and got its columns ([fresh]); it never changes.
    As long as there is space ([free]), the first row and its cells are not refused. *)
Class TableBlock (B : Type) `{AbsSharedBlock B} := {
  holds : B -> Z -> list (list cell) -> Prop;
  holds_alloc b n rows : holds b n rows ->
    (fst (AllocRow b) = SHARED_BLOCK_OK /\ holds (snd (AllocRow b)) n (rows ++ [[]])) \/
    (fst (AllocRow b) <> SHARED_BLOCK_OK /\ holds (snd (AllocRow b)) n rows);
  holds_put b n rows r v : holds b n (rows ++ [r]) -> Z.of_nat (length r) < n -> cell_fits v ->
    let '(s, b') := put_cell b (Z.of_nat (length rows)) (Z.of_nat (length r)) v in
    (s = SHARED_BLOCK_OK /\ holds b' n (rows ++ [r ++ [v]])) \/
    (s <> SHARED_BLOCK_OK /\ holds b' n (rows ++ [r]));
  holds_free b n rows r : holds b n (rows ++ [r]) ->
    exists b', FreeLastRow b = (SHARED_BLOCK_OK, b') /\ holds b' n rows;
  cleared : B -> Prop;
  fresh : B -> Z -> Prop;
  fresh_holds b n : fresh b n -> holds b n [];
  holds_clear b n rows : holds b n rows -> exists b', Clear b = (SHARED_BLOCK_OK, b') /\ cleared b';
  holds_columns b n : cleared b -> 0 <= n <= COL_MAX_NUM ->
    exists b', SetColumnNum b n = (SHARED_BLOCK_OK, b') /\ fresh b' n;
  capacity : B -> Z;
  capacity_clear b : capacity (snd (Clear b)) = capacity b;
  capacity_columns b n : capacity (snd (SetColumnNum b n)) = capacity b;
  capacity_alloc b : capacity (snd (AllocRow b)) = capacity b;
  capacity_put b r c v : capacity (snd (put_cell b r c v)) = capacity b;
  capacity_free b : capacity (snd (FreeLastRow b)) = capacity b;
  directory : Z -> Z;
  free : B -> Z;
  fresh_alloc b n : fresh b n -> directory n <= capacity b ->
    fst (AllocRow b) = SHARED_BLOCK_OK /\ free (snd (AllocRow b)) = capacity b - directory n;
  free_put b n rows r v : holds b n (rows ++ [r]) -> Z.of_nat (length r) < n -> cell_fits v -> cell_bytes v <= free b ->
    let '(s, b') := put_cell b (Z.of_nat (length rows)) (Z.of_nat (length r)) v in
    s = SHARED_BLOCK_OK /\ free b' = free b - cell_bytes v
}.

(** *** SharedBlock keeps the promise *)

Import BlockSpec.

Record block_holds (b : SharedBlock) (n : Z) (rows : list (list cell)) : Prop := {
  bh_table : exists t, abstracts b t /\ t_rows t = Z.of_nat (length rows) /\ t_cols t = n /\
    forall r c row v, rows !! r = Some row -> row !! c = Some v ->
      t_cells t !! (Z.of_nat r, Z.of_nat c) = Some v
}.

(** The operation of the block that [put_cell] runs. *)
Definition put_op (r c : Z) (v : cell) : bop :=
  match v with
  | CNull => OPutNull r c
  | CLong z => OPutLong r c z
  | CDouble w => OPutDouble r c w
  | CBytes ty bs => OPutBytes ty r c (Some bs)
  end.

Lemma put_cell_run b r c v : cell_fits v -> put_cell b r c v = run (put_op r c v) b.
Proof.
  destruct v as [|z|w|ty bs]; try done. intros [Hty _]. cbn [put_cell put_op run].
  unfold bytes_type, CELL_UNIT_TYPE_STRING, CELL_UNIT_TYPE_BIGINT in Hty.
  assert (ty = 3 \/ ty = 4 \/ ty = 5 \/ ty = 6 \/ ty = 7 \/ ty = 8) as H by lia.
  destruct H as [-> | [-> | [-> | [-> | [-> | ->]]]]]; done.
Qed.

Lemma put_op_ok r c v : 0 <= r -> 0 <= c -> cell_fits v -> op_ok (put_op r c v).
Proof. destruct v as [|z|w|ty bs]; simpl; intros; try done. by destruct_and!. Qed.

(** One put: either the cell is in the table, or the table is as before. *)
Lemma put_op_step r c v t s t' :
  spec_step (put_op r c v) t s t' ->
  (s = SHARED_BLOCK_OK /\ in_table t r c /\ t' = put t r c v) \/ (s <> SHARED_BLOCK_OK /\ t' = t).
Proof. destruct v as [|z|w|ty bs]; simpl; inversion 1; subst; (by left) || (by right). Qed.

(** A block without rows whose header is the one [Clear] writes. *)
Record block_fresh (b : SharedBlock) (n : Z) : Prop := {
  bf_holds : block_holds b n [];
  bf_unused : unusedOffset (mHeader b) = sizeof_header + sizeof_group;
  bf_group : grp b 0 = sizeof_header
}.

Lemma block_clear b n rows :
  block_holds b n rows -> exists b', Block.Clear b = (SHARED_BLOCK_OK, b') /\ block_fresh b' 0.
Proof.
  intros [(t & Hab & _)]. destruct (simulates OClear b t Hab I) as (t' & Hs & Hab').
  simpl in Hs, Hab'. pose proof (abs_writable _ _ Hab) as Hw. unfold Block.Clear in *. rewrite Hw in *. simpl in *.
  inversion Hs; subst. eexists. split; [done|]. split; [|done|done].
  split. exists empty_table. split; [exact Hab'|]. by repeat split.
Qed.

Lemma block_columns b n :
  block_fresh b 0 -> 0 <= n <= COL_MAX_NUM ->
  exists b', Block.SetColumnNum b n = (SHARED_BLOCK_OK, b') /\ block_fresh b' n.
Proof.
  intros [[(t & Hab & Hr & Hc & _)] Hu Hg] Hn. simpl in Hr.
  destruct (simulates (OSetColumnNum n) b t Hab) as (t' & Hs & Hab'); [simpl; lia|].
  simpl in Hs, Hab'. destruct (Block.SetColumnNum b n) as [s b'] eqn:E. simpl in *.
  inversion Hs; subst; simpl in *; [|lia]. exists b'. split; [done|].
  unfold Block.SetColumnNum in E. repeat case_match; try discriminate. injection E as <-. split; [|done|done].
  split. eexists. split; [exact Hab'|]. by repeat split.
Qed.

Lemma block_alloc b n rows :
  block_holds b n rows ->
  (fst (Block.AllocRow b) = SHARED_BLOCK_OK /\ block_holds (snd (Block.AllocRow b)) n (rows ++ [[]])) \/
  (fst (Block.AllocRow b) <> SHARED_BLOCK_OK /\ block_holds (snd (Block.AllocRow b)) n rows).
Proof.
  intros [(t & Hab & Hr & Hc & Hcells)].
  destruct (simulates OAllocRow b t Hab I) as (t' & Hs & Hab'). simpl in Hs, Hab'.
  destruct (Block.AllocRow b) as [s b']. simpl in *. inversion Hs; subst.
  - left. split; [done|]. split. eexists. split; [exact Hab'|]. rewrite length_app.
    cbn [t_rows t_cols t_cells length]. repeat split; [lia|].
    intros r c row v Hrow Hv. apply lookup_snoc_Some in Hrow as [[_ Hrow]|[_ <-]]; [by eapply Hcells|done].
  - right. split; [done|]. split. eexists. split; [exact Hab'|]. by repeat split.
Qed.

Lemma block_put b n rows r v :
  block_holds b n (rows ++ [r]) -> Z.of_nat (length r) < n -> cell_fits v ->
  let '(s, b') := put_cell b (Z.of_nat (length rows)) (Z.of_nat (length r)) v in
  (s = SHARED_BLOCK_OK /\ block_holds b' n (rows ++ [r ++ [v]])) \/
  (s <> SHARED_BLOCK_OK /\ block_holds b' n (rows ++ [r])).
Proof.
  intros [(t & Hab & Hr & Hc & Hcells)] Hl Hv. rewrite put_cell_run by done.
  rewrite length_app in Hr. simpl in Hr.
  destruct (simulates (put_op (Z.of_nat (length rows)) (Z.of_nat (length r)) v) b t Hab)
    as (t' & Hs & Hab'); [apply put_op_ok; (done || lia)|].
  destruct (run _ b) as [s b']. simpl in Hs, Hab'.
  apply put_op_step in Hs as [(-> & Hin & ->)|(Hs & ->)].
  - left. split; [done|]. split. eexists. split; [exact Hab'|]. rewrite length_app.
    cbn [put t_rows t_cols t_cells length]. repeat split; [lia|done|].
    intros i c row w Hrow Hw. apply lookup_snoc_Some in Hrow as [[Hi Hrow]|[-> <-]].
    + rewrite lookup_insert_ne by (intros [= ?]; lia).
      apply (Hcells i c row w); [|done]. by apply lookup_app_l_Some.
    + apply lookup_snoc_Some in Hw as [[Hci Hw]|[-> <-]]; [|by rewrite lookup_insert_eq].
      rewrite lookup_insert_ne by (intros [= ?]; lia).
      apply (Hcells (length rows) c r w); [|done]. by rewrite lookup_app_r, Nat.sub_diag by lia.
  - right. split; [done|]. split. exists t. split; [exact Hab'|]. rewrite length_app. simpl. repeat split; try done; lia.
Qed.

Lemma block_free b n rows r :
  block_holds b n (rows ++ [r]) ->
  exists b', Block.FreeLastRow b = (SHARED_BLOCK_OK, b') /\ block_holds b' n rows.
Proof.
  intros [(t & Hab & Hr & Hc & Hcells)]. rewrite length_app in Hr. simpl in Hr.
  destruct (simulates OFreeLastRow b t Hab I) as (t' & Hs & Hab'). cbn [run] in Hs, Hab'.
  destruct (Block.FreeLastRow b) as [s b']. cbn [fst snd] in *. inversion Hs; subst; [|lia].
  exists b'. split; [done|]. split. eexists. split; [exact Hab'|].
  cbn [t_rows t_cols t_cells]. repeat split; [lia|]. intros i c row v Hrow Hv.
  apply map_lookup_filter_Some. pose proof (lookup_lt_Some _ _ _ Hrow).
  split; [|simpl; lia]. apply (Hcells i c row v); [|done]. by apply lookup_app_l_Some.
Qed.

(** The space behind the first group of rows. *)
Definition block_capacity (b : SharedBlock) : Z := mSize b - (sizeof_header + sizeof_group).

Definition block_room (b : SharedBlock) : Z := mSize b - unusedOffset (mHeader b).

(** A put writes the data and the end of the used area only. *)
Lemma put_bytes_size b r c value ty : mSize (snd (PutBlobOrString b r c value ty)) = mSize b.
Proof. unfold PutBlobOrString. by repeat case_match. Qed.

Lemma capacity_put_cell b r c v : block_capacity (snd (put_cell b r c v)) = block_capacity b.
Proof.
  unfold block_capacity. f_equal. destruct v as [|z|w|ty bs]; cbn [put_cell].
  1: change (mSize (snd (Block.PutNull b r c)) = mSize b); unfold Block.PutNull; by case_match.
  1: change (mSize (snd (Block.PutLong b r c z)) = mSize b); unfold Block.PutLong; by case_match.
  1: change (mSize (snd (Block.PutDouble b r c w)) = mSize b); unfold Block.PutDouble; by case_match.
  repeat case_match; apply put_bytes_size.
Qed.

Lemma capacity_alloc_row b : block_capacity (snd (Block.AllocRow b)) = block_capacity b.
Proof. unfold block_capacity. by rewrite (proj2 (AllocRow_const b)). Qed.

(** The first row of a fresh block: the first group is there, only the directory is allocated,
    at an offset that is aligned already. *)
Lemma block_fresh_alloc b n :
  block_fresh b n -> sizeof_cell * n <= block_capacity b ->
  fst (Block.AllocRow b) = SHARED_BLOCK_OK /\ block_room (snd (Block.AllocRow b)) = block_capacity b - sizeof_cell * n.
Proof.
  intros [[(t & Hab & Hr & Hc & _)] Hu Hg] Hcap. pose proof (wf_size _ (abs_wf _ _ Hab)) as Hs.
  pose proof (wf_cols _ (abs_wf _ _ Hab)) as Hn. rewrite <- (abs_rows _ _ Hab) in Hr. rewrite <- (abs_cols _ _ Hab) in Hc.
  change (Z.of_nat (length [])) with 0 in Hr. unfold block_room, block_capacity in *. unfold Block.AllocRow, AllocRowOffset.
  rewrite Hr. change (0 / ROW_NUM_IN_A_GROUP) with 0. change (GROUP_NUM <=? 0) with false. cbv iota zeta.
  rewrite Hg. change (sizeof_header =? 0) with false. cbv iota zeta. rewrite Hg.
  change (sizeof_header =? 0) with false. cbv iota. unfold OffsetToPtr.
  unfold_sizes. rewrite Int.u32_small by lia. rewrite (proj2 (Z.ltb_ge _ _)) by lia.
  unfold Alloc. cbn [set_header mHeader with_rows unusedOffset columnNums mSize]. rewrite Hu.
  change (Int.u32 (536 + 512 + Z.land (Int.u32 (Z.lnot (536 + 512) + 1)) 3)) with 1048.
  rewrite Hc, Int.u32_small by lia. rewrite (proj2 (Z.ltb_ge _ _)) by lia.
  change (1048 =? 0) with false. cbn. split; [done|lia].
Qed.

Lemma block_room_put b n rows r v :
  block_holds b n (rows ++ [r]) -> Z.of_nat (length r) < n -> cell_fits v -> cell_bytes v <= block_room b ->
  let '(s, b') := put_cell b (Z.of_nat (length rows)) (Z.of_nat (length r)) v in
  s = SHARED_BLOCK_OK /\ block_room b' = block_room b - cell_bytes v.
Proof.
  intros [(t & Hab & Hr & Hc & _)] Hl Hv Hroom. pose proof (wf_size _ (abs_wf _ _ Hab)) as Hs.
  rewrite <- (abs_rows _ _ Hab), length_app in Hr. rewrite <- (abs_cols _ _ Hab) in Hc. simpl in Hr.
  assert (Ho : out_of_range b (Z.of_nat (length rows)) (Z.of_nat (length r)) = false)
    by (apply orb_false_iff; split; apply Z.leb_gt; lia).
  rewrite put_cell_run by done. unfold block_room in *. destruct v as [|z|w|ty bs]; cbn [put_op run cell_bytes] in *;
    unfold Block.PutNull, Block.PutLong, Block.PutDouble; try (rewrite Ho; cbn; split; [done|lia]).
  destruct Hv as [_ Hlen]. unfold PutBlobOrString. rewrite Ho. unfold_sizes. rewrite Int.u32_small by lia.
  rewrite (proj2 (Z.ltb_ge _ _)) by lia. unfold SECUREC_MEM_MAX_LEN.
  rewrite (proj2 (Z.ltb_ge (2 ^ 31 - 1) _)) by lia. rewrite andb_false_r. cbn. split; [done|lia].
Qed.

#[export] Instance shared_block_table : TableBlock SharedBlock.
Proof.
  refine {| holds := block_holds; holds_alloc := block_alloc; holds_put := block_put; holds_free := block_free;
    cleared b := block_fresh b 0; fresh := block_fresh; fresh_holds := bf_holds; holds_clear := block_clear;
    holds_columns := block_columns; capacity := block_capacity; capacity_alloc := capacity_alloc_row;
    capacity_put := capacity_put_cell; directory n := sizeof_cell * n; free := block_room;
    fresh_alloc := block_fresh_alloc; free_put := block_room_put |}.
  - intros b. simpl. unfold Block.Clear. by case_match.
  - intros b n. simpl. unfold Block.SetColumnNum. by repeat case_match.
  - intros b. simpl. unfold Block.FreeLastRow. simpl. by case_match.
Defined.

End AbsBlock.

Module Fill.
Import Block BlockInv AbsBlock.

(** What the [sqlite3_column_*] functions give for one column.  A text or blob is [None] when
    the pointer is null; a blob comes with the column's declared type. *)
Inductive column :=
| ColText (text : option (list Z))
| ColInteger (v : Z)
| ColFloat (bits : Z)
| ColBlob (decl : option string) (blob : option (list Z))
| ColNull
| ColUnknown.

(** One answer of [sqlite3_step]. *)
Inductive stepped :=
| SQLITE_ROW (row : list column)
| SQLITE_DONE
| SQLITE_BUSY
| SQLITE_FAILED (err : errno).

Inductive FillOneRowResult := FILL_ONE_ROW_SUCESS | SHARED_BLOCK_IS_FULL | FILL_ONE_ROW_FAIL.

(** [SharedBlockInfo] without the block. *)
Record SharedBlockInfo := {
  startPos : Z;
  addedRows : Z;
  requiredPos : Z;
  totalRows : Z;
  isCountAllRows : bool;
  columnNum : Z;
  isFull : bool;
  hasException : bool
}.

(** The constructor of [SharedBlockInfo]. *)
Definition new_info : SharedBlockInfo :=
  {| startPos := 0; addedRows := 0; requiredPos := 0; totalRows := 0; isCountAllRows := false; columnNum := 0;
     isFull := false; hasException := false |}.

Definition set_rows (start added total : Z) (i : SharedBlockInfo) : SharedBlockInfo :=
  {| startPos := start; addedRows := added; requiredPos := requiredPos i; totalRows := total;
     isCountAllRows := isCountAllRows i; columnNum := columnNum i; isFull := isFull i;
     hasException := hasException i |}.

Definition set_outcome (full exc : bool) (i : SharedBlockInfo) : SharedBlockInfo :=
  {| startPos := startPos i; addedRows := addedRows i; requiredPos := requiredPos i; totalRows := totalRows i;
     isCountAllRows := isCountAllRows i; columnNum := columnNum i; isFull := full; hasException := exc |}.

(** The cell type of a blob column, from its declared type. *)
Definition blob_type (decl : option string) : Z :=
  match decl with
  | None => CELL_UNIT_TYPE_BLOB
  | Some d =>
      let type := StringUtils.TruncateAfterFirstParen (SqliteUtils.StrToUpper d) in
      if String.eqb type "ASSET" then CELL_UNIT_TYPE_ASSET
      else if String.eqb type "ASSETS" then CELL_UNIT_TYPE_ASSETS
      else if String.eqb type "FLOATVECTOR" then CELL_UNIT_TYPE_FLOATS
      else if String.eqb type "UNLIMITED INT" then CELL_UNIT_TYPE_BIGINT
      else CELL_UNIT_TYPE_BLOB
  end.

Section Filling.
Context {B : Type} `{AbsSharedBlock B}.

(** [status != SHARED_BLOCK_OK] means full. *)
Definition filled (r : status * B) : FillOneRowResult * B :=
  (if bool_decide (fst r = SHARED_BLOCK_OK) then FILL_ONE_ROW_SUCESS else SHARED_BLOCK_IS_FULL, snd r).

Definition FillOneRowOfString (b : B) (text : option (list Z)) (addedRows pos : Z) : FillOneRowResult * B :=
  match text with
  | None => (SHARED_BLOCK_IS_FULL, b)
  | Some bs => filled (PutString b addedRows pos (Some (bs ++ [0])))
  end.

Definition FillOneRowOfLong (b : B) (value addedRows pos : Z) : FillOneRowResult * B :=
  filled (PutLong b addedRows pos value).

Definition FillOneRowOfFloat (b : B) (value addedRows pos : Z) : FillOneRowResult * B :=
  filled (PutDouble b addedRows pos value).

(** The member function the declared type selects. *)
Definition blob_action (decl : option string) : B -> Z -> Z -> option (list Z) -> status * B :=
  match decl with
  | None => PutBlob
  | Some d =>
      let type := StringUtils.TruncateAfterFirstParen (SqliteUtils.StrToUpper d) in
      if String.eqb type "ASSET" then PutAsset
      else if String.eqb type "ASSETS" then PutAssets
      else if String.eqb type "FLOATVECTOR" then PutFloats
      else if String.eqb type "UNLIMITED INT" then PutBigInt
      else PutBlob
  end.

Definition FillOneRowOfBlob (b : B) (decl : option string) (blob : option (list Z)) (addedRows pos : Z)
    : FillOneRowResult * B :=
  filled (blob_action decl b addedRows pos blob).

Definition FillOneRowOfNull (b : B) (addedRows pos : Z) : FillOneRowResult * B :=
  filled (PutNull b addedRows pos).

(** One column. *)
Definition fill_column (b : B) (col : column) (addedRows pos : Z) : FillOneRowResult * B :=
  match col with
  | ColText text => FillOneRowOfString b text addedRows pos
  | ColInteger v => FillOneRowOfLong b v addedRows pos
  | ColFloat v => FillOneRowOfFloat b v addedRows pos
  | ColBlob decl blob => FillOneRowOfBlob b decl blob addedRows pos
  | ColNull => FillOneRowOfNull b addedRows pos
  | ColUnknown => (FILL_ONE_ROW_FAIL, b)
  end.

(** The loop over the columns. *)
Fixpoint fill_columns (b : B) (cols : list column) (addedRows pos : Z) : FillOneRowResult * B :=
  match cols with
  | [] => (FILL_ONE_ROW_SUCESS, b)
  | col :: rest =>
      match fill_column b col addedRows pos with
      | (FILL_ONE_ROW_SUCESS, b') => fill_columns b' rest addedRows (pos + 1)
      | r => r
      end
  end.

Definition FillOneRow (b : B) (row : list column) (numColumns addedRows : Z) : FillOneRowResult * B :=
  let '(s, b1) := AllocRow b in
  if bool_decide (s = SHARED_BLOCK_OK) then
    match fill_columns b1 (take (Z.to_nat numColumns) row) addedRows 0 with
    | (FILL_ONE_ROW_SUCESS, b2) => (FILL_ONE_ROW_SUCESS, b2)
    | (r, b2) => (r, snd (FreeLastRow b2))
    end
  else (SHARED_BLOCK_IS_FULL, b1).

(** The end of [FillRow], after the row was tried. *)
Definition row_result (r : FillOneRowResult) (i : SharedBlockInfo) : SharedBlockInfo :=
  match r with
  | FILL_ONE_ROW_SUCESS => set_rows (startPos i) (addedRows i + 1) (totalRows i) i
  | SHARED_BLOCK_IS_FULL => set_outcome true (hasException i) i
  | FILL_ONE_ROW_FAIL => set_outcome (isFull i) true i
  end.

Definition FillRow (i : SharedBlockInfo) (b : B) (row : list column) : SharedBlockInfo * B :=
  let '(r, b1) := FillOneRow b row (columnNum i) (addedRows i) in
  match r with
  | SHARED_BLOCK_IS_FULL =>
      if negb (addedRows i =? 0) && (startPos i + addedRows i <=? requiredPos i) then
        let b2 := snd (SetColumnNum (snd (Clear b1)) (columnNum i)) in
        let i2 := set_rows (startPos i + addedRows i) 0 (totalRows i) i in
        let '(r2, b3) := FillOneRow b2 row (columnNum i2) (addedRows i2) in
        (row_result r2 i2, b3)
      else (row_result r i, b1)
  | _ => (row_result r i, b1)
  end.

(** [fillRow]: [FillRow], or [DefFillRow] without a block. *)
Definition fill_row (i : SharedBlockInfo) (ob : option B) (row : list column) : SharedBlockInfo * option B :=
  match ob with
  | Some b => let '(i', b') := FillRow i b row in (i', Some b')
  | None => (set_outcome true (hasException i) i, None)
  end.

(** The loop of [FillSharedBlock], one answer of [sqlite3_step] per round; the end of the list
    is [SQLITE_DONE]. *)
Fixpoint fill_loop (retryTime : Z) (steps : list stepped) (retryCount : Z) (full exc : bool)
    (i : SharedBlockInfo) (ob : option B) : errno * SharedBlockInfo * option B :=
  if negb exc && (negb full || isCountAllRows i) then
    match steps with
    | [] | SQLITE_DONE :: _ => (E_OK, i, ob)
    | SQLITE_ROW row :: rest =>
        let i1 := set_rows (startPos i) (addedRows i) (totalRows i + 1) i in
        if (totalRows i1 <=? startPos i1) || full then fill_loop retryTime rest 0 full exc i1 ob
        else
          let '(i2, ob2) := fill_row i1 ob row in
          fill_loop retryTime rest 0 (isFull i2) (hasException i2) i2 ob2
    | SQLITE_BUSY :: rest =>
        if retryTime <=? retryCount then (E_DATABASE_BUSY, i, ob)
        else fill_loop retryTime rest (retryCount + 1) full exc i ob
    | SQLITE_FAILED err :: _ => (err, i, ob)
    end
  else (E_OK, i, ob).

Definition FillSharedBlock (i : SharedBlockInfo) (ob : option B) (steps : list stepped) (retryTime : Z)
    : errno * SharedBlockInfo * option B :=
  fill_loop retryTime steps 0 false false (set_rows (startPos i) 0 0 i) ob.

(** [ResetStatement]: a row that is larger than the block is an error. *)
Definition ResetStatement (i : SharedBlockInfo) (ob : option B) : bool :=
  negb (isFull i && (0 <? totalRows i) && (addedRows i =? 0) && match ob with Some _ => true | None => false end).

(** [SqliteStatement::FillBlockInfo] where SQLite has no shared-block support. *)
Definition FillBlockInfo (i : SharedBlockInfo) (ob : option B) (steps : list stepped) (retryTime : Z)
    : errno * SharedBlockInfo * option B :=
  let '(e, i', ob') := FillSharedBlock i ob steps retryTime in
  if is_ok e then (if ResetStatement i' ob' then E_OK else E_ERROR, i', ob') else (e, i', ob').

(** [SqliteStatement::Count]. *)
Definition Count (steps : list stepped) (retryTime : Z) : errno * Z :=
  let i := set_outcome true false
    {| startPos := 0; addedRows := 0; requiredPos := 0; totalRows := -1; isCountAllRows := true; columnNum := 0;
       isFull := false; hasException := false |} in
  let '(e, i', _) := FillBlockInfo i None steps retryTime in
  if is_ok e then (E_OK, totalRows i') else (e, -1).

End Filling.

End Fill.

(** ** What a fill leaves in the block *)

Module FillInv.
Import Block BlockInv AbsBlock Fill.

(** The cell a column becomes; [None] for what the fill cannot store. *)
Definition enc (col : column) : option cell :=
  match col with
  | ColText (Some bs) => Some (CBytes CELL_UNIT_TYPE_STRING (bs ++ [0]))
  | ColInteger v => Some (CLong v)
  | ColFloat w => Some (CDouble w)
  | ColBlob decl (Some bs) => Some (CBytes (blob_type decl) bs)
  | ColNull => Some CNull
  | _ => None
  end.

(** A row of [n] columns and the cells it becomes. *)
Record row_cells (n : Z) (row : list column) (cells : list cell) : Prop := {
  rc_enc : mapM enc row = Some cells;
  rc_width : Z.of_nat (length row) = n;
  rc_fits : Forall cell_fits cells
}.

(** The rows [sqlite3_step] gives before it is done. *)
Fixpoint rows_of (steps : list stepped) : list (list column) :=
  match steps with
  | SQLITE_ROW row :: rest => row :: rows_of rest
  | SQLITE_BUSY :: rest => rows_of rest
  | _ => []
  end.

Definition is_row (s : stepped) : Prop := match s with SQLITE_ROW _ => True | _ => False end.

(** Rows [s], ..., [s + a - 1] of a table. *)
Definition window (s a : Z) (tbl : list (list cell)) : list (list cell) := take (Z.to_nat a) (drop (Z.to_nat s) tbl).

Lemma window_length s a tbl :
  0 <= s -> 0 <= a -> s + a <= Z.of_nat (length tbl) -> length (window s a tbl) = Z.to_nat a.
Proof. intros. unfold window. rewrite length_take, length_drop. lia. Qed.

Lemma window_snoc s a pre v rest :
  0 <= s -> 0 <= a -> s + a = Z.of_nat (length pre) ->
  window s (a + 1) (pre ++ v :: rest) = window s a (pre ++ v :: rest) ++ [v].
Proof.
  intros Hs Ha Hl. unfold window. rewrite drop_app_le by lia.
  replace (Z.to_nat (a + 1)) with (S (Z.to_nat a)) by lia.
  assert (Hd : length (drop (Z.to_nat s) pre) = Z.to_nat a) by (rewrite length_drop; lia).
  rewrite <- Hd. rewrite take_app_length.
  rewrite firstn_app, firstn_all2 by lia. replace (S _ - _)%nat with 1%nat by lia. done.
Qed.

Lemma window_first k pre v rest :
  k = Z.of_nat (length pre) -> window k 1 (pre ++ v :: rest) = [v].
Proof. intros ->. unfold window. rewrite Nat2Z.id, drop_app_length. done. Qed.

Lemma window_none s tbl : window s 0 tbl = [].
Proof. done. Qed.

Section Window.
Context {B : Type} `{TableBlock B}.

Lemma blob_action_put (b : B) decl bs r p :
  blob_action decl b r p (Some bs) = put_cell b r p (CBytes (blob_type decl) bs).
Proof.
  unfold blob_action, blob_type. destruct decl as [d|]; [|done]. cbv zeta.
  repeat (destruct (String.eqb _ _); [done|]). done.
Qed.

Lemma fill_column_put (b : B) col r p v : enc col = Some v -> fill_column b col r p = filled (put_cell b r p v).
Proof.
  destruct col as [[bs|]|z|w|d [bs|]| |]; intros [= <-]; try done.
  simpl. unfold FillOneRowOfBlob. by rewrite blob_action_put.
Qed.

Lemma fill_columns_spec n rows cols : forall (b : B) r vs,
  holds b n (rows ++ [r]) -> mapM enc cols = Some vs -> Forall cell_fits vs ->
  Z.of_nat (length r + length cols) = n ->
  let '(res, b') := fill_columns b cols (Z.of_nat (length rows)) (Z.of_nat (length r)) in
  (res = FILL_ONE_ROW_SUCESS /\ holds b' n (rows ++ [r ++ vs])) \/
  (res = SHARED_BLOCK_IS_FULL /\ exists r', holds b' n (rows ++ [r'])).
Proof.
  induction cols as [|col cols IH]; intros b r vs Hb Hm Hf Hl.
  { injection Hm as <-. simpl. left. by rewrite app_nil_r. }
  apply mapM_Some in Hm. inversion Hm as [|? v ? vs' Hv Hm']; subst. apply mapM_Some in Hm'.
  apply Forall_cons in Hf as [Hfv Hf]. cbn [fill_columns]. rewrite (fill_column_put _ _ _ _ _ Hv).
  pose proof (holds_put b _ rows r v Hb ltac:(simpl; lia) Hfv) as Hp. unfold filled.
  destruct (put_cell b _ _ v) as [s b1]. cbn [fst snd]. destruct Hp as [[-> Hp]|[Hs Hp]].
  - rewrite bool_decide_eq_true_2 by done.
    specialize (IH b1 (r ++ [v]) vs' Hp Hm' Hf). rewrite length_app in IH. simpl in IH.
    replace (Z.of_nat (length r) + 1) with (Z.of_nat (length r + 1)) by lia.
    rewrite <- app_assoc in IH. apply IH. simpl. lia.
  - rewrite bool_decide_eq_false_2 by done. right. split; [done|by exists r].
Qed.

Lemma fill_one_row_spec (b : B) n rows row vs :
  holds b n rows -> row_cells n row vs ->
  let '(res, b') := FillOneRow b row n (Z.of_nat (length rows)) in
  (res = FILL_ONE_ROW_SUCESS /\ holds b' n (rows ++ [vs])) \/ (res = SHARED_BLOCK_IS_FULL /\ holds b' n rows).
Proof.
  intros Hb [Henc Hw Hf]. unfold FillOneRow. pose proof (holds_alloc b n rows Hb) as Ha.
  destruct (AllocRow b) as [s b1]. simpl in Ha. destruct Ha as [[-> Ha]|[Hs Ha]].
  - rewrite bool_decide_eq_true_2 by done. rewrite firstn_all2 by lia.
    pose proof (fill_columns_spec n rows row b1 [] vs Ha Henc Hf Hw) as Hc.
    change (Z.of_nat (length [])) with 0 in Hc. change ([] ++ vs) with vs in Hc.
    destruct (fill_columns b1 row _ 0) as [res b2]. destruct Hc as [[-> Hc]|[-> [r' Hc]]]; [by left|].
    right. split; [done|]. destruct (holds_free b2 n rows r' Hc) as (b3 & -> & Hfree). done.
  - rewrite bool_decide_eq_false_2 by done. by right.
Qed.

(** A fill of one row does not change the capacity. *)
Lemma capacity_columns_filled cols : forall (b : B) r p vs,
  mapM enc cols = Some vs -> capacity (snd (fill_columns b cols r p)) = capacity b.
Proof.
  induction cols as [|col cols IH]; intros b r p vs Hm; [done|].
  apply mapM_Some in Hm. inversion Hm as [|? v ? vs' Hv Hm']; subst. apply mapM_Some in Hm'.
  cbn [fill_columns]. rewrite (fill_column_put _ _ _ _ _ Hv). unfold filled.
  pose proof (capacity_put b r p v) as Hc. destruct (put_cell b r p v) as [s b1]. cbn [fst snd] in *.
  case_bool_decide; [|done]. rewrite <- Hc. by eapply IH.
Qed.

Lemma capacity_fill_one_row (b : B) row n r vs :
  row_cells n row vs -> capacity (snd (FillOneRow b row n r)) = capacity b.
Proof.
  intros [Henc Hw _]. unfold FillOneRow. pose proof (capacity_alloc b) as Ha.
  destruct (AllocRow b) as [s b1]. cbn [snd] in Ha. rewrite firstn_all2 by lia.
  pose proof (capacity_columns_filled row b1 r 0 vs Henc) as Hc.
  destruct (fill_columns b1 row r 0) as [res b2]. cbn [snd] in Hc. pose proof (capacity_free b2) as Hf.
  case_bool_decide; [destruct res|]; cbn [snd]; congruence.
Qed.

(** A row that is not larger than the space of a fresh block is not refused by it. *)
Lemma row_bytes_nonneg vs : 0 <= row_bytes vs.
Proof. induction vs as [|[|z|w|ty bs] vs IH]; simpl; lia. Qed.

Lemma fill_columns_room n rows cols : forall (b : B) r vs,
  holds b n (rows ++ [r]) -> mapM enc cols = Some vs -> Forall cell_fits vs ->
  Z.of_nat (length r + length cols) = n -> row_bytes vs <= free b ->
  fst (fill_columns b cols (Z.of_nat (length rows)) (Z.of_nat (length r))) = FILL_ONE_ROW_SUCESS.
Proof.
  induction cols as [|col cols IH]; intros b r vs Hb Hm Hf Hl Hroom; [done|].
  apply mapM_Some in Hm. inversion Hm as [|? v ? vs' Hv Hm']; subst. apply mapM_Some in Hm'.
  apply Forall_cons in Hf as [Hfv Hf]. cbn [fill_columns row_bytes foldr] in *. rewrite (fill_column_put _ _ _ _ _ Hv).
  fold (row_bytes vs') in Hroom. pose proof (row_bytes_nonneg vs').
  pose proof (holds_put b _ rows r v Hb ltac:(simpl; lia) Hfv) as Hp.
  pose proof (free_put b _ rows r v Hb ltac:(simpl; lia) Hfv ltac:(lia)) as Hr. unfold filled.
  destruct (put_cell b _ _ v) as [s b1]. cbn [fst snd]. destruct Hr as [-> Hr].
  destruct Hp as [[_ Hp]|[Hs _]]; [|done]. rewrite bool_decide_eq_true_2 by done.
  specialize (IH b1 (r ++ [v]) vs' Hp Hm' Hf). rewrite length_app in IH.
  replace (Z.of_nat (length r) + 1) with (Z.of_nat (length r + 1)) by lia. apply IH; simpl; lia.
Qed.

Lemma fresh_row_fits (b : B) n row vs :
  fresh b n -> row_cells n row vs -> directory (B := B) n + row_bytes vs <= capacity b ->
  fst (FillOneRow b row n 0) = FILL_ONE_ROW_SUCESS.
Proof.
  intros Hb [Henc Hw Hf] Hfits. pose proof (row_bytes_nonneg vs). unfold FillOneRow.
  pose proof (holds_alloc b n [] (fresh_holds b n Hb)) as Ha.
  destruct (fresh_alloc b n Hb ltac:(lia)) as [Hs Hfree]. destruct (AllocRow b) as [s b1]. cbn [fst snd] in *. subst s.
  destruct Ha as [[_ Ha]|[Hs _]]; [|done]. rewrite bool_decide_eq_true_2 by done. rewrite firstn_all2 by lia.
  pose proof (fill_columns_room n [] row b1 [] vs Ha Henc Hf Hw ltac:(lia)) as Hc.
  change (Z.of_nat (length [])) with 0 in Hc. change (Z.of_nat (length (@nil (list cell)))) with 0 in Hc.
  destruct (fill_columns b1 row 0 0) as [res b2]. cbn [fst] in Hc. by subst.
Qed.

(** Some row of the table is larger than all the space for rows. *)
Definition too_large (cap n : Z) (tbl : list (list cell)) : Prop :=
  exists vs, vs ∈ tbl /\ cap < directory (B := B) n + row_bytes vs.

Lemma refused_too_large (b : B) n row vs tbl :
  fresh b n -> row_cells n row vs -> vs ∈ tbl -> fst (FillOneRow b row n 0) = SHARED_BLOCK_IS_FULL ->
  too_large (capacity b) n tbl.
Proof.
  intros Hb Hrow Hin Hfull. exists vs. split; [done|]. apply Z.nle_gt. intros Hle.
  by rewrite (fresh_row_fits b n row vs Hb Hrow Hle) in Hfull.
Qed.

(** The state of a fill that has seen the first [k] rows of the table [tbl]; [cap] is the
    capacity of the block. *)
Record filling (cap n : Z) (tbl : list (list cell)) (s0 req k : Z) (i : SharedBlockInfo) (b : B) : Prop := {
  f_total : totalRows i = k;
  f_range : 0 <= k <= Z.of_nat (length tbl);
  f_start : 0 <= s0 <= startPos i /\ startPos i <= req;
  f_req : requiredPos i = req;
  f_cols : columnNum i = n;
  f_exc : hasException i = false;
  f_added : 0 <= addedRows i;
  f_holds : holds b n (window (startPos i) (addedRows i) tbl);
  f_state : if isFull i
            then 0 < k /\ startPos i + addedRows i <= k /\
                 ((addedRows i = 0 /\ too_large cap n tbl) \/ req < startPos i + addedRows i)
            else if k <=? startPos i then addedRows i = 0 else startPos i + addedRows i = k;
  f_cap : capacity b = cap;
  f_fresh : isFull i = false -> addedRows i = 0 -> fresh b n
}.

Lemma filling_length cap n tbl s0 req k i b :
  filling cap n tbl s0 req k i b -> Z.of_nat (length (window (startPos i) (addedRows i) tbl)) = addedRows i.
Proof.
  intros [? Hk [Hs _] _ _ _ Ha _ Hst _ _]. destruct (isFull i).
  - rewrite window_length by lia. lia.
  - destruct (Z.leb_spec k (startPos i)); [by rewrite Hst, window_none|]. rewrite window_length by lia. lia.
Qed.

(** One row more: [FillRow] on the row after the first [k]. *)
Lemma fill_row_step cap n pre vs rest s0 req (i : SharedBlockInfo) (b : B) row :
  0 <= n <= COL_MAX_NUM -> row_cells n row vs ->
  filling cap n (pre ++ vs :: rest) s0 req (Z.of_nat (length pre)) i b -> isFull i = false ->
  startPos i <= Z.of_nat (length pre) ->
  let '(i', b') := FillRow (set_rows (startPos i) (addedRows i) (totalRows i + 1) i) b row in
  filling cap n (pre ++ vs :: rest) s0 req (Z.of_nat (length pre) + 1) i' b' /\ isCountAllRows i' = isCountAllRows i.
Proof.
  intros Hn Hrow Hf Hfull Hsk. pose proof (filling_length _ _ _ _ _ _ _ _ Hf) as Hlen.
  set (k := Z.of_nat (length pre)) in *.
  destruct Hf as [H1 H2 [H3 H3'] H4 H5 H6 H7 H8 H9 Hcap Hfresh]. rewrite Hfull in H9. specialize (Hfresh Hfull).
  assert (Hsa : startPos i + addedRows i = k) by (destruct (Z.leb_spec k (startPos i)); lia).
  assert (Htbl : k + 1 <= Z.of_nat (length (pre ++ vs :: rest))) by (rewrite length_app; simpl; lia).
  assert (Hin : vs ∈ pre ++ vs :: rest) by set_solver.
  unfold FillRow. cbn [set_rows columnNum addedRows startPos requiredPos totalRows]. rewrite H5.
  pose proof (fill_one_row_spec b n _ row vs H8 Hrow) as Ho. rewrite Hlen in Ho.
  pose proof (capacity_fill_one_row b row n (addedRows i) vs Hrow) as Hcap1.
  destruct (FillOneRow b row n (addedRows i)) as [res b1] eqn:Hfr. cbn [snd] in Hcap1.
  destruct Ho as [[-> Ho]|[-> Ho]].
  { split; [|done]. split; cbn; rewrite ?Hfull; try done; try lia.
    - by rewrite window_snoc by (try done; lia).
    - destruct (Z.leb_spec (k + 1) (startPos i)); lia. }
  rewrite H4. destruct (negb (addedRows i =? 0) && (startPos i + addedRows i <=? req)) eqn:Hc.
  - destruct (holds_clear b1 n _ Ho) as (bc & Hclear & Hbc). pose proof (capacity_clear b1) as Hcap2.
    rewrite Hclear in *. cbn [snd] in *.
    destruct (holds_columns bc n Hbc Hn) as (bs & Hset & Hbs). pose proof (capacity_columns bc n) as Hcap3.
    rewrite Hset in *. cbn [snd] in *.
    pose proof (fill_one_row_spec bs n [] row vs (fresh_holds _ _ Hbs) Hrow) as Ho2.
    pose proof (capacity_fill_one_row bs row n 0 vs Hrow) as Hcap4.
    change (Z.of_nat (length (@nil (list cell)))) with 0 in Ho2. change ([] ++ [vs]) with [vs] in Ho2.
    destruct (FillOneRow bs row n 0) as [res2 b3] eqn:Hfr2. apply andb_true_iff in Hc as [_ Hc%Z.leb_le].
    cbn [snd] in Hcap4. assert (Hcaps : capacity bs = cap) by congruence.
    destruct Ho2 as [[-> Ho2]|[-> Ho2]]; (split; [split|]); cbn; rewrite ?Hfull; try done; try lia.
    + by rewrite Hsa, window_first.
    + destruct (Z.leb_spec (k + 1) (startPos i + addedRows i)); lia.
    + split; [lia|]. split; [lia|]. left. split; [done|]. rewrite <- Hcaps.
      apply (refused_too_large bs n row vs); try done. by rewrite Hfr2.
  - split; [|done]. split; cbn; try done; try lia. split; [lia|]. split; [lia|].
    destruct (Z.eqb_spec (addedRows i) 0) as [Ha0|Ha0]; [left|right; cbn in Hc; lia].
    split; [done|]. rewrite <- Hcap. apply (refused_too_large b n row vs); auto. by rewrite <- Ha0, Hfr.
Qed.

Lemma fill_loop_spec cap n s0 req retryTime : forall steps pre post retryCount (i : SharedBlockInfo) (b : B),
  0 <= n <= COL_MAX_NUM -> Forall2 (row_cells n) (rows_of steps) post ->
  filling cap n (pre ++ post) s0 req (Z.of_nat (length pre)) i b ->
  exists e i' b', fill_loop retryTime steps retryCount (isFull i) false i (Some b) = (e, i', Some b') /\
    (Forall is_row steps -> e = E_OK) /\
    (e = E_OK -> exists k, filling cap n (pre ++ post) s0 req k i' b' /\
       (isFull i' = false \/ isCountAllRows i = true -> k = Z.of_nat (length (pre ++ post)))).
Proof.
  induction steps as [|st steps IH]; intros pre post retryCount i b Hn Hrows Hf.
  { simpl in Hrows. inversion Hrows; subst. rewrite app_nil_r in *. simpl.
    exists E_OK, i, b. split; [by case_match|]. split; [done|]. intros _. eauto. }
  cbn [fill_loop negb andb]. destruct (negb (isFull i) || isCountAllRows i) eqn:Hgo; cycle 1.
  { apply orb_false_iff in Hgo as [Hgo1 Hgo2]. exists E_OK, i, b. split; [done|]. split; [done|]. intros _.
    exists (Z.of_nat (length pre)). split; [done|]. intros [Hx|Hx]; [by rewrite Hx in Hgo1|congruence]. }
  destruct st as [row| | |err].
  - cbn [rows_of] in Hrows. inversion Hrows as [|? vs ? post' Hrow Hrows']; subst.
    cbn [set_rows totalRows startPos].
    assert (Hsplit : pre ++ vs :: post' = (pre ++ [vs]) ++ post') by (by rewrite <- app_assoc).
    assert (Hk : Z.of_nat (length (pre ++ [vs])) = Z.of_nat (length pre) + 1) by (rewrite length_app; simpl; lia).
    destruct ((totalRows i + 1 <=? startPos i) || isFull i) eqn:Hskip.
    + destruct (IH (pre ++ [vs]) post' 0 (set_rows (startPos i) (addedRows i) (totalRows i + 1) i) b Hn Hrows')
        as (e & i' & b' & He & Hr & Hok).
      { rewrite <- Hsplit, Hk. destruct Hf as [H1 H2 H3 H4 H5 H6 H7 H8 H9 H10 H11].
        rewrite length_app in *. cbn [length] in *. split; cbn; try done; try lia.
        { rewrite length_app. cbn [length]. lia. }
        destruct (isFull i); [destruct H9 as (? & ? & ?); split; [lia|]; split; [lia|done]|].
        rewrite orb_false_r in Hskip. apply Z.leb_le in Hskip.
        destruct (Z.leb_spec (Z.of_nat (length pre)) (startPos i)), (Z.leb_spec (Z.of_nat (length pre) + 1) (startPos i)); lia. }
      exists e, i', b'. split; [exact He|]. split; [intros Hall; apply Hr; by inversion Hall|].
      rewrite Hsplit. exact Hok.
    + apply orb_false_iff in Hskip as [Hs Hfull]. apply Z.leb_gt in Hs.
      assert (Hsk : startPos i <= Z.of_nat (length pre)) by (destruct Hf; lia).
      pose proof (fill_row_step cap n pre vs post' s0 req i b row Hn Hrow Hf Hfull Hsk) as Hstep.
      cbn [fill_row]. destruct (FillRow _ b row) as [i1 b1]. destruct Hstep as [Hf1 Hc1].
      rewrite <- Hk, Hsplit in Hf1. pose proof (f_exc _ _ _ _ _ _ _ _ Hf1) as Hex. rewrite Hex.
      destruct (IH (pre ++ [vs]) post' 0 i1 b1 Hn Hrows' Hf1) as (e & i' & b' & He & Hr & Hok).
      exists e, i', b'. split; [exact He|]. split; [intros Hall; apply Hr; by inversion Hall|].
      rewrite Hsplit, <- Hc1. exact Hok.
  - simpl in Hrows. inversion Hrows; subst. rewrite app_nil_r in *. exists E_OK, i, b. split; [done|].
    split; [done|]. intros _. eauto.
  - cbn [rows_of] in Hrows. destruct (retryTime <=? retryCount).
    + exists E_DATABASE_BUSY, i, b. split; [done|]. split; [|done]. intros Hall. by inversion Hall.
    + destruct (IH pre post (retryCount + 1) i b Hn Hrows Hf) as (e & i' & b' & He & Hr & Hok).
      exists e, i', b'. split; [exact He|]. split; [|exact Hok]. intros Hall. by inversion Hall.
  - simpl in Hrows. inversion Hrows; subst. rewrite app_nil_r in *. exists err, i, b. split; [done|].
    split; [intros Hall; by inversion Hall|]. intros _. eauto.
Qed.
(** What one fill leaves behind; stated again, with its explanation, among the claims. *)
Lemma fill_window (b : B) n tbl i steps retryTime :
  fresh b n -> 0 <= n <= COL_MAX_NUM -> columnNum i = n -> 0 <= startPos i <= requiredPos i ->
  isFull i = false -> hasException i = false -> Forall2 (row_cells n) (rows_of steps) tbl ->
  exists e i' b', FillSharedBlock i (Some b) steps retryTime = (e, i', Some b') /\
    (Forall is_row steps -> e = E_OK) /\
    (e = E_OK ->
       holds b' n (window (startPos i') (addedRows i') tbl) /\ capacity b' = capacity b /\
       Z.of_nat (length (window (startPos i') (addedRows i') tbl)) = addedRows i' /\
       startPos i <= startPos i' <= requiredPos i /\
       (isFull i' = false -> totalRows i' = Z.of_nat (length tbl) /\
          Z.of_nat (length tbl) <= startPos i' + addedRows i') /\
       (isFull i' = true -> 0 < totalRows i' /\
          ((addedRows i' = 0 /\ too_large (capacity b) n tbl) \/ requiredPos i < startPos i' + addedRows i'))).
Proof.
  intros Hb Hn Hc Hs Hfull Hexc Hrows. unfold FillSharedBlock.
  destruct (fill_loop_spec (capacity b) n (startPos i) (requiredPos i) retryTime steps [] tbl 0
    (set_rows (startPos i) 0 0 i) b Hn Hrows) as (e & i' & b' & He & Hr & Hok).
  { split; cbn; rewrite ?Hfull; try done; try lia; [by apply fresh_holds|].
    by rewrite (proj2 (Z.leb_le _ _)) by lia. }
  exists e, i', b'. cbn [isFull set_rows] in He. rewrite Hfull in He. split; [exact He|]. split; [done|].
  intros Heq. destruct (Hok Heq) as (k & Hf & Hk). pose proof (filling_length _ _ _ _ _ _ _ _ Hf) as Hl.
  destruct Hf as [F1 F2 F3 F4 F5 F6 F7 F8 F9 F10 _]. cbn [startPos set_rows] in F3.
  split; [done|]. split; [done|]. split; [done|]. split; [lia|]. split; intros Hx; rewrite Hx in F9.
  - pose proof (Hk (or_introl Hx)) as Hk'. cbn [app] in Hk'. split; [lia|].
    destruct (Z.leb_spec k (startPos i')); lia.
  - destruct F9 as (? & ? & ?). split; [lia|done].
Qed.

End Window.
End FillInv.

(** ** The block behind [ExecuteForRows] *)

Module CacheBlock.
Import Block AbsBlock Fill.

Record t := {
  columns_ : list string;
  maxCount_ : Z;
  rows_ : list Bucket.ValuesBucket;
  isFull_ : bool;
  hasException_ : bool
}.

Definition new (maxCount : Z) (columns : list string) : t :=
  {| columns_ := columns; maxCount_ := maxCount; rows_ := []; isFull_ := false; hasException_ := false |}.

Definition with_rows (rows : list Bucket.ValuesBucket) (b : t) : t :=
  {| columns_ := columns_ b; maxCount_ := maxCount_ b; rows_ := rows; isFull_ := isFull_ b;
     hasException_ := hasException_ b |}.

Definition Clear (b : t) : status * t := (SHARED_BLOCK_OK, with_rows [] b).

Definition SetColumnNum (b : t) (numColumns : Z) : status * t := (SHARED_BLOCK_OK, b).

(** [AllocRow]: a block that has [maxCount_] rows ignores the row and says so to no one. *)
Definition AllocRow (b : t) : status * t :=
  if Int.u64 (maxCount_ b) <=? Z.of_nat (length (rows_ b)) then
    (SHARED_BLOCK_OK,
     {| columns_ := columns_ b; maxCount_ := maxCount_ b; rows_ := rows_ b; isFull_ := true;
        hasException_ := hasException_ b |})
  else (SHARED_BLOCK_OK, with_rows (rows_ b ++ [Bucket.new]) b).

Definition FreeLastRow (b : t) : status * t := (SHARED_BLOCK_OK, with_rows (removelast (rows_ b)) b).

Definition failed (b : t) : status * t :=
  (SHARED_BLOCK_BAD_VALUE,
   {| columns_ := columns_ b; maxCount_ := maxCount_ b; rows_ := rows_ b; isFull_ := isFull_ b;
      hasException_ := true |}).

(** The checks all the setters share, and the change of one row; [v] gives the changed row, or
    nothing when the value is refused. *)
Definition put (b : t) (row column : Z) (null : bool) (v : string -> Bucket.ValuesBucket -> option Bucket.ValuesBucket)
    : status * t :=
  if isFull_ b then (SHARED_BLOCK_OK, b)
  else
    match rows_ b !! Z.to_nat row, columns_ b !! Z.to_nat column, null with
    | Some r, Some name, false =>
        match v name r with
        | Some r' => (SHARED_BLOCK_OK, with_rows (<[Z.to_nat row := r']> (rows_ b)) b)
        | None => failed b
        end
    | _, _, _ => failed b
    end.

Definition is_null {A} (v : option A) : bool := match v with None => true | Some _ => false end.

Definition PutBlob (b : t) (row column : Z) (value : option (list Z)) : status * t :=
  put b row column (is_null value) (fun name r => Some (Bucket.Put r name (VBlob (default [] value)))).

(** The size includes the terminator. *)
Definition PutString (b : t) (row column : Z) (value : option (list Z)) : status * t :=
  put b row column (is_null value)
    (fun name r => Some (Bucket.PutString r name (Value.string_of_bytes (removelast (default [] value))))).

Definition PutLong (b : t) (row column value : Z) : status * t :=
  put b row column false (fun name r => Some (Bucket.PutLong r name value)).

Definition PutDouble (b : t) (row column value : Z) : status * t :=
  put b row column false (fun name r => Some (Bucket.PutDouble r name value)).

Definition PutNull (b : t) (row column : Z) : status * t :=
  put b row column false (fun name r => Some (Bucket.PutNull r name)).

Section Text.
Context `{Serializable.JsonText} (now : Z).

(** A parser that uses no byte refuses the value. *)
Definition parsed {A} (mk : A -> ValueObject) (res : option (Z * A)) (name : string) (r : Bucket.ValuesBucket)
    : option Bucket.ValuesBucket :=
  match res with
  | Some (used, x) => if used =? 0 then None else Some (Bucket.Put r name (mk x))
  | None => None
  end.

Definition PutAsset (b : t) (row column : Z) (value : option (list Z)) : status * t :=
  put b row column (is_null value)
    (parsed VAsset (RawDataParser.ParserAsset now (default [] value) Asset.empty)).

Definition PutAssets (b : t) (row column : Z) (value : option (list Z)) : status * t :=
  put b row column (is_null value) (parsed VAssets (RawDataParser.ParserAssets now (default [] value) [])).

Definition PutFloats (b : t) (row column : Z) (value : option (list Z)) : status * t :=
  put b row column (is_null value) (parsed VFloats (RawDataParser.ParserFloats (default [] value) [])).

Definition PutBigInt (b : t) (row column : Z) (value : option (list Z)) : status * t :=
  put b row column (is_null value) (parsed VBigInt (RawDataParser.ParserBigInt (default [] value) (mkBig 0 []))).

#[export] Instance cache_block_ops : AbsSharedBlock t := {
  AbsBlock.Clear := Clear;
  AbsBlock.SetColumnNum := SetColumnNum;
  AbsBlock.AllocRow := AllocRow;
  AbsBlock.FreeLastRow := FreeLastRow;
  AbsBlock.PutBlob := PutBlob;
  AbsBlock.PutString := PutString;
  AbsBlock.PutLong := PutLong;
  AbsBlock.PutDouble := PutDouble;
  AbsBlock.PutAsset := PutAsset;
  AbsBlock.PutAssets := PutAssets;
  AbsBlock.PutFloats := PutFloats;
  AbsBlock.PutBigInt := PutBigInt;
  AbsBlock.PutNull := PutNull
}.

(** [SqliteStatement::GetRows] where SQLite has no shared-block support; the column names have
    been read without error. *)
Definition GetRows (maxCount : Z) (colNames : list string) (steps : list stepped)
    : errno * list Bucket.ValuesBucket :=
  if bool_decide (colNames = []) then (E_OK, [])
  else
    let i :=
      {| startPos := 0; addedRows := 0; requiredPos := 0; totalRows := -1; isCountAllRows := true; columnNum := 0;
         isFull := false; hasException := false |} in
    let '(res, _, ob) := FillBlockInfo i (Some (new maxCount colNames)) steps 0 in
    if is_ok res then
      match ob with
      | Some b => if hasException_ b then (E_ERROR, []) else (E_OK, rows_ b)
      | None => (E_OK, [])
      end
    else (res, []).

End Text.

End CacheBlock.

(** ** The claims *)

Module FillProps.
Import Block BlockInv BlockSpec AbsBlock Fill FillInv.

(** C3: Filling a freshly cleared block of as many columns as the query has from the answers of
    [sqlite3_step], for any block that keeps the promise of [TableBlock] and a query each of whose rows
    can be written as cells, which one with an empty blob ([empty_blob_not_filled]) or
    a value of 2 GiB cannot: if [sqlite3_step] gives nothing but rows, the fill succeeds.  When it
    succeeds, also after waiting for a lock, the block holds exactly [addedRows] rows, those from [startPos] on, in order;
    [startPos] has only moved forward and not past the required row; a block that is not full holds every row
    to the end; a full block holds the required row, or it holds no row at all, which happens only if
    some row with its directory needs more than the capacity of the block. *)
Theorem fill_block_window {B} `{TableBlock B} (b : B) n tbl i steps retryTime :
  fresh b n -> 0 <= n <= COL_MAX_NUM -> columnNum i = n -> 0 <= startPos i <= requiredPos i ->
  isFull i = false -> hasException i = false -> Forall2 (row_cells n) (rows_of steps) tbl ->
  exists e i' b', FillSharedBlock i (Some b) steps retryTime = (e, i', Some b') /\
    (Forall is_row steps -> e = E_OK) /\
    (e = E_OK ->
       holds b' n (window (startPos i') (addedRows i') tbl) /\ capacity b' = capacity b /\
       Z.of_nat (length (window (startPos i') (addedRows i') tbl)) = addedRows i' /\
       startPos i <= startPos i' <= requiredPos i /\
       (isFull i' = false -> totalRows i' = Z.of_nat (length tbl) /\
          Z.of_nat (length tbl) <= startPos i' + addedRows i') /\
       (isFull i' = true -> 0 < totalRows i' /\
          ((addedRows i' = 0 /\ too_large (B := B) (capacity b) n tbl) \/ requiredPos i < startPos i' + addedRows i'))).
Proof. apply fill_window. Qed.

(** Two rows, the cells they become, and an empty block of 2 KiB. *)
Definition demo_rows : list (list column) :=
  [[ColInteger 7; ColText (Some [104; 105])]; [ColNull; ColBlob None (Some [1; 2])]].

Definition demo_table : list (list cell) :=
  [[CLong 7; CBytes CELL_UNIT_TYPE_STRING [104; 105; 0]]; [CNull; CBytes CELL_UNIT_TYPE_BLOB [1; 2]]].

Definition demo_block : SharedBlock := set_header (mkBlock 2048 false zero_header ∅) cleared_header.

Definition demo_columns_block : SharedBlock := snd (Block.SetColumnNum demo_block 2).

Lemma demo_block_fresh : block_fresh demo_block 0.
Proof.
  split; [|done|done]. split. exists empty_table. split; [|done]. apply (Create_abstracts 2048); [unfold_sizes; lia|reflexivity].
Qed.

Lemma demo_columns_fresh : block_fresh demo_columns_block 2.
Proof.
  destruct (block_columns demo_block 2) as (b' & Hs & Hb); [exact demo_block_fresh|unfold COL_MAX_NUM; lia|].
  unfold demo_columns_block. by rewrite Hs.
Qed.

Lemma demo_rows_cells : Forall2 (row_cells 2) demo_rows demo_table.
Proof. repeat constructor; vm_compute; try done; intros; discriminate. Qed.

(** The columns are set, the statement is asked for its rows from row 0 on. *)
Definition demo_info : SharedBlockInfo :=
  {| startPos := 0; addedRows := 0; requiredPos := 1; totalRows := 0; isCountAllRows := false; columnNum := 2;
     isFull := false; hasException := false |}.

Lemma fill_block_window_witness :
  exists e i' b', FillSharedBlock demo_info (Some demo_columns_block) (map SQLITE_ROW demo_rows) 2 = (e, i', Some b') /\
    block_holds b' 2 demo_table.
Proof.
  destruct (fill_block_window demo_columns_block 2 demo_table demo_info (map SQLITE_ROW demo_rows) 2)
    as (e & i' & b' & Hf & Hok & Hw);
    [exact demo_columns_fresh|unfold COL_MAX_NUM; lia|done|vm_compute; split; discriminate|done|done|exact demo_rows_cells|].
  exists e, i', b'. split; [exact Hf|]. destruct Hw as (Hw & _); [by apply Hok; repeat constructor|].
  assert (Hi : snd (fst (FillSharedBlock demo_info (Some demo_columns_block) (map SQLITE_ROW demo_rows) 2)) =
    set_rows 0 2 2 demo_info) by (vm_compute; reflexivity).
  rewrite Hf in Hi. cbn [fst snd] in Hi. rewrite Hi in Hw. exact Hw.
Defined.

(** A fill without a block only counts. *)
Lemma count_loop retryTime steps : forall i : SharedBlockInfo,
  isCountAllRows i = true -> startPos i = 0 -> hasException i = false -> 0 <= totalRows i -> Forall is_row steps ->
  exists i', fill_loop (B := SharedBlock) retryTime steps 0 true false i None = (E_OK, i', None) /\
    totalRows i' = totalRows i + Z.of_nat (length steps).
Proof.
  induction steps as [|st steps IH]; intros i Hc Hs He Ht Hr.
  { exists i. simpl. rewrite Hc. split; [done|lia]. }
  apply Forall_cons in Hr as [Hst Hr]. destruct st as [row| | |]; try done.
  cbn [fill_loop negb andb orb]. rewrite Hc, orb_true_r.
  destruct (IH (set_rows (startPos i) (addedRows i) (totalRows i + 1) i)) as (i' & -> & Hi); try done; [simpl; lia|].
  exists i'. split; [done|]. rewrite Hi. simpl. lia.
Qed.

Lemma rows_of_length steps : Forall is_row steps -> length (rows_of steps) = length steps.
Proof. induction 1 as [|st steps Hst _ IH]; [done|]. destruct st; try done. simpl. by rewrite IH. Qed.

(** [Count] is the number of rows of the result. *)
Theorem count_is_row_count steps retryTime :
  Forall is_row steps -> Count (B := SharedBlock) steps retryTime = (E_OK, Z.of_nat (length (rows_of steps))).
Proof.
  intros Hr. rewrite rows_of_length by done. unfold Count, FillBlockInfo, FillSharedBlock. cbn [set_rows set_outcome startPos].
  destruct steps as [|[row| | |] steps]; try (by inversion Hr). apply Forall_cons in Hr as [_ Hr].
  cbn [fill_loop fill_row negb andb orb set_rows set_outcome isFull hasException totalRows startPos isCountAllRows].
  change ((0 + 1 <=? 0) || false) with false. cbv iota beta.
  match goal with |- context [fill_loop _ _ _ _ _ ?i None] => destruct (count_loop retryTime steps i) as (i' & He & Hi) end;
    try done. rewrite He.
  ok_simpl. cbv iota.
  replace (ResetStatement i' (@None SharedBlock)) with true by (unfold ResetStatement; by rewrite andb_false_r).
  change (is_ok E_OK) with true. cbv beta iota zeta. f_equal. rewrite Hi.
  cbn [totalRows length set_rows set_outcome]. lia.
Qed.

Lemma count_is_row_count_witness : Count (B := SharedBlock) (map SQLITE_ROW demo_rows) 2 = (E_OK, 2).
Proof. apply (count_is_row_count (map SQLITE_ROW demo_rows) 2). repeat constructor. Defined.

(** SQLite gives a null pointer for a blob of length zero; a row that has such a column
    is never filled: [FillOneRow] reports the block as full, however much room it has. *)
Theorem empty_blob_not_filled (b : SharedBlock) n rows row pre decl post :
  block_holds b n rows -> row = pre ++ ColBlob decl None :: post -> Forall (fun c => c <> ColUnknown) pre ->
  (length row <= Z.to_nat n)%nat ->
  fst (FillOneRow b row n (Z.of_nat (length rows))) = SHARED_BLOCK_IS_FULL.
Proof.
  intros Hb -> Hpre Hlen. unfold FillOneRow. destruct (AbsBlock.AllocRow b) as [s b1].
  case_bool_decide; [|done]. rewrite firstn_all2 by done. generalize 0 as p. clear -Hpre.
  assert (Hc : forall b1 p, fst (fill_columns b1 (pre ++ ColBlob decl None :: post) (Z.of_nat (length rows)) p)
    = SHARED_BLOCK_IS_FULL).
  { clear b1. induction Hpre as [|c pre Hc _ IH]; intros b1 p; cbn [app fill_columns].
    - cbn [fill_column]. unfold FillOneRowOfBlob, blob_action.
      destruct decl as [d|]; [|done]. cbv zeta. repeat (destruct (String.eqb _ _); [done|]). done.
    - assert (Hne : fst (fill_column b1 c (Z.of_nat (length rows)) p) <> FILL_ONE_ROW_FAIL).
      { destruct c as [[bs|]|z|w|d bl| |]; try done; cbn [fill_column];
          unfold FillOneRowOfString, FillOneRowOfLong, FillOneRowOfFloat, FillOneRowOfBlob, FillOneRowOfNull, filled;
          by case_bool_decide. }
      destruct (fill_column b1 c _ p) as [[| |] b2]; try done; apply IH. }
  intros p. specialize (Hc b1 p). destruct (fill_columns b1 _ _ p) as [res b2]. simpl in Hc. by subst.
Qed.

Lemma empty_blob_not_filled_witness :
  fst (FillOneRow demo_columns_block [ColInteger 7; ColBlob None None] 2 0) = SHARED_BLOCK_IS_FULL.
Proof.
  apply (empty_blob_not_filled demo_columns_block 2 [] _ [ColInteger 7] None []);
    [exact (bf_holds _ _ demo_columns_fresh)|reflexivity|by repeat constructor|vm_compute; lia].
Defined.

(** The fill of [GetRows]: no column is ever put. *)
Lemma cache_fill_row `{Serializable.JsonText} now i (b : CacheBlock.t) row :
  columnNum i = 0 ->
  FillRow (H := CacheBlock.cache_block_ops now) i b row =
    (set_rows (startPos i) (addedRows i + 1) (totalRows i) i, snd (CacheBlock.AllocRow b)).
Proof.
  intros Hn. unfold FillRow, FillOneRow. rewrite Hn. cbn [AbsBlock.AllocRow CacheBlock.cache_block_ops].
  unfold CacheBlock.AllocRow. by destruct (_ <=? _).
Qed.

Lemma cache_alloc maxCount colNames k full :
  0 <= maxCount < 2 ^ 31 -> (k <= Z.to_nat maxCount)%nat ->
  exists full', snd (CacheBlock.AllocRow (CacheBlock.Build_t colNames maxCount (replicate k Bucket.new) full false)) =
    CacheBlock.Build_t colNames maxCount (replicate (Nat.min (Z.to_nat maxCount) (S k)) Bucket.new) full' false.
Proof.
  intros Hm Hk. unfold CacheBlock.AllocRow. cbn [CacheBlock.rows_ CacheBlock.maxCount_].
  rewrite length_replicate, Int.u64_small by lia. destruct (Z.leb_spec maxCount (Z.of_nat k)) as [Hle|Hgt].
  - rewrite Nat.min_l by lia. replace (Z.to_nat maxCount) with k by lia. by eexists.
  - rewrite Nat.min_r by lia. exists full. cbn [snd]. unfold CacheBlock.with_rows. cbn.
    f_equal. by rewrite <- replicate_cons_app.
Qed.

Lemma get_rows_loop `{Serializable.JsonText} now maxCount colNames steps : forall (k : nat) (i : SharedBlockInfo) full,
  0 <= maxCount < 2 ^ 31 -> Forall is_row steps -> (k <= Z.to_nat maxCount)%nat ->
  columnNum i = 0 -> startPos i = 0 -> isFull i = false -> hasException i = false -> 0 <= totalRows i ->
  exists i' full',
    fill_loop (H := CacheBlock.cache_block_ops now) 0 steps 0 false false i
      (Some (CacheBlock.Build_t colNames maxCount (replicate k Bucket.new) full false)) =
    (E_OK, i', Some (CacheBlock.Build_t colNames maxCount
       (replicate (Nat.min (Z.to_nat maxCount) (k + length steps)) Bucket.new) full' false)) /\ isFull i' = false.
Proof.
  induction steps as [|st steps IH]; intros k i full Hm Hr Hk Hn Hs Hf He Ht.
  { exists i, full. simpl. rewrite Nat.add_0_r, Nat.min_r by lia. done. }
  apply Forall_cons in Hr as [Hst Hr]. destruct st as [row| | |]; try done.
  cbn [fill_loop negb andb orb set_rows totalRows startPos]. rewrite Hs, orb_false_r.
  rewrite (proj2 (Z.leb_gt _ _)) by lia. cbn [fill_row]. rewrite cache_fill_row by done.
  destruct (cache_alloc maxCount colNames k full Hm Hk) as [full1 ->].
  set (i1 := set_rows _ _ _ (set_rows _ _ _ i)).
  replace (isFull i1) with false by (by rewrite <- Hf). replace (hasException i1) with false by (by rewrite <- He).
  destruct (IH (Nat.min (Z.to_nat maxCount) (S k)) i1 full1) as (i' & full' & -> & Hi); try done; [lia|simpl; lia|].
  exists i', full'. split; [|done]. cbn [length].
  by replace (Nat.min _ (_ + length steps)) with (Nat.min (Z.to_nat maxCount) (k + S (length steps))) by lia.
Qed.

(** [GetRows] does not tell the fill how many columns there are: where SQLite has no shared-block
    support it gives the right number of rows, at most [maxCount], and every one of them is
    empty. *)
Theorem get_rows_are_empty `{Serializable.JsonText} now maxCount colNames steps :
  0 <= maxCount < 2 ^ 31 -> colNames <> [] -> Forall is_row steps ->
  CacheBlock.GetRows now maxCount colNames steps =
    (E_OK, replicate (Nat.min (Z.to_nat maxCount) (length steps)) Bucket.new).
Proof.
  intros Hm Hc Hr. unfold CacheBlock.GetRows. rewrite bool_decide_eq_false_2 by done. cbv zeta.
  unfold FillBlockInfo, FillSharedBlock, CacheBlock.new.
  match goal with |- context [fill_loop _ _ _ _ _ ?i _] =>
    destruct (get_rows_loop now maxCount colNames steps 0 i false) as (i' & full' & He & Hi) end; try done; [lia|].
  cbn [replicate] in He. rewrite He. change (is_ok E_OK) with true. cbv iota beta.
  unfold ResetStatement. rewrite Hi. cbn [andb negb]. by change (is_ok E_OK) with true.
Qed.

Lemma get_rows_are_empty_witness :
  CacheBlock.GetRows 0 10 ["id"; "name"] (map SQLITE_ROW demo_rows) = (E_OK, [Bucket.new; Bucket.new]).
Proof.
  apply (get_rows_are_empty 0 10 ["id"; "name"] (map SQLITE_ROW demo_rows));
    [vm_compute; split; [discriminate|reflexivity]|discriminate|repeat constructor].
Defined.

End FillProps.
