(* ===== verification/SqliteStmt.v ===== *)
(** * Prepared statements

    [SQLiteError]: frameworks/native/rdb/include/sqlite_errno.h.
    [Sqlite]: the functions of SQLite the statements call, as a class of operations on a state
    [W]; SQLite is not part of the repository.  [SqliteLaws] is what the theorems rely on.
    [SqliteStatement]: frameworks/native/rdb/src/sqlite_statement.cpp, and the creation of
    statements of sqlite_connection.cpp with the statement on the backup database beside it.
    [StatementProps]: the claims.

    Fault reports, statistics and the messages of errors are left out. *)
From Stdlib Require Import ZArith Lia Ascii.
From stdpp Require Import base gmap list strings.
From S2P Require Import Prelude CppStd Errno Values StringUtils RawData SharedBlock FillBlock.

Local Open Scope Z_scope.

Module SQLiteError.

Definition SQLITE_OK : Z := 0.
Definition SQLITE_BUSY : Z := 5.
Definition SQLITE_LOCKED : Z := 6.
Definition SQLITE_MISUSE : Z := 21.
Definition SQLITE_ROW : Z := 100.
Definition SQLITE_DONE : Z := 101.

(** [SQLiteErrorCodes]. *)
Definition SQLiteErrorCodes : list (Z * errno) :=
  [(1, E_SQLITE_ERROR); (3, E_SQLITE_PERM); (4, E_SQLITE_ABORT); (SQLITE_BUSY, E_SQLITE_BUSY);
   (SQLITE_LOCKED, E_SQLITE_LOCKED); (7, E_SQLITE_NOMEM); (8, E_SQLITE_READONLY); (9, E_SQLITE_INTERRUPT);
   (10, E_SQLITE_IOERR); (11, E_SQLITE_CORRUPT); (13, E_SQLITE_FULL); (14, E_SQLITE_CANTOPEN);
   (17, E_SQLITE_SCHEMA); (18, E_SQLITE_TOOBIG); (19, E_SQLITE_CONSTRAINT); (20, E_SQLITE_MISMATCH);
   (SQLITE_MISUSE, E_SQLITE_MISUSE); (26, E_SQLITE_CORRUPT); (66, E_SQLITE_META_RECOVERED);
   (SQLITE_ROW, E_OK); (SQLITE_DONE, E_NO_MORE_ROWS)].

(** [IsIncreasing], which a [static_assert] checks. *)
Fixpoint IsIncreasing (l : list (Z * errno)) : bool :=
  match l with
  | a :: ((b :: _) as rest) => if fst b <=? fst a then false else IsIncreasing rest
  | _ => true
  end.

(** The code [- errorCode] of an unknown result; the result 0 is [E_OK]. *)
Definition native (errorCode : Z) : errno := if errorCode =? 0 then E_OK else E_NATIVE errorCode.

Definition GetRdbErrorCode (errorCode : Z) : errno :=
  match SQLiteErrorCodes !! Search.lower_bound (fun t => fst t <? errorCode) SQLiteErrorCodes with
  | Some (c, e) => if c =? errorCode then e else native errorCode
  | None => native errorCode
  end.

Definition ErrNo (sqliteErr : Z) : errno := GetRdbErrorCode sqliteErr.

End SQLiteError.

Module Sqlite.
Import SQLiteError.

(** A call of one of the functions that set a parameter. *)
Inductive binding :=
| sqlite3_bind_null
| sqlite3_bind_int64 (v : Z)
| sqlite3_bind_double (bits : Z)
| sqlite3_bind_text (text : list Z)
| sqlite3_bind_zeroblob (n : Z)
| sqlite3_bind_blob (bs : list Z).

(** The library, with all its databases and statements, is a state of type [W]; a database or
    a statement is a number, and [None] is the null pointer.  [sqlite3_column] is what the
    [sqlite3_column_*] functions give for a column of the current row.  [wal_size] is the size of
    the write-ahead log of a database, negative when there is none. *)
Class Sqlite (W : Type) := {
  sqlite3_prepare_v2 : Z -> string -> W -> Z * option Z * W;
  sqlite3_finalize : option Z -> W -> Z * W;
  sqlite3_reset : option Z -> W -> Z * W;
  sqlite3_clear_bindings : option Z -> W -> Z * W;
  sqlite3_bind : option Z -> Z -> binding -> W -> Z * W;
  sqlite3_step : option Z -> W -> Z * W;
  sqlite3_db_handle : option Z -> W -> Z;
  sqlite3_stmt_readonly : option Z -> W -> bool;
  sqlite3_column_count : option Z -> W -> Z;
  sqlite3_bind_parameter_count : option Z -> W -> Z;
  sqlite3_column_name : option Z -> Z -> W -> option string;
  sqlite3_column : option Z -> Z -> W -> Fill.column;
  sqlite3_changes : Z -> W -> Z;
  sqlite3_last_insert_rowid : Z -> W -> Z;
  sqlite3_system_errno : Z -> W -> Z;
  wal_size : Z -> W -> Z
}.

(** What the documentation of SQLite says about parameters: [param w h i] is the value of
    parameter [i]; a successful bind sets one parameter and no other, a reset none, and
    [sqlite3_clear_bindings] sets them all to null; only [sqlite3_step] gives [SQLITE_ROW]. *)
Class SqliteLaws (W : Type) `{Sqlite W} := {
  param : W -> Z -> Z -> binding;
  param_bind h i v w : fst (sqlite3_bind (Some h) i v w) = SQLITE_OK ->
    param (snd (sqlite3_bind (Some h) i v w)) h i = v /\
    (forall j, j <> i -> param (snd (sqlite3_bind (Some h) i v w)) h j = param w h j);
  bind_code h i v w : fst (sqlite3_bind (Some h) i v w) <> SQLITE_ROW;
  param_reset h w j : param (snd (sqlite3_reset (Some h) w)) h j = param w h j;
  param_clear h w j : param (snd (sqlite3_clear_bindings (Some h) w)) h j = sqlite3_bind_null
}.

End Sqlite.

Module SqliteStatement.
Import SQLiteError Sqlite.

Definition COLUMN_TYPE_INVALID : Z := 0.

(** [ColumnType]. *)
Definition TYPE_NULL : Z := 0.
Definition TYPE_INTEGER : Z := 1.
Definition TYPE_FLOAT : Z := 2.
Definition TYPE_STRING : Z := 3.
Definition TYPE_BLOB : Z := 4.
Definition TYPE_ASSET : Z := 5.
Definition TYPE_ASSETS : Z := 6.
Definition TYPE_FLOAT32_ARRAY : Z := 7.
Definition TYPE_BIGINT : Z := 8.

(** What a statement asks its connection. *)
Record Connection := {
  dbHandle_ : Z;
  isWriter_ : bool;
  isConfigured_ : bool;
  isMemoryRdb : bool;
  walLimitSize : Z
}.

(** A statement without the one on the backup database. *)
Record base := {
  readOnly_ : bool;
  bound_ : bool;
  columnCount_ : Z;
  numParameters_ : Z;
  stmt_ : option Z;
  conn_ : option Connection;
  sql_ : string;
  types_ : list Z
}.

(** The constructor. *)
Definition new : base :=
  {| readOnly_ := false; bound_ := false; columnCount_ := 0; numParameters_ := 0; stmt_ := None; conn_ := None;
     sql_ := EmptyString; types_ := [] |}.

Definition set_bound (st : base) : base :=
  {| readOnly_ := readOnly_ st; bound_ := true; columnCount_ := columnCount_ st; numParameters_ := numParameters_ st;
     stmt_ := stmt_ st; conn_ := conn_ st; sql_ := sql_ st; types_ := types_ st |}.

Definition set_conn (c : option Connection) (st : base) : base :=
  {| readOnly_ := readOnly_ st; bound_ := bound_ st; columnCount_ := columnCount_ st; numParameters_ := numParameters_ st;
     stmt_ := stmt_ st; conn_ := c; sql_ := sql_ st; types_ := types_ st |}.

Definition set_type (index ty : Z) (st : base) : base :=
  {| readOnly_ := readOnly_ st; bound_ := bound_ st; columnCount_ := columnCount_ st; numParameters_ := numParameters_ st;
     stmt_ := stmt_ st; conn_ := conn_ st; sql_ := sql_ st; types_ := <[Z.to_nat index := ty]> (types_ st) |}.

Section Statement.
Context {W : Type} `{Sqlite W} `{Serializable.JsonText} (now : Z).

(** [SqliteConnection::LimitWalSize]. *)
Definition LimitWalSize (c : Connection) (w : W) : errno :=
  if negb (isConfigured_ c) || negb (isWriter_ c) || isMemoryRdb c then E_OK
  else
    let fileSize := wal_size (dbHandle_ c) w in
    if (fileSize <? 0) || (walLimitSize c <? fileSize) then E_WAL_SIZE_OVER_LIMIT else E_OK.

Definition InnerFinalize (st : base) (w : W) : errno * base * W :=
  match stmt_ st with
  | None => (E_OK, st, w)
  | Some h =>
      let '(errCode, w1) := sqlite3_finalize (Some h) w in
      let st1 := {| readOnly_ := false; bound_ := bound_ st; columnCount_ := -1; numParameters_ := 0; stmt_ := None;
                    conn_ := conn_ st; sql_ := EmptyString; types_ := [] |} in
      (if errCode =? SQLITE_OK then E_OK else ErrNo errCode, st1, w1)
  end.

(** [Prepare(sqlite3 *, sql)]. *)
Definition PrepareOn (db : Z) (newSql : string) (st : base) (w : W) : errno * base * W :=
  if String.eqb (sql_ st) newSql then (E_OK, st, w)
  else
    let '(errCode, stmt, w1) := sqlite3_prepare_v2 db newSql w in
    if negb (errCode =? SQLITE_OK) then
      (ErrNo errCode, st, match stmt with Some h => snd (sqlite3_finalize (Some h) w1) | None => w1 end)
    else
      let '(_, st1, w2) := InnerFinalize st w1 in
      let columns := sqlite3_column_count stmt w2 in
      (E_OK,
       {| readOnly_ := sqlite3_stmt_readonly stmt w2; bound_ := bound_ st1; columnCount_ := columns;
          numParameters_ := sqlite3_bind_parameter_count stmt w2; stmt_ := stmt; conn_ := conn_ st1; sql_ := newSql;
          types_ := replicate (Z.to_nat columns) COLUMN_TYPE_INVALID |}, w2).

Definition BindNil : binding := sqlite3_bind_null.
Definition BindInteger (val : Z) : binding := sqlite3_bind_int64 val.
Definition BindDouble (val : Z) : binding := sqlite3_bind_double val.
Definition BindText (val : string) : binding := sqlite3_bind_text (Value.bytes_of_string val).
Definition BindBool (val : bool) : binding := sqlite3_bind_int64 (if val then 1 else 0).
Definition BindBlob (val : list Z) : binding :=
  match val with [] => sqlite3_bind_zeroblob 0 | _ => sqlite3_bind_blob val end.
Definition BindAsset (val : AssetValue) : binding := sqlite3_bind_blob (RawDataParser.PackageAsset val).
Definition BindAssets (val : list AssetValue) : binding := sqlite3_bind_blob (RawDataParser.PackageAssets val).
Definition BindFloats (val : list Z) : binding := sqlite3_bind_blob (RawDataParser.PackageFloats val).
Definition BindBigInt (val : BigInteger) : binding := sqlite3_bind_blob (RawDataParser.PackageBigInt val).

(** [ACTIONS]: the function for the alternative of the value, which always finds it. *)
Definition action (v : ValueObject) : binding :=
  match v with
  | VNil => BindNil
  | VInt z => BindInteger z
  | VDouble d => BindDouble d
  | VString s => BindText s
  | VBool b => BindBool b
  | VBlob bs => BindBlob bs
  | VAsset a => BindAsset a
  | VAssets l => BindAssets l
  | VFloats l => BindFloats l
  | VBigInt b => BindBigInt b
  end.

Fixpoint bind_loop (stmt : option Z) (index : Z) (bindArgs : list ValueObject) (w : W) : errno * W :=
  match bindArgs with
  | [] => (E_OK, w)
  | arg :: rest =>
      let '(errCode, w1) := sqlite3_bind stmt index (action arg) w in
      if negb (errCode =? SQLITE_OK) then (ErrNo errCode, w1) else bind_loop stmt (index + 1) rest w1
  end.

(** [BindArgs]: a value always has an alternative ([CheckValueObjectValid]). *)
Definition BindArgs (bindArgs : list ValueObject) (st : base) (w : W) : errno * base * W :=
  let w1 := if bound_ st then snd (sqlite3_clear_bindings (stmt_ st) (snd (sqlite3_reset (stmt_ st) w))) else w in
  let '(e, w2) := bind_loop (stmt_ st) 1 bindArgs w1 in
  (e, set_bound st, w2).

(** [Bind] of one statement: missing values are null. *)
Definition BindOne (args : list ValueObject) (st : base) (w : W) : errno * base * W :=
  let count := Z.of_nat (length args) in
  if count =? 0 then (E_OK, st, w)
  else
    let abindArgs :=
      if negb (numParameters_ st =? 0) && (count <=? numParameters_ st)
      then args ++ replicate (Z.to_nat (numParameters_ st - count)) VNil else [] in
    if numParameters_ st <? count then (E_INVALID_BIND_ARGS_COUNT, st, w)
    else BindArgs abindArgs st w.

Definition InnerStep (st : base) (w : W) : errno * W :=
  let '(errCode, w1) := sqlite3_step (stmt_ st) w in (ErrNo errCode, w1).

Definition ResetOne (st : base) (w : W) : errno * W :=
  match stmt_ st with
  | None => (E_OK, w)
  | Some h =>
      let '(errCode, w1) := sqlite3_reset (Some h) w in
      (if errCode =? SQLITE_OK then E_OK else ErrNo errCode, w1)
  end.

Definition CheckEnvironment (paramCount : Z) (st : base) (w : W) : errno :=
  if negb (paramCount =? numParameters_ st) then E_INVALID_BIND_ARGS_COUNT
  else
    match conn_ st with
    | None => E_OK
    | Some c =>
        if negb (isWriter_ c) && negb (readOnly_ st) then E_EXECUTE_WRITE_IN_READ_CONNECTION
        else
          let sqlType := SqliteUtils.GetSqlStatementType (sql_ st) in
          if negb (sqlType =? SqliteUtils.STATEMENT_COMMIT) && negb (sqlType =? SqliteUtils.STATEMENT_ROLLBACK)
          then LimitWalSize c w else E_OK
    end.

(** [Execute] of one statement. *)
Definition ExecuteOne (args : list ValueObject) (st : base) (w : W) : errno * base * W :=
  let e1 := CheckEnvironment (Z.of_nat (length args)) st w in
  if negb (is_ok e1) then (e1, st, w)
  else
    let '(e2, st1, w1) := BindArgs args st w in
    if negb (is_ok e2) then (e2, st1, w1)
    else
      let '(e3, w2) := InnerStep st1 w1 in
      if negb (bool_decide (e3 = E_NO_MORE_ROWS)) && negb (is_ok e3) then
        (if bool_decide (e3 = E_SQLITE_IOERR) && (sqlite3_system_errno (sqlite3_db_handle (stmt_ st1) w2) w2 =? 28)
         then E_SQLITE_IOERR_FULL else e3, st1, w2)
      else (E_OK, st1, w2).

Definition Changes (st : base) (w : W) : Z :=
  match stmt_ st with None => -1 | Some h => sqlite3_changes (sqlite3_db_handle (Some h) w) w end.

Definition LastInsertRowId (st : base) (w : W) : Z :=
  match stmt_ st with None => -1 | Some h => sqlite3_last_insert_rowid (sqlite3_db_handle (Some h) w) w end.

Definition GetColumnCount (st : base) : Z := columnCount_ st.

Definition ReadOnly (st : base) : bool := readOnly_ st.

(** *** The current row *)

Definition IsValid (index : Z) (st : base) : errno :=
  match stmt_ st with
  | None => E_ALREADY_CLOSED
  | Some _ => if (columnCount_ st <=? index) || (index <? 0) then E_COLUMN_OUT_RANGE else E_OK
  end.

Definition GetColumnName (index : Z) (st : base) (w : W) : errno * string :=
  let ret := IsValid index st in
  if negb (is_ok ret) then (ret, EmptyString)
  else match sqlite3_column_name (stmt_ st) index w with None => (E_ERROR, EmptyString) | Some name => (E_OK, name) end.

(** [sqlite3_column_type] through [Convert2ColumnType]; [None] for a blob, which the caller
    treats apart. *)
Definition Convert2ColumnType (col : Fill.column) : option Z :=
  match col with
  | Fill.ColInteger _ => Some TYPE_INTEGER
  | Fill.ColFloat _ => Some TYPE_FLOAT
  | Fill.ColText _ => Some TYPE_STRING
  | Fill.ColBlob _ _ => None
  | _ => Some TYPE_NULL
  end.

(** The type of a blob from its declaration. *)
Definition decl_type (decl : string) : Z :=
  let declType := StringUtils.TruncateAfterFirstParen (SqliteUtils.StrToUpper decl) in
  if String.eqb declType "ASSET" then TYPE_ASSET
  else if String.eqb declType "ASSETS" then TYPE_ASSETS
  else if String.eqb declType "FLOATVECTOR" then TYPE_FLOAT32_ARRAY
  else if String.eqb declType "UNLIMITED INT" then TYPE_BIGINT
  else TYPE_BLOB.

(** [GetColumnType]: the type of a blob is remembered in [types_]. *)
Definition GetColumnType (index : Z) (st : base) (w : W) : errno * Z * base :=
  let ret := IsValid index st in
  if negb (is_ok ret) then (ret, TYPE_NULL, st)
  else
    let col := sqlite3_column (stmt_ st) index w in
    match Convert2ColumnType col with
    | Some ty => (E_OK, ty, st)
    | None =>
        let cached := nth (Z.to_nat index) (types_ st) COLUMN_TYPE_INVALID in
        if negb (cached =? COLUMN_TYPE_INVALID) then (E_OK, cached, st)
        else
          match col with
          | Fill.ColBlob (Some decl) _ => (E_OK, decl_type decl, set_type index (decl_type decl) st)
          | _ => (E_ERROR, TYPE_NULL, st)
          end
    end.

(** [sqlite3_column_bytes]. *)
Definition column_bytes (col : Fill.column) : Z :=
  match col with
  | Fill.ColText (Some bs) | Fill.ColBlob _ (Some bs) => Z.of_nat (length bs)
  | _ => 0
  end.

Definition GetSize (index : Z) (st : base) (w : W) : errno * Z * base :=
  let '(errCode, type, st1) := GetColumnType index st w in
  if negb (is_ok errCode) then (errCode, 0, st1)
  else
    let col := sqlite3_column (stmt_ st) index w in
    if (type =? TYPE_BLOB) || (type =? TYPE_NULL) then (E_OK, column_bytes col, st1)
    else if type =? TYPE_STRING then (E_OK, column_bytes col + 1, st1)
    else (E_INVALID_COLUMN_TYPE, 0, st1).

(** [GetValueFromBlob]: what the parser leaves is taken whatever it used; [None] where it would
    leave the buffer. *)
Definition GetValueFromBlob (blob : option (list Z)) (type : Z) : option ValueObject :=
  match blob with
  | None | Some [] => Some VNil
  | Some bs =>
      if type =? TYPE_ASSET then (fun r => VAsset (snd r)) <$> RawDataParser.ParserAsset now bs Asset.empty
      else if type =? TYPE_ASSETS then (fun r => VAssets (snd r)) <$> RawDataParser.ParserAssets now bs []
      else if type =? TYPE_FLOAT32_ARRAY then (fun r => VFloats (snd r)) <$> RawDataParser.ParserFloats bs []
      else if type =? TYPE_BIGINT then (fun r => VBigInt (snd r)) <$> RawDataParser.ParserBigInt bs (mkBig 0 [])
      else Some (VBlob bs)
  end.

(** The value of a column that has the given type. *)
Definition column_value (col : Fill.column) (type : Z) : option ValueObject :=
  match col with
  | Fill.ColFloat d => Some (VDouble d)
  | Fill.ColInteger z => Some (VInt z)
  | Fill.ColText text => Some (VString (match text with None => EmptyString | Some bs => Value.string_of_bytes bs end))
  | Fill.ColBlob _ blob => GetValueFromBlob blob type
  | _ => Some VNil
  end.

Definition GetColumn (index : Z) (st : base) (w : W) : errno * option ValueObject * base :=
  let '(errCode, type, st1) := GetColumnType index st w in
  if negb (is_ok errCode) then (errCode, Some VNil, st1)
  else (E_OK, column_value (sqlite3_column (stmt_ st) index w) type, st1).

(** *** With the statement on the backup database *)

(** [slaveInvalid]: whether [SqliteUtils::SetSlaveInvalid] was called. *)
Record t := { self : base; slave_ : option base; slaveInvalid : bool }.

(** The operation on [self], and then on the other one, whose failure is at most noted. *)
Definition both (invalidates : bool) (op : base -> W -> errno * base * W) (s : t) (w : W) : errno * t * W :=
  let '(e, m, w1) := op (self s) w in
  if negb (is_ok e) then (e, {| self := m; slave_ := slave_ s; slaveInvalid := slaveInvalid s |}, w1)
  else
    match slave_ s with
    | None => (E_OK, {| self := m; slave_ := None; slaveInvalid := slaveInvalid s |}, w1)
    | Some sl =>
        let '(e2, sl2, w2) := op sl w1 in
        (E_OK, {| self := m; slave_ := Some sl2; slaveInvalid := slaveInvalid s || invalidates && negb (is_ok e2) |}, w2)
    end.

(** [Prepare(sql)], of one statement. *)
Definition PrepareAgain (sql : string) (st : base) (w : W) : errno * base * W :=
  match stmt_ st with
  | None => (E_ERROR, st, w)
  | Some h => PrepareOn (sqlite3_db_handle (Some h) w) sql st w
  end.

Definition Prepare (sql : string) : t -> W -> errno * t * W := both true (PrepareAgain sql).

Definition Bind (args : list ValueObject) : t -> W -> errno * t * W := both true (BindOne args).

Definition Step : t -> W -> errno * t * W :=
  both false (fun st w => let '(e, w1) := InnerStep st w in (e, st, w1)).

(** Without a statement of its own, [Reset] leaves the other one alone too. *)
Definition Reset (s : t) (w : W) : errno * t * W :=
  match stmt_ (self s) with
  | None => (E_OK, s, w)
  | Some _ => both false (fun st w => let '(e, w1) := ResetOne st w in (e, st, w1)) s w
  end.

Definition Finalize : t -> W -> errno * t * W := both false InnerFinalize.

Definition Execute (args : list ValueObject) : t -> W -> errno * t * W := both true (ExecuteOne args).

(** [ExecuteForValue]: the first column of the row [Execute] stepped to. *)
Definition ExecuteForValue (args : list ValueObject) (s : t) (w : W) : errno * option ValueObject * t * W :=
  let '(e, s1, w1) := Execute args s w in
  if is_ok e then
    let '(e', v, m) := GetColumn 0 (self s1) w1 in
    (e', v, {| self := m; slave_ := slave_ s1; slaveInvalid := slaveInvalid s1 |}, w1)
  else (e, Some VNil, s1, w1).

(** [SqliteConnection::CreateStatementInner]: [backup] is the connection to the backup database
    a statement is to be kept in step with, [restoring] whether a restore is under way. *)
Definition CreateStatementInner (sql returningSql : string) (conn : option Connection) (db : Z) (isFromReplica : bool)
    (backup : option Connection) (isWriter supportBinlog restoring : bool) (w : W) : errno * option t * W :=
  let '(errCode, st, w1) := PrepareOn db (sql +:+ returningSql) new w in
  if negb (is_ok errCode) then (errCode, None, w1)
  else
    let st1 := set_conn conn st in
    match backup with
    | Some slave =>
        if negb isFromReplica && isWriter && negb supportBinlog && negb restoring then
          let '(e, sl, w2) := PrepareOn (dbHandle_ slave) sql (set_conn (Some slave) new) w1 in
          if is_ok e then (E_OK, Some {| self := st1; slave_ := Some sl; slaveInvalid := false |}, w2)
          else (E_OK, Some {| self := st1; slave_ := None; slaveInvalid := true |}, w2)
        else (E_OK, Some {| self := st1; slave_ := None; slaveInvalid := false |}, w1)
    | None => (E_OK, Some {| self := st1; slave_ := None; slaveInvalid := false |}, w1)
    end.

(** [ModifyLockStatus], from the answer of the distributed database. *)
Inductive DBStatus := DB_OK | WAIT_COMPENSATED_SYNC | NOT_FOUND | DB_FAILED.

Definition ModifyLockStatus (hasDb : bool) (ret : DBStatus) : errno :=
  if negb hasDb then E_ERROR
  else match ret with DB_OK => E_OK | WAIT_COMPENSATED_SYNC => E_WAIT_COMPENSATED_SYNC | NOT_FOUND => E_NO_ROW_IN_QUERY | DB_FAILED => E_ERROR end.

End Statement.

End SqliteStatement.

(** ** A small SQLite

    One database and one statement with a fixed result, to evaluate the definitions on. *)

Module SmallSqlite.
Import SQLiteError Sqlite.

Record db := {
  d_arity : Z;
  d_names : list string;
  d_rows : list (list Fill.column);
  d_next : nat;
  d_params : gmap Z binding
}.

Definition rewind (k : nat) (w : db) : db :=
  {| d_arity := d_arity w; d_names := d_names w; d_rows := d_rows w; d_next := k; d_params := d_params w |}.

Definition with_params (ps : gmap Z binding) (w : db) : db :=
  {| d_arity := d_arity w; d_names := d_names w; d_rows := d_rows w; d_next := d_next w; d_params := ps |}.

#[export] Instance small_sqlite : Sqlite db := {
  sqlite3_prepare_v2 _ _ w := (SQLITE_OK, Some 1, w);
  sqlite3_finalize _ w := (SQLITE_OK, w);
  sqlite3_reset _ w := (SQLITE_OK, rewind 0 w);
  sqlite3_clear_bindings _ w := (SQLITE_OK, with_params ∅ w);
  sqlite3_bind _ i v w :=
    if (1 <=? i) && (i <=? d_arity w) then (SQLITE_OK, with_params (<[i := v]> (d_params w)) w) else (25, w);
  sqlite3_step _ w :=
    match d_rows w !! d_next w with Some _ => (SQLITE_ROW, rewind (S (d_next w)) w) | None => (SQLITE_DONE, w) end;
  sqlite3_db_handle _ _ := 0;
  sqlite3_stmt_readonly _ _ := true;
  sqlite3_column_count _ w := Z.of_nat (length (d_names w));
  sqlite3_bind_parameter_count _ w := d_arity w;
  sqlite3_column_name _ i w := d_names w !! Z.to_nat i;
  sqlite3_column _ i w := nth (Z.to_nat i) (nth (pred (d_next w)) (d_rows w) []) Fill.ColNull;
  sqlite3_changes _ _ := 0;
  sqlite3_last_insert_rowid _ _ := 0;
  sqlite3_system_errno _ _ := 0;
  wal_size _ _ := 0
}.

#[export] Instance small_sqlite_laws : SqliteLaws db.
Proof.
  refine {| param w _ i := default sqlite3_bind_null (d_params w !! i) |}.
  - intros h i v w. cbn. destruct (_ && _); cbn; [|done]. intros _. split; [by rewrite lookup_insert_eq|].
    intros j Hj. by rewrite lookup_insert_ne.
  - intros h i v w. cbn. by destruct (_ && _).
  - done.
  - intros h w j. cbn. by rewrite lookup_empty.
Defined.

End SmallSqlite.

(** ** The claims *)

Module StatementProps.
Import SQLiteError Sqlite SqliteStatement SmallSqlite.

(** *** Error codes *)

Lemma ErrNo_ok c : ErrNo c = E_OK <-> c = SQLITE_OK \/ c = SQLITE_ROW.
Proof.
  split; [|by intros [-> | ->]]. unfold ErrNo, GetRdbErrorCode, native, SQLITE_OK.
  destruct (SQLiteErrorCodes !! _) as [[c' e]|] eqn:Hl; [|destruct (Z.eqb_spec c 0); [by left|done]].
  destruct (Z.eqb_spec c' c) as [->|]; [|destruct (Z.eqb_spec c 0); [by left|done]].
  intros ->. right.
  assert (Hall : Forall (fun t => snd t = E_OK -> fst t = SQLITE_ROW) SQLiteErrorCodes)
    by (repeat constructor; cbn; intros; (done || discriminate)).
  by apply (Forall_lookup_1 _ _ _ _ Hall Hl).
Qed.

(** The table of error codes is in order, and the search by halving finds every entry of it: a
    result of SQLite in the table becomes its code, the others their negated number. *)
Theorem errno_lookup c :
  IsIncreasing SQLiteErrorCodes = true /\
  (forall e, (c, e) ∈ SQLiteErrorCodes -> ErrNo c = e) /\
  (c ∉ SQLiteErrorCodes.*1 -> ErrNo c = native c).
Proof.
  split; [done|]. split.
  - intros e Hin. assert (Hall : Forall (fun t => ErrNo (fst t) = snd t) SQLiteErrorCodes)
      by (repeat constructor; vm_compute; reflexivity).
    by apply (proj1 (Forall_forall _ _) Hall) in Hin.
  - intros Hn. unfold ErrNo, GetRdbErrorCode. destruct (SQLiteErrorCodes !! _) as [[c' e]|] eqn:Hl; [|done].
    destruct (Z.eqb_spec c' c) as [->|]; [|done]. destruct Hn. apply list_elem_of_lookup_2 in Hl.
    apply list_elem_of_fmap. by exists (c, e).
Qed.

(** *** Parameters *)

Section Params.
Context {W : Type} `{SqliteLaws W} `{Serializable.JsonText}.

Lemma bind_loop_params h args : forall i (w w' : W),
  bind_loop (Some h) i args w = (E_OK, w') ->
  (forall k v, args !! k = Some v -> param w' h (i + Z.of_nat k) = action v) /\
  (forall j, j < i \/ i + Z.of_nat (length args) <= j -> param w' h j = param w h j).
Proof.
  induction args as [|arg args IH]; intros i w w' Hb; cbn [bind_loop] in Hb.
  { injection Hb as ->. split; [intros k v; by rewrite lookup_nil|done]. }
  destruct (sqlite3_bind (Some h) i (action arg) w) as [c w1] eqn:E. pose proof (bind_code h i (action arg) w) as Hc.
  pose proof (param_bind h i (action arg) w) as Hp. rewrite E in Hc, Hp. cbn [fst snd] in *.
  destruct (Z.eqb_spec c SQLITE_OK) as [->|Hne]; cbn [negb] in Hb; cycle 1.
  { injection Hb as He _. apply ErrNo_ok in He as [He|He]; congruence. }
  destruct (Hp eq_refl) as [Hp1 Hp2]. destruct (IH _ _ _ Hb) as [IH1 IH2]. cbn [length]. split.
  - intros [|k] v; cbn [lookup list_lookup]; intros Hk.
    + injection Hk as ->. rewrite IH2 by lia. by rewrite Z.add_0_r.
    + specialize (IH1 k v Hk). by replace (i + Z.of_nat (S k)) with (i + 1 + Z.of_nat k) by lia.
  - intros j Hj. rewrite IH2 by lia. apply Hp2. lia.
Qed.

(** After [BindArgs] the parameters are the arguments, and no value of an earlier use is left. *)
Lemma bind_args_params h args st (w w' : W) st' :
  stmt_ st = Some h -> BindArgs args st w = (E_OK, st', w') ->
  st' = set_bound st /\
  (forall k v, args !! k = Some v -> param w' h (1 + Z.of_nat k) = action v) /\
  (bound_ st = true -> forall j, Z.of_nat (length args) < j -> param w' h j = sqlite3_bind_null).
Proof.
  intros Hs Hb. unfold BindArgs in Hb. rewrite Hs in Hb.
  destruct (bind_loop (Some h) 1 args _) as [e w2] eqn:E. injection Hb as -> <- ->.
  apply bind_loop_params in E as [E1 E2]. split; [done|]. split; [exact E1|].
  intros Hbd j Hj. rewrite E2 by lia. rewrite Hbd. apply param_clear.
Qed.

#[local] Opaque CheckEnvironment ErrNo.

(** What a successful [Execute] did. *)
Lemma execute_one_steps h args st (w w' : W) st' :
  stmt_ st = Some h -> ExecuteOne args st w = (E_OK, st', w') ->
  CheckEnvironment (Z.of_nat (length args)) st w = E_OK /\
  exists w1, BindArgs args st w = (E_OK, st', w1) /\
    snd (sqlite3_step (Some h) w1) = w' /\
    (ErrNo (fst (sqlite3_step (Some h) w1)) = E_OK \/ ErrNo (fst (sqlite3_step (Some h) w1)) = E_NO_MORE_ROWS).
Proof.
  intros Hs He. unfold ExecuteOne in He.
  destruct (is_ok (CheckEnvironment _ st w)) eqn:Hc; cbn [negb] in He; cycle 1.
  { injection He as He _ _. by apply is_ok_false in Hc. }
  apply is_ok_true in Hc. split; [done|]. destruct (BindArgs args st w) as [[e2 st1] w1] eqn:Hb.
  destruct (is_ok e2) eqn:Hok; cbn [negb] in He; [|injection He as -> _ _; by apply is_ok_false in Hok].
  apply is_ok_true in Hok as ->. assert (Hst1 : stmt_ st1 = Some h).
  { unfold BindArgs in Hb. destruct (bind_loop _ _ _ _). by injection Hb as _ <- _. }
  unfold InnerStep in He. rewrite Hst1 in He.
  destruct (sqlite3_step (Some h) w1) as [c w2] eqn:Hstep. remember (ErrNo c) as e3 eqn:Hc3.
  assert (Hr : st1 = st' /\ w2 = w' /\ (e3 = E_OK \/ e3 = E_NO_MORE_ROWS)).
  { clear -He. case_bool_decide as H1; cbn [negb andb] in He; [injection He as <- <-; auto|].
    destruct (is_ok e3) eqn:H2; cbn [negb] in He; [apply is_ok_true in H2; injection He as <- <-; auto|].
    apply is_ok_false in H2. destruct (_ && _) in He; [done|]. by injection He as -> _ _. }
  destruct Hr as (-> & <- & Hr). exists w1. rewrite Hstep. cbn [fst snd]. rewrite <- Hc3. auto.
Qed.

End Params.

(** C25: A successful [Execute] was given exactly as many values as the statement has parameters, on a
    connection that may write, or with a statement that only reads, or without a connection to
    ask; after the binding ([w1]) each parameter of the statement has the value of its argument, in
    the form its type asks for, and from there the statement was stepped once, with a row or the
    end as the answer.  What follows is the same [Execute] of the statement on the backup database,
    if there is one: its failure is not reported but marks the backup as invalid. *)
Theorem execute_binds {W} `{SqliteLaws W} `{Serializable.JsonText} args s (w w' : W) s' h :
  stmt_ (self s) = Some h -> Execute args s w = (E_OK, s', w') ->
  Z.of_nat (length args) = numParameters_ (self s) /\
  (forall c, conn_ (self s) = Some c -> isWriter_ c = true \/ readOnly_ (self s) = true) /\
  exists w1, BindArgs args (self s) w = (E_OK, self s', w1) /\
    (forall k v, args !! k = Some v -> param w1 h (1 + Z.of_nat k) = action v) /\
    let '(code, w2) := sqlite3_step (Some h) w1 in
    (ErrNo code = E_OK \/ ErrNo code = E_NO_MORE_ROWS) /\
    match slave_ s with
    | None => w' = w2 /\ slaveInvalid s' = slaveInvalid s
    | Some sl => let '(e, _, w3) := ExecuteOne args sl w2 in w' = w3 /\ slaveInvalid s' = slaveInvalid s || negb (is_ok e)
    end.
Proof.
  intros Hs He. unfold Execute, both in He. destruct (ExecuteOne args (self s) w) as [[e m] w2] eqn:E.
  destruct (is_ok e) eqn:Hok; cbn [negb] in He; [|injection He as -> _ _; by apply is_ok_false in Hok].
  apply is_ok_true in Hok as ->. destruct (execute_one_steps h args _ _ _ _ Hs E) as (Hc & w1 & Hb & Hw & Hstep).
  pose proof (bind_args_params h _ _ _ _ _ Hs Hb) as (_ & Hp & _). unfold CheckEnvironment in Hc.
  destruct (Z.eqb_spec (Z.of_nat (length args)) (numParameters_ (self s))) as [Hn|]; [|done]. split; [done|]. split.
  - intros c Hconn. rewrite Hconn in Hc. cbn [negb] in Hc.
    destruct (isWriter_ c), (readOnly_ (self s)); auto. discriminate Hc.
  - exists w1. destruct (sqlite3_step (Some h) w1) as [code w3]. cbn [fst snd] in *. subst w3.
    destruct (slave_ s) as [sl|].
    + destruct (ExecuteOne args sl w2) as [[e2 sl2] w4]. by injection He as <- <-.
    + by injection He as <- <-.
Qed.

(** A successful [Bind] of at least one value sets every parameter of the statement: the first ones to
    the values, the others to null, so that nothing of an earlier use of the statement is left. *)
Theorem bind_sets_all {W} `{SqliteLaws W} `{Serializable.JsonText} args st (w w' : W) st' h j :
  stmt_ st = Some h -> args <> [] -> BindOne args st w = (E_OK, st', w') -> 0 <= j < numParameters_ st ->
  Z.of_nat (length args) <= numParameters_ st /\
  param w' h (1 + j) = action (default VNil (args !! Z.to_nat j)).
Proof.
  intros Hs Hne Hb Hj. unfold BindOne in Hb. assert (Hl : 0 < Z.of_nat (length args)) by (destruct args; [done|simpl; lia]).
  rewrite (proj2 (Z.eqb_neq (Z.of_nat (length args)) 0)) in Hb by lia.
  destruct (Z.ltb_spec (numParameters_ st) (Z.of_nat (length args))) as [|Hle]; [done|]. split; [done|].
  rewrite (proj2 (Z.eqb_neq (numParameters_ st) 0)), (proj2 (Z.leb_le _ _) Hle) in Hb by lia. cbn [negb andb] in Hb.
  apply (bind_args_params h) in Hb as (_ & Hp & _); [|done].
  rewrite <- (Z2Nat.id j) at 1 by lia. apply Hp.
  destruct (decide (Z.to_nat j < length args)%nat) as [Hlt|Hge].
  - destruct (lookup_lt_is_Some_2 _ _ Hlt) as [v Hv]. rewrite lookup_app_l by done. by rewrite Hv.
  - rewrite lookup_app_r, lookup_replicate_2, (lookup_ge_None_2 args) by lia. done.
Qed.

(** *** Values *)

Section Stored.
Context `{Serializable.JsonText} (now : Z).

(** What SQLite gives for a value that was stored in a column of the declared type and not
    converted: not a number is stored as null, a blob bound from an empty vector (a null pointer)
    is null, and a zeroblob without bytes has no address. *)
Definition stored (decl : string) (b : binding) : Fill.column :=
  match b with
  | sqlite3_bind_null => Fill.ColNull
  | sqlite3_bind_int64 v => Fill.ColInteger v
  | sqlite3_bind_double d => if Float.is_nan 64 11 d then Fill.ColNull else Fill.ColFloat d
  | sqlite3_bind_text t => Fill.ColText (Some t)
  | sqlite3_bind_zeroblob n => Fill.ColBlob (Some decl) (if n <=? 0 then None else Some (replicate (Z.to_nat n) 0))
  | sqlite3_bind_blob bs => match bs with [] => Fill.ColNull | _ => Fill.ColBlob (Some decl) (Some bs) end
  end.

(** The type a column for the value is declared with. *)
Definition declared (v : ValueObject) : string := nth (Z.to_nat (Value.GetType v)) Value.DECLARE_TYPES EmptyString.

(** A value within the bounds of its packed form; SQLite may store a negative zero as zero. *)
Definition storable (v : ValueObject) : Prop :=
  match v with
  | VDouble d => d <> 2 ^ 63
  | VAsset a => RawDataParser.fits a
  | VAssets l => Forall RawDataParser.fits l /\ RawDataParser.len l <= 17747
  | VFloats l => Forall (fun x => 0 <= x < 2 ^ 32) l /\ RawDataParser.len l < 2 ^ 32
  | VBigInt b => - 2 ^ 31 <= sign_ b < 2 ^ 31 /\ Forall (fun x => 0 <= x < 2 ^ 64) (value_ b) /\
      RawDataParser.len (value_ b) < 2 ^ 64
  | _ => True
  end.

(** What comes back: there is no column type for truth values; a blob without bytes, a big
    integer without words and a double that is not a number read as null; and a download that has
    expired is abnormal. *)
Definition reread (v : ValueObject) : ValueObject :=
  match v with
  | VBool b => VInt (if b then 1 else 0)
  | VDouble d => if Float.is_nan 64 11 d then VNil else VDouble d
  | VBlob [] => VNil
  | VBigInt (mkBig _ []) => VNil
  | VAsset a => VAsset (RawDataParser.expire now a)
  | VAssets l => VAssets (map (RawDataParser.expire now) l)
  | _ => v
  end.

Lemma blob_value decl ty bs v :
  bs <> [] ->
  (if ty =? TYPE_ASSET then (fun r => VAsset (snd r)) <$> RawDataParser.ParserAsset now bs Asset.empty
   else if ty =? TYPE_ASSETS then (fun r => VAssets (snd r)) <$> RawDataParser.ParserAssets now bs []
   else if ty =? TYPE_FLOAT32_ARRAY then (fun r => VFloats (snd r)) <$> RawDataParser.ParserFloats bs []
   else if ty =? TYPE_BIGINT then (fun r => VBigInt (snd r)) <$> RawDataParser.ParserBigInt bs (mkBig 0 [])
   else Some (VBlob bs)) = Some v ->
  column_value now (stored decl (sqlite3_bind_blob bs)) ty = Some v.
Proof. destruct bs; [done|]. intros _ Hv. exact Hv. Qed.

Lemma stored_value v :
  storable v -> column_value now (stored (declared v) (action v)) (decl_type (declared v)) = Some (reread v).
Proof.
  destruct v as [|z|d|s|b|bs|a|l|l|b]; intros Hv; try done.
  - cbn [action BindDouble stored reread]. by destruct (Float.is_nan 64 11 d).
  - simpl. by rewrite Value.string_of_bytes_of_string.
  - by destruct bs.
  - cbn [action BindAsset]. apply blob_value; [done|]. change (decl_type (declared (VAsset a))) with TYPE_ASSET.
    pose proof (RawDataParser.ParserAsset_Package now a Asset.empty [] Hv) as E. rewrite app_nil_r in E.
    by rewrite E.
  - destruct Hv as [Hf Hn]. apply blob_value; [done|]. change (decl_type (declared (VAssets l))) with TYPE_ASSETS.
    by rewrite (RawDataProps.assets_roundtrip now l Hf Hn).
  - destruct Hv as [Hf Hn]. apply blob_value; [done|].
    change (decl_type (declared (VFloats l))) with TYPE_FLOAT32_ARRAY.
    pose proof (RawDataProps.floats_roundtrip l [] [] Hf Hn) as E. rewrite app_nil_r in E. by rewrite E.
  - destruct Hv as (Hs & Hw & Hn). change (decl_type (declared (VBigInt b))) with TYPE_BIGINT.
    pose proof (RawDataProps.bigint_roundtrip b (mkBig 0 []) [] Hs Hw Hn) as E. rewrite app_nil_r in E.
    destruct b as [sg [|x xs]]; [done|]. apply blob_value; [done|]. by rewrite E.
Qed.

End Stored.

(** The types that are remembered: none, or one of a blob. *)
Definition types_ok (st : base) : Prop := Forall (fun ty => ty = COLUMN_TYPE_INVALID \/ TYPE_BLOB <= ty <= TYPE_BIGINT) (types_ st).

(** The alternatives of a value that the type of a column allows.  Null is a value of the null
    type, or of a type of blobs if the column has no bytes. *)
Definition has_type (col : Fill.column) (ty : Z) (v : ValueObject) : Prop :=
  match v with
  | VNil => ty = TYPE_NULL \/ (TYPE_BLOB <= ty <= TYPE_BIGINT /\ column_bytes col = 0)
  | VInt _ => ty = TYPE_INTEGER
  | VDouble _ => ty = TYPE_FLOAT
  | VString _ => ty = TYPE_STRING
  | VBool _ => False
  | VBlob _ => ty = TYPE_BLOB
  | VAsset _ => ty = TYPE_ASSET
  | VAssets _ => ty = TYPE_ASSETS
  | VFloats _ => ty = TYPE_FLOAT32_ARRAY
  | VBigInt _ => ty = TYPE_BIGINT
  end.

Lemma decl_type_range decl : TYPE_BLOB <= decl_type decl <= TYPE_BIGINT.
Proof. unfold decl_type. by repeat case_match. Qed.

Lemma blob_typed `{Serializable.JsonText} now decl blob ty v :
  TYPE_BLOB <= ty <= TYPE_BIGINT -> GetValueFromBlob now blob ty = Some v -> has_type (Fill.ColBlob decl blob) ty v.
Proof.
  unfold GetValueFromBlob, TYPE_BLOB, TYPE_BIGINT. intros Hty Hv.
  destruct blob as [[|x bs]|]; [by injection Hv as <-; right| |by injection Hv as <-; right].
  assert (ty = 4 \/ ty = 5 \/ ty = 6 \/ ty = 7 \/ ty = 8) as H5 by lia.
  destruct H5 as [-> | [-> | [-> | [-> | ->]]]]; cbn [Z.eqb Pos.eqb] in Hv;
    try (apply fmap_Some in Hv as (r & _ & ->)); try (injection Hv as <-); done.
Qed.

Section Typed.
Context {W : Type} `{Sqlite W} `{Serializable.JsonText} (now : Z).

(** The type of a column does not change by asking for it. *)
Lemma column_type_typed index st (w : W) e ty st' :
  types_ok st -> GetColumnType index st w = (e, ty, st') ->
  types_ok st' /\ stmt_ st' = stmt_ st /\ columnCount_ st' = columnCount_ st /\
  (e = E_OK -> match sqlite3_column (stmt_ st) index w with
               | Fill.ColBlob _ _ => TYPE_BLOB <= ty <= TYPE_BIGINT
               | col => Convert2ColumnType col = Some ty
               end).
Proof.
  intros Hok. unfold GetColumnType. destruct (is_ok (IsValid index st)) eqn:Hv; cbn [negb]; cycle 1.
  { intros [= <- <- <-]. repeat (split; [done|]). intros He. by rewrite He in Hv. }
  destruct (sqlite3_column (stmt_ st) index w) as [t|z|d|decl blob| |] eqn:Hc; cbn [Convert2ColumnType];
    try (intros [= <- <- <-]; done).
  destruct (Z.eqb_spec (nth (Z.to_nat index) (types_ st) COLUMN_TYPE_INVALID) COLUMN_TYPE_INVALID) as [Hn|Hn]; cbn [negb].
  - destruct decl as [decl|]; intros [= <- <- <-]; [|done]. split; [|split; [done|split; [done|intros _; apply decl_type_range]]].
    apply Forall_insert; [done|right; apply decl_type_range].
  - intros [= <- <- <-]. repeat (split; [done|]). intros _.
    rewrite nth_lookup in *. destruct (types_ st !! Z.to_nat index) as [ty'|] eqn:Hl; [|done]. cbn in *.
    apply (Forall_lookup_1 _ _ _ _ Hok) in Hl. destruct Hl; [done|done].
Qed.

End Typed.

(** C29: Reading a column is well typed: when [GetColumn] succeeds, [GetColumnType] names the
    alternative of the value it gives, and the value is null only if the type is the null type or
    the column is a blob without bytes; it keeps the remembered types valid, and asking again gives
    the same type. *)
Theorem column_value_typed {W} `{Sqlite W} `{Serializable.JsonText} now index st (w : W) v st' :
  types_ok st -> length (types_ st) = Z.to_nat (columnCount_ st) -> GetColumn now index st w = (E_OK, Some v, st') ->
  types_ok st' /\ exists ty, GetColumnType index st w = (E_OK, ty, st') /\
    has_type (sqlite3_column (stmt_ st) index w) ty v /\ GetColumnType index st' w = (E_OK, ty, st').
Proof.
  intros Hok Hlen Hg. unfold GetColumn in Hg. destruct (GetColumnType index st w) as [[e ty] st1] eqn:E.
  destruct (column_type_typed index st w e ty st1 Hok E) as (Hok1 & Hs & Hn & Hty).
  destruct (is_ok e) eqn:He; cbn [negb] in Hg; [|injection Hg as -> _ _; by apply is_ok_false in He].
  apply is_ok_true in He as ->. injection Hg as Hv <-. specialize (Hty eq_refl). split; [done|].
  exists ty. split; [done|]. split.
  - destruct (sqlite3_column (stmt_ st) index w) as [t|z|d|decl blob| |]; cbn in Hty, Hv;
      try (injection Hty as <-; injection Hv as <-; by (left || done)). by eapply blob_typed.
  - clear Hty Hv. revert E. unfold GetColumnType, IsValid. rewrite Hs, Hn.
    destruct (is_ok _) eqn:Hok2; cbn [negb]; [|intros [= He _ _]; by rewrite He in Hok2].
    destruct (Convert2ColumnType _) as [ty'|]; [by intros [= <- <-]|].
    destruct (negb _) eqn:Hc; [intros [= <- <-]; by rewrite Hc|].
    destruct (sqlite3_column _ _ _) as [t|z|d|[decl|] blob| |]; intros [= <- <-].
    cbn [set_type types_]. destruct (stmt_ st); [|done].
    destruct ((columnCount_ st <=? index) || (index <? 0)) eqn:Hr; [done|]. apply orb_false_iff in Hr as [Hr1 Hr2].
    rewrite nth_lookup, list_lookup_insert_eq by lia. cbn [default from_option id].
    pose proof (decl_type_range decl) as Hd. unfold TYPE_BLOB in Hd.
    by rewrite (proj2 (Z.eqb_neq (decl_type decl) COLUMN_TYPE_INVALID)) by (unfold COLUMN_TYPE_INVALID; lia).
Qed.

(** C9: A value that was bound and stored in a column declared for its type is read back by
    [GetColumn]: truth values as numbers; empty blobs, big integers without words and doubles that
    are not a number as null; assets with their expiry applied; everything else as it was.  The
    value is [storable]: not a negative zero, an asset's text is valid and below 64 KB, at most
    17747 assets, fewer than 2^32 floats, the words of a big integer are of 64 bits. *)
Theorem value_roundtrip {W} `{Sqlite W} `{Serializable.JsonText} now v index st (w : W) h :
  storable v -> stmt_ st = Some h -> 0 <= index < columnCount_ st ->
  nth (Z.to_nat index) (types_ st) COLUMN_TYPE_INVALID ∈ [COLUMN_TYPE_INVALID; decl_type (declared v)] ->
  sqlite3_column (Some h) index w = stored (declared v) (action v) ->
  exists st', GetColumn now index st w = (E_OK, Some (reread now v), st').
Proof.
  intros Hv Hs Hi Hc Hcol. unfold GetColumn, GetColumnType, IsValid. rewrite Hs, Hcol.
  decide_z. ok_simpl. pose proof (stored_value now v Hv) as Hr.
  destruct (Convert2ColumnType (stored (declared v) (action v))) as [ty|] eqn:E; ok_simpl.
  - eexists. do 2 f_equal. rewrite <- Hr. by destruct (stored (declared v) (action v)).
  - destruct (stored (declared v) (action v)) as [| | |decl blob| |] eqn:Es; try done.
    assert (decl = Some (declared v)) as -> by (unfold stored in Es; repeat case_match; try discriminate Es; by injection Es as <- _).
    set (c := nth _ _ _) in *. destruct (Z.eqb_spec c COLUMN_TYPE_INVALID) as [Hz|Hz]; cbn [negb]; ok_simpl.
    + eexists. do 2 f_equal. exact Hr.
    + apply elem_of_cons in Hc as [Hc|Hc]; [done|]. apply list_elem_of_singleton in Hc as ->.
      eexists. do 2 f_equal. exact Hr.
Qed.

(** *** A statement at work *)

Import Serializable.

(** Two parameters, one row with a vector and a number. *)
Definition demo_db : db :=
  {| d_arity := 2; d_names := ["v"; "n"];
     d_rows := [[stored "floatvector(2)" (action (VFloats [1; 2])); Fill.ColInteger 7]];
     d_next := 0; d_params := ∅ |}.

Definition demo_statement : t :=
  match CreateStatementInner (W := db) "SELECT v, n FROM t WHERE a = ? AND b = ?" EmptyString None 0 false None false false false demo_db with
  | (_, Some s, _) => s
  | _ => {| self := new; slave_ := None; slaveInvalid := false |}
  end.

Lemma execute_binds_witness :
  exists w1 : db, param w1 1 1 = sqlite3_bind_text [104; 105] /\ param w1 1 2 = sqlite3_bind_int64 1.
Proof.
  destruct (execute_binds [VString "hi"; VBool true] demo_statement demo_db
    (snd (Execute [VString "hi"; VBool true] demo_statement demo_db))
    (snd (fst (Execute [VString "hi"; VBool true] demo_statement demo_db))) 1) as (_ & _ & w1 & _ & Hp & _);
    [reflexivity|vm_compute; reflexivity|].
  exists w1. split; [exact (Hp 0%nat (VString "hi") eq_refl)|exact (Hp 1%nat (VBool true) eq_refl)].
Defined.

Lemma bind_sets_all_witness :
  let r := BindOne [VInt 5] (self demo_statement) demo_db in
  param (snd r) 1 1 = sqlite3_bind_int64 5 /\ param (snd r) 1 2 = sqlite3_bind_null.
Proof.
  cbv zeta. split.
  - apply (bind_sets_all [VInt 5] (self demo_statement) demo_db
      (snd (BindOne [VInt 5] (self demo_statement) demo_db))
      (snd (fst (BindOne [VInt 5] (self demo_statement) demo_db))) 1 0);
      [reflexivity|discriminate|vm_compute; reflexivity|vm_compute; split; [discriminate|reflexivity]].
  - apply (bind_sets_all [VInt 5] (self demo_statement) demo_db
      (snd (BindOne [VInt 5] (self demo_statement) demo_db))
      (snd (fst (BindOne [VInt 5] (self demo_statement) demo_db))) 1 1);
      [reflexivity|discriminate|vm_compute; reflexivity|vm_compute; split; [discriminate|reflexivity]].
Defined.

(** The statement after its first row. *)
Definition demo_row : db := snd (Step demo_statement demo_db).

Lemma column_value_typed_witness :
  exists ty, fst (GetColumnType 0 (self demo_statement) demo_row) = (E_OK, ty) /\ 
    has_type (sqlite3_column (Some 1) 0 demo_row) ty (VFloats [1; 2]).
Proof.
  destruct (column_value_typed 0 0 (self demo_statement) demo_row (VFloats [1; 2])
    (snd (GetColumn 0 0 (self demo_statement) demo_row))) as (_ & ty & Ht & Hv & _);
    [repeat constructor|reflexivity|vm_compute; reflexivity|].
  exists ty. rewrite Ht. split; [reflexivity|exact Hv].
Defined.

Lemma value_roundtrip_witness :
  exists st', GetColumn 0 0 (self demo_statement)
    {| d_arity := 0; d_names := ["v"]; d_rows := [[stored "FLOATVECTOR" (action (VFloats [1; 2]))]]; d_next := 1; d_params := ∅ |}
    = (E_OK, Some (VFloats [1; 2]), st').
Proof.
  apply (value_roundtrip 0 (VFloats [1; 2]) 0 (self demo_statement) _ 1);
    [repeat constructor; vm_compute; try discriminate; reflexivity|reflexivity
    |vm_compute; split; [discriminate|reflexivity]|left; reflexivity|reflexivity].
Defined.

End StatementProps.
