(* ===== verification/Encryption.v ===== *)
(** * Opening an encrypted database

    [Encryption]: of frameworks/native/rdb/src/sqlite_connection.cpp the functions that set and
    change the key of a database, on a configuration with its keys ([RdbStoreConfig]) and the key
    files ([SecurityManager]).  The codec of SQLite and the service that knows old keys are the
    class [Codec].  [EncryptionInv]: what the codec promises, and lemmas.  [EncryptionProps]: the
    theorems.

    A configuration belongs to its pool, and its keys are changed through it; here it is an
    argument and part of the result.  The state has the key files and the database side by side. *)
From Stdlib Require Import ZArith Lia Ascii.
From stdpp Require Import base gmap list strings pretty.
From coqutil Require Import Datatypes.RecordSetters.
Import OCamlLikeNotations.
From S2P Require Import Prelude CppStd Errno StringUtils Security StoreConfig SqliteStmt.

Local Open Scope Z_scope.
Import Run.
#[local] Arguments constant {E} newValue _ /.

Module Encryption.
Import SQLiteError.
Abbreviation Config := RdbStoreConfig.t.

(** [CodecConfig]; pointers that may be null are options. *)
Record CodecConfig := {
  pCipher : option string;
  pHmacAlgo : option string;
  pKdfAlgo : option string;
  pKey : option (list Z);
  nKey : Z;
  kdfIter : Z;
  pageSize : Z
}.

(** The database of one connection.  [ExecuteForValue] is the error of reading a value;
    [GetPassword] asks the service for the keys it knows, [None] when there is no answer. *)
Class Codec (D : Type) := {
  sqlite3_key : list Z -> D -> Z * D;
  sqlite3_rekey : list Z -> D -> Z * D;
  sqlite3_rekey_v3 : CodecConfig -> CodecConfig -> D -> Z * D;
  ExecuteSql : string -> D -> errno * D;
  ExecuteForValue : string -> D -> errno * D;
  GetPassword : D -> option (list (list Z)) * D
}.

Definition NO_ITER : Z := 0.
Definition DEFAULT_ITER_NUM : Z := 10000.
Definition PRAGMA_VERSION : string := "PRAGMA user_version".

Definition HmacAlgoDescription (a : Z) : string :=
  if a =? CryptoParam.SHA1 then "sha1" else if a =? CryptoParam.SHA256 then "sha256"
  else if a =? CryptoParam.SHA512 then "sha512" else "sha256".

Definition KdfAlgoDescription (a : Z) : string :=
  if a =? CryptoParam.KDF_SHA1 then "kdf_sha1" else if a =? CryptoParam.KDF_SHA256 then "kdf_sha256"
  else if a =? CryptoParam.KDF_SHA512 then "kdf_sha512" else "kdf_sha256".

Definition EncryptAlgoDescription (a : Z) : string :=
  if a =? CryptoParam.AES_256_CBC then "aes-256-cbc" else "aes-256-gcm".

Definition ENCRYPT_ALGOS : list string := ["aes-256-gcm"; "aes-256-cbc"].
Definition HMAC_ALGOS : list string := ["SHA1"; "SHA256"; "SHA512"].
Definition KDF_ALGOS : list string := ["KDF_SHA1"; "KDF_SHA256"; "KDF_SHA512"].

Definition CreateCodecConfig : CodecConfig :=
  {| pCipher := None; pHmacAlgo := None; pKdfAlgo := None; pKey := None; nKey := 0; kdfIter := DEFAULT_ITER_NUM; pageSize := 0 |}.

(** An element of one of the tables, for an index that is in range. *)
Definition nth_name (names : list string) (i : Z) : option string := if i <? 0 then None else names !! Z.to_nat i.

Definition ConvertCryptoParamToCodecConfig (p : CryptoParam.t) : CodecConfig :=
  {| pCipher := nth_name ENCRYPT_ALGOS (CryptoParam.encryptAlgo p);
     pHmacAlgo := nth_name HMAC_ALGOS (CryptoParam.hmacAlgo p);
     pKdfAlgo := nth_name KDF_ALGOS (CryptoParam.kdfAlgo p);
     pKey := if negb (CryptoParam.encryptAlgo p =? CryptoParam.PLAIN_TEXT) && negb (length (CryptoParam.encryptKey_ p) =? 0)%nat
             then Some (CryptoParam.encryptKey_ p) else None;
     nKey := Int.i32 (Z.of_nat (length (CryptoParam.encryptKey_ p)));
     kdfIter := if CryptoParam.iterNum p =? 0 then DEFAULT_ITER_NUM else CryptoParam.iterNum p;
     pageSize := Int.i32 (CryptoParam.cryptoPageSize p) |}.

Section Ops.
Context {K D : Type} `{Huks.Huks K} `{Files.Files K} `{Codec D}.
Abbreviation op := (run ((SecurityManager.t * K) * D)).

(** A step of the key files, and a step of the database. *)
Definition on_keys {A} (m : run (SecurityManager.t * K) A) : op A :=
  fun s => match m s.1 with Some (a, k) => Some (a, (k, s.2)) | None => None end.

Definition on_db {A} (f : D -> A * D) : op A := fun s => let '(a, d) := f s.2 in Some (a, (s.1, d)).

(** Statements that are run until one fails. *)
Fixpoint execute_all (sqls : list string) : op errno :=
  match sqls with
  | [] => ret E_OK
  | sql :: rest =>
      let! errCode := on_db (ExecuteSql sql) in
      if is_ok errCode then execute_all rest else ret errCode
  end.

Definition SetEncryptAgo (p : CryptoParam.t) : op errno :=
  if negb (CryptoParam.IsValid p) then ret E_INVALID_ARGS
  else execute_all
    ((if CryptoParam.iterNum p =? NO_ITER then []
      else ["PRAGMA codec_cipher='" +:+ EncryptAlgoDescription (CryptoParam.encryptAlgo p) +:+ "'";
            "PRAGMA codec_kdf_iter=" +:+ pretty (CryptoParam.iterNum p)]) ++
     ["PRAGMA codec_hmac_algo='" +:+ HmacAlgoDescription (CryptoParam.hmacAlgo p) +:+ "'";
      "PRAGMA codec_kdf_algo='" +:+ KdfAlgoDescription (CryptoParam.kdfAlgo p) +:+ "'";
      "PRAGMA codec_page_size=" +:+ pretty (CryptoParam.cryptoPageSize p);
      "PRAGMA codec_rekey_hmac_algo=sha256"]).

Definition SetEncryptKey (isWriter : bool) (key : list Z) (config : Config) : op errno :=
  match key with
  | [] => ret E_INVALID_SECRET_KEY
  | _ =>
      let! errCode := on_db (sqlite3_key key) in
      if negb (errCode =? SQLITE_OK) then ret (ErrNo errCode)
      else
        let! errCode := SetEncryptAgo (RdbStoreConfig.cryptoParam_ config) in
        if negb (is_ok errCode) then ret errCode
        else if isWriter || RdbStoreConfig.readOnly_ config then on_db (ExecuteForValue PRAGMA_VERSION)
        else ret errCode
  end.

(** The loop of [SetServiceKey]; [last] is the error so far. *)
Fixpoint service_loop (isWriter : bool) (keys : list (list Z)) (config : Config) (last : errno) : op (errno * Config) :=
  match keys with
  | [] => ret (last, config)
  | key :: rest =>
      let! errCode := SetEncryptKey isWriter key config in
      if is_ok errCode then
        let! config := on_keys (RdbStoreConfig.RestoreEncryptKey key config) in ret (E_OK, config)
      else service_loop isWriter rest config errCode
  end.

Definition SetServiceKey (isWriter : bool) (config : Config) (errCode : errno) : op (errno * Config) :=
  let! keys := on_db GetPassword in
  match keys with
  | None => ret (errCode, config)
  | Some keys => service_loop isWriter keys config errCode
  end.

Definition ResetKey (isWriter : bool) (config : Config) : op Config :=
  if negb isWriter then ret config
  else
    let! errCode := on_db (sqlite3_rekey (RdbStoreConfig.newEncryptKey_ config)) in
    if negb (errCode =? SQLITE_OK) then
      let! _ := on_keys (SecurityManager.DelKeyFile (RdbStoreConfig.path_ config) SecurityManager.PUB_KEY_FILE_NEW_KEY) in
      ret config
    else on_keys (RdbStoreConfig.ChangeEncryptKey config).

Definition SetEncrypt (isWriter : bool) (config : Config) : op (errno * Config) :=
  if negb (RdbStoreConfig.IsEncrypt config) then ret (E_OK, config)
  else if RdbStoreConfig.IsMemoryRdb config then ret (E_NOT_SUPPORT, config)
  else
    let key := RdbStoreConfig.GetEncryptKey config in
    let newKey := RdbStoreConfig.newEncryptKey_ config in
    let! errCode := SetEncryptKey isWriter key config in
    if negb (is_ok errCode) then
      let! errCode := (match newKey with [] => ret errCode | _ => SetEncryptKey isWriter newKey config end) in
      if negb (is_ok errCode) then SetServiceKey isWriter config errCode
      else let! config := on_keys (RdbStoreConfig.ChangeEncryptKey config) in ret (E_OK, config)
    else
      match newKey with
      | [] => ret (E_OK, config)
      | _ => let! config := ResetKey isWriter config in ret (E_OK, config)
      end.

(** [SqliteConnection::Rekey] on a connection with the configuration [config]. *)
Definition Rekey (config : Config) (p : CryptoParam.t) : op errno :=
  let! key := (match CryptoParam.encryptKey_ p with
               | [] => let! rdbPwd := on_keys (SecurityManager.GetRdbPassword (RdbStoreConfig.path_ config) SecurityManager.PUB_KEY_FILE_NEW_KEY) in
                       ret (RdbPassword.value rdbPwd)
               | k => ret k
               end) in
  match key with
  | [] => ret E_ERROR
  | _ =>
      let! errCode := on_db (ExecuteSql ("PRAGMA codec_rekey_hmac_algo='" +:+
                        HmacAlgoDescription (CryptoParam.hmacAlgo (RdbStoreConfig.cryptoParam_ config)) +:+ "'")) in
      if negb (is_ok errCode) then ret errCode
      else
        let! r := on_db (sqlite3_rekey key) in
        if negb (r =? SQLITE_OK) then ret (ErrNo r)
        else
          let! errCode := SetEncryptAgo p in
          if negb (is_ok errCode) then ret errCode
          else
            let! _ := (match CryptoParam.encryptKey_ p with
                       | [] => on_keys (SecurityManager.ChangeKeyFile (RdbStoreConfig.path_ config))
                       | _ => ret tt
                       end) in
            ret E_OK
  end.

Definition RekeyToPlainText (config : Config) (dbCfg : CodecConfig) (p : CryptoParam.t) : op (errno * Config) :=
  let plainTextCfg := {CreateCodecConfig with kdfIter := 0; pageSize := Int.i32 (CryptoParam.cryptoPageSize p)} in
  let! errCode := on_db (sqlite3_rekey_v3 dbCfg plainTextCfg) in
  if negb (errCode =? SQLITE_OK) then ret (ErrNo errCode, config)
  else
    let! _ := on_keys (SecurityManager.DelAllKeyFiles (RdbStoreConfig.path_ config)) in
    ret (E_OK, RdbStoreConfig.SetEncryptStatus false config).

Definition PrepareGenerateKey (config : Config) (p : CryptoParam.t) : op (errno * Config) :=
  if negb (RdbStoreConfig.customEncryptParam_ config) && RdbStoreConfig.IsEncrypt config then ret (E_OK, config)
  else
    let oldKey := RdbStoreConfig.GetEncryptKey config in
    let oldEncryptStatus := RdbStoreConfig.IsEncrypt config in
    let config := RdbStoreConfig.SetEncryptStatus true (RdbStoreConfig.ResetEncryptKey (CryptoParam.encryptKey_ p) config) in
    let! (errCode, config) := on_keys (RdbStoreConfig.Initialize config) in
    if negb (is_ok errCode) then
      ret (errCode, RdbStoreConfig.SetEncryptStatus oldEncryptStatus (RdbStoreConfig.ResetEncryptKey oldKey config))
    else ret (E_OK, config).

Definition RekeyToEncrypt (config : Config) (dbCfg rekeyCfg : CodecConfig) (p : CryptoParam.t) : op (errno * Config) :=
  let! (errCode, config) := (match CryptoParam.encryptKey_ p with [] => PrepareGenerateKey config p | _ => ret (E_OK, config) end) in
  if negb (is_ok errCode) then ret (errCode, config)
  else
    let! key := (match CryptoParam.encryptKey_ p with
                 | [] => let! rdbPwd := on_keys (SecurityManager.GetRdbPassword (RdbStoreConfig.path_ config) SecurityManager.PUB_KEY_FILE_NEW_KEY) in
                         ret (RdbPassword.value rdbPwd)
                 | k => ret k
                 end) in
    match key with
    | [] => ret (E_ERROR, config)
    | _ =>
        let! errCode := on_db (sqlite3_rekey_v3 dbCfg {rekeyCfg with pKey := Some key; nKey := Int.i32 (Z.of_nat (length key))}) in
        if negb (errCode =? SQLITE_OK) then ret (ErrNo errCode, config)
        else
          let! _ := (match CryptoParam.encryptKey_ p with
                     | [] => on_keys (SecurityManager.ChangeKeyFile (RdbStoreConfig.path_ config))
                     | _ => on_keys (SecurityManager.DelAllKeyFiles (RdbStoreConfig.path_ config))
                     end) in
          ret (E_OK, RdbStoreConfig.ResetEncryptKey key config)
    end.

Definition RekeyEx (config : Config) (p : CryptoParam.t) : op (errno * Config) :=
  let dbCfg := ConvertCryptoParamToCodecConfig (RdbStoreConfig.cryptoParam_ config) in
  if CryptoParam.encryptAlgo p =? CryptoParam.PLAIN_TEXT then RekeyToPlainText config dbCfg p
  else RekeyToEncrypt config dbCfg (ConvertCryptoParamToCodecConfig p) p.

End Ops.
End Encryption.

Module EncryptionInv.
Import SQLiteError Huks Files KeyLaws SecurityInv Encryption.

(** The manual of the codec: [dbKey d] is the key of the database, [opened d] the key that the
    connection was given.  A value can be read only with the right key; only [sqlite3_rekey]
    changes the key, and only when it succeeds.  The service knows keys that fit a password. *)
Class CodecLaws (D : Type) `{Codec D} := {
  dbKey : D -> list Z;
  opened : D -> list Z;
  key_law k d r d' : sqlite3_key k d = (r, d') -> dbKey d' = dbKey d /\ r <> SQLITE_ROW /\ (r = SQLITE_OK -> opened d' = k);
  sql_law q d e d' : ExecuteSql q d = (e, d') -> dbKey d' = dbKey d /\ opened d' = opened d;
  value_law q d e d' : ExecuteForValue q d = (e, d') -> dbKey d' = dbKey d /\ (e = E_OK -> opened d = dbKey d);
  rekey_law k d r d' : sqlite3_rekey k d = (r, d') -> dbKey d' = if bool_decide (r = SQLITE_OK) then k else dbKey d;
  password_law d ks d' : GetPassword d = (ks, d') -> dbKey d' = dbKey d /\
    Forall (fun k => (length k <= RdbPassword.MAX_PASSWORD_SIZE)%nat) (default [] ks)
}.

Section Laws.
Context {K D : Type} `{KeyLaws K} `{CodecLaws D}.
Abbreviation state := ((SecurityManager.t * K) * D)%type.
Implicit Types (s : state) (c : Config).

Lemma wp_on_keys {A} (m : run (SecurityManager.t * K) A) (Q : A -> state -> Prop) s :
  wp m (fun a k => Q a (k, s.2)) s.1 -> wp (on_keys m) Q s.
Proof. unfold wp, on_keys. by destruct (m s.1) as [[a k]|]. Qed.

Lemma wp_on_db {A} (f : D -> A * D) (Q : A -> state -> Prop) s a d : f s.2 = (a, d) -> Q a (s.1, d) -> wp (on_db f) Q s.
Proof. unfold wp, on_db. by intros ->. Qed.

Lemma execute_all_spec sqls s :
  wp (execute_all sqls) (fun _ s' => s'.1 = s.1 /\ dbKey s'.2 = dbKey s.2 /\ opened s'.2 = opened s.2) s.
Proof.
  revert s. induction sqls as [|q sqls IH]; intros s; [by apply wp_ret|]. simpl. apply wp_bind.
  destruct (ExecuteSql q s.2) as [e d] eqn:E. eapply wp_on_db; [exact E|]. destruct (sql_law _ _ _ _ E) as [Hk Ho].
  destruct (is_ok e); [|by apply wp_ret]. eapply wp_mono; [apply IH|]. intros a s' (-> & Hk' & Ho'). simpl in *. by rewrite Hk', Ho'.
Qed.

(** The writer accepts a key only if it is the key of the database. *)
Lemma set_key_spec key c s : wp (SetEncryptKey true key c)
  (fun e s' => s'.1 = s.1 /\ dbKey s'.2 = dbKey s.2 /\ (e = E_OK -> key = dbKey s.2 /\ key <> [])) s.
Proof.
  unfold SetEncryptKey. destruct key as [|b key']; [by apply wp_ret|]. set (key := b :: key').
  apply wp_bind. destruct (sqlite3_key key s.2) as [r d] eqn:E. eapply wp_on_db; [exact E|].
  destruct (key_law _ _ _ _ E) as (Hk & Hrow & Ho). destruct (Z.eqb_spec r SQLITE_OK) as [Hr|Hne]; simpl.
  2: { apply wp_ret. split; [done|]. split; [done|]. intros [|]%StatementProps.ErrNo_ok; done. }
  apply wp_bind. unfold SetEncryptAgo. destruct (CryptoParam.IsValid _); simpl; [|by apply wp_ret, wp_ret].
  eapply wp_mono; [apply execute_all_spec|]. intros e s1 (Hs1 & Hk1 & Ho1). simpl in *.
  destruct (is_ok e) eqn:He; simpl; [|apply wp_ret; split; [done|]; split; [congruence|]; by intros ->].
  destruct (ExecuteForValue PRAGMA_VERSION s1.2) as [e2 d2] eqn:E2. eapply wp_on_db; [exact E2|].
  destruct (value_law _ _ _ _ E2) as (Hk2 & Hok). simpl. split; [done|]. split; [congruence|]. intros He2.
  split; [|done]. rewrite <- (Ho Hr), <- Ho1, <- Hk, <- Hk1. by apply Hok.
Qed.

(** The key files belong to the configuration: they hold its key and, if there is one, its new key. *)
Definition belongs c s : Prop :=
  holds s.1 (RdbStoreConfig.path_ c) (RdbStoreConfig.GetEncryptKey c) /\
  (RdbStoreConfig.newEncryptKey_ c <> [] ->
     stored s.1.2 (SecurityManager.GetKeyFile (RdbStoreConfig.path_ c) SecurityManager.PUB_KEY_FILE_NEW_KEY) (RdbStoreConfig.newEncryptKey_ c) /\
     (length (RdbStoreConfig.newEncryptKey_ c) <= RdbPassword.MAX_PASSWORD_SIZE)%nat).

(** What a successful open leaves: the key of the configuration and the one in its file are the
    key of the database. *)
Definition opens (path : string) c s : Prop :=
  RdbStoreConfig.path_ c = path /\ RdbStoreConfig.GetEncryptKey c = dbKey s.2 /\ holds s.1 path (dbKey s.2).

Lemma change_opens c s : renamable -> RdbStoreConfig.newEncryptKey_ c <> [] ->
  RdbStoreConfig.newEncryptKey_ c = dbKey s.2 -> belongs c s ->
  wp (on_keys (RdbStoreConfig.ChangeEncryptKey c)) (fun c' s' => s'.2 = s.2 /\ opens (RdbStoreConfig.path_ c) c' s') s.
Proof.
  intros Hren Hne Heq [(Hr & Hu & _ & Ho & _) Hnew]. destruct (Hnew Hne) as [Hst Hlen]. apply wp_on_keys.
  unfold RdbStoreConfig.ChangeEncryptKey. apply wp_bind. eapply wp_mono; [by eapply change_holds|].
  intros ? k' Hh. apply wp_ret. split; [done|]. destruct (RdbStoreConfig.newEncryptKey_ c) as [|b key'] eqn:E; [done|].
  split; [done|]. split; [exact Heq|]. simpl. by rewrite <- Heq.
Qed.

Lemma reset_opens c s : renamable -> RdbStoreConfig.newEncryptKey_ c <> [] ->
  RdbStoreConfig.GetEncryptKey c = dbKey s.2 -> belongs c s -> wp (ResetKey true c) (fun c' s' => opens (RdbStoreConfig.path_ c) c' s') s.
Proof.
  intros Hren Hne Heq Hb. unfold ResetKey. simpl. apply wp_bind.
  destruct (sqlite3_rekey (RdbStoreConfig.newEncryptKey_ c) s.2) as [r d] eqn:E. eapply wp_on_db; [exact E|].
  pose proof (rekey_law _ _ _ _ E) as Hk. destruct (Z.eqb_spec r SQLITE_OK) as [->|Hr]; simpl.
  - eapply wp_mono; [by eapply (change_opens c (s.1, d))|by intros c' s' [_ ?]].
  - rewrite bool_decide_eq_false_2 in Hk by done. apply wp_bind, wp_on_keys.
    eapply wp_mono; [apply delete_new_holds, Hb|]. intros ? k' Hh. apply wp_ret. split; [done|]. split; simpl; [congruence|].
    by rewrite Hk, <- Heq.
Qed.

Lemma service_opens keys c last s : writable -> belongs c s ->
  Forall (fun k => (length k <= RdbPassword.MAX_PASSWORD_SIZE)%nat) keys ->
  last <> E_OK -> wp (service_loop true keys c last) (fun '(e, c') s' => e = E_OK -> opens (RdbStoreConfig.path_ c) c' s') s.
Proof.
  intros Hwr Hb Hks. revert last s Hb. induction Hks as [|key keys Hlen _ IH]; intros last s Hb Hlast; simpl; [by apply wp_ret|].
  apply wp_bind. eapply wp_mono; [apply set_key_spec|]. intros e s1 (Hs1 & Hk1 & Hok).
  assert (belongs c s1) as Hb1 by (unfold belongs; by rewrite Hs1).
  destruct (is_ok e) eqn:He.
  - apply is_ok_true in He. destruct (Hok He) as [Heq Hne]. apply wp_bind, wp_on_keys.
    unfold RdbStoreConfig.RestoreEncryptKey. apply wp_bind. destruct Hb1 as [(Hr & Hu & Hn & Ho & _) _].
    eapply wp_mono; [by apply (restore_holds _ key)|]. intros ? k' Hh. apply wp_ret, wp_ret. intros _.
    split; [done|]. split; [change (key = dbKey s1.2); congruence|]. simpl. by rewrite Hk1, <- Heq.
  - apply IH; [done|]. by apply is_ok_false.
Qed.

(** Opening the writer of an encrypted database. *)
Lemma set_encrypt_spec c s : writable -> renamable -> belongs c s ->
  RdbStoreConfig.IsEncrypt c = true -> RdbStoreConfig.IsMemoryRdb c = false ->
  wp (SetEncrypt true c) (fun '(e, c') s' => e = E_OK -> opens (RdbStoreConfig.path_ c) c' s') s.
Proof.
  intros Hwr Hren Hb Henc Hmem. unfold SetEncrypt. rewrite Henc, Hmem. simpl.
  apply wp_bind. eapply wp_mono; [apply set_key_spec|]. intros e s1 (Hs1 & Hk1 & Hok).
  assert (belongs c s1) as Hb1 by (unfold belongs; by rewrite Hs1).
  destruct (is_ok e) eqn:He; simpl.
  - apply is_ok_true in He. destruct (Hok He) as [Heq _]. rewrite <- Hk1 in Heq.
    destruct (RdbStoreConfig.newEncryptKey_ c) eqn:En.
    + apply wp_ret. intros _. split; [done|]. split; [done|]. rewrite <- Heq. apply Hb1.
    + apply wp_bind. eapply wp_mono; [apply reset_opens; try done; by rewrite En|]. intros c' s' Ho. by apply wp_ret.
  - apply is_ok_false in He. apply wp_bind.
    apply (wp_mono _ (fun e2 s2 => s2.1 = s1.1 /\ (e2 = E_OK -> RdbStoreConfig.newEncryptKey_ c = dbKey s2.2 /\ RdbStoreConfig.newEncryptKey_ c <> []))).
    { destruct (RdbStoreConfig.newEncryptKey_ c) eqn:En; [by apply wp_ret|]. rewrite <- En in *.
      eapply wp_mono; [apply set_key_spec|]. intros e2 s2 (Hs2 & Hk2 & Hok2). split; [done|]. intros He2.
      destruct (Hok2 He2). split; congruence. }
    intros e2 s2 (Hs2 & Hok2). assert (belongs c s2) as Hb2 by (unfold belongs; by rewrite Hs2, Hs1).
    destruct (is_ok e2) eqn:He2; simpl.
    + apply is_ok_true in He2. destruct (Hok2 He2) as [Heq Hne]. apply wp_bind. eapply wp_mono; [by apply change_opens|].
      intros c' s' [_ Ho]. by apply wp_ret.
    + apply is_ok_false in He2. unfold SetServiceKey. apply wp_bind. destruct (GetPassword s2.2) as [ks d] eqn:E.
      eapply wp_on_db; [exact E|]. destruct (password_law _ _ _ E) as [_ Hks]. destruct ks as [ks|]; [|by apply wp_ret].
      by apply service_opens.
Qed.

(** *** Reading the keys again *)

Lemma valid_value pw : RdbPassword.value pw <> [] -> RdbPassword.IsValid pw = true.
Proof. unfold RdbPassword.value, RdbPassword.IsValid. intros Hv. by destruct (RdbPassword.size_ pw). Qed.

Lemma holds_idle path key (k k' : SecurityManager.t * K) : idle k k' -> holds k path key -> holds k' path key.
Proof.
  intros [[Hs Hf] Hr] (Hready & Hup & Hnew & Hold & Hst & Hlen). split; [auto|]. split; [by apply Hs|].
  split; [by eapply new_key_ok_same|]. split; [|split; [|done]].
  - intros type. rewrite (files_empty_ext _ k.2) by (intros; apply Hf). apply Hold.
  - by eapply stored_same.
Qed.

Lemma init_spec name path key k : holds k path key ->
  wp (SecurityManager.Init name) (fun e k' => e = E_OK /\ holds k' path key) k.
Proof.
  intros Hh. unfold SecurityManager.Init. apply wp_bind. eapply wp_mono; [apply get_delegate_spec, Hh|].
  intros [] k1 (Hi & _ & Hu). 2: { by specialize (Hu (proj1 (proj2 Hh))). }
  apply wp_bind. destruct (Str.empty name); [apply wp_ret, wp_ret; split; [done|by eapply holds_idle]|].
  unfold SecurityManager.SetBundleName, wp. simpl. split; [done|]. eapply holds_idle; [|exact Hh].
  eapply idle_trans; [exact Hi|]. by split.
Qed.

(** A configuration that has no key yet gets the one in the file. *)
Lemma generate_key_spec c key k : holds k (RdbStoreConfig.path_ c) key ->
  RdbStoreConfig.isEncrypt_ c = true -> RdbStoreConfig.GetEncryptKey c = [] ->
  CryptoParam.encryptAlgo (RdbStoreConfig.cryptoParam_ c) <> CryptoParam.PLAIN_TEXT ->
  wp (RdbStoreConfig.GenerateEncryptedKey c) (fun '(e, c') _ => e = E_OK /\ RdbStoreConfig.GetEncryptKey c' = key) k.
Proof.
  intros Hh Henc Hkey Halgo. unfold RdbStoreConfig.GenerateEncryptedKey. rewrite Henc, Hkey. simpl.
  rewrite (proj2 (Z.eqb_neq _ _) Halgo). apply wp_bind. eapply wp_mono; [by apply init_spec|].
  intros e k1 [-> (Hr & Hu & Hnew & Hold & Hst & Hlen)]. rewrite bool_decide_eq_true_2 by done. simpl.
  apply wp_bind. eapply wp_mono; [by apply get_password_spec; [..|right; eauto]|].
  intros pw k2 ([[Hs Hf] Hr2] & Hv & _). specialize (Hv key Hst Hlen).
  rewrite valid_value by (rewrite Hv; apply Hst). rewrite Hv. cbn [RdbStoreConfig.path_ RdbStoreConfig.set_key].
  apply wp_bind, wp_get. destruct (negb _); [|by apply wp_ret].
  assert (GetKeyFile_ne := key_files_differ (RdbStoreConfig.path_ c)).
  apply wp_bind. eapply wp_mono; [apply get_password_spec; [auto|by apply Hs|..]|].
  - rewrite (files_empty_ext _ k1.2); [apply Hold|]. intros p Hp. apply Hf. by eapply key_file_old.
  - eapply new_key_ok_same; [apply Hs|by apply Hf|exact Hnew].
  - intros pw2 k3 _. apply wp_ret. split; [done|]. by destruct (RdbPassword.IsValid pw2).
Qed.

End Laws.
End EncryptionInv.

(** A database whose codec is a comparison; [rekeys] says of the coming calls of [sqlite3_rekey]
    whether they succeed. *)
Module SmallCodec.
Import SQLiteError Encryption EncryptionInv.

Record db := { db_key : list Z; given : list Z; rekeys : list bool; service : option (list (list Z)) }.

#[export] Instance small_codec : Codec db := {
  sqlite3_key k d := (SQLITE_OK, {d with given := k});
  sqlite3_rekey k d :=
    match rekeys d with
    | false :: rest => (1, {d with rekeys := rest})
    | _ => (SQLITE_OK, {d with db_key := k; given := k; rekeys ::= tail})
    end;
  sqlite3_rekey_v3 _ cfg d := (SQLITE_OK, {d with db_key := default [] (pKey cfg)});
  ExecuteSql _ d := (E_OK, d);
  ExecuteForValue _ d := (if bool_decide (given d = db_key d) then E_OK else E_SQLITE_CORRUPT, d);
  GetPassword d := (List.filter (fun k => (length k <=? RdbPassword.MAX_PASSWORD_SIZE)%nat) <$> service d, d)
}.

#[export] Instance small_codec_laws : CodecLaws db.
Proof.
  refine {| dbKey := db_key; opened := given |}.
  - intros k d r d' [= <- <-]. by auto.
  - intros q d e d' [= <- <-]. by auto.
  - intros q d e d' [= <- <-]. split; [done|]. by case_bool_decide.
  - intros k d r d' Hr. unfold sqlite3_rekey, small_codec in Hr. destruct (rekeys d) as [|[] rest]; by simplify_eq/=.
  - intros d ks d' [= <- <-]. split; [done|]. destruct (service d) as [ks|]; simpl; [|done].
    apply Forall_forall. intros k Hk. apply list_elem_of_In, filter_In in Hk as [_ Hk]. by apply Nat.leb_le.
Defined.

End SmallCodec.

Module EncryptionProps.
Import Huks Files KeyLaws SecurityInv Encryption EncryptionInv.

(** C33: take a configuration of an encrypted database that is not in memory, whose key, and new key if one is pending, are
    those in the key files of its path ([belongs]: so not keys of the user; no files of earlier formats; the key service is up),
    on a disk where writing and renaming of key files succeed.  Then opening the writer gives an answer, and when it is
    [E_OK] the key of the configuration and the key in the key file are the key of the database,
    whichever of the stored key, the pending new key (which it then changes to) or a key of the
    service was the right one.  The open itself can lead to a configuration whose new key is in no file: after a [sqlite3_rekey] that
    failed ([failed_rekey_loses_key]) and after a key of the service ([service_key_leaves_zero_key]); the claim does not hold of the
    next open with that configuration. *)
Theorem writer_opens {K D} `{KeyLaws K} `{CodecLaws D} (c : RdbStoreConfig.t) (s : (SecurityManager.t * K) * D) :
  writable -> renamable -> belongs c s -> RdbStoreConfig.IsEncrypt c = true -> RdbStoreConfig.IsMemoryRdb c = false ->
  exists e c' s', SetEncrypt true c s = Some ((e, c'), s') /\
    (e = E_OK -> RdbStoreConfig.GetEncryptKey c' = dbKey s'.2 /\ holds s'.1 (RdbStoreConfig.path_ c) (dbKey s'.2)).
Proof.
  intros Hw Hr Hb He Hm. destruct (wp_run _ _ _ (set_encrypt_spec c s Hw Hr Hb He Hm)) as ([e c'] & s' & E & Ho).
  exists e, c', s'. split; [done|]. intros Hok. by apply Ho.
Qed.

(** C34: a database whose writer was opened with the answer [E_OK], where before this the key and the pending new key of its
    configuration were those in the key files ([belongs], as after a start; not after [failed_rekey_loses_key] or
    [service_key_leaves_zero_key]) and the disk let key files be written and renamed, can be opened after a restart: an encrypted configuration that
    names the same path, has no key of its own and an algorithm other than plain text finds, in a process that knows nothing but the
    files, the key of the database. *)
Theorem reopened_finds_key {K D} `{KeyLaws K} `{CodecLaws D} (c c' c2 : RdbStoreConfig.t) (s s' : (SecurityManager.t * K) * D) :
  writable -> renamable -> belongs c s -> RdbStoreConfig.IsEncrypt c = true -> RdbStoreConfig.IsMemoryRdb c = false ->
  SetEncrypt true c s = Some ((E_OK, c'), s') ->
  RdbStoreConfig.path_ c2 = RdbStoreConfig.path_ c -> RdbStoreConfig.isEncrypt_ c2 = true ->
  RdbStoreConfig.GetEncryptKey c2 = [] -> CryptoParam.encryptAlgo (RdbStoreConfig.cryptoParam_ c2) <> CryptoParam.PLAIN_TEXT ->
  exists c3 k, RdbStoreConfig.Initialize c2 (SecurityManager.new, s'.1.2) = Some ((E_OK, c3), k) /\
    RdbStoreConfig.GetEncryptKey c3 = dbKey s'.2.
Proof.
  intros Hw Hr Hb He Hm E Hp Henc Hkey Halgo.
  destruct (wp_run _ _ _ (set_encrypt_spec c s Hw Hr Hb He Hm)) as ([e c1] & s1 & E1 & Ho). simplify_eq.
  destruct (Ho eq_refl) as (_ & _ & Hh). rewrite <- Hp in Hh.
  assert (holds (SecurityManager.new, s'.1.2) (RdbStoreConfig.path_ c2) (dbKey s'.2)) as Hh' by (split; [done|apply Hh]).
  destruct (wp_run _ _ _ (generate_key_spec c2 _ _ Hh' Henc Hkey Halgo)) as ([e3 c3] & k & E3 & -> & Hk).
  by exists c3, k.
Qed.

(** *** Witnesses *)

Import SmallKeys SmallCodec.

Definition the_path : string := "/data/rdb/a.db".
Definition key_file (type : SecurityManager.KeyFileType) : string := SecurityManager.GetKeyFile the_path type.

Definition key1 : list Z := replicate 32 1.
Definition key2 : list Z := replicate 32 2.
Definition key3 : list Z := replicate 32 3.

(** The file that [SaveSecretKeyToFile] makes of a key. *)
Definition key_bytes (key : list Z) : list Z :=
  SecurityManager.package {SecurityManager.no_content with SecurityManager.nonce_ := replicate 12 5; SecurityManager.encrypt_ := key ++ tag}.

(** A key, a new key that is pending, and their files. *)
Definition pending : RdbStoreConfig.t :=
  {RdbStoreConfig.set_key key1 (RdbStoreConfig.SetEncryptStatus true (RdbStoreConfig.of_path the_path))
   with RdbStoreConfig.newEncryptKey_ := key2}.

Definition key_world : world :=
  {| disk := {[ key_file SecurityManager.PUB_KEY_FILE := key_bytes key1; key_file SecurityManager.PUB_KEY_FILE_NEW_KEY := key_bytes key2 ]};
     current := None |}.

Definition database (key : list Z) (plan : list bool) : (SecurityManager.t * world) * db :=
  ((SecurityManager.new, key_world), {| db_key := key; given := []; rekeys := plan; service := Some [key3] |}).

Lemma key_world_stored type key : disk key_world !! key_file type = Some (key_bytes key) -> length key = 32%nat ->
  stored key_world (key_file type) key.
Proof.
  intros Hf Hl. split; [by intros ->|]. split; [unfold SecurityManager.AEAD_LEN; lia|].
  exists {SecurityManager.no_content with SecurityManager.nonce_ := replicate 12 5; SecurityManager.encrypt_ := key ++ tag}.
  split; [|exact Hf]. by repeat split.
Defined.

Lemma pending_belongs key plan : belongs pending (database key plan).
Proof.
  split; [|intros _; split; [by apply (key_world_stored SecurityManager.PUB_KEY_FILE_NEW_KEY)|by vm_compute; lia]].
  split; [done|]. split; [exact I|]. split; [right; exists key2; split; [by apply (key_world_stored SecurityManager.PUB_KEY_FILE_NEW_KEY)|vm_compute; lia]|].
  split; [by intros []|]. split; [by apply (key_world_stored SecurityManager.PUB_KEY_FILE)|vm_compute; lia].
Defined.

Lemma small_writable : writable.
Proof. by split. Defined.

Lemma small_renamable : renamable.
Proof. intros src dst w. simpl. by destruct (disk w !! src). Defined.

Lemma writer_opens_witness :
  exists e c' s', SetEncrypt true pending (database key1 []) = Some ((e, c'), s') /\
    (e = E_OK -> RdbStoreConfig.GetEncryptKey c' = dbKey s'.2 /\ holds s'.1 (RdbStoreConfig.path_ pending) (dbKey s'.2)).
Proof.
  apply writer_opens; [apply small_writable|apply small_renamable|apply pending_belongs|reflexivity|reflexivity].
Defined.

Definition state_after (s : (SecurityManager.t * world) * db) (c : RdbStoreConfig.t) : RdbStoreConfig.t * ((SecurityManager.t * world) * db) :=
  match SetEncrypt true c s with Some ((_, c'), s') => (c', s') | None => (c, s) end.

(** The pending key takes over: the database is encrypted with it afterwards. *)
Example pending_key_takes_over :
  (fun r => (r.1.1, db_key r.2.2)) <$> SetEncrypt true pending (database key1 []) = Some (E_OK, key2).
Proof. vm_compute. reflexivity. Qed.

Definition fresh_config : RdbStoreConfig.t := RdbStoreConfig.SetEncryptStatus true (RdbStoreConfig.of_path the_path).

Lemma reopened_finds_key_witness :
  exists c3 k, RdbStoreConfig.Initialize fresh_config (SecurityManager.new, (state_after (database key1 []) pending).2.1.2) = Some ((E_OK, c3), k) /\
    RdbStoreConfig.GetEncryptKey c3 = dbKey (state_after (database key1 []) pending).2.2.
Proof.
  apply (reopened_finds_key pending (state_after (database key1 []) pending).1 fresh_config (database key1 []) (state_after (database key1 []) pending).2);
    [apply small_writable|apply small_renamable|apply pending_belongs|reflexivity|reflexivity|vm_compute; reflexivity
    |reflexivity|reflexivity|reflexivity|by intros [=]].
Defined.

(** *** What goes wrong *)

(** When a key of the service was the right one, [RestoreEncryptKey] overwrites the new key with zeros
    but keeps its length: the next time the writer is opened, the database is encrypted anew with
    a key of zeros. *)
Theorem service_key_leaves_zero_key :
  let '(c1, s1) := state_after (database key3 []) pending in
  let '(c2, s2) := state_after s1 c1 in
  db_key s1.2 = key3 /\ RdbStoreConfig.GetEncryptKey c1 = key3 /\ db_key s2.2 = replicate 32 0.
Proof. vm_compute. done. Qed.

(** When [sqlite3_rekey] fails, [ResetKey] deletes the file of the new key but keeps the key in the
    configuration: the next time the writer is opened the database is encrypted with it, there is
    no file to be renamed, and a restart only finds the old key. *)
Theorem failed_rekey_loses_key :
  let '(c1, s1) := state_after (database key1 [false]) pending in
  let '(c2, s2) := state_after s1 c1 in
  db_key s1.2 = key1 /\ db_key s2.2 = key2 /\
  (fun r => RdbPassword.value r.1) <$> SecurityManager.GetRdbPassword the_path SecurityManager.PUB_KEY_FILE (SecurityManager.new, s2.1.2) = Some key1.
Proof. vm_compute. done. Qed.

End EncryptionProps.
