(* ===== verification/ResultSet.v ===== *)
(** * Result sets

    [SharedResultSet]: the cursor of a query, frameworks/native/rdb/src/abs_result_set.cpp,
    abs_shared_result_set.cpp and sqlite_shared_result_set.cpp: positions, the window of rows
    in the shared block, refilling.  [CacheResultSet]: frameworks/native/rdb/src/
    cache_result_set.cpp, the rows in memory.  [ResultSetProps]: the claims.

    A prepared query is what SQLite answers when it is run from the start: [q_steps]; each fill
    ends with [sqlite3_reset], so each fill sees the same answers.  The error message a result
    set keeps is left out. *)
From Stdlib Require Import ZArith Lia.
From stdpp Require Import base gmap list strings.
From S2P Require Import Prelude CppStd Errno Values SharedBlock StringUtils RawData FillBlock.

Local Open Scope Z_scope.

Module SharedResultSet.
Import AbsBlock Block Fill.

Definition INIT_POS : Z := -1.
Definition NO_COUNT : Z := -1.
Definition INVALID_COUNT : Z := -1.
Definition PICK_POS : Z := 3.
Definition INT_MAX : Z := 2 ^ 31 - 1.
Definition DEFAULT_BLOCK_SIZE : Z := 2 * 1024 * 1024.

(** The prepared statement: its answers, the number of columns and their names. *)
Record query := {
  q_steps : list stepped;
  q_columns : Z;
  q_names : errno * list string;
  q_retry : Z
}.

Record t := {
  rowPos_ : Z;
  rowCount_ : Z;
  isClosed_ : bool;
  lastErr_ : errno;
  columnCount_ : Z;
  wholeColumnNames_ : list string;
  columnMap_ : list (string * Z);
  sharedBlock_ : option SharedBlock;
  blockCapacity_ : Z;
  isOnlyFillBlock_ : bool
}.

Definition set_row (pos count : Z) (s : t) : t :=
  {| rowPos_ := pos; rowCount_ := count; isClosed_ := isClosed_ s; lastErr_ := lastErr_ s;
     columnCount_ := columnCount_ s; wholeColumnNames_ := wholeColumnNames_ s; columnMap_ := columnMap_ s;
     sharedBlock_ := sharedBlock_ s; blockCapacity_ := blockCapacity_ s;
     isOnlyFillBlock_ := isOnlyFillBlock_ s |}.

Definition set_block (b : option SharedBlock) (capacity : Z) (s : t) : t :=
  {| rowPos_ := rowPos_ s; rowCount_ := rowCount_ s; isClosed_ := isClosed_ s; lastErr_ := lastErr_ s;
     columnCount_ := columnCount_ s; wholeColumnNames_ := wholeColumnNames_ s; columnMap_ := columnMap_ s;
     sharedBlock_ := b; blockCapacity_ := capacity;
     isOnlyFillBlock_ := isOnlyFillBlock_ s |}.

(** The loop of [InitColumnNames]: [columnMap_.emplace(name, i)]. *)
Fixpoint emplace_names (names : list string) (i : Z) (m : list (string * Z)) : list (string * Z) :=
  match names with
  | [] => m
  | name :: rest => emplace_names rest (i + 1) (OMap.insert Str.ltb name i m)
  end.

(** The names of the columns; the first of two equal names stays in the map. *)
Definition set_columns (names : list string) (s : t) : t :=
  {| rowPos_ := rowPos_ s; rowCount_ := rowCount_ s; isClosed_ := isClosed_ s; lastErr_ := lastErr_ s;
     columnCount_ := Z.of_nat (length names); wholeColumnNames_ := names;
     columnMap_ := emplace_names names 0 (columnMap_ s); sharedBlock_ := sharedBlock_ s; blockCapacity_ := blockCapacity_ s;
     isOnlyFillBlock_ := isOnlyFillBlock_ s |}.

(** A result set whose query was prepared and counted, and whose block was created. *)
Definition opened (b : SharedBlock) (count : errno * Z) : t :=
  {| rowPos_ := INIT_POS; rowCount_ := snd count; isClosed_ := false; lastErr_ := fst count; columnCount_ := -1;
     wholeColumnNames_ := []; columnMap_ := []; sharedBlock_ := Some b; blockCapacity_ := 0; isOnlyFillBlock_ := false |}.

(** [SetStartPos], [SetLastPos] and [SetBlockPos]. *)
Definition set_pos (start last pos : Z) (b : SharedBlock) : SharedBlock :=
  let h := mHeader b in
  set_header b (mkHeader (unusedOffset h) (rowNums h) (columnNums h) (Int.u32 start) (Int.u32 last) (Int.u32 pos)
    (groupOffset h)).

Definition set_block_pos (pos : Z) (b : SharedBlock) : SharedBlock :=
  let h := mHeader b in
  set_header b (mkHeader (unusedOffset h) (rowNums h) (columnNums h) (Block.startPos_ h) (Block.lastPos_ h) (Int.u32 pos)
    (groupOffset h)).

Definition GetStartPos (b : SharedBlock) : Z := Block.startPos_ (mHeader b).
Definition GetLastPos (b : SharedBlock) : Z := Block.lastPos_ (mHeader b).
Definition GetBlockPos (b : SharedBlock) : Z := Block.blockPos_ (mHeader b).

Definition GetRowCount (s : t) : errno * Z :=
  (if negb (is_ok (lastErr_ s)) then lastErr_ s
   else if negb (rowCount_ s =? NO_COUNT) then E_OK
   else if isClosed_ s then E_ALREADY_CLOSED else E_OK, rowCount_ s).

Definition PickFillBlockStartPosition (resultSetPosition blockCapacity : Z) : Z :=
  Z.max (resultSetPosition - Z.quot blockCapacity PICK_POS) 0.

(** [ExecuteForSharedBlock] with the prepared statement. *)
Definition ExecuteForSharedBlock (q : query) (b : SharedBlock) (start required : Z) : errno * SharedBlock :=
  let '(code, b1) := Block.Clear b in
  if negb (bool_decide (code = SHARED_BLOCK_OK)) then (E_ERROR, b1)
  else
    let '(code2, b2) := Block.SetColumnNum b1 (q_columns q) in
    if negb (bool_decide (code2 = SHARED_BLOCK_OK)) then (E_ERROR, b2)
    else
      let info :=
        {| startPos := start; addedRows := 0; requiredPos := required; totalRows := 0; isCountAllRows := false;
           columnNum := q_columns q; isFull := false; hasException := false |} in
      let '(e, i, ob) := FillBlockInfo info (Some b2) (q_steps q) (q_retry q) in
      let b3 := default b2 ob in
      if negb (is_ok e) then (e, b3)
      else (E_OK, set_pos (startPos i) (startPos i + GetRowNum b3) (required - startPos i) b3).

(** [FillBlock]; [ClearBlock] comes first. *)
Definition FillBlock (q : query) (requiredPos : Z) (s : t) : errno * t :=
  match sharedBlock_ s with
  | None => (E_ERROR, s)
  | Some b0 =>
      let b := snd (Block.Clear b0) in
      let start := if isOnlyFillBlock_ s then requiredPos
                   else PickFillBlockStartPosition requiredPos (Int.i32 (blockCapacity_ s)) in
      let '(e, b') := ExecuteForSharedBlock q b start requiredPos in
      if negb (is_ok e) then (e, set_block (Some b') (blockCapacity_ s) s)
      else (if GetLastPos b' <=? Int.u32 requiredPos then E_NO_MORE_ROWS else E_OK,
            set_block (Some b') (GetRowNum b') s)
  end.

(** [SqliteSharedResultSet::OnGo]. *)
Definition OnGo (q : query) (oldPosition newPosition : Z) (s : t) : errno * t :=
  if isClosed_ s then (E_ALREADY_CLOSED, s)
  else
    match sharedBlock_ s with
    | None => (E_ERROR, s)
    | Some b =>
        if (Int.u32 newPosition <? GetStartPos b) || (GetLastPos b <=? Int.u32 newPosition) || (oldPosition =? rowCount_ s)
        then
          let '(errCode, s1) := FillBlock q newPosition s in
          match sharedBlock_ s1 with
          | Some b1 =>
              if bool_decide (errCode = E_NO_MORE_ROWS) && negb (rowCount_ s1 =? INVALID_COUNT) then
                let count := if INT_MAX <? GetLastPos b1 then INVALID_COUNT else GetLastPos b1 in
                (E_ROW_OUT_RANGE, set_row (if count <? rowPos_ s1 then count else rowPos_ s1) count s1)
              else (errCode, s1)
          | None => (errCode, s1)
          end
        else (E_OK, s)
    end.

Definition UpdateBlockPos (q : query) (position : Z) (s : t) : errno * t :=
  let '(ret, s1) := OnGo q (rowPos_ s) position s in
  match sharedBlock_ s1 with
  | Some b =>
      if is_ok ret && negb (Int.u32 position =? Int.u32 (GetStartPos b + GetBlockPos b))
      then (ret, set_block (Some (set_block_pos (position - GetStartPos b) b)) (blockCapacity_ s1) s1)
      else (ret, s1)
  | None => (ret, s1)
  end.

(** [AbsSharedResultSet::GoToRow]. *)
Definition GoToRow (q : query) (position : Z) (s : t) : errno * t :=
  if isClosed_ s then (E_ALREADY_CLOSED, s)
  else
    let '(ret, rowCnt) := GetRowCount s in
    if negb (is_ok ret) then (ret, s)
    else if (rowCnt <=? position) || (position <? 0) then
      (E_ROW_OUT_RANGE,
       set_row (if (rowCnt <=? position) && negb (rowCnt =? 0) then rowCnt else rowPos_ s) (rowCount_ s) s)
    else if position =? rowPos_ s then (E_OK, s)
    else
      let '(ret', s1) := UpdateBlockPos q position s in
      (ret', if is_ok ret' then set_row position (rowCount_ s1) s1 else s1).

Definition GoTo (q : query) (offset : Z) (s : t) : errno * t := GoToRow q (rowPos_ s + offset) s.

Definition GoToFirstRow (q : query) (s : t) : errno * t := GoToRow q 0 s.

Definition GoToLastRow (q : query) (s : t) : errno * t :=
  let '(ret, rowCnt) := GetRowCount s in
  if negb (is_ok ret) then (ret, s)
  else if rowCnt =? 0 then (E_ROW_OUT_RANGE, s) else GoToRow q (rowCnt - 1) s.

Definition GoToNextRow (q : query) (s : t) : errno * t := GoToRow q (rowPos_ s + 1) s.

Definition GoToPreviousRow (q : query) (s : t) : errno * t := GoToRow q (rowPos_ s - 1) s.

Definition IsAtFirstRow (s : t) : errno * bool := (E_OK, rowPos_ s =? 0).

Definition IsAtLastRow (s : t) : errno + bool :=
  let '(ret, rowCnt) := GetRowCount s in if negb (is_ok ret) then inl ret else inr (rowPos_ s =? rowCnt - 1).

Definition IsStarted (s : t) : errno * bool := (E_OK, negb (rowPos_ s =? INIT_POS)).

Definition IsEnded (s : t) : errno * bool :=
  let '(ret, rowCnt) := GetRowCount s in
  if negb (is_ok ret) then (ret, true) else (E_OK, (rowCnt =? 0) || (rowPos_ s =? rowCnt)).

Definition InitColumnNames (q : query) (s : t) : errno * t :=
  if isClosed_ s then (E_ALREADY_CLOSED, s)
  else if negb (is_ok (fst (q_names q))) then (fst (q_names q), s)
  else if 0 <=? columnCount_ s then (E_OK, s)
  else (E_OK, set_columns (snd (q_names q)) s).

(** [GetColumnCount]; [old] is what the out parameter holds before. *)
Definition GetColumnCount (q : query) (old : Z) (s : t) : errno * Z * t :=
  if 0 <=? columnCount_ s then (E_OK, columnCount_ s, s)
  else
    let '(e, s1) := InitColumnNames q s in
    if negb (is_ok e) then (e, old, s1) else (E_OK, columnCount_ s1, s1).

Definition CheckState (q : query) (columnIndex : Z) (s : t) : errno * t :=
  if isClosed_ s then (E_ALREADY_CLOSED, s)
  else
    match sharedBlock_ s with
    | None => (E_ERROR, s)
    | Some _ =>
        let count := snd (GetRowCount s) in
        if (rowPos_ s <? 0) || (count <=? rowPos_ s) then (E_ROW_OUT_RANGE, s)
        else
          let '(_, count', s1) := GetColumnCount q count s in
          if (count' <=? columnIndex) || (columnIndex <? 0) then (E_COLUMN_OUT_RANGE, s1) else (E_OK, s1)
    end.

Section Text.
Context `{Serializable.JsonText} (now : Z).

(** What [Get] makes of the cell at address [a], [value] being what the caller's object holds:
    a null cell leaves it as it is, and so does a type that is not known.  [GetCustomerValue] for
    the types of the store, whose parser's result is taken whatever it used; a parser that would
    leave the buffer gives nothing. *)
Definition value_of_cell (b : SharedBlock) (a : Z) (value : ValueObject) : errno * option ValueObject :=
  let ty := cell_type b a in
  let raw := default [] (Block.GetBlob b a) in
  if ty =? CELL_UNIT_TYPE_NULL then (E_OK, Some value)
  else if ty =? CELL_UNIT_TYPE_INTEGER then (E_OK, Some (VInt (cell_long b a)))
  else if ty =? CELL_UNIT_TYPE_FLOAT then (E_OK, Some (VDouble (cell_bits b a)))
  else if ty =? CELL_UNIT_TYPE_STRING then (E_OK, Some (VString (Value.string_of_bytes (Block.GetString b a))))
  else if ty =? CELL_UNIT_TYPE_BLOB then (E_OK, Some (VBlob raw))
  else if ty =? CELL_UNIT_TYPE_ASSET then
    (E_OK, (fun r => VAsset (snd r)) <$> RawDataParser.ParserAsset now raw Asset.empty)
  else if ty =? CELL_UNIT_TYPE_ASSETS then (E_OK, (fun r => VAssets (snd r)) <$> RawDataParser.ParserAssets now raw [])
  else if ty =? CELL_UNIT_TYPE_FLOATS then (E_OK, (fun r => VFloats (snd r)) <$> RawDataParser.ParserFloats raw [])
  else if ty =? CELL_UNIT_TYPE_BIGINT then
    (E_OK, (fun r => VBigInt (snd r)) <$> RawDataParser.ParserBigInt raw (mkBig 0 []))
  else (E_INVALID_OBJECT_TYPE, Some value).

(** [AbsSharedResultSet::Get]: the answer, and what the caller's object holds after the call. *)
Definition Get (q : query) (col : Z) (value : ValueObject) (s : t) : (errno * option ValueObject) * t :=
  let '(e, s1) := CheckState q col s in
  if negb (is_ok e) then ((e, Some value), s1)
  else
    match sharedBlock_ s1 with
    | None => ((E_OK, Some value), s1)
    | Some b =>
        match GetCellUnit b (GetBlockPos b) col with
        | None => ((E_ERROR, Some value), s1)
        | Some a => (value_of_cell b a value, s1)
        end
    end.

End Text.

(** [Close], with the parts of the three classes. *)
Definition Close (s : t) : errno * t :=
  (E_OK,
   if isClosed_ s then set_row (rowPos_ s) NO_COUNT s
   else {| rowPos_ := INIT_POS; rowCount_ := NO_COUNT; isClosed_ := true; lastErr_ := lastErr_ s;
           columnCount_ := -1; wholeColumnNames_ := []; columnMap_ := []; sharedBlock_ := None; blockCapacity_ := blockCapacity_ s;
           isOnlyFillBlock_ := isOnlyFillBlock_ s |}).

End SharedResultSet.

(** ** The rows a cursor shows *)

Module CursorInv.
Import AbsBlock Block BlockInv BlockSpec Fill FillInv SharedResultSet.

(** A query whose answers are the rows of the table [tbl] of [n] columns. *)
Record answers (q : query) (n : Z) (tbl : list (list cell)) : Prop := {
  an_columns : q_columns q = n;
  an_range : 0 <= n <= COL_MAX_NUM;
  an_rows : Forall2 (row_cells n) (rows_of (q_steps q)) tbl;
  an_steps : Forall is_row (q_steps q);
  an_names : fst (q_names q) = E_OK /\ Z.of_nat (length (snd (q_names q))) = n;
  an_size : Z.of_nat (length tbl) < 2 ^ 31
}.

(** The block, of capacity [z], holds the rows [GetStartPos], ..., [GetLastPos - 1] of the table. *)
Record shows (z n : Z) (tbl : list (list cell)) (b : SharedBlock) : Prop := {
  sh_some : exists m ws, block_holds b m ws;
  sh_range : 0 <= GetStartPos b <= GetLastPos b /\ GetLastPos b <= Z.of_nat (length tbl);
  sh_pos : 0 <= GetBlockPos b < 2 ^ 32;
  sh_rows : GetStartPos b < GetLastPos b ->
    block_holds b n (window (GetStartPos b) (GetLastPos b - GetStartPos b) tbl);
  sh_cap : block_capacity b = z
}.

(** An open cursor over the table: on a row, the block shows that row at its position. *)
Record cursor (q : query) (n : Z) (tbl : list (list cell)) (z : Z) (s : SharedResultSet.t) : Prop := {
  cu_open : isClosed_ s = false /\ lastErr_ s = E_OK;
  cu_count : rowCount_ s = Z.of_nat (length tbl);
  cu_pos : -1 <= rowPos_ s <= Z.of_nat (length tbl);
  cu_columns : (columnCount_ s = -1 /\ columnMap_ s = []) \/
    (columnCount_ s = n /\ wholeColumnNames_ s = snd (q_names q) /\ columnMap_ s = emplace_names (snd (q_names q)) 0 []);
  cu_capacity : 0 <= blockCapacity_ s < 2 ^ 31;
  cu_block : exists b, sharedBlock_ s = Some b /\ shows z n tbl b /\
    (0 <= rowPos_ s < Z.of_nat (length tbl) ->
       GetStartPos b <= rowPos_ s < GetLastPos b /\ GetBlockPos b = rowPos_ s - GetStartPos b)
}.

(** The positions in the header are no part of the table. *)
Lemma abstracts_pos b t start last pos :
  abstracts b t ->
  abstracts (set_header b (mkHeader (unusedOffset (mHeader b)) (rowNums (mHeader b)) (columnNums (mHeader b))
    start last pos (groupOffset (mHeader b)))) t.
Proof. destruct b as [sz ro [u r c s0 l0 p0 g] m]. intros [[H1 H2 H3 H4 H5 H6 H7] Hw Hr Hc HM]. by split. Qed.

Lemma block_holds_pos b n rows start last pos :
  block_holds b n rows -> block_holds (set_pos start last pos b) n rows /\ block_holds (set_block_pos pos b) n rows.
Proof. intros [(t & Ht & H)]. split; split; exists t; (split; [by apply abstracts_pos|done]). Qed.

Lemma block_holds_rows b n rows : block_holds b n rows -> GetRowNum b = Z.of_nat (length rows).
Proof. intros [(t & [_ _ Hr _ _] & Hl & _)]. unfold GetRowNum. lia. Qed.

(** Filling from [start] for the row [req]. *)
Lemma execute_shows q n tbl z b m ws start req :
  answers q n tbl -> block_holds b m ws -> block_capacity b = z -> 0 <= start <= req -> req < Z.of_nat (length tbl) ->
  exists e b', ExecuteForSharedBlock q b start req = (e, b') /\
    ((e = E_ERROR /\ too_large (B := SharedBlock) z n tbl) \/
     (e = E_OK /\ shows z n tbl b' /\ GetStartPos b' <= req < GetLastPos b' /\
      GetBlockPos b' = req - GetStartPos b' /\ 0 <= GetRowNum b' < 2 ^ 31)).
Proof.
  intros [Hq Hn Hrows Hsteps _ Hsize] Hb Hz Hs Hreq. unfold ExecuteForSharedBlock.
  pose proof (capacity_clear b) as Hz1.
  destruct (block_clear b m ws Hb) as (b1 & Hc1 & Hb1). cbn in Hz1. rewrite Hc1 in *. cbn [snd] in Hz1. rewrite bool_decide_eq_true_2 by done. cbn [negb].
  rewrite Hq. pose proof (capacity_columns b1 n) as Hz2.
  destruct (block_columns b1 n Hb1 Hn) as (b2 & Hc2 & Hb2). cbn in Hz2. rewrite Hc2 in *. cbn [snd] in Hz2.
  rewrite bool_decide_eq_true_2 by done. cbn [negb].
  set (info := Build_SharedBlockInfo _ _ _ _ _ _ _ _). unfold FillBlockInfo.
  destruct (fill_window b2 n tbl info (q_steps q) (q_retry q)) as (e & i & b3 & -> & He & Hok); try done.
  rewrite (He Hsteps). destruct (Hok (He Hsteps)) as (Hh & Hz3 & Hl & Hst & Hnf & Hf).
  change (block_capacity b3 = block_capacity b2) in Hz3. change (capacity b2) with (block_capacity b2) in Hf.
  assert (Hz' : block_capacity b2 = z) by congruence. rewrite Hz' in *.
  subst info. cbn [startPos requiredPos] in Hst, Hf.
  ok_simpl. cbv iota. unfold ResetStatement.
  change (default b2 (Some b3)) with b3.
  pose proof (block_holds_rows _ _ _ Hh) as Hrn. rewrite Hl in Hrn.
  assert (Hin : req < startPos i + addedRows i \/ (isFull i = true /\ addedRows i = 0 /\ 0 < totalRows i /\ too_large (B := SharedBlock) z n tbl)).
  { destruct (isFull i); [|left; destruct (Hnf eq_refl); lia].
    destruct (Hf eq_refl) as [Ht [[Ha Hbig]|Hlt]]; [right|left]; auto. }
  destruct Hin as [Hin|(Hfull & Ha & Ht & Hbig)].
  - assert (Hrs : (isFull i && (0 <? totalRows i) && (addedRows i =? 0) && true) = false) by lia. rewrite Hrs. cbn [negb].
    ok_simpl. eexists _, _. split; [done|]. right. split; [done|].
    assert (Hle : startPos i + addedRows i <= Z.of_nat (length tbl)).
    { unfold window in Hl. rewrite length_take, length_drop in Hl. lia. }
    assert (Hp : GetStartPos (set_pos (startPos i) (startPos i + GetRowNum b3) (req - startPos i) b3) = startPos i /\
      GetLastPos (set_pos (startPos i) (startPos i + GetRowNum b3) (req - startPos i) b3) = startPos i + addedRows i /\
      GetBlockPos (set_pos (startPos i) (startPos i + GetRowNum b3) (req - startPos i) b3) = req - startPos i).
    { unfold set_pos, GetStartPos, GetLastPos, GetBlockPos. cbn. rewrite Hrn, !Int.u32_small by lia. done. }
    destruct Hp as (Hp1 & Hp2 & Hp3).
    destruct (block_holds_pos b3 n _ (startPos i) (startPos i + GetRowNum b3) (req - startPos i) Hh) as [Hh' _].
    split; [split|]; rewrite ?Hp1, ?Hp2, ?Hp3; [by eexists _, _|lia|lia|intros _|done|].
    + by replace (startPos i + addedRows i - startPos i) with (addedRows i) by lia.
    + rewrite (block_holds_rows _ _ _ Hh'). lia.
  - rewrite Hfull, Ha, (proj2 (Z.ltb_lt _ _) Ht). cbn [andb negb Z.eqb]. eexists _, _. split; [done|]. by left.
Qed.

Lemma pick_start req cap : 0 <= req -> 0 <= cap -> 0 <= PickFillBlockStartPosition req cap <= req.
Proof.
  intros Hr Hc. unfold PickFillBlockStartPosition, PICK_POS.
  pose proof (Z.quot_pos cap 3 Hc ltac:(lia)). lia.
Qed.

Lemma fill_block_shows q n tbl z s b m ws req :
  answers q n tbl -> sharedBlock_ s = Some b -> block_holds b m ws -> block_capacity b = z -> 0 <= blockCapacity_ s < 2 ^ 31 ->
  0 <= req < Z.of_nat (length tbl) ->
  exists e b' cap, FillBlock q req s = (e, set_block (Some b') cap s) /\
    ((e = E_ERROR /\ too_large (B := SharedBlock) z n tbl) \/
     (e = E_OK /\ shows z n tbl b' /\ GetStartPos b' <= req < GetLastPos b' /\
      GetBlockPos b' = req - GetStartPos b' /\ 0 <= cap < 2 ^ 31)).
Proof.
  intros Hq Hs Hb Hz Hcap Hreq. unfold FillBlock. rewrite Hs. rewrite Int.i32_small by lia.
  pose proof (capacity_clear b) as Hz1. cbn in Hz1.
  destruct (block_clear b m ws Hb) as (b1 & Hc & Hb1). rewrite Hc in *. cbn [snd] in *.
  set (start := if isOnlyFillBlock_ s then req else _).
  assert (Hst : 0 <= start <= req) by (unfold start; case_match; [lia|apply pick_start; lia]).
  destruct (execute_shows q n tbl z b1 0 [] start req Hq (bf_holds _ _ Hb1) ltac:(congruence) Hst ltac:(lia))
    as (e & b' & -> & [[-> Hbig]|(-> & Hsh & Hin & Hpos & Hrn)]).
  - ok_simpl. eexists _, _, _. split; [done|]. by left.
  - ok_simpl. pose proof (an_size _ _ _ Hq).
    rewrite Int.u32_small, (proj2 (Z.leb_gt _ _)) by lia.
    eexists _, _, _. split; [done|]. right. done.
Qed.

(** Going to a row of the table: refilled or not, the block shows it. *)
Lemma update_shows q n tbl z s p :
  answers q n tbl -> cursor q n tbl z s -> 0 <= p < Z.of_nat (length tbl) ->
  exists e s', UpdateBlockPos q p s = (e, s') /\
    ((e = E_ERROR /\ too_large (B := SharedBlock) z n tbl) \/
     (e = E_OK /\ exists b cap, s' = set_block (Some b) cap s /\ shows z n tbl b /\
        GetStartPos b <= p < GetLastPos b /\ GetBlockPos b = p - GetStartPos b /\ 0 <= cap < 2 ^ 31)).
Proof.
  intros Hq Hcu Hp. pose proof (an_size _ _ _ Hq) as Hsize.
  destruct Hcu as [[Ho Hle] Hcnt Hpos Hcol Hcap (b & Hb & Hsh & Hon)].
  unfold UpdateBlockPos, OnGo. rewrite Ho, Hb, Int.u32_small by lia.
  destruct (_ || _ || _) eqn:Hout.
  - destruct (sh_some _ _ _ _ Hsh) as (m & ws & Hbh).
    destruct (fill_block_shows q n tbl z s b m ws p Hq Hb Hbh (sh_cap _ _ _ _ Hsh) Hcap Hp)
      as (e & b' & cap & -> & [[-> Hbig]|(-> & Hsh' & Hin & Hbp & Hcap')]); cbn [sharedBlock_ set_block].
    + rewrite bool_decide_eq_false_2 by done. cbn [andb sharedBlock_ set_block].
      change (is_ok E_ERROR) with false. cbn [andb]. eexists _, _. split; [done|]. by left.
    + rewrite bool_decide_eq_false_2 by done. cbn [andb sharedBlock_ set_block].
      destruct (sh_range _ _ _ _ Hsh').
      rewrite (proj2 (Z.eqb_eq p (Int.u32 (GetStartPos b' + GetBlockPos b')))) by (rewrite Int.u32_small; lia).
      rewrite andb_false_r. eexists _, _. split; [done|]. right. split; [done|]. by eexists _, _.
  - apply orb_false_iff in Hout as [Hout _]. rewrite Hb. change (is_ok E_OK) with true. cbn [andb].
    assert (Hin : GetStartPos b <= p < GetLastPos b) by lia. destruct (sh_range _ _ _ _ Hsh) as [Hr1 Hr2].
    destruct (Z.eqb_spec p (Int.u32 (GetStartPos b + GetBlockPos b))) as [Heq|Hne]; cbn [negb].
    + eexists _, _. split; [done|]. right. split; [done|]. exists b, (blockCapacity_ s).
      assert (Hs : set_block (Some b) (blockCapacity_ s) s = s) by (destruct s; simpl in *; by subst).
      rewrite Hs. repeat (split; [done|]). split; [|done]. pose proof (sh_pos _ _ _ _ Hsh).
      unfold Int.u32, Int.wrap in Heq. Z.div_mod_to_equations. lia.
    + eexists _, _. split; [done|]. right. split; [done|]. eexists _, _. split; [done|].
      assert (Hh : shows z n tbl (set_block_pos (p - GetStartPos b) b)).
      { destruct Hsh as [(m & ws & Hw) H1 H2 H3 H4].
        split; [exists m, ws; by apply block_holds_pos|done|apply Int.u32_range| |done].
        intros Hlt. apply block_holds_pos; [exact 0|exact 0|]. by apply H3. }
      split; [exact Hh|]. split; [done|]. split; [|done]. cbn. by rewrite Int.u32_small by lia.
Qed.

Lemma get_row_count q n tbl z s : cursor q n tbl z s -> GetRowCount s = (E_OK, Z.of_nat (length tbl)).
Proof.
  intros [[Ho Hl] Hc _ _ _ _]. unfold GetRowCount. rewrite Hl, Hc. ok_simpl.
  by destruct (Z.eqb_spec (Z.of_nat (length tbl)) NO_COUNT); [unfold NO_COUNT in *; lia|].
Qed.

Lemma goto_row_shows q n tbl z s p :
  answers q n tbl -> cursor q n tbl z s -> 0 <= p < Z.of_nat (length tbl) ->
  exists e s', GoToRow q p s = (e, s') /\
    ((e = E_ERROR /\ too_large (B := SharedBlock) z n tbl) \/ (e = E_OK /\ cursor q n tbl z s' /\ rowPos_ s' = p)).
Proof.
  intros Hq Hcu Hp. unfold GoToRow. rewrite (proj1 (cu_open _ _ _ _ _ Hcu)), (get_row_count _ _ _ _ _ Hcu).
  ok_simpl.
  decide_z.
  destruct (Z.eqb_spec p (rowPos_ s)) as [->|Hne].
  { eexists _, _. split; [done|]. right. done. }
  destruct (update_shows q n tbl z s p Hq Hcu Hp) as (e & s' & -> & [[-> Hbig]|(-> & b & cap & -> & Hsh & Hin & Hbp & Hcap)]).
  - eexists _, _. split; [done|]. by left.
  - ok_simpl. cbv iota. eexists _, _. split; [done|]. right. split; [done|]. split; [|done].
    destruct Hcu as [H1 H2 H3 H4 H5 H6]. split; cbn; try done; try lia. exists b. done.
Qed.

(** What a caller's object holds after a cell was read into it; it held [old]. *)
Definition read_value `{Serializable.JsonText} (now : Z) (old : ValueObject) (v : cell) : errno * option ValueObject :=
  match v with
  | CNull => (E_OK, Some old)
  | CLong z => (E_OK, Some (VInt z))
  | CDouble w => (E_OK, Some (VDouble w))
  | CBytes ty bs =>
      if ty =? CELL_UNIT_TYPE_STRING then (E_OK, Some (VString (Value.string_of_bytes (c_str bs))))
      else if ty =? CELL_UNIT_TYPE_BLOB then (E_OK, Some (VBlob bs))
      else if ty =? CELL_UNIT_TYPE_ASSET then (E_OK, (fun r => VAsset (snd r)) <$> RawDataParser.ParserAsset now bs Asset.empty)
      else if ty =? CELL_UNIT_TYPE_ASSETS then (E_OK, (fun r => VAssets (snd r)) <$> RawDataParser.ParserAssets now bs [])
      else if ty =? CELL_UNIT_TYPE_FLOATS then (E_OK, (fun r => VFloats (snd r)) <$> RawDataParser.ParserFloats bs [])
      else (E_OK, (fun r => VBigInt (snd r)) <$> RawDataParser.ParserBigInt bs (mkBig 0 []))
  end.

Lemma value_of_cell_reads `{Serializable.JsonText} now b a old v :
  cell_fits v -> reads_as b a v -> value_of_cell now b a old = read_value now old v.
Proof.
  intros Hf Hr. unfold value_of_cell. destruct v as [|z|w|ty bs]; simpl in Hr.
  - by rewrite Hr.
  - destruct Hr as [-> ->]. done.
  - destruct Hr as [-> ->]. done.
  - destruct Hr as (-> & -> & ->). destruct Hf as [Hty _].
    unfold bytes_type, CELL_UNIT_TYPE_STRING, CELL_UNIT_TYPE_BIGINT in Hty.
    assert (ty = 3 \/ ty = 4 \/ ty = 5 \/ ty = 6 \/ ty = 7 \/ ty = 8) as Hc by lia.
    destruct Hc as [-> | [-> | [-> | [-> | [-> | ->]]]]]; done.
Qed.

Lemma window_lookup s a tbl p :
  0 <= s -> s <= p < s + a -> window s a tbl !! Z.to_nat (p - s) = tbl !! Z.to_nat p.
Proof.
  intros Hs Hp. unfold window. rewrite lookup_take_lt by lia. rewrite lookup_drop. f_equal. lia.
Qed.

(** The names are read once. *)
Lemma names_ready q n tbl z s :
  answers q n tbl -> cursor q n tbl z s ->
  exists s', (if columnCount_ s <? 0 then InitColumnNames q s else (E_OK, s)) = (E_OK, s') /\
    cursor q n tbl z s' /\ rowPos_ s' = rowPos_ s /\ sharedBlock_ s' = sharedBlock_ s /\
    columnCount_ s' = n /\ wholeColumnNames_ s' = snd (q_names q) /\
    columnMap_ s' = emplace_names (snd (q_names q)) 0 [].
Proof.
  intros Hq Hcu. destruct (an_names _ _ _ Hq) as [Hn1 Hn2]. pose proof (an_range _ _ _ Hq) as Hn.
  unfold InitColumnNames. rewrite Hn1, (proj1 (cu_open _ _ _ _ _ Hcu)).
  destruct (cu_columns _ _ _ _ _ Hcu) as [[Hc Hm]|(Hc & Hw & Hm)]; rewrite Hc.
  - change (is_ok E_OK) with true. cbn [Z.ltb Z.leb Z.compare negb]. eexists. split; [done|].
    destruct Hcu as [H1 H2 H3 H4 H5 H6].
    assert (Hs : columnCount_ (set_columns (snd (q_names q)) s) = n /\
      wholeColumnNames_ (set_columns (snd (q_names q)) s) = snd (q_names q) /\
      columnMap_ (set_columns (snd (q_names q)) s) = emplace_names (snd (q_names q)) 0 [])
      by (cbn; rewrite Hm; done).
    split; [|done]. split; try done. by right.
  - rewrite (proj2 (Z.ltb_ge _ _)) by lia. eexists. split; [done|]. done.
Qed.

Lemma column_count_ready q n tbl z s old :
  answers q n tbl -> cursor q n tbl z s ->
  exists s', GetColumnCount q old s = (E_OK, n, s') /\
    cursor q n tbl z s' /\ rowPos_ s' = rowPos_ s /\ sharedBlock_ s' = sharedBlock_ s.
Proof.
  intros Hq Hcu. destruct (names_ready q n tbl z s Hq Hcu) as (s' & Hi & Hcu' & Hp & Hb & Hc & _).
  unfold GetColumnCount. destruct (Z.leb_spec 0 (columnCount_ s)) as [Hle|Hlt].
  - rewrite (proj2 (Z.ltb_ge _ _)) in Hi by done. injection Hi as <-. rewrite Hc. by eexists.
  - rewrite (proj2 (Z.ltb_lt _ _)) in Hi by done. rewrite Hi. ok_simpl. rewrite Hc. by eexists.
Qed.

(** [Get] on a row of the table: the cell, and the cursor stays where it is. *)
Lemma get_reads `{Serializable.JsonText} now q n tbl z s row c old v :
  answers q n tbl -> cursor q n tbl z s -> tbl !! Z.to_nat (rowPos_ s) = Some row -> 0 <= rowPos_ s ->
  row !! c = Some v -> cell_fits v -> cell_ok v -> Z.of_nat (length row) = n ->
  exists s', Get now q (Z.of_nat c) old s = (read_value now old v, s') /\ cursor q n tbl z s' /\ rowPos_ s' = rowPos_ s.
Proof.
  intros Hq Hcu Hrow Hpos Hv Hfit Hok Hlen. unfold Get, CheckState.
  pose proof (lookup_lt_Some _ _ _ Hrow) as Hlt. pose proof (lookup_lt_Some _ _ _ Hv) as Hc.
  rewrite (proj1 (cu_open _ _ _ _ _ Hcu)), (get_row_count _ _ _ _ _ Hcu).
  destruct (cu_block _ _ _ _ _ Hcu) as (b & Hb & Hsh & Hon). rewrite Hb. cbn [snd].
  decide_z.
  destruct (column_count_ready q n tbl z s (Z.of_nat (length tbl)) Hq Hcu) as (s1 & -> & Hcu1 & Hp1 & Hb1).
  decide_z.
  ok_simpl. rewrite Hb1, Hb.
  destruct (Hon ltac:(lia)) as [Hin Hbp]. destruct (sh_range _ _ _ _ Hsh) as [Hr1 Hr2].
  destruct (sh_rows _ _ _ _ Hsh ltac:(lia)) as [(t & Hab & _ & _ & Hcells)].
  specialize (Hcells (Z.to_nat (rowPos_ s - GetStartPos b)) c row v).
  rewrite window_lookup in Hcells by lia. specialize (Hcells Hrow Hv). rewrite Z2Nat.id in Hcells by lia.
  destruct (abs_repr _ _ Hab _ _ _ Hcells) as [Hrng Henc].
  unfold GetCellUnit, out_of_range. rewrite Hbp, (proj2 (Z.leb_gt _ _)), (proj2 (Z.leb_gt _ _)) by lia. cbn [orb].
  exists s1. split; [|done]. f_equal. apply value_of_cell_reads; [done|].
  by apply encodes_reads; [apply (abs_wf _ _ Hab)| |].
Qed.

End CursorInv.

(** ** The rows in memory *)

Module CacheResultSet.

Record t := {
  row_ : Z;
  maxRow_ : Z;
  maxCol_ : Z;
  isClosed_ : bool;
  colNames_ : list string;
  colTypes_ : list Z;
  valueBuckets_ : list Bucket.ValuesBucket
}.

(** The constructors; the columns are those of the first row. *)
Definition new : t :=
  {| row_ := 0; maxRow_ := 0; maxCol_ := 0; isClosed_ := false; colNames_ := []; colTypes_ := []; valueBuckets_ := [] |}.

Definition of_rows (rows : list Bucket.ValuesBucket) (initPos : Z) : t :=
  let cols := match rows with [] => [] | r :: _ => r end in
  {| row_ := initPos; maxRow_ := Int.i32 (Z.of_nat (length rows)); maxCol_ := Int.i32 (Z.of_nat (length cols));
     isClosed_ := false; colNames_ := map fst cols; colTypes_ := map (fun kv => Value.GetType (snd kv)) cols;
     valueBuckets_ := rows |}.

Definition set_row (row : Z) (s : t) : t :=
  {| row_ := row; maxRow_ := maxRow_ s; maxCol_ := maxCol_ s; isClosed_ := isClosed_ s; colNames_ := colNames_ s;
     colTypes_ := colTypes_ s; valueBuckets_ := valueBuckets_ s |}.

Definition set_buckets (rows : list Bucket.ValuesBucket) (s : t) : t :=
  {| row_ := row_ s; maxRow_ := maxRow_ s; maxCol_ := maxCol_ s; isClosed_ := isClosed_ s; colNames_ := colNames_ s;
     colTypes_ := colTypes_ s; valueBuckets_ := rows |}.

Definition GetRowCount (s : t) : errno + Z := if isClosed_ s then inl E_ALREADY_CLOSED else inr (maxRow_ s).

Definition GetAllColumnNames (s : t) : errno + list string :=
  if isClosed_ s then inl E_ALREADY_CLOSED else inr (colNames_ s).

Definition GetColumnCount (s : t) : errno + Z := if isClosed_ s then inl E_ALREADY_CLOSED else inr (maxCol_ s).

(** [values_[name]]: a column the row does not have is added to it with a null value. *)
Definition subscript (name : string) (r : Bucket.ValuesBucket) : ValueObject * Bucket.ValuesBucket :=
  match OMap.lookup Str.ltb name r with
  | Some v => (v, r)
  | None => (VNil, OMap.insert Str.ltb name VNil r)
  end.

(** The checks all the getters share, then [valueBuckets_[row_].values_[name]]. *)
Definition value_at (columnIndex : Z) (s : t) : (errno + ValueObject) * t :=
  if isClosed_ s then (inl E_ALREADY_CLOSED, s)
  else if (columnIndex <? 0) || (maxCol_ s <=? columnIndex) then (inl E_COLUMN_OUT_RANGE, s)
  else if (row_ s <? 0) || (maxRow_ s <=? row_ s) then (inl E_ROW_OUT_RANGE, s)
  else
    let name := nth (Z.to_nat columnIndex) (colNames_ s) EmptyString in
    let '(v, r') := subscript name (nth (Z.to_nat (row_ s)) (valueBuckets_ s) []) in
    (inr v, set_buckets (<[Z.to_nat (row_ s) := r']> (valueBuckets_ s)) s).

Definition bind {A} (f : ValueObject -> errno + A) (r : (errno + ValueObject) * t) : (errno + A) * t :=
  (match fst r with inl e => inl e | inr v => f v end, snd r).

Definition Get (col : Z) (s : t) : (errno + ValueObject) * t := value_at col s.
Definition GetBlob (col : Z) (s : t) : (errno + list Z) * t := bind Value.GetBlob (value_at col s).
Definition GetString (col : Z) (s : t) : (errno + string) * t := bind Value.GetString (value_at col s).
Definition GetLong (col : Z) (s : t) : (errno + Z) * t := bind Value.GetLong (value_at col s).
Definition GetDouble (col : Z) (s : t) : (errno + Z) * t := bind Value.GetDouble (value_at col s).
Definition GetInt (col : Z) (s : t) : (errno + Z) * t :=
  bind (fun v => if is_ok (fst (Value.GetInt v)) then inr (snd (Value.GetInt v)) else inl (fst (Value.GetInt v)))
    (value_at col s).
Definition GetAsset (col : Z) (s : t) : (errno + AssetValue) * t := bind Value.GetAsset (value_at col s).
Definition GetAssets (col : Z) (s : t) : (errno + list AssetValue) * t := bind Value.GetAssets (value_at col s).
Definition GetFloat32Array (col : Z) (s : t) : (errno + list Z) * t := bind Value.GetVecs (value_at col s).
Definition IsColumnNull (col : Z) (s : t) : (errno + bool) * t :=
  bind (fun v => inr (Value.GetType v =? 0)) (value_at col s).

Definition GoToRow (position : Z) (s : t) : errno * t :=
  if isClosed_ s then (E_ALREADY_CLOSED, s)
  else if maxRow_ s <=? position then (E_ROW_OUT_RANGE, set_row (maxRow_ s) s)
  else if position <? 0 then (E_ROW_OUT_RANGE, set_row (-1) s)
  else (E_OK, set_row position s).

Definition GoTo (offset : Z) (s : t) : errno * t := GoToRow (offset + row_ s) s.
Definition GoToFirstRow (s : t) : errno * t := GoToRow 0 s.
Definition GoToLastRow (s : t) : errno * t := GoToRow (maxRow_ s - 1) s.
Definition GoToNextRow (s : t) : errno * t := GoTo 1 s.
Definition GoToPreviousRow (s : t) : errno * t := GoTo (-1) s.

Definition GetRowIndex (s : t) : errno + Z := if isClosed_ s then inl E_ALREADY_CLOSED else inr (row_ s).
Definition IsAtFirstRow (s : t) : errno + bool := if isClosed_ s then inl E_ALREADY_CLOSED else inr (row_ s =? 0).
Definition IsAtLastRow (s : t) : errno + bool :=
  if isClosed_ s then inl E_ALREADY_CLOSED else inr (row_ s =? maxRow_ s - 1).
Definition IsStarted (s : t) : errno + bool := if isClosed_ s then inl E_ALREADY_CLOSED else inr (row_ s =? -1).
Definition IsEnded (s : t) : errno + bool :=
  if isClosed_ s then inl E_ALREADY_CLOSED else inr ((maxRow_ s =? 0) || (row_ s =? maxRow_ s)).

(** The first column of that name. *)
Fixpoint column_index (i : Z) (names : list string) (name : string) : option Z :=
  match names with
  | [] => None
  | n :: rest => if String.eqb n name then Some i else column_index (i + 1) rest name
  end.

Definition GetColumnIndex (name : string) (s : t) : errno + Z :=
  if isClosed_ s then inl E_ALREADY_CLOSED
  else match column_index 0 (take (Z.to_nat (maxCol_ s)) (colNames_ s)) name with Some i => inr i | None => inl E_ERROR end.

Definition GetColumnName (columnIndex : Z) (s : t) : errno + string :=
  if isClosed_ s then inl E_ALREADY_CLOSED
  else if (columnIndex <? 0) || (maxCol_ s <=? columnIndex) then inl E_COLUMN_OUT_RANGE
  else inr (nth (Z.to_nat columnIndex) (colNames_ s) EmptyString).

Definition Close (s : t) : errno * t :=
  (E_OK,
   if isClosed_ s then s
   else {| row_ := -1; maxRow_ := -1; maxCol_ := -1; isClosed_ := true; colNames_ := []; colTypes_ := [];
           valueBuckets_ := [] |}).

End CacheResultSet.

(** ** The claims *)

Module ResultSetProps.
Import AbsBlock Block BlockInv BlockSpec Fill FillInv FillProps SharedResultSet CursorInv.

(** A caller that moves to the given positions, one after the other. *)
Fixpoint walk (q : query) (ps : list Z) (s : SharedResultSet.t) : list errno * SharedResultSet.t :=
  match ps with
  | [] => ([], s)
  | p :: rest =>
      let '(e, s1) := GoToRow q p s in
      let '(es, s2) := walk q rest s1 in (e :: es, s2)
  end.

Lemma goto_row_outside q n tbl z s p :
  cursor q n tbl z s -> ~ 0 <= p < Z.of_nat (length tbl) ->
  exists s', GoToRow q p s = (E_ROW_OUT_RANGE, s') /\ cursor q n tbl z s'.
Proof.
  intros Hcu Hp. unfold GoToRow. rewrite (proj1 (cu_open _ _ _ _ _ Hcu)), (get_row_count _ _ _ _ _ Hcu).
  ok_simpl.
  assert (Hout : (Z.of_nat (length tbl) <=? p) || (p <? 0) = true) by lia. rewrite Hout.
  eexists. split; [done|]. destruct Hcu as [H1 H2 H3 H4 H5 (b & Hb & Hsh & Hon)].
  split; cbn; try done.
  - case_match; lia.
  - exists b. split; [done|]. split; [done|]. case_match; [lia|done].
Qed.

Lemma walk_spec q n tbl z : answers q n tbl -> forall ps s,
  cursor q n tbl z s ->
  let '(es, s') := walk q ps s in
  (E_ERROR ∈ es -> too_large (B := SharedBlock) z n tbl) /\
  (E_ERROR ∉ es ->
     es = map (fun p => if bool_decide (0 <= p < Z.of_nat (length tbl)) then E_OK else E_ROW_OUT_RANGE) ps /\
     cursor q n tbl z s' /\ (forall p, last ps = Some p -> 0 <= p < Z.of_nat (length tbl) -> rowPos_ s' = p)).
Proof.
  intros Hq. induction ps as [|p ps IH]; intros s Hcu; cbn [walk].
  { split; [set_solver|]. intros _. split; [done|]. split; [exact Hcu|done]. }
  destruct (decide (0 <= p < Z.of_nat (length tbl))) as [Hp|Hp].
  - destruct (goto_row_shows q n tbl z s p Hq Hcu Hp) as (e & s1 & -> & [[-> Hbig]|(-> & Hcu1 & Hpos)]).
    { destruct (walk q ps s1) as [es s']. split; [done|]. set_solver. }
    specialize (IH s1 Hcu1). destruct (walk q ps s1) as [es s'] eqn:Hw. destruct IH as [IH1 IH2]. split.
    { intros [?|?]%elem_of_cons; [done|by apply IH1]. }
    intros Hne. destruct IH2 as (He & Hcu' & Hlast); [set_solver|].
    simpl. rewrite bool_decide_eq_true_2, He by done. split; [done|]. split; [done|].
    intros p' Hp'. destruct ps as [|p2 ps]; [|by apply Hlast].
    injection Hp' as <-. injection Hw as <- <-. done.
  - destruct (goto_row_outside q n tbl z s p Hcu Hp) as (s1 & -> & Hcu1).
    specialize (IH s1 Hcu1). destruct (walk q ps s1) as [es s']. destruct IH as [IH1 IH2]. split.
    { intros [?|?]%elem_of_cons; [done|by apply IH1]. }
    intros Hne. destruct IH2 as (He & Hcu' & Hlast); [set_solver|].
    simpl. rewrite bool_decide_eq_false_2, He by done. split; [done|]. split; [done|].
    intros p' Hp' Hin. destruct ps as [|p2 ps]; [injection Hp' as <-; lia|by apply Hlast].
Qed.

Lemma opened_cursor q n tbl b m ws :
  block_holds b m ws -> GetStartPos b = 0 -> GetLastPos b = 0 -> GetBlockPos b = 0 ->
  cursor q n tbl (block_capacity b) (opened b (E_OK, Z.of_nat (length tbl))).
Proof.
  intros Hb H1 H2 H3. split; cbn; unfold INIT_POS; try done; try lia; [by left|].
  exists b. split; [done|]. split; [|lia].
  split; rewrite ?H1, ?H2, ?H3; [by eexists _, _|lia|lia|lia|done].
Qed.

(** C2: A cursor over a query whose result is the table [tbl] of fewer than 2^31 rows, where
    every execution of the query gives the same rows, none of them with an empty blob (SQLite gives
    a null pointer for it and the fill fails) or a value of 2 GB, moved to any sequence of
    positions, forwards or backwards, in range or not.  A move is answered with [E_ERROR] only if
    some row with its directory needs more than the capacity of the block.  If none is, each move
    is answered with [E_OK] when the position is a row and with [E_ROW_OUT_RANGE] otherwise, and
    after a last move to a row the cursor is there and [Get] reads any cell of that row of the
    table, however often the block was refilled on the way: the caller's object holds the value of
    the cell ([read_value]), or what it held before if the cell is null. *)
Theorem cursor_reads_rows `{Serializable.JsonText} now q n tbl b m ws ps :
  answers q n tbl -> block_holds b m ws -> GetStartPos b = 0 -> GetLastPos b = 0 -> GetBlockPos b = 0 ->
  let '(es, s) := walk q ps (opened b (E_OK, Z.of_nat (length tbl))) in
  (E_ERROR ∈ es -> too_large (B := SharedBlock) (block_capacity b) n tbl) /\
  (E_ERROR ∉ es ->
     es = map (fun p => if bool_decide (0 <= p < Z.of_nat (length tbl)) then E_OK else E_ROW_OUT_RANGE) ps /\
     (forall p row c old v, last ps = Some p -> 0 <= p -> tbl !! Z.to_nat p = Some row -> row !! c = Some v -> cell_ok v ->
        rowPos_ s = p /\ fst (Get now q (Z.of_nat c) old s) = read_value now old v)).
Proof.
  intros Hq Hb H1 H2 H3. pose proof (walk_spec q n tbl (block_capacity b) Hq ps _ (opened_cursor q n tbl b m ws Hb H1 H2 H3)) as Hw.
  destruct (walk q ps _) as [es s]. destruct Hw as [Hw1 Hw2]. split; [done|]. intros Hne.
  destruct (Hw2 Hne) as (He & Hcu & Hlast). split; [done|]. intros p row c old v Hp H0 Hrow Hv Hok.
  pose proof (lookup_lt_Some _ _ _ Hrow) as Hlt.
  assert (Hpos : rowPos_ s = p) by (apply Hlast; [done|lia]). split; [done|].
  destruct (Forall2_lookup_r _ _ _ _ _ (an_rows _ _ _ Hq) Hrow) as (cols & _ & [Henc Hwd Hfit]).
  assert (Hlen : length cols = length row) by (eapply Forall2_length, mapM_Some; exact Henc).
  destruct (get_reads now q n tbl (block_capacity b) s row c old v) as (s' & -> & _); try done.
  - by rewrite Hpos.
  - by rewrite Hpos.
  - eapply Forall_lookup_1; [exact Hfit|exact Hv].
  - lia.
Qed.

(** *** A cursor at work *)

Definition demo_query : query :=
  {| q_steps := map SQLITE_ROW demo_rows; q_columns := 2; q_names := (E_OK, ["id"; "name"]); q_retry := 2 |}.

Lemma demo_answers : answers demo_query 2 demo_table.
Proof.
  split; [done|unfold COL_MAX_NUM; lia| |by repeat constructor|done|vm_compute; done].
  repeat constructor; vm_compute; try done; intros; discriminate.
Qed.

Lemma cursor_reads_rows_witness :
  let '(es, s) := walk demo_query [1; 5; 0] (opened demo_block (E_OK, 2)) in
  es = [E_OK; E_ROW_OUT_RANGE; E_OK] /\ fst (Get 0 demo_query 1 VNil s) = (E_OK, Some (VString "hi")).
Proof.
  pose proof (cursor_reads_rows 0 demo_query 2 demo_table demo_block 0 [] [1; 5; 0]
    demo_answers (bf_holds _ _ demo_block_fresh) eq_refl eq_refl eq_refl) as H.
  change (Z.of_nat (length demo_table)) with 2 in H.
  assert (Hes : fst (walk demo_query [1; 5; 0] (opened demo_block (E_OK, 2))) = [E_OK; E_ROW_OUT_RANGE; E_OK])
    by (vm_compute; reflexivity).
  destruct (walk demo_query [1; 5; 0] (opened demo_block (E_OK, 2))) as [es s].
  cbn [fst] in Hes. subst es. split; [reflexivity|]. destruct H as [_ H]. destruct H as [_ H].
  { intros Hin. repeat (apply elem_of_cons in Hin as [Hin|Hin]; [vm_compute in Hin; discriminate Hin|]). by apply not_elem_of_nil in Hin. }
  apply (H 0 [CLong 7; CBytes CELL_UNIT_TYPE_STRING [104; 105; 0]] 1%nat VNil (CBytes CELL_UNIT_TYPE_STRING [104; 105; 0]));
    [reflexivity|lia|reflexivity|reflexivity|vm_compute; split; [discriminate|reflexivity]].
Defined.

(** *** The rows in memory *)

Import CacheResultSet.

(** What a row holds under a name; a missing column reads as null. *)
Definition cell_of (rows : list Bucket.ValuesBucket) (p : Z) (name : string) : ValueObject :=
  default VNil (r ← rows !! Z.to_nat p; OMap.lookup Str.ltb name r).

Lemma subscript_reads name r v r' name' :
  OMap.sorted Str.ltb r -> subscript name r = (v, r') ->
  default VNil (OMap.lookup Str.ltb name' r) = default VNil (OMap.lookup Str.ltb name' r').
Proof.
  intros Hs. unfold subscript. destruct (OMap.lookup Str.ltb name r) eqn:Hl; intros [= <- <-]; [done|].
  rewrite OMap.lookup_insert by done. rewrite Hl. case_match; [|done]. subst. by rewrite Hl.
Qed.

Lemma value_at_row c name s r :
  isClosed_ s = false -> maxRow_ s = Z.of_nat (length (valueBuckets_ s)) -> maxCol_ s = Z.of_nat (length (colNames_ s)) ->
  0 <= CacheResultSet.row_ s -> colNames_ s !! c = Some name -> valueBuckets_ s !! Z.to_nat (CacheResultSet.row_ s) = Some r ->
  value_at (Z.of_nat c) s =
  let '(v, r') := subscript name r in
  (inr v, set_buckets (<[Z.to_nat (CacheResultSet.row_ s) := r']> (valueBuckets_ s)) s).
Proof.
  intros Hcl Hmr Hmc H0 Hname Hr. pose proof (lookup_lt_Some _ _ _ Hname). pose proof (lookup_lt_Some _ _ _ Hr).
  unfold value_at. rewrite Hcl, Hmr, Hmc.
  assert (Hc : (Z.of_nat c <? 0) || (Z.of_nat (length (colNames_ s)) <=? Z.of_nat c) = false) by lia. rewrite Hc.
  assert (Hp : (CacheResultSet.row_ s <? 0) || (Z.of_nat (length (valueBuckets_ s)) <=? CacheResultSet.row_ s) = false)
    by lia. rewrite Hp.
  by rewrite Nat2Z.id, (nth_lookup_Some _ _ _ _ Hname), (nth_lookup_Some _ _ _ _ Hr).
Qed.

(** A result set in memory: going to a row of it succeeds, and [Get] reads that row's value
    under the name of the column, null when the row has no such column; reading changes no value
    of any row.  Beyond the last row and before the first the cursor stops next to the rows and
    says so. *)
Theorem cached_rows_read rows initPos p c name :
  Z.of_nat (length rows) < 2 ^ 31 -> Forall (OMap.sorted Str.ltb) rows ->
  Z.of_nat (length (default [] (head rows))) < 2 ^ 31 ->
  let s := of_rows rows initPos in
  (0 <= p < Z.of_nat (length rows) -> colNames_ s !! c = Some name ->
     exists s1 s2, CacheResultSet.GoToRow p s = (E_OK, s1) /\
       CacheResultSet.Get (Z.of_nat c) s1 = (inr (cell_of rows p name), s2) /\
       forall p' name', cell_of (valueBuckets_ s2) p' name' = cell_of rows p' name') /\
  (Z.of_nat (length rows) <= p ->
     exists s1, CacheResultSet.GoToRow p s = (E_ROW_OUT_RANGE, s1) /\ CacheResultSet.IsEnded s1 = inr true) /\
  (p < 0 -> exists s1, CacheResultSet.GoToRow p s = (E_ROW_OUT_RANGE, s1) /\
     CacheResultSet.GetRowIndex s1 = inr (-1)).
Proof.
  intros Hrows Hsort Hcols. cbv zeta. set (s := of_rows rows initPos).
  assert (Hmr : maxRow_ s = Z.of_nat (length rows)) by (apply Int.i32_small; lia).
  assert (Hmc : maxCol_ s = Z.of_nat (length (colNames_ s))).
  { unfold s, of_rows. cbn [maxCol_ colNames_]. rewrite length_map. apply Int.i32_small. destruct rows; simpl in *; lia. }
  assert (Hcl : isClosed_ s = false) by done. unfold CacheResultSet.GoToRow. rewrite Hcl, Hmr.
  split; [|split].
  - intros Hp Hname. rewrite (proj2 (Z.leb_gt _ _)), (proj2 (Z.ltb_ge _ _)) by lia.
    pose proof (lookup_lt_Some _ _ _ Hname) as Hc. destruct (lookup_lt_is_Some_2 rows (Z.to_nat p)) as [r Hr]; [lia|].
    eexists _. unfold CacheResultSet.Get. rewrite (value_at_row c name (CacheResultSet.set_row p s) r); cbn; try done; try lia.
    destruct (subscript name r) as [v r'] eqn:Hsub. eexists. split; [done|]. split.
    + f_equal. f_equal. unfold cell_of. rewrite Hr. simpl. unfold subscript in Hsub.
      destruct (OMap.lookup Str.ltb name r); by injection Hsub as <- <-.
    + intros p' name'. cbn [valueBuckets_ set_buckets]. unfold cell_of.
      destruct (decide (Z.to_nat p' = Z.to_nat p)) as [->|Hne]; [|by rewrite list_lookup_insert_ne].
      rewrite list_lookup_insert_eq by (by apply lookup_lt_Some in Hr). rewrite Hr. cbn.
      symmetry. by eapply subscript_reads; [eapply Forall_lookup_1; [exact Hsort|exact Hr]|exact Hsub].
  - intros Hp. rewrite (proj2 (Z.leb_le _ _)) by lia. eexists. split; [done|]. unfold CacheResultSet.IsEnded.
    cbn [CacheResultSet.set_row isClosed_ maxRow_ CacheResultSet.row_]. by rewrite Hcl, Hmr, Z.eqb_refl, orb_true_r.
  - intros Hp. rewrite (proj2 (Z.leb_gt _ _)), (proj2 (Z.ltb_lt _ _)) by lia. by eexists.
Qed.

Lemma cached_rows_read_witness :
  let rows := [[("a", VInt 1); ("b", VString "x")]; [("a", VInt 2)]] in
  exists s1 s2, CacheResultSet.GoToRow 1 (of_rows rows 0) = (E_OK, s1) /\
    CacheResultSet.Get 1 s1 = (inr VNil, s2) /\
    forall p' name', cell_of (valueBuckets_ s2) p' name' = cell_of rows p' name'.
Proof.
  apply (cached_rows_read [[("a", VInt 1); ("b", VString "x")]; [("a", VInt 2)]] 0 1 1 "b");
    [vm_compute; reflexivity|repeat constructor|vm_compute; reflexivity|vm_compute; split; [discriminate|reflexivity]|reflexivity].
Defined.

(** [IsStarted] of a result set in memory is the opposite of [IsStarted] of a cursor: before
    the first row the cursor says no and the other yes, and on a row the other way round. *)
Theorem cached_is_started_inverted rows p (s : SharedResultSet.t) :
  SharedResultSet.rowPos_ s = p ->
  CacheResultSet.IsStarted (of_rows rows p) = inr (negb (snd (SharedResultSet.IsStarted s))).
Proof.
  intros <-. unfold SharedResultSet.IsStarted, CacheResultSet.IsStarted, INIT_POS. simpl. by rewrite negb_involutive.
Qed.

Lemma cached_is_started_inverted_witness :
  CacheResultSet.IsStarted (of_rows [] (-1)) = inr true /\
  snd (SharedResultSet.IsStarted (opened demo_block (E_OK, 2))) = false.
Proof.
  split; [|reflexivity].
  apply (cached_is_started_inverted [] (-1) (opened demo_block (E_OK, 2))). reflexivity.
Defined.

End ResultSetProps.
