(* ===== verification/ResultRows.v ===== *)
(** * Rows and columns of a result set

    [RowEntity]: the row a caller gets, frameworks/native/rdb/src/abs_result_set.cpp and
    interfaces/inner_api/rdb/include/result_set.h.  [Columns]: the operations of [AbsResultSet]
    and [AbsSharedResultSet] on names, types and whole rows, on top of the cursor of
    [SharedResultSet].  [CacheRows]: the same for the rows in memory.  [RowProps]: the claims. *)
From Stdlib Require Import ZArith Lia Ascii.
From stdpp Require Import base gmap list strings.
From S2P Require Import Prelude CppStd Errno Values SharedBlock StringUtils RawData FillBlock ResultSet.

Local Open Scope Z_scope.

Module RowEntity.

(** [indexs_] holds iterators of [values_]: the key of the element, or [None] for the iterator
    that [resize] makes, which refers to nothing. *)
Record t := { values_ : list (string * ValueObject); indexs_ : list (option string) }.

Definition new : t := {| values_ := []; indexs_ := [] |}.

Definition Clear (size : Z) : t := {| values_ := []; indexs_ := replicate (Z.to_nat size) None |}.

Definition outside (index : Z) (e : t) : bool := (index <? 0) || (Z.of_nat (length (indexs_ e)) <=? index).

(** [values_.emplace] keeps the value of a name that is there already. *)
Definition Put (name : string) (index : Z) (value : ValueObject) (e : t) : t :=
  if outside index e then e
  else {| values_ := OMap.insert Str.ltb name value (values_ e);
          indexs_ := <[Z.to_nat index := Some name]> (indexs_ e) |}.

Definition GetByName (name : string) (e : t) : ValueObject := default VNil (OMap.lookup Str.ltb name (values_ e)).

(** [Get(int)]; [None] is the use of an iterator that refers to nothing. *)
Definition GetByIndex (index : Z) (e : t) : option ValueObject :=
  if outside index e then Some VNil
  else name ← mjoin (indexs_ e !! Z.to_nat index); OMap.lookup Str.ltb name (values_ e).

Definition Steal (e : t) : list (string * ValueObject) * t := (values_ e, new).

End RowEntity.

Module Columns.
Import AbsBlock Block Fill SharedResultSet.

(** The names are read when they have not been yet. *)
Definition ready (q : query) (s : t) : errno * t := if columnCount_ s <? 0 then InitColumnNames q s else (E_OK, s).

(** [columnNames.resize(n)]. *)
Definition resize (n : nat) (old : list string) : list string := take n old ++ replicate (n - length old) EmptyString.

(** [columnNames[index] = name] for each entry of the map. *)
Definition write_names (n : Z) (m : list (string * Z)) (names : list string) : list string :=
  fold_left (fun acc '(name, index) => if n <=? index then acc else <[Z.to_nat index := name]> acc) m names.

Definition GetAllColumnNames (q : query) (old : list string) (s : t) : (errno * list string) * t :=
  let '(e, s1) := ready q s in
  if columnCount_ s1 <? 0 then ((e, old), s1)
  else ((E_OK, write_names (columnCount_ s1) (columnMap_ s1) (resize (Z.to_nat (columnCount_ s1)) old)), s1).

Definition GetWholeColumnNames (q : query) (s : t) : (errno * list string) * t :=
  let '(e, s1) := ready q s in
  if columnCount_ s1 <? 0 then ((e, []), s1) else ((E_OK, wholeColumnNames_ s1), s1).

(** [::tolower] in the C locale. *)
Definition tolower (c : ascii) : ascii :=
  let n := N_of_ascii c in if (65 <=? n)%N && (n <=? 90)%N then ascii_of_N (n + 32) else c.

(** The name without the log table's marker and without a table prefix, in lower case. *)
Definition lower_name (columnName : string) : string :=
  let name := default EmptyString (SqliteUtils.Replace (S (Str.size columnName)) columnName "#_" EmptyString) in
  let name := match Str.find_last (fun c => Ascii.eqb c "."%char) name with
              | Some i => Str.substr_from name (S i)
              | None => name
              end in
  Str.map tolower name.

Fixpoint find_lower (lower : string) (m : list (string * Z)) : option Z :=
  match m with
  | [] => None
  | (name, index) :: rest => if String.eqb lower (Str.map tolower name) then Some index else find_lower lower rest
  end.

(** [GetColumnIndex]: the index written and the error code. *)
Definition GetColumnIndex (q : query) (columnName : string) (s : t) : (errno * Z) * t :=
  let '(e, s1) := ready q s in
  if columnCount_ s1 <? 0 then ((e, -1), s1)
  else
    match OMap.lookup Str.ltb columnName (columnMap_ s1) with
    | Some index => ((E_OK, index), s1)
    | None =>
        match find_lower (lower_name columnName) (columnMap_ s1) with
        | Some index => ((E_OK, index), s1)
        | None => ((E_INVALID_ARGS, -1), s1)
        end
    end.

Definition GetColumnName (q : query) (columnIndex : Z) (s : t) : (errno + string) * t :=
  let '(e, s1) := ready q s in
  if columnCount_ s1 <? 0 then (inl e, s1)
  else if (columnCount_ s1 <=? columnIndex) || (columnIndex <? 0) then (inl E_COLUMN_OUT_RANGE, s1)
  else
    match List.find (fun p => snd p =? columnIndex) (columnMap_ s1) with
    | Some (name, _) => (inr name, s1)
    | None => (inl E_COLUMN_OUT_RANGE, s1)
    end.

(** The cell of the current row, after the checks. *)
Definition current_cell (q : query) (col : Z) (s : t) : (errno + SharedBlock * Z) * t :=
  let '(e, s1) := CheckState q col s in
  if negb (is_ok e) then (inl e, s1)
  else
    match sharedBlock_ s1 with
    | None => (inl E_ERROR, s1)
    | Some b => match GetCellUnit b (GetBlockPos b) col with None => (inl E_ERROR, s1) | Some a => (inr (b, a), s1) end
    end.

(** [GetColumnType]: the type of the cell, cast. *)
Definition GetColumnType (q : query) (col : Z) (s : t) : (errno + Z) * t :=
  let '(r, s1) := current_cell q col s in
  (match r with inl e => inl e | inr (b, a) => inr (cell_type b a) end, s1).

Definition IsColumnNull (q : query) (col : Z) (s : t) : (errno + bool) * t :=
  if negb (is_ok (lastErr_ s)) then (inl (lastErr_ s), s)
  else let '(r, s1) := GetColumnType q col s in (match r with inl e => inl e | inr ty => inr (ty =? 0) end, s1).

Section Rows.
Context `{Serializable.JsonText} (now : Z).

(** The values of the columns [index], ..., in order. *)
Fixpoint data_loop (q : query) (names : list string) (index : Z) (rowData : list ValueObject) (s : t)
    : (errno * option (list ValueObject)) * t :=
  match names with
  | [] => ((E_OK, Some rowData), s)
  | _ :: rest =>
      let '((ret, value), s1) := Get now q index VNil s in
      if negb (is_ok ret) then ((ret, Some []), s1)
      else match value with
           | None => ((E_OK, None), s1)
           | Some v => data_loop q rest (index + 1) (rowData ++ [v]) s1
           end
  end.

(** [GetRowData]; as with [Get], no list with [E_OK] is a read outside of the buffer. *)
Definition GetRowData (q : query) (s : t) : (errno * option (list ValueObject)) * t :=
  if negb (is_ok (lastErr_ s)) then ((lastErr_ s, Some []), s)
  else
    let '(e, s1) := ready q s in
    if columnCount_ s1 <? 0 then ((e, Some []), s1) else data_loop q (wholeColumnNames_ s1) 0 [] s1.

(** The loop of [GetRowsData], at most [k] rounds. *)
Fixpoint rows_loop (q : query) (k : nat) (rowsData : list (list ValueObject)) (s : t)
    : (errno * option (list (list ValueObject))) * t :=
  match k with
  | O => ((E_OK, Some rowsData), s)
  | S k' =>
      let '((errCode, rowData), s1) := GetRowData q s in
      if bool_decide (errCode = E_ROW_OUT_RANGE) then ((E_OK, Some rowsData), s1)
      else if negb (is_ok errCode) then ((errCode, Some []), s1)
      else
        match rowData with
        | None => ((E_OK, None), s1)
        | Some row =>
            let '(e, s2) := GoToNextRow q s1 in
            if bool_decide (e = E_ROW_OUT_RANGE) then ((E_OK, Some (rowsData ++ [row])), s2)
            else if negb (is_ok e) then ((e, Some []), s2)
            else rows_loop q k' (rowsData ++ [row]) s2
        end
  end.

Definition GetRowsData (q : query) (maxCount position : Z) (s : t)
    : (errno * option (list (list ValueObject))) * t :=
  if negb (is_ok (lastErr_ s)) then ((lastErr_ s, Some []), s)
  else if (maxCount <? 0) || (position <? INIT_POS) then ((E_INVALID_ARGS, Some []), s)
  else if maxCount =? 0 then ((E_OK, Some []), s)
  else
    let start := negb (position =? INIT_POS) && negb (position =? rowPos_ s) in
    let '(errCode, s1) :=
      if start then GoToRow q position s
      else if rowPos_ s =? INIT_POS then GoToFirstRow q s else (E_OK, s) in
    if negb start && (rowPos_ s =? INIT_POS) && bool_decide (errCode = E_ROW_OUT_RANGE) then ((E_OK, Some []), s1)
    else if negb (is_ok errCode) then ((errCode, Some []), s1)
    else rows_loop q (Z.to_nat maxCount) [] s1.

(** The loop of [GetRow] over the map of names. *)
Fixpoint entity_loop (q : query) (m : list (string * Z)) (row : RowEntity.t) (s : t)
    : (errno * option RowEntity.t) * t :=
  match m with
  | [] => ((E_OK, Some row), s)
  | (name, index) :: rest =>
      let '((ret, value), s1) := Get now q index VNil s in
      if negb (is_ok ret) then ((ret, Some row), s1)
      else match value with
           | None => ((E_OK, None), s1)
           | Some v => entity_loop q rest (RowEntity.Put name index v row) s1
           end
  end.

(** [GetRow]; [old] is the entity the caller passes. *)
Definition GetRow (q : query) (old : RowEntity.t) (s : t) : (errno * option RowEntity.t) * t :=
  let '(e, s1) := ready q s in
  if columnCount_ s1 <? 0 then ((e, Some old), s1)
  else entity_loop q (columnMap_ s1) (RowEntity.Clear (columnCount_ s1)) s1.

(** The getters of the standard types: the value that is written, and the error code. *)
Definition converted {A} (conv : ValueObject -> A) (q : query) (col : Z) (s : t) : (errno * option A) * t :=
  let '((e, v), s1) := Get now q col VNil s in
  if negb (is_ok e) then ((e, None), s1)
  else
    ((match v with Some (VAsset _ | VAssets _ | VFloats _ | VBigInt _) => E_INVALID_OBJECT_TYPE | _ => E_OK end,
      conv <$> v), s1).

Definition GetBlob (q : query) (col : Z) (s : t) : (errno * option (list Z)) * t := converted Value.to_blob q col s.

Definition GetLong (q : query) (col : Z) (s : t) : (errno * option Z) * t := converted Value.to_int64 q col s.

(** [GetInt] writes nothing when [GetLong] fails. *)
Definition GetInt (q : query) (col : Z) (s : t) : (errno * option Z) * t :=
  let '((e, v), s1) := GetLong q col s in
  if negb (is_ok e) then ((e, None), s1) else ((E_OK, Int.i32 <$> v), s1).

(** The getters of the types of the store: null and other types are errors. *)
Definition typed {A} (get : ValueObject -> Value.res A) (q : query) (col : Z) (s : t) : (errno * option A) * t :=
  let '((e, v), s1) := Get now q col VNil s in
  if negb (is_ok e) then ((e, None), s1)
  else
    (match v with
     | None => (E_OK, None)
     | Some VNil => (E_NULL_OBJECT, None)
     | Some x => match get x with inl _ => (E_INVALID_OBJECT_TYPE, None) | inr a => (E_OK, Some a) end
     end, s1).

Definition GetAsset (q : query) (col : Z) (s : t) : (errno * option AssetValue) * t := typed Value.GetAsset q col s.
Definition GetAssets (q : query) (col : Z) (s : t) : (errno * option (list AssetValue)) * t := typed Value.GetAssets q col s.
Definition GetFloat32Array (q : query) (col : Z) (s : t) : (errno * option (list Z)) * t := typed Value.GetVecs q col s.

End Rows.

End Columns.

(** The rest of [CacheResultSet]: whole rows and types. *)
Module CacheRows.
Import CacheResultSet.

(** [COLUMNTYPES]: the number of the [ColumnType] of each type of a value. *)
Definition COLUMNTYPES : list Z := [0; 1; 2; 3; 1; 4; 5; 6; 7; 8].

Definition GetColumnType (columnIndex : Z) (s : t) : errno + Z :=
  if isClosed_ s then inl E_ALREADY_CLOSED
  else if (columnIndex <? 0) || (maxCol_ s <=? columnIndex) then inl E_COLUMN_OUT_RANGE
  else
    let index := nth (Z.to_nat columnIndex) (colTypes_ s) 0 in
    if (index <? 0) || (10 <=? index) then inl E_INVALID_COLUMN_TYPE else inr (nth (Z.to_nat index) COLUMNTYPES 0).

(** The loop of [GetRow]: the columns of the first row, looked up in this one. *)
Fixpoint row_loop (names : list string) (index : Z) (r : Bucket.ValuesBucket) (row : RowEntity.t) : errno * RowEntity.t :=
  match names with
  | [] => (E_OK, row)
  | name :: rest =>
      match Bucket.GetObject r name with
      | None => (E_ERROR, row)
      | Some v => row_loop rest (index + 1) r (RowEntity.Put name index v row)
      end
  end.

Definition GetRow (old : RowEntity.t) (s : t) : errno * RowEntity.t :=
  if isClosed_ s then (E_ALREADY_CLOSED, old)
  else if (row_ s <? 0) || (maxRow_ s <=? row_ s) then (E_ROW_OUT_RANGE, old)
  else row_loop (colNames_ s) 0 (nth (Z.to_nat (row_ s)) (valueBuckets_ s) [])
         (RowEntity.Clear (Int.i32 (Z.of_nat (length (colNames_ s))))).

End CacheRows.

(** ** The claims *)

Module RowProps.
Import AbsBlock Block BlockInv BlockSpec BlockProps Fill FillInv FillProps SharedResultSet CursorInv ResultSetProps Columns.

(** The first column of a name. *)
Fixpoint first_at (x : string) (names : list string) : option nat :=
  match names with
  | [] => None
  | y :: rest => if String.eqb x y then Some O else S <$> first_at x rest
  end.

Lemma first_at_lookup x names j : first_at x names = Some j -> names !! j = Some x.
Proof.
  revert j. induction names as [|y names IH]; intros j; simpl; [done|]. destruct (String.eqb_spec x y) as [->|Hne].
  - by intros [= <-].
  - destruct (first_at x names); [|done]. intros [= <-]. simpl. by apply IH.
Qed.

Lemma first_at_nodup x names j : NoDup names -> names !! j = Some x -> first_at x names = Some j.
Proof.
  revert j. induction names as [|y names IH]; intros j Hnd; [done|]. apply NoDup_cons in Hnd as [Hy Hnd].
  destruct j as [|j]; simpl.
  - intros [= ->]. by rewrite String.eqb_refl.
  - intros Hj. destruct (String.eqb_spec x y) as [->|Hne]; [by apply list_elem_of_lookup_2 in Hj|].
    by rewrite (IH j).
Qed.

Lemma emplace_lookup names : forall i m x, OMap.sorted Str.ltb m ->
  OMap.sorted Str.ltb (emplace_names names i m) /\
  OMap.lookup Str.ltb x (emplace_names names i m) =
    match OMap.lookup Str.ltb x m with
    | Some v => Some v
    | None => (fun j => i + Z.of_nat j) <$> first_at x names
    end.
Proof.
  induction names as [|y names IH]; intros i m x Hs; cbn [emplace_names first_at].
  { split; [done|]. by destruct (OMap.lookup _ _ _). }
  destruct (IH (i + 1) (OMap.insert Str.ltb y i m) x) as [H1 H2]; [by apply OMap.insert_sorted|].
  split; [done|]. rewrite H2, OMap.lookup_insert by done. destruct (String.eqb_spec x y) as [->|Hne].
  - rewrite decide_True by done. destruct (OMap.lookup Str.ltb y m); simpl; [done|]. f_equal. lia.
  - rewrite decide_False by done. destruct (OMap.lookup Str.ltb x m); [done|].
    destruct (first_at x names); simpl; [|done]. f_equal. lia.
Qed.

Lemma column_map names x j :
  (x, j) ∈ emplace_names names 0 [] <-> exists k, first_at x names = Some k /\ j = Z.of_nat k.
Proof.
  destruct (emplace_lookup names 0 [] x) as [Hs Hl]; [constructor|]. rewrite <- OMap.lookup_elem by done.
  rewrite Hl, OMap.lookup_nil. destruct (first_at x names) as [k|]; simpl; split.
  - intros [= <-]. by exists k.
  - by intros (? & [= <-] & ->).
  - done.
  - by intros (? & ? & _).
Qed.

Lemma first_at_some x names i : names !! i = Some x -> exists k, first_at x names = Some k /\ (k <= i)%nat.
Proof.
  revert i. induction names as [|y names IH]; intros i Hi; [done|]. simpl. destruct (String.eqb_spec x y) as [->|Hne].
  - exists O. split; [done|lia].
  - destruct i as [|i]; [by injection Hi as ->|]. destruct (IH i Hi) as (k & -> & Hle). exists (S k). split; [done|lia].
Qed.

Lemma find_name {S} (s : S) names i x :
  names !! i = Some x ->
  fst (match List.find (fun p => snd p =? Z.of_nat i) (emplace_names names 0 []) with
       | Some (name, _) => (@inr errno string name, s)
       | None => (inl E_COLUMN_OUT_RANGE, s)
       end) = if bool_decide (first_at x names = Some i) then inr x else inl E_COLUMN_OUT_RANGE.
Proof.
  intros Hx. destruct (List.find _ _) as [[y j]|] eqn:Hf; cbn [fst].
  - apply List.find_some in Hf as [Hin Heq]. apply list_elem_of_In, column_map in Hin as (k & Hk & ->).
    simpl in Heq. assert (k = i) as -> by lia. pose proof (first_at_lookup _ _ _ Hk) as Hy. rewrite Hx in Hy.
    injection Hy as <-. by rewrite bool_decide_eq_true_2.
  - rewrite bool_decide_eq_false_2; [done|]. intros Hk.
    pose proof (List.find_none _ _ Hf (x, Z.of_nat i)) as Hn. simpl in Hn. rewrite Z.eqb_refl in Hn.
    enough (true = false) by done. apply Hn, list_elem_of_In, column_map. by exists i.
Qed.

(** Entries that come from a list of names. *)
Definition from_names (names : list string) (m : list (string * Z)) : Prop :=
  forall x j, (x, j) ∈ m -> 0 <= j /\ names !! Z.to_nat j = Some x.

Lemma column_map_from names : from_names names (emplace_names names 0 []).
Proof.
  intros x j (k & Hk & ->)%column_map. split; [lia|]. rewrite Nat2Z.id. by apply first_at_lookup.
Qed.

Lemma from_names_tail names p m : from_names names (p :: m) -> from_names names m.
Proof. intros H x j Hj. apply H. by right. Qed.

Lemma write_names_other n m : forall acc i, (forall x, (x, Z.of_nat i) ∉ m) ->
  (forall x j, (x, j) ∈ m -> 0 <= j) -> write_names n m acc !! i = acc !! i.
Proof.
  induction m as [|[y j] m IH]; intros acc i Hi Hpos; [done|].
  change (write_names n ((y, j) :: m) acc) with (write_names n m (if n <=? j then acc else <[Z.to_nat j:=y]> acc)).
  rewrite IH; [|set_solver|set_solver]. destruct (n <=? j); [done|]. apply list_lookup_insert_ne.
  intros Heq. apply (Hi y). rewrite <- Heq, Z2Nat.id; [by left|]. apply (Hpos y). by left.
Qed.

Lemma write_names_entry names n m : forall acc i x,
  from_names names m -> (x, Z.of_nat i) ∈ m -> Z.of_nat (length acc) = n -> Z.of_nat i < n ->
  write_names n m acc !! i = Some x.
Proof.
  induction m as [|[y j] m IH]; intros acc i x Hfrom Hin Hlen Hlt; [by apply not_elem_of_nil in Hin|].
  change (write_names n ((y, j) :: m) acc) with (write_names n m (if n <=? j then acc else <[Z.to_nat j:=y]> acc)).
  destruct (decide (Z.of_nat i ∈ map snd m)) as [Hz|Hno].
  - apply list_elem_of_fmap in Hz as ([z zj] & Hzj & Hz). simpl in Hzj. subst zj.
    assert (z = x) as ->.
    { destruct (Hfrom z (Z.of_nat i)) as [_ H1]; [by right|]. destruct (Hfrom x (Z.of_nat i)) as [_ H2]; [done|].
      rewrite H1 in H2. by injection H2. }
    apply IH; [by eapply from_names_tail|done| |done]. destruct (n <=? j); [done|]. by rewrite length_insert.
  - assert (Hm : forall z, (z, Z.of_nat i) ∉ m) by (intros z Hz; apply Hno, list_elem_of_fmap; by exists (z, Z.of_nat i)).
    rewrite write_names_other; [|done|].
    + apply elem_of_cons in Hin as [[= <- <-]|Hin]; [|by apply Hm in Hin].
      rewrite (proj2 (Z.leb_gt _ _)), Nat2Z.id by lia. apply list_lookup_insert_eq. lia.
    + intros z k Hk. destruct (Hfrom z k) as [? _]; [by right|done].
Qed.

(** On an open cursor the names of the columns are those of the query; the index of a name is the first
    column of that name; [GetColumnName] and [GetAllColumnNames] give a column's name when it
    is the first of its name, and otherwise an error and an empty name. *)
Theorem column_names_found q n tbl z s i x :
  answers q n tbl -> cursor q n tbl z s -> snd (q_names q) !! i = Some x ->
  let first := bool_decide (first_at x (snd (q_names q)) = Some i) in
  fst (GetWholeColumnNames q s) = (E_OK, snd (q_names q)) /\
  fst (GetColumnName q (Z.of_nat i) s) = (if first then inr x else inl E_COLUMN_OUT_RANGE) /\
  (exists k, first_at x (snd (q_names q)) = Some k /\ (k <= i)%nat /\ fst (GetColumnIndex q x s) = (E_OK, Z.of_nat k)) /\
  (snd (fst (GetAllColumnNames q [] s))) !! i = Some (if first then x else EmptyString).
Proof.
  intros Hq Hcu Hx. cbv zeta. destruct (names_ready q n tbl z s Hq Hcu) as (s1 & Hi & Hcu1 & _ & _ & Hc & Hw & Hm).
  pose proof (lookup_lt_Some _ _ _ Hx) as Hlt. destruct (an_names _ _ _ Hq) as [_ Hn].
  unfold GetWholeColumnNames, GetColumnName, GetColumnIndex, GetAllColumnNames, ready. rewrite Hi, Hc, Hw, Hm.
  rewrite (proj2 (Z.ltb_ge n 0)) by lia. split; [done|]. split; [|split].
  - decide_z. apply find_name; done.
  - destruct (first_at_some x (snd (q_names q)) i Hx) as (k & Hk & Hle). exists k. split; [done|]. split; [done|].
    destruct (emplace_lookup (snd (q_names q)) 0 [] x) as [_ Hl]; [constructor|].
    rewrite Hl, OMap.lookup_nil, Hk. done.
  - cbn [fst snd]. assert (Hlen : length (resize (Z.to_nat n) []) = Z.to_nat n)
      by (unfold resize; rewrite take_nil; cbn [app length]; rewrite length_replicate; lia).
    case_bool_decide as Hf.
    + eapply write_names_entry; [apply column_map_from|apply column_map; by exists i|lia|lia].
    + rewrite write_names_other.
      * unfold resize. rewrite take_nil. apply lookup_replicate. split; [done|]. cbn [length]. lia.
      * intros y (k & Hk & Heq)%column_map. assert (k = i) as -> by lia. pose proof (first_at_lookup _ _ _ Hk) as Hy.
        rewrite Hx in Hy. injection Hy as <-. done.
      * intros y j (k & _ & ->)%column_map. lia.
Qed.

(** *** Whole rows *)

Section Reading.
Context `{Serializable.JsonText} (now : Z).

(** The values the cells of a table stand for. *)
Definition reads (tbl : list (list cell)) (vals : list (list ValueObject)) : Prop :=
  Forall2 (Forall2 (fun v x => cell_ok v /\ read_value now VNil v = (E_OK, Some x))) tbl vals.

Variable (q : query) (n : Z) (tbl : list (list cell)) (z : Z) (vals : list (list ValueObject)).
Hypothesis (Hq : answers q n tbl) (Hvals : reads tbl vals).

(** A cursor at row [p]. *)
Definition at_row (p : Z) (s : SharedResultSet.t) : Prop := cursor q n tbl z s /\ rowPos_ s = p.

Lemma vals_length : length vals = length tbl.
Proof. symmetry. by eapply Forall2_length. Qed.

Lemma row_width p rv : vals !! p = Some rv -> Z.of_nat (length rv) = n.
Proof.
  intros Hrv. destruct (Forall2_lookup_r _ _ _ _ _ Hvals Hrv) as (row & Hrow & Hcells).
  destruct (Forall2_lookup_r _ _ _ _ _ (an_rows _ _ _ Hq) Hrow) as (cols & _ & [Henc Hwd _]).
  rewrite <- (Forall2_length _ _ _ Hcells), <- Hwd. f_equal. symmetry.
  eapply Forall2_length, mapM_Some. exact Henc.
Qed.

Lemma get_value p rv c x s :
  at_row p s -> 0 <= p -> vals !! Z.to_nat p = Some rv -> rv !! c = Some x ->
  exists s', Get now q (Z.of_nat c) VNil s = ((E_OK, Some x), s') /\ at_row p s'.
Proof.
  intros [Hcu Hp] H0 Hrv Hx. pose proof (row_width _ _ Hrv) as Hw.
  destruct (Forall2_lookup_r _ _ _ _ _ Hvals Hrv) as (row & Hrow & Hcells).
  pose proof (Forall2_length _ _ _ Hcells) as Hlen.
  destruct (Forall2_lookup_r _ _ _ _ _ Hcells Hx) as (v & Hv & Hok & Hread).
  destruct (Forall2_lookup_r _ _ _ _ _ (an_rows _ _ _ Hq) Hrow) as (cols & _ & [_ _ Hfit]).
  destruct (get_reads now q n tbl z s row c VNil v) as (s' & -> & Hcu' & Hp'); try done; try lia.
  - by rewrite Hp.
  - by eapply Forall_lookup_1.
  - exists s'. rewrite Hread. split; [done|]. split; [done|]. by rewrite Hp'.
Qed.

Lemma data_loop_reads p rv names : forall k acc s,
  at_row p s -> 0 <= p -> vals !! Z.to_nat p = Some rv -> (k + length names = length rv)%nat ->
  exists s', data_loop now q names (Z.of_nat k) acc s = ((E_OK, Some (acc ++ drop k rv)), s') /\ at_row p s'.
Proof.
  induction names as [|y names IH]; intros k acc s Hs H0 Hrv Hk; cbn [data_loop].
  { exists s. rewrite drop_ge, app_nil_r by (simpl in Hk; lia). done. }
  simpl in Hk. destruct (lookup_lt_is_Some_2 rv k) as [x Hx]; [lia|].
  destruct (get_value p rv k x s Hs H0 Hrv Hx) as (s1 & -> & Hs1).
  ok_simpl. replace (Z.of_nat k + 1) with (Z.of_nat (S k)) by lia.
  destruct (IH (S k) (acc ++ [x]) s1) as (s' & -> & Hs'); [done|done|done|lia|]. exists s'. split; [|done].
  rewrite <- app_assoc, (drop_S _ _ _ Hx). done.
Qed.

Lemma get_row_data p rv s :
  at_row p s -> 0 <= p -> vals !! Z.to_nat p = Some rv ->
  exists s', GetRowData now q s = ((E_OK, Some rv), s') /\ at_row p s'.
Proof.
  intros [Hcu Hp] H0 Hrv. unfold GetRowData, ready. rewrite (proj2 (cu_open _ _ _ _ _ Hcu)).
  ok_simpl.
  destruct (names_ready q n tbl z s Hq Hcu) as (s1 & -> & Hcu1 & Hp1 & _ & -> & -> & _).
  pose proof (an_range _ _ _ Hq). rewrite (proj2 (Z.ltb_ge _ _)) by lia.
  destruct (data_loop_reads p rv (snd (q_names q)) 0 [] s1) as (s' & E & Hs'); try done.
  - split; [done|]. by rewrite Hp1.
  - destruct (an_names _ _ _ Hq) as [_ Hn]. pose proof (row_width _ _ Hrv). lia.
  - exists s'. change 0 with (Z.of_nat 0). by rewrite E.
Qed.

Lemma rows_loop_reads k : forall p acc s,
  at_row p s -> 0 <= p < Z.of_nat (length tbl) ->
  exists e d s', rows_loop now q k acc s = ((e, d), s') /\
    ((e = E_ERROR /\ too_large (B := SharedBlock) z n tbl) \/
     (e = E_OK /\ d = Some (acc ++ take k (drop (Z.to_nat p) vals)))).
Proof.
  induction k as [|k IH]; intros p acc s Hs Hp; cbn [rows_loop].
  { eexists _, _, _. split; [done|]. right. by rewrite take_0, app_nil_r. }
  destruct (lookup_lt_is_Some_2 vals (Z.to_nat p)) as [rv Hrv]; [rewrite vals_length; lia|].
  destruct (get_row_data p rv s Hs ltac:(lia) Hrv) as (s1 & -> & Hcu1 & Hp1).
  rewrite bool_decide_eq_false_2 by done. ok_simpl.
  unfold GoToNextRow. rewrite Hp1, (drop_S _ _ _ Hrv). cbn [take].
  destruct (decide (p + 1 < Z.of_nat (length tbl))) as [Hlt|Hge].
  - destruct (goto_row_shows q n tbl z s1 (p + 1) Hq Hcu1 ltac:(lia)) as (e & s2 & -> & [[-> Hbig]|(-> & Hcu2 & Hp2)]).
    + rewrite bool_decide_eq_false_2 by done. ok_simpl.
      eexists _, _, _. split; [done|]. by left.
    + rewrite bool_decide_eq_false_2 by done. ok_simpl.
      destruct (IH (p + 1) (acc ++ [rv]) s2) as (e & d & s' & -> & Hd); [by split|lia|].
      eexists _, _, _. split; [done|]. replace (Z.to_nat (p + 1)) with (S (Z.to_nat p)) in Hd by lia.
      by rewrite <- app_assoc in Hd.
  - destruct (goto_row_outside q n tbl z s1 (p + 1) Hcu1 ltac:(lia)) as (s2 & -> & _).
    rewrite bool_decide_eq_true_2 by done. eexists _, _, _. split; [done|]. right. split; [done|].
    rewrite (drop_ge vals) by (rewrite vals_length; lia). by rewrite take_nil.
Qed.

End Reading.


(** *** The row as an entity *)

Section Entity.
Context `{Serializable.JsonText} (now : Z) (q : query) (n : Z) (tbl : list (list cell)) (z : Z) (vals : list (list ValueObject)).
Context (Hq : answers q n tbl) (Hvals : reads now tbl vals) (p : Z) (rv : list ValueObject).
Context (H0 : 0 <= p) (Hrv : vals !! Z.to_nat p = Some rv) (names : list string) (Hnames : length names = length rv).

(** An entity with a place per column, some of them filled. *)
Record entity (done : list (string * Z)) (row : RowEntity.t) : Prop := {
  en_sorted : OMap.sorted Str.ltb (RowEntity.values_ row);
  en_size : length (RowEntity.indexs_ row) = length names;
  en_values x : OMap.lookup Str.ltb x (RowEntity.values_ row) <> None -> x ∈ map fst done;
  en_entry x j : (x, j) ∈ done -> RowEntity.indexs_ row !! Z.to_nat j = Some (Some x) /\
    OMap.lookup Str.ltb x (RowEntity.values_ row) = rv !! Z.to_nat j;
  en_free j : (forall x, (x, Z.of_nat j) ∉ done) -> (j < length names)%nat -> RowEntity.indexs_ row !! j = Some None
}.

Lemma entity_new : entity [] (RowEntity.Clear (Z.of_nat (length names))).
Proof.
  split; cbn; [constructor|by rewrite length_replicate, Nat2Z.id|done|by intros ? ? ?%not_elem_of_nil|].
  intros j _ Hj. apply lookup_replicate. split; [done|]. by rewrite Nat2Z.id.
Qed.

Lemma entity_put fin row x j v :
  entity fin row -> from_names names ((x, j) :: fin) -> x ∉ map fst fin -> rv !! Z.to_nat j = Some v ->
  entity ((x, j) :: fin) (RowEntity.Put x j v row).
Proof.
  intros [Hs Hsz Hv He Hf] Hfrom Hx Hj. destruct (Hfrom x j) as [Hj0 Hnj]; [by left|].
  pose proof (lookup_lt_Some _ _ _ Hnj) as Hlt.
  assert (Hout : RowEntity.outside j row = false) by (unfold RowEntity.outside; lia).
  assert (Hfresh : OMap.lookup Str.ltb x (RowEntity.values_ row) = None)
    by (destruct (OMap.lookup _ _ _) eqn:E; [exfalso; apply Hx, Hv; by rewrite E|done]).
  unfold RowEntity.Put. rewrite Hout. split; cbn [RowEntity.values_ RowEntity.indexs_].
  - by apply OMap.insert_sorted.
  - by rewrite length_insert.
  - intros y. rewrite OMap.lookup_insert by done. case_decide as Hy; [subst; intros _; by left|].
    intros Hin. right. by apply Hv.
  - intros y k Hin. rewrite OMap.lookup_insert by done.
    apply elem_of_cons in Hin as [[= -> ->]|Hin].
    + rewrite decide_True, Hfresh, Hj by done. split; [|done]. apply list_lookup_insert_eq. lia.
    + assert (Hyx : y <> x) by (intros ->; apply Hx, list_elem_of_fmap; by exists (x, k)).
      destruct (Hfrom y k) as [Hk0 Hnk]; [by right|].
      assert (Hne : Z.to_nat j <> Z.to_nat k) by (intros E; rewrite E in Hnj; congruence).
      rewrite decide_False, list_lookup_insert_ne by done. by apply He.
  - intros k Hk Hkn. rewrite list_lookup_insert_ne; [apply Hf; [set_solver|done]|].
    intros E. apply (Hk x). rewrite <- E, Z2Nat.id by done. by left.
Qed.

Lemma entity_loop_reads m : forall fin row s,
  at_row q n tbl z p s -> entity fin row -> from_names names (fin ++ m) -> NoDup (map fst (fin ++ m)) ->
  exists row' s', entity_loop now q m row s = ((E_OK, Some row'), s') /\ entity (rev m ++ fin) row'.
Proof.
  induction m as [|[x j] m IH]; intros fin row s Hs He Hfrom Hnd; cbn [entity_loop].
  { by eexists _, _. }
  assert (Hperm : fin ++ (x, j) :: m ≡ₚ (x, j) :: fin ++ m) by (symmetry; apply Permutation_middle).
  assert (Hfrom' : from_names names (((x, j) :: fin) ++ m)).
  { intros y k Hin. apply Hfrom. by rewrite Hperm. }
  rewrite Hperm in Hnd. cbn [map fst] in Hnd. apply NoDup_cons in Hnd as [Hx Hnd].
  destruct (Hfrom' x j) as [Hj0 Hnj]; [by left|]. pose proof (lookup_lt_Some _ _ _ Hnj) as Hlt.
  destruct (lookup_lt_is_Some_2 rv (Z.to_nat j)) as [v Hv]; [lia|].
  destruct (get_value now q n tbl z vals Hq Hvals p rv (Z.to_nat j) v s Hs H0 Hrv Hv) as (s1 & E & Hs1).
  rewrite Z2Nat.id in E by done. rewrite E. ok_simpl.
  destruct (IH ((x, j) :: fin) (RowEntity.Put x j v row) s1) as (row' & s' & E' & He').
  - done.
  - apply entity_put; [done| | |done].
    + intros y k Hin. apply Hfrom'. cbn [app]. rewrite app_comm_cons. apply elem_of_app. by left.
    + rewrite map_app in Hx. by intros Hin; apply Hx, elem_of_app; left.
  - done.
  - cbn [app map fst]. by apply NoDup_cons.
  - exists row', s'. split; [done|]. cbn [rev]. by rewrite <- app_assoc.
Qed.

End Entity.

(** [GetRow] on a row: the entity has the value of every column, under its name and at its index, as
    long as the column is the first of its name.  At the index of a later column of the same
    name it has no value: [RowEntity::Get] uses an iterator that was never set. *)
Theorem row_entity_holds_row `{Serializable.JsonText} now q n tbl z vals s old rv :
  answers q n tbl -> reads now tbl vals -> cursor q n tbl z s -> 0 <= rowPos_ s ->
  vals !! Z.to_nat (rowPos_ s) = Some rv ->
  exists row s', GetRow now q old s = ((E_OK, Some row), s') /\
    forall i x, snd (q_names q) !! i = Some x ->
      (first_at x (snd (q_names q)) = Some i ->
         RowEntity.GetByIndex (Z.of_nat i) row = rv !! i /\ Some (RowEntity.GetByName x row) = rv !! i) /\
      (first_at x (snd (q_names q)) <> Some i -> RowEntity.GetByIndex (Z.of_nat i) row = None).
Proof.
  intros Hq Hvals Hcu H0 Hrv. set (names := snd (q_names q)).
  destruct (an_names _ _ _ Hq) as [_ Hn]. fold names in Hn.
  pose proof (row_width now q n tbl vals Hq Hvals _ _ Hrv) as Hw.
  destruct (names_ready q n tbl z s Hq Hcu) as (s1 & Hi & Hcu1 & Hp1 & _ & Hc & _ & Hm).
  fold names in Hm. unfold GetRow, ready. rewrite Hi, Hc, Hm, (proj2 (Z.ltb_ge _ _)) by lia. rewrite <- Hn.
  destruct (emplace_lookup names 0 [] EmptyString) as [Hs _]; [constructor|].
  destruct (entity_loop_reads now q n tbl z vals Hq Hvals (rowPos_ s) rv H0 Hrv names ltac:(lia)
    (emplace_names names 0 []) [] (RowEntity.Clear (Z.of_nat (length names))) s1) as (row & s' & -> & He).
  { by split. } { by apply entity_new. } { apply column_map_from. } { by apply OMap.sorted_nodup. }
  rewrite app_nil_r in He. exists row, s'. split; [done|]. intros i x Hx.
  pose proof (lookup_lt_Some _ _ _ Hx) as Hlt.
  assert (Hmem : forall y k, (y, k) ∈ rev (emplace_names names 0 []) <-> exists j, first_at y names = Some j /\ k = Z.of_nat j).
  { intros y k. rewrite <- column_map, !list_elem_of_In. symmetry. apply in_rev. }
  unfold RowEntity.GetByIndex, RowEntity.GetByName.
  assert (Hout : RowEntity.outside (Z.of_nat i) row = false).
  { unfold RowEntity.outside. rewrite (en_size _ _ _ _ He). lia. }
  rewrite Hout, Nat2Z.id. split; intros Hf.
  - destruct (en_entry _ _ _ _ He x (Z.of_nat i)) as [E1 E2]; [apply Hmem; by exists i|].
    rewrite Nat2Z.id in E1, E2. rewrite E1. cbn. rewrite E2.
    destruct (lookup_lt_is_Some_2 rv i) as [v Hv]; [lia|]. by rewrite Hv.
  - rewrite (en_free _ _ _ _ He); [done| |done]. intros y (j & Hj & Hij)%Hmem.
    assert (j = i) as -> by lia. pose proof (first_at_lookup _ _ _ Hj) as Hy. rewrite Hx in Hy.
    injection Hy as <-. done.
Qed.

(** *** At work *)

(** The table of [demo_query] as values, and the same with two columns of one name. *)
Definition demo_values : list (list ValueObject) := [[VInt 7; VString "hi"]; [VNil; VBlob [1; 2]]].

Definition twin_query : query :=
  {| q_steps := map SQLITE_ROW demo_rows; q_columns := 2; q_names := (E_OK, ["id"; "id"]); q_retry := 2 |}.

Lemma demo_reads : reads 0 demo_table demo_values.
Proof. repeat constructor; vm_compute; try reflexivity; try discriminate; split; try discriminate; reflexivity. Qed.

Lemma demo_cursor : cursor demo_query 2 demo_table 1000 (opened demo_block (E_OK, 2)).
Proof. by apply (opened_cursor demo_query 2 demo_table demo_block 0 [] (bf_holds _ _ demo_block_fresh)). Qed.

Lemma twin_answers : answers twin_query 2 demo_table.
Proof. destruct demo_answers as [H1 H2 H3 H4 H5 H6]. by split. Qed.

Lemma twin_cursor : cursor twin_query 2 demo_table 1000 (opened demo_block (E_OK, 2)).
Proof. by apply (opened_cursor twin_query 2 demo_table demo_block 0 [] (bf_holds _ _ demo_block_fresh)). Qed.

Lemma column_names_found_witness :
  fst (GetColumnName twin_query 1 (opened demo_block (E_OK, 2))) = inl E_COLUMN_OUT_RANGE /\
  snd (fst (GetAllColumnNames twin_query [] (opened demo_block (E_OK, 2)))) !! 1%nat = Some EmptyString.
Proof.
  destruct (column_names_found twin_query 2 demo_table 1000 (opened demo_block (E_OK, 2)) 1 "id") as (_ & H1 & _ & H2);
    [exact twin_answers|exact twin_cursor|reflexivity|]. split; [exact H1|exact H2].
Defined.


(** A cursor that has been moved to the first row. *)
Lemma moved_cursor q tbl :
  answers q 2 tbl -> cursor q 2 tbl 1000 (opened demo_block (E_OK, 2)) -> Z.of_nat (length tbl) = 2 ->
  fst (GoToRow q 0 (opened demo_block (E_OK, 2))) = E_OK ->
  cursor q 2 tbl 1000 (snd (GoToRow q 0 (opened demo_block (E_OK, 2)))) /\
  rowPos_ (snd (GoToRow q 0 (opened demo_block (E_OK, 2)))) = 0.
Proof.
  intros Hq Hcu Hl Hok. destruct (goto_row_shows q 2 tbl 1000 _ 0 Hq Hcu) as (e & s' & E & H); [lia|]. rewrite E in *.
  cbn [fst snd] in *. destruct H as [[-> _]|(_ & H)]; [done|exact H].
Qed.

Lemma row_entity_holds_row_witness :
  let s := snd (GoToRow twin_query 0 (opened demo_block (E_OK, 2))) in
  exists row s', GetRow 0 twin_query RowEntity.new s = ((E_OK, Some row), s') /\
    RowEntity.GetByIndex 0 row = Some (VInt 7) /\ RowEntity.GetByIndex 1 row = None.
Proof.
  cbv zeta. destruct (moved_cursor twin_query demo_table twin_answers twin_cursor eq_refl) as [Hcu Hp];
    [vm_compute; reflexivity|].
  set (s := snd (GoToRow _ _ _)) in *. clearbody s.
  destruct (row_entity_holds_row 0 twin_query 2 demo_table 1000 demo_values s RowEntity.new [VInt 7; VString "hi"])
    as (row & s' & E & Hr); [exact twin_answers|exact demo_reads|exact Hcu|rewrite Hp; lia|rewrite Hp; reflexivity|].
  exists row, s'. split; [exact E|]. split.
  - exact (proj1 (proj1 (Hr 0%nat "id" eq_refl) eq_refl)).
  - apply (proj2 (Hr 1%nat "id" eq_refl)). discriminate.
Defined.

End RowProps.
