(* ===== verification/StepResultSet.v ===== *)
(** * The result set that steps through its statement

    [Stmt]: frameworks/native/rdb/include/statement.h, the functions a result set calls, as a
    class, with the promise [RowStatement] the theorems rely on: a statement over a table gives
    its rows one after the other and starts over after a reset.  [SqliteRows] discharges the
    promise for [SqliteStatement], from what SQLite promises about its cursors.
    [Stepping]: frameworks/native/rdb/src/step_result_set.cpp, written against the class.
    [StepProps]: the claims.

    Sleeping between retries, the log and the messages of errors are left out. *)
From Stdlib Require Import ZArith Lia.
From stdpp Require Import base gmap list strings.
From S2P Require Import Prelude CppStd Errno Values StringUtils RawData SharedBlock FillBlock SqliteStmt ResultSet ResultRows.

Local Open Scope Z_scope.

Module Stmt.

Class Statement (T : Type) := {
  Step : T -> errno * T;
  Reset : T -> errno * T;
  Count : T -> errno * Z * T;
  Bind : list ValueObject -> T -> errno * T;
  ReadOnly : T -> bool;
  GetColumnCount : T -> Z;
  GetColumnName : Z -> T -> errno * string;
  GetColumnType : Z -> T -> errno * Z * T;
  GetSize : Z -> T -> errno * Z * T;
  GetColumn : Z -> T -> errno * option ValueObject * T
}.

(** [runs s tbl k]: the statement has the rows [tbl] and has given [k] of them; the table is
    locked for the next [busy s] calls of [Step], fewer than a caller tries.  Beyond the last row
    nothing is promised but that the statement can be reset. *)
Class RowStatement (T : Type) `{Statement T} := {
  runs : T -> list (list ValueObject) -> nat -> Prop;
  busy : T -> nat;
  runs_patience s tbl k : runs s tbl k -> (busy s <= 51)%nat;
  runs_busy s tbl k n : runs s tbl k -> (k <= length tbl)%nat -> busy s = S n ->
    exists e s', Step s = (e, s') /\ (e = E_SQLITE_LOCKED \/ e = E_SQLITE_BUSY) /\ runs s' tbl k /\ busy s' = n;
  runs_row s tbl k : runs s tbl k -> (k < length tbl)%nat -> busy s = O ->
    exists s', Step s = (E_OK, s') /\ runs s' tbl (S k);
  runs_end s tbl : runs s tbl (length tbl) -> busy s = O ->
    exists s', Step s = (E_NO_MORE_ROWS, s') /\ runs s' tbl (S (length tbl));
  runs_count s tbl : runs s tbl 0 -> exists s', Count s = (E_OK, Z.of_nat (length tbl), s') /\ runs s' tbl 0;
  runs_reset s tbl k : runs s tbl k -> exists s', Reset s = (E_OK, s') /\ runs s' tbl 0;
  runs_column s tbl k row c v : runs s tbl (S k) -> tbl !! k = Some row -> row !! c = Some v ->
    exists s', GetColumn (Z.of_nat c) s = (E_OK, Some v, s') /\ runs s' tbl (S k)
}.

End Stmt.

Module Stepping.
Import SharedResultSet(INIT_POS, NO_COUNT, INVALID_COUNT).

Definition STEP_QUERY_RETRY_MAX_TIMES : nat := 50.

Section Set_.
Context {T : Type} `{Stmt.Statement T}.

Record t := {
  isClosed_ : bool;
  lastErr_ : errno;
  rowPos_ : Z;
  rowCount_ : Z;
  isSupportCountRow_ : bool;
  isGotoNextRowReturnLastError_ : bool;
  conn_ : bool;
  statement_ : option T
}.

Definition set_statement (st : option T) (s : t) : t :=
  {| isClosed_ := isClosed_ s; lastErr_ := lastErr_ s; rowPos_ := rowPos_ s; rowCount_ := rowCount_ s;
     isSupportCountRow_ := isSupportCountRow_ s; isGotoNextRowReturnLastError_ := isGotoNextRowReturnLastError_ s;
     conn_ := conn_ s; statement_ := st |}.

Definition set_row (pos count : Z) (s : t) : t :=
  {| isClosed_ := isClosed_ s; lastErr_ := lastErr_ s; rowPos_ := pos; rowCount_ := count;
     isSupportCountRow_ := isSupportCountRow_ s; isGotoNextRowReturnLastError_ := isGotoNextRowReturnLastError_ s;
     conn_ := conn_ s; statement_ := statement_ s |}.

Definition set_err (e : errno) (s : t) : t :=
  {| isClosed_ := isClosed_ s; lastErr_ := e; rowPos_ := rowPos_ s; rowCount_ := rowCount_ s;
     isSupportCountRow_ := isSupportCountRow_ s; isGotoNextRowReturnLastError_ := isGotoNextRowReturnLastError_ s;
     conn_ := conn_ s; statement_ := statement_ s |}.

Definition set_count (support : bool) (e : errno) (count : Z) (s : t) : t :=
  {| isClosed_ := isClosed_ s; lastErr_ := e; rowPos_ := rowPos_ s; rowCount_ := count;
     isSupportCountRow_ := support; isGotoNextRowReturnLastError_ := isGotoNextRowReturnLastError_ s;
     conn_ := conn_ s; statement_ := statement_ s |}.

Definition GetStatement (s : t) : option T := if isClosed_ s || negb (conn_ s) then None else statement_ s.

(** [PrepareStep]; [created] is the answer of [CreateStatement]. *)
Definition PrepareStep (sql : string) (args : list ValueObject) (created : errno * option T) (s : t) : errno * t :=
  match statement_ s with
  | Some _ => (E_OK, s)
  | None =>
      if isClosed_ s || negb (conn_ s) then (E_ALREADY_CLOSED, set_err E_ALREADY_CLOSED s)
      else if SqliteUtils.GetSqlStatementType sql =? SqliteUtils.STATEMENT_ERROR then
        (E_INVALID_ARGS, set_err E_INVALID_ARGS s)
      else
        match created with
        | (E_OK, Some st) =>
            if negb (Stmt.ReadOnly st) then (E_NOT_SELECT, set_err E_NOT_SELECT s)
            else
              let '(errCode, st1) := Stmt.Bind args st in
              if negb (is_ok errCode) then (errCode, set_err errCode s) else (E_OK, set_statement (Some st1) s)
        | (errCode, _) => (E_STATEMENT_NOT_PREPARED, set_err errCode s)
        end
  end.

(** The constructor. *)
Definition construct (hasConn preCount returnLastError : bool) (sql : string) (args : list ValueObject)
    (created : errno * option T) : t :=
  let s0 := {| isClosed_ := negb hasConn; lastErr_ := E_OK; rowPos_ := INIT_POS; rowCount_ := NO_COUNT;
               isSupportCountRow_ := true; isGotoNextRowReturnLastError_ := hasConn && returnLastError;
               conn_ := hasConn; statement_ := None |} in
  if negb hasConn then s0
  else
    let '(errCode, s1) := PrepareStep sql args created s0 in
    if negb (is_ok errCode) then s1
    else
      match GetStatement s1 with
      | None => s1
      | Some st =>
          let s2 :=
            if preCount then let '(e, n, st1) := Stmt.Count st in set_statement (Some st1) (set_count true e n s1)
            else set_count false (lastErr_ s1) (rowCount_ s1) s1 in
          if bool_decide (lastErr_ s2 = E_NOT_SUPPORT) && (rowCount_ s2 =? INVALID_COUNT)
          then set_count false E_OK (rowCount_ s2) s2 else s2
      end.

(** [Reset]. *)
Definition Reset (s : t) : errno * t :=
  let s1 := set_row INIT_POS (rowCount_ s) s in
  match GetStatement s1 with
  | None => (E_OK, s1)
  | Some st => let '(e, st1) := Stmt.Reset st in (e, set_statement (Some st1) s1)
  end.

(** The retries of [GoToNextRow] while the table is locked; [left] more are allowed. *)
Fixpoint retry_loop (left : nat) (e : errno) (st : T) : option errno * T :=
  if bool_decide (e = E_SQLITE_LOCKED) || bool_decide (e = E_SQLITE_BUSY) then
    match left with
    | O => (None, st)
    | S left' => let '(e1, st1) := Stmt.Step st in retry_loop left' e1 st1
    end
  else (Some e, st).

Definition GoToNextRow (s : t) : errno * t :=
  if isGotoNextRowReturnLastError_ s && negb (is_ok (lastErr_ s)) then (lastErr_ s, s)
  else if isClosed_ s then (E_ALREADY_CLOSED, s)
  else
    match GetStatement s with
    | None => (E_ALREADY_CLOSED, s)
    | Some st =>
        let '(e0, st0) := Stmt.Step st in
        let '(r, st1) := retry_loop (S STEP_QUERY_RETRY_MAX_TIMES) e0 st0 in
        let s1 := set_statement (Some st1) s in
        match r with
        | None => (E_STEP_RESULT_QUERY_EXCEEDED, s1)
        | Some E_OK => (E_OK, set_row (rowPos_ s1 + 1) (rowCount_ s1) s1)
        | Some E_NO_MORE_ROWS =>
            (E_ROW_OUT_RANGE,
             if isSupportCountRow_ s1 || negb (rowCount_ s1 =? INVALID_COUNT)
             then set_row (if negb (rowCount_ s1 =? 0) then rowCount_ s1 else rowPos_ s1) (rowCount_ s1) s1
             else set_row (rowPos_ s1 + 1) (rowPos_ s1 + 1) s1)
        | Some errCode =>
            let s2 := snd (Reset s1) in
            (errCode, set_row (rowCount_ s2) (rowCount_ s2) s2)
        end
    end.

(** The loop [while (position != rowPos_)] of [GoToRow], as many rounds as there are rows between. *)
Fixpoint rounds (n : nat) (s : t) : errno * t :=
  match n with
  | O => (E_OK, s)
  | S n' =>
      let '(errCode, s1) := GoToNextRow s in if negb (is_ok errCode) then (errCode, s1) else rounds n' s1
  end.

Definition goto_loop (position : Z) (s : t) : errno * t := rounds (Z.to_nat (position - rowPos_ s)) s.

Definition GoToRow (position : Z) (s : t) : errno * t :=
  if isClosed_ s then (E_ALREADY_CLOSED, s)
  else if negb (is_ok (lastErr_ s)) then (lastErr_ s, s)
  else if isSupportCountRow_ s && (rowCount_ s <=? position) then
    (E_ROW_OUT_RANGE,
     set_row (if (rowCount_ s <=? position) && negb (rowCount_ s =? 0) then rowCount_ s else rowPos_ s) (rowCount_ s) s)
  else if position <? 0 then (E_ROW_OUT_RANGE, s)
  else if position <? rowPos_ s then goto_loop position (snd (Reset s))
  else goto_loop position s.

Definition Close (s : t) : errno * t :=
  if isClosed_ s then (E_OK, s)
  else
    (E_OK,
     snd (Reset {| isClosed_ := true; lastErr_ := lastErr_ s; rowPos_ := rowPos_ s; rowCount_ := rowCount_ s;
                   isSupportCountRow_ := isSupportCountRow_ s;
                   isGotoNextRowReturnLastError_ := isGotoNextRowReturnLastError_ s;
                   conn_ := false; statement_ := None |})).

(** [AbsResultSet::GetRowCount]. *)
Definition AbsGetRowCount (s : t) : errno * Z :=
  (if negb (is_ok (lastErr_ s)) then lastErr_ s
   else if negb (rowCount_ s =? NO_COUNT) then E_OK
   else if isClosed_ s then E_ALREADY_CLOSED else E_OK, rowCount_ s).

(** The loop of [GetRowCount] to the end of the rows; [None] when the fuel is not enough. *)
Fixpoint count_loop (fuel : nat) (s : t) : option (errno * t) :=
  match fuel with
  | O => None
  | S fuel' =>
      let '(ret, s1) := GoToNextRow s in
      if bool_decide (ret = E_ROW_OUT_RANGE) then Some (E_OK, set_row (rowPos_ s1) (rowPos_ s1) s1)
      else if negb (is_ok ret) then Some (ret, s1)
      else count_loop fuel' s1
  end.

(** [GetRowCount]; [count] is what the out parameter holds before. *)
Definition GetRowCount (fuel : nat) (count : Z) (s : t) : option (errno * Z * t) :=
  if isSupportCountRow_ s || negb (rowCount_ s =? INVALID_COUNT) then
    let '(e, n) := AbsGetRowCount s in Some (e, n, s)
  else
    let oldPosition := rowPos_ s in
    match count_loop fuel s with
    | None => None
    | Some (E_OK, s1) =>
        let s2 := if negb (oldPosition =? INIT_POS) then snd (GoToRow oldPosition s1) else snd (Reset s1) in
        Some (E_OK, rowCount_ s1, s2)
    | Some (ret, s1) => Some (ret, count, s1)
    end.

(** [IsEnded], where the number of rows is known. *)
Definition IsEnded (s : t) : bool :=
  let '(ret, rowCnt) := AbsGetRowCount s in
  if negb (is_ok ret) then true else (rowCnt =? 0) || (rowPos_ s =? rowCnt).

(** The test in front of the getters: not on a row. *)
Definition off_row (s : t) : bool :=
  (rowPos_ s =? INIT_POS) || ((isSupportCountRow_ s || negb (rowCount_ s =? INVALID_COUNT)) && IsEnded s).

Definition GetColumnType (columnIndex : Z) (s : t) : (errno + Z) * t :=
  if isClosed_ s then (inl E_ALREADY_CLOSED, s)
  else if off_row s then (inl E_ROW_OUT_RANGE, s)
  else
    match GetStatement s with
    | None => (inl E_ALREADY_CLOSED, s)
    | Some st =>
        let '(e, ty, st1) := Stmt.GetColumnType columnIndex st in
        (if negb (is_ok e) then inl e else inr ty, set_statement (Some st1) s)
    end.

Definition GetSize (columnIndex : Z) (s : t) : (errno * option Z) * t :=
  if isClosed_ s then ((E_ALREADY_CLOSED, None), s)
  else if off_row s then ((E_ROW_OUT_RANGE, Some 0), s)
  else
    match GetStatement s with
    | None => ((E_ALREADY_CLOSED, None), s)
    | Some st =>
        let '(e, n, st1) := Stmt.GetSize columnIndex st in ((e, Some n), set_statement (Some st1) s)
    end.

(** [GetValueObject] without a type to check. *)
Definition GetValueObject (col : Z) (s : t) : (errno * option ValueObject) * t :=
  if off_row s then ((E_ROW_OUT_RANGE, Some VNil), s)
  else
    match GetStatement s with
    | None => ((E_ALREADY_CLOSED, Some VNil), s)
    | Some st => let '(e, v, st1) := Stmt.GetColumn col st in ((e, v), set_statement (Some st1) s)
    end.

Definition Get (col : Z) (s : t) : (errno + option ValueObject) * t :=
  if isClosed_ s then (inl E_ALREADY_CLOSED, s)
  else let '((e, v), s1) := GetValueObject col s in (if negb (is_ok e) then inl e else inr v, s1).

Fixpoint names_loop (n : nat) (i : Z) (names : list string) (st : T) : errno * list string :=
  match n with
  | O => (E_OK, names)
  | S n' =>
      let '(code, colName) := Stmt.GetColumnName i st in
      if negb (is_ok code) then (code, []) else names_loop n' (i + 1) (names ++ [colName]) st
  end.

Definition GetColumnNames (s : t) : errno * list string :=
  if negb (is_ok (lastErr_ s)) then (lastErr_ s, [])
  else
    match GetStatement s with
    | None => (E_ALREADY_CLOSED, [])
    | Some st => names_loop (Z.to_nat (Stmt.GetColumnCount st)) 0 [] st
    end.

End Set_.
Arguments t : clear implicits.

End Stepping.

(** ** The cursor follows its statement *)

Module StepInv.
Import SharedResultSet(INIT_POS, NO_COUNT, INVALID_COUNT).
Import Stmt Stepping.

Section Inv.
Context {T : Type} `{RowStatement T} (tbl : list (list ValueObject)).

Abbreviation len := (Z.of_nat (length tbl)).

(** An open set over the table, with the number of rows known or not: on a row, and before the
    first one, the statement has given the rows up to there. *)
Record stepper (counted : bool) (s : Stepping.t T) : Prop := {
  sp_open : isClosed_ s = false /\ conn_ s = true /\ lastErr_ s = E_OK;
  sp_count : isSupportCountRow_ s = counted /\ if counted then rowCount_ s = len else True;
  sp_pos : -1 <= rowPos_ s <= len;
  sp_statement : exists st k, statement_ s = Some st /\ runs st tbl k /\
    (0 < len -> rowPos_ s < len -> k = Z.to_nat (rowPos_ s + 1))
}.

(** One [Step] with its retries. *)
Lemma step_retries st k : forall n,
  runs st tbl k -> (k <= length tbl)%nat -> (busy st <= n)%nat ->
  exists st', (let '(e0, st0) := Step st in retry_loop n e0 st0) =
    (Some (if decide (k < length tbl)%nat then E_OK else E_NO_MORE_ROWS), st') /\ runs st' tbl (S k).
Proof.
  intros n. revert st. induction n as [|n IH]; intros st Hr Hk Hb.
  - assert (busy st = O) as Hz by lia. destruct (decide (k < length tbl)%nat) as [Hlt|Hge].
    + destruct (runs_row st tbl k Hr Hlt Hz) as (st' & -> & Hr'). by exists st'.
    + assert (k = length tbl) as -> by lia. destruct (runs_end st tbl Hr Hz) as (st' & -> & Hr'). by exists st'.
  - destruct (busy st) as [|m] eqn:Hm.
    + destruct (decide (k < length tbl)%nat) as [Hlt|Hge].
      * destruct (runs_row st tbl k Hr Hlt Hm) as (st' & -> & Hr'). by exists st'.
      * assert (k = length tbl) as -> by lia. destruct (runs_end st tbl Hr Hm) as (st' & -> & Hr'). by exists st'.
    + destruct (runs_busy st tbl k m Hr Hk Hm) as (e & st1 & -> & He & Hr1 & Hb1).
      destruct (IH st1 Hr1 Hk ltac:(lia)) as (st' & E & Hr'). exists st'. split; [|done].
      cbn [retry_loop]. destruct He as [-> | ->]; exact E.
Qed.

(** [GoToNextRow] where the statement has given [k] rows. *)
Lemma next_row s st k :
  isClosed_ s = false /\ conn_ s = true /\ lastErr_ s = E_OK -> statement_ s = Some st -> runs st tbl k ->
  (k <= length tbl)%nat ->
  exists st', runs st' tbl (S k) /\
    GoToNextRow s =
      if decide (k < length tbl)%nat then (E_OK, set_row (rowPos_ s + 1) (rowCount_ s) (set_statement (Some st') s))
      else (E_ROW_OUT_RANGE,
            if isSupportCountRow_ s || negb (rowCount_ s =? INVALID_COUNT)
            then set_row (if negb (rowCount_ s =? 0) then rowCount_ s else rowPos_ s) (rowCount_ s) (set_statement (Some st') s)
            else set_row (rowPos_ s + 1) (rowPos_ s + 1) (set_statement (Some st') s)).
Proof.
  intros (Ho & Hc & Hl) Hs Hr Hk.
  destruct (step_retries st k (S STEP_QUERY_RETRY_MAX_TIMES) Hr Hk (runs_patience _ _ _ Hr)) as (st' & E & Hr').
  exists st'. split; [done|]. unfold GoToNextRow, GetStatement. rewrite Ho, Hl, Hc, Hs, andb_false_r. cbn [orb negb].
  destruct (Step st) as [e0 st0]. rewrite E. by destruct (decide _).
Qed.

Lemma reset_row s st k :
  isClosed_ s = false /\ conn_ s = true /\ lastErr_ s = E_OK -> statement_ s = Some st -> runs st tbl k ->
  exists st', runs st' tbl 0 /\ Stepping.Reset s = (E_OK, set_statement (Some st') (set_row INIT_POS (rowCount_ s) s)).
Proof.
  intros (Ho & Hc & _) Hs Hr. destruct (runs_reset st tbl k Hr) as (st' & E & Hr'). exists st'. split; [done|].
  unfold Stepping.Reset, GetStatement. cbn. rewrite Ho, Hc, Hs. cbn [orb negb]. by rewrite E.
Qed.

(** Going forward [n] rows, all of them in the table. *)
Lemma rounds_forward n : forall s st k,
  isClosed_ s = false /\ conn_ s = true /\ lastErr_ s = E_OK -> statement_ s = Some st -> runs st tbl k ->
  (k + n <= length tbl)%nat ->
  exists st', runs st' tbl (k + n) /\
    rounds n s = (E_OK, set_row (rowPos_ s + Z.of_nat n) (rowCount_ s) (set_statement (Some st') s)).
Proof.
  induction n as [|n IH]; intros s st k Ho Hs Hr Hk; cbn [rounds].
  { exists st. rewrite Nat.add_0_r. split; [done|]. f_equal. rewrite Z.add_0_r. destruct s; cbn in *. by subst. }
  destruct (next_row s st k Ho Hs Hr ltac:(lia)) as (st1 & Hr1 & ->). rewrite decide_True by lia. ok_simpl.
  destruct (IH (set_row (rowPos_ s + 1) (rowCount_ s) (set_statement (Some st1) s)) st1 (S k)) as (st' & Hr' & ->); try done; [lia|].
  exists st'. rewrite Nat.add_succ_r. split; [done|]. f_equal. unfold set_row, set_statement. cbn. f_equal. lia.
Qed.

(** The loop of [GoToRow] is the one of the code. *)
Lemma next_moves (s s' : Stepping.t T) : GoToNextRow s = (E_OK, s') -> rowPos_ s' = rowPos_ s + 1.
Proof.
  unfold GoToNextRow. destruct (isGotoNextRowReturnLastError_ s && negb (is_ok (lastErr_ s))) eqn:Hl.
  { intros [= He _]. apply andb_true_iff in Hl as [_ Hl]. by rewrite He in Hl. }
  destruct (isClosed_ s); [done|]. destruct (GetStatement s) as [st|]; [|done].
  destruct (Step st) as [e0 st0]. destruct (retry_loop _ e0 st0) as [[[] |] st1]; by intros [= <-].
Qed.

Lemma goto_loop_while position s :
  rowPos_ s <= position ->
  goto_loop position s =
    if position =? rowPos_ s then (E_OK, s)
    else let '(e, s1) := GoToNextRow s in if negb (is_ok e) then (e, s1) else goto_loop position s1.
Proof.
  intros Hle. unfold goto_loop at 1. destruct (Z.eqb_spec position (rowPos_ s)) as [->|Hne].
  { by rewrite Z.sub_diag. }
  replace (Z.to_nat (position - rowPos_ s)) with (S (Z.to_nat (position - rowPos_ s - 1))) by lia. cbn [rounds].
  destruct (GoToNextRow s) as [e s1] eqn:E. destruct (is_ok e) eqn:Ho; [|done]. cbn [negb].
  apply is_ok_true in Ho as ->. apply next_moves in E. unfold goto_loop. do 2 f_equal. lia.
Qed.

(** A move to a row of the table, where the statement has given the rows before it. *)
Lemma goto_loop_row counted s st k p :
  stepper counted s -> statement_ s = Some st -> runs st tbl k -> k = Z.to_nat (rowPos_ s + 1) ->
  rowPos_ s <= p < len ->
  exists s', goto_loop p s = (E_OK, s') /\ stepper counted s' /\ rowPos_ s' = p /\ rowCount_ s' = rowCount_ s.
Proof.
  intros [Ho Hc Hp _] Hs Hr -> Hin. unfold goto_loop.
  destruct (rounds_forward (Z.to_nat (p - rowPos_ s)) s st _ Ho Hs Hr ltac:(lia)) as (st' & Hr' & ->).
  eexists. split; [done|]. split; [|split; [cbn; lia|done]]. split; cbn; try done; [lia|].
  exists st'. eexists. split; [done|]. split; [exact Hr'|]. lia.
Qed.

Lemma goto_row_counted s p :
  stepper true s ->
  exists e s', GoToRow p s = (e, s') /\ stepper true s' /\
    (e, rowPos_ s') = if bool_decide (0 <= p < len) then (E_OK, p)
                      else (E_ROW_OUT_RANGE, if (len <=? p) && negb (len =? 0) then len else rowPos_ s).
Proof.
  intros Hsp. pose proof Hsp as [(Ho & Hcn & Hl) [Hsup Hcount] Hp (st & k & Hs & Hr & Hk)].
  unfold GoToRow. rewrite Ho, Hl, Hsup, Hcount. ok_simpl. cbn [andb]. case_bool_decide as Hin.
  - decide_z. destruct (Z.ltb_spec p (rowPos_ s)) as [Hlt|Hge].
    + destruct (reset_row s st k) as (st' & Hr' & ->); try done. cbn [snd].
      set (s1 := set_statement _ _). assert (Hs1 : stepper true s1).
      { split; cbn; try done; unfold INIT_POS; try lia. exists st', O. done. }
      destruct (goto_loop_row true s1 st' 0 p Hs1 eq_refl Hr' eq_refl) as (s' & -> & Hs' & <- & _);
        [cbn; unfold INIT_POS; lia|]. by exists E_OK, s'.
    + destruct (goto_loop_row true s st k p Hsp Hs Hr ltac:(lia) ltac:(lia)) as (s' & -> & Hs' & <- & _).
      by exists E_OK, s'.
  - destruct (Z.leb_spec len p) as [Hge|Hlt].
    + eexists _, _. split; [done|]. cbn [andb]. split; [|done]. split; cbn; try done.
      * case_match; lia.
      * exists st, k. split; [done|]. split; [done|]. intros H1. rewrite (proj2 (Z.eqb_neq len 0)) by lia. cbn. lia.
    + rewrite (proj2 (Z.ltb_lt p 0)) by lia. by eexists _, _.
Qed.

Lemma next_row_counted s :
  stepper true s -> 0 < len -> rowPos_ s < len ->
  exists e s', GoToNextRow s = (e, s') /\ stepper true s' /\
    (e, rowPos_ s') = if rowPos_ s + 1 <? len then (E_OK, rowPos_ s + 1) else (E_ROW_OUT_RANGE, len).
Proof.
  intros Hsp Hne Hlt. pose proof Hsp as [Ho [Hsup Hcount] Hp (st & k & Hs & Hr & Hk)]. specialize (Hk Hne Hlt). subst k.
  destruct (next_row s st _ Ho Hs Hr ltac:(lia)) as (st' & Hr' & ->). rewrite Hsup, Hcount. cbn [orb].
  destruct (Z.ltb_spec (rowPos_ s + 1) len) as [Hin|Hout].
  - rewrite decide_True by lia. eexists _, _. split; [done|]. split; [|done]. split; cbn; try done; [lia|].
    exists st'. eexists. split; [done|]. split; [exact Hr'|]. lia.
  - rewrite decide_False by lia. rewrite (proj2 (Z.eqb_neq len 0)) by lia. cbn [negb].
    eexists _, _. split; [done|]. split; [|done]. split; cbn; try done; [lia|].
    exists st'. eexists. split; [done|]. split; [exact Hr'|]. lia.
Qed.

(** Reading on a row. *)
Lemma step_get_value counted s row c v :
  stepper counted s -> (counted = false -> rowCount_ s = NO_COUNT \/ rowCount_ s = len) ->
  0 <= rowPos_ s -> tbl !! Z.to_nat (rowPos_ s) = Some row -> row !! c = Some v ->
  exists s', Get (Z.of_nat c) s = (inr (Some v), s') /\ stepper counted s' /\ rowPos_ s' = rowPos_ s.
Proof.
  intros [Ho [Hsup Hcount] Hp (st & k & Hs & Hr & Hk)] Hcnt H0' Hrow Hv.
  pose proof (lookup_lt_Some _ _ _ Hrow) as Hlt. specialize (Hk ltac:(lia) ltac:(lia)).
  rewrite (Z2Nat.inj_add _ 1), Nat.add_1_r in Hk by lia. subst k.
  destruct (runs_column st tbl _ row c v Hr Hrow Hv) as (st' & E & Hr').
  unfold Get, GetValueObject. destruct Ho as (Ho & Hcn & Hl). rewrite Ho.
  assert (Hoff : off_row s = false).
  { unfold off_row, IsEnded, AbsGetRowCount, INIT_POS, NO_COUNT, INVALID_COUNT in *. rewrite Hl. ok_simpl.
    rewrite (proj2 (Z.eqb_neq (rowPos_ s) (-1))) by lia. cbn [orb]. rewrite Hsup.
    destruct counted; cbn [orb].
    - rewrite Hcount. rewrite (proj2 (Z.eqb_neq len (-1))) by lia. cbn [negb]. ok_simpl. lia.
    - destruct (Hcnt eq_refl) as [-> | ->]; [done|]. rewrite (proj2 (Z.eqb_neq len (-1))) by lia. cbn [negb]. ok_simpl. lia. }
  rewrite Hoff. unfold GetStatement. rewrite Ho, Hcn, Hs. cbn [orb negb]. rewrite E. ok_simpl.
  eexists. split; [done|]. split; [|done]. split; cbn; try done.
  exists st'. eexists. split; [done|]. split; [exact Hr'|]. lia.
Qed.

End Inv.
End StepInv.

(** ** Statements of SQLite keep the promise *)

Module SqliteRowStatement.
Import Sqlite SQLiteError Stmt.

(** What the documentation of SQLite says about a query: its rows come one per step, in the
    order they come again after a reset. *)
Class SqliteRows (W : Type) `{Sqlite W} := {
  gives : W -> Z -> list (list Fill.column) -> nat -> Prop;
  gives_row w h cols k : gives w h cols k -> (k < length cols)%nat ->
    exists w', sqlite3_step (Some h) w = (SQLITE_ROW, w') /\ gives w' h cols (S k);
  gives_end w h cols : gives w h cols (length cols) ->
    exists w', sqlite3_step (Some h) w = (SQLITE_DONE, w') /\ gives w' h cols (S (length cols));
  gives_reset w h cols k : gives w h cols k ->
    exists w', sqlite3_reset (Some h) w = (SQLITE_OK, w') /\ gives w' h cols 0;
  gives_column w h cols k row c col : gives w h cols (S k) -> cols !! k = Some row -> row !! c = Some col ->
    sqlite3_column (Some h) (Z.of_nat c) w = col
}.

Section Instance_.
Context {W : Type} `{SqliteRows W} `{Serializable.JsonText} (now : Z).

(** [Count] is the fill of [FillBlock] without a block. *)
Context (count : SqliteStatement.t * W -> errno * Z * (SqliteStatement.t * W)).

Definition on_self {A} (f : SqliteStatement.base -> W -> A * SqliteStatement.base) (x : SqliteStatement.t * W)
    : A * (SqliteStatement.t * W) :=
  let '(s, w) := x in
  let '(r, b) := f (SqliteStatement.self s) w in
  (r, ({| SqliteStatement.self := b; SqliteStatement.slave_ := SqliteStatement.slave_ s;
          SqliteStatement.slaveInvalid := SqliteStatement.slaveInvalid s |}, w)).

#[export] Instance sqlite_statement_ops : Statement (SqliteStatement.t * W) := {
  Step '(s, w) := let '(e, s', w') := SqliteStatement.Step s w in (e, (s', w'));
  Reset '(s, w) := let '(e, s', w') := SqliteStatement.Reset s w in (e, (s', w'));
  Count := count;
  Bind args '(s, w) := let '(e, s', w') := SqliteStatement.Bind args s w in (e, (s', w'));
  ReadOnly '(s, w) := SqliteStatement.ReadOnly (SqliteStatement.self s);
  GetColumnCount '(s, w) := SqliteStatement.GetColumnCount (SqliteStatement.self s);
  GetColumnName i '(s, w) := SqliteStatement.GetColumnName i (SqliteStatement.self s) w;
  GetColumnType i := on_self (SqliteStatement.GetColumnType i);
  GetSize i := on_self (SqliteStatement.GetSize i);
  GetColumn i := on_self (SqliteStatement.GetColumn now i)
}.

(** What [GetColumn] makes of a column; nothing of a blob without a declared type. *)
Definition reads_column (col : Fill.column) : option ValueObject :=
  match col with
  | Fill.ColBlob (Some d) _ => SqliteStatement.column_value now col (SqliteStatement.decl_type d)
  | Fill.ColBlob None _ => None
  | _ => SqliteStatement.column_value now col SqliteStatement.TYPE_NULL
  end.

(** The columns of a result: as many in every row, and declared the same way. *)
Record result (n : Z) (decls : list string) (cols : list (list Fill.column)) (vals : list (list ValueObject)) : Prop := {
  re_width : Forall (fun row => Z.of_nat (length row) = n) cols;
  re_decl : forall row c d b, row ∈ cols -> row !! c = Some (Fill.ColBlob (Some d) b) -> decls !! c = Some d;
  re_vals : Forall2 (Forall2 (fun col v => reads_column col = Some v)) cols vals
}.

(** A statement, without one on a backup database, over a result. *)
Definition statement_runs (x : SqliteStatement.t * W) (vals : list (list ValueObject)) (k : nat) : Prop :=
  exists h decls cols, SqliteStatement.stmt_ (SqliteStatement.self (fst x)) = Some h /\
    SqliteStatement.slave_ (fst x) = None /\ gives (snd x) h cols k /\
    result (SqliteStatement.columnCount_ (SqliteStatement.self (fst x))) decls cols vals /\
    (forall c ty, SqliteStatement.types_ (SqliteStatement.self (fst x)) !! c = Some ty ->
       ty = SqliteStatement.COLUMN_TYPE_INVALID \/ exists d, decls !! c = Some d /\ ty = SqliteStatement.decl_type d).

Lemma result_length n decls cols vals : result n decls cols vals -> length cols = length vals.
Proof. intros [_ _ Hv]. by eapply Forall2_length. Qed.

Lemma statement_column x vals k row c v :
  statement_runs x vals (S k) -> vals !! k = Some row -> row !! c = Some v ->
  exists x', GetColumn (Z.of_nat c) x = (E_OK, Some v, x') /\ statement_runs x' vals (S k).
Proof.
  destruct x as [s w]. intros (h & decls & cols & Hs & Hsl & Hg & Hres & Hty) Hrow Hv. cbn [fst snd] in *.
  pose proof Hres as [Hw Hd Hvals].
  destruct (Forall2_lookup_r _ _ _ _ _ Hvals Hrow) as (crow & Hcrow & Hr).
  destruct (Forall2_lookup_r _ _ _ _ _ Hr Hv) as (col & Hcol & Hread).
  pose proof (gives_column w h cols k crow c col Hg Hcrow Hcol) as Hsql.
  assert (Hlen : Z.of_nat (length crow) = SqliteStatement.columnCount_ (SqliteStatement.self s))
    by (apply (Forall_lookup_1 _ _ _ _ Hw Hcrow)).
  pose proof (lookup_lt_Some _ _ _ Hcol) as Hlt.
  cbn [GetColumn sqlite_statement_ops on_self]. unfold SqliteStatement.GetColumn, SqliteStatement.GetColumnType, SqliteStatement.IsValid.
  rewrite Hs, Hsql. decide_z. ok_simpl.
  assert (Hkeep : statement_runs
    ({| SqliteStatement.self := SqliteStatement.self s; SqliteStatement.slave_ := SqliteStatement.slave_ s;
        SqliteStatement.slaveInvalid := SqliteStatement.slaveInvalid s |}, w) vals (S k))
    by (exists h, decls, cols; auto).
  destruct col as [t|z|d|[d|] blob| |]; cbn [SqliteStatement.Convert2ColumnType] in *; ok_simpl;
    try (cbn in Hread; eexists; split; [by rewrite <- Hread|exact Hkeep]).
  rewrite Nat2Z.id, nth_lookup. assert (Hdc : decls !! c = Some d)
    by (apply (Hd crow c d blob); [by apply list_elem_of_lookup_2 in Hcrow|done]).
  destruct (SqliteStatement.types_ (SqliteStatement.self s) !! c) as [ty|] eqn:Ht; cbn [default from_option id].
  - destruct (Hty c ty Ht) as [->|(d' & Hd' & ->)].
    + ok_simpl. cbn [negb Z.eqb SqliteStatement.COLUMN_TYPE_INVALID]. eexists. split; [by rewrite <- Hread|].
      exists h, decls, cols. cbn. split; [done|]. split; [done|]. split; [done|]. split; [done|].
      intros c' ty' Hc'. rewrite Nat2Z.id in Hc'. destruct (decide (c' = c)) as [->|Hne].
      * rewrite list_lookup_insert_eq in Hc' by (by eapply lookup_lt_Some). injection Hc' as <-. right. by exists d.
      * rewrite list_lookup_insert_ne in Hc' by done. by apply Hty.
    + assert (d' = d) as -> by congruence. pose proof (StatementProps.decl_type_range d) as Hdr.
      unfold SqliteStatement.TYPE_BLOB in Hdr.
      rewrite (proj2 (Z.eqb_neq (SqliteStatement.decl_type d) SqliteStatement.COLUMN_TYPE_INVALID))
        by (unfold SqliteStatement.COLUMN_TYPE_INVALID; lia).
      cbn [negb]. ok_simpl. eexists. split; [by rewrite <- Hread|exact Hkeep].
  - cbn [negb Z.eqb SqliteStatement.COLUMN_TYPE_INVALID]. ok_simpl. eexists. split; [by rewrite <- Hread|].
    exists h, decls, cols. cbn. split; [done|]. split; [done|]. split; [done|]. split; [done|].
    intros c' ty' Hc'. rewrite Nat2Z.id, list_insert_ge in Hc' by (by apply lookup_ge_None_1). by apply Hty.
Qed.

(** Stepping and resetting leave the statement as it is. *)
Lemma statement_moves s (w' : W) vals k' h decls cols :
  SqliteStatement.stmt_ (SqliteStatement.self s) = Some h -> SqliteStatement.slave_ s = None ->
  result (SqliteStatement.columnCount_ (SqliteStatement.self s)) decls cols vals ->
  (forall c ty, SqliteStatement.types_ (SqliteStatement.self s) !! c = Some ty ->
     ty = SqliteStatement.COLUMN_TYPE_INVALID \/ exists d, decls !! c = Some d /\ ty = SqliteStatement.decl_type d) ->
  gives w' h cols k' ->
  statement_runs ({| SqliteStatement.self := SqliteStatement.self s; SqliteStatement.slave_ := None;
                     SqliteStatement.slaveInvalid := SqliteStatement.slaveInvalid s |}, w') vals k'.
Proof. intros Hs Hsl Hres Hty Hg. by exists h, decls, cols. Qed.

(** What the fill counts; it resets the statement. *)
Definition counts : Prop := forall x vals, statement_runs x vals 0 ->
  exists x', count x = (E_OK, Z.of_nat (length vals), x') /\ statement_runs x' vals 0.

#[export] Instance sqlite_statement_rows (Hcount : counts) : RowStatement (SqliteStatement.t * W).
Proof.
  refine {| runs := statement_runs; busy _ := O; runs_count := Hcount; runs_column := statement_column |}; try done.
  - intros; lia.
  - intros [s w] vals k (h & decls & cols & Hs & Hsl & Hg & Hres & Hty) Hk _. cbn [fst snd] in *.
    rewrite <- (result_length _ _ _ _ Hres) in Hk. destruct (gives_row w h cols k Hg Hk) as (w' & E & Hg').
    cbn [Step sqlite_statement_ops]. unfold SqliteStatement.Step, SqliteStatement.both, SqliteStatement.InnerStep.
    rewrite Hs, E, Hsl. eexists. split; [done|]. by eapply statement_moves.
  - intros [s w] vals (h & decls & cols & Hs & Hsl & Hg & Hres & Hty) _. cbn [fst snd] in *.
    rewrite <- (result_length _ _ _ _ Hres) in *. destruct (gives_end w h cols Hg) as (w' & E & Hg').
    cbn [Step sqlite_statement_ops]. unfold SqliteStatement.Step, SqliteStatement.both, SqliteStatement.InnerStep.
    rewrite Hs, E, <- Hsl. destruct s. eexists. split; [done|]. cbn in Hsl. subst. by eapply (statement_moves {| SqliteStatement.self := _; SqliteStatement.slave_ := None |}).
  - intros [s w] vals k (h & decls & cols & Hs & Hsl & Hg & Hres & Hty). cbn [fst snd] in *.
    destruct (gives_reset w h cols k Hg) as (w' & E & Hg').
    cbn [Reset sqlite_statement_ops]. unfold SqliteStatement.Reset, SqliteStatement.both, SqliteStatement.ResetOne.
    rewrite Hs, E, Hsl. cbn [Z.eqb SQLITE_OK]. ok_simpl. eexists. split; [done|]. by eapply statement_moves.
Defined.

End Instance_.
End SqliteRowStatement.

(** ** The claims *)

Module StepProps.
Import SharedResultSet(INIT_POS, NO_COUNT, INVALID_COUNT).
Import AbsBlock Stmt Stepping StepInv.

(** What a caller does with a cursor. *)
Inductive move := MRow (position : Z) | MNext.

(** The cursor over [n] rows a caller has in mind: a position between -1 and [n]. *)
Definition spec_move (n pos : Z) (m : move) : errno * Z :=
  match m with
  | MRow p =>
      if bool_decide (0 <= p < n) then (E_OK, p)
      else (E_ROW_OUT_RANGE, if (n <=? p) && negb (n =? 0) then n else pos)
  | MNext => if pos + 1 <? n then (E_OK, pos + 1) else (E_ROW_OUT_RANGE, n)
  end.

Fixpoint spec_moves (n pos : Z) (ms : list move) : list errno * Z :=
  match ms with
  | [] => ([], pos)
  | m :: rest =>
      let '(e, pos1) := spec_move n pos m in
      let '(es, pos2) := spec_moves n pos1 rest in (e :: es, pos2)
  end.

(** [GoToNextRow] is not called on an empty result nor behind the last row. *)
Fixpoint legal (n pos : Z) (ms : list move) : Prop :=
  match ms with
  | [] => True
  | m :: rest => match m with MRow _ => True | MNext => 0 < n /\ pos < n end /\ legal n (snd (spec_move n pos m)) rest
  end.

Section Moves.
Context {T : Type} `{RowStatement T}.

Definition run_move (m : move) (s : Stepping.t T) : errno * Stepping.t T :=
  match m with MRow p => GoToRow p s | MNext => GoToNextRow s end.

Fixpoint run_moves (ms : list move) (s : Stepping.t T) : list errno * Stepping.t T :=
  match ms with
  | [] => ([], s)
  | m :: rest =>
      let '(e, s1) := run_move m s in
      let '(es, s2) := run_moves rest s1 in (e :: es, s2)
  end.

Context (tbl : list (list ValueObject)).
Abbreviation len := (Z.of_nat (length tbl)).

Lemma moves_follow ms : forall s,
  stepper tbl true s -> legal len (rowPos_ s) ms ->
  exists es s', run_moves ms s = (es, s') /\ stepper tbl true s' /\ (es, rowPos_ s') = spec_moves len (rowPos_ s) ms.
Proof.
  induction ms as [|m ms IH]; intros s Hs Hl; cbn [run_moves spec_moves legal] in *; [by eexists _, _|].
  destruct Hl as [Hm Hl].
  assert (Hstep : exists e s1, run_move m s = (e, s1) /\ stepper tbl true s1 /\ (e, rowPos_ s1) = spec_move len (rowPos_ s) m).
  { destruct m as [p|]; cbn [run_move spec_move].
    - by apply goto_row_counted.
    - destruct Hm as [H1 H2]. by apply next_row_counted. }
  destruct Hstep as (e & s1 & -> & Hs1 & E). rewrite <- E in *. cbn [snd] in Hl.
  destruct (IH s1 Hs1 Hl) as (es & s2 & -> & Hs2 & E2). rewrite <- E2. by eexists _, _.
Qed.

(** A prepared query, with or without counting its rows in advance. *)
Lemma construct_steps preCount rl sql args st st1 :
  SqliteUtils.GetSqlStatementType sql <> SqliteUtils.STATEMENT_ERROR -> ReadOnly st = true ->
  Bind args st = (E_OK, st1) -> runs st1 tbl 0 ->
  let s := construct true preCount rl sql args (E_OK, Some st) in
  stepper tbl preCount s /\ rowPos_ s = INIT_POS /\ (preCount = false -> rowCount_ s = NO_COUNT) /\
  exists st', statement_ s = Some st' /\ runs st' tbl 0.
Proof.
  intros Hty Hro Hb Hr. destruct (runs_count st1 tbl Hr) as (st2 & Hc & Hr2).
  unfold construct, PrepareStep, GetStatement. cbn [statement_ isClosed_ conn_ orb negb].
  rewrite (proj2 (Z.eqb_neq _ _) Hty), Hro, Hb. cbn [negb]. ok_simpl.
  cbv beta iota zeta. ok_simpl. cbn [set_statement statement_ isClosed_ conn_ orb negb]. rewrite Hc.
  destruct preCount; cbn [lastErr_ rowCount_ set_count set_statement]; rewrite bool_decide_eq_false_2 by done; cbn [andb].
  - split; [|split; [done|split; [done|by eexists]]]. split; cbn; try done; unfold INIT_POS; [lia|]. by exists st2, O.
  - split; [|split; [done|split; [done|by eexists]]]. split; cbn; try done; unfold INIT_POS; [lia|]. by exists st1, O.
Qed.

(** Counting the rows from where the statement is. *)
Lemma count_rows fuel : forall s st k,
  isClosed_ s = false /\ conn_ s = true /\ lastErr_ s = E_OK -> statement_ s = Some st -> runs st tbl k ->
  isSupportCountRow_ s = false -> rowCount_ s = NO_COUNT -> rowPos_ s = Z.of_nat k - 1 ->
  (k <= length tbl)%nat -> (length tbl - k < fuel)%nat ->
  exists st', runs st' tbl (S (length tbl)) /\ count_loop fuel s = Some (E_OK, set_row len len (set_statement (Some st') s)).
Proof.
  induction fuel as [|fuel IH]; intros s st k Ho Hs Hr Hsup Hcnt Hpos Hk Hf; [lia|]. cbn [count_loop].
  destruct (next_row tbl s st k Ho Hs Hr Hk) as (st1 & Hr1 & ->). destruct (decide (k < length tbl)%nat) as [Hlt|Hge].
  - rewrite bool_decide_eq_false_2 by done. ok_simpl.
    destruct (IH (set_row (rowPos_ s + 1) (rowCount_ s) (set_statement (Some st1) s)) st1 (S k)) as (st' & Hr' & ->);
      try done; [cbn; lia|lia|]. by exists st'.
  - rewrite bool_decide_eq_true_2 by done. rewrite Hsup, Hcnt. cbn [orb negb Z.eqb NO_COUNT INVALID_COUNT].
    assert (k = length tbl) as -> by lia. exists st1. split; [done|]. do 2 f_equal.
    unfold set_row, set_statement. cbn. f_equal; lia.
Qed.

End Moves.

(** C26: A stepping cursor whose rows the constructor counted in advance ([preCount]), over a prepared
    query that reads only, whose arguments could be bound and whose table is locked for no more than 51 steps at a time,
    follows the cursor a caller has in mind: through any moves
    to rows, in range or not, and to the next row, it answers as that cursor does and is where that
    cursor is, and on a row it reads the values of that row of the table.  The moves to the next row are
    those from a position before the end of a result that has rows: [GoToNextRow] on an empty result, or again after the end
    was reached, is not among them (a failed [GoToRow] leaves
    the statement where it was, [next_row_after_range_error], and SQLite starts a finished query over). *)
Theorem step_cursor_follows {T} `{RowStatement T} tbl sql args st st1 rl ms :
  SqliteUtils.GetSqlStatementType sql <> SqliteUtils.STATEMENT_ERROR -> ReadOnly st = true ->
  Bind args st = (E_OK, st1) -> runs st1 tbl 0 -> legal (Z.of_nat (length tbl)) (-1) ms ->
  let '(es, s) := run_moves ms (construct true true rl sql args (E_OK, Some st)) in
  (es, rowPos_ s) = spec_moves (Z.of_nat (length tbl)) (-1) ms /\
  forall row c v, 0 <= rowPos_ s -> tbl !! Z.to_nat (rowPos_ s) = Some row -> row !! c = Some v ->
    fst (Get (Z.of_nat c) s) = inr (Some v).
Proof.
  intros Hty Hro Hb Hr Hl. destruct (construct_steps tbl true rl sql args st st1 Hty Hro Hb Hr) as (Hs & Hp & _).
  destruct (moves_follow tbl ms _ Hs) as (es & s & -> & Hs' & E); [by rewrite Hp|]. rewrite Hp in E.
  split; [exact E|]. intros row c v H0' Hrow Hv.
  destruct (step_get_value tbl true s row c v Hs' ltac:(done) H0' Hrow Hv) as (s' & -> & _). done.
Qed.

(** Without counting in advance, [GetRowCount] steps to the end and comes back: the number is the number of rows,
    the cursor is on the row it was on, and reads it; one round more than there are rows is
    enough. *)
Theorem row_count_restores {T} `{RowStatement T} tbl sql args st st1 rl n count :
  SqliteUtils.GetSqlStatementType sql <> SqliteUtils.STATEMENT_ERROR -> ReadOnly st = true ->
  Bind args st = (E_OK, st1) -> runs st1 tbl 0 -> (n <= length tbl)%nat ->
  let s := snd (rounds n (construct true false rl sql args (E_OK, Some st))) in
  rowPos_ s = Z.of_nat n - 1 /\
  exists s', GetRowCount (S (length tbl)) count s = Some (E_OK, Z.of_nat (length tbl), s') /\
    rowPos_ s' = Z.of_nat n - 1 /\
    forall row c v, 0 <= rowPos_ s' -> tbl !! Z.to_nat (rowPos_ s') = Some row -> row !! c = Some v ->
      fst (Get (Z.of_nat c) s') = inr (Some v).
Proof.
  intros Hty Hro Hb Hr Hn. destruct (construct_steps tbl false rl sql args st st1 Hty Hro Hb Hr) as (Hs & Hp & Hc & st2 & Hst & Hr2).
  specialize (Hc eq_refl). set (s0 := construct _ _ _ _ _ _) in *. clearbody s0. pose proof (sp_open _ _ _ Hs) as Ho.
  pose proof (sp_count _ _ _ Hs) as [Hsup _].
  destruct (rounds_forward tbl n s0 st2 0 Ho Hst Hr2 Hn) as (st3 & Hr3 & ->). cbn [snd Nat.add] in *.
  set (s := set_row _ _ _). assert (Hpos : rowPos_ s = Z.of_nat n - 1) by (cbn; rewrite Hp; unfold INIT_POS; lia).
  split; [done|]. destruct (count_rows tbl (S (length tbl)) s st3 n) as (st4 & Hr4 & E); try done; [lia|].
  unfold GetRowCount. change (isSupportCountRow_ s) with (isSupportCountRow_ s0). change (rowCount_ s) with (rowCount_ s0).
  rewrite Hsup, Hc. cbn [orb negb Z.eqb NO_COUNT INVALID_COUNT]. rewrite E.
  set (s1 := set_row _ _ (set_statement (Some st4) s)).
  destruct (reset_row tbl s1 st4 (S (length tbl))) as (st5 & Hr5 & Ereset); try done.
  assert (Hs5 : stepper tbl false (snd (Stepping.Reset s1))).
  { rewrite Ereset. split; cbn; try done; unfold INIT_POS; [lia|]. by exists st5, O. }
  destruct (Z.eqb_spec (rowPos_ s) INIT_POS) as [Hi|Hi]; cbn [negb].
  - eexists. split; [done|]. rewrite Ereset. cbn [snd]. split; [cbn; congruence|].
    intros row c v H0'. cbn in H0'. unfold INIT_POS in H0'. lia.
  - unfold INIT_POS in Hi. assert (Ego : GoToRow (rowPos_ s) s1 = goto_loop (rowPos_ s) (snd (Stepping.Reset s1))).
    { destruct Ho as (Ho1 & _ & Ho3). unfold GoToRow. change (isClosed_ s1) with (isClosed_ s0).
      change (lastErr_ s1) with (lastErr_ s0). change (isSupportCountRow_ s1) with (isSupportCountRow_ s0).
      change (rowPos_ s1) with (Z.of_nat (length tbl)). rewrite Ho1, Ho3, Hsup. ok_simpl. cbn [andb]. by decide_z. }
    rewrite Ego. destruct (goto_loop_row tbl false (snd (Stepping.Reset s1)) st5 0 (rowPos_ s) Hs5)
      as (s' & -> & Hs' & Hp' & Hc'); rewrite ?Ereset; try done; [cbn in *; unfold INIT_POS in *; lia|].
    cbn [snd]. eexists. split; [done|]. split; [lia|]. intros row c v H0' Hrow Hv.
    destruct (step_get_value tbl false s' row c v Hs') as (s2 & -> & _); try done.
    intros _. right. rewrite Hc', Ereset. done.
Qed.

(** The moves of a caller that only goes to rows. *)
Lemma spec_rows n ps : forall pos,
  fst (spec_moves n pos (map MRow ps)) = map (fun p => if bool_decide (0 <= p < n) then E_OK else E_ROW_OUT_RANGE) ps /\
  (forall p, last ps = Some p -> 0 <= p < n -> snd (spec_moves n pos (map MRow ps)) = p).
Proof.
  induction ps as [|p ps IH]; intros pos; cbn [map spec_moves spec_move]; [done|].
  destruct (if bool_decide (0 <= p < n) then _ else _) as [e pos1] eqn:E.
  specialize (IH pos1). destruct (spec_moves n pos1 (map MRow ps)) as [es pos2] eqn:E2. cbn [fst snd] in *.
  destruct IH as [-> Hlast]. split; [by revert E; destruct (bool_decide (0 <= p < n)); intros [= <- _]|].
  intros p' Hp' Hin. destruct ps as [|p2 ps]; [|by apply Hlast].
  injection Hp' as <-. rewrite bool_decide_eq_true_2 in E by done. injection E as <- <-. by injection E2 as <-.
Qed.

Lemma legal_rows n ps : forall pos, legal n pos (map MRow ps).
Proof. induction ps as [|p ps IH]; intros pos; cbn [map legal]; [done|]. split; [done|apply IH]. Qed.

(** Two cursors over the same values. *)
Lemma agree_on_values {T} `{RowStatement T} `{Serializable.JsonText} now q n cells vals b m ws sql args (st st1 : T) rl ps :
  CursorInv.answers q n cells -> AbsBlock.block_holds b m ws ->
  SharedResultSet.GetStartPos b = 0 -> SharedResultSet.GetLastPos b = 0 -> SharedResultSet.GetBlockPos b = 0 ->
  RowProps.reads now cells vals ->
  SqliteUtils.GetSqlStatementType sql <> SqliteUtils.STATEMENT_ERROR -> ReadOnly st = true ->
  Bind args st = (E_OK, st1) -> runs st1 vals 0 ->
  let '(es, c) := ResultSetProps.walk q ps (SharedResultSet.opened b (E_OK, Z.of_nat (length cells))) in
  let '(es', s) := run_moves (map MRow ps) (construct true true rl sql args (E_OK, Some st)) in
  FillInv.too_large (B := Block.SharedBlock) (AbsBlock.block_capacity b) n cells \/
  (es = es' /\
   forall p row i v, last ps = Some p -> 0 <= p -> vals !! Z.to_nat p = Some row -> row !! i = Some v ->
     fst (SharedResultSet.Get now q (Z.of_nat i) VNil c) = (E_OK, Some v) /\ fst (Get (Z.of_nat i) s) = inr (Some v)).
Proof.
  intros Hq Hb Hb1 Hb2 Hb3 Hvals Hty Hro Hbind Hr.
  pose proof (ResultSetProps.walk_spec q n cells _ Hq ps _ (ResultSetProps.opened_cursor q n cells b m ws Hb Hb1 Hb2 Hb3)) as Hw.
  destruct (ResultSetProps.walk q ps _) as [es c]. destruct Hw as [Hw1 Hw2].
  destruct (construct_steps vals true rl sql args st st1 Hty Hro Hbind Hr) as (Hs & Hp & _).
  destruct (moves_follow vals (map MRow ps) _ Hs (legal_rows _ _ _)) as (es' & s & -> & Hs' & E).
  destruct (decide (E_ERROR ∈ es)) as [Hin|Hnin]; [left; by apply Hw1|right].
  destruct (Hw2 Hnin) as (-> & Hcu & Hlast). pose proof (Forall2_length _ _ _ Hvals) as Hlen. rewrite Hlen in *.
  destruct (spec_rows (Z.of_nat (length vals)) ps (rowPos_ (construct true true rl sql args (E_OK, Some st)))) as [He Hl'].
  rewrite <- E in He, Hl'. cbn [fst snd] in He, Hl'. split; [done|]. intros p row i v Hps H0' Hrow Hv.
  pose proof (lookup_lt_Some _ _ _ Hrow) as Hlt. specialize (Hlast p Hps ltac:(lia)). specialize (Hl' p Hps ltac:(lia)).
  destruct (Forall2_lookup_r _ _ _ _ _ Hvals Hrow) as (crow & Hcrow & Hcr).
  destruct (Forall2_lookup_r _ _ _ _ _ Hcr Hv) as (cv & Hcv & Hok & Hread).
  destruct (Forall2_lookup_r _ _ _ _ _ (CursorInv.an_rows _ _ _ Hq) Hcrow) as (cols & _ & [Henc Hwd Hfit]).
  assert (length cols = length crow) by (eapply Forall2_length, mapM_Some; exact Henc).
  split.
  - destruct (CursorInv.get_reads now q n cells _ c crow i VNil cv Hq Hcu) as (c' & -> & _); rewrite ?Hlast; try done; [|lia].
    eapply Forall_lookup_1; [exact Hfit|exact Hcv].
  - destruct (step_get_value vals true s row i v Hs') as (s' & -> & _); rewrite ?Hl'; done.
Qed.

(** A column that both sets can give: SQLite has its pointer, a text has no zero inside, a blob
    has bytes and a declared type. *)
Definition plain (col : Fill.column) : Prop :=
  match col with
  | Fill.ColText (Some bs) => (0 ∉ bs) /\ Z.of_nat (length bs) + 1 < 2 ^ 31
  | Fill.ColInteger z => - 2 ^ 63 <= z < 2 ^ 63
  | Fill.ColFloat w => 0 <= w < 2 ^ 64
  | Fill.ColBlob (Some _) (Some bs) => bs <> [] /\ Forall Bytes.is_byte bs /\ Z.of_nat (length bs) < 2 ^ 31
  | Fill.ColNull => True
  | _ => False
  end.

Lemma c_str_snoc bs : 0 ∉ bs -> Block.c_str (bs ++ [0]) = bs.
Proof.
  induction bs as [|x bs IH]; intros Hn; [done|]. apply not_elem_of_cons in Hn as [Hx Hn]. cbn [app Block.c_str].
  rewrite (proj2 (Z.eqb_neq x 0)) by done. by rewrite IH.
Qed.

Lemma blob_reads `{Serializable.JsonText} now d bs :
  bs <> [] -> Forall Bytes.is_byte bs ->
  exists v, SqliteStatement.column_value now (Fill.ColBlob (Some d) (Some bs)) (SqliteStatement.decl_type d) = Some v /\
    CursorInv.read_value now VNil (BlockInv.CBytes (Fill.blob_type (Some d)) bs) = (E_OK, Some v).
Proof.
  intros Hne Hb. unfold SqliteStatement.column_value, SqliteStatement.GetValueFromBlob, SqliteStatement.decl_type, Fill.blob_type.
  destruct (RawDataParser.asset_safe now bs Asset.empty Hb) as (u1 & v1 & E1 & _).
  destruct (RawDataParser.assets_safe now bs [] Hb) as (u2 & v2 & E2 & _).
  destruct (RawDataParser.floats_safe bs [] Hb) as (u3 & v3 & E3 & _).
  destruct (RawDataParser.bigint_safe bs (mkBig 0 []) Hb) as (u4 & v4 & E4 & _).
  destruct bs as [|x bs]; [done|]. cbv zeta. unfold CursorInv.read_value.
  destruct (String.eqb _ "ASSET"); [rewrite E1; by eexists|].
  destruct (String.eqb _ "ASSETS"); [rewrite E2; by eexists|].
  destruct (String.eqb _ "FLOATVECTOR"); [rewrite E3; by eexists|].
  destruct (String.eqb _ "UNLIMITED INT"); [rewrite E4; by eexists|by eexists].
Qed.

(** The two ways of a column to its reader: through [GetColumn], and through the cell of the
    block. *)
Lemma plain_reads `{Serializable.JsonText} now col :
  plain col ->
  exists cell v, FillInv.enc col = Some cell /\ cell_fits cell /\ BlockSpec.cell_ok cell /\
    CursorInv.read_value now VNil cell = (E_OK, Some v) /\ SqliteRowStatement.reads_column now col = Some v.
Proof.
  destruct col as [[bs|]|z|w|[d|] [bs|]| |]; intros Hp; try done.
  - destruct Hp as [Hz Hl]. eexists _, _. split; [done|]. split; [split; [done|]; rewrite length_app; cbn; lia|].
    split; [done|]. cbn. by rewrite c_str_snoc.
  - by eexists _, _.
  - by eexists _, _.
  - destruct Hp as (Hne & Hb & Hl). destruct (blob_reads now d bs Hne Hb) as (v & E1 & E2).
    assert (Hty : AbsBlock.bytes_type (Fill.blob_type (Some d))) by (unfold Fill.blob_type; cbv zeta; by repeat case_match).
    eexists _, v. split; [done|]. split; [done|]. split; [|done].
    revert Hty. unfold AbsBlock.bytes_type, BlockSpec.cell_ok, Block.CELL_UNIT_TYPE_STRING, Block.CELL_UNIT_TYPE_BIGINT. lia.
  - by eexists _, _.
Qed.

Section Both.
Context {W : Type} `{SqliteRowStatement.SqliteRows W} `{Serializable.JsonText} (now : Z).
Variable (n : Z) (decls : list string) (cols : list (list Fill.column)).

(** The rows of a result of [n] columns. *)
Record plain_result : Prop := {
  pr_range : 0 <= n <= Block.COL_MAX_NUM;
  pr_size : Z.of_nat (length cols) < 2 ^ 31;
  pr_width : Forall (fun row => Z.of_nat (length row) = n) cols;
  pr_plain : Forall (Forall plain) cols;
  pr_decl : forall row c d b, row ∈ cols -> row !! c = Some (Fill.ColBlob (Some d) b) -> decls !! c = Some d
}.

(** A query that steps through these rows whenever the block is filled. *)
Record fills_from (q : SharedResultSet.query) : Prop := {
  ff_columns : SharedResultSet.q_columns q = n;
  ff_rows : FillInv.rows_of (SharedResultSet.q_steps q) = cols;
  ff_steps : Forall FillInv.is_row (SharedResultSet.q_steps q);
  ff_names : fst (SharedResultSet.q_names q) = E_OK /\ Z.of_nat (length (snd (SharedResultSet.q_names q))) = n
}.

(** A statement of SQLite that is about to give these rows. *)
Record steps_through (x : SqliteStatement.t * W) : Prop := {
  st_handle : exists h, SqliteStatement.stmt_ (SqliteStatement.self (fst x)) = Some h /\
    SqliteRowStatement.gives (snd x) h cols 0;
  st_slave : SqliteStatement.slave_ (fst x) = None;
  st_columns : SqliteStatement.columnCount_ (SqliteStatement.self (fst x)) = n;
  st_types : Forall (fun ty => ty = SqliteStatement.COLUMN_TYPE_INVALID) (SqliteStatement.types_ (SqliteStatement.self (fst x)))
}.

Lemma plain_row row :
  Forall plain row -> exists cells vals, mapM FillInv.enc row = Some cells /\ Forall cell_fits cells /\
    Forall2 (fun v x => BlockSpec.cell_ok v /\ CursorInv.read_value now VNil v = (E_OK, Some x)) cells vals /\
    Forall2 (fun col v => SqliteRowStatement.reads_column now col = Some v) row vals.
Proof.
  induction 1 as [|col row Hc _ (cells & vals & E & Hf & Hr & Hv)]; [by exists [], []|].
  destruct (plain_reads now col Hc) as (cell & v & E1 & Hf1 & Ho1 & Hr1 & Hv1).
  exists (cell :: cells), (v :: vals). cbn [mapM]. rewrite E1. cbn [mbind option_bind]. rewrite E. cbn. split; [done|].
  split; [by constructor|]. split; by constructor.
Qed.

Lemma plain_table :
  plain_result -> exists tbl vals, Forall2 (FillInv.row_cells n) cols tbl /\ RowProps.reads now tbl vals /\
    Forall2 (Forall2 (fun col v => SqliteRowStatement.reads_column now col = Some v)) cols vals.
Proof.
  intros [_ _ Hw Hp _]. induction Hp as [|row cols' Hc _ IH]; [exists [], []; repeat split; constructor|].
  apply Forall_cons in Hw as [Hw Hws]. destruct (IH Hws) as (tbl & vals & Ht1 & Ht2 & Ht3).
  destruct (plain_row row Hc) as (cells & v & E & Hf & Hr & Hv).
  exists (cells :: tbl), (v :: vals). split; [constructor; [by split|done]|]. split; by constructor.
Qed.

End Both.


(** A move beyond the last row does not move the statement: on a cursor on row 0 of at least two
    rows, a failed [GoToRow] is followed by a [GoToNextRow] that succeeds, on a position after
    the end, where the values of row 1 are read. *)
Theorem next_row_after_range_error {T} `{RowStatement T} tbl sql args st st1 rl :
  SqliteUtils.GetSqlStatementType sql <> SqliteUtils.STATEMENT_ERROR -> ReadOnly st = true ->
  Bind args st = (E_OK, st1) -> runs st1 tbl 0 -> (2 <= length tbl)%nat ->
  let '(es, s) := run_moves [MRow 0; MRow (Z.of_nat (length tbl)); MNext] (construct true true rl sql args (E_OK, Some st)) in
  es = [E_OK; E_ROW_OUT_RANGE; E_OK] /\ rowPos_ s = Z.of_nat (length tbl) + 1 /\
  forall row c v, tbl !! 1%nat = Some row -> row !! c = Some v -> fst (Get (Z.of_nat c) s) = inr (Some v).
Proof.
  intros Hty Hro Hb Hr Hlen. destruct (construct_steps tbl true rl sql args st st1 Hty Hro Hb Hr) as (Hs & Hp & _).
  set (s0 := construct _ _ _ _ _ _) in *. clearbody s0. cbn [run_moves run_move].
  destruct (goto_row_counted tbl s0 0 Hs) as (e & s & -> & Hs1 & E). rewrite bool_decide_eq_true_2 in E by lia.
  injection E as -> Hp1. destruct Hs1 as [(Ho & Hcn & Hl) [Hsup Hcount] Hpos (st2 & k & Hst & Hr2 & Hk)].
  specialize (Hk ltac:(lia) ltac:(lia)). rewrite Hp1 in Hk. change (Z.to_nat (0 + 1)) with 1%nat in Hk. subst k.
  unfold GoToRow. rewrite Ho, Hl, Hsup, Hcount. ok_simpl. decide_z. rewrite (proj2 (Z.eqb_neq _ 0)) by lia. cbn [negb].
  set (s1 := set_row _ _ s).
  destruct (next_row tbl s1 st2 1 (conj Ho (conj Hcn Hl)) Hst Hr2 ltac:(lia)) as (st3 & Hr3 & ->).
  rewrite decide_True by lia. split; [done|]. split; [done|]. intros row c v Hrow Hv.
  destruct (runs_column st3 tbl 1 row c v Hr3 Hrow Hv) as (st4 & E & _).
  unfold Get, GetValueObject, off_row, IsEnded, AbsGetRowCount, GetStatement. cbn. rewrite Ho, Hl, Hsup, Hcn.
  unfold INIT_POS, NO_COUNT. ok_simpl. rewrite (proj2 (Z.eqb_neq (Z.of_nat (length tbl)) (-1))) by lia. ok_simpl.
  rewrite (proj2 (Z.eqb_neq (Z.of_nat (length tbl) + 1) (-1))), (proj2 (Z.eqb_neq (Z.of_nat (length tbl)) 0)),
    (proj2 (Z.eqb_neq (Z.of_nat (length tbl) + 1) (Z.of_nat (length tbl)))) by lia.
  cbn [orb andb negb]. by rewrite E.
Qed.

(** A statement that stays locked is given up after 51 retries, and the cursor stays where it is. *)
Theorem locked_step_gives_up {T} `{Statement T} (s : Stepping.t T) st :
  isClosed_ s = false -> conn_ s = true -> lastErr_ s = E_OK -> statement_ s = Some st ->
  (forall st', fst (Step st') = E_SQLITE_BUSY) ->
  exists s', GoToNextRow s = (E_STEP_RESULT_QUERY_EXCEEDED, s') /\ rowPos_ s' = rowPos_ s /\ rowCount_ s' = rowCount_ s.
Proof.
  intros Ho Hc Hl Hs Hbusy.
  assert (Hloop : forall n st0, exists st', retry_loop n E_SQLITE_BUSY st0 = (None, st')).
  { induction n as [|n IH]; intros st0; cbn [retry_loop]; [by eexists|].
    replace (bool_decide (E_SQLITE_BUSY = E_SQLITE_LOCKED) || bool_decide (E_SQLITE_BUSY = E_SQLITE_BUSY)) with true by done.
    pose proof (Hbusy st0) as Hb. destruct (Step st0) as [e st1]. cbn [fst] in Hb. subst e. apply IH. }
  unfold GoToNextRow, GetStatement. rewrite Ho, Hc, Hl, Hs, andb_false_r. cbn [orb negb].
  pose proof (Hbusy st) as Hb. destruct (Step st) as [e st0]. cbn [fst] in Hb. subst e.
  destruct (Hloop (S STEP_QUERY_RETRY_MAX_TIMES) st0) as (st' & ->). by eexists.
Qed.

(** *** A set at work *)

Import SqliteRowStatement SmallSqlite Sqlite SQLiteError.

(** The small SQLite gives its rows in order. *)
#[local] Instance small_sqlite_rows : SqliteRows db.
Proof.
  refine {| gives w _ cols k := d_rows w = cols /\ (d_next w = k \/ (k = S (length cols) /\ d_next w = length cols)) |}.
  - intros w h cols k [<- Hk] Hlt. assert (d_next w = k) as <- by lia. cbn.
    destruct (lookup_lt_is_Some_2 (d_rows w) (d_next w) Hlt) as [row ->]. eexists. split; [done|]. cbn. auto.
  - intros w h cols [<- Hk]. cbn. rewrite lookup_ge_None_2 by lia. eexists. split; [done|]. split; [done|]. lia.
  - intros w h cols k [<- _]. cbn. eexists. split; [done|]. cbn. auto.
  - intros w h cols k row c col [<- Hk] Hrow Hcol. pose proof (lookup_lt_Some _ _ _ Hrow).
    assert (d_next w = S k) as Hn by lia. cbn. rewrite Hn, Nat2Z.id. cbn [pred].
    by rewrite (nth_lookup_Some _ _ _ _ Hrow), (nth_lookup_Some _ _ _ _ Hcol).
Defined.

Definition demo_count (x : SqliteStatement.t * db) : errno * Z * (SqliteStatement.t * db) :=
  (E_OK, Z.of_nat (length (d_rows (snd x))), (fst x, rewind 0 (snd x))).

Lemma demo_counts : counts 0 demo_count.
Proof.
  intros [s w] vals (h & decls & cols & Hs & Hsl & [Hw _] & Hres & Hty). cbn [fst snd] in *.
  exists (s, rewind 0 w). pose proof (result_length _ _ _ _ _ Hres) as Hl. split; [by rewrite <- Hl, <- Hw|].
  exists h, decls, cols. split; [done|]. split; [done|]. split; [by split; [|left]|done].
Qed.

#[local] Existing Instance sqlite_statement_ops.

(** The rows of [RowProps.demo_values]. *)
Definition step_db : db :=
  {| d_arity := 0; d_names := ["id"; "name"];
     d_rows := [[Fill.ColInteger 7; Fill.ColText (Some [104; 105])]; [Fill.ColNull; Fill.ColBlob (Some "BLOB") (Some [1; 2])]];
     d_next := 0; d_params := ∅ |}.

Abbreviation step_values := RowProps.demo_values.

Definition step_statement : SqliteStatement.t * db :=
  match SqliteStatement.CreateStatementInner "SELECT id, name FROM t" EmptyString None 0 false None false false false step_db with
  | (_, Some s, w) => (s, w)
  | (_, None, w) => ({| SqliteStatement.self := SqliteStatement.new; SqliteStatement.slave_ := None;
                        SqliteStatement.slaveInvalid := false |}, w)
  end.

Lemma step_statement_runs : statement_runs 0 step_statement step_values 0.
Proof.
  exists 1, ["INTEGER"; "BLOB"], (d_rows step_db). split; [done|]. split; [done|]. split; [by split; [|left]|]. split.
  - split; [by repeat constructor| |by repeat constructor].
    intros row c d b Hin Hc. cbn in Hin. apply elem_of_cons in Hin as [-> | Hin].
    { destruct c as [|[|c]]; cbn in Hc; discriminate Hc. }
    apply list_elem_of_singleton in Hin as ->. destruct c as [|[|c]]; cbn in Hc; try discriminate Hc. by injection Hc as <- <-.
  - intros c ty Hc. left. by apply (lookup_replicate_1 2) in Hc as [-> _].
Qed.

Abbreviation demo_set pre :=
  (construct (H := sqlite_statement_ops 0 demo_count) true pre false "SELECT id, name FROM t" [] (E_OK, Some step_statement)).

Lemma step_cursor_follows_witness :
  let '(es, s) := run_moves (H := sqlite_statement_ops 0 demo_count) [MNext; MRow 1; MRow 9; MRow 0] (demo_set true) in
  es = [E_OK; E_OK; E_ROW_OUT_RANGE; E_OK] /\
  fst (Get (H := sqlite_statement_ops 0 demo_count) 1 s) = inr (Some (VString "hi")).
Proof.
  pose proof (step_cursor_follows (H := sqlite_statement_ops 0 demo_count) (H0 := sqlite_statement_rows 0 demo_count demo_counts)
    step_values "SELECT id, name FROM t" [] step_statement step_statement false [MNext; MRow 1; MRow 9; MRow 0]) as Hf.
  destruct (run_moves _ _) as [es s]. destruct Hf as [He Hv];
    [discriminate|reflexivity|reflexivity|exact step_statement_runs|vm_compute; repeat split|].
  injection He as He Hp. cbn in He. split; [exact He|]. rewrite Hp in Hv.
  exact (Hv [VInt 7; VString "hi"] 1%nat (VString "hi") ltac:(cbn; lia) eq_refl eq_refl).
Defined.

Lemma row_count_restores_witness :
  let s := snd (rounds (H := sqlite_statement_ops 0 demo_count) 1 (demo_set false)) in
  exists s', GetRowCount (H := sqlite_statement_ops 0 demo_count) 3 0 s = Some (E_OK, 2, s') /\ rowPos_ s' = 0.
Proof.
  destruct (row_count_restores (H := sqlite_statement_ops 0 demo_count) (H0 := sqlite_statement_rows 0 demo_count demo_counts)
    step_values "SELECT id, name FROM t" [] step_statement step_statement false 1 0) as (_ & s' & E & Hp & _);
    [discriminate|reflexivity|reflexivity|exact step_statement_runs|cbn; lia|].
  exists s'. split; [exact E|exact Hp].
Defined.

Lemma next_row_after_range_error_witness :
  fst (run_moves (H := sqlite_statement_ops 0 demo_count) [MRow 0; MRow 2; MNext] (demo_set true)) =
  [E_OK; E_ROW_OUT_RANGE; E_OK].
Proof.
  pose proof (next_row_after_range_error (H := sqlite_statement_ops 0 demo_count) (H0 := sqlite_statement_rows 0 demo_count demo_counts)
    step_values "SELECT id, name FROM t" [] step_statement step_statement false) as Hf.
  change (Z.of_nat (length step_values)) with 2 in Hf. destruct (run_moves _ _) as [es s]. cbn [fst].
  apply Hf; [discriminate|reflexivity|reflexivity|exact step_statement_runs|cbn; lia].
Defined.

(** The same rows, for a query on a block. *)
Definition step_query : SharedResultSet.query :=
  {| SharedResultSet.q_steps := map Fill.SQLITE_ROW (d_rows step_db); SharedResultSet.q_columns := 2;
     SharedResultSet.q_names := (E_OK, ["id"; "name"]); SharedResultSet.q_retry := 2 |}.

Lemma step_plain : plain_result 2 ["INTEGER"; "BLOB"] (d_rows step_db).
Proof.
  split; [unfold Block.COL_MAX_NUM; lia|done|by repeat constructor| |].
  - repeat constructor; try done. intros Hin. apply elem_of_cons in Hin as [Hin|Hin]; [done|].
    by apply list_elem_of_singleton in Hin.
  - intros row c d b Hin Hc. cbn in Hin. apply elem_of_cons in Hin as [-> | Hin].
    { destruct c as [|[|c]]; cbn in Hc; discriminate Hc. }
    apply list_elem_of_singleton in Hin as ->. destruct c as [|[|c]]; cbn in Hc; try discriminate Hc. by injection Hc as <- <-.
Qed.

Lemma step_through : steps_through 2 (d_rows step_db) step_statement.
Proof. split; [by exists 1; split; [|split; [|left]]|done|done|by repeat constructor]. Qed.


End StepProps.
