(* ===== verification/Transactions.v ===== *)
(** * Transactions

    [Conn]: the connection and its statements as a transaction uses them
    (frameworks/native/rdb/include/connection.h and statement.h), a class of operations on the
    connection's state, and [Transactional], what SQLite promises about transactions.
    [TransDB]: frameworks/native/rdb/src/trans_db.cpp, the operations on the data.
    [TransactionImpl]: frameworks/native/rdb/src/transaction_impl.cpp with the base class
    transaction.cpp, the life of a transaction.
    [TransactionProps]: the claims.

    One thread at a time: each member function runs under the object's mutex. *)
From Stdlib Require Import ZArith Lia Ascii.
From stdpp Require Import base gmap list strings.
From S2P Require Import Prelude CppStd Errno Values StringUtils Predicates SqlBuilder SharedBlock FillBlock ResultSet.

Local Open Scope Z_scope.

Module Conn.

(** Running statements; a missing value is a null one. *)
Class Statements (C : Type) := {
  stmt : Type;
  Prepare : string -> stmt -> C -> errno * stmt * C;
  Reset : stmt -> C -> errno * stmt * C;
  Execute : list ValueObject -> stmt -> C -> errno * stmt * C;
  ExecuteForValue : list ValueObject -> stmt -> C -> errno * ValueObject * stmt * C;
  ExecuteForRows : list ValueObject -> Z -> stmt -> C -> errno * list Bucket.ValuesBucket * stmt * C;
  Changes : stmt -> C -> Z;
  LastInsertRowId : stmt -> C -> Z;
  GetColumnCount : stmt -> Z;
  GetColumn : Z -> stmt -> C -> errno * ValueObject
}.

(** Creating them. *)
Class Connection (C : Type) `{Statements C} := {
  GetMaxVariable : C -> Z;
  CreateStatement : string -> string -> C -> errno * option stmt * C
}.

(** Statements on the data: neither transaction control nor anything the code does not know. *)
Definition plain_sql (sql : string) : bool :=
  let ty := SqliteUtils.GetSqlStatementType sql in SqliteUtils.IsSupportSqlForExecute ty || SqliteUtils.IsSqlReadOnly ty.

(** Names of savepoints that need no quotes and have no other spelling. *)
Definition name_char (c : ascii) : bool :=
  let n := N_of_ascii c in ((65 <=? n) && (n <=? 90) || (48 <=? n) && (n <=? 57) || (n =? 95))%N.

Fixpoint savepoint_name (s : string) : bool :=
  match s with EmptyString => true | String c s' => name_char c && savepoint_name s' end.

(** [contents c] is the data the connection sees.  [frames c] are the transaction and the
    savepoints that are open, the innermost first, each with its name (none for BEGIN) and the data
    at its beginning.  [text s] is the text of a statement of this connection, and nothing for a
    statement of another one.  Preparing changes nothing.  A statement on the data leaves what is
    open, or SQLite has given the transaction up after an error.  BEGIN succeeds only outside of a
    transaction, COMMIT and ROLLBACK only inside; ROLLBACK TO goes back to the innermost savepoint
    of the name and leaves it open. *)
Class Transactional (C : Type) `{Connection C} := {
  data : Type;
  contents : C -> data;
  frames : C -> list (option string * data);
  text : stmt -> option string;
  create_law sql ret c e os c' : CreateStatement sql ret c = (e, os, c') ->
    contents c' = contents c /\ frames c' = frames c /\
    (e = E_OK -> os <> None) /\ (forall s, os = Some s -> text s = Some (sql +:+ ret));
  prepare_law old sql s c e s' c' : text s = Some old -> Prepare sql s c = (e, s', c') ->
    contents c' = contents c /\ frames c' = frames c /\ (text s' = Some sql \/ text s' = Some old);
  reset_law sql s c e s' c' : text s = Some sql -> Reset s c = (e, s', c') ->
    contents c' = contents c /\ frames c' = frames c /\ text s' = Some sql;
  execute_law sql args s c e s' c' : text s = Some sql -> Execute args s c = (e, s', c') ->
    text s' = Some sql /\ (plain_sql sql = true -> frames c' = frames c \/ frames c' = []);
  value_law sql args s c e v s' c' : text s = Some sql -> ExecuteForValue args s c = (e, v, s', c') ->
    plain_sql sql = true -> frames c' = frames c \/ frames c' = [];
  rows_law sql args n s c e rs s' c' : text s = Some sql -> ExecuteForRows args n s c = (e, rs, s', c') ->
    plain_sql sql = true -> text s' = Some sql /\ (frames c' = frames c \/ frames c' = []);
  begin_law sql s c s' c' : text s = Some sql -> Execute [] s c = (E_OK, s', c') ->
    sql ∈ ["BEGIN DEFERRED;"; "BEGIN IMMEDIATE;"; "BEGIN EXCLUSIVE;"] ->
    frames c = [] /\ frames c' = [(None, contents c)] /\ contents c' = contents c;
  commit_law s c s' c' : text s = Some "COMMIT;" -> Execute [] s c = (E_OK, s', c') ->
    frames c <> [] /\ frames c' = [] /\ contents c' = contents c;
  rollback_law s c s' c' : text s = Some "ROLLBACK;" -> Execute [] s c = (E_OK, s', c') ->
    frames c' = [] /\ exists name, last (frames c) = Some (name, contents c');
  savepoint_law name s c s' c' : text s = Some ("SAVEPOINT " +:+ name +:+ ";") -> savepoint_name name = true ->
    Execute [] s c = (E_OK, s', c') -> frames c' = (Some name, contents c) :: frames c /\ contents c' = contents c;
  rollback_to_law name s c s' c' : text s = Some ("ROLLBACK TO " +:+ name +:+ ";") -> savepoint_name name = true ->
    Execute [] s c = (E_OK, s', c') ->
    exists inner outer, frames c = inner ++ (Some name, contents c') :: outer /\
      (Some name ∉ map fst inner) /\ frames c' = (Some name, contents c') :: outer
}.

End Conn.

Module TransDB.
Import Conn.

Record ReturningConfig := { columns : list string; maxReturningCount : Z; defaultRowIndex : Z }.

Definition DEFAULT_RETURNING_COUNT : Z := 1024.
Definition FIRST_ROW_INDEX : Z := 0.

(** The configuration [{}]. *)
Definition no_returning : ReturningConfig :=
  {| columns := []; maxReturningCount := DEFAULT_RETURNING_COUNT; defaultRowIndex := FIRST_ROW_INDEX |}.

(** [Results]: [None] is no result set. *)
Record Results := { changed : Z; results : option CacheResultSet.t }.

Definition failed_results : Results := {| changed := -1; results := None |}.

Record t := { maxArgs_ : Z; vSchema_ : Z }.

Section Db.
Context {C : Type} `{Connection C}.

(** The constructor. *)
Definition new (c : C) : t := {| maxArgs_ := GetMaxVariable c; vSchema_ := 0 |}.

Definition GetStatement (sql returningSql : string) (c : C) : errno * option stmt * C := CreateStatement sql returningSql c.

(** [Insert]: the row with the statuses it set, the code and the row id. *)
Definition Insert (table : string) (row : Bucket.ValuesBucket) (resolution : Z) (c : C)
    : Bucket.ValuesBucket * (errno * Z) * C :=
  match SqliteUtils.GetConflictClause resolution with
  | None => (row, (E_INVALID_ARGS, -1), c)
  | Some conflictClause =>
      if Str.empty table || Bucket.IsEmpty row then (row, (E_INVALID_ARGS, -1), c)
      else
        let sql := "INSERT" +:+ conflictClause +:+ " INTO " +:+ table +:+ "(" in
        match RdbSqlUtils.insert_loop row resolution EmptyString sql [] with
        | (row', None) => (row', (E_INVALID_ARGS, -1), c)
        | (row', Some (sql, args)) =>
            let marks := match args with [] => EmptyString | _ => default EmptyString (SqliteSqlBuilder.GetSqlArgs (length args)) end in
            match GetStatement (sql +:+ ") VALUES (" +:+ marks +:+ ")") EmptyString c with
            | (errCode, None, c1) => (row', (errCode, -1), c1)
            | (_, Some st, c1) =>
                let '(errCode, st1, c2) := Execute args st c1 in
                if negb (is_ok errCode) then (row', (errCode, -1), c2)
                else (row', (errCode, if 0 <? Changes st1 c2 then LastInsertRowId st1 c2 else -1), c2)
            end
        end
  end.

(** One statement of a batch, with each of its argument lists. *)
Fixpoint execute_all (st : stmt) (batchArgs : list (list ValueObject)) (c : C) : errno * C :=
  match batchArgs with
  | [] => (E_OK, c)
  | args :: rest =>
      let '(errCode, st1, c1) := Execute args st c in
      if is_ok errCode then execute_all st1 rest c1 else (errCode, c1)
  end.

(** The statements of a batch, up to the first that fails. *)
Fixpoint batch_loop (batchInfo : list (string * list (list ValueObject))) (c : C) : errno * C :=
  match batchInfo with
  | [] => (E_OK, c)
  | (sql, batchArgs) :: rest =>
      match GetStatement sql EmptyString c with
      | (errCode, None, c1) => (errCode, c1)
      | (_, Some st, c1) =>
          let '(errCode, c2) := execute_all st batchArgs c1 in
          if is_ok errCode then batch_loop rest c2 else (errCode, c2)
      end
  end.

(** The statements [GenerateSqls] makes, their arguments read from the store of values. *)
Definition batch_of (table : string) (rows : Buckets.ValuesBuckets) (maxArgs : Z) (resolution : nat)
    : list (string * list (list ValueObject)) :=
  let '(h, sqls) := SqliteSqlBuilder.GenerateSqls table rows maxArgs resolution in
  let arg (p : option nat) := match p with Some a => Buckets.deref h a | None => VNil end in
  map (fun '(sql, argss) => (sql, map (map arg) argss)) (default [] sqls).

(** [BatchInsert(table, rows)], with the default resolution of [GenerateSqls]. *)
Definition BatchInsert (table : string) (rows : Buckets.ValuesBuckets) (d : t) (c : C) : (errno * Z) * C :=
  if (Buckets.RowSize rows =? 0)%nat then ((E_OK, 0), c)
  else
    let batchInfo := batch_of table rows (maxArgs_ d) (Z.to_nat RdbSqlUtils.ON_CONFLICT_REPLACE) in
    if Str.empty table || bool_decide (batchInfo = []) then ((E_INVALID_ARGS, -1), c)
    else
      let '(errCode, c1) := batch_loop batchInfo c in
      if is_ok errCode then ((E_OK, Z.of_nat (Buckets.RowSize rows)), c1) else ((errCode, -1), c1).

(** [GenerateResult], for a statement that is there. *)
Definition GenerateResult (code : errno) (st : stmt) (c : C) (returningValues : list Bucket.ValuesBucket)
    (isDML : bool) (rowIndex : Z) : errno * Results :=
  let r0 := {| changed := -1; results := None |} in
  let r1 :=
    if is_ok code
    then {| changed := if isDML then Changes st c else 0; results := Some (CacheResultSet.of_rows returningValues rowIndex) |}
    else r0 in
  let r2 := if bool_decide (code = E_SQLITE_CONSTRAINT) then {| changed := Changes st c; results := results r1 |} else r1 in
  let r3 := if isDML && (changed r2 <=? 0) then {| changed := changed r2; results := Some CacheResultSet.new |} else r2 in
  (code, r3).

(** [BatchInsert(table, rows, config, resolution)]: one statement, or nothing is done. *)
Definition BatchInsertReturning (table : string) (rows : Buckets.ValuesBuckets) (config : ReturningConfig)
    (resolution : nat) (d : t) (c : C) : (errno * Results) * C :=
  if (Buckets.RowSize rows =? 0)%nat then ((E_OK, {| changed := 0; results := None |}), c)
  else
    match batch_of table rows (maxArgs_ d) resolution with
    | [(sql, [bindArgs])] =>
        match GetStatement sql (SqliteSqlBuilder.GetReturningSql (columns config)) c with
        | (errCode, None, c1) => ((errCode, failed_results), c1)
        | (_, Some st, c1) =>
            let '(errCode, values, st1, c2) := ExecuteForRows bindArgs (maxReturningCount config) st c1 in
            (GenerateResult errCode st1 c2 values true (defaultRowIndex config), c2)
        end
    | _ => ((E_INVALID_ARGS, failed_results), c)
    end.

(** The end of [Update] and [Delete]: the statement is there, or its error is reported. *)
Definition execute_returning (sql : string) (args : list ValueObject) (config : ReturningConfig) (c : C)
    : (errno * Results) * C :=
  match GetStatement sql (SqliteSqlBuilder.GetReturningSql (columns config)) c with
  | (E_OK, Some st, c1) =>
      let '(errCode, values, st1, c2) := ExecuteForRows args (maxReturningCount config) st c1 in
      (GenerateResult errCode st1 c2 values true (defaultRowIndex config), c2)
  | (errCode, _, c1) => ((if negb (is_ok errCode) then errCode else E_ERROR, failed_results), c1)
  end.

Definition Update (row : Bucket.ValuesBucket) (predicates : AbsRdbPreds.AbsRdbPredicates) (config : ReturningConfig)
    (resolution : Z) (c : C) : (errno * Results) * C :=
  let table := AbsRdbPreds.tableName_ predicates in
  match SqliteUtils.GetConflictClause resolution with
  | None => ((E_INVALID_ARGS, {| changed := 0; results := None |}), c)
  | Some clause =>
      if Str.empty table || Bucket.IsEmpty row then ((E_INVALID_ARGS, {| changed := 0; results := None |}), c)
      else
        let sql := RdbSqlUtils.update_loop row EmptyString ("UPDATE" +:+ clause +:+ " " +:+ table +:+ " SET ") in
        let where_ := AbsPreds.whereClause (AbsRdbPreds.base predicates) in
        let sql := if Str.empty where_ then sql else sql +:+ " WHERE " +:+ where_ in
        execute_returning sql (map snd row ++ AbsPreds.bindArgs (AbsRdbPreds.base predicates)) config c
  end.

Definition Delete (predicates : AbsRdbPreds.AbsRdbPredicates) (config : ReturningConfig) (c : C) : (errno * Results) * C :=
  let table := AbsRdbPreds.tableName_ predicates in
  if Str.empty table then ((E_INVALID_ARGS, failed_results), c)
  else
    let where_ := AbsPreds.whereClause (AbsRdbPreds.base predicates) in
    let sql := "DELETE FROM " +:+ table in
    let sql := if Str.empty where_ then sql else sql +:+ " WHERE " +:+ where_ in
    execute_returning sql (AbsPreds.bindArgs (AbsRdbPreds.base predicates)) config c.

(** [HandleSchemaDDL]: the new schema version is remembered. *)
Definition HandleSchemaDDL (st : stmt) (d : t) (c : C) : t * C :=
  let '(_, st1, c1) := Reset st c in
  let '(_, st2, c2) := Prepare "PRAGMA schema_version" st1 c1 in
  let '(_, version, _, c3) := ExecuteForValue [] st2 c2 in
  let v := Value.to_int64 version in
  (if vSchema_ d <? v then {| maxArgs_ := maxArgs_ d; vSchema_ := v |} else d, c3).

(** [Execute]; [CreateStatement] gives no success without a statement. *)
Definition Execute (sql : string) (args : list ValueObject) (d : t) (c : C) : (errno * ValueObject) * t * C :=
  let sqlType := SqliteUtils.GetSqlStatementType sql in
  if negb (SqliteUtils.IsSupportSqlForExecute sqlType) && negb (SqliteUtils.IsSpecial sqlType) then
    ((E_INVALID_ARGS, VNil), d, c)
  else
    match GetStatement sql EmptyString c with
    | (E_OK, Some st, c1) =>
        let '(errCode, st1, c2) := Conn.Execute args st c1 in
        if negb (is_ok errCode) then ((errCode, VNil), d, c2)
        else if sqlType =? SqliteUtils.STATEMENT_INSERT then
          ((errCode, VInt (if 0 <? Changes st1 c2 then LastInsertRowId st1 c2 else -1)), d, c2)
        else if sqlType =? SqliteUtils.STATEMENT_UPDATE then ((errCode, VInt (Changes st1 c2)), d, c2)
        else if (sqlType =? SqliteUtils.STATEMENT_PRAGMA) && (GetColumnCount st1 =? 1) then (GetColumn 0 st1 c2, d, c2)
        else if sqlType =? SqliteUtils.STATEMENT_DDL then
          let '(d1, c3) := HandleSchemaDDL st1 d c2 in ((errCode, VNil), d1, c3)
        else ((errCode, VNil), d, c2)
    | (errCode, _, c1) => ((errCode, VNil), d, c1)
    end.

(** [ExecuteExt]. *)
Definition ExecuteExt (sql : string) (args : list ValueObject) (d : t) (c : C) : (errno * Results) * t * C :=
  let sqlType := SqliteUtils.GetSqlStatementType sql in
  if negb (SqliteUtils.IsSupportSqlForExecute sqlType) && negb (SqliteUtils.IsSpecial sqlType) then
    ((E_INVALID_ARGS, failed_results), d, c)
  else
    match GetStatement sql EmptyString c with
    | (E_OK, Some st, c1) =>
        let '(errCode, rows, st1, c2) := ExecuteForRows args DEFAULT_RETURNING_COUNT st c1 in
        let '(errCode, result) := GenerateResult errCode st1 c2 rows
          ((sqlType =? SqliteUtils.STATEMENT_INSERT) || (sqlType =? SqliteUtils.STATEMENT_UPDATE)) FIRST_ROW_INDEX in
        if negb (is_ok errCode) then ((errCode, result), d, c2)
        else if sqlType =? SqliteUtils.STATEMENT_DDL then
          let '(d1, c3) := HandleSchemaDDL st1 d c2 in ((errCode, result), d1, c3)
        else ((errCode, result), d, c2)
    | (errCode, _, c1) => ((if negb (is_ok errCode) then errCode else E_ERROR, failed_results), d, c1)
    end.

End Db.

Definition GetVersion : errno := E_NOT_SUPPORT.
Definition SetVersion : errno := E_NOT_SUPPORT.

End TransDB.

Module TransactionImpl.
Import Conn.

(** [TransactionType]. *)
Definition DEFERRED : Z := 0.
Definition IMMEDIATE : Z := 1.
Definition EXCLUSIVE : Z := 2.
Definition TRANS_BUTT : Z := 3.

Definition COMMIT_SQL : string := "COMMIT;".
Definition ROLLBACK_SQL : string := "ROLLBACK;".
Definition BEGIN_SQLS : list string := ["BEGIN DEFERRED;"; "BEGIN IMMEDIATE;"; "BEGIN EXCLUSIVE;"].

Section Impl.
Context {C : Type} `{Connection C}.

(** The object and the connection it was given: [connection_] is whether the object still has it,
    [recyclable] the last [SetIsRecyclable], [resultSets_] whether each set that was handed out
    has been closed. *)
Record t := {
  conn : C;
  connection_ : bool;
  store_ : option TransDB.t;
  recyclable : bool;
  resultSets_ : list bool
}.

Definition set_conn (c : C) (x : t) : t :=
  {| conn := c; connection_ := connection_ x; store_ := store_ x; recyclable := recyclable x; resultSets_ := resultSets_ x |}.

Definition set_store (d : TransDB.t) (x : t) : t :=
  {| conn := conn x; connection_ := connection_ x; store_ := Some d; recyclable := recyclable x; resultSets_ := resultSets_ x |}.

Definition CloseInner (connRecycle : bool) (x : t) : t :=
  {| conn := conn x; connection_ := false; store_ := None;
     recyclable := if connection_ x then connRecycle else recyclable x; resultSets_ := map (fun _ => true) (resultSets_ x) |}.

Definition Close (x : t) : errno * t := (E_OK, CloseInner true x).

Definition GetBeginSql (type : Z) : string :=
  if (type <? DEFERRED) || (TRANS_BUTT <=? type) then EmptyString else nth (Z.to_nat type) BEGIN_SQLS EmptyString.

(** The statement [sql] without arguments on the connection. *)
Definition run_sql (sql : string) (c : C) : errno * C :=
  match CreateStatement sql EmptyString c with
  | (E_OK, Some st, c1) => let '(errorCode, _, c2) := Execute [] st c1 in (errorCode, c2)
  | (errorCode, _, c1) => (errorCode, c1)
  end.

Definition Begin (type : Z) (x : t) : errno * t :=
  let x1 := set_store (TransDB.new (conn x)) x in
  let beginSql := GetBeginSql type in
  if Str.empty beginSql then (E_INVALID_ARGS, CloseInner true x1)
  else
    let '(errorCode, c) := run_sql beginSql (conn x1) in
    let x2 := set_conn c x1 in
    if negb (is_ok errorCode) then (errorCode, CloseInner true x2) else (E_OK, x2).

(** The end of a transaction by [sql]. *)
Definition finish (sql : string) (x : t) : errno * t :=
  if negb (connection_ x) then (E_ALREADY_CLOSED, x)
  else
    let '(errorCode, c) := run_sql sql (conn x) in
    let x1 := set_conn c x in
    if negb (is_ok errorCode) then (errorCode, CloseInner false x1) else (E_OK, CloseInner true x1).

Definition Commit : t -> errno * t := finish COMMIT_SQL.
Definition Rollback : t -> errno * t := finish ROLLBACK_SQL.

(** The destructor. *)
Definition destroy (x : t) : t := if negb (connection_ x) then x else snd (Rollback x).

(** [Create]: the transaction, or the connection as it was left; a transaction that did not begin
    is destroyed. *)
Definition Create (type : Z) (c : C) : errno * option t * C :=
  let x := {| conn := c; connection_ := true; store_ := None; recyclable := true; resultSets_ := [] |} in
  let '(errorCode, x1) := Begin type x in
  if negb (is_ok errorCode) then (errorCode, None, conn (destroy x1)) else (E_OK, Some x1, conn x1).

(** An operation of the store, where there is one. *)
Definition on_store {R} (closed : R) (op : TransDB.t -> C -> R * TransDB.t * C) (x : t) : R * t :=
  match store_ x with
  | None => (closed, x)
  | Some d => let '(r, d1, c1) := op d (conn x) in (r, set_conn c1 (set_store d1 x))
  end.

Definition Insert (table : string) (row : Bucket.ValuesBucket) (resolution : Z) : t -> Bucket.ValuesBucket * (errno * Z) * t :=
  on_store (row, (E_ALREADY_CLOSED, -1))
    (fun d c => let '(r, c1) := TransDB.Insert table row resolution c in (r, d, c1)).

Definition BatchInsert (table : string) (rows : Buckets.ValuesBuckets) : t -> (errno * Z) * t :=
  on_store (E_ALREADY_CLOSED, -1) (fun d c => let '(r, c1) := TransDB.BatchInsert table rows d c in (r, d, c1)).

(** [BatchInsert(table, vector of rows)]: the rows are put together, and a failure reports no
    rows. *)
Definition BatchInsertRows (table : string) (rows : list Bucket.ValuesBucket) : t -> (errno * Z) * t :=
  on_store (E_ALREADY_CLOSED, -1)
    (fun d c =>
       let '((errorCode, n), c1) := TransDB.BatchInsert table (foldl Buckets.Put Buckets.new rows) d c in
       ((errorCode, if is_ok errorCode then n else 0), d, c1)).

Definition BatchInsertReturning (table : string) (rows : Buckets.ValuesBuckets) (config : TransDB.ReturningConfig)
    (resolution : nat) : t -> (errno * TransDB.Results) * t :=
  on_store (E_ALREADY_CLOSED, TransDB.failed_results)
    (fun d c => let '(r, c1) := TransDB.BatchInsertReturning table rows config resolution d c in (r, d, c1)).

Definition Update (row : Bucket.ValuesBucket) (predicates : AbsRdbPreds.AbsRdbPredicates) (config : TransDB.ReturningConfig)
    (resolution : Z) : t -> (errno * TransDB.Results) * t :=
  on_store (E_ALREADY_CLOSED, TransDB.failed_results)
    (fun d c => let '(r, c1) := TransDB.Update row predicates config resolution c in (r, d, c1)).

Definition Delete (predicates : AbsRdbPreds.AbsRdbPredicates) (config : TransDB.ReturningConfig)
    : t -> (errno * TransDB.Results) * t :=
  on_store (E_ALREADY_CLOSED, TransDB.failed_results)
    (fun d c => let '(r, c1) := TransDB.Delete predicates config c in (r, d, c1)).

Definition ExecuteSql (sql : string) (args : list ValueObject) : t -> (errno * ValueObject) * t :=
  on_store (E_ALREADY_CLOSED, VNil) (TransDB.Execute sql args).

Definition ExecuteExt (sql : string) (args : list ValueObject) : t -> (errno * TransDB.Results) * t :=
  on_store (E_ALREADY_CLOSED, TransDB.failed_results) (TransDB.ExecuteExt sql args).

(** [QueryByStep] with [AddResultSet]: the number of the new set, [None] for no set.  The set is
    built by [query] on the connection. *)
Definition QueryByStep (query : C -> C) (x : t) : option nat * t :=
  match store_ x with
  | None => (None, x)
  | Some _ =>
      (Some (length (resultSets_ x)),
       {| conn := query (conn x); connection_ := connection_ x; store_ := store_ x; recyclable := recyclable x;
          resultSets_ := resultSets_ x ++ [false] |})
  end.

(** *** The base class (transaction.cpp): tables and where clauses, and only the number of rows *)

Definition where_predicates (table where_ : string) (args : list ValueObject) : AbsRdbPreds.AbsRdbPredicates :=
  let p := AbsRdbPreds.new table in
  AbsRdbPreds.set_base p (AbsPreds.SetBindArgs (AbsPreds.SetWhereClause (AbsRdbPreds.base p) where_) args).

Definition only_changed (r : (errno * TransDB.Results) * t) : (errno * Z) * t :=
  let '((code, result), x) := r in ((code, TransDB.changed result), x).

Definition UpdateWhere (table : string) (row : Bucket.ValuesBucket) (where_ : string) (args : list ValueObject)
    (resolution : Z) (x : t) : (errno * Z) * t :=
  only_changed (Update row (where_predicates table where_ args) TransDB.no_returning resolution x).

Definition DeleteWhere (table whereClause : string) (args : list ValueObject) (x : t) : (errno * Z) * t :=
  only_changed (Delete (where_predicates table whereClause args) TransDB.no_returning x).

Definition BatchInsertResolution (table : string) (rows : Buckets.ValuesBuckets) (resolution : nat) (x : t) : (errno * Z) * t :=
  only_changed (BatchInsertReturning table rows TransDB.no_returning resolution x).

End Impl.
Arguments t : clear implicits.

End TransactionImpl.

(** ** Transactions leave the data as promised *)

Module TransactionInv.
Import Conn TransactionImpl.

(** *** The statements of [TransDB] work on the data *)

Definition inserts (sql : string) : Prop := exists rest, sql = "INSERT" +:+ rest.

Lemma inserts_plain sql : inserts sql -> plain_sql sql = true.
Proof. by intros [rest ->]. Qed.

Lemma inserts_app sql rest : inserts sql -> inserts (sql +:+ rest).
Proof. intros [r ->]. exists (r +:+ rest). by rewrite Str.app_assoc. Qed.

Lemma update_plain rest : plain_sql ("UPDATE" +:+ rest) = true.
Proof. done. Qed.

Lemma delete_plain rest : plain_sql ("DELETE FROM " +:+ rest) = true.
Proof. done. Qed.

Lemma insert_loop_inserts row resolution : forall split sql args row' sql' args',
  inserts sql -> RdbSqlUtils.insert_loop row resolution split sql args = (row', Some (sql', args')) -> inserts sql'.
Proof.
  induction row as [|[k v] row IH]; intros split sql args row' sql' args' Hs; cbn [RdbSqlUtils.insert_loop].
  { by intros [= _ <- _]. }
  destruct (_ && _); [done|]. destruct (RdbSqlUtils.insert_loop row _ _ _ _) as [r o] eqn:E.
  intros [= _ ->]. eapply IH; [|exact E]. rewrite <- Str.app_assoc. by repeat apply inserts_app.
Qed.

(** With something behind the word, so that the last character may go. *)
Definition inserts_more (sql : string) : Prop := exists c rest, sql = "INSERT" +:+ String c rest.

Lemma more_inserts sql : inserts_more sql -> inserts sql.
Proof. intros (c & r & ->). by exists (String c r). Qed.

Lemma inserts_more_app sql rest : inserts_more sql -> inserts_more (sql +:+ rest).
Proof. intros (c & r & ->). exists c, (r +:+ rest). by rewrite Str.app_assoc. Qed.

Lemma inserts_pop sql : inserts_more sql -> inserts (Str.pop_back sql).
Proof. intros (c & r & ->). exists (Str.pop_back (String c r)). apply Str.pop_back_app_r. done. Qed.

Lemma inserts_back sql rest : inserts sql -> rest <> EmptyString -> inserts_more (sql +:+ rest).
Proof.
  intros [r ->] Hr. destruct r as [|c r]; [destruct rest as [|c rest]; [done|by exists c, rest]|].
  exists c, (r +:+ rest). by rewrite Str.app_assoc.
Qed.

Lemma fill_fields_inserts b fs : forall i n h args sql h' args' sql',
  inserts_more sql -> SqliteSqlBuilder.fill_fields b fs i n h args sql = (h', args', sql') -> inserts_more sql'.
Proof.
  induction fs as [|f fs IH]; intros i n h args sql h' args' sql' Hs; cbn [SqliteSqlBuilder.fill_fields].
  { by intros [= _ _ <-]. }
  destruct (SqliteSqlBuilder.fill_rows b f i n 0 _ h args) as [h1 args1]. intros E.
  eapply IH; [|exact E]. by apply inserts_more_app.
Qed.

Lemma rows_sql_inserts sql single n : inserts_more sql -> inserts (SqliteSqlBuilder.rows_sql sql single n).
Proof.
  intros Hs. apply inserts_pop. unfold SqliteSqlBuilder.rows_sql. generalize 0%nat. revert sql Hs.
  induction n as [|n IH]; intros sql Hs k; [done|]. cbn [seq foldl]. apply IH. by apply inserts_more_app.
Qed.

Lemma batch_inserts table rows maxArgs resolution :
  Forall (fun b => inserts (fst b)) (TransDB.batch_of table rows maxArgs resolution).
Proof.
  unfold TransDB.batch_of, SqliteSqlBuilder.GenerateSqls.
  destruct (SqliteSqlBuilder.fill_fields _ _ _ _ _ _ _) as [[h args] sql] eqn:E.
  apply fill_fields_inserts in E.
  2:{ destruct (nth resolution _ _) as [|c clause]; [by exists " "%char, ("INTO " +:+ table +:+ " (")|].
      exists c, (clause +:+ " INTO " +:+ table +:+ " ("). done. }
  assert (Hm : inserts_more (Str.pop_back sql +:+ ") VALUES ")) by (apply inserts_back; [by apply inserts_pop|done]).
  unfold SqliteSqlBuilder.MakeExecuteSqls. destruct (_ =? _)%nat; [done|]. destruct (_ =? _)%nat; [done|].
  destruct (SqliteSqlBuilder.GetSqlArgs _) as [marks|]; cbn [mbind option_bind]; [|done].
  destruct (SqliteSqlBuilder.chunks _ _ _) as [full rest]. cbn [default from_option id]. apply Forall_map, Forall_app.
  split; (case_match; [done|]); repeat constructor; cbn [fst]; by apply rows_sql_inserts.
Qed.

(** *** Operations on the data neither begin nor end the transaction *)

Section Stays.
Context {C : Type} `{Transactional C}.

(** The transaction is still the same one, or SQLite has given it up. *)
Definition stays (c c' : C) : Prop := frames c' = frames c \/ frames c' = [].

Lemma stays_refl c : stays c c.
Proof. by left. Qed.

Lemma stays_trans c1 c2 c3 : stays c1 c2 -> stays c2 c3 -> stays c1 c3.
Proof. unfold stays. intros [E1|E1] [E2|E2]; rewrite ?E2, ?E1; auto. Qed.

Lemma create_stays sql ret c e os c' : CreateStatement sql ret c = (e, os, c') -> stays c c'.
Proof. intros E. apply create_law in E as (_ & E & _). by left. Qed.

Lemma created_text sql ret c e s c' : CreateStatement sql ret c = (e, Some s, c') -> text s = Some (sql +:+ ret).
Proof. intros E. apply create_law in E as (_ & _ & _ & E). by apply E. Qed.

Lemma execute_stays sql args s c e s' c' :
  text s = Some sql -> plain_sql sql = true -> Execute args s c = (e, s', c') -> stays c c' /\ text s' = Some sql.
Proof. intros Hs Hc E. apply (execute_law sql) in E as [Ht Hb]; [|done]. split; [by apply Hb|done]. Qed.

Lemma execute_all_stays sql s argss : forall c e c',
  text s = Some sql -> plain_sql sql = true -> TransDB.execute_all s argss c = (e, c') -> stays c c'.
Proof.
  revert s. induction argss as [|args argss IH]; intros s c e c' Ht Hc; cbn [TransDB.execute_all].
  { intros [= _ <-]. apply stays_refl. }
  destruct (Execute args s c) as [[e1 s1] c1] eqn:E. apply (execute_stays sql) in E as [E Ht1]; [|done..].
  destruct (is_ok e1); [|by intros [= _ <-]]. intros E2. eapply stays_trans; [exact E|]. by eapply IH.
Qed.

Lemma batch_stays bs : forall c e c',
  Forall (fun b => plain_sql (fst b) = true) bs -> TransDB.batch_loop bs c = (e, c') -> stays c c'.
Proof.
  induction bs as [|[sql argss] bs IH]; intros c e c' Hb; cbn [TransDB.batch_loop].
  { intros [= _ <-]. apply stays_refl. }
  apply Forall_cons in Hb as [Hs Hb]. unfold TransDB.GetStatement.
  destruct (CreateStatement sql EmptyString c) as [[e1 [s|]] c1] eqn:E; pose proof (create_stays _ _ _ _ _ _ E) as E1;
    [|by intros [= _ <-]].
  apply created_text in E. rewrite Str.app_nil_r in E. destruct (TransDB.execute_all s argss c1) as [e2 c2] eqn:E2.
  apply (execute_all_stays sql) in E2; [|done..]. pose proof (stays_trans _ _ _ E1 E2) as E3.
  destruct (is_ok e2); [|by intros [= _ <-]]. intros E4. eapply stays_trans; [exact E3|]. by eapply IH.
Qed.

Lemma insert_stays table row res c r c' : TransDB.Insert table row res c = (r, c') -> stays c c'.
Proof.
  unfold TransDB.Insert, TransDB.GetStatement. destruct (SqliteUtils.GetConflictClause res) as [clause|];
    [|intros [= _ <-]; apply stays_refl].
  destruct (_ || _); [intros [= _ <-]; apply stays_refl|].
  destruct (RdbSqlUtils.insert_loop row res _ _ _) as [row' [[sql args]|]] eqn:El; [|intros [= _ <-]; apply stays_refl].
  apply insert_loop_inserts in El; [|by eexists].
  destruct (CreateStatement _ EmptyString c) as [[e1 [s|]] c1] eqn:E; pose proof (create_stays _ _ _ _ _ _ E) as E1;
    [|by intros [= _ <-]].
  apply created_text in E. destruct (Execute args s c1) as [[e2 s2] c2] eqn:E2.
  eapply execute_stays in E2 as [E2 _]; [|exact E|by apply inserts_plain, inserts_app, inserts_app].
  pose proof (stays_trans _ _ _ E1 E2). destruct (negb _); by intros [= _ <-].
Qed.

Lemma batch_insert_stays table rows d c r c' : TransDB.BatchInsert table rows d c = (r, c') -> stays c c'.
Proof.
  unfold TransDB.BatchInsert. destruct (_ =? 0)%nat; [intros [= _ <-]; apply stays_refl|].
  destruct (_ || _); [intros [= _ <-]; apply stays_refl|].
  destruct (TransDB.batch_loop _ c) as [e c1] eqn:E. apply batch_stays in E;
    [|eapply Forall_impl; [apply batch_inserts|]; intros b; apply inserts_plain].
  destruct (is_ok e); by intros [= _ <-].
Qed.

Lemma returning_stays sql args config c r c' :
  (forall ret, plain_sql (sql +:+ ret) = true) -> TransDB.execute_returning sql args config c = (r, c') -> stays c c'.
Proof.
  intros Hc. unfold TransDB.execute_returning, TransDB.GetStatement.
  destruct (CreateStatement sql _ c) as [[e1 os] c1] eqn:E. pose proof (create_stays _ _ _ _ _ _ E) as E1.
  destruct e1; try (by intros [= _ <-]). destruct os as [s|]; [|by intros [= _ <-]].
  apply created_text in E. destruct (ExecuteForRows args _ s c1) as [[[e2 rs] s2] c2] eqn:E2.
  eapply rows_law in E2 as [_ E2]; [|exact E|done]. pose proof (stays_trans _ _ _ E1 E2). by intros [= _ <-].
Qed.

Lemma batch_returning_stays table rows config res d c r c' :
  TransDB.BatchInsertReturning table rows config res d c = (r, c') -> stays c c'.
Proof.
  unfold TransDB.BatchInsertReturning, TransDB.GetStatement. destruct (_ =? 0)%nat; [intros [= _ <-]; apply stays_refl|].
  pose proof (batch_inserts table rows (TransDB.maxArgs_ d) res) as Hb.
  destruct (TransDB.batch_of table rows _ res) as [|[sql [|bindArgs [|? ?]]] [|? ?]]; try (intros [= _ <-]; apply stays_refl).
  apply Forall_cons in Hb as [Hs _]. cbn [fst] in Hs.
  destruct (CreateStatement sql _ c) as [[e1 [s|]] c1] eqn:E; pose proof (create_stays _ _ _ _ _ _ E) as E1;
    [|by intros [= _ <-]].
  apply created_text in E. destruct (ExecuteForRows bindArgs _ s c1) as [[[e2 rs] s2] c2] eqn:E2.
  eapply rows_law in E2 as [_ E2]; [|exact E|by apply inserts_plain, inserts_app]. pose proof (stays_trans _ _ _ E1 E2).
  by intros [= _ <-].
Qed.

Lemma update_stays row p config res c r c' : TransDB.Update row p config res c = (r, c') -> stays c c'.
Proof.
  unfold TransDB.Update. destruct (SqliteUtils.GetConflictClause res) as [clause|]; [|intros [= _ <-]; apply stays_refl].
  destruct (_ || _); [intros [= _ <-]; apply stays_refl|]. apply returning_stays. intros ret. rewrite RdbSqlUtils.update_loop_eq.
  case_match; rewrite <- ?Str.app_assoc; apply update_plain.
Qed.

Lemma delete_stays p config c r c' : TransDB.Delete p config c = (r, c') -> stays c c'.
Proof.
  unfold TransDB.Delete. destruct (Str.empty _); [intros [= _ <-]; apply stays_refl|]. apply returning_stays. intros ret.
  case_match; rewrite <- ?Str.app_assoc; apply delete_plain.
Qed.

Lemma schema_stays sql s d c d' c' :
  text s = Some sql -> plain_sql sql = true -> TransDB.HandleSchemaDDL s d c = (d', c') -> stays c c'.
Proof.
  intros Ht Hc. unfold TransDB.HandleSchemaDDL. destruct (Reset s c) as [[e1 s1] c1] eqn:E1.
  destruct (Prepare _ s1 c1) as [[e2 s2] c2] eqn:E2. destruct (ExecuteForValue [] s2 c2) as [[[e3 v] s3] c3] eqn:E3.
  eapply reset_law in E1 as (_ & B1 & T1); [|exact Ht]. eapply prepare_law in E2 as (_ & B2 & T2); [|exact T1].
  assert (exists sql2, text s2 = Some sql2 /\ plain_sql sql2 = true) as (sql2 & Ht2 & Hp2)
    by (destruct T2 as [T2|T2]; eexists; by split; [exact T2|]).
  eapply value_law in E3 as B3; [|exact Ht2|done]. intros [= _ <-]. eapply stays_trans; [by left|]. eapply stays_trans; [left; exact B2|exact B3].
Qed.

(** What [Execute] lets through, other than transaction control, works on the data. *)
Lemma supported_plain sql :
  SqliteUtils.IsSpecial (SqliteUtils.GetSqlStatementType sql) = false ->
  negb (SqliteUtils.IsSupportSqlForExecute (SqliteUtils.GetSqlStatementType sql)) &&
    negb (SqliteUtils.IsSpecial (SqliteUtils.GetSqlStatementType sql)) = false -> plain_sql (sql +:+ EmptyString) = true.
Proof. rewrite Str.app_nil_r. unfold plain_sql. intros ->. by destruct (SqliteUtils.IsSupportSqlForExecute _). Qed.

Lemma sql_stays sql args d c r d' c' :
  SqliteUtils.IsSpecial (SqliteUtils.GetSqlStatementType sql) = false -> TransDB.Execute sql args d c = (r, d', c') -> stays c c'.
Proof.
  intros Hs. unfold TransDB.Execute, TransDB.GetStatement. destruct (_ && _) eqn:Hc; [intros [= _ _ <-]; apply stays_refl|].
  apply supported_plain in Hc; [|done].
  destruct (CreateStatement sql _ c) as [[e1 os] c1] eqn:E. pose proof (create_stays _ _ _ _ _ _ E) as E1.
  destruct e1; try (by intros [= _ _ <-]). destruct os as [s|]; [|by intros [= _ _ <-]].
  apply created_text in E. destruct (Execute args s c1) as [[e2 s2] c2] eqn:E2.
  eapply execute_stays in E2 as [E2 T2]; [|exact E|done]. pose proof (stays_trans _ _ _ E1 E2) as E12.
  destruct (negb _); [by intros [= _ _ <-]|]. destruct (_ =? _); [by intros [= _ _ <-]|].
  destruct (_ =? _); [by intros [= _ _ <-]|]. destruct (_ && _); [by intros [= _ _ <-]|].
  destruct (_ =? _); [|by intros [= _ _ <-]]. destruct (TransDB.HandleSchemaDDL s2 d c2) as [d3 c3] eqn:E3.
  intros [= _ _ <-]. eapply stays_trans; [exact E12|]. eapply schema_stays; [exact T2|done|exact E3].
Qed.

Lemma ext_stays sql args d c r d' c' :
  SqliteUtils.IsSpecial (SqliteUtils.GetSqlStatementType sql) = false -> TransDB.ExecuteExt sql args d c = (r, d', c') -> stays c c'.
Proof.
  intros Hs. unfold TransDB.ExecuteExt, TransDB.GetStatement. destruct (_ && _) eqn:Hc; [intros [= _ _ <-]; apply stays_refl|].
  apply supported_plain in Hc; [|done].
  destruct (CreateStatement sql _ c) as [[e1 os] c1] eqn:E. pose proof (create_stays _ _ _ _ _ _ E) as E1.
  destruct e1; try (by intros [= _ _ <-]). destruct os as [s|]; [|by intros [= _ _ <-]].
  apply created_text in E. destruct (ExecuteForRows args _ s c1) as [[[e2 rs] s2] c2] eqn:E2.
  eapply rows_law in E2 as [T2 E2]; [|exact E|done]. pose proof (stays_trans _ _ _ E1 E2) as E12.
  destruct (TransDB.GenerateResult _ _ _ _ _ _) as [e3 res]. destruct (negb _); [by intros [= _ _ <-]|].
  destruct (_ =? _); [|by intros [= _ _ <-]]. destruct (TransDB.HandleSchemaDDL s2 d c2) as [d3 c3] eqn:E3.
  intros [= _ _ <-]. eapply stays_trans; [exact E12|]. eapply schema_stays; [exact T2|done|exact E3].
Qed.

End Stays.

End TransactionInv.

(** ** A small connection

    Its data is the list of statements that were run, to evaluate the definitions on. *)

Module SmallConn.
Import Conn.

Record mem := { m_data : list (string * list ValueObject); m_frames : list (option string * list (string * list ValueObject)) }.

(** What follows a prefix. *)
Fixpoint strip (p s : string) : option string :=
  match p, s with
  | EmptyString, _ => Some s
  | String a p', String b s' => if Ascii.eqb a b then strip p' s' else None
  | String _ _, EmptyString => None
  end.

Lemma strip_app p s : strip p (p +:+ s) = Some s.
Proof. induction p as [|a p IH]; [done|]. cbn [strip]. change (String a p +:+ s) with (String a (p +:+ s)). cbn [strip]. by rewrite Ascii.eqb_refl. Qed.

Lemma pop_name name : Str.pop_back (name +:+ ";") = name.
Proof. by rewrite Str.pop_back_app_r, Str.app_nil_r. Qed.

(** The frames from the innermost one of the name on. *)
Fixpoint find_frame (name : string) (fs : list (option string * list (string * list ValueObject)))
    : option (list (string * list ValueObject) * list (option string * list (string * list ValueObject))) :=
  match fs with
  | [] => None
  | (n, d) :: fs' => if decide (n = Some name) then Some (d, fs) else find_frame name fs'
  end.

Lemma find_frame_spec name fs d fs' : find_frame name fs = Some (d, fs') ->
  exists inner outer, fs = inner ++ (Some name, d) :: outer /\ (Some name ∉ map fst inner) /\ fs' = (Some name, d) :: outer.
Proof.
  induction fs as [|[n x] fs IH]; [done|]. cbn [find_frame]. destruct (decide (n = Some name)) as [-> | Hn].
  - intros [= -> <-]. exists [], fs. split; [done|]. split; [apply not_elem_of_nil|done].
  - intros E. destruct (IH E) as (inner & outer & -> & Hi & ->). exists ((n, x) :: inner), outer. split; [done|].
    split; [|done]. cbn [map fst]. apply not_elem_of_cons. by split.
Qed.

Definition run_text (args : list ValueObject) (sql : string) (c : mem) : errno * string * mem :=
  if plain_sql sql then (E_OK, sql, {| m_data := m_data c ++ [(sql, args)]; m_frames := m_frames c |})
  else if decide (sql ∈ ["BEGIN DEFERRED;"; "BEGIN IMMEDIATE;"; "BEGIN EXCLUSIVE;"]) then
    match m_frames c with
    | [] => (E_OK, sql, {| m_data := m_data c; m_frames := [(None, m_data c)] |})
    | _ => (E_SQLITE_ERROR, sql, c)
    end
  else if decide (sql = "COMMIT;") then
    match m_frames c with
    | [] => (E_SQLITE_ERROR, sql, c)
    | _ => (E_OK, sql, {| m_data := m_data c; m_frames := [] |})
    end
  else if decide (sql = "ROLLBACK;") then
    match last (m_frames c) with
    | None => (E_SQLITE_ERROR, sql, c)
    | Some (_, d) => (E_OK, sql, {| m_data := d; m_frames := [] |})
    end
  else
    match strip "SAVEPOINT " sql, strip "ROLLBACK TO " sql with
    | Some name, _ => (E_OK, sql, {| m_data := m_data c; m_frames := (Some (Str.pop_back name), m_data c) :: m_frames c |})
    | None, Some name =>
        match find_frame (Str.pop_back name) (m_frames c) with
        | Some (d, fs) => (E_OK, sql, {| m_data := d; m_frames := fs |})
        | None => (E_SQLITE_ERROR, sql, c)
        end
    | None, None => (E_SQLITE_ERROR, sql, c)
    end.

#[export] Instance small_stmts : Statements mem := {
  stmt := string;
  Prepare sql _ c := (E_OK, sql, c);
  Reset s c := (E_OK, s, c);
  Execute args s c := run_text args s c;
  ExecuteForValue args s c := let '(e, s', c') := run_text args s c in (e, VInt 0, s', c');
  ExecuteForRows args _ s c := let '(e, s', c') := run_text args s c in (e, [], s', c');
  Changes _ _ := 1;
  LastInsertRowId _ c := Z.of_nat (length (m_data c));
  GetColumnCount _ := 0;
  GetColumn _ _ _ := (E_ERROR, VNil)
}.

#[export] Instance small_conn : Connection mem := {
  GetMaxVariable _ := 999;
  CreateStatement sql ret c := (E_OK, Some (sql +:+ ret), c)
}.

Lemma run_text_plain args s c e s' c' :
  run_text args s c = (e, s', c') -> s' = s /\ (plain_sql s = true -> m_frames c' = m_frames c).
Proof.
  unfold run_text. intros E. destruct (plain_sql s); [by injection E as _ <- <-|]. split; [|done].
  repeat case_match; by injection E as _ <- _.
Qed.

#[export] Instance small_conn_laws : Transactional mem.
Proof.
  refine {| contents := m_data; frames := m_frames; text := fun s : stmt => Some s |}; cbn.
  - intros sql ret c e os c' [= <- <- <-]. repeat (split; [done|]). by intros s [= ->].
  - intros old sql s c e s' c' _ [= _ <- <-]. auto.
  - intros sql s c e s' c' [= ->] [= _ <- <-]. auto.
  - intros sql args s c e s' c' [= ->] E. apply run_text_plain in E as [-> E]. auto.
  - intros sql args s c e v s' c' [= ->] E Hc. destruct (run_text args sql c) as [[e1 s1] c1] eqn:E1. injection E as _ _ _ <-.
    apply run_text_plain in E1 as [_ E1]. auto.
  - intros sql args n s c e rs s' c' [= ->] E Hc. destruct (run_text args sql c) as [[e1 s1] c1] eqn:E1.
    injection E as _ _ <- <-. apply run_text_plain in E1 as [-> E1]. auto.
  - intros sql s c s' c' [= ->] E Ht. unfold run_text in E. rewrite decide_True in E by done.
    assert (plain_sql sql = false) as Hp by (set_unfold in Ht; by destruct Ht as [-> | [-> | [-> | []]]]).
    rewrite Hp in E. destruct (m_frames c); [by injection E as _ <-|done].
  - intros s c s' c' [= ->] E. unfold run_text in E. cbn in E. destruct (m_frames c) eqn:Ef; [done|]. by injection E as _ <-.
  - intros s c s' c' [= ->] E. unfold run_text in E. cbn in E. destruct (last (m_frames c)) as [[n d]|] eqn:El; [|done].
    injection E as _ <-. split; [done|]. by exists n.
  - intros name s c s' c' [= ->] Hn E.
    change (run_text [] _ c) with (E_OK, "SAVEPOINT " +:+ name +:+ ";",
      {| m_data := m_data c; m_frames := (Some (Str.pop_back (name +:+ ";")), m_data c) :: m_frames c |}) in E.
    injection E as _ <-. cbn [m_frames m_data]. by rewrite pop_name.
  - intros name s c s' c' [= ->] Hn E.
    change (run_text [] _ c) with (match find_frame (Str.pop_back (name +:+ ";")) (m_frames c) with
      | Some (d, fs) => (E_OK, "ROLLBACK TO " +:+ name +:+ ";", {| m_data := d; m_frames := fs |})
      | None => (E_SQLITE_ERROR, "ROLLBACK TO " +:+ name +:+ ";", c) end) in E. rewrite pop_name in E.
    destruct (find_frame name (m_frames c)) as [[d fs]|] eqn:Ef; [|done]. injection E as _ <-. by apply find_frame_spec in Ef.
Defined.

End SmallConn.

(** ** The claims *)

Module TransactionProps.
Import Conn TransactionImpl TransactionInv SmallConn.

(** What a caller does with a transaction before its end. *)
Inductive op (C : Type) :=
| OInsert (table : string) (row : Bucket.ValuesBucket) (resolution : Z)
| OBatchInsert (table : string) (rows : Buckets.ValuesBuckets)
| OBatchInsertRows (table : string) (rows : list Bucket.ValuesBucket)
| OBatchInsertReturning (table : string) (rows : Buckets.ValuesBuckets) (config : TransDB.ReturningConfig) (resolution : nat)
| OUpdate (row : Bucket.ValuesBucket) (predicates : AbsRdbPreds.AbsRdbPredicates) (config : TransDB.ReturningConfig) (resolution : Z)
| ODelete (predicates : AbsRdbPreds.AbsRdbPredicates) (config : TransDB.ReturningConfig)
| OExecute (sql : string) (args : list ValueObject)
| OExecuteExt (sql : string) (args : list ValueObject)
| OQuery (query : C -> C).
Arguments OInsert {C}. Arguments OBatchInsert {C}. Arguments OBatchInsertRows {C}. Arguments OBatchInsertReturning {C}.
Arguments OUpdate {C}. Arguments ODelete {C}. Arguments OExecute {C}. Arguments OExecuteExt {C}. Arguments OQuery {C}.

Section Ops.
Context {C : Type} `{Connection C}.

(** The operation and its code; a query that gives no set counts as closed. *)
Definition run_op (o : op C) (x : t C) : errno * t C :=
  match o with
  | OInsert table row res => let '(_, (e, _), x1) := Insert table row res x in (e, x1)
  | OBatchInsert table rows => let '((e, _), x1) := BatchInsert table rows x in (e, x1)
  | OBatchInsertRows table rows => let '((e, _), x1) := BatchInsertRows table rows x in (e, x1)
  | OBatchInsertReturning table rows config res => let '((e, _), x1) := BatchInsertReturning table rows config res x in (e, x1)
  | OUpdate row p config res => let '((e, _), x1) := Update row p config res x in (e, x1)
  | ODelete p config => let '((e, _), x1) := Delete p config x in (e, x1)
  | OExecute sql args => let '((e, _), x1) := ExecuteSql sql args x in (e, x1)
  | OExecuteExt sql args => let '((e, _), x1) := ExecuteExt sql args x in (e, x1)
  | OQuery q => let '(r, x1) := QueryByStep q x in (match r with None => E_ALREADY_CLOSED | Some _ => E_OK end, x1)
  end.

Definition run_ops (os : list (op C)) (x : t C) : t C := foldl (fun x o => snd (run_op o x)) x os.

End Ops.

(** The caller does not run BEGIN, COMMIT or ROLLBACK by itself, and a query only reads. *)
Definition plain {C} `{Transactional C} (o : op C) : Prop :=
  match o with
  | OExecute sql _ | OExecuteExt sql _ => SqliteUtils.IsSpecial (SqliteUtils.GetSqlStatementType sql) = false
  | OQuery q => forall c, frames (q c) = frames c
  | _ => True
  end.

Section Life.
Context {C : Type} `{Transactional C}.

Lemma on_store_stays {R} (closed : R) op (x x' : t C) r :
  (forall d c r d' c', op d c = (r, d', c') -> stays c c') -> on_store closed op x = (r, x') ->
  stays (conn x) (conn x') /\ connection_ x' = connection_ x.
Proof.
  intros Hop. unfold on_store. destruct (store_ x) as [d|]; [|intros [= _ <-]; split; [apply stays_refl|done]].
  destruct (op d (conn x)) as [[r1 d1] c1] eqn:E. apply Hop in E. by intros [= _ <-].
Qed.

(** One operation keeps the transaction. *)
Lemma op_stays (o : op C) x : plain o -> stays (conn x) (conn (snd (run_op o x))) /\ connection_ (snd (run_op o x)) = connection_ x.
Proof.
  destruct o; intros Hp; cbn [run_op].
  - destruct (Insert _ _ _ x) as [[r1 [e n]] x1] eqn:E. apply on_store_stays in E; [done|].
    intros d c r d' c'. destruct (TransDB.Insert _ _ _ c) as [r2 c2] eqn:E2. apply insert_stays in E2. by intros [= _ _ <-].
  - destruct (BatchInsert _ _ x) as [[e n] x1] eqn:E. apply on_store_stays in E; [done|].
    intros d c r d' c'. destruct (TransDB.BatchInsert _ _ _ c) as [r2 c2] eqn:E2. apply batch_insert_stays in E2. by intros [= _ _ <-].
  - destruct (BatchInsertRows _ _ x) as [[e n] x1] eqn:E. apply on_store_stays in E; [done|].
    intros d c r d' c'. destruct (TransDB.BatchInsert _ _ _ c) as [[e2 n2] c2] eqn:E2. apply batch_insert_stays in E2. by intros [= _ _ <-].
  - destruct (BatchInsertReturning _ _ _ _ x) as [[e n] x1] eqn:E. apply on_store_stays in E; [done|].
    intros d c r d' c'. destruct (TransDB.BatchInsertReturning _ _ _ _ _ c) as [r2 c2] eqn:E2. apply batch_returning_stays in E2. by intros [= _ _ <-].
  - destruct (Update _ _ _ _ x) as [[e n] x1] eqn:E. apply on_store_stays in E; [done|].
    intros d c r d' c'. destruct (TransDB.Update _ _ _ _ c) as [r2 c2] eqn:E2. apply update_stays in E2. by intros [= _ _ <-].
  - destruct (Delete _ _ x) as [[e n] x1] eqn:E. apply on_store_stays in E; [done|].
    intros d c r d' c'. destruct (TransDB.Delete _ _ c) as [r2 c2] eqn:E2. apply delete_stays in E2. by intros [= _ _ <-].
  - destruct (ExecuteSql _ _ x) as [[e n] x1] eqn:E. apply on_store_stays in E; [done|]. intros d c r d' c'. by apply sql_stays.
  - destruct (ExecuteExt _ _ x) as [[e n] x1] eqn:E. apply on_store_stays in E; [done|]. intros d c r d' c'. by apply ext_stays.
  - unfold QueryByStep. destruct (store_ x); [|split; [apply stays_refl|done]]. cbn. split; [left; apply Hp|done].
Qed.

Lemma ops_stay os : forall x, Forall plain os -> stays (conn x) (conn (run_ops os x)) /\ connection_ (run_ops os x) = connection_ x.
Proof.
  induction os as [|o os IH]; intros x Hp; [split; [apply stays_refl|done]|]. apply Forall_cons in Hp as [Ho Hp].
  destruct (op_stays o x Ho) as [Hs1 Hk1]. cbn [run_ops foldl]. fold (run_ops os (snd (run_op o x))).
  destruct (IH (snd (run_op o x)) Hp) as [Hs2 Hk2]. split; [by eapply stays_trans|congruence].
Qed.

(** A successful transaction statement. *)
Lemma run_sql_ok sql c c' : run_sql sql c = (E_OK, c') ->
  exists st st' c1, text st = Some sql /\ contents c1 = contents c /\ frames c1 = frames c /\ Execute [] st c1 = (E_OK, st', c').
Proof.
  unfold run_sql. destruct (CreateStatement sql EmptyString c) as [[e os] c1] eqn:E.
  pose proof (create_law _ _ _ _ _ _ E) as (Hc & Hb & Hne & Ht). destruct e; try (by intros [= _]).
  destruct os as [st|]; [|by destruct (Hne eq_refl)]. destruct (Execute [] st c1) as [[e2 st2] c2] eqn:E2.
  intros [= -> ->]. exists st, st2, c1. rewrite (Ht st eq_refl), Str.app_nil_r. auto.
Qed.

Lemma begin_type type : GetBeginSql type <> EmptyString -> GetBeginSql type ∈ BEGIN_SQLS.
Proof.
  unfold GetBeginSql, DEFERRED, TRANS_BUTT. destruct (_ || _) eqn:E; [done|]. intros _.
  apply list_elem_of_In, nth_In. cbn. lia.
Qed.

(** A transaction that was created has begun. *)
Lemma create_begins type c x c1 : Create type c = (E_OK, Some x, c1) ->
  frames c = [] /\ frames (conn x) = [(None, contents c)] /\ contents (conn x) = contents c /\
  connection_ x = true /\ c1 = conn x.
Proof.
  unfold Create, Begin. cbn [set_store conn]. destruct (Str.empty (GetBeginSql type)) eqn:He; [done|].
  destruct (run_sql (GetBeginSql type) c) as [e c2] eqn:E. destruct (is_ok e) eqn:Hok; cbn [negb]; cycle 1.
  { by rewrite Hok. }
  apply is_ok_true in Hok as ->. ok_simpl. intros [= <- <-]. cbn.
  apply run_sql_ok in E as (st & st' & c3 & Ht & Hc & Hb & Ee).
  eapply begin_law in Ee as (B1 & B2 & B3); [|exact Ht|apply begin_type; intros Hx; by rewrite Hx in He].
  rewrite <- Hb, <- Hc. auto.
Qed.

End Life.


(** C27: After [Commit] or [Rollback], whatever they report, the object is inert: the result sets it gave out are
    closed, the connection goes back for reuse exactly when the statement succeeded, and every later
    operation, [Commit] and [Rollback] included, is answered [E_ALREADY_CLOSED] and touches neither the
    connection nor the object. *)
Theorem ended_transaction_inert {C} `{Connection C} sql (x : t C) :
  connection_ x = true ->
  let '(e, y) := finish sql x in
  recyclable y = is_ok e /\ Forall (fun closed => closed = true) (resultSets_ y) /\
  Commit y = (E_ALREADY_CLOSED, y) /\ Rollback y = (E_ALREADY_CLOSED, y) /\ destroy y = y /\
  (forall o, run_op o y = (E_ALREADY_CLOSED, y)).
Proof.
  intros Hc. unfold finish. rewrite Hc. cbn [negb]. destruct (run_sql sql (conn x)) as [e c2].
  assert (Hclosed : forall (b : bool) (z : t C), Forall (fun closed => closed = true) (resultSets_ (CloseInner b z)))
    by (intros b z; cbn; apply Forall_map, Forall_true; done).
  destruct (is_ok e) eqn:He; cbn [negb]; (split; [cbn; by rewrite ?Hc, ?He|]); (split; [apply Hclosed|]);
    do 3 (split; [done|]); by intros [].
Qed.

(** [Close] ends no transaction: the transaction stays open on a connection that goes back for
    reuse. *)
Theorem close_leaves_transaction_open {C} `{Transactional C} type (c c1 : C) x os :
  Create type c = (E_OK, Some x, c1) -> Forall plain os -> frames (conn (run_ops os x)) <> [] ->
  let y := snd (Close (run_ops os x)) in
  frames (conn y) = [(None, contents c)] /\ recyclable y = true /\ connection_ y = false /\ destroy y = y.
Proof.
  intros Hc Hp Hne. apply create_begins in Hc as (_ & Hb & _ & Hconn & _). destruct (ops_stay os x Hp) as [[Hs|Hs] Hk]; [|done].
  cbn. rewrite Hk, Hconn. split; [congruence|done].
Qed.

(** *** A transaction at work *)

Definition demo_mem : mem := {| m_data := []; m_frames := [] |}.

Definition demo_trans : t mem :=
  match Create DEFERRED demo_mem with
  | (_, Some x, _) => x
  | (_, None, c) => {| conn := c; connection_ := false; store_ := None; recyclable := true; resultSets_ := [] |}
  end.

Definition demo_ops : list (op mem) := [OInsert "t" [("a", VInt 1)] 0; OQuery id; OExecute "DELETE FROM t" []].

Lemma demo_ops_plain : Forall plain demo_ops.
Proof. by repeat constructor. Qed.


Lemma ended_transaction_inert_witness :
  run_op (OExecute "DELETE FROM t" []) (snd (Commit (run_ops demo_ops demo_trans))) =
    (E_ALREADY_CLOSED, snd (Commit (run_ops demo_ops demo_trans))).
Proof.
  pose proof (ended_transaction_inert COMMIT_SQL (run_ops demo_ops demo_trans) eq_refl) as Hi.
  unfold Commit. destruct (finish COMMIT_SQL (run_ops demo_ops demo_trans)) as [e y]. cbn [snd].
  destruct Hi as (_ & _ & _ & _ & _ & Hi). exact (Hi (OExecute "DELETE FROM t" [])).
Defined.

Lemma close_leaves_transaction_open_witness :
  let y := snd (Close (run_ops demo_ops demo_trans)) in m_frames (conn y) = [(None, [])] /\ recyclable y = true.
Proof.
  destruct (close_leaves_transaction_open DEFERRED demo_mem (conn demo_trans) demo_trans demo_ops) as (H1 & H2 & _);
    [reflexivity|exact demo_ops_plain|vm_compute; discriminate|]. split; [exact H1|exact H2].
Defined.

End TransactionProps.
