(* ===== verification/Notify.v ===== *)
(** * Notifications about changed data

    [CloudTables]: the class of that name in frameworks/native/rdb/src/rdb_store_impl.cpp with
    [DoCloudSync], which asks for a cloud synchronisation of changed tables some time later, and
    [CloudSync], its interleavings with the executor as a step relation.
    [DelayNotify]: frameworks/native/rdb/src/delay_notify.cpp, the delayed report of changes to the
    service, over the class [Executor] of the thread pool and the task.
    [Observers]: the observers of a store inside the process, from rdb_store_impl.cpp, and
    rdb_obs_manager.cpp.
    [NotifyProps]: the theorems.

    Each member function that takes the mutex of its object is one step. *)
From Stdlib Require Import ZArith Lia.
From stdpp Require Import base gmap list strings.
From S2P Require Import Prelude CppStd Errno.

Local Open Scope Z_scope.

(** ** Tables to be synchronised with the cloud *)

Module CloudTables.

Record t := { tables_ : gset string; changes_ : gset string }.

Definition new : t := {| tables_ := ∅; changes_ := ∅ |}.

Definition AddTables (tables : list string) (c : t) : t :=
  {| tables_ := list_to_set tables ∪ tables_ c; changes_ := changes_ c |}.

Definition RmvTables (tables : list string) (c : t) : t :=
  {| tables_ := tables_ c ∖ list_to_set tables; changes_ := changes_ c |}.

(** [Change]: no name stands for all tables; whether a synchronisation has to be scheduled. *)
Definition Change (table : string) (c : t) : bool * t :=
  if bool_decide (tables_ c = ∅) || (negb (Str.empty table) && bool_decide (table ∉ tables_ c)) then (false, c)
  else
    (bool_decide (changes_ c = ∅),
     {| tables_ := tables_ c;
        changes_ := changes_ c ∪ (if negb (Str.empty table) then {[ table ]} else tables_ c) |}).

Definition Steal (c : t) : gset string * t := (changes_ c, {| tables_ := tables_ c; changes_ := ∅ |}).

(** [DoCloudSync] in one go: the tables, and the number of tasks given to the executor. *)
Definition DoCloudSync (executor : bool) (table : string) (c : t) (scheduled : nat) : t * nat :=
  let '(needSync, c1) := Change table c in
  if negb needSync then (c1, scheduled) else if negb executor then (c1, scheduled) else (c1, S scheduled).

(** The task: what is synchronised, if anything. *)
Definition sync_task (c : t) : option (gset string) * t :=
  let '(tables, c1) := Steal c in (if bool_decide (tables = ∅) then None else Some tables, c1).

End CloudTables.

(** ** Threads that change tables, and the executor *)

Module CloudSync.
Import CloudTables.

(** What happened: a change of these tables was let through; a thread found no executor for the synchronisation it had to
    schedule; these tables were handed to [InnerSync], which succeeded or not. *)
Inductive event := Changed (tables : gset string) | NoExecutor | Handed (tables : gset string) (ok : bool).

#[export] Instance event_eq_dec : EqDecision event.
Proof. solve_decision. Defined.

(** [about]: threads between [Change] and [Schedule]; [scheduled]: tasks that will run; [log]: what happened, in order. *)
Record st := { cloud : t; about : nat; scheduled : nat; log : list event }.

Definition init : st := {| cloud := new; about := 0; scheduled := 0; log := [] |}.

(** The tables a change concerns, if any of them is synchronised. *)
Definition concerned (table : string) (c : t) : list event :=
  if bool_decide (tables_ c = ∅) then []
  else if Str.empty table then [Changed (tables_ c)]
  else if bool_decide (table ∈ tables_ c) then [Changed {[ table ]}] else [].

(** The tables of a task; what [InnerSync] answers is not looked at. *)
Definition handed (ok : bool) (c : t) : list event :=
  match fst (sync_task c) with Some tables => [Handed tables ok] | None => [] end.

Inductive step (s : st) : st -> Prop :=
| s_add tables : step s {| cloud := AddTables tables (cloud s); about := about s; scheduled := scheduled s; log := log s |}
| s_remove tables : step s {| cloud := RmvTables tables (cloud s); about := about s; scheduled := scheduled s; log := log s |}
| s_change table : step s
    {| cloud := snd (Change table (cloud s));
       about := if fst (Change table (cloud s)) then S (about s) else about s; scheduled := scheduled s;
       log := log s ++ concerned table (cloud s) |}
| s_schedule n : about s = S n -> step s {| cloud := cloud s; about := n; scheduled := S (scheduled s); log := log s |}
| s_refused n : about s = S n -> step s {| cloud := cloud s; about := n; scheduled := scheduled s; log := log s ++ [NoExecutor] |}
| s_run n ok : scheduled s = S n -> step s
    {| cloud := snd (sync_task (cloud s)); about := about s; scheduled := n; log := log s ++ handed ok (cloud s) |}.

Definition reachable : st -> Prop := rtc step init.

(** The threads that gave up. *)
Definition gave_up (l : list event) : nat := length (filter (fun e => e = NoExecutor) l).

(** A change that is in [later] or still waits in [c]. *)
Definition carried (X : gset string) (later : list event) (c : t) : Prop :=
  X ⊆ changes_ c \/ exists Y ok, Handed Y ok ∈ later /\ X ⊆ Y.

(** One synchronisation is on its way exactly when there are changes it has to carry, unless a thread gave up. *)
Record inv (s : st) : Prop := {
  inv_one : (about s + scheduled s + gave_up (log s) = if bool_decide (changes_ (cloud s) = ∅) then 0 else 1)%nat;
  inv_all before X later : log s = before ++ Changed X :: later -> carried X later (cloud s)
}.

Lemma change_spec table c :
  (Change table c = (false, c)) \/
  (exists X, X <> ∅ /\ Change table c = (bool_decide (changes_ c = ∅), {| tables_ := tables_ c; changes_ := changes_ c ∪ X |})).
Proof.
  unfold Change. destruct (bool_decide_reflect (tables_ c = ∅)) as [|Hne]; [by left|]. cbn [orb].
  destruct (Str.empty table); cbn [negb andb]; [right; by exists (tables_ c)|].
  destruct (bool_decide (table ∉ tables_ c)); [by left|]. right. exists {[ table ]}. split; [set_solver|done].
Qed.

Lemma concerned_spec table c :
  (concerned table c = [] /\ Change table c = (false, c)) \/
  exists X, X <> ∅ /\ concerned table c = [Changed X] /\
    Change table c = (bool_decide (changes_ c = ∅), {| tables_ := tables_ c; changes_ := changes_ c ∪ X |}).
Proof.
  unfold concerned, Change. destruct (bool_decide_reflect (tables_ c = ∅)) as [|Hne]; [by left|]. cbn [orb].
  destruct (Str.empty table); cbn [negb andb]; [right; by exists (tables_ c)|].
  destruct (decide (table ∈ tables_ c)) as [Hin|Hin].
  - rewrite bool_decide_eq_true_2, bool_decide_eq_false_2 by auto. right. exists {[ table ]}. split; [set_solver|done].
  - rewrite bool_decide_eq_false_2, bool_decide_eq_true_2 by done. by left.
Qed.

Lemma gave_up_app l l' : gave_up (l ++ l') = (gave_up l + gave_up l')%nat.
Proof. unfold gave_up. by rewrite filter_app, length_app. Qed.

(** What happens next keeps the promise if it hands the waiting changes over or leaves them waiting. *)
Lemma carried_more l l' c c' :
  (forall before X later, l = before ++ Changed X :: later -> carried X later c) ->
  changes_ c ⊆ changes_ c' \/ (exists Y ok, Handed Y ok ∈ l' /\ changes_ c ⊆ Y) ->
  (forall before X later, l' = before ++ Changed X :: later -> carried X later c') ->
  forall before X later, l ++ l' = before ++ Changed X :: later -> carried X later c'.
Proof.
  intros Hl Hc Hl' before X later (k & [[-> E]|[-> E]])%app_eq_app.
  - destruct k as [|e k]; cbn in E; [by apply (Hl' [] X later)|]. injection E as <- ->.
    destruct (Hl before X k eq_refl) as [Hin|(Y & ok & Hin & HX)].
    + destruct Hc as [Hc|(Y & ok & HY & Hc)]; [left; set_solver|right]. exists Y, ok. split; [set_solver|set_solver].
    + right. exists Y, ok. split; [set_solver|done].
  - by apply (Hl' k X later).
Qed.

Lemma no_changed l' c : (forall X, Changed X ∉ l') -> forall before X later, l' = before ++ Changed X :: later -> carried X later c.
Proof. intros Hn before X later ->. destruct (Hn X). set_solver. Qed.

Lemma inv_step s s' : inv s -> step s s' -> inv s'.
Proof.
  intros [Hone Hall] Hs. destruct Hs as [tables|tables|table|n Hn|n Hn|n ok Hn].
  - by split.
  - by split.
  - destruct (concerned_spec table (cloud s)) as [[-> ->]|(X & HX & -> & ->)]; cbn [fst snd].
    + rewrite app_nil_r. by split.
    + split; cbn [cloud about scheduled log changes_].
      * rewrite gave_up_app, (bool_decide_eq_false_2 (changes_ (cloud s) ∪ X = ∅)) by set_solver.
        change (gave_up [Changed X]) with O. destruct (bool_decide (changes_ (cloud s) = ∅)); lia.
      * apply (carried_more _ _ (cloud s)); [done|left; set_solver|]. intros before X' later E. left. cbn.
        destruct before as [|e [|]]; cbn in E; inversion E; subst; set_solver.
  - split; cbn [cloud about scheduled log]; [|done]. rewrite Hn in Hone. lia.
  - split; cbn [cloud about scheduled log].
    + rewrite gave_up_app. change (gave_up [NoExecutor]) with 1%nat. rewrite Hn in Hone. lia.
    + apply (carried_more _ _ (cloud s)); [done|by left|]. apply no_changed. set_solver.
  - unfold handed, sync_task, Steal. destruct (bool_decide_reflect (changes_ (cloud s) = ∅)) as [E|E]; cbn [fst snd]; split; cbn [cloud about scheduled log changes_].
    + rewrite app_nil_r, bool_decide_eq_true_2 by done. lia.
    + apply (carried_more _ _ (cloud s)); [done|left; set_solver|]. apply no_changed. set_solver.
    + rewrite gave_up_app, bool_decide_eq_true_2 by done. change (gave_up [Handed _ ok]) with O. lia.
    + apply (carried_more _ _ (cloud s)); [done|right; exists (changes_ (cloud s)), ok; set_solver|]. apply no_changed. set_solver.
Qed.

Lemma inv_reachable s : reachable s -> inv s.
Proof.
  intros Hr. assert (inv init) as H0 by (split; [done|]; intros [] X later E; discriminate E). revert H0.
  induction Hr as [|x y z Hxy _ IH]; [done|]. intros Hx. apply IH. by eapply inv_step.
Qed.

End CloudSync.

(** ** Delayed notification of the service *)

Module DelayNotify.

Record RdbChangeProperties := { isTrackedDataChange : bool; isP2pSyncDataChange : bool; isKnowledgeDataChange : bool }.

(** [RdbChangedData::tableData]. *)
Notation tableData := (gmap string RdbChangeProperties).

Record RdbNotifyConfig := { delay_ : Z; config_isFull : bool }.

(** The thread pool and the task. *)
Class Executor (W : Type) := {
  Schedule : Z -> W -> Z * W;
  ResetTask : Z -> Z -> W -> Z * W;
  RemoveTask : Z -> W -> W;
  task : tableData -> RdbNotifyConfig -> W -> Z * W
}.

Definition AUTO_SYNC_INTERVAL : Z := 200.
Definition MAX_NOTIFY_INTERVAL : Z := 5000.
Definition SERVICE_INTERVAL : Z := 10000.
Definition AUTO_SYNC_MAX_INTERVAL : Z := 3000.
Definition INVALID_TASK_ID : Z := 0.

(** The object with its pool and its task. *)
Record t := {
  isInitialized_ : bool;
  isFull_ : bool;
  tableChanged_ : bool;
  lastTimePoint_ : Z;
  pauseCount_ : Z;
  delaySyncTaskId_ : Z;
  changedData_ : tableData;
  autoSyncInterval_ : Z
}.

Definition new : t :=
  {| isInitialized_ := false; isFull_ := false; tableChanged_ := false; lastTimePoint_ := 0; pauseCount_ := 0;
     delaySyncTaskId_ := 0; changedData_ := ∅; autoSyncInterval_ := AUTO_SYNC_INTERVAL |}.

Definition set_data (full changed : bool) (data : tableData) (d : t) : t :=
  {| isInitialized_ := isInitialized_ d; isFull_ := full; tableChanged_ := changed; lastTimePoint_ := lastTimePoint_ d;
     pauseCount_ := pauseCount_ d; delaySyncTaskId_ := delaySyncTaskId_ d; changedData_ := data;
     autoSyncInterval_ := autoSyncInterval_ d |}.

Definition set_timer (id interval : Z) (d : t) : t :=
  {| isInitialized_ := isInitialized_ d; isFull_ := isFull_ d; tableChanged_ := tableChanged_ d;
     lastTimePoint_ := lastTimePoint_ d; pauseCount_ := pauseCount_ d; delaySyncTaskId_ := id;
     changedData_ := changedData_ d; autoSyncInterval_ := interval |}.

Definition set_pause (n : Z) (d : t) : t :=
  {| isInitialized_ := isInitialized_ d; isFull_ := isFull_ d; tableChanged_ := tableChanged_ d;
     lastTimePoint_ := lastTimePoint_ d; pauseCount_ := n; delaySyncTaskId_ := delaySyncTaskId_ d;
     changedData_ := changedData_ d; autoSyncInterval_ := autoSyncInterval_ d |}.

Definition set_time (now : Z) (d : t) : t :=
  {| isInitialized_ := true; isFull_ := isFull_ d; tableChanged_ := tableChanged_ d;
     lastTimePoint_ := now; pauseCount_ := pauseCount_ d; delaySyncTaskId_ := delaySyncTaskId_ d;
     changedData_ := changedData_ d; autoSyncInterval_ := autoSyncInterval_ d |}.

(** What is reported to the service or to the knowledge base; a change that is only tracked is not. *)
Definition relevant (v : RdbChangeProperties) : bool := isP2pSyncDataChange v || isKnowledgeDataChange v.

(** The loop of [UpdateNotify] over the tables, in the order of their names: a table that is
    already waiting keeps what was said first. *)
Definition merge_new (changed : list (string * RdbChangeProperties)) (d : t) : t :=
  foldl (fun d '(k, v) =>
    if negb (isP2pSyncDataChange v) && negb (isKnowledgeDataChange v) then d
    else match changedData_ d !! k with
         | Some _ => d
         | None => set_data (isFull_ d) true (<[k := v]> (changedData_ d)) d
         end) d changed.

Section Notify.
Context {W : Type} `{Executor W}.

(** [StartTimer] at the time [now] (nanoseconds); the pool is there. *)
Definition StartTimer (now : Z) (d : t) (w : W) : t * W :=
  let changedData := changedData_ d in
  let isFull := isFull_ d in
  let '(id, w1) :=
    if delaySyncTaskId_ d =? INVALID_TASK_ID then Schedule (autoSyncInterval_ d) w
    else ResetTask (delaySyncTaskId_ d) (autoSyncInterval_ d) w in
  let d1 := set_timer id (autoSyncInterval_ d) d in
  if bool_decide (changedData = ∅) then (d1, w1)
  else
    let elapsed := MAX_NOTIFY_INTERVAL <=? Z.quot (now - lastTimePoint_ d1) 1000000 in
    let due := negb (isInitialized_ d1) || elapsed in
    let d2 := if due then set_time now d1 else d1 in
    let needExecTask := due || tableChanged_ d2 in
    let d3 := if tableChanged_ d2 then set_data (isFull_ d2) false (changedData_ d2) d2 else d2 in
    if needExecTask then (d3, snd (task changedData {| delay_ := SERVICE_INTERVAL; config_isFull := isFull |} w1))
    else (d3, w1).

Definition UpdateNotify (now : Z) (changed : list (string * RdbChangeProperties)) (isFull : bool) (d : t) (w : W) : t * W :=
  let d1 := merge_new changed d in
  StartTimer now (set_data (isFull_ d1 || isFull) (tableChanged_ d1) (changedData_ d1) d1) w.

Definition StopTimer (d : t) (w : W) : t * W :=
  (set_timer INVALID_TASK_ID (autoSyncInterval_ d) d, RemoveTask (delaySyncTaskId_ d) w).

(** [ExecuteTask] up to the call of the task: what it takes along. *)
Definition execute_take (d : t) (w : W) : tableData * bool * t * W :=
  let d1 := set_timer (delaySyncTaskId_ d) AUTO_SYNC_INTERVAL d in
  let '(d2, w1) := StopTimer d1 w in
  (changedData_ d, isFull_ d, set_data false (tableChanged_ d2) ∅ d2, w1).

(** [ExecuteTask] after the task answered [errCode]: what failed waits again. *)
Definition execute_settle (errCode : Z) (data : tableData) (d : t) : t :=
  if errCode =? 0 then d else set_data (isFull_ d) (tableChanged_ d) (data ∪ changedData_ d) d.

Definition ExecuteTask (d : t) (w : W) : t * W :=
  let '(data, isFull, d1, w1) := execute_take d w in
  if bool_decide (data <> ∅) || isFull then
    let '(errCode, w2) := task data {| delay_ := 0; config_isFull := isFull |} w1 in
    (execute_settle errCode data d1, w2)
  else (d1, w1).

Definition SetAutoSyncInterval (interval : Z) (d : t) : t := set_timer (delaySyncTaskId_ d) interval d.

Definition Pause (d : t) (w : W) : t * W :=
  let '(d1, w1) := StopTimer d w in (set_pause (pauseCount_ d1 + 1) d1, w1).

Definition Resume (now : Z) (d : t) (w : W) : t * W :=
  let d1 := set_pause (pauseCount_ d - 1) d in
  if pauseCount_ d1 =? 0 then StartTimer now d1 w else (d1, w).

(** The constructor and the destructor of [PauseDelayNotify]. *)
Definition pause_begin (d : t) (w : W) : t * W :=
  let '(d1, w1) := Pause d w in (SetAutoSyncInterval AUTO_SYNC_MAX_INTERVAL d1, w1).

Definition pause_end : Z -> t -> W -> t * W := Resume.

(** The destructor. *)
Definition destroy (d : t) (w : W) : W :=
  let w1 := if negb (delaySyncTaskId_ d =? INVALID_TASK_ID) then RemoveTask (delaySyncTaskId_ d) w else w in
  if bool_decide (changedData_ d <> ∅) || isFull_ d
  then snd (task (changedData_ d) {| delay_ := 0; config_isFull := isFull_ d |} w1) else w1.

End Notify.

(** The task of [InitDelayNotifier]: whether the knowledge base and the service hear of the data. *)
Definition IsKnowledgeDataChange (data : tableData) : bool := existsb (fun '(_, v) => isKnowledgeDataChange v) (map_to_list data).

Definition IsNotifyService (data : tableData) (config : RdbNotifyConfig) : bool :=
  if config_isFull config then true else existsb (fun '(_, v) => isP2pSyncDataChange v) (map_to_list data).

End DelayNotify.

(** ** Observers inside the process *)

Module Observers.

(** Observers are numbers; the lists refer to them weakly, [alive] says which still exist. *)
Definition list_t : Type := list nat.

Record t := { localObservers_ : gmap string list_t }.

Section Obs.
Context (alive : nat -> bool).

(** [getObserver]: the observer of an entry, if it still exists. *)
Definition getObserver (o : nat) : option nat := if alive o then Some o else None.

Definition same (observer : option nat) (o : nat) : bool := bool_decide (getObserver o = observer).

(** [SubscribeLocal]; a null observer is not modelled as an entry, its callers pass one that exists. *)
Definition SubscribeLocal (event : string) (observer : nat) (s : t) : errno * t :=
  let obs := default [] (localObservers_ s !! event) in
  if existsb (same (Some observer)) obs then (E_OK, {| localObservers_ := <[event := obs]> (localObservers_ s) |})
  else (E_OK, {| localObservers_ := <[event := obs ++ [observer]]> (localObservers_ s) |}).

(** The loop of [UnSubscribeLocal]: all entries without an observer to look for, else the first. *)
Fixpoint erase (observer : option nat) (obs : list nat) : list nat :=
  match obs with
  | [] => []
  | o :: rest =>
      match observer with
      | None => erase observer rest
      | Some _ => if same observer o then rest else o :: erase observer rest
      end
  end.

Definition UnSubscribeLocal (event : string) (observer : option nat) (s : t) : errno * t :=
  match localObservers_ s !! event with
  | None => (E_OK, s)
  | Some obs =>
      let obs' := erase observer obs in
      (E_OK, {| localObservers_ := if bool_decide (obs' = []) then delete event (localObservers_ s)
                                   else <[event := obs']> (localObservers_ s) |})
  end.

(** The local part of [Notify]: who is called, in order. *)
Definition Notify (event : string) (s : t) : list nat :=
  omap getObserver (default [] (localObservers_ s !! event)).

End Obs.

Definition RDB_OBS_DUPLICATE_SUB : Z := -1.

(** [RdbObsManager]: [register] and [unregister] are the functions of the adapter library, [None] for one that could
    not be found. *)
Section Manager.
Context {W : Type}.
Context (register : option (string -> nat -> W -> Z * W)) (unregister : option (string -> option nat -> W -> Z * W)).

Definition Register (uri : string) (obs : nat) (m : gmap string (list nat)) (w : W) : (errno + Z) * gmap string (list nat) * W :=
  match register with
  | None => (inl E_ERROR, m, w)
  | Some registerFunc =>
      let '(code, w1) := registerFunc uri obs w in
      if code =? 0 then (inl E_OK, <[uri := default [] (m !! uri) ++ [obs]]> m, w1)
      else if code =? RDB_OBS_DUPLICATE_SUB then (inl E_OK, m, w1) else (inr code, m, w1)
  end.

(** The first entry of the observer. *)
Fixpoint remove_first (obs : nat) (l : list nat) : list nat :=
  match l with [] => [] | o :: rest => if (o =? obs)%nat then rest else o :: remove_first obs rest end.

Definition Unregister (uri : string) (obs : option nat) (m : gmap string (list nat)) (w : W) : (errno + Z) * gmap string (list nat) * W :=
  match unregister with
  | None => (inl E_ERROR, m, w)
  | Some unregisterFunc =>
      let '(code, w1) := unregisterFunc uri obs w in
      if negb (code =? 0) then (inr code, m, w1)
      else
        let value := match obs with None => [] | Some o => remove_first o (default [] (m !! uri)) end in
        (inl E_OK, if bool_decide (value = []) then delete uri m else <[uri := value]> m, w1)
  end.

End Manager.

End Observers.

(** ** The theorems *)

Module NotifyProps.
Import CloudTables CloudSync DelayNotify Observers.

(** C28: However threads that change tables, the settings of the tables and the tasks of the executor interleave while the
    store lives, one synchronisation is on its way (a thread is about to schedule it, or it is scheduled), or one thread found
    no executor and gave up, exactly when there are changes that were not yet handed to [InnerSync]; otherwise nothing is on
    its way.  And every change of a table that is set to be synchronised still waits, or was handed to [InnerSync] after it
    happened.  Whether [InnerSync] succeeds is not looked at, and nothing wakes the changes of a thread that gave up. *)
Theorem cloud_sync_on_its_way s :
  reachable s ->
  (about s + scheduled s + gave_up (log s) = if bool_decide (changes_ (cloud s) = ∅) then 0 else 1)%nat /\
  forall before X later, log s = before ++ Changed X :: later ->
    X ⊆ changes_ (cloud s) \/ exists Y ok, Handed Y ok ∈ later /\ X ⊆ Y.
Proof. intros Hr. by destruct (inv_reachable s Hr). Qed.

Lemma rtc_eq {A} (R : relation A) x y : x = y -> rtc R x y.
Proof. intros ->. apply rtc_refl. Qed.

(** One change of a table [a], and its task. *)
Definition demo_cloud : st :=
  {| cloud := {| tables_ := {[ "a" ]}; changes_ := {[ "a" ]} |}; about := 0; scheduled := 1; log := [Changed {[ "a" ]}] |}.

Lemma demo_cloud_reachable : reachable demo_cloud.
Proof.
  eapply rtc_l; [exact (s_add init ["a"])|]. eapply rtc_l; [eapply (s_change _ "a")|].
  eapply rtc_l; [eapply (s_schedule _ 0); reflexivity|]. apply rtc_eq. vm_compute. reflexivity.
Qed.

Lemma cloud_sync_on_its_way_witness : (about demo_cloud + scheduled demo_cloud + gave_up (log demo_cloud) = 1)%nat.
Proof. exact (proj1 (cloud_sync_on_its_way demo_cloud demo_cloud_reachable)). Defined.

(** A change that finds no executor stays where it is: nothing is scheduled for it, and no later change of any
    table asks for a synchronisation again. *)
Theorem missing_executor_stalls :
  exists s, reachable s /\ changes_ (cloud s) <> ∅ /\ (about s + scheduled s = 0)%nat /\
    forall tables, let c := foldl (fun c tb => snd (Change tb c)) (cloud s) tables in
      forall table, fst (Change table c) = false.
Proof.
  exists {| cloud := {| tables_ := {[ "a" ]}; changes_ := {[ "a" ]} |}; about := 0; scheduled := 0; log := [Changed {[ "a" ]}; NoExecutor] |}.
  split; [|split; [cbn; set_solver|split; [done|]]].
  - eapply rtc_l; [exact (s_add init ["a"])|]. eapply rtc_l; [eapply (s_change _ "a")|].
    eapply rtc_l; [eapply (s_refused _ 0); reflexivity|]. apply rtc_eq. vm_compute. reflexivity.
  - intros tables c table. cbn [cloud] in c. assert (Hne : forall tbs c, changes_ c <> ∅ -> changes_ (foldl (fun c tb => snd (Change tb c)) c tbs) <> ∅).
    { induction tbs as [|tb tbs IH]; intros c' Hc; [done|]. cbn [foldl]. apply IH.
      destruct (change_spec tb c') as [-> | (X & _ & ->)]; cbn; set_solver. }
    specialize (Hne tables {| tables_ := {[ "a" ]}; changes_ := {[ "a" ]} |} ltac:(cbn; set_solver)).
    fold c in Hne. destruct (change_spec table c) as [-> | (X & _ & ->)]; [done|]. cbn. by apply bool_decide_eq_false_2.
Qed.

(** Changes that were handed to an [InnerSync] that failed are not handed to another one. *)
Theorem failed_sync_forgotten :
  exists s, reachable s /\ changes_ (cloud s) = ∅ /\ (about s + scheduled s = 0)%nat /\
    log s = [Changed {[ "a" ]}; Handed {[ "a" ]} false].
Proof.
  exists {| cloud := {| tables_ := {[ "a" ]}; changes_ := ∅ |}; about := 0; scheduled := 0; log := [Changed {[ "a" ]}; Handed {[ "a" ]} false] |}.
  split; [|done]. eapply rtc_r; [exact demo_cloud_reachable|]. exact (s_run demo_cloud 0 false eq_refl).
Qed.

(** *** Delayed notifications *)

Lemma merge_new_dom changed d :
  dom (changedData_ (merge_new changed d)) = dom (changedData_ d) ∪ list_to_set (map fst (filter (fun p => relevant p.2 = true) changed)).
Proof.
  revert d. induction changed as [|[k v] changed IH]; intros d; [set_solver|].
  change (merge_new ((k, v) :: changed) d) with (merge_new changed
    (if negb (isP2pSyncDataChange v) && negb (isKnowledgeDataChange v) then d
     else match changedData_ d !! k with
          | Some _ => d
          | None => set_data (isFull_ d) true (<[k := v]> (changedData_ d)) d
          end)).
  rewrite filter_cons. cbn [snd].
  replace (negb (isP2pSyncDataChange v) && negb (isKnowledgeDataChange v)) with (negb (relevant v))
    by (unfold relevant; by rewrite negb_orb).
  destruct (decide (relevant v = true)) as [-> | ->%not_true_is_false]; cbn [negb map fst list_to_set]; [|apply IH].
  destruct (changedData_ d !! k) as [x|] eqn:E; rewrite IH; cbn [changedData_ set_data].
  - apply elem_of_dom_2 in E. set_solver.
  - rewrite dom_insert_L. set_solver.
Qed.

Lemma start_timer_data {W} `{Executor W} now d (w : W) :
  changedData_ (fst (StartTimer now d w)) = changedData_ d /\ isFull_ (fst (StartTimer now d w)) = isFull_ d.
Proof.
  unfold StartTimer. destruct (if _ : bool then _ else _) as [id w1]. destruct (bool_decide _); [done|].
  cbn zeta. destruct (_ || _) eqn:E1; destruct (tableChanged_ _) eqn:E2; cbn; repeat case_match; done.
Qed.

(** Tables go to the service or go on waiting: a report adds the tables that matter to the ones that wait, the
    timer takes all of them, and puts them back behind whatever was reported meanwhile when the
    service refuses them.  A report of a full change that the service refuses is not put back. *)
Theorem delayed_tables {W} `{Executor W} now changed full d (w : W) :
  dom (changedData_ (fst (UpdateNotify now changed full d w))) =
    dom (changedData_ d) ∪ list_to_set (map fst (filter (fun p => relevant p.2 = true) changed)) /\
  (let '(data, _, d1, _) := execute_take d w in data = changedData_ d /\ changedData_ d1 = ∅ /\ delaySyncTaskId_ d1 = INVALID_TASK_ID) /\
  (forall e data, e <> 0 -> dom (changedData_ (execute_settle e data d)) = dom data ∪ dom (changedData_ d)) /\
  (forall d' w', ExecuteTask d w = (d', w') -> isFull_ d' = false).
Proof.
  split; [|split; [done|split]].
  - unfold UpdateNotify. rewrite (proj1 (start_timer_data _ _ _)). apply merge_new_dom.
  - intros e data He. unfold execute_settle. rewrite (proj2 (Z.eqb_neq e 0)) by done. cbn. by rewrite dom_union_L.
  - intros d' w'. unfold ExecuteTask, execute_take, StopTimer. cbn. destruct (_ || _); [|by intros [= <- _]].
    destruct (task _ _ _) as [e w2]. intros [= <- _]. unfold execute_settle. by destruct (e =? 0).
Qed.

(** *** Observers *)

Inductive call := Sub (event : string) (observer : nat) | Unsub (event : string) (observer : option nat).

Definition run_call (alive : nat -> bool) (s : Observers.t) (c : call) : Observers.t :=
  match c with
  | Sub e o => snd (SubscribeLocal alive e o s)
  | Unsub e o => snd (UnSubscribeLocal alive e o s)
  end.

(** Who should hear of an event. *)
Definition spec_call (f : string -> list nat) (c : call) : string -> list nat :=
  match c with
  | Sub e o => fun e' => if decide (e' = e) then (if decide (o ∈ f e) then f e else f e ++ [o]) else f e'
  | Unsub e None => fun e' => if decide (e' = e) then [] else f e'
  | Unsub e (Some o) => fun e' => if decide (e' = e) then filter (fun x => x <> o) (f e) else f e'
  end.

Lemma same_all observer o : Observers.same (fun _ => true) (Some observer) o = bool_decide (o = observer).
Proof. unfold Observers.same, getObserver. apply bool_decide_ext. naive_solver. Qed.

Lemma erase_none al l : erase al None l = [].
Proof. induction l; [done|]. exact IHl. Qed.

Lemma filter_others (o : nat) (l : list nat) : (o ∉ l) -> filter (fun x => x <> o) l = l.
Proof.
  induction l as [|x l IH]; [done|]. intros [Hx Hl]%not_elem_of_cons. rewrite filter_cons, decide_True by auto. by rewrite IH.
Qed.

Lemma erase_some o l : NoDup l -> erase (fun _ => true) (Some o) l = filter (fun x => x <> o) l.
Proof.
  induction l as [|x l IH]; [done|]. intros [Hx Hl]%NoDup_cons. cbn [erase]. rewrite same_all, filter_cons.
  destruct (bool_decide_reflect (x = o)) as [-> | Hne].
  - rewrite decide_False by auto. by rewrite filter_others.
  - rewrite decide_True by done. by rewrite IH.
Qed.

(** The observers of the store are those of the specification. *)
Definition hears (s : Observers.t) (f : string -> list nat) : Prop :=
  forall e, default [] (localObservers_ s !! e) = f e /\ NoDup (f e).

Lemma hears_set s f e l :
  hears s f -> NoDup l ->
  hears {| localObservers_ := <[e := l]> (localObservers_ s) |} (fun e' => if decide (e' = e) then l else f e').
Proof.
  intros Hh Hl e'. cbn. destruct (decide (e' = e)) as [-> | Hne].
  - by rewrite lookup_insert_eq.
  - rewrite lookup_insert_ne by auto. apply Hh.
Qed.

Lemma hears_delete s f e :
  hears s f -> hears {| localObservers_ := delete e (localObservers_ s) |} (fun e' => if decide (e' = e) then [] else f e').
Proof.
  intros Hh e'. cbn. destruct (decide (e' = e)) as [-> | Hne].
  - rewrite lookup_delete_eq. split; [done|constructor].
  - rewrite lookup_delete_ne by auto. apply Hh.
Qed.

Lemma hears_ext s f g : hears s f -> (forall e, f e = g e) -> hears s g.
Proof. intros Hh He e. rewrite <- He. apply Hh. Qed.

Lemma call_follows s f c : hears s f -> hears (run_call (fun _ => true) s c) (spec_call f c).
Proof.
  intros Hh. destruct c as [e o|e o]; cbn [run_call].
  - unfold SubscribeLocal. destruct (Hh e) as [-> Hd]. cbn [spec_call].
    assert (existsb (same (fun _ => true) (Some o)) (f e) = bool_decide (o ∈ f e)) as ->.
    { apply eq_true_iff_eq. rewrite existsb_exists, bool_decide_eq_true. setoid_rewrite same_all.
      setoid_rewrite bool_decide_eq_true. setoid_rewrite <- list_elem_of_In. naive_solver. }
    case_decide; [rewrite bool_decide_eq_true_2 by done|rewrite bool_decide_eq_false_2 by done]; cbn [snd].
    + by apply hears_set.
    + apply hears_set; [done|]. apply NoDup_app. split; [done|]. split; [set_solver|apply NoDup_singleton].
  - unfold UnSubscribeLocal. destruct (Hh e) as [He Hd].
    assert (Hl : forall l, (default [] (localObservers_ s !! e) = [] -> l = []) -> NoDup l ->
      hears (snd (match localObservers_ s !! e with
        | None => (E_OK, s)
        | Some _ => (E_OK, {| localObservers_ := if bool_decide (l = []) then delete e (localObservers_ s)
                                                 else <[e := l]> (localObservers_ s) |})
        end)) (fun e' => if decide (e' = e) then l else f e')).
    { intros l Hnil Hn. destruct (localObservers_ s !! e) as [obs|] eqn:E; cbn [snd].
      - destruct (bool_decide_reflect (l = [])) as [-> |]; [by apply hears_delete|by apply hears_set].
      - rewrite (Hnil eq_refl). eapply hears_ext; [exact Hh|]. intros e'. case_decide as He'; [|done]. subst e'. by rewrite <- He. }
    destruct o as [o|]; cbn [spec_call].
    + specialize (Hl (filter (fun x => x <> o) (f e))). rewrite He in Hl.
      destruct (localObservers_ s !! e) as [obs|]; cbn [default from_option id] in He.
      * subst obs. rewrite erase_some by done. apply Hl; [by intros ->|by apply NoDup_filter].
      * apply Hl; [by intros ->|by apply NoDup_filter].
    + specialize (Hl [] ltac:(done) ltac:(constructor)). destruct (localObservers_ s !! e) as [obs|]; [|done].
      by rewrite erase_none.
Qed.

Definition no_observers : Observers.t := {| localObservers_ := ∅ |}.

(** After any subscriptions and their withdrawals, as long as the observers exist, an event is
    reported to each observer that is subscribed, once, in the order of the subscriptions. *)
Theorem observers_follow cs event :
  Notify (fun _ => true) event (foldl (run_call (fun _ => true)) no_observers cs) =
  foldl spec_call (fun _ => []) cs event.
Proof.
  assert (Hh : forall calls s f, hears s f -> hears (foldl (run_call (fun _ => true)) s calls) (foldl spec_call f calls)).
  { intros calls. induction calls as [|c calls IH]; intros s f H; [exact H|]. apply IH. by apply call_follows. }
  assert (H0 : hears no_observers (fun _ => [])) by (intros e; cbn; rewrite lookup_empty; split; [done|constructor]).
  destruct (Hh cs _ _ H0 event) as [He _].
  unfold Notify. rewrite He. generalize (foldl spec_call (fun _ => []) cs event). clear. intros l.
  induction l as [|x l IH]; [done|]. cbn. by f_equal.
Qed.

End NotifyProps.
