(* ===== verification/Store.v ===== *)
(** * The store

    [BaseTransaction]: frameworks/native/rdb/src/base_transaction.cpp.
    [Store]: the operations of frameworks/native/rdb/src/rdb_store_impl.cpp on the data, the nested
    transactions on the writing connection, the numbered transactions of vector stores, the
    version of the schema and the opening callbacks.  The pool, the connections and the state of a
    restore are the class [Database]; statements are the class [Statements] of [Transactions];
    the delayed notification is [DelayNotify].
    [StoreInv]: nested transactions and the savepoints of SQLite.
    [StoreProps]: the theorems.

    One thread at a time: the transaction functions hold the mutex of the stack, the others work on
    a connection that nobody else has. *)
From Stdlib Require Import ZArith Lia Ascii.
From stdpp Require Import base gmap list strings pretty.
From S2P Require Import Prelude CppStd Errno Values StringUtils Predicates SqlBuilder SharedBlock FillBlock ResultSet Transactions Notify.

Local Open Scope Z_scope.

Module BaseTransaction.

(** [TransType]. *)
Definition ROLLBACK_SELF : Z := 1.
Definition ROLLBACK_PARENT : Z := 2.

Record t := {
  allBeforeSuccessful : bool;
  markedSuccessful : bool;
  childFailure : bool;
  type : Z;
  id : nat
}.

(** The constructor. *)
Definition new (id : nat) : t :=
  {| allBeforeSuccessful := true; markedSuccessful := false; childFailure := false; type := ROLLBACK_SELF; id := id |}.

Definition SetChildFailure (failureFlag : bool) (b : t) : t :=
  {| allBeforeSuccessful := allBeforeSuccessful b; markedSuccessful := markedSuccessful b; childFailure := failureFlag;
     type := type b; id := id b |}.

Definition TRANS_STR : string := "TRANS_STR".

Definition GetTransactionStr (b : t) : string :=
  (if (id b =? 0)%nat then "BEGIN EXCLUSIVE" else "SAVEPOINT " +:+ TRANS_STR +:+ pretty (id b)) +:+ ";".

Definition GetCommitStr (b : t) : string := (if (id b =? 0)%nat then "COMMIT" else EmptyString) +:+ ";".

Definition GetRollbackStr (b : t) : string :=
  (if (id b =? 0)%nat then "ROLLBACK" else "ROLLBACK TO " +:+ TRANS_STR +:+ pretty (id b)) +:+ ";".

End BaseTransaction.

Module Store.
Import Conn.
Notation BaseTransaction := BaseTransaction.t.
Notation Results := TransDB.Results.
Notation ReturningConfig := TransDB.ReturningConfig.

(** The pool with its connections, and what a restore from the backup database needs.
    [EndRestoring] is [SetSlaveRestoring(false)] with the unlock, [NeedsRestore] whether
    [GenerateExchangeStrategy] answers [RESTORE]. *)
Class Database (W : Type) `{Statements W} := {
  conn : Type;
  AcquireConnection : bool -> W -> option conn * W;
  CreateTransConn : bool -> W -> errno * option conn * W;
  RestartConns : W -> errno * W;
  IsWriter : conn -> bool;
  ReadOnly : stmt -> bool;
  MaxVariable : conn -> W -> Z;
  CreateStatementOn : conn -> string -> string -> W -> errno * option stmt * W;
  CreateReplicaStatement : conn -> string -> string -> W -> errno * option stmt * W;
  IsSlaveRestoring : W -> bool;
  KeyLock : W -> errno * W;
  EndRestoring : W -> W;
  NeedsRestore : conn -> W -> bool;
  CheckReplicaForRestore : conn -> W -> errno * W;
  StartAsyncRestore : W -> errno * W
}.

(** One connection of the pool. *)
Definition view {W} `{Database W} (h : conn) : Connection W :=
  {| GetMaxVariable := MaxVariable h; CreateStatement := CreateStatementOn h |}.

(** What the store keeps in its pool. *)
Record pool := { isInTransaction_ : bool; transactionStack_ : list BaseTransaction }.

(** The members of the store; [dbVector] is [GetDBType() == DB_VECTOR], [haMode] is
    [GetHaMode() != SINGLE], [scheduled] the cloud tasks given to the executor. *)
Record t (C : Type) := {
  isReadOnly_ : bool;
  isMemoryRdb_ : bool;
  isUseReplicaDb_ : bool;
  dbVector : bool;
  isVector : bool;
  haMode : bool;
  connectionPool_ : option pool;
  vSchema_ : Z;
  newTrxId_ : Z;
  trxConnMap_ : gmap Z C;
  cloudInfo_ : CloudTables.t;
  executor : bool;
  scheduled : nat;
  delayNotifier_ : option DelayNotify.t
}.
Arguments isReadOnly_ {C}. Arguments isMemoryRdb_ {C}. Arguments isUseReplicaDb_ {C}. Arguments dbVector {C}.
Arguments isVector {C}. Arguments haMode {C}. Arguments connectionPool_ {C}. Arguments vSchema_ {C}.
Arguments newTrxId_ {C}. Arguments trxConnMap_ {C}. Arguments cloudInfo_ {C}. Arguments executor {C}.
Arguments scheduled {C}. Arguments delayNotifier_ {C}.

Section Setters.
Context {C : Type}.

Definition set_pool (p : option pool) (s : t C) : t C :=
  {| isReadOnly_ := isReadOnly_ s; isMemoryRdb_ := isMemoryRdb_ s; isUseReplicaDb_ := isUseReplicaDb_ s; dbVector := dbVector s;
     isVector := isVector s; haMode := haMode s; connectionPool_ := p; vSchema_ := vSchema_ s; newTrxId_ := newTrxId_ s;
     trxConnMap_ := trxConnMap_ s; cloudInfo_ := cloudInfo_ s; executor := executor s; scheduled := scheduled s;
     delayNotifier_ := delayNotifier_ s |}.

Definition set_schema (v : Z) (s : t C) : t C :=
  {| isReadOnly_ := isReadOnly_ s; isMemoryRdb_ := isMemoryRdb_ s; isUseReplicaDb_ := isUseReplicaDb_ s; dbVector := dbVector s;
     isVector := isVector s; haMode := haMode s; connectionPool_ := connectionPool_ s; vSchema_ := v; newTrxId_ := newTrxId_ s;
     trxConnMap_ := trxConnMap_ s; cloudInfo_ := cloudInfo_ s; executor := executor s; scheduled := scheduled s;
     delayNotifier_ := delayNotifier_ s |}.

Definition set_trx (next : Z) (m : gmap Z C) (s : t C) : t C :=
  {| isReadOnly_ := isReadOnly_ s; isMemoryRdb_ := isMemoryRdb_ s; isUseReplicaDb_ := isUseReplicaDb_ s; dbVector := dbVector s;
     isVector := isVector s; haMode := haMode s; connectionPool_ := connectionPool_ s; vSchema_ := vSchema_ s; newTrxId_ := next;
     trxConnMap_ := m; cloudInfo_ := cloudInfo_ s; executor := executor s; scheduled := scheduled s;
     delayNotifier_ := delayNotifier_ s |}.

Definition set_cloud (c : CloudTables.t) (n : nat) (s : t C) : t C :=
  {| isReadOnly_ := isReadOnly_ s; isMemoryRdb_ := isMemoryRdb_ s; isUseReplicaDb_ := isUseReplicaDb_ s; dbVector := dbVector s;
     isVector := isVector s; haMode := haMode s; connectionPool_ := connectionPool_ s; vSchema_ := vSchema_ s;
     newTrxId_ := newTrxId_ s; trxConnMap_ := trxConnMap_ s; cloudInfo_ := c; executor := executor s; scheduled := n;
     delayNotifier_ := delayNotifier_ s |}.

Definition set_notifier (d : option DelayNotify.t) (s : t C) : t C :=
  {| isReadOnly_ := isReadOnly_ s; isMemoryRdb_ := isMemoryRdb_ s; isUseReplicaDb_ := isUseReplicaDb_ s; dbVector := dbVector s;
     isVector := isVector s; haMode := haMode s; connectionPool_ := connectionPool_ s; vSchema_ := vSchema_ s;
     newTrxId_ := newTrxId_ s; trxConnMap_ := trxConnMap_ s; cloudInfo_ := cloudInfo_ s; executor := executor s;
     scheduled := scheduled s; delayNotifier_ := d |}.

(** [DoCloudSync]. *)
Definition DoCloudSync (table : string) (s : t C) : t C :=
  let '(c, n) := CloudTables.DoCloudSync (executor s) table (cloudInfo_ s) (scheduled s) in set_cloud c n s.

End Setters.

Section Ops.
Context {W : Type} `{Database W} `{DelayNotify.Executor W}.
Notation store := (t conn).

Definition GetConn (isRead : bool) (s : store) (w : W) : errno * option conn * W :=
  match connectionPool_ s with
  | None => (E_ALREADY_CLOSED, None, w)
  | Some _ =>
      match AcquireConnection isRead w with
      | (None, w1) => (E_DATABASE_BUSY, None, w1)
      | (Some c, w1) => (E_OK, Some c, w1)
      end
  end.

(** [GetStatement(sql, conn, returningSql)]. *)
Definition GetStatementOn (sql : string) (c : option conn) (returningSql : string) (s : store) (w : W)
    : errno * option stmt * W :=
  match c with
  | None => (E_DATABASE_BUSY, None, w)
  | Some h =>
      if haMode s && IsSlaveRestoring w then
        let '(ret, w1) := KeyLock w in
        if negb (is_ok ret) then
          if isUseReplicaDb_ s then CreateReplicaStatement h sql returningSql w1 else (E_DATABASE_BUSY, None, w1)
        else
          let w2 := EndRestoring w1 in
          if negb (NeedsRestore h w2) then CreateStatementOn h sql returningSql w2
          else
            let '(result, w3) := CheckReplicaForRestore h w2 in
            if is_ok result then
              let '(_, w4) := StartAsyncRestore w3 in CreateReplicaStatement h sql returningSql w4
            else CreateStatementOn h sql returningSql w3
      else CreateStatementOn h sql returningSql w
  end.

(** [GetStatement(sql, read, returningSql)]. *)
Definition GetStatement (sql : string) (read : bool) (returningSql : string) (s : store) (w : W) : errno * option stmt * W :=
  match connectionPool_ s with
  | None => (E_ALREADY_CLOSED, None, w)
  | Some _ =>
      match AcquireConnection read w with
      | (None, w1) => (E_DATABASE_BUSY, None, w1)
      | (Some c, w1) => GetStatementOn sql (Some c) returningSql s w1
      end
  end.

Definition BeginExecuteSql (sql : string) (s : store) (w : W) : errno * option stmt * W :=
  let ty := SqliteUtils.GetSqlStatementType sql in
  if SqliteUtils.IsSpecial ty then (E_NOT_SUPPORT, None, w)
  else
    match connectionPool_ s with
    | None => (E_ALREADY_CLOSED, None, w)
    | Some _ =>
        match AcquireConnection (SqliteUtils.IsSqlReadOnly ty) w with
        | (None, w1) => (E_DATABASE_BUSY, None, w1)
        | (Some c, w1) =>
            match GetStatementOn sql (Some c) EmptyString s w1 with
            | (errCode, None, w2) => (errCode, None, w2)
            | (errCode, Some st, w2) =>
                if ReadOnly st && IsWriter c then GetStatement sql true EmptyString s w2 else (errCode, Some st, w2)
            end
        end
    end.

(** [HandleSchemaDDL], without the comparison file and the knowledge schema: a new schema version
    restarts the reading connections. *)
Definition HandleSchemaDDL (st : stmt) (s : store) (w : W) : errno * store * W :=
  let '(_, st1, w1) := Reset st w in
  let '(_, st2, w2) := Prepare "PRAGMA schema_version" st1 w1 in
  let '(_, version, _, w3) := ExecuteForValue [] st2 w2 in
  let v := Value.to_int64 version in
  if vSchema_ s <? v then
    let s1 := set_schema v s in
    match connectionPool_ s1 with
    | None => (E_ALREADY_CLOSED, s1, w3)
    | Some _ => let '(e, w4) := RestartConns w3 in (e, s1, w4)
    end
  else (E_OK, s, w3).

(** *** Changes *)

Definition ExecuteForLastInsertedRowId (sql : string) (args : list ValueObject) (s : store) (w : W) : (errno * Z) * W :=
  if isReadOnly_ s || dbVector s then ((E_NOT_SUPPORT, -1), w)
  else
    match GetStatement sql false EmptyString s w with
    | (errCode, None, w1) => ((errCode, -1), w1)
    | (_, Some st, w1) =>
        let '(errCode, st1, w2) := Execute args st w1 in
        if negb (is_ok errCode) then ((errCode, -1), w2)
        else ((E_OK, if 0 <? Changes st1 w2 then LastInsertRowId st1 w2 else -1), w2)
    end.

(** [Insert]: the row with the statuses it set, the code and the row id. *)
Definition Insert (table : string) (row : Bucket.ValuesBucket) (resolution : Z) (s : store) (w : W)
    : Bucket.ValuesBucket * (errno * Z) * store * W :=
  if isReadOnly_ s || dbVector s then (row, (E_NOT_SUPPORT, -1), s, w)
  else
    match RdbSqlUtils.GetInsertSqlInfo table row resolution with
    | (row', Some (inr info)) =>
        let '((errCode, rowid), w1) := ExecuteForLastInsertedRowId (RdbSqlUtils.sql info) (RdbSqlUtils.args info) s w in
        (row', (errCode, rowid), if is_ok errCode then DoCloudSync table s else s, w1)
    | (row', Some (inl status)) => (row', (status, -1), s, w)
    | (row', None) => (row', (E_ERROR, -1), s, w)
    end.

Definition ExecuteForRow (sql : string) (args : list ValueObject) (config : ReturningConfig) (returningSql : string)
    (s : store) (w : W) : (errno * Results) * W :=
  if isReadOnly_ s || dbVector s then ((E_NOT_SUPPORT, TransDB.failed_results), w)
  else if negb (RdbSqlUtils.IsValidReturningMaxCount (TransDB.maxReturningCount config)) then
    ((E_INVALID_ARGS, TransDB.failed_results), w)
  else
    match GetStatement sql false returningSql s w with
    | (errCode, None, w1) => ((errCode, TransDB.failed_results), w1)
    | (_, Some st, w1) =>
        let '(errCode, values, st1, w2) := ExecuteForRows args (TransDB.maxReturningCount config) st w1 in
        (TransDB.GenerateResult errCode st1 w2 values true (TransDB.defaultRowIndex config), w2)
    end.

Definition ExecuteForChangedRowCount (sql : string) (args : list ValueObject) (s : store) (w : W) : (errno * Z) * W :=
  let '((code, result), w1) := ExecuteForRow sql args TransDB.no_returning EmptyString s w in
  ((code, TransDB.changed result), w1).

(** A change of rows tells the cloud. *)
Definition synced (table : string) (r : Results) (s : store) : store :=
  if 0 <? TransDB.changed r then DoCloudSync table s else s.

Definition Update (row : Bucket.ValuesBucket) (predicates : AbsRdbPreds.AbsRdbPredicates) (config : ReturningConfig)
    (resolution : Z) (s : store) (w : W) : (errno * Results) * store * W :=
  if isReadOnly_ s || dbVector s then ((E_NOT_SUPPORT, TransDB.failed_results), s, w)
  else
    match RdbSqlUtils.GetUpdateSqlInfo predicates row resolution with
    | inl status => ((status, TransDB.failed_results), s, w)
    | inr info =>
        let '((code, result), w1) := ExecuteForRow (RdbSqlUtils.sql info) (RdbSqlUtils.args info) config
          (SqliteSqlBuilder.GetReturningSql (TransDB.columns config)) s w in
        ((code, result), synced (AbsRdbPreds.tableName_ predicates) result s, w1)
    end.

Definition Delete (predicates : AbsRdbPreds.AbsRdbPredicates) (config : ReturningConfig) (s : store) (w : W)
    : (errno * Results) * store * W :=
  if isReadOnly_ s || dbVector s then ((E_NOT_SUPPORT, TransDB.failed_results), s, w)
  else
    match RdbSqlUtils.GetDeleteSqlInfo predicates with
    | inl status => ((status, TransDB.failed_results), s, w)
    | inr info =>
        let '((code, result), w1) := ExecuteForRow (RdbSqlUtils.sql info) (AbsPreds.bindArgs (AbsRdbPreds.base predicates)) config
          (SqliteSqlBuilder.GetReturningSql (TransDB.columns config)) s w in
        ((code, result), synced (AbsRdbPreds.tableName_ predicates) result s, w1)
    end.

(** [PauseDelayNotify] around [op]. *)
Definition paused {R} (now : Z) (op : store -> W -> R * store * W) (s : store) (w : W) : R * store * W :=
  let '(s1, w1) :=
    match delayNotifier_ s with
    | None => (s, w)
    | Some d => let '(d1, w1) := DelayNotify.pause_begin d w in (set_notifier (Some d1) s, w1)
    end in
  let '(r, s2, w2) := op s1 w1 in
  match delayNotifier_ s2 with
  | None => (r, s2, w2)
  | Some d => let '(d1, w3) := DelayNotify.pause_end now d w2 in (r, set_notifier (Some d1) s2, w3)
  end.

(** The statements of [BatchInsert]: [None] for all of them, else what it returns early. *)
Fixpoint batch_loop (h : conn) (sqls : list (string * list (list ValueObject))) (s : store) (w : W) : option (errno * Z) * W :=
  match sqls with
  | [] => (None, w)
  | (sql, bindArgs) :: rest =>
      match GetStatementOn sql (Some h) EmptyString s w with
      | (_, None, w1) => (Some (E_OK, -1), w1)
      | (_, Some st, w1) =>
          let '(errCode, w2) := TransDB.execute_all st bindArgs w1 in
          if bool_decide (errCode = E_SQLITE_LOCKED) || bool_decide (errCode = E_SQLITE_BUSY) then (Some (errCode, -1), w2)
          else if negb (is_ok errCode) then (Some (E_OK, -1), w2)
          else batch_loop h rest s w2
      end
  end.

(** [BatchInsert(table, rows)]; the pause ends when the function returns, behind [DoCloudSync]. *)
Definition BatchInsert (now : Z) (table : string) (rows : Buckets.ValuesBuckets) (s : store) (w : W) : (errno * Z) * store * W :=
  if isReadOnly_ s then ((E_NOT_SUPPORT, -1), s, w)
  else if (Buckets.RowSize rows =? 0)%nat then ((E_OK, 0), s, w)
  else
    match connectionPool_ s with
    | None => ((E_ALREADY_CLOSED, -1), s, w)
    | Some _ =>
        match AcquireConnection false w with
        | (None, w1) => ((E_DATABASE_BUSY, -1), s, w1)
        | (Some h, w1) =>
            let sqls := TransDB.batch_of table rows (MaxVariable h w1) (Z.to_nat RdbSqlUtils.ON_CONFLICT_REPLACE) in
            match sqls with
            | [] => ((E_INVALID_ARGS, -1), s, w1)
            | _ =>
                paused now (fun s w =>
                  match batch_loop h sqls s w with
                  | (Some r, w2) => (r, s, w2)
                  | (None, w2) => ((E_OK, Z.of_nat (Buckets.RowSize rows)), DoCloudSync table s, w2)
                  end) s w1
            end
        end
    end.

Definition ExecuteBatchInsertReturning (now : Z) (sql : string) (bindArgs : list ValueObject) (h : conn) (config : ReturningConfig)
    (s : store) (w : W) : (errno * Results) * store * W :=
  match GetStatementOn sql (Some h) (SqliteSqlBuilder.GetReturningSql (TransDB.columns config)) s w with
  | (errCode, None, w1) => ((errCode, TransDB.failed_results), s, w1)
  | (_, Some st, w1) =>
      paused now (fun s w =>
        let '(errCode, values, st1, w2) := ExecuteForRows bindArgs (TransDB.maxReturningCount config) st w in
        if bool_decide (errCode = E_SQLITE_LOCKED) || bool_decide (errCode = E_SQLITE_BUSY)
        then ((errCode, TransDB.failed_results), s, w2)
        else (TransDB.GenerateResult errCode st1 w2 values true (TransDB.defaultRowIndex config), s, w2)) s w1
  end.

(** [BatchInsert(table, rows, config, resolution)]: one statement, or nothing is done. *)
Definition BatchInsertReturning (now : Z) (table : string) (rows : Buckets.ValuesBuckets) (config : ReturningConfig)
    (resolution : nat) (s : store) (w : W) : (errno * Results) * store * W :=
  if isReadOnly_ s || dbVector s then ((E_NOT_SUPPORT, TransDB.failed_results), s, w)
  else if (Buckets.RowSize rows =? 0)%nat then ((E_OK, {| TransDB.changed := 0; TransDB.results := None |}), s, w)
  else
    match GetConn false s w with
    | (E_OK, Some h, w1) =>
        match TransDB.batch_of table rows (MaxVariable h w1) resolution with
        | [(sql, [bindArgs])] =>
            if negb (RdbSqlUtils.IsValidReturningMaxCount (TransDB.maxReturningCount config))
            then ((E_INVALID_ARGS, TransDB.failed_results), s, w1)
            else
              let '((errCode, result), s1, w2) := ExecuteBatchInsertReturning now sql bindArgs h config s w1 in
              ((errCode, result), synced table result s1, w2)
        | _ => ((E_INVALID_ARGS, TransDB.failed_results), s, w1)
        end
    | (code, _, w1) => ((code, TransDB.failed_results), s, w1)
    end.

(** *** Statements of the caller *)

(** [CheckAttach]: no ATTACH in WAL mode. *)
Definition CheckAttach (sql : string) (s : store) (w : W) : errno * W :=
  match Str.find_first (fun c => negb (Ascii.eqb c " ")) sql with
  | None => (E_OK, w)
  | Some index =>
      if negb (String.eqb (SqliteUtils.StrToUpper (Str.substr sql index 3)) "ATT") then (E_OK, w)
      else
        match GetStatement "PRAGMA journal_mode" false EmptyString s w with
        | (errCode, None, w1) => (errCode, w1)
        | (_, Some st, w1) =>
            let '(errCode, st1, w2) := Execute [] st w1 in
            if negb (is_ok errCode) then (errCode, w2)
            else
              let '(errorCode, v) := GetColumn 0 st1 w2 in
              if negb (is_ok errorCode) then (errorCode, w2)
              else
                let journalMode := SqliteUtils.StrToUpper (match v with VString j => j | _ => EmptyString end) in
                (if String.eqb journalMode "WAL" then E_NOT_SUPPORTED_ATTACH_IN_WAL_MODE else E_OK, w2)
        end
  end.

Definition ExecuteSql (sql : string) (args : list ValueObject) (s : store) (w : W) : errno * store * W :=
  if dbVector s || isReadOnly_ s then (E_NOT_SUPPORT, s, w)
  else
    let '(ret, w1) := CheckAttach sql s w in
    if negb (is_ok ret) then (ret, s, w1)
    else
      match BeginExecuteSql sql s w1 with
      | (errCode, None, w2) => (errCode, s, w2)
      | (_, Some st, w2) =>
          let '(errCode, st1, w3) := Execute args st w2 in
          if negb (is_ok errCode) then (errCode, s, w3)
          else
            let sqlType := SqliteUtils.GetSqlStatementType sql in
            let '(s1, w4) :=
              if sqlType =? SqliteUtils.STATEMENT_DDL then let '(_, s1, w4) := HandleSchemaDDL st1 s w3 in (s1, w4) else (s, w3) in
            (errCode, if (sqlType =? SqliteUtils.STATEMENT_UPDATE) || (sqlType =? SqliteUtils.STATEMENT_INSERT)
                      then DoCloudSync EmptyString s1 else s1, w4)
      end.

(** [HandleDifferentSqlTypes], after a statement that succeeded. *)
Definition HandleDifferentSqlTypes (st : stmt) (sqlType : Z) (s : store) (w : W) : (errno * ValueObject) * store * W :=
  if sqlType =? SqliteUtils.STATEMENT_INSERT then
    ((E_OK, VInt (if 0 <? Changes st w then LastInsertRowId st w else -1)), s, w)
  else if sqlType =? SqliteUtils.STATEMENT_UPDATE then ((E_OK, VInt (Changes st w)), s, w)
  else if (sqlType =? SqliteUtils.STATEMENT_PRAGMA) && (GetColumnCount st =? 1) then (GetColumn 0 st w, s, w)
  else if (sqlType =? SqliteUtils.STATEMENT_PRAGMA) && (1 <? GetColumnCount st) then ((E_NOT_SUPPORT_THE_SQL, VNil), s, w)
  else if sqlType =? SqliteUtils.STATEMENT_DDL then
    let '(_, s1, w1) := HandleSchemaDDL st s w in ((E_OK, VNil), s1, w1)
  else ((E_OK, VNil), s, w).

(** [ExecuteByTrxId]: a statement in a numbered transaction. *)
Definition ExecuteByTrxId (sql : string) (trxId : Z) (closeConnAfterExecute : bool) (bindArgs : list ValueObject)
    (s : store) (w : W) : errno * store * W :=
  if negb (isVector s) || isReadOnly_ s then (E_NOT_SUPPORT, s, w)
  else if trxId =? 0 then (E_INVALID_ARGS, s, w)
  else
    match trxConnMap_ s !! trxId with
    | None => (E_INVALID_ARGS, s, w)
    | Some h =>
        match GetStatementOn sql (Some h) EmptyString s w with
        | (E_OK, Some st, w1) =>
            let '(ret, _, w2) := Execute bindArgs st w1 in
            if negb (is_ok ret) then (ret, s, w2)
            else (E_OK, if closeConnAfterExecute then set_trx (newTrxId_ s) (delete trxId (trxConnMap_ s)) s else s, w2)
        | (ret, _, w1) => (ret, s, w1)
        end
    end.

Definition ExecuteSqlForValue (sql : string) (args : list ValueObject) (trxId : Z) (s : store) (w : W)
    : (errno * ValueObject) * store * W :=
  if isReadOnly_ s then ((E_NOT_SUPPORT, VNil), s, w)
  else
    let sqlType := SqliteUtils.GetSqlStatementType sql in
    if negb (SqliteUtils.IsSupportSqlForExecute sqlType) then ((E_NOT_SUPPORT_THE_SQL, VNil), s, w)
    else if isVector s && (0 <? trxId) then
      let '(e, s1, w1) := ExecuteByTrxId sql trxId false args s w in ((e, VNil), s1, w1)
    else
      match GetStatement sql false EmptyString s w with
      | (E_OK, Some st, w1) =>
          let '(errCode, st1, w2) := Execute args st w1 in
          if isVector s then ((errCode, VNil), s, w2)
          else if negb (is_ok errCode) then ((errCode, VNil), s, w2)
          else HandleDifferentSqlTypes st1 sqlType s w2
      | (errCode, _, w1) => ((if negb (is_ok errCode) then errCode else E_ERROR, VNil), s, w1)
      end.

Definition ExecuteExt (sql : string) (args : list ValueObject) (s : store) (w : W) : (errno * Results) * store * W :=
  if isReadOnly_ s || isVector s then ((E_NOT_SUPPORT, TransDB.failed_results), s, w)
  else
    let sqlType := SqliteUtils.GetSqlStatementType sql in
    if negb (SqliteUtils.IsSupportSqlForExecute sqlType) then ((E_NOT_SUPPORT_THE_SQL, TransDB.failed_results), s, w)
    else
      match GetStatement sql false EmptyString s w with
      | (E_OK, Some st, w1) =>
          let '(errCode, rows, st1, w2) := ExecuteForRows args TransDB.DEFAULT_RETURNING_COUNT st w1 in
          let '(errCode, result) := TransDB.GenerateResult errCode st1 w2 rows
            ((sqlType =? SqliteUtils.STATEMENT_INSERT) || (sqlType =? SqliteUtils.STATEMENT_UPDATE)) TransDB.FIRST_ROW_INDEX in
          if negb (is_ok errCode) then ((errCode, result), s, w2)
          else if sqlType =? SqliteUtils.STATEMENT_DDL then
            let '(_, s1, w3) := HandleSchemaDDL st1 s w2 in ((errCode, result), s1, w3)
          else ((errCode, result), s, w2)
      | (errCode, _, w1) => ((errCode, TransDB.failed_results), s, w1)
      end.

Definition ExecuteAndGetLong (sql : string) (args : list ValueObject) (s : store) (w : W) : errno * option Z * W :=
  if dbVector s then (E_NOT_SUPPORT, None, w)
  else
    match BeginExecuteSql sql s w with
    | (errCode, None, w1) => (errCode, None, w1)
    | (_, Some st, w1) =>
        let '(err, object, _, w2) := ExecuteForValue args st w1 in (err, Some (Value.to_int64 object), w2)
    end.

Definition Count (predicates : AbsRdbPreds.AbsRdbPredicates) (joinClause : string) (s : store) (w : W) : errno * option Z * W :=
  if dbVector s then (E_NOT_SUPPORT, None, w)
  else ExecuteAndGetLong (SqliteSqlBuilder.BuildCountString predicates joinClause)
         (AbsPreds.bindArgs (AbsRdbPreds.base predicates)) s w.

(** *** The version of the caller's schema *)

Definition PRAGMA_VERSION : string := "PRAGMA user_version".

(** [GetVersion]: the version, if the value is a number. *)
Definition GetVersion (s : store) (w : W) : errno * option Z * W :=
  match GetStatement PRAGMA_VERSION (isReadOnly_ s) EmptyString s w with
  | (errCode, None, w1) => (errCode, None, w1)
  | (_, Some st, w1) =>
      let '(errCode, value, _, w2) := ExecuteForValue [] st w1 in
      (errCode, match value with VInt v => Some (Int.i32 v) | _ => None end, w2)
  end.

Definition SetVersion (version : Z) (s : store) (w : W) : errno * W :=
  if isReadOnly_ s then (E_NOT_SUPPORT, w)
  else
    match GetStatement (PRAGMA_VERSION +:+ " = " +:+ pretty version) false EmptyString s w with
    | (errCode, None, w1) => (errCode, w1)
    | (_, Some st, w1) => let '(execErr, _, w2) := Execute [] st w1 in (execErr, w2)
    end.

(** The callbacks of [RdbOpenCallback]. *)
Record RdbOpenCallback := {
  OnOpen : store -> W -> errno * store * W;
  OnCreate : store -> W -> errno * store * W;
  OnUpgrade : Z -> Z -> store -> W -> errno * store * W;
  OnDowngrade : Z -> Z -> store -> W -> errno * store * W
}.

(** [ProcessOpenCallback]; [uninit] is what [currentVersion] holds when [GetVersion] does not write it. *)
Definition ProcessOpenCallback (uninit version : Z) (cb : RdbOpenCallback) (s : store) (w : W) : errno * store * W :=
  if version =? -1 then (E_OK, s, w)
  else
    let '(errCode, v, w1) := GetVersion s w in
    if negb (is_ok errCode) then (errCode, s, w1)
    else
      let currentVersion := default uninit v in
      if version =? currentVersion then OnOpen cb s w1
      else
        let '(errCode, s1, w2) :=
          if currentVersion =? 0 then OnCreate cb s w1
          else if currentVersion <? version then OnUpgrade cb currentVersion version s w1
          else OnDowngrade cb currentVersion version s w1 in
        let '(errCode, w3) := if is_ok errCode then SetVersion version s1 w2 else (errCode, w2) in
        if negb (is_ok errCode) then (errCode, s1, w3) else OnOpen cb s1 w3.

(** *** Transactions on the writing connection *)

Definition with_stack (flag : bool) (stack : list BaseTransaction) (s : store) : store :=
  set_pool (Some {| isInTransaction_ := flag; transactionStack_ := stack |}) s.

Definition BeginTransaction (s : store) (w : W) : errno * store * W :=
  match connectionPool_ s with
  | None => (E_ALREADY_CLOSED, s, w)
  | Some p =>
      if isReadOnly_ s || dbVector s then (E_NOT_SUPPORT, s, w)
      else
        let transaction := BaseTransaction.new (length (transactionStack_ p)) in
        match GetStatement (BaseTransaction.GetTransactionStr transaction) false EmptyString s w with
        | (err, None, w1) => (err, s, w1)
        | (_, Some st, w1) =>
            let '(err, _, w2) := Execute [] st w1 in
            if negb (is_ok err) then (err, s, w2)
            else (E_OK, with_stack true (transaction :: transactionStack_ p) s, w2)
        end
  end.

(** [SetChildFailure] of the transaction around one that is rolled back. *)
Definition mark_parent (child : BaseTransaction) (stack : list BaseTransaction) : list BaseTransaction :=
  if negb (BaseTransaction.type child =? BaseTransaction.ROLLBACK_SELF) then
    match stack with [] => [] | top :: rest => BaseTransaction.SetChildFailure true top :: rest end
  else stack.

(** [RollBack]: the transaction leaves the stack before its statement is run. *)
Definition RollBack (s : store) (w : W) : errno * store * W :=
  match connectionPool_ s with
  | None => (E_ALREADY_CLOSED, s, w)
  | Some p =>
      if isReadOnly_ s || dbVector s then (E_NOT_SUPPORT, s, w)
      else
        match transactionStack_ p with
        | [] => (E_NO_TRANSACTION_IN_SESSION, s, w)
        | transaction :: below =>
            let stack := mark_parent transaction below in
            let s1 := with_stack (isInTransaction_ p) stack s in
            match GetStatement (BaseTransaction.GetRollbackStr transaction) false EmptyString s1 w with
            | (_, None, w1) => (E_DATABASE_BUSY, s1, w1)
            | (_, Some st, w1) =>
                let '(err, _, w2) := Execute [] st w1 in
                if negb (is_ok err) then (err, s1, w2)
                else (E_OK, with_stack (if bool_decide (stack = []) then false else isInTransaction_ p) stack s, w2)
            end
        end
  end.

(** [Commit]: an inner transaction only leaves the stack. *)
Definition Commit (s : store) (w : W) : errno * store * W :=
  match connectionPool_ s with
  | None => (E_ALREADY_CLOSED, s, w)
  | Some p =>
      if isReadOnly_ s || dbVector s then (E_NOT_SUPPORT, s, w)
      else
        match transactionStack_ p with
        | [] => (E_OK, s, w)
        | transaction :: below =>
            let sqlStr := BaseTransaction.GetCommitStr transaction in
            if (String.length sqlStr <=? 1)%nat then (E_OK, with_stack (isInTransaction_ p) below s, w)
            else
              match GetStatement sqlStr false EmptyString s w with
              | (_, None, w1) => (E_DATABASE_BUSY, s, w1)
              | (_, Some st, w1) =>
                  let '(err, _, w2) := Execute [] st w1 in
                  if negb (is_ok err) then (err, s, w2)
                  else (E_OK, with_stack (if bool_decide (below = []) then false else isInTransaction_ p) below s, w2)
              end
        end
  end.

Definition IsInTransaction (s : store) : bool :=
  if isReadOnly_ s || dbVector s then false
  else match connectionPool_ s with None => false | Some p => isInTransaction_ p end.

(** *** Numbered transactions and transaction objects *)

Definition BEGIN_TRANSACTION_SQL : string := "begin;".
Definition COMMIT_TRANSACTION_SQL : string := "commit;".
Definition ROLLBACK_TRANSACTION_SQL : string := "rollback;".

Definition BeginTrans (s : store) (w : W) : (errno * Z) * store * W :=
  if negb (isVector s) || isReadOnly_ s then ((E_NOT_SUPPORT, 0), s, w)
  else
    match connectionPool_ s with
    | None => ((E_ALREADY_CLOSED, 0), s, w)
    | Some _ =>
        match CreateTransConn false w with
        | (errCode, None, w1) => ((errCode, 0), s, w1)
        | (_, Some h, w1) =>
            let tmpTrxId := newTrxId_ s in
            let s1 := set_trx (newTrxId_ s + 1) (<[tmpTrxId := h]> (trxConnMap_ s)) s in
            let '(errCode, s2, w2) := ExecuteByTrxId BEGIN_TRANSACTION_SQL tmpTrxId false [] s1 w1 in
            ((errCode, tmpTrxId),
             if negb (is_ok errCode) then set_trx (newTrxId_ s2) (delete tmpTrxId (trxConnMap_ s2)) s2 else s2, w2)
        end
    end.

Definition RollBackTrx (trxId : Z) : store -> W -> errno * store * W := ExecuteByTrxId ROLLBACK_TRANSACTION_SQL trxId true [].
Definition CommitTrx (trxId : Z) : store -> W -> errno * store * W := ExecuteByTrxId COMMIT_TRANSACTION_SQL trxId true [].

(** [CreateTransaction]: the transaction object on a connection of its own; the list of weak
    references that the destructor of the store closes is left out. *)
Definition CreateTransaction (type : Z) (s : store) (w : W) : errno * option (conn * TransactionImpl.t W) * W :=
  if isReadOnly_ s then (E_NOT_SUPPORT, None, w)
  else
    match connectionPool_ s with
    | None => (E_ALREADY_CLOSED, None, w)
    | Some _ =>
        match CreateTransConn true w with
        | (errCode, None, w1) => (errCode, None, w1)
        | (_, Some h, w1) =>
            match @TransactionImpl.Create W _ (view h) type w1 with
            | (errCode, Some trans, w2) => (errCode, Some (h, trans), w2)
            | (errCode, None, w2) => (errCode, None, w2)
            end
        end
    end.

End Ops.

End Store.

(** ** Nested transactions and the savepoints of SQLite *)

Module StoreInv.
Import Conn Store TransactionInv.

(** Names of the savepoints of the store. *)
Definition savepoint (n : nat) : string := BaseTransaction.TRANS_STR +:+ pretty n.

Lemma name_go x s : savepoint_name s = true -> savepoint_name (pretty_N_go x s) = true.
Proof.
  revert s. induction (N.lt_wf_0 x) as [x _ IH]; intros s Hs.
  destruct (decide (0 < x)%N) as [Hx|Hx]; [|by replace x with 0%N by lia; rewrite pretty_N_go_0].
  rewrite pretty_N_go_step by done. apply IH; [by apply N.div_lt|]. cbn [savepoint_name]. rewrite Hs, andb_true_r.
  unfold pretty_N_char. by repeat case_match.
Qed.

Lemma savepoint_named n : savepoint_name (savepoint n) = true.
Proof.
  unfold savepoint. change (savepoint_name (pretty n) = true). unfold pretty, pretty_nat, pretty, pretty_N.
  destruct (decide _); [done|]. by apply name_go.
Qed.

Lemma savepoint_inj n m : savepoint n = savepoint m -> n = m.
Proof. unfold savepoint. intros E. apply (inj (String.app BaseTransaction.TRANS_STR)) in E. by apply (inj pretty) in E. Qed.

(** What the store relies on: whoever writes gets the same connection, a statement of another
    connection leaves open what is open on this one, and the pool and the executor touch neither
    the data nor the transaction. *)
Section Laws.
Context (W : Type) `{Database W} `{DelayNotify.Executor W} (writer : conn).

#[local] Instance writer_view : Connection W := view writer.
Context `{!Transactional W}.

Class StoreLaws := {
  acquire_law r w oc w' : AcquireConnection r w = (oc, w') ->
    contents w' = contents w /\ frames w' = frames w /\ (forall h, r = false -> oc = Some h -> h = writer);
  create_any_law h sql ret w e os w' : CreateStatementOn h sql ret w = (e, os, w') ->
    contents w' = contents w /\ frames w' = frames w /\ (e = E_OK -> os <> None) /\
    (forall st, os = Some st -> text st = Some (sql +:+ ret) \/ text st = None /\ h <> writer);
  other_prepare_law sql s w e s' w' : text s = None -> Prepare sql s w = (e, s', w') -> frames w' = frames w /\ text s' = None;
  other_reset_law s w e s' w' : text s = None -> Reset s w = (e, s', w') -> frames w' = frames w /\ text s' = None;
  other_execute_law args s w e s' w' : text s = None -> Execute args s w = (e, s', w') -> frames w' = frames w /\ text s' = None;
  other_value_law args s w e v s' w' : text s = None -> ExecuteForValue args s w = (e, v, s', w') -> frames w' = frames w;
  restart_law w e w' : RestartConns w = (e, w') -> contents w' = contents w /\ frames w' = frames w;
  schedule_law i w id w' : DelayNotify.Schedule i w = (id, w') -> contents w' = contents w /\ frames w' = frames w;
  reset_task_law j i w id w' : DelayNotify.ResetTask j i w = (id, w') -> contents w' = contents w /\ frames w' = frames w;
  remove_task_law j w : contents (DelayNotify.RemoveTask j w) = contents w /\ frames (DelayNotify.RemoveTask j w) = frames w;
  task_law d c w e w' : DelayNotify.task d c w = (e, w') -> contents w' = contents w /\ frames w' = frames w
}.

Context `{!StoreLaws}.
Notation store := (t conn).

(** Neither the data nor what is open changes. *)
Definition quiet (w w' : W) : Prop := contents w' = contents w /\ frames w' = frames w.

Lemma quiet_refl w : quiet w w.
Proof. done. Qed.

Lemma quiet_trans w1 w2 w3 : quiet w1 w2 -> quiet w2 w3 -> quiet w1 w3.
Proof. intros [E1 E2] [E3 E4]. split; congruence. Qed.

Lemma quiet_stays w w' : quiet w w' -> stays w w'.
Proof. intros [_ E]. by left. Qed.

(** The members the transactions depend on. *)
Definition keeps (s s' : store) : Prop :=
  isReadOnly_ s' = isReadOnly_ s /\ dbVector s' = dbVector s /\ haMode s' = haMode s /\ connectionPool_ s' = connectionPool_ s.

Lemma keeps_refl s : keeps s s.
Proof. done. Qed.

Lemma keeps_trans s1 s2 s3 : keeps s1 s2 -> keeps s2 s3 -> keeps s1 s3.
Proof. unfold keeps. intuition congruence. Qed.

Lemma cloud_keeps table s : keeps s (DoCloudSync table s).
Proof. unfold DoCloudSync. by destruct (CloudTables.DoCloudSync _ _ _ _). Qed.

Lemma synced_keeps table r s : keeps s (synced table r s).
Proof. unfold synced. destruct (_ <? _); [apply cloud_keeps|done]. Qed.

(** A statement with the text, of this connection or another one. *)
Definition reads (st : stmt) (sql : string) : Prop := text st = Some sql \/ text st = None.

(** A statement of the store, where no restore is under way. *)
Lemma statement_on sql c ret s w e os w' :
  haMode s = false -> GetStatementOn sql c ret s w = (e, os, w') ->
  quiet w w' /\ (forall st, os = Some st -> reads st (sql +:+ ret) /\ (c = Some writer -> text st = Some (sql +:+ ret))).
Proof.
  intros Hh. unfold GetStatementOn. rewrite Hh. cbn [andb]. destruct c as [h|]; [|by intros [= _ <- <-]].
  intros E. apply create_any_law in E as (E1 & E2 & _ & E3). split; [done|]. intros st Hst.
  destruct (E3 st Hst) as [Ht|[Ht Hne]]; [by split; [left|]|]. split; [by right|]. intros [= ->]. done.
Qed.

Lemma statement sql read ret s w e os w' :
  haMode s = false -> GetStatement sql read ret s w = (e, os, w') ->
  quiet w w' /\ (forall st, os = Some st -> reads st (sql +:+ ret) /\ (read = false -> text st = Some (sql +:+ ret))).
Proof.
  intros Hh. unfold GetStatement. destruct (connectionPool_ s); [|by intros [= _ <- <-]].
  destruct (AcquireConnection read w) as [[h|] w1] eqn:E; apply acquire_law in E as (E1 & E2 & Ew); [|by intros [= _ <- <-]].
  intros E. apply statement_on in E as [E E3]; [|done]. split; [by eapply quiet_trans|]. intros st Hst.
  destruct (E3 st Hst) as [Hr Ht]. split; [done|]. intros Hf. apply Ht. f_equal. by apply Ew.
Qed.

Lemma begin_execute sql s w e os w' :
  haMode s = false -> BeginExecuteSql sql s w = (e, os, w') ->
  quiet w w' /\ (forall st, os = Some st -> reads st sql).
Proof.
  intros Hh. unfold BeginExecuteSql. destruct (SqliteUtils.IsSpecial _); [by intros [= _ <- <-]|].
  destruct (connectionPool_ s); [|by intros [= _ <- <-]].
  destruct (AcquireConnection _ w) as [[h|] w1] eqn:E; apply acquire_law in E as (E1 & E2 & _); [|by intros [= _ <- <-]].
  destruct (GetStatementOn sql (Some h) EmptyString s w1) as [[e2 [st|]] w2] eqn:E3; apply statement_on in E3 as [E3 E4]; try done.
  - destruct (_ && _).
    + intros E5. apply statement in E5 as [E5 E6]; [|done]. split; [eapply quiet_trans; [by eapply quiet_trans|exact E5]|].
      intros st2 Hst2. destruct (E6 st2 Hst2) as [E7 _]. by rewrite Str.app_nil_r in E7.
    + intros [= _ <- <-]. split; [by eapply quiet_trans|]. intros st2 [= <-]. destruct (E4 st eq_refl) as [E7 _]. by rewrite Str.app_nil_r in E7.
  - intros [= _ <- <-]. split; [by eapply quiet_trans|done].
Qed.

(** Running a statement on the data. *)
Lemma run_plain sql args st w e st' w' :
  reads st sql -> plain_sql sql = true -> Execute args st w = (e, st', w') -> stays w w' /\ reads st' sql.
Proof.
  intros [Ht|Ht] Hp E.
  - eapply execute_stays in E as [E1 E2]; [|done..]. by split; [|left].
  - apply other_execute_law in E as [E1 E2]; [|done]. by split; [left|right].
Qed.

Lemma schema_keeps sql st s w e s' w' :
  reads st sql -> plain_sql sql = true -> HandleSchemaDDL st s w = (e, s', w') -> stays w w' /\ keeps s s'.
Proof.
  intros Ht Hp. unfold HandleSchemaDDL. destruct (Reset st w) as [[e1 s1] w1] eqn:E1.
  destruct (Prepare _ s1 w1) as [[e2 s2] w2] eqn:E2. destruct (ExecuteForValue [] s2 w2) as [[[e3 v] s3] w3] eqn:E3.
  assert (stays w w3) as Hw.
  { destruct Ht as [Ht|Ht].
    - eapply reset_law in E1 as (_ & B1 & T1); [|exact Ht]. eapply prepare_law in E2 as (_ & B2 & T2); [|exact T1].
      assert (exists sql2, text s2 = Some sql2 /\ plain_sql sql2 = true) as (sql2 & Ht2 & Hp2)
        by (destruct T2 as [T2|T2]; eexists; by split; [exact T2|]).
      eapply value_law in E3 as B3; [|exact Ht2|done].
      eapply stays_trans; [by left|]. eapply stays_trans; [left; exact B2|exact B3].
    - apply other_reset_law in E1 as [B1 T1]; [|done]. apply other_prepare_law in E2 as [B2 T2]; [|done].
      apply other_value_law in E3; [|done]. left. congruence. }
  destruct (vSchema_ s <? _); [|by intros [= _ <- <-]]. cbn [connectionPool_ set_schema].
  destruct (connectionPool_ s) eqn:Ep; [|intros [= _ <- <-]; by split].
  destruct (RestartConns w3) as [e4 w4] eqn:E4. apply restart_law in E4 as [_ E4]. intros [= _ <- <-].
  split; [|by split]. eapply stays_trans; [exact Hw|by left].
Qed.

(** *** Pauses of the notification *)

Lemma stop_timer_quiet d w d' w' : DelayNotify.StopTimer d w = (d', w') -> quiet w w'.
Proof. intros [= _ <-]. apply remove_task_law. Qed.

Lemma start_timer_quiet now d w d' w' : DelayNotify.StartTimer now d w = (d', w') -> quiet w w'.
Proof.
  unfold DelayNotify.StartTimer. intros E.
  destruct (if DelayNotify.delaySyncTaskId_ d =? DelayNotify.INVALID_TASK_ID then _ else _) as [id w1] eqn:E1.
  assert (quiet w w1) as Hw by (destruct (_ =? _) in E1; [by apply schedule_law in E1|by apply reset_task_law in E1]).
  destruct (bool_decide _); [by injection E as _ <-|]. match type of E with (if ?b then _ else _) = _ => destruct b end;
    injection E as _ <-; [|done]. eapply quiet_trans; [exact Hw|]. eapply task_law, surjective_pairing.
Qed.

Lemma paused_keeps {R} now (op : store -> W -> R * store * W) s w r s' w' :
  (forall s1 w1 r1 s2 w2, haMode s1 = haMode s -> op s1 w1 = (r1, s2, w2) -> stays w1 w2 /\ keeps s1 s2) ->
  paused now op s w = (r, s', w') -> stays w w' /\ keeps s s'.
Proof.
  intros Hop. unfold paused. set (p := match delayNotifier_ s with None => _ | Some _ => _ end).
  assert (Hp : stays w (snd p) /\ keeps s (fst p)).
  { subst p. destruct (delayNotifier_ s) as [d|]; [|split; [apply stays_refl|done]].
    unfold DelayNotify.pause_begin, DelayNotify.Pause. destruct (DelayNotify.StopTimer d w) as [d1 w1] eqn:E.
    apply stop_timer_quiet, quiet_stays in E. by split. }
  destruct p as [s1 w1]. cbn [fst snd] in Hp. destruct Hp as [Hw Hk]. destruct (op s1 w1) as [[r1 s2] w2] eqn:E.
  apply Hop in E as [Hw2 Hk2]; [|apply Hk]. assert (stays w w2 /\ keeps s s2) as [Hw' Hk'] by
    (split; [by eapply stays_trans|by eapply keeps_trans]).
  destruct (delayNotifier_ s2) as [d|]; [|by intros [= _ <- <-]]. unfold DelayNotify.pause_end, DelayNotify.Resume.
  destruct (DelayNotify.pauseCount_ _ =? 0); [|by intros [= _ <- <-]].
  destruct (DelayNotify.StartTimer now _ w2) as [d1 w3] eqn:E3. apply start_timer_quiet, quiet_stays in E3.
  intros [= _ <- <-]. split; [by eapply stays_trans|]. by eapply keeps_trans.
Qed.

(** *** Operations on the data neither begin nor end a transaction *)

Lemma last_row_stays sql args s w r w' :
  haMode s = false -> plain_sql (sql +:+ EmptyString) = true -> ExecuteForLastInsertedRowId sql args s w = (r, w') -> stays w w'.
Proof.
  intros Hh Hp. unfold ExecuteForLastInsertedRowId. destruct (_ || _); [intros [= _ <-]; apply stays_refl|].
  destruct (GetStatement sql false EmptyString s w) as [[e [st|]] w1] eqn:E; apply statement in E as [E T]; try done;
    [|intros [= _ <-]; by apply quiet_stays].
  destruct (Execute args st w1) as [[e2 st2] w2] eqn:E2. eapply run_plain in E2 as [E2 _]; [|apply (T st eq_refl)|done].
  destruct (negb _); intros [= _ <-]; (eapply stays_trans; [by apply quiet_stays|done]).
Qed.

Lemma for_row_stays sql args config ret s w r w' :
  haMode s = false -> plain_sql (sql +:+ ret) = true -> ExecuteForRow sql args config ret s w = (r, w') -> stays w w'.
Proof.
  intros Hh Hp. unfold ExecuteForRow. destruct (_ || _); [intros [= _ <-]; apply stays_refl|].
  destruct (negb _); [intros [= _ <-]; apply stays_refl|].
  destruct (GetStatement sql false ret s w) as [[e [st|]] w1] eqn:E; apply statement in E as [E T]; try done;
    [|intros [= _ <-]; by apply quiet_stays].
  destruct (ExecuteForRows args _ st w1) as [[[e2 vs] st2] w2] eqn:E2. eapply rows_law in E2 as [_ E2]; [|by apply (T st eq_refl)|done].
  intros [= _ <-]. eapply stays_trans; [by apply quiet_stays|done].
Qed.

Lemma insert_keeps table row res s w r s' w' :
  haMode s = false -> Insert table row res s w = (r, s', w') -> stays w w' /\ keeps s s'.
Proof.
  intros Hh. unfold Insert. destruct (_ || _); [intros [= _ <- <-]; by split; [apply stays_refl|]|].
  destruct (RdbSqlUtils.GetInsertSqlInfo table row res) as [row' [[st|info]|]] eqn:Ei;
    [intros [= _ <- <-]; by split; [apply stays_refl|]| |intros [= _ <- <-]; by split; [apply stays_refl|]].
  destruct (ExecuteForLastInsertedRowId _ _ s w) as [[e n] w1] eqn:E. apply last_row_stays in E; [|done|].
  - intros [= _ <- <-]. split; [done|]. destruct (is_ok e); [apply cloud_keeps|done].
  - unfold RdbSqlUtils.GetInsertSqlInfo in Ei. destruct (Str.empty table); [done|]. destruct (Bucket.IsEmpty row); [done|].
    destruct (SqliteUtils.GetConflictClause res); [|done]. destruct (RdbSqlUtils.insert_loop row res _ _ _) as [r2 [[sql args]|]] eqn:El; [|done].
    destruct (SqliteSqlBuilder.GetSqlArgs _); [|done]. injection Ei as _ <-. cbn [RdbSqlUtils.sql].
    apply insert_loop_inserts in El; [|by eexists]. by apply inserts_plain, inserts_app, inserts_app.
Qed.

Lemma update_keeps row p config res s w r s' w' :
  haMode s = false -> Update row p config res s w = (r, s', w') -> stays w w' /\ keeps s s'.
Proof.
  intros Hh. unfold Update. destruct (_ || _); [intros [= _ <- <-]; by split; [apply stays_refl|]|].
  destruct (RdbSqlUtils.GetUpdateSqlInfo p row res) as [st|info] eqn:Ei; [intros [= _ <- <-]; by split; [apply stays_refl|]|].
  destruct (ExecuteForRow _ _ _ _ s w) as [[e n] w1] eqn:E. apply for_row_stays in E; [|done|].
  - intros [= _ <- <-]. split; [done|apply synced_keeps].
  - unfold RdbSqlUtils.GetUpdateSqlInfo in Ei. destruct (Str.empty _); [done|]. destruct (Bucket.IsEmpty row); [done|].
    destruct (SqliteUtils.GetConflictClause res); [|done]. injection Ei as <-. cbn [RdbSqlUtils.sql].
    rewrite RdbSqlUtils.update_loop_eq. case_match; rewrite <- ?Str.app_assoc; apply update_plain.
Qed.

Lemma delete_keeps p config s w r s' w' :
  haMode s = false -> Delete p config s w = (r, s', w') -> stays w w' /\ keeps s s'.
Proof.
  intros Hh. unfold Delete. destruct (_ || _); [intros [= _ <- <-]; by split; [apply stays_refl|]|].
  destruct (RdbSqlUtils.GetDeleteSqlInfo p) as [st|info] eqn:Ei; [intros [= _ <- <-]; by split; [apply stays_refl|]|].
  destruct (ExecuteForRow _ _ _ _ s w) as [[e n] w1] eqn:E. apply for_row_stays in E; [|done|].
  - intros [= _ <- <-]. split; [done|apply synced_keeps].
  - unfold RdbSqlUtils.GetDeleteSqlInfo in Ei. destruct (Str.empty (AbsRdbPreds.tableName_ p)); [done|]. injection Ei as <-.
    cbn [RdbSqlUtils.sql]. case_match; rewrite <- ?Str.app_assoc; apply delete_plain.
Qed.

Lemma batch_loop_stays s : haMode s = false -> forall sqls w r w',
  Forall (fun b => inserts (fst b)) sqls -> batch_loop writer sqls s w = (r, w') -> stays w w'.
Proof.
  intros Hh. induction sqls as [|[sql argss] sqls IH]; intros w r w' Hs; cbn [batch_loop]; [intros [= _ <-]; apply stays_refl|].
  apply Forall_cons in Hs as [Hi Hs]. destruct (GetStatementOn sql (Some writer) EmptyString s w) as [[e [st|]] w1] eqn:E;
    apply statement_on in E as [E T]; try done; [|intros [= _ <-]; by apply quiet_stays].
  destruct (TransDB.execute_all st argss w1) as [e2 w2] eqn:E2.
  eapply execute_all_stays in E2; [|by apply (T st eq_refl)|rewrite Str.app_nil_r; by apply inserts_plain].
  assert (stays w w2) as Hw by (eapply stays_trans; [by apply quiet_stays|done]).
  destruct (_ || _); [by intros [= _ <-]|]. destruct (negb _); [by intros [= _ <-]|].
  intros E3. eapply stays_trans; [exact Hw|]. by eapply IH.
Qed.

Lemma batch_insert_keeps now table rows s w r s' w' :
  haMode s = false -> BatchInsert now table rows s w = (r, s', w') -> stays w w' /\ keeps s s'.
Proof.
  intros Hh. unfold BatchInsert. destruct (isReadOnly_ s); [intros [= _ <- <-]; by split; [apply stays_refl|]|].
  destruct (_ =? _)%nat; [intros [= _ <- <-]; by split; [apply stays_refl|]|].
  destruct (connectionPool_ s) eqn:Ep; [|intros [= _ <- <-]; by split; [apply stays_refl|]].
  destruct (AcquireConnection false w) as [[h|] w1] eqn:E; apply acquire_law in E as (E1 & E2 & Eh);
    [rewrite (Eh h eq_refl eq_refl)|intros [= _ <- <-]; split; [by left|done]].
  pose proof (batch_inserts table rows (MaxVariable writer w1) (Z.to_nat RdbSqlUtils.ON_CONFLICT_REPLACE)) as Hb.
  destruct (TransDB.batch_of _ _ _ _) as [|b sqls]; [intros [= _ <- <-]; split; [by left|done]|].
  intros E. apply paused_keeps in E as [E3 E4]; [split; [eapply stays_trans; [by left|exact E3]|done]|].
  clear E. intros s1 w2 r1 s2 w3 Hh1. destruct (batch_loop writer (b :: sqls) s1 w2) as [o w4] eqn:El.
  apply batch_loop_stays in El; [|congruence|done]. destruct o; intros [= _ <- <-]; (split; [done|]); [done|apply cloud_keeps].
Qed.

Lemma execute_sql_keeps sql args s w r s' w' :
  haMode s = false -> plain_sql sql = true -> ExecuteSql sql args s w = (r, s', w') -> stays w w' /\ keeps s s'.
Proof.
  intros Hh Hp. unfold ExecuteSql. destruct (_ || _); [intros [= _ <- <-]; by split; [apply stays_refl|]|].
  destruct (CheckAttach sql s w) as [ret w1] eqn:Ec. assert (stays w w1) as Hw.
  { unfold CheckAttach in Ec. destruct (Str.find_first _ sql); [|injection Ec as _ <-; apply stays_refl].
    destruct (negb _); [injection Ec as _ <-; apply stays_refl|].
    destruct (GetStatement _ false EmptyString s w) as [[e [st|]] w2] eqn:E; apply statement in E as [E T]; try done;
      [|injection Ec as _ <-; by apply quiet_stays].
    destruct (Execute [] st w2) as [[e2 st2] w3] eqn:E2. eapply run_plain in E2 as [E2 _]; [|apply (T st eq_refl)|done].
    assert (stays w w3) by (eapply stays_trans; [by apply quiet_stays|done]).
    destruct (negb _); [by injection Ec as _ <-|]. destruct (GetColumn 0 st2 w3) as [e3 v]. destruct (negb _); by injection Ec as _ <-. }
  destruct (negb _); [by intros [= _ <- <-]|].
  destruct (BeginExecuteSql sql s w1) as [[e [st|]] w2] eqn:E; apply begin_execute in E as [E T]; try done;
    [|intros [= _ <- <-]; split; [eapply stays_trans; [exact Hw|by apply quiet_stays]|done]].
  destruct (Execute args st w2) as [[e2 st2] w3] eqn:E2. 
  eapply run_plain in E2 as [E2 T2]; [|apply (T st eq_refl)|done].
  assert (stays w w3) as Hw3 by (eapply stays_trans; [exact Hw|]; eapply stays_trans; [by apply quiet_stays|done]).
  destruct (negb _); [by intros [= _ <- <-]|].
  assert (Hs : forall p, (if SqliteUtils.GetSqlStatementType sql =? SqliteUtils.STATEMENT_DDL
      then let '(_, s1, w4) := HandleSchemaDDL st2 s w3 in (s1, w4) else (s, w3)) = p -> stays w (snd p) /\ keeps s (fst p)).
  { intros p <-. destruct (_ =? _); [|by split]. destruct (HandleSchemaDDL st2 s w3) as [[e4 s4] w4] eqn:E4.
    eapply schema_keeps in E4 as [E4 K4]; [|exact T2|done]. split; [by eapply stays_trans|done]. }
  destruct (if _ : bool then _ else _) as [s4 w4]. specialize (Hs _ eq_refl) as [Hs1 Hs2]. intros [= _ <- <-]. split; [done|].
  destruct (_ || _); [|done]. eapply keeps_trans; [exact Hs2|apply cloud_keeps].
Qed.

End Laws.

End StoreInv.

(** ** The theorems *)

Module StoreProps.
Import Conn Store TransactionInv StoreInv.

(** What a caller does with a store. *)
Inductive act :=
| ABegin
| ACommit
| ARollBack
| AInsert (table : string) (row : Bucket.ValuesBucket) (resolution : Z)
| AUpdate (row : Bucket.ValuesBucket) (predicates : AbsRdbPreds.AbsRdbPredicates) (config : TransDB.ReturningConfig) (resolution : Z)
| ADelete (predicates : AbsRdbPreds.AbsRdbPredicates) (config : TransDB.ReturningConfig)
| ABatchInsert (now : Z) (table : string) (rows : Buckets.ValuesBuckets)
| AExecuteSql (sql : string) (args : list ValueObject).

Definition run_act {W} `{Database W} `{DelayNotify.Executor W} (a : act) (s : t conn) (w : W) : errno * t conn * W :=
  match a with
  | ABegin => BeginTransaction s w
  | ACommit => Commit s w
  | ARollBack => RollBack s w
  | AInsert table row res => let '(_, (e, _), s1, w1) := Insert table row res s w in (e, s1, w1)
  | AUpdate row p config res => let '((e, _), s1, w1) := Update row p config res s w in (e, s1, w1)
  | ADelete p config => let '((e, _), s1, w1) := Delete p config s w in (e, s1, w1)
  | ABatchInsert now table rows => let '((e, _), s1, w1) := BatchInsert now table rows s w in (e, s1, w1)
  | AExecuteSql sql args => ExecuteSql sql args s w
  end.

(** The statements of the caller are on the data. *)
Definition plain_act (a : act) : Prop :=
  match a with AExecuteSql sql _ => plain_sql sql = true | _ => True end.

(** Whether a transaction is open, by the calls alone. *)
Definition is_nil {A} (l : list A) : bool := match l with [] => true | _ => false end.

Section Nested.
Context (W : Type) `{Database W} `{DelayNotify.Executor W} (writer : conn).
#[local] Instance nested_view : Connection W := writer_view W writer.
Context `{!Transactional W}.

(** Where a failed roll back of the outermost transaction leaves the store: it says that it is in a
    transaction, a commit succeeds and does nothing, and a roll back is refused. *)
Definition stranded (s : t conn) (w : W) : Prop :=
  IsInTransaction s = true /\ Commit s w = (E_OK, s, w) /\ RollBack s w = (E_NO_TRANSACTION_IN_SESSION, s, w).

(** [saved]: the data at the beginning of each open transaction, the innermost first.  A call that
    succeeds does what nested transactions should: begin saves the data, commit forgets what
    was saved last, roll back returns to it.  A begin or commit that fails leaves the store as it
    was.  A roll back that fails does what a commit of the inner transaction does; of the outermost
    one, it strands the store.  A statement that fails and makes SQLite give up the
    transaction ends what can be said. *)
Fixpoint follows (acts : list act) (s : t conn) (w : W) (saved : list data) : Prop :=
  IsInTransaction s = negb (is_nil saved) /\
  match acts with
  | [] => True
  | a :: rest =>
      let '(e, s', w') := run_act a s w in
      match a with
      | ABegin =>
          (e = E_OK -> contents w' = contents w /\ follows rest s' w' (contents w :: saved)) /\
          (e <> E_OK -> s' = s /\ (frames w' = frames w -> follows rest s' w' saved))
      | ACommit =>
          (e = E_OK -> contents w' = contents w /\ follows rest s' w' (tail saved)) /\
          (e <> E_OK -> s' = s /\ (frames w' = frames w -> follows rest s' w' saved))
      | ARollBack =>
          match saved with
          | [] => e = E_NO_TRANSACTION_IN_SESSION /\ w' = w /\ follows rest s' w' []
          | x :: saved' =>
              (e = E_OK -> contents w' = x /\ follows rest s' w' saved') /\
              (e <> E_OK -> if is_nil saved' then stranded s' w' else frames w' = frames w -> follows rest s' w' saved')
          end
      | _ => plain_act a -> (saved <> [] -> frames w' <> []) -> follows rest s' w' saved
      end
  end.

(** A SQLite store that may write, with no transaction open and no restore under way. *)
Definition idle (s : t conn) (w : W) : Prop :=
  isReadOnly_ s = false /\ dbVector s = false /\ haMode s = false /\
  connectionPool_ s = Some {| isInTransaction_ := false; transactionStack_ := [] |} /\ frames w = [].

(** *** The frames of SQLite for the transactions of the store *)

Definition frame_name (n : nat) : option string := if (n =? 0)%nat then None else Some (savepoint n).

(** Between the savepoints of the stack there are others left by inner transactions that ended. *)
Inductive nests : nat -> list (option string * data) -> list data -> Prop :=
| nests_0 : nests 0 [] []
| nests_S n left x outer saved :
    nests n outer saved -> Forall (fun f => exists j, (n < j)%nat /\ fst f = Some (savepoint j)) left ->
    nests (S n) (left ++ (frame_name n, x) :: outer) (x :: saved).

Fixpoint stack_of (n : nat) : list BaseTransaction.t :=
  match n with O => [] | S m => BaseTransaction.new m :: stack_of m end.

Lemma length_stack n : length (stack_of n) = n.
Proof. induction n as [|n IH]; [done|]. cbn. by rewrite IH. Qed.

Lemma stack_nil n : stack_of n = [] <-> n = 0%nat.
Proof. by destruct n. Qed.

(** The innermost savepoint of the store is the first one of its name. *)
Lemma nests_split n left x outer inner y outer' :
  (0 < n)%nat -> Forall (fun f : option string * data => exists j, (n < j)%nat /\ fst f = Some (savepoint j)) left ->
  left ++ (frame_name n, x) :: outer = inner ++ (Some (savepoint n), y) :: outer' ->
  (Some (savepoint n) ∉ map fst inner) -> y = x /\ outer' = outer.
Proof.
  intros Hn. unfold frame_name. destruct (Nat.eqb_spec n 0) as [->|_]; [lia|]. revert inner.
  induction left as [|f left IH]; intros inner Hl E Hi; destruct inner as [|g inner].
  - cbn in E. injection E as -> ->. done.
  - cbn in E. injection E as <- _. cbn in Hi. apply not_elem_of_cons in Hi as [Hi _]. done.
  - cbn in E. injection E as -> _. apply Forall_cons in Hl as [(j & Hj & Hf) _]. cbn in Hf. apply (inj Some) in Hf. apply savepoint_inj in Hf. lia.
  - cbn in E. injection E as -> E. apply Forall_cons in Hl as [_ Hl]. cbn [map] in Hi. apply not_elem_of_cons in Hi as [_ Hi]. by eapply IH.
Qed.

Lemma nests_nil n fs saved : nests n fs saved -> (n = 0%nat <-> saved = []) /\ (fs = [] <-> saved = []).
Proof. intros Hn. destruct Hn; [done|]. repeat split; try done. by destruct left. Qed.

Lemma nests_inv n fs x saved : nests (S n) fs (x :: saved) -> exists left outer,
  fs = left ++ (frame_name n, x) :: outer /\ nests n outer saved /\
  Forall (fun f => exists j, (n < j)%nat /\ fst f = Some (savepoint j)) left.
Proof. inversion 1; subst. eauto. Qed.

(** An inner transaction that ended is left over. *)
Lemma nests_leave n left x outer saved :
  (0 < n)%nat -> nests n outer saved -> Forall (fun f => exists j, (n < j)%nat /\ fst f = Some (savepoint j)) left ->
  nests n (left ++ (frame_name n, x) :: outer) saved.
Proof.
  intros Hn Ho Hl. destruct Ho as [|n left2 x2 outer saved Ho Hl2]; [lia|].
  rewrite app_comm_cons, app_assoc. constructor; [done|]. apply Forall_app. split.
  - eapply Forall_impl; [exact Hl|]. intros f (j & Hj & Hf). exists j. split; [lia|done].
  - constructor; [|done]. exists (S n). split; [lia|done].
Qed.

(** The store and SQLite agree on what is open. *)
Definition in_step (s : t conn) (w : W) (saved : list data) : Prop :=
  isReadOnly_ s = false /\ dbVector s = false /\ haMode s = false /\
  exists p, connectionPool_ s = Some p /\ transactionStack_ p = stack_of (length saved) /\
    isInTransaction_ p = negb (is_nil saved) /\ nests (length saved) (frames w) saved.

Lemma in_step_flag s w saved : in_step s w saved -> IsInTransaction s = negb (is_nil saved).
Proof. intros (Hr & Hv & _ & p & Hp & _ & Hf & _). unfold IsInTransaction. by rewrite Hr, Hv, Hp. Qed.

(** The same store after an operation on the data. *)
Lemma in_step_keeps s w saved s' w' :
  in_step s w saved -> keeps W s s' -> frames w' = frames w -> in_step s' w' saved.
Proof.
  intros (Hr & Hv & Hh & p & Hp & Hs & Hf & Hn) (K1 & K2 & K3 & K4) Hfr. unfold in_step.
  rewrite K1, K2, K3, K4, Hfr. repeat (split; [done|]). by exists p.
Qed.

(** A stack that changed with what SQLite has open. *)
Lemma in_step_stack s w saved w' saved' :
  in_step s w saved -> nests (length saved') (frames w') saved' ->
  in_step (with_stack (negb (is_nil saved')) (stack_of (length saved')) s) w' saved'.
Proof. intros (Hr & Hv & Hh & _) Hn. repeat (split; [done|]). eexists. by repeat split. Qed.

Context `{!StoreLaws W writer}.

(** A statement of the transactions is run on the writing connection. *)
Lemma run_writer sql s w e st w1 : haMode s = false -> GetStatement sql false EmptyString s w = (e, Some st, w1) ->
  text st = Some sql /\ contents w1 = contents w /\ frames w1 = frames w.
Proof.
  intros Hh E. apply (statement W writer) in E as [[E1 E2] E3]; [|done]. destruct (E3 st eq_refl) as [_ E4].
  specialize (E4 eq_refl). by rewrite Str.app_nil_r in E4.
Qed.

Lemma no_statement sql read s w w1 : haMode s = false -> GetStatement sql read EmptyString s w = (E_OK, None, w1) -> False.
Proof.
  intros Hh. unfold GetStatement, GetStatementOn. rewrite Hh. destruct (connectionPool_ s); [|done].
  destruct (AcquireConnection read w) as [[h|] w2]; [|done]. cbn [andb]. intros E.
  apply (create_any_law W writer) in E as (_ & _ & E & _). by apply E.
Qed.

Lemma idle_in_step s w : idle s w -> in_step s w [].
Proof.
  intros (Hr & Hv & Hh & Hp & Hf). repeat (split; [done|]). eexists. split; [exact Hp|]. repeat (split; [done|]).
  rewrite Hf. constructor.
Qed.

Lemma begin_follows s w s' w' saved :
  in_step s w saved -> BeginTransaction s w = (E_OK, s', w') -> contents w' = contents w /\ in_step s' w' (contents w :: saved).
Proof.
  intros Hi. pose proof Hi as (Hr & Hv & Hh & p & Hp & Hs & Hf & Hn). unfold BeginTransaction. rewrite Hp, Hr, Hv, Hs, length_stack.
  cbn [orb]. destruct (GetStatement _ false EmptyString s w) as [[e [st|]] w1] eqn:E; [|intros [= -> _ _]; by apply no_statement in E].
  apply run_writer in E as (Ht & Hc & Hfr); [|done]. destruct (Execute [] st w1) as [[e2 st2] w2] eqn:E2.
  destruct (is_ok e2) eqn:He; cbn [negb]; [|intros [= -> _ _]; by apply is_ok_false in He]. intros [= <- <-].
  apply is_ok_true in He as ->. unfold BaseTransaction.GetTransactionStr in Ht. cbn [BaseTransaction.id BaseTransaction.new] in Ht.
  assert (contents w2 = contents w /\ frames w2 = (frame_name (length saved), contents w) :: frames w) as [Hc2 Hf2].
  { unfold frame_name. destruct (Nat.eqb_spec (length saved) 0) as [Hz|Hz].
    - eapply begin_law in E2 as (B1 & B2 & B3); [|exact Ht|set_solver]. rewrite <- Hfr, <- Hc, B2, B1. done.
    - rewrite <- Str.app_assoc in Ht. eapply (savepoint_law (savepoint (length saved))) in E2 as [B1 B2]; [|exact Ht|apply savepoint_named].
      rewrite <- Hfr, <- Hc. done. }
  split; [done|]. apply (in_step_stack s w saved w2 (contents w :: saved)); [done|].
  rewrite Hf2. cbn [length]. by apply (nests_S (length saved) [] (contents w)).
Qed.

Lemma commit_follows s w s' w' saved :
  in_step s w saved -> Commit s w = (E_OK, s', w') -> contents w' = contents w /\ in_step s' w' (tail saved).
Proof.
  intros Hi. pose proof Hi as (Hr & Hv & Hh & p & Hp & Hs & Hf & Hn). unfold Commit. rewrite Hp, Hr, Hv, Hs. cbn [orb].
  destruct saved as [|x saved]; cbn [length stack_of tail]; [by intros [= <- <-]|].
  cbn [length] in Hn. apply nests_inv in Hn as (left & outer & Hfw & Ho & Hl).
  unfold BaseTransaction.GetCommitStr. cbn [BaseTransaction.id BaseTransaction.new].
  destruct (Nat.eqb_spec (length saved) 0) as [Hz|Hz].
  - destruct saved; [|done]. cbn [length] in *. cbn [String.app String.length Nat.leb].
    destruct (GetStatement _ false EmptyString s w) as [[e [st|]] w1] eqn:E; [|done].
    apply run_writer in E as (Ht & Hc & Hfr); [|done]. destruct (Execute [] st w1) as [[e2 st2] w2] eqn:E2.
    destruct (is_ok e2) eqn:He; cbn [negb]; [|intros [= -> _ _]; by apply is_ok_false in He]. intros [= <- <-].
    apply is_ok_true in He as ->. apply commit_law in E2 as (_ & B1 & B2); [|done]. split; [congruence|].
    apply (in_step_stack s w [x] w2 []); [done|]. rewrite B1. constructor.
  - cbn [String.app String.length Nat.leb]. intros [= <- <-]. split; [done|].
    rewrite Hf. replace (negb (is_nil (x :: saved))) with (negb (is_nil saved)) by (by destruct saved).
    apply (in_step_stack s w (x :: saved) w saved); [done|]. rewrite Hfw. apply nests_leave; [lia|done..].
Qed.

Lemma rollback_follows s w s' w' x saved :
  in_step s w (x :: saved) -> RollBack s w = (E_OK, s', w') -> contents w' = x /\ in_step s' w' saved.
Proof.
  intros Hi. pose proof Hi as (Hr & Hv & Hh & p & Hp & Hs & Hf & Hn). unfold RollBack. rewrite Hp, Hr, Hv, Hs.
  cbn [orb length stack_of]. unfold mark_parent. cbn [BaseTransaction.type BaseTransaction.new negb Z.eqb].
  change (negb (BaseTransaction.ROLLBACK_SELF =? BaseTransaction.ROLLBACK_SELF)) with false. cbn iota.
  cbn [length] in Hn. apply nests_inv in Hn as (left & outer & Hfw & Ho & Hl).
  destruct (GetStatement _ false EmptyString _ w) as [[e [st|]] w1] eqn:E; [|done].
  apply run_writer in E as (Ht & Hc & Hfr); [|done]. destruct (Execute [] st w1) as [[e2 st2] w2] eqn:E2.
  destruct (is_ok e2) eqn:He; cbn [negb]; [|intros [= -> _ _]; by apply is_ok_false in He]. intros [= <- <-].
  apply is_ok_true in He as ->. rewrite Hf. unfold BaseTransaction.GetRollbackStr in Ht. cbn [BaseTransaction.id BaseTransaction.new] in Ht.
  replace (if bool_decide (stack_of (length saved) = []) then false else negb (is_nil (x :: saved))) with (negb (is_nil saved))
    by (destruct saved; [done|]; by rewrite bool_decide_eq_false_2).
  destruct (Nat.eqb_spec (length saved) 0) as [Hz|Hz].
  - apply rollback_law in E2 as [B1 [n B2]]; [|done]. destruct saved; [|done]. inversion Ho; subst outer.
    rewrite Hfr, Hfw, last_snoc in B2. injection B2 as _ ->. split; [done|].
    apply (in_step_stack s w [contents w2] w2 []); [done|]. rewrite B1. constructor.
  - rewrite <- Str.app_assoc in Ht.
    eapply (rollback_to_law (savepoint (length saved))) in E2 as (inner & outer' & B1 & B2 & B3); [|exact Ht|apply savepoint_named].
    rewrite Hfr, Hfw in B1. apply nests_split in B1 as [-> ->]; [|lia|done..]. split; [done|].
    apply (in_step_stack s w (x :: saved) w2 saved); [done|]. rewrite B3.
    assert (Some (savepoint (length saved)) = frame_name (length saved)) as ->
      by (unfold frame_name; by rewrite (proj2 (Nat.eqb_neq _ _) Hz)).
    apply (nests_leave (length saved) []); [lia|done|constructor].
Qed.

(** The calls that fail. *)
Lemma begin_fails s w e s' w' : BeginTransaction s w = (e, s', w') -> e <> E_OK -> s' = s.
Proof.
  unfold BeginTransaction. destruct (connectionPool_ s) as [p|]; [|by intros [= <- <- _]]. case_match; [by intros [= <- <- _]|].
  destruct (GetStatement _ _ _ _ _) as [[e1 [st|]] w1]; [|by intros [= <- <- _]].
  destruct (Execute [] st w1) as [[e2 st2] w2]. case_match; [by intros [= <- <- _]|]. by intros [= <- _ _].
Qed.

Lemma commit_fails s w e s' w' : Commit s w = (e, s', w') -> e <> E_OK -> s' = s.
Proof.
  unfold Commit. destruct (connectionPool_ s) as [p|]; [|by intros [= <- <- _]]. case_match; [by intros [= <- <- _]|].
  destruct (transactionStack_ p); [by intros [= <- <- _]|]. case_match; [by intros [= <- _ _]|].
  destruct (GetStatement _ _ _ _ _) as [[e1 [st|]] w1]; [|by intros [= <- <- _]].
  destruct (Execute [] st w1) as [[e2 st2] w2]. case_match; [by intros [= <- <- _]|]. by intros [= <- _ _].
Qed.

(** A roll back that fails has taken the transaction off the stack. *)
Lemma rollback_fails s w p tr below e s' w' :
  isReadOnly_ s = false -> dbVector s = false -> connectionPool_ s = Some p -> transactionStack_ p = tr :: below ->
  RollBack s w = (e, s', w') -> e <> E_OK -> s' = with_stack (isInTransaction_ p) (mark_parent tr below) s.
Proof.
  intros Hr Hv Hp Hs. unfold RollBack. rewrite Hp, Hr, Hv, Hs. cbn [orb].
  destruct (GetStatement _ _ _ _ w) as [[e1 [st|]] w1]; [|by intros [= _ <- _]].
  destruct (Execute [] st w1) as [[e2 st2] w2]. destruct (is_ok e2) eqn:Ho; [by intros [= <- _ _]|by intros [= _ <- _]].
Qed.

Lemma failed_rollback_follows s w e s' w' x saved :
  in_step s w (x :: saved) -> RollBack s w = (e, s', w') -> e <> E_OK ->
  if is_nil saved then stranded s' w' else frames w' = frames w -> in_step s' w' saved.
Proof.
  intros Hi E He. pose proof Hi as (Hr & Hv & Hh & p & Hp & Hs & Hf & Hn). cbn [length stack_of] in Hs.
  rewrite (rollback_fails _ _ _ _ _ _ _ _ Hr Hv Hp Hs E He), Hf. change (mark_parent _ _) with (stack_of (length saved)).
  destruct saved as [|y saved]; cbn [is_nil negb].
  - unfold stranded, IsInTransaction, Commit, RollBack, with_stack. cbn. by rewrite Hr, Hv.
  - intros Hfr. apply (in_step_stack s w (x :: y :: saved) w' (y :: saved)); [done|]. rewrite Hfr.
    cbn [length] in Hn. apply nests_inv in Hn as (left & outer & Hfw & Ho & Hl). rewrite Hfw. apply nests_leave; [cbn; lia|done..].
Qed.

(** An operation on the data, as long as SQLite does not give the transaction up. *)
Lemma data_follows s w s' w' saved :
  in_step s w saved -> stays w w' -> keeps W s s' -> (saved <> [] -> frames w' <> []) -> in_step s' w' saved.
Proof.
  intros Hi Hw Hk Hg. eapply in_step_keeps; [exact Hi|done|]. destruct Hw as [Hw|Hw]; [done|].
  pose proof Hi as (_ & _ & _ & p & _ & _ & _ & Hn). apply nests_nil in Hn as [_ Hn]. rewrite Hw.
  destruct saved as [|x saved]; [by rewrite (proj2 Hn)|]. by destruct Hg.
Qed.

Lemma act_keeps a s w e s' w' :
  haMode s = false -> run_act a s w = (e, s', w') -> a <> ABegin -> a <> ACommit -> a <> ARollBack -> plain_act a ->
  stays w w' /\ keeps W s s'.
Proof.
  intros Hh E N1 N2 N3 Hp. destruct a as [| | |table row res|row p config res|p config|now table rows|sql args]; try done;
    cbn [run_act plain_act] in E, Hp.
  - destruct (Insert table row res s w) as [[[row' [e1 n]] s1] w1] eqn:E1. injection E as _ <- <-. by eapply (insert_keeps W writer).
  - destruct (Update row p config res s w) as [[[e1 r] s1] w1] eqn:E1. injection E as _ <- <-. by eapply (update_keeps W writer).
  - destruct (Delete p config s w) as [[[e1 r] s1] w1] eqn:E1. injection E as _ <- <-. by eapply (delete_keeps W writer).
  - destruct (BatchInsert now table rows s w) as [[[e1 r] s1] w1] eqn:E1. injection E as _ <- <-. by eapply (batch_insert_keeps W writer).
  - by eapply (execute_sql_keeps W writer).
Qed.

Lemma run_follows acts : forall s w saved, in_step s w saved -> follows acts s w saved.
Proof.
  induction acts as [|a acts IH]; intros s w saved Hi; cbn [follows]; (split; [by eapply in_step_flag|]); [done|].
  assert (Hd : forall e s' w', run_act a s w = (e, s', w') -> a <> ABegin -> a <> ACommit -> a <> ARollBack -> plain_act a ->
    (saved <> [] -> frames w' <> []) -> follows acts s' w' saved).
  { intros e s' w' E N1 N2 N3 Hp Hg. pose proof Hi as (_ & _ & Hh & _). destruct (act_keeps a s w e s' w' Hh E N1 N2 N3 Hp) as [K1 K2].
    apply IH. by eapply data_follows. }
  destruct (run_act a s w) as [[e s'] w'] eqn:E. destruct a; try (by eapply Hd); cbn [run_act] in E.
  - split; [intros ->; apply begin_follows with (saved := saved) in E as [E1 E2]; [|done]; split; [done|by apply IH]|].
    intros He. rewrite (begin_fails _ _ _ _ _ E He). split; [done|]. intros Hf. apply IH. by apply (in_step_keeps s w saved s w').
  - split; [intros ->; apply commit_follows with (saved := saved) in E as [E1 E2]; [|done]; split; [done|by apply IH]|].
    intros He. rewrite (commit_fails _ _ _ _ _ E He). split; [done|]. intros Hf. apply IH. by apply (in_step_keeps s w saved s w').
  - destruct saved as [|x saved].
    + pose proof Hi as (Hr & Hv & Hh & p & Hp & Hs & _). unfold RollBack in E. rewrite Hp, Hr, Hv, Hs in E. cbn in E.
      injection E as <- <- <-. split; [done|]. split; [done|]. by apply IH.
    + split; [intros ->; apply rollback_follows with (x := x) (saved := saved) in E as [E1 E2]; [|done]; split; [done|by apply IH]|].
      intros He. pose proof (failed_rollback_follows s w e s' w' x saved Hi E He) as Hf.
      destruct saved; [exact Hf|]. intros Hfr. apply IH. by apply Hf.
Qed.

End Nested.

(** C7: Nested transactions: from a store that may write, is not a vector store, works in the mode with a
    single database, and has no transaction open, any sequence of begins, commits, roll backs and
    changes of the data acts as nested transactions do, failing calls included.  A roll back that
    succeeds returns to the data at the begin it belongs to, however many inner transactions were
    begun, committed or rolled back in between; a commit keeps the data and belongs to the enclosing
    transaction; a roll back without a transaction is refused; and the store says that it is in a
    transaction exactly when one is open.  A begin or a commit that fails leaves the store as it
    was.  A roll back of an inner transaction that fails leaves its changes to the enclosing one, as a
    commit does, and one of the outermost transaction that fails strands the store ([stranded]): that is
    where the sequence ends.  Assumed on the way: statements of [ExecuteSql] are on the data, and a
    statement that fails does not make SQLite give up the transaction. *)
Theorem nested_transactions {W} `{Database W} `{DelayNotify.Executor W} (writer : conn)
    `{!@Transactional W _ (writer_view W writer)} `{!StoreLaws W writer} acts s w :
  idle W writer s w -> follows W writer acts s w [].
Proof. intros Hi. apply run_follows; [done|]. by apply idle_in_step. Qed.

(** A roll back of the last open transaction that fails takes it off the stack all the same: the store still says that
    it is in a transaction, but a commit is answered with success and does nothing, and another
    roll back is refused. *)
Theorem failed_rollback_strands {W} `{Database W} s (w : W) p tr e s' w' :
  isReadOnly_ s = false -> dbVector s = false -> connectionPool_ s = Some p -> transactionStack_ p = [tr] ->
  isInTransaction_ p = true -> RollBack s w = (e, s', w') -> e <> E_OK ->
  IsInTransaction s' = true /\ Commit s' w' = (E_OK, s', w') /\ RollBack s' w' = (E_NO_TRANSACTION_IN_SESSION, s', w').
Proof.
  intros Hr Hv Hp Hs Hi E He. rewrite (rollback_fails W _ _ _ _ _ _ _ _ Hr Hv Hp Hs E He).
  assert (mark_parent tr [] = []) as -> by (unfold mark_parent; by destruct (negb _)). rewrite Hi.
  unfold IsInTransaction, Commit, RollBack, with_stack. cbn. by rewrite Hr, Hv.
Qed.

(** A store that is read only changes nothing: every operation that writes, or begins, commits or rolls back a
    transaction, is refused before the pool is asked for a connection. *)
Theorem read_only_untouched {W} `{Database W} `{DelayNotify.Executor W} s (w : W) :
  isReadOnly_ s = true ->
  (forall a, exists e, run_act a s w = (e, s, w) /\ (e = E_NOT_SUPPORT \/ e = E_ALREADY_CLOSED)) /\
  (forall now table rows config res, BatchInsertReturning now table rows config res s w = ((E_NOT_SUPPORT, TransDB.failed_results), s, w)) /\
  (forall sql args trx, ExecuteSqlForValue sql args trx s w = ((E_NOT_SUPPORT, VNil), s, w)) /\
  (forall sql args, ExecuteExt sql args s w = ((E_NOT_SUPPORT, TransDB.failed_results), s, w)) /\
  (forall v, SetVersion v s w = (E_NOT_SUPPORT, w)) /\
  BeginTrans s w = ((E_NOT_SUPPORT, 0), s, w) /\
  (forall ty, CreateTransaction ty s w = (E_NOT_SUPPORT, None, w)).
Proof.
  intros Hr. split.
  - intros a. destruct a; cbn [run_act]; unfold BeginTransaction, Commit, RollBack, Insert, Update, Delete, BatchInsert, ExecuteSql;
      rewrite ?Hr, ?orb_true_r; cbn [orb]; try (eexists; split; [reflexivity|by left]);
      destruct (connectionPool_ s); eexists; (split; [reflexivity|auto]).
  - unfold BatchInsertReturning, ExecuteSqlForValue, ExecuteExt, SetVersion, BeginTrans, CreateTransaction.
    rewrite Hr, ?orb_true_r. done.
Qed.

(** *** A store at work *)

Import SmallConn.

#[local] Instance small_database : Database mem := {
  conn := unit;
  AcquireConnection _ w := (Some tt, w);
  CreateTransConn _ w := (E_OK, Some tt, w);
  RestartConns w := (E_OK, w);
  IsWriter _ := true;
  ReadOnly st := SqliteUtils.IsSqlReadOnly (SqliteUtils.GetSqlStatementType st);
  MaxVariable _ := GetMaxVariable;
  CreateStatementOn _ := CreateStatement;
  CreateReplicaStatement _ := CreateStatement;
  IsSlaveRestoring _ := false;
  KeyLock w := (E_OK, w);
  EndRestoring w := w;
  NeedsRestore _ _ := false;
  CheckReplicaForRestore _ w := (E_OK, w);
  StartAsyncRestore w := (E_OK, w)
}.

#[local] Instance small_executor : DelayNotify.Executor mem := {
  Schedule _ w := (1, w);
  ResetTask id _ w := (id, w);
  RemoveTask _ w := w;
  task _ _ w := (0, w)
}.

Definition the_writer : conn := tt.

#[local] Instance small_writer : @Transactional mem _ (writer_view mem the_writer) := small_conn_laws.

#[local] Instance small_store_laws : StoreLaws mem the_writer.
Proof.
  split.
  - intros r w oc w' [= <- <-]. repeat (split; [done|]). by intros [] _ _.
  - intros h sql ret w e os w' E. apply (create_law (C := mem)) in E as (E1 & E2 & E3 & E4). repeat (split; [done|]).
    intros st Hst. left. by apply E4.
  - by intros.
  - by intros.
  - by intros.
  - by intros.
  - by intros w e w' [= _ <-].
  - by intros i w id w' [= _ <-].
  - by intros j i w id w' [= _ <-].
  - done.
  - by intros d c w e w' [= _ <-].
Qed.

Definition demo_store : t conn :=
  {| isReadOnly_ := false; isMemoryRdb_ := false; isUseReplicaDb_ := false; dbVector := false; isVector := false; haMode := false;
     connectionPool_ := Some {| isInTransaction_ := false; transactionStack_ := [] |}; vSchema_ := 0; newTrxId_ := 1;
     trxConnMap_ := ∅; cloudInfo_ := CloudTables.new; executor := true; scheduled := 0; delayNotifier_ := None |}.

Definition demo_world : mem := {| m_data := []; m_frames := [] |}.

(** The inner transaction is rolled back, another one committed, and the outer one rolled back. *)
Definition demo_acts : list act :=
  [ABegin; AExecuteSql "INSERT INTO t VALUES (1)" []; ABegin; AExecuteSql "DELETE FROM t" []; ARollBack; ABegin; ACommit; ARollBack; ARollBack].

Definition after_acts (acts : list act) : t conn * mem :=
  foldl (fun sw a => let '(_, s', w') := run_act a (fst sw) (snd sw) in (s', w')) (demo_store, demo_world) acts.

Lemma nested_transactions_witness :
  follows mem the_writer demo_acts demo_store demo_world [] /\
  m_data (snd (after_acts (firstn 5 demo_acts))) = [("INSERT INTO t VALUES (1)", [])] /\
  m_data (snd (after_acts demo_acts)) = [].
Proof.
  split; [apply (nested_transactions the_writer demo_acts demo_store demo_world); repeat split|]. split; vm_compute; reflexivity.
Defined.

Definition read_only_store : t conn :=
  {| isReadOnly_ := true; isMemoryRdb_ := false; isUseReplicaDb_ := false; dbVector := false; isVector := false; haMode := false;
     connectionPool_ := Some {| isInTransaction_ := false; transactionStack_ := [] |}; vSchema_ := 0; newTrxId_ := 1;
     trxConnMap_ := ∅; cloudInfo_ := CloudTables.new; executor := true; scheduled := 0; delayNotifier_ := None |}.

Lemma read_only_untouched_witness : SetVersion 2 read_only_store demo_world = (E_NOT_SUPPORT, demo_world).
Proof. exact (proj1 (proj2 (proj2 (proj2 (proj2 (read_only_untouched read_only_store demo_world eq_refl))))) 2). Defined.

End StoreProps.
