(* ===== verification/StoreOpen.v ===== *)
(** * Opening a store

    [SyncerParam]: what the service is told of a store (RdbSyncerParam of rdb_types.h, the members
    that are set in the library).  [SecurityPolicy]: security_policy.cpp.  [StoreObject]: the
    members of [RdbStoreImpl] that opening and closing change, and of rdb_store_impl.cpp the
    constructor, [Init] and everything [Init] decides ([CreatePool], [TryAsyncRepair],
    [ExchangeSlaverToMaster], [InnerOpen]), [Close], and [ConnectionPool::HandleDataCorruption].
    The service is the class [Service]; the pool, the files and the callbacks of the caller, as
    far as opening asks for them, are the class [Opening].

    Every such call gets the configuration of the store.  A pool that was made is [true]: the
    source makes one exactly when its creation answers [E_OK]. *)
From Stdlib Require Import ZArith Lia Ascii.
From stdpp Require Import base gmap list strings pretty.
From coqutil Require Import Datatypes.RecordSetters.
Import OCamlLikeNotations.
From S2P Require Import Prelude CppStd Errno StringUtils Security StoreConfig.

Local Open Scope Z_scope.
Import Run.
#[local] Arguments constant {E} newValue _ /.

Abbreviation Config := RdbStoreConfig.t.

Module SyncerParam.

Record t := {
  bundleName_ : string;
  hapName_ : string;
  storeName_ : string;
  customDir_ : string;
  area_ : Z;
  level_ : Z;
  haMode_ : Z;
  type_ : Z;
  roleType_ : Z;
  isEncrypt_ : bool;
  isAutoClean_ : bool;
  isAutoCleanDevice_ : bool;
  isSearchable_ : bool;
  password_ : list Z;
  tokenIds_ : list Z;
  uids_ : list Z;
  user_ : string;
  permissionNames_ : list string;
  subUser_ : Z;
  dbPath_ : string;
  isLocalOnly_ : bool
}.

Definition new : t :=
  {| bundleName_ := EmptyString; hapName_ := EmptyString; storeName_ := EmptyString; customDir_ := EmptyString; area_ := 0;
     level_ := 0; haMode_ := 0; type_ := RdbStoreConfig.RDB_DEVICE_COLLABORATION; roleType_ := 0; isEncrypt_ := false;
     isAutoClean_ := true; isAutoCleanDevice_ := true; isSearchable_ := false; password_ := []; tokenIds_ := []; uids_ := [];
     user_ := EmptyString; permissionNames_ := []; subUser_ := 0; dbPath_ := EmptyString; isLocalOnly_ := false |}.

(** The assignments that [RdbStoreManager::GetSyncParam] and [RdbStoreImpl::InitSyncerParam] share. *)
Definition fill (config : Config) (p : t) : t :=
  let info := RdbStoreConfig.promiseInfo_ config in
  {p with
     bundleName_ := RdbStoreConfig.bundleName_ config;
     hapName_ := RdbStoreConfig.moduleName_ config;
     storeName_ := RdbStoreConfig.name_ config;
     customDir_ := RdbStoreConfig.customDir_ config;
     area_ := RdbStoreConfig.area_ config;
     level_ := RdbStoreConfig.level (RdbStoreConfig.securityLevel_ config);
     isEncrypt_ := RdbStoreConfig.IsEncrypt config;
     isAutoClean_ := RdbStoreConfig.isAutoClean_ config;
     isAutoCleanDevice_ := RdbStoreConfig.isAutoCleanDevice_ config;
     isSearchable_ := RdbStoreConfig.isSearchable_ config;
     roleType_ := RdbStoreConfig.role_ config;
     haMode_ := RdbStoreConfig.haMode_ config;
     tokenIds_ := RdbStoreConfig.tokenIds_ info;
     uids_ := RdbStoreConfig.uids_ info;
     user_ := RdbStoreConfig.user_ info;
     permissionNames_ := RdbStoreConfig.permissionNames_ info;
     subUser_ := RdbStoreConfig.subUser_ config;
     isLocalOnly_ := RdbStoreConfig.isLocalOnly_ config }.

End SyncerParam.

(** The service: [GetRdbService] gives a code and whether there is a service; the calls of the
    service itself answer with an [RdbStatus]. *)
Class Service (W : Type) := {
  IsProxy : W -> bool;
  GetRdbService : SyncerParam.t -> W -> (errno * bool) * W;
  BeforeOpen : SyncerParam.t -> W -> (Z * SyncerParam.t) * W;
  VerifyPromiseInfo : SyncerParam.t -> W -> Z * W;
  DeleteStore : SyncerParam.t -> W -> Z * W;
  GetSilentAccessStores : SyncerParam.t -> W -> (Z * list string) * W;
  Disable : SyncerParam.t -> W -> W;
  Enable : SyncerParam.t -> W -> W
}.

Definition RDB_OK : Z := 0.
Definition RDB_PERMISSION_DENIED : Z := 3.

Inductive ExchangeStrategy := NOT_HANDLE | BACKUP | RESTORE | PENDING_BACKUP.

(** What opening a store asks of the pool, the files and the caller.  [PoolCreate] is
    [ConnectionPool::Create], which takes the configuration by a constant reference and so may
    change its mutable members; [ProcessOpenCallback] runs the caller's callbacks. *)
Class Opening (W : Type) := {
  accessible : string -> W -> bool;
  HasAccessAcl : string -> W -> bool;
  SetFileGid : Config -> W -> W;
  SetLabel : string -> string -> W -> bool * W;
  PoolCreate : Config -> W -> (errno * Config) * W;
  PoolClose : Config -> W -> W;
  Repair : Config -> W -> errno * W;
  DeleteDatabase : Config -> W -> W;
  RestoreKeyFile : string -> list Z -> W -> W;
  IsUseAsyncRestore : Config -> string -> string -> W -> bool;
  CheckReplicaIntegrity : Config -> W -> errno * W;
  DeleteDirtyFiles : string -> W -> W;
  StartAsyncRestore : Config -> W -> errno * W;
  GetConn : Config -> W -> errno * W;
  GenerateExchangeStrategy : Config -> W -> ExchangeStrategy * W;
  IsInAsyncRestore : string -> W -> bool * W;
  Restore : Config -> W -> errno * W;
  Backup : Config -> W -> errno * W;
  StartAsyncBackupIfNeed : Config -> W -> errno * W;
  ProcessOpenCallback : Z -> Config -> W -> errno * W;
  RecordOpen : Config -> bool -> W -> W;
  SetKnowledgeSchema : Config -> W -> W;
  AfterOpen : SyncerParam.t -> W -> W;
  RegisterMatrix : Config -> SyncerParam.t -> W -> W;
  RegisterDataChangeCallback : Config -> W -> W
}.

Module SecurityPolicy.
Import RdbStoreConfig.

Definition GetSecurityLevelValue (securityLevel : SecurityLevel) : string :=
  match securityLevel with S1 => "s1" | S2 => "s2" | S3 => "s3" | S4 => "s4" | LAST => EmptyString end.

Definition SetSecurityLabel {W} `{Opening W} (config : Config) (w : W) : errno * W :=
  if negb (bool_decide (storageMode_ config = MODE_MEMORY)) && negb (bool_decide (securityLevel_ config = LAST)) then
    let '(ok, w1) := SetLabel (path_ config) (GetSecurityLevelValue (securityLevel_ config)) w in
    (if ok then E_OK else E_CONFIG_INVALID_CHANGE, w1)
  else (E_OK, w).

End SecurityPolicy.

Module StoreObject.
Import RdbStoreConfig.

Inductive RebuiltType := NONE | REBUILT | REPAIRED.

(** Members of [RdbStoreImpl]; [initStatus_] is [None] for -1. *)
Record t := {
  isOpen_ : bool;
  isReadOnly_ : bool;
  isMemoryRdb_ : bool;
  isUseReplicaDb_ : bool;
  isNeedSetAcl_ : bool;
  rebuild_ : RebuiltType;
  initStatus_ : option errno;
  config_ : Config;
  syncerParam_ : SyncerParam.t;
  path_ : string;
  connectionPool_ : bool
}.

#[export] Instance RebuiltType_dec : EqDecision RebuiltType.
Proof. solve_decision. Defined.

(** The constructor. *)
Definition new (config : Config) : t :=
  {| isOpen_ := false; isReadOnly_ := readOnly_ config || (role_ config =? VISITOR); isMemoryRdb_ := IsMemoryRdb config;
     isUseReplicaDb_ := false; isNeedSetAcl_ := false; rebuild_ := NONE; initStatus_ := None; config_ := config;
     syncerParam_ := SyncerParam.new; path_ := (DbPath.GetDbPath config).2; connectionPool_ := false |}.

Section Ops.
Context {W : Type} `{Service W} `{Opening W}.
Abbreviation op := (run (t * W)).

(** A call with the configuration of the store. *)
Definition on_config {A} (f : Config -> W -> A * W) : op A := let! o := self in sys (f (config_ o)).
Definition on_config_ (f : Config -> W -> W) : op unit := let! o := self in sys_ (f (config_ o)).
Definition INVALID_PATH_PART : string := "..".

Definition InitSyncerParam : op unit :=
  modify (fun o =>
    let p := SyncerParam.fill (config_ o) (syncerParam_ o) in
    let serverPath := serverPath_ (config_ o) in
    let p := {p with SyncerParam.type_ := distributedType_ (config_ o); SyncerParam.password_ := GetEncryptKey (config_ o) } in
    {o with syncerParam_ :=
       if negb (Str.empty serverPath) && bool_decide (is_Some (Str.find serverPath (SyncerParam.bundleName_ p) 0)) &&
          negb (bool_decide (is_Some (Str.find serverPath INVALID_PATH_PART 0)))
       then {p with SyncerParam.dbPath_ := serverPath } else p }).

(** [ConnectionPool::Create] on the configuration of the store. *)
Definition create_pool : op errno := fun s =>
  let '((errCode, config), w) := PoolCreate (config_ s.1) s.2 in Some (errCode, ({s.1 with config_ := config }, w)).

(** [HandleDataCorruption]: the new code; [rebuild_] and [connectionPool_] get its result. *)
Definition HandleDataCorruption (errCode : errno) : op errno :=
  let assign r p := modify (fun o => {o with rebuild_ := r; connectionPool_ := p }) in
  let create r := let! e := create_pool in let! _ := assign r (is_ok e) in ret e in
  let! repairErrCode := on_config Repair in
  let! o := self in
  if is_ok repairErrCode then create REPAIRED
  else if allowRebuilt_ (config_ o) then let! _ := on_config_ DeleteDatabase in create REBUILT
  else
    let! _ := assign NONE false in
    ret (if IsEncrypt (config_ o) && bool_decide (errCode = E_INVALID_SECRET_KEY) then errCode else E_SQLITE_CORRUPT).

Definition TryAsyncRepair : op bool :=
  let! o := self in
  let slavePath := SqliteUtils.GetSlavePath (path_ o) in
  let! async := get (fun s => IsUseAsyncRestore (config_ o) (path_ o) slavePath s.2) in
  if negb async then ret false
  else
    let! errCode := on_config CheckReplicaIntegrity in
    if negb (is_ok errCode) then ret false
    else
      let! _ := sys_ (DeleteDirtyFiles (path_ o)) in
      let! errCode := create_pool in
      if negb (is_ok errCode) then ret false
      else
        let! _ := modify (fun o => {o with connectionPool_ := true }) in
        let! errCode := on_config StartAsyncRestore in
        if negb (is_ok errCode) then ret false
        else let! _ := modify (fun o => {o with rebuild_ := REPAIRED }) in ret true.

(** [CreatePool]: the code and [created]. *)
Definition CreatePool (created : bool) : op (errno * bool) :=
  let! errCode := create_pool in
  let! _ := modify (fun o => {o with connectionPool_ := is_ok errCode }) in
  let! o := self in
  if negb (connectionPool_ o) && (bool_decide (errCode = E_SQLITE_CORRUPT) || bool_decide (errCode = E_INVALID_SECRET_KEY)) &&
     negb (isReadOnly_ o) then
    let! _ := InitSyncerParam in
    let! o := self in
    let! (_, service) := sys (GetRdbService (syncerParam_ o)) in
    let! _ := when service (sys_ (Disable (syncerParam_ o))) in
    let! _ := modify (fun o => {o with config_ := SetIter 0 (config_ o) }) in
    let! _ := when (IsEncrypt (config_ o) && allowRebuilt_ (config_ o))
                (sys_ (RestoreKeyFile (path_ o) (GetEncryptKey (config_ o)))) in
    let! repaired := TryAsyncRepair in
    let! errCode := if repaired then ret E_OK else HandleDataCorruption errCode in
    let! _ := when service (sys_ (Enable (syncerParam_ o))) in
    ret (errCode, true)
  else ret (errCode, created).

Definition SetSecurityLabel : op errno :=
  let! o := self in
  if IsMemoryRdb (config_ o) then ret E_OK else on_config SecurityPolicy.SetSecurityLabel.

Definition SwitchOver (isUseReplicaDb : bool) : op unit := modify (fun o => {o with isUseReplicaDb_ := isUseReplicaDb }).

Definition ExchangeSlaverToMaster : op errno :=
  let! o := self in
  if isReadOnly_ o || isMemoryRdb_ o || negb (bool_decide (rebuild_ o = NONE)) then ret E_OK
  else
    let! errCode := on_config GetConn in
    if negb (is_ok errCode) then ret errCode
    else
      let! strategy := on_config GenerateExchangeStrategy in
      match strategy with
      | RESTORE =>
          let! busy := sys (IsInAsyncRestore (RdbStoreConfig.path_ (config_ o))) in
          if busy then ret E_OK else on_config Restore
      | BACKUP => on_config Backup
      | PENDING_BACKUP => on_config StartAsyncBackupIfNeed
      | NOT_HANDLE => ret E_OK
      end.

(** [InnerOpen], whose code is always [E_OK]. *)
Definition InnerOpen : op unit :=
  let! o := self in
  let c := config_ o in
  if isReadOnly_ o || isMemoryRdb_ o || customEncryptParam_ c || negb (role_ c =? OWNER) then ret tt
  else
    let! _ := when (enableSemanticIndex_ c) (on_config_ SetKnowledgeSchema) in
    let! _ := sys_ (AfterOpen (syncerParam_ o)) in
    if (dbType_ c =? DB_VECTOR) || (negb (isSearchable_ c) && negb (enableSemanticIndex_ c)) then ret tt
    else
      let! _ := when (isSearchable_ c) (sys_ (RegisterMatrix c (syncerParam_ o))) in
      on_config_ RegisterDataChangeCallback.

(** The part of [Init] for the owner of a database that can be written: label, replica, callbacks. *)
Definition init_owner (version : Z) : op errno :=
  let! errCode := SetSecurityLabel in
  if negb (is_ok errCode) then ret errCode
  else
    let! _ := ExchangeSlaverToMaster in
    let! _ := SwitchOver true in
    let! errCode := on_config (ProcessOpenCallback version) in
    let! _ := SwitchOver false in
    ret errCode.

Definition Init (version : Z) (isNeedSetAcl : bool) : op errno :=
  let! o := self in
  match initStatus_ o with
  | Some status => ret status
  | None =>
      let path := RdbStoreConfig.path_ (config_ o) in
      let! acl := get (fun s => IsProxy s.2 &&
        (isNeedSetAcl || HasAccessAcl path s.2 || HasAccessAcl (SqliteUtils.GetSlavePath path) s.2)) in
      let! created := get (fun s => negb (accessible (path_ o) s.2)) in
      let! (errCode, created) := CreatePool created in
      let! o := self in
      if negb (connectionPool_ o) || negb (is_ok errCode) then
        let! _ := modify (fun o => {o with connectionPool_ := false }) in ret errCode
      else
        let! _ := when acl (let! _ := modify (fun o => {o with isNeedSetAcl_ := true }) in on_config_ SetFileGid) in
        let! _ := InitSyncerParam in
        let! _ := modify (fun o => {o with isOpen_ := true }) in
        let! errCode := if (role_ (config_ o) =? OWNER) && negb (readOnly_ (config_ o)) then init_owner version else ret E_OK in
        if negb (is_ok errCode) then ret errCode
        else
          let! _ := on_config_ (fun c => RecordOpen c created) in
          let! _ := InnerOpen in
          let! _ := modify (fun o => {o with initStatus_ := Some errCode }) in
          ret errCode
  end.

(** [Close], without the transaction objects: they close themselves on the connections. *)
Definition Close : op unit :=
  let! o := self in
  when (connectionPool_ o)
    (let! _ := on_config_ PoolClose in modify (fun o => {o with connectionPool_ := false })).

End Ops.
End StoreObject.

(** ** What opening keeps *)

Module OpenInv.
Import RdbStoreConfig StoreObject.

(** A function that has a constant reference to a configuration changes its mutable members only. *)
Definition const_changes (c c' : Config) : Prop :=
  c' = {c with isEncrypt_ := isEncrypt_ c'; customEncryptParam_ := customEncryptParam_ c'; tokenizer_ := tokenizer_ c';
              cryptoParam_ := cryptoParam_ c'; collatorLocales_ := collatorLocales_ c';
              newEncryptKey_ := newEncryptKey_ c'; registerInfo_ := registerInfo_ c' }.

Class OpeningLaws (W : Type) `{Opening W} : Prop := {
  pool_create_const c (w : W) e c' w' : PoolCreate c w = ((e, c'), w') -> const_changes c c'
}.

#[export] Instance const_changes_preorder : PreOrder const_changes.
Proof.
  unfold const_changes. split; [by intros []|]. intros c1 c2 c3 H12 H23. rewrite H23 at 1. rewrite H12. reflexivity.
Qed.

Lemma const_identity c c' : const_changes c c' -> ConfigProps.identity c' = ConfigProps.identity c.
Proof. intros ->. reflexivity. Qed.

Lemma const_path c c' : const_changes c c' -> DbPath.GetDbPath c' = DbPath.GetDbPath c.
Proof. intros ->. reflexivity. Qed.

Lemma const_memory c c' : const_changes c c' -> IsMemoryRdb c' = IsMemoryRdb c.
Proof. intros ->. reflexivity. Qed.

Lemma const_version c c' : const_changes c c' -> version_ c' = version_ c.
Proof. intros ->. reflexivity. Qed.

(** What identifies a store is not changed by opening it, nor is its status before the end. *)
Definition stable (o o' : StoreObject.t) : Prop :=
  const_changes (config_ o) (config_ o') /\ isReadOnly_ o' = isReadOnly_ o /\ path_ o' = path_ o /\ initStatus_ o' = initStatus_ o.

Definition pooled (o o' : StoreObject.t) : Prop := stable o o' /\ connectionPool_ o' = connectionPool_ o.

#[export] Instance stable_preorder : PreOrder stable.
Proof.
  split; [by intros o|]. intros o1 o2 o3 (H1 & H2 & H3 & H4) (H5 & H6 & H7 & H8).
  split; [by etrans|]. repeat split; congruence.
Qed.

#[export] Instance pooled_preorder : PreOrder pooled.
Proof. split; [by intros o|]. intros o1 o2 o3 [H1 H2] [H3 H4]. split; [by etrans|congruence]. Qed.

Section Specs.
Context {W : Type} `{OpeningLaws W} `{!Service W}.
Abbreviation op := (run (StoreObject.t * W)).

Lemma keeps_on_config {A} R `{!PreOrder R} (f : Config -> W -> A * W) : keeps R (on_config f).
Proof. apply keeps_bind; [apply _|apply keeps_self, _|]. intros o. by apply keeps_sys. Qed.

Lemma keeps_on_config_ R `{!PreOrder R} (f : Config -> W -> W) : keeps R (on_config_ f).
Proof. apply keeps_bind; [apply _|apply keeps_self, _|]. intros o. by apply keeps_sys_. Qed.

Lemma keeps_create : keeps stable (create_pool : op errno).
Proof.
  intros [o w]. unfold wp, create_pool. simpl. destruct (PoolCreate (config_ o) w) as [[e c] w'] eqn:E.
  split; [|done]. by eapply pool_create_const.
Qed.

Lemma keeps_set_iter n : keeps stable (modify (fun o => {o with config_ := SetIter n (config_ o) }) : op unit).
Proof. intros [o w]. split; [|done]. simpl. by destruct (config_ o). Qed.

Lemma keeps_syncer : keeps pooled (InitSyncerParam : op unit).
Proof. apply keeps_modify. intros o. by split. Qed.

Lemma keeps_pooled {A} (m : op A) : keeps pooled m -> keeps stable m.
Proof. intros Hm s. eapply wp_mono; [apply Hm|]. by intros a s' []. Qed.

#[local] Hint Resolve keeps_on_config keeps_on_config_ keeps_create keeps_set_iter keeps_syncer keeps_pooled : keeps.

Lemma keeps_create_pool created : keeps stable (CreatePool created : op (errno * bool)).
Proof. unfold CreatePool, HandleDataCorruption, TryAsyncRepair. keeping. Qed.

Lemma keeps_close : keeps stable (Close : op unit).
Proof. unfold Close. keeping. Qed.

Lemma keeps_inner : keeps pooled (InnerOpen : op unit).
Proof. unfold InnerOpen. keeping. Qed.

Lemma keeps_owner version : keeps pooled (init_owner version : op errno).
Proof. unfold init_owner, SetSecurityLabel, ExchangeSlaverToMaster, SwitchOver. keeping. Qed.


(** The status is that of a store that was never opened, or of one that is open. *)
Definition settled (o : StoreObject.t) : Prop := initStatus_ o = None \/ initStatus_ o = Some E_OK.

(** What [Init] does to a store: what identifies it stays; the answer is [E_OK] exactly when the
    store is open behind it, and then it has got a pool. *)
Definition opened (o : StoreObject.t) (e : errno) (o' : StoreObject.t) : Prop :=
  const_changes (config_ o) (config_ o') /\ isReadOnly_ o' = isReadOnly_ o /\ path_ o' = path_ o /\
  initStatus_ o' = (if is_ok e then Some E_OK else None) /\
  (initStatus_ o = None -> connectionPool_ o' = true \/ e <> E_OK).

Lemma opened_stable o o1 e o2 : stable o o1 -> opened o1 e o2 -> opened o e o2.
Proof.
  intros (C1 & R1 & P1 & I1) (C2 & R2 & P2 & I2 & Hp). split; [by etrans|]. rewrite <- R1, <- P1, <- I1. done.
Qed.

Lemma failed_opened o e o' : initStatus_ o = None -> e <> E_OK -> stable o o' -> opened o e o'.
Proof.
  intros Hi He (C & R & P & I). split; [done|]. split; [done|]. split; [done|]. apply is_ok_false in He as Hf.
  rewrite Hf. split; [congruence|]. by right.
Qed.

(** A pool is there exactly when the code is [E_OK]. *)
Lemma corruption_pool errCode s : wp (HandleDataCorruption errCode : op errno) (fun e s' => connectionPool_ s'.1 = is_ok e) s.
Proof.
  unfold HandleDataCorruption. apply wp_bind. eapply wp_keeps; [apply (keeps_on_config stable)|]. intros r s1 _.
  apply wp_bind, wp_get.
  assert (forall rb s, wp (let! e := create_pool in
    let! _ := modify (fun o => {o with rebuild_ := rb; connectionPool_ := is_ok e }) in ret e : op errno)
    (fun e s' => connectionPool_ s'.1 = is_ok e) s) as Hcreate.
  { intros rb s2. apply wp_bind. eapply wp_keeps; [apply keeps_create|]. by intros e s3 _. }
  destruct (is_ok r); [apply Hcreate|]. destruct (allowRebuilt_ _).
  - apply wp_bind. eapply wp_keeps; [apply (keeps_on_config_ stable)|]. intros. apply Hcreate.
  - unfold wp. simpl. case_bool_decide; [|by rewrite andb_false_r]. subst. by destruct (IsEncrypt _).
Qed.

Lemma repair_pool s : wp (TryAsyncRepair : op bool) (fun r s' => r = true -> connectionPool_ s'.1 = true) s.
Proof.
  unfold TryAsyncRepair. apply wp_bind, wp_get, wp_bind, wp_get. destruct (negb _); [done|].
  apply wp_bind. eapply wp_keeps; [apply (keeps_on_config stable)|]. intros e1 s1 _. destruct (negb (is_ok e1)); [done|].
  apply wp_bind. eapply wp_keeps; [apply (keeps_sys_ stable)|]. intros _ s2 _.
  apply wp_bind. eapply wp_keeps; [apply keeps_create|]. intros e2 s3 _. destruct (negb (is_ok e2)); [done|].
  apply wp_bind. unfold wp at 1, modify at 1. apply wp_bind.
  eapply wp_keeps; [apply (keeps_on_config pooled)|]. intros e3 s4 [_ Hp]. destruct (negb (is_ok e3)); [done|].
  intros _. apply Hp.
Qed.

Lemma create_pool_pool created s :
  wp (CreatePool created : op (errno * bool)) (fun r s' => stable s.1 s'.1 /\ connectionPool_ s'.1 = is_ok r.1) s.
Proof.
  apply wp_and; [apply keeps_create_pool|]. unfold CreatePool. apply wp_bind.
  eapply wp_keeps; [apply keeps_create|]. intros e s1 _. apply wp_bind. unfold wp at 1, modify. simpl.
  apply wp_bind, wp_get. case_match; [|done].
  apply wp_bind. eapply wp_keeps; [apply keeps_syncer|]. intros _ s2 _. apply wp_bind, wp_get, wp_bind.
  eapply wp_keeps; [apply (keeps_sys stable)|]. intros [? service] s3 _. apply wp_bind.
  eapply wp_keeps; [apply (keeps_when stable), (keeps_sys_ stable)|]. intros _ s4 _. apply wp_bind.
  eapply wp_keeps; [apply keeps_set_iter|]. intros _ s5 _. apply wp_bind.
  eapply wp_keeps; [apply (keeps_when stable), (keeps_sys_ stable)|]. intros _ s6 _. apply wp_bind.
  eapply wp_mono; [apply repair_pool|]. intros [] s7 Hp; apply wp_bind.
  - apply wp_ret. apply wp_bind. eapply wp_keeps; [apply (keeps_when pooled), (keeps_sys_ pooled)|].
    intros _ s8 [_ H8]. apply wp_ret. simpl. rewrite H8. auto.
  - eapply wp_mono; [apply corruption_pool|]. intros e' s8 He. apply wp_bind.
    eapply wp_keeps; [apply (keeps_when pooled), (keeps_sys_ pooled)|].
    intros _ s9 [_ H9]. apply wp_ret. simpl. by rewrite H9.
Qed.

Lemma store_init_spec version acl (s : StoreObject.t * W) : settled s.1 ->
  wp (Init version acl) (fun e s' => opened s.1 e s'.1 /\ (initStatus_ s.1 = Some E_OK -> s' = s)) s.
Proof.
  intros Hs. unfold Init. apply wp_bind, wp_get. destruct (initStatus_ s.1) as [e|] eqn:Ei.
  { destruct Hs as [Hs|Hs]; rewrite Hs in Ei; [done|]. simplify_eq. apply wp_ret. split; [|done].
    split; [reflexivity|]. repeat split; [done|]. by rewrite Hs. }
  eapply wp_mono with (Q := fun e s' => opened s.1 e s'.1); [|by split].
  apply wp_bind, wp_get, wp_bind, wp_get, wp_bind.
  eapply wp_mono; [apply create_pool_pool|]. intros [e created] s1 [H1 Hp]. apply wp_bind, wp_get. simpl in Hp. rewrite Hp.
  destruct (is_ok e) eqn:He; cbn [negb orb]; cycle 1.
  { apply is_ok_false in He. apply wp_bind. unfold wp, modify, ret. apply failed_opened; [done|done|].
    etrans; [apply H1|]. by split. }
  apply wp_bind. eapply (wp_keeps pooled); [keeping|]. intros _ s2 H2.
  apply wp_bind. eapply (wp_keeps pooled); [keeping|]. intros _ s3 H3.
  apply wp_bind. eapply (wp_keeps pooled); [keeping|]. intros _ s4 H4.
  apply wp_bind. apply (wp_keeps pooled); [case_match; [apply keeps_owner|keeping]|]. intros e5 s5 H5.
  assert (pooled s1.1 s5.1) as H15 by (etrans; [apply H2|]; etrans; [apply H3|]; by etrans).
  destruct (is_ok e5) eqn:He5; cbn [negb]; cycle 1.
  { apply is_ok_false in He5. apply wp_ret, failed_opened; [done|done|]. etrans; [apply H1|apply H15]. }
  apply is_ok_true in He5 as ->. apply wp_bind. eapply (wp_keeps pooled); [keeping|]. intros _ s6 H6.
  apply wp_bind. eapply (wp_keeps pooled); [apply keeps_inner|]. intros _ s7 H7.
  assert (pooled s1.1 s7.1) as [H17 Hpool] by (etrans; [apply H15|]; by etrans).
  eapply opened_stable; [apply H1|]. eapply opened_stable; [apply H17|].
  split; [reflexivity|]. repeat split. intros _. left. etrans; [apply Hpool|]. by rewrite Hp.
Qed.


End Specs.
End OpenInv.

(** ** Instances *)

Module SmallOpening.

(** No service is there. *)
#[export] Instance no_service : Service unit := {
  IsProxy _ := false; GetRdbService _ w := ((E_NOT_SUPPORT, false), w); BeforeOpen p w := ((1, p), w);
  VerifyPromiseInfo _ w := (1, w); DeleteStore _ w := (1, w); GetSilentAccessStores _ w := ((1, []), w);
  Disable _ w := w; Enable _ w := w
}.

(** Making a pool gives [answer]; nothing can be repaired. *)
Definition opening_with (answer : errno) : Opening unit := {|
  accessible _ _ := true; HasAccessAcl _ _ := false; SetFileGid _ w := w; SetLabel _ _ w := (true, w);
  PoolCreate c w := ((answer, c), w); PoolClose _ w := w; Repair _ w := (E_ERROR, w); DeleteDatabase _ w := w;
  RestoreKeyFile _ _ w := w; IsUseAsyncRestore _ _ _ _ := false; CheckReplicaIntegrity _ w := (E_ERROR, w);
  DeleteDirtyFiles _ w := w; StartAsyncRestore _ w := (E_ERROR, w); GetConn _ w := (E_OK, w);
  GenerateExchangeStrategy _ w := (NOT_HANDLE, w); IsInAsyncRestore _ w := (false, w); Restore _ w := (E_OK, w);
  Backup _ w := (E_OK, w); StartAsyncBackupIfNeed _ w := (E_OK, w); ProcessOpenCallback _ _ w := (E_OK, w);
  RecordOpen _ _ w := w; SetKnowledgeSchema _ w := w; AfterOpen _ w := w; RegisterMatrix _ _ w := w;
  RegisterDataChangeCallback _ w := w
|}.

Lemma opening_with_laws answer : @OpenInv.OpeningLaws unit (opening_with answer).
Proof. split. intros c w e c' w' [= _ <- _]. by destruct c. Qed.

End SmallOpening.

(** ** Deleting a database *)

Module OpenProps.
Import RdbStoreConfig StoreObject OpenInv.

(** The calls that remove the files of the database, or decide about it, with their answers: [ConnectionPool::Create],
    [Connection::CheckReplicaIntegrity], [SqliteUtils::DeleteDirtyFiles], [Connection::Repair] (which deletes the files itself
    once it has verified the replica) and [Connection::Delete]. *)
Inductive event := Pooled (e : errno) | Checked (e : errno) | Dirty (path : string) | Repaired (e : errno) | Deleted.

Section Logged.
Context {W : Type} `{OpeningLaws W} `{!Service W}.

(** The world with a log of these calls. *)
Abbreviation logged := (W * list event)%type.

Definition lift {A} (f : W -> A * W) (w : logged) : A * logged := let '(a, w1) := f w.1 in (a, (w1, w.2)).
Definition lift_ (f : W -> W) (w : logged) : logged := (f w.1, w.2).
Definition note {A} (ev : A -> event) (f : W -> A * W) (w : logged) : A * logged :=
  let '(a, w1) := f w.1 in (a, (w1, w.2 ++ [ev a])).
Definition note_ (ev : event) (f : W -> W) (w : logged) : logged := (f w.1, w.2 ++ [ev]).

#[export] Instance logged_service : Service logged := {
  IsProxy w := IsProxy w.1; GetRdbService p := lift (GetRdbService p); BeforeOpen p := lift (BeforeOpen p);
  VerifyPromiseInfo p := lift (VerifyPromiseInfo p); DeleteStore p := lift (DeleteStore p);
  GetSilentAccessStores p := lift (GetSilentAccessStores p); Disable p := lift_ (Disable p); Enable p := lift_ (Enable p)
}.

#[export] Instance logged_opening : Opening logged := {
  accessible p w := accessible p w.1; HasAccessAcl p w := HasAccessAcl p w.1; SetFileGid c := lift_ (SetFileGid c);
  SetLabel p l := lift (SetLabel p l); PoolCreate c := note (fun r => Pooled r.1) (PoolCreate c); PoolClose c := lift_ (PoolClose c);
  Repair c := note Repaired (Repair c); DeleteDatabase c := note_ Deleted (DeleteDatabase c);
  RestoreKeyFile p k := lift_ (RestoreKeyFile p k); IsUseAsyncRestore c p q w := IsUseAsyncRestore c p q w.1;
  CheckReplicaIntegrity c := note Checked (CheckReplicaIntegrity c); DeleteDirtyFiles p := note_ (Dirty p) (DeleteDirtyFiles p);
  StartAsyncRestore c := lift (StartAsyncRestore c); GetConn c := lift (GetConn c);
  GenerateExchangeStrategy c := lift (GenerateExchangeStrategy c); IsInAsyncRestore p := lift (IsInAsyncRestore p);
  Restore c := lift (Restore c); Backup c := lift (Backup c); StartAsyncBackupIfNeed c := lift (StartAsyncBackupIfNeed c);
  ProcessOpenCallback v c := lift (ProcessOpenCallback v c); RecordOpen c b := lift_ (RecordOpen c b);
  SetKnowledgeSchema c := lift_ (SetKnowledgeSchema c); AfterOpen p := lift_ (AfterOpen p);
  RegisterMatrix c p := lift_ (RegisterMatrix c p); RegisterDataChangeCallback c := lift_ (RegisterDataChangeCallback c)
}.

#[export] Instance logged_laws : OpeningLaws logged.
Proof.
  split. intros c w e c' w'. simpl. unfold note. destruct (PoolCreate c w.1) as [[e1 c1] w1] eqn:E. intros [= <- <- _].
  by eapply pool_create_const.
Qed.

Abbreviation op := (run (StoreObject.t * logged)).

(** An operation that logs [l] with [P l], and what identifies the store stays. *)
Definition logs {A} (P : A -> list event -> Prop) (m : op A) (s : StoreObject.t * logged) : Prop :=
  wp m (fun a s' => stable s.1 s'.1 /\ exists l, s'.2.2 = s.2.2 ++ l /\ P a l) s.

Lemma logs_bind {A B} (P : A -> list event -> Prop) (Q : B -> list event -> Prop) (m : op A) (k : A -> op B) s :
  logs P m s -> (forall a l s1, P a l -> stable s.1 s1.1 -> logs (fun b l' => Q b (l ++ l')) (k a) s1) -> logs Q (bind m k) s.
Proof.
  intros Hm Hk. apply wp_bind. eapply wp_mono; [exact Hm|]. intros a s1 (S1 & l & E1 & HP).
  eapply wp_mono; [by apply Hk|]. intros b s2 (S2 & l' & E2 & HQ). split; [by etrans|].
  exists (l ++ l'). split; [by rewrite E2, E1, app_assoc|done].
Qed.

Lemma logs_mono {A} (P Q : A -> list event -> Prop) (m : op A) s : (forall a l, P a l -> Q a l) -> logs P m s -> logs Q m s.
Proof. intros HPQ Hm. eapply wp_mono; [exact Hm|]. intros a s' (? & l & ? & ?). split; [done|]. exists l. auto. Qed.

Lemma logs_ret {A} (P : A -> list event -> Prop) (a : A) s : P a [] -> logs P (ret a) s.
Proof. intros HP. split; [done|]. exists []. by rewrite app_nil_r. Qed.

(** An operation that logs nothing. *)
Definition silent {A} (m : op A) : Prop := forall s, logs (fun _ l => l = []) m s.

Lemma silent_ret {A} (a : A) : silent (ret a).
Proof. intros s. by apply logs_ret. Qed.

Lemma silent_bind {A B} (m : op A) (k : A -> op B) : silent m -> (forall a, silent (k a)) -> silent (bind m k).
Proof. intros Hm Hk s. eapply logs_bind; [apply Hm|]. intros a l s1 -> _. apply Hk. Qed.

Lemma silent_first {A B} (P : B -> list event -> Prop) (m : op A) (k : A -> op B) s :
  silent m -> (forall a s1, stable s.1 s1.1 -> logs P (k a) s1) -> logs P (bind m k) s.
Proof. intros Hm Hk. eapply logs_bind; [apply Hm|]. intros a l s1 -> Hs. by apply Hk. Qed.

Lemma silent_get {A} (f : StoreObject.t * logged -> A) : silent (get f).
Proof. intros s. split; [done|]. exists []. by rewrite app_nil_r. Qed.

Lemma silent_sys {A} (f : W -> A * W) : silent (sys (lift f)).
Proof. intros s. unfold logs, wp, sys, lift. destruct (f s.2.1). split; [done|]. exists []. by rewrite app_nil_r. Qed.

Lemma silent_sys_ (f : W -> W) : silent (sys_ (lift_ f)).
Proof. intros s. split; [done|]. exists []. by rewrite app_nil_r. Qed.

Lemma silent_on_config {A} (f : Config -> W -> A * W) : silent (on_config (fun c => lift (f c))).
Proof. apply silent_bind; [apply silent_get|]. intros o. apply silent_sys. Qed.

Lemma silent_on_config_ (f : Config -> W -> W) : silent (on_config_ (fun c => lift_ (f c))).
Proof. apply silent_bind; [apply silent_get|]. intros o. apply silent_sys_. Qed.

Lemma silent_when b m : silent m -> silent (when b m).
Proof. destruct b; [done|]. intros _. apply silent_ret. Qed.

Lemma silent_modify f : (forall o, stable o (f o)) -> silent (modify f).
Proof. intros Hf s. split; [apply Hf|]. exists []. by rewrite app_nil_r. Qed.

Lemma silent_iter n : silent (modify (fun o => {o with config_ := SetIter n (config_ o) })).
Proof. apply silent_modify. intros o. split; [|done]. simpl. by destruct (config_ o). Qed.

Lemma silent_label : silent (on_config SecurityPolicy.SetSecurityLabel).
Proof.
  apply silent_bind; [apply silent_get|]. intros o s. unfold logs, wp, sys, SecurityPolicy.SetSecurityLabel.
  destruct (_ && _); [|split; [done|]; exists []; by rewrite app_nil_r]. cbn [SetLabel logged_opening]. unfold lift.
  destruct (SetLabel _ _ s.2.1). split; [done|]. exists []. by rewrite app_nil_r.
Qed.

Create HintDb silent.
#[local] Hint Resolve silent_ret silent_label silent_iter : silent.

Ltac quieting :=
  repeat first
    [ solve [auto with silent nocore]
    | apply silent_get | apply silent_sys | apply silent_sys_ | apply silent_on_config | apply silent_on_config_
    | apply silent_modify; intros ?; by split
    | apply silent_bind; [|intros ?]
    | apply silent_when
    | case_match ].

Lemma silent_owner version : silent (init_owner version).
Proof. unfold init_owner, SetSecurityLabel, ExchangeSlaverToMaster, SwitchOver. quieting. Qed.

Lemma silent_inner : silent InnerOpen.
Proof. unfold InnerOpen. quieting. Qed.

#[local] Hint Resolve silent_owner silent_inner : silent.

(** *** What the calls that are logged log *)

Lemma logs_pool s : logs (fun e l => l = [Pooled e]) create_pool s.
Proof.
  unfold logs, wp, create_pool, PoolCreate, logged_opening, note. destruct (PoolCreate (config_ s.1) s.2.1) as [[e c] w] eqn:E.
  split; [|by eexists]. split; [|done]. simpl. exact (pool_create_const _ _ _ _ _ E).
Qed.

Lemma logs_noted {A} (ev : A -> event) (f : Config -> W -> A * W) s : logs (fun a l => l = [ev a]) (on_config (fun c => note ev (f c))) s.
Proof. unfold logs, wp, on_config, bind, self, get, sys, note. simpl. destruct (f _ s.2.1). split; [done|]. by eexists. Qed.

Lemma logs_noted_ ev (f : W -> W) s : logs (fun _ l => l = [ev]) (sys_ (note_ ev f)) s.
Proof. split; [done|]. by eexists. Qed.

(** What [TryAsyncRepair] does. *)
Inductive async_part (path : string) : list event -> Prop :=
| async_unused : async_part path []
| replica_damaged e : e <> E_OK -> async_part path [Checked e]
| replica_intact e : async_part path [Checked E_OK; Dirty path; Pooled e].

(** What [HandleDataCorruption] does, if it comes to that. *)
Inductive corruption_part (allowed : bool) : list event -> Prop :=
| not_reached : corruption_part allowed []
| repaired e : corruption_part allowed [Repaired E_OK; Pooled e]
| rebuilt e e' : e <> E_OK -> allowed = true -> corruption_part allowed [Repaired e; Deleted; Pooled e']
| left_alone e : e <> E_OK -> allowed = false -> corruption_part allowed [Repaired e].

Lemma logs_get {A B} (P : B -> list event -> Prop) (f : StoreObject.t * logged -> A) (k : A -> op B) s : logs P (k (f s)) s -> logs P (bind (get f) k) s.
Proof. done. Qed.

Lemma logs_modify {B} (P : B -> list event -> Prop) f (k : unit -> op B) (s : StoreObject.t * logged) :
  stable s.1 (f s.1) -> logs P (k tt) (f s.1, s.2) -> logs P (bind (modify f) k) s.
Proof. intros Hs Hk. unfold logs in *. apply wp_bind, wp_modify. eapply wp_mono; [exact Hk|]. intros a s' (? & Hl). split; [by etrans|done]. Qed.

Lemma async_logs s : logs (fun _ l => async_part (path_ s.1) l) TryAsyncRepair s.
Proof.
  unfold TryAsyncRepair. apply logs_get, logs_get. destruct (negb _); [apply logs_ret; constructor|].
  eapply logs_bind; [apply (logs_noted Checked CheckReplicaIntegrity)|]. intros e l s1 -> _.
  destruct (is_ok e) eqn:He; cbn [negb]; [|apply logs_ret; constructor; by apply is_ok_false]. apply is_ok_true in He as ->.
  eapply logs_bind; [apply logs_noted_|]. intros _ l s2 -> _. eapply logs_bind; [apply logs_pool|]. intros e l s3 -> _.
  eapply (logs_mono (fun _ l => l = [])); [intros ? ? ->; constructor|].
  match goal with |- logs _ ?m _ => assert (silent m) as Hm by quieting end. apply Hm.
Qed.

Lemma corruption_logs errCode s : logs (fun _ l => corruption_part (allowRebuilt_ (config_ s.1)) l) (HandleDataCorruption errCode) s.
Proof.
  unfold HandleDataCorruption. eapply logs_bind; [apply (logs_noted Repaired Repair)|]. intros r l s1 -> [Hc _]. apply logs_get.
  assert (allowRebuilt_ (config_ s1.1) = allowRebuilt_ (config_ s.1)) as <- by by rewrite Hc.
  assert (forall rb s (P : list event -> Prop), (forall e, P [Pooled e]) -> logs (fun _ l => P l) (let! e := create_pool in
    let! _ := modify (fun o => {o with rebuild_ := rb; connectionPool_ := is_ok e }) in ret e) s) as Hcreate.
  { intros rb s2 P HP. eapply logs_bind; [apply logs_pool|]. intros e l s3 -> _.
    eapply (logs_mono (fun _ l => l = [])); [intros ? ? ->; apply HP|].
    match goal with |- logs _ ?m _ => assert (silent m) as Hm by quieting end. apply Hm. }
  destruct (is_ok r) eqn:Hr; [apply is_ok_true in Hr as ->; apply Hcreate; intros e; constructor|]. apply is_ok_false in Hr.
  destruct (allowRebuilt_ (config_ s1.1)) eqn:Ha.
  - eapply logs_bind; [apply (logs_get _ (fun s => s.1)), (logs_noted_ Deleted)|]. intros _ l s2 -> _. apply Hcreate. intros e. by constructor.
  - eapply (logs_mono (fun _ l => l = [])); [intros ? ? ->; by constructor|].
    match goal with |- logs _ ?m _ => assert (silent m) as Hm by quieting end. apply Hm.
Qed.

(** The calls of an opening: nothing for a store that is open; the pool alone, unless the database is damaged or its key is wrong
    and the store can be written. *)
Definition damaged (e : errno) : Prop := e = E_SQLITE_CORRUPT \/ e = E_INVALID_SECRET_KEY.

Inductive opening_log (o : StoreObject.t) : list event -> Prop :=
| was_open : initStatus_ o <> None -> opening_log o []
| only_pool e : initStatus_ o = None -> ~ damaged e \/ isReadOnly_ o = true -> opening_log o [Pooled e]
| handled e la lc : initStatus_ o = None -> damaged e -> isReadOnly_ o = false ->
    async_part (path_ o) la -> corruption_part (allowRebuilt_ (config_ o)) lc -> opening_log o (Pooled e :: la ++ lc).

Lemma pool_logs created s : initStatus_ s.1 = None -> logs (fun r l => opening_log s.1 l) (CreatePool created) s.
Proof.
  intros Hi. unfold CreatePool. eapply logs_bind; [apply logs_pool|]. intros e l s1 -> S1.
  apply logs_modify; [by split|]. match goal with |- logs _ _ (?x, _) => set (o2 := x) end.
  assert (connectionPool_ o2 = is_ok e) as Hpool by done.
  assert (stable s.1 o2) as (C1 & R1 & P1 & _) by (etrans; [exact S1|by split]). clearbody o2.
  apply logs_get. cbn [fst]. rewrite Hpool, R1. set (bad := _ || _). assert (bad = true <-> damaged e) as Hbad.
  { unfold bad, damaged. by rewrite orb_true_iff, !bool_decide_eq_true. }
  destruct (negb (is_ok e) && bad && negb (isReadOnly_ s.1)) eqn:E; cycle 1.
  { apply logs_ret. apply only_pool; [done|]. destruct (isReadOnly_ s.1); [by right|left]. intros Hd. rewrite (proj2 Hbad Hd) in E.
    destruct Hd as [-> | ->]; discriminate E. }
  apply andb_true_iff in E as [[_ Hd%Hbad]%andb_true_iff Hro%negb_true_iff].
  apply silent_first; [unfold InitSyncerParam; quieting|]. intros _ s2 S2. apply logs_get.
  apply silent_first; [quieting|]. intros [? service] s3 S3. apply silent_first; [quieting|]. intros _ s4 S4.
  apply silent_first; [quieting|]. intros _ s5 S5. apply silent_first; [quieting|]. intros _ s6 S6.
  assert (stable o2 s6.1) as (C6 & _ & P6 & _) by (do 4 (etrans; [eassumption|]); eassumption).
  eapply logs_bind; [apply async_logs|]. intros repaired la s7 Hla (C7 & _ & P7 & _). rewrite P6 in Hla. rewrite P1 in Hla.
  eapply (logs_bind (fun _ lc => corruption_part (allowRebuilt_ (config_ s.1)) lc)).
  { destruct repaired; [apply logs_ret; constructor|]. eapply logs_mono; [|apply corruption_logs]. intros a l.
    replace (allowRebuilt_ (config_ s7.1)) with (allowRebuilt_ (config_ s.1)); [done|]. by rewrite C7, C6, C1. }
  intros e' lc s8 Hlc _. eapply (logs_mono (fun _ l => l = [])).
  { intros ? ? ->. rewrite app_nil_r. by apply (handled s.1 e la lc). }
  match goal with |- logs _ ?m _ => assert (silent m) as Hm by quieting end. apply Hm.
Qed.

(** An operation that logs nothing, whatever it does to the store. *)
Definition still {A} (m : op A) : Prop := forall s, wp m (fun _ s' => s'.2.2 = s.2.2) s.

Lemma still_silent {A} (m : op A) : silent m -> still m.
Proof. intros Hm s. eapply wp_mono; [apply Hm|]. intros a s' (_ & l & E & ->). by rewrite E, app_nil_r. Qed.

Lemma still_bind {A B} (m : op A) (k : A -> op B) : still m -> (forall a, still (k a)) -> still (bind m k).
Proof. intros Hm Hk s. apply wp_bind. eapply wp_mono; [apply Hm|]. intros a s1 E. eapply wp_mono; [apply Hk|]. cbv beta. by intros _ s2 ->. Qed.

Lemma still_modify f : still (modify f).
Proof. by intros s. Qed.

Lemma init_logs version acl s : wp (Init version acl) (fun _ s' => exists l, s'.2.2 = s.2.2 ++ l /\ opening_log s.1 l) s.
Proof.
  unfold Init. apply wp_bind, wp_get. destruct (initStatus_ s.1) eqn:Hi.
  { apply wp_ret. exists []. split; [by rewrite app_nil_r|]. apply was_open. by rewrite Hi. }
  apply wp_bind, wp_get, wp_bind, wp_get, wp_bind. eapply wp_mono; [by apply pool_logs|]. intros [e created] s1 (_ & l & E & Hl).
  eapply (wp_mono _ (fun _ s' => s'.2.2 = s1.2.2)); [|intros ? s2 ->; by exists l].
  match goal with |- wp ?m _ _ => assert (still m) as Hm end; [|apply Hm]. apply still_bind; [apply still_silent; quieting|]. intros o.
  destruct (negb _ || _); [apply still_silent; quieting|].
  do 4 (apply still_bind; [apply still_silent; unfold InitSyncerParam; quieting|intros ?]).
  destruct (negb _); [apply still_silent; quieting|].
  do 2 (apply still_bind; [apply still_silent; quieting|intros ?]). apply still_bind; [apply still_modify|intros _; apply still_silent; quieting].
Qed.

(** Without the permission no log has a deletion. *)
Lemma opening_log_kept o l : opening_log o l -> allowRebuilt_ (config_ o) = false -> Deleted ∉ l.
Proof.
  intros Hl Hno. assert (forall lc, corruption_part (allowRebuilt_ (config_ o)) lc -> Deleted ∉ lc) as Hc.
  { intros lc []; try congruence; repeat (apply not_elem_of_cons; split; [done|]); apply not_elem_of_nil. }
  destruct Hl as [| |e la lc _ _ _ [] Hlc]; cbn [app]; repeat (apply not_elem_of_cons; split; [done|]); try apply not_elem_of_nil; by apply Hc.
Qed.

(** C37: whatever the pool, the repair, the replica and the callbacks answer, opening a store calls what removes the files of its
    database only as follows.  A store that is open calls nothing.  Otherwise the pool is made; only if that finds the database corrupt or
    its key wrong, and the store is not read only, more is done: [DeleteDirtyFiles] is called at most once, on the path of the store and directly
    after [CheckReplicaIntegrity] found the replica intact; [Repair] (which deletes the files itself, behind its own check of the
    replica) at most once behind that; and [Delete] only after that [Repair] failed and only if the configuration allows a rebuild.  So without
    the permission [Delete] is not called. *)
Theorem kept_without_permission version acl o (w : W) : exists e o' w' l, Init version acl (o, (w, [])) = Some (e, (o', (w', l))) /\
  opening_log o l /\ (allowRebuilt_ (config_ o) = false -> Deleted ∉ l).
Proof.
  destruct (wp_run _ _ _ (init_logs version acl (o, (w, [])))) as (e & [o' [w' l']] & E & l & El & Hl). cbn [fst snd app] in *. subst l'.
  exists e, o', w', l. split; [done|]. split; [done|]. by apply opening_log_kept.
Qed.

End Logged.

(** *** A corrupt database *)

Import SmallOpening.
#[local] Instance corrupt : Opening unit := opening_with E_SQLITE_CORRUPT.
#[local] Instance corrupt_laws : OpeningLaws unit := opening_with_laws E_SQLITE_CORRUPT.

Definition database (rebuild : bool) : StoreObject.t := new (SetAllowRebuild rebuild (of_path "/d/a.db")).

(** With the permission the corrupt database is deleted, without it is kept. *)
Lemma kept_without_permission_witness :
  (exists o' w', Init 1 false (database true, (tt, [])) =
     Some (E_SQLITE_CORRUPT, (o', (w', [Pooled E_SQLITE_CORRUPT; Repaired E_ERROR; Deleted; Pooled E_SQLITE_CORRUPT])))) /\
  exists e o' w' l, Init 1 false (database false, (tt, [])) = Some (e, (o', (w', l))) /\ Deleted ∉ l.
Proof.
  split; [do 2 eexists; vm_compute; reflexivity|].
  destruct (kept_without_permission 1 false (database false) tt) as (e & o' & w' & l & E & _ & Hk). exists e, o', w', l. split; [exact E|].
  apply Hk. reflexivity.
Defined.

End OpenProps.
