(* ===== verification/Manager.v ===== *)
(** * The stores of a process

    [Lru]: the cache of lru_bucket.h, which is not part of the repository, as a class with its
    laws.  [SilentProxy]: silent_proxy.cpp.  [RdbStoreManager]: rdb_store_manager.cpp.
    [ManagerInv]: the atomic steps that the calls of several threads consist of, and what they
    keep.  [SmallManager]: instances.  [ManagerProps]: the theorems.

    Stores are shared objects: [heap] has the ones that are alive, by a number that stands for the
    address, and [refs] the strong references to them, those of callers and those in local
    variables.  A weak pointer is a number; [lock] succeeds while the object is alive.  The test
    of the visitor's name ([CheckDBVisitor]), which only reports, is left out, and so are the
    executor and the collector of debug information. *)
From Stdlib Require Import ZArith Lia Ascii.
From stdpp Require Import base gmap gmultiset list strings pretty.
From coqutil Require Import Datatypes.RecordSetters.
Import OCamlLikeNotations.
From S2P Require Import Prelude CppStd Errno StringUtils Security StoreConfig StoreOpen.

Local Open Scope Z_scope.
Import Run.
#[local] Arguments constant {E} newValue _ /.

Module Lru.

Class LRUBucket (L : Type -> Type) := {
  create {V} : nat -> L V;
  Get {V} : string -> L V -> option V * L V;
  Set_ {V} : string -> V -> L V -> L V;
  Delete {V} : string -> L V -> L V;
  ResetCapacity {V} : nat -> L V -> L V
}.

(** A bucket holds some of the values that were put into it, the last one of each key; a value
    that was just put is there if the bucket has room for any; [ResetCapacity(0)] empties it. *)
Class LRULaws (L : Type -> Type) `{LRUBucket L} := {
  content {V} : L V -> gmap string V;
  capacity {V} : L V -> nat;
  content_create {V} n : content (create n : L V) = ∅;
  capacity_create {V} n : capacity (create n : L V) = n;
  content_get {V} k (l : L V) v l' : Get k l = (v, l') -> v = content l !! k /\ content l' = content l /\ capacity l' = capacity l;
  content_set {V} k v (l : L V) : (0 < capacity l)%nat -> content (Set_ k v l) !! k = Some v;
  content_set_other {V} k v (l : L V) : delete k (content (Set_ k v l)) ⊆ content l;
  capacity_set {V} k v (l : L V) : capacity (Set_ k v l) = capacity l;
  content_delete {V} k (l : L V) : content (Delete k l) = delete k (content l);
  capacity_delete {V} k (l : L V) : capacity (Delete k l) = capacity l;
  content_reset {V} n (l : L V) : content (ResetCapacity n l) ⊆ content l;
  content_reset_0 {V} (l : L V) : content (ResetCapacity 0 l) = ∅;
  capacity_reset {V} n (l : L V) : capacity (ResetCapacity n l) = n
}.

End Lru.

(** The file of silent_proxy.cpp through the JSON library: [None] if it cannot be opened or
    parsed, else the store names per bundle in the order of the file. *)
Class ProxyFile (W : Type) := { silentProxys : W -> option (list (string * list string)) }.

Module RdbStoreManager.
Import Lru RdbStoreConfig.

Definition BUCKET_MAX_SIZE : nat := 4.
Definition PROMISEINFO_CACHE_SIZE : nat := 32.

Record t (L : Type -> Type) := {
  storeCache_ : gmap string nat;
  configCache_ : L SyncerParam.t;
  promiseInfoCache_ : L bool;
  silentCache_ : L (gset string);
  heap : gmap nat StoreObject.t;
  refs : gmultiset nat;
  next : nat
}.
Arguments storeCache_ {L}. Arguments configCache_ {L}. Arguments promiseInfoCache_ {L}. Arguments silentCache_ {L}.
Arguments heap {L}. Arguments refs {L}. Arguments next {L}.

(** Assignments to the members that have to do with stores, and to the caches of parameters. *)
Definition set_stores {L : Type -> Type} (c : gmap string nat) (h : gmap nat StoreObject.t) (r : gmultiset nat) (n : nat) (m : t L) : t L :=
  {| storeCache_ := c; configCache_ := configCache_ m; promiseInfoCache_ := promiseInfoCache_ m;
     silentCache_ := silentCache_ m; heap := h; refs := r; next := n |}.
Definition set_refs {L : Type -> Type} (r : gmultiset nat) (m : t L) : t L := set_stores (storeCache_ m) (heap m) r (next m) m.
Definition set_heap {L : Type -> Type} (h : gmap nat StoreObject.t) (m : t L) : t L := set_stores (storeCache_ m) h (refs m) (next m) m.
Definition set_cache {L : Type -> Type} (c : gmap string nat) (m : t L) : t L := set_stores c (heap m) (refs m) (next m) m.
Definition set_params {L : Type -> Type} (config : L SyncerParam.t) (promise : L bool) (silent : L (gset string)) (m : t L) : t L :=
  {| storeCache_ := storeCache_ m; configCache_ := config; promiseInfoCache_ := promise; silentCache_ := silent;
     heap := heap m; refs := refs m; next := next m |}.

Section Ops.
Context {L : Type -> Type} `{LRUBucket L} {W : Type} `{Service W} `{Opening W} `{ProxyFile W}.
Abbreviation op := (run (t L * W)).

Definition new : t L :=
  {| storeCache_ := ∅; configCache_ := create BUCKET_MAX_SIZE; promiseInfoCache_ := create PROMISEINFO_CACHE_SIZE;
     silentCache_ := create BUCKET_MAX_SIZE; heap := ∅; refs := ∅; next := 0 |}.

(** ** Pointers *)

Definition make_shared (config : Config) : op nat :=
  let! m := self in
  let! _ := modify (fun m => set_stores (storeCache_ m) (<[next m := StoreObject.new config]> (heap m))
                               (refs m ⊎ {[+ next m +]}) (S (next m)) m) in
  ret (next m).

(** [weak_ptr::lock]. *)
Definition lock (id : nat) : op (option nat) :=
  let! m := self in
  if bool_decide (is_Some (heap m !! id)) then
    let! _ := modify (fun m => set_refs (refs m ⊎ {[+ id +]}) m) in ret (Some id)
  else ret None.

(** A strong reference goes; the object goes with the last one. *)
Definition drop (id : nat) : op unit :=
  modify (fun m => let refs' := refs m ∖ {[+ id +]} in
    set_refs refs' (set_heap (if bool_decide (id ∈ refs') then heap m else delete id (heap m)) m)).

(** A member function of the object; [None] for a dangling pointer. *)
Definition on {A} (id : nat) (f : run (StoreObject.t * W) A) : op A := fun s =>
  match heap s.1 !! id with
  | None => None
  | Some o =>
      match f (o, s.2) with
      | None => None
      | Some (a, (o', w')) => Some (a, (set_heap (<[id := o']> (heap s.1)) s.1, w'))
      end
  end.

(** A member of the object. *)
Definition peek {A} (id : nat) (f : StoreObject.t -> A) : op A := fun s =>
  match heap s.1 !! id with None => None | Some o => Some (f o, s) end.

Definition GetConfig (id : nat) : op Config := peek id StoreObject.config_.

(** ** Caches *)

Definition config_get (path : string) : op (option SyncerParam.t) := fun s =>
  let '(v, l) := Get path (configCache_ s.1) in Some (v, (set_params l (promiseInfoCache_ s.1) (silentCache_ s.1) s.1, s.2)).
Definition config_set (path : string) (p : SyncerParam.t) : op unit :=
  modify (fun m => set_params (Set_ path p (configCache_ m)) (promiseInfoCache_ m) (silentCache_ m) m).
Definition promise_get (path : string) : op (option bool) := fun s =>
  let '(v, l) := Get path (promiseInfoCache_ s.1) in Some (v, (set_params (configCache_ s.1) l (silentCache_ s.1) s.1, s.2)).
Definition promise_set (path : string) (b : bool) : op unit :=
  modify (fun m => set_params (configCache_ m) (Set_ path b (promiseInfoCache_ m)) (silentCache_ m) m).
Definition silent_get (key : string) : op (option (gset string)) := fun s =>
  let '(v, l) := Get key (silentCache_ s.1) in Some (v, (set_params (configCache_ s.1) (promiseInfoCache_ s.1) l s.1, s.2)).
Definition silent_set (key : string) (b : gset string) : op unit :=
  modify (fun m => set_params (configCache_ m) (promiseInfoCache_ m) (Set_ key b (silentCache_ m)) m).

(** ** Silent access (silent_proxy.cpp) *)

(** The answer from a set of store names. *)
Definition supports (names : gset string) (storeName : string) : bool := bool_decide (SqliteUtils.RemoveSuffix storeName ∈ names).

(** The names of the first entry of the bundle. *)
Definition names_of (bundleName : string) (proxys : list (string * list string)) : gset string :=
  match list_find (fun p => p.1 = bundleName) proxys with Some (_, p) => list_to_set p.2 | None => ∅ end.

(** [IsSupportSilentFromProxy]; the second look under the lock finds what the first one did not
    only when another thread was faster. *)
Definition IsSupportSilentFromProxy (bundleName storeName : string) : op (errno * bool) :=
  let key := bundleName +:+ "proxy" in
  let! cached := silent_get key in
  match cached with
  | Some names => ret (E_OK, supports names storeName)
  | None =>
      let! cached := silent_get key in
      match cached with
      | Some names => ret (E_OK, supports names storeName)
      | None =>
          let! file := get (fun s => silentProxys s.2) in
          match file with
          | None => ret (E_ERROR, false)
          | Some proxys =>
              let names := names_of bundleName proxys in
              let! _ := silent_set key names in
              ret (E_OK, supports names storeName)
          end
      end
  end.

Definition IsSupportSilentFromService (bundleName storeName : string) : op (errno * bool) :=
  let key := bundleName +:+ "service" in
  let! cached := silent_get key in
  match cached with
  | Some names => ret (E_OK, supports names storeName)
  | None =>
      let! cached := silent_get key in
      match cached with
      | Some names => ret (E_OK, supports names storeName)
      | None =>
          let param := {SyncerParam.new with SyncerParam.bundleName_ := bundleName; SyncerParam.storeName_ := storeName } in
          let! (err, service) := sys (GetRdbService param) in
          if bool_decide (err = E_NOT_SUPPORT) then let! _ := silent_set key ∅ in ret (err, false)
          else if negb (is_ok err) || negb service then ret (err, false)
          else
            let! (errCode, stores) := sys (GetSilentAccessStores param) in
            if errCode =? RDB_PERMISSION_DENIED then let! _ := silent_set key ∅ in ret (E_ERROR, false)
            else if negb (errCode =? RDB_OK) then ret (E_ERROR, false)
            else
              let names := list_to_set stores in
              let! _ := silent_set key names in
              ret (E_OK, supports names storeName)
      end
  end.

Definition IsSupportSilent (bundleName storeName : string) : op (errno * bool) :=
  let! (err, flag) := IsSupportSilentFromProxy bundleName storeName in
  if is_ok err && flag then ret (err, flag) else IsSupportSilentFromService bundleName storeName.

(** ** Configurations *)

Definition GetSyncParam (config : Config) : SyncerParam.t := SyncerParam.fill config SyncerParam.new.

(** [GetParamFromService]: the code and what the service made of the parameter. *)
Definition GetParamFromService (param : SyncerParam.t) : op (errno * SyncerParam.t) :=
  let! (err, service) := sys (GetRdbService param) in
  if bool_decide (err = E_NOT_SUPPORT) then ret (E_ERROR, param)
  else if negb (is_ok err) || negb service then ret (E_ERROR, param)
  else
    let! (status, param) := sys (BeforeOpen param) in
    ret (if status =? RDB_OK then E_OK else E_ERROR, param).

Definition IsPermitted (param : SyncerParam.t) (path : string) : op bool :=
  let! cached := promise_get path in
  match cached with
  | Some _ => ret true
  | None =>
      let! (err, service) := sys (GetRdbService param) in
      if bool_decide (err = E_NOT_SUPPORT) then ret false
      else if negb (is_ok err) || negb service then ret false
      else
        let! status := sys (VerifyPromiseInfo param) in
        if status =? RDB_OK then let! _ := promise_set path true in ret true else ret false
  end.

Definition CheckConfig (config : Config) (path : string) : op errno :=
  let! refused := if role_ config =? VISITOR_WRITE then
      let! permitted := IsPermitted (GetSyncParam config) path in ret (negb permitted) else ret false in
  if refused then ret E_NOT_SUPPORT
  else if IsMemoryRdb config &&
    (IsEncrypt config || isVector_ config || negb (role_ config =? OWNER) || negb (haMode_ config =? HA_SINGLE) ||
     isSearchable_ config || readOnly_ config || negb (Str.empty (dataGroupId_ config)) || negb (Str.empty (customDir_ config)))
  then ret E_NOT_SUPPORT
  else ret E_OK.

(** [IsConfigInvalidChanged]: the answer and the configuration, whose encryption is that of the
    store as it was opened before. *)
Definition IsConfigInvalidChanged (path : string) (config : Config) : op (bool * Config) :=
  if IsMemoryRdb config then ret (false, config)
  else if Str.empty (bundleName_ config) then ret (false, config)
  else
    let lastParam := GetSyncParam config in
    let! cached := config_get path in
    let! found := match cached with
      | Some p => ret (Some p)
      | None => let! (err, p) := GetParamFromService lastParam in ret (if is_ok err then Some p else None)
      end in
    match found with
    | None => ret (false, config)
    | Some lastParam =>
        let! _ := config_set path lastParam in
        if negb (bool_decide (SyncerParam.customDir_ lastParam = customDir_ config)) ||
           negb (bool_decide (SyncerParam.hapName_ lastParam = moduleName_ config)) ||
           negb (SyncerParam.area_ lastParam =? area_ config)
        then ret (false, config)
        else if negb (Bool.eqb (SyncerParam.isEncrypt_ lastParam) (IsEncrypt config))
        then ret (false, SetAllowRebuild false (SetEncryptStatus (SyncerParam.isEncrypt_ lastParam) config))
        else ret (false, config)
    end.

(** ** Stores *)

(** [GetStoreFromCache], which runs under the mutex: the store and [errCode]. *)
Definition GetStoreFromCache (path : string) (config : Config) (errCode : errno) : op (option nat * errno) :=
  let fresh :=
    let! id := make_shared config in
    let! _ := modify (fun m => set_cache (<[path := id]> (storeCache_ m)) m) in
    ret id in
  let! m := self in
  let! locked := match storeCache_ m !! path with None => ret None | Some id => lock id end in
  match locked with
  | None => let! id := fresh in ret (Some id, errCode)
  | Some id =>
      let! old := GetConfig id in
      if negb (eqb old config) then
        if IsMemoryRdb old || IsMemoryRdb config || (INVALID_CONFIG_CHANGE_NOT_ALLOWED <=? version_ config) ||
           (INVALID_CONFIG_CHANGE_NOT_ALLOWED <=? version_ old)
        then let! _ := drop id in ret (None, E_CONFIG_INVALID_CHANGE)
        else
          let! id' := fresh in
          let! _ := drop id in
          ret (Some id', errCode)
      else ret (Some id, errCode)
  end.

(** [isNeedAcl] of [GetRdbStore]. *)
Definition NeedAcl (config : Config) : op bool :=
  let! proxy := get (fun s => IsProxy s.2) in
  if negb (proxy && (role_ config =? OWNER) && negb (isLocalOnly_ config)) then ret false
  else if isSearchable_ config || bool_decide (GetSilentAccessibleStatus config = SUPPORT) then ret true
  else if bool_decide (GetSilentAccessibleStatus config = UNKNOWN)
  then let! (_, flag) := IsSupportSilent (bundleName_ config) (name_ config) in ret flag
  else ret false.

(** The end of [GetRdbStore] for a store that was opened: it is remembered how. *)
Definition remember (path : string) (id : nat) : op unit :=
  let! c := GetConfig id in
  if IsMemoryRdb c then ret tt else config_set path (GetSyncParam c).

(** [GetRdbStore]: the store, [nullptr] for [None], and [errCode]. *)
Definition GetRdbStore (config : Config) (version : Z) : op (option nat * errno) :=
  let '(errCode, path) := DbPath.GetDbPath config in
  if negb (is_ok errCode) then ret (None, errCode)
  else
    let! errCode := CheckConfig config path in
    if negb (is_ok errCode) then ret (None, errCode)
    else
      let! (invalid, modifyConfig) :=
        if role_ config =? OWNER then IsConfigInvalidChanged path config else ret (false, config) in
      if invalid then ret (None, E_CONFIG_INVALID_CHANGE)
      else
        let! (store, errCode) := GetStoreFromCache path modifyConfig errCode in
        match store with
        | None => ret (None, errCode)
        | Some id =>
            let! acl := NeedAcl config in
            let! errCode := on id (StoreObject.Init version acl) in
            if is_ok errCode then let! _ := remember path id in ret (Some id, errCode)
            else if Bool.eqb (IsEncrypt modifyConfig) (IsEncrypt config)
            then let! _ := drop id in ret (None, errCode)
            else
              let! _ := drop id in
              let! (store, errCode) := GetStoreFromCache path config errCode in
              match store with
              | None => ret (None, errCode)
              | Some id =>
                  let! errCode := on id (StoreObject.Init version acl) in
                  if is_ok errCode then let! _ := remember path id in ret (Some id, errCode)
                  else let! _ := drop id in ret (None, errCode)
              end
        end.

Definition GetRdb (config : Config) : op (option nat) :=
  let '(errCode, path) := DbPath.GetDbPath config in
  if negb (is_ok errCode) then ret None
  else
    let! m := self in
    match storeCache_ m !! path with
    | None => ret None
    | Some id =>
        let! locked := lock id in
        match locked with
        | None => ret None
        | Some id =>
            let! status := peek id StoreObject.initStatus_ in
            if bool_decide (status = Some E_OK) then ret (Some id) else let! _ := drop id in ret None
        end
    end.

Definition Clear : op unit :=
  modify (fun m => set_cache ∅ (set_params
    (ResetCapacity BUCKET_MAX_SIZE (ResetCapacity 0 (configCache_ m)))
    (ResetCapacity PROMISEINFO_CACHE_SIZE (ResetCapacity 0 (promiseInfoCache_ m)))
    (ResetCapacity BUCKET_MAX_SIZE (ResetCapacity 0 (silentCache_ m))) m)).

Definition Remove (path : string) (shouldClose : bool) : op bool :=
  let! _ := modify (fun m => set_params (Delete path (configCache_ m)) (promiseInfoCache_ m) (silentCache_ m) m) in
  let! m := self in
  match storeCache_ m !! path with
  | None => ret false
  | Some id =>
      let! locked := lock id in
      let! _ := match locked with
        | Some id => let! _ := if shouldClose then on id StoreObject.Close else ret tt in drop id
        | None => ret tt
        end in
      let! _ := modify (fun m => set_cache (delete path (storeCache_ m)) m) in
      ret true
  end.

(** [Delete]; the loop of [Split] ends after one round more than there are characters. *)
Definition Delete (config : Config) (shouldClose : bool) : op bool :=
  let path := path_ config in
  match StringUtils.Split (S (String.length path)) path "/" with
  | None => undefined
  | Some tokens =>
      match last tokens with
      | None => Remove path shouldClose
      | Some name =>
          let param := {SyncerParam.new with SyncerParam.bundleName_ := bundleName_ config; SyncerParam.storeName_ := name;
            SyncerParam.subUser_ := subUser_ config; SyncerParam.area_ := area_ config; SyncerParam.hapName_ := moduleName_ config;
            SyncerParam.customDir_ := customDir_ config; SyncerParam.isLocalOnly_ := isLocalOnly_ config } in
          let! (err, service) := sys (GetRdbService param) in
          if negb (is_ok err) || negb service then Remove path shouldClose
          else let! _ := sys (DeleteStore param) in Remove path shouldClose
      end
  end.

End Ops.
End RdbStoreManager.

(** ** Steps and invariants *)

Module ManagerInv.
Import Lru RdbStoreConfig RdbStoreManager OpenInv.

Section Steps.
Context {L : Type -> Type} `{LRULaws L} {W : Type} `{Service W} `{OpeningLaws W} `{ProxyFile W}.
Abbreviation state := (t L * W)%type.

(** Objects are alive exactly while they are referred to; an entry of the cache whose object is
    alive is under the path of the object. *)
Record wf (m : t L) : Prop := {
  wf_live id : is_Some (heap m !! id) <-> id ∈ refs m;
  wf_next id : is_Some (heap m !! id) -> (id < next m)%nat;
  wf_cached p id : storeCache_ m !! p = Some id -> (id < next m)%nat;
  wf_path p id o : storeCache_ m !! p = Some id -> heap m !! id = Some o ->
    DbPath.GetDbPath (StoreObject.config_ o) = (E_OK, p);
  wf_settled id o : heap m !! id = Some o -> settled o
}.

(** Only the caches of parameters changed. *)
Definition quiet (m m' : t L) : Prop :=
  storeCache_ m' = storeCache_ m /\ heap m' = heap m /\ refs m' = refs m /\ next m' = next m /\
  capacity (configCache_ m') = capacity (configCache_ m).

#[export] Instance quiet_preorder : PreOrder quiet.
Proof. unfold quiet. split; [by intros m|]. intros m1 m2 m3 H12 H23. destruct_and!. repeat split; congruence. Qed.

Lemma quiet_wf m m' : quiet m m' -> wf m -> wf m'.
Proof. intros (Hs & Hh & Hr & Hn & _) []. split; rewrite ?Hs, ?Hh, ?Hr, ?Hn; auto. Qed.

(** The outcomes of [GetStoreFromCache]. *)
Definition forbids (old config : Config) : Prop :=
  IsMemoryRdb old = true \/ IsMemoryRdb config = true \/ INVALID_CONFIG_CHANGE_NOT_ALLOWED <= version_ config \/
  INVALID_CONFIG_CHANGE_NOT_ALLOWED <= version_ old.

Definition with_new (path : string) (config : Config) (m : t L) : t L :=
  set_stores (<[path := next m]> (storeCache_ m)) (<[next m := StoreObject.new config]> (heap m))
    (refs m ⊎ {[+ next m +]}) (S (next m)) m.

Inductive fetched (path : string) (config : Config) (m : t L) : option nat -> t L -> Prop :=
| fetched_shared id o : storeCache_ m !! path = Some id -> heap m !! id = Some o -> eqb (StoreObject.config_ o) config = true ->
    fetched path config m (Some id) (set_refs (refs m ⊎ {[+ id +]}) m)
| fetched_refused id o : storeCache_ m !! path = Some id -> heap m !! id = Some o ->
    eqb (StoreObject.config_ o) config = false -> forbids (StoreObject.config_ o) config -> fetched path config m None m
| fetched_new :
    (forall id o, storeCache_ m !! path = Some id -> heap m !! id = Some o ->
       eqb (StoreObject.config_ o) config = false /\ ~ forbids (StoreObject.config_ o) config) ->
    fetched path config m (Some (next m)) (with_new path config m).

Lemma refs_back (X : gmultiset nat) i : (X ⊎ {[+ i +]}) ∖ {[+ i +]} = X.
Proof. multiset_solver. Qed.

Lemma refs_swap (X : gmultiset nat) i j : (X ⊎ {[+ i +]} ⊎ {[+ j +]}) ∖ {[+ i +]} = X ⊎ {[+ j +]}.
Proof. multiset_solver. Qed.

Lemma forbids_spec old config :
  IsMemoryRdb old || IsMemoryRdb config || (INVALID_CONFIG_CHANGE_NOT_ALLOWED <=? version_ config) ||
    (INVALID_CONFIG_CHANGE_NOT_ALLOWED <=? version_ old) = true <-> forbids old config.
Proof. unfold forbids. rewrite !orb_true_iff, !Z.leb_le. tauto. Qed.

Lemma wp_peek {A} id (f : StoreObject.t -> A) (Q : A -> state -> Prop) s o : heap s.1 !! id = Some o -> Q (f o) s -> wp (peek id f) Q s.
Proof. intros Ho HQ. unfold wp, peek. by rewrite Ho. Qed.

Lemma wp_fresh path config (Q : nat -> state -> Prop) s : Q (next s.1) (with_new path config s.1, s.2) ->
  wp (let! id := make_shared config in
      let! _ := modify (fun m => set_cache (<[path := id]> (storeCache_ m)) m) in ret id) Q s.
Proof. done. Qed.

Lemma wp_lock id (Q : option nat -> state -> Prop) s :
  match heap s.1 !! id with
  | Some _ => Q (Some id) (set_refs (refs s.1 ⊎ {[+ id +]}) s.1, s.2)
  | None => Q None s
  end -> wp (lock id) Q s.
Proof.
  intros HQ. unfold lock. apply wp_bind, wp_get. case_bool_decide as Hl.
  - destruct Hl as [o Ho]. by rewrite Ho in HQ.
  - destruct (heap s.1 !! id); [destruct Hl; by eexists|done].
Qed.

Definition dropped (id : nat) (m : t L) : t L :=
  set_refs (refs m ∖ {[+ id +]}) (set_heap (if bool_decide (id ∈ refs m ∖ {[+ id +]}) then heap m else delete id (heap m)) m).

Lemma wp_drop id (Q : unit -> state -> Prop) s : Q tt (dropped id s.1, s.2) -> wp (drop id) Q s.
Proof. done. Qed.

(** Locking and dropping again changes nothing while there is another reference. *)
Lemma drop_locked id m : id ∈ refs m -> dropped id (set_refs (refs m ⊎ {[+ id +]}) m) = m.
Proof.
  intros Hid. unfold dropped. change (refs (set_refs ?r ?m)) with r. rewrite refs_back, bool_decide_true by done. by destruct m.
Qed.

Lemma drop_replaced path config id m : id ∈ refs m ->
  dropped id (with_new path config (set_refs (refs m ⊎ {[+ id +]}) m)) = with_new path config m.
Proof.
  intros Hid. unfold dropped, with_new. change (refs (set_stores ?c ?h ?r ?n ?m)) with r.
  change (refs (set_refs ?r ?m)) with r. change (next (set_refs ?r ?m)) with (next m).
  rewrite refs_swap, bool_decide_true by set_solver. done.
Qed.

Lemma fetch_spec path config e (s : state) : wf s.1 ->
  wp (GetStoreFromCache path config e) (fun r s' => s'.2 = s.2 /\ fetched path config s.1 r.1 s'.1 /\
    r.2 = (if r.1 is Some _ then e else E_CONFIG_INVALID_CHANGE)) s.
Proof.
  destruct s as [m w]. cbn [fst snd]. intros Hwf. unfold GetStoreFromCache. apply wp_bind, wp_get. cbn [fst].
  destruct (storeCache_ m !! path) as [id|] eqn:Ec; cycle 1.
  { apply wp_bind, wp_ret, wp_bind, wp_fresh, wp_ret. split; [done|]. split; [|done]. apply fetched_new.
    intros id' o' Hc. by rewrite Ec in Hc. }
  apply wp_bind, wp_lock. cbn [fst snd]. destruct (heap m !! id) as [o|] eqn:Ho; cycle 1.
  { apply wp_bind, wp_fresh, wp_ret. split; [done|]. split; [|done]. apply fetched_new. intros id' o' Hc Ho'.
    rewrite Ec in Hc. injection Hc as <-. by rewrite Ho in Ho'. }
  assert (id ∈ refs m) as Hin by (apply Hwf; by eexists).
  apply wp_bind. eapply wp_peek; [exact Ho|]. destruct (eqb (StoreObject.config_ o) config) eqn:Ee; cbn [negb].
  { apply wp_ret. split; [done|]. split; [|done]. by eapply fetched_shared. }
  case_match eqn:Ef.
  - apply forbids_spec in Ef. apply wp_bind, wp_drop, wp_ret. cbn [fst snd]. rewrite drop_locked by done.
    split; [done|]. split; [|done]. by eapply fetched_refused.
  - apply wp_bind, wp_fresh. apply wp_bind, wp_drop. apply wp_ret. cbn [fst snd]. rewrite drop_replaced by done.
    split; [done|]. split; [|done]. change (fetched path config m (Some (next m)) (with_new path config m)). apply fetched_new. intros id' o' Hc Ho'. rewrite Ec in Hc. injection Hc as <-.
    rewrite Ho in Ho'. injection Ho' as <-. split; [done|]. by rewrite <- forbids_spec, Ef.
Qed.

(** *** The invariant *)

Lemma new_wf : wf new.
Proof.
  split; simpl; [|by intros ? [? ?]|done..]. intros id. rewrite lookup_empty, is_Some_alt. split; [done|].
  by intros ?%gmultiset_elem_of_empty.
Qed.

Lemma lock_wf id m : is_Some (heap m !! id) -> wf m -> wf (set_refs (refs m ⊎ {[+ id +]}) m).
Proof.
  intros Hid []. split; simpl; auto. intros id'. rewrite gmultiset_elem_of_disj_union, gmultiset_elem_of_singleton, <- wf_live0.
  split; [by left|]. by intros [Hx| ->].
Qed.

Lemma drop_wf id m : id ∈ refs m -> wf m -> wf (dropped id m).
Proof.
  intros Hid []. split; simpl; auto.
  - intros id'. case_bool_decide as Hr.
    + rewrite wf_live0. destruct (decide (id' = id)) as [->|]; [done|]. multiset_solver.
    + destruct (decide (id' = id)) as [->|].
      * rewrite lookup_delete_eq. split; [by intros []|done].
      * rewrite lookup_delete_ne, wf_live0 by done. multiset_solver.
  - intros id' Hi. case_bool_decide; [auto|]. apply wf_next0. destruct Hi as [o [_ Ho]%lookup_delete_Some]. by eexists.
  - intros p id' o Hc Ho. case_bool_decide; [by eapply wf_path0|]. apply lookup_delete_Some in Ho as [_ Ho]. by eapply wf_path0.
  - intros id' o Ho. case_bool_decide; [by eapply wf_settled0|]. apply lookup_delete_Some in Ho as [_ Ho]. by eapply wf_settled0.
Qed.

Lemma update_wf id o o' m : heap m !! id = Some o -> DbPath.GetDbPath (StoreObject.config_ o') = DbPath.GetDbPath (StoreObject.config_ o) ->
  settled o' -> wf m -> wf (set_heap (<[id := o']> (heap m)) m).
Proof.
  intros Ho Hp Hs []. assert (forall id', is_Some (<[id := o']> (heap m) !! id') <-> is_Some (heap m !! id')) as Hdom.
  { intros id'. destruct (decide (id' = id)) as [->|]; [|by rewrite lookup_insert_ne].
    rewrite lookup_insert_eq, Ho. by split; eexists. }
  split; simpl; auto.
  - intros id'. by rewrite Hdom.
  - intros id'. rewrite Hdom. auto.
  - intros p id' o1 Hc [[-> ->]|[_ Ho1]]%lookup_insert_Some; [|by eapply wf_path0]. rewrite Hp. by eapply wf_path0.
  - intros id' o1 [[-> ->]|[_ Ho1]]%lookup_insert_Some; [done|by eapply wf_settled0].
Qed.

Lemma fetched_wf path config m r m' : DbPath.GetDbPath config = (E_OK, path) -> wf m -> fetched path config m r m' -> wf m'.
Proof.
  intros Hp Hwf [id o Hc Ho He|id o Hc Ho He Hf|Hnew]; [|done|].
  { apply lock_wf; [by eexists|done]. }
  destruct Hwf. assert (forall id o, heap m !! id = Some o -> id <> next m) as Hne.
  { intros id o Ho ->. assert (next m < next m)%nat; [|lia]. apply wf_next0. by eexists. }
  split; simpl.
  - intros id. rewrite gmultiset_elem_of_disj_union, gmultiset_elem_of_singleton, <- wf_live0.
    destruct (decide (id = next m)) as [->|]; [rewrite lookup_insert_eq; naive_solver|].
    rewrite lookup_insert_ne by done. naive_solver.
  - intros id [o Ho]. apply lookup_insert_Some in Ho as [[<- _]|[_ Ho]]; [lia|].
    assert (id < next m)%nat; [|lia]. apply wf_next0. by eexists.
  - intros p id [[_ <-]|[_ Hc]]%lookup_insert_Some; [lia|]. apply wf_cached0 in Hc. lia.
  - intros p id o [[<- <-]|[Hne' Hc]]%lookup_insert_Some Ho.
    + rewrite lookup_insert_eq in Ho. by simplify_eq.
    + apply wf_cached0 in Hc as Hlt. rewrite lookup_insert_ne in Ho by lia. by eapply wf_path0.
  - intros id o [[<- <-]|[_ Ho]]%lookup_insert_Some; [by left|by eapply wf_settled0].
Qed.

(** *** Operations that touch no store *)

Lemma quiet_config_get path : keeps quiet (config_get path : run state _).
Proof.
  intros s. unfold wp, config_get. destruct (Get path (configCache_ s.1)) as [v l] eqn:E.
  apply content_get in E as (_ & _ & Hc). by repeat split.
Qed.

Lemma quiet_config_set path p : keeps quiet (config_set path p : run state _).
Proof. apply keeps_modify. intros m. repeat split. simpl. apply capacity_set. Qed.

Lemma quiet_promise_get path : keeps quiet (promise_get path : run state _).
Proof. intros s. unfold wp, promise_get. destruct (Get path (promiseInfoCache_ s.1)). by repeat split. Qed.

Lemma quiet_promise_set path b : keeps quiet (promise_set path b : run state _).
Proof. apply keeps_modify. intros m. by repeat split. Qed.

Lemma quiet_silent_get key : keeps quiet (silent_get key : run state _).
Proof. intros s. unfold wp, silent_get. destruct (Get key (silentCache_ s.1)). by repeat split. Qed.

Lemma quiet_silent_set key b : keeps quiet (silent_set key b : run state _).
Proof. apply keeps_modify. intros m. by repeat split. Qed.

#[local] Hint Resolve quiet_config_get quiet_config_set quiet_promise_get quiet_promise_set quiet_silent_get quiet_silent_set : keeps.

Lemma quiet_check config path : keeps quiet (CheckConfig config path : run state _).
Proof. unfold CheckConfig, IsPermitted. keeping. Qed.

Lemma quiet_changed path config : keeps quiet (IsConfigInvalidChanged path config : run state _).
Proof. unfold IsConfigInvalidChanged, GetParamFromService. keeping. Qed.

Lemma quiet_acl config : keeps quiet (NeedAcl config : run state _).
Proof. unfold NeedAcl, IsSupportSilent, IsSupportSilentFromProxy, IsSupportSilentFromService. keeping. Qed.

(** [IsConfigInvalidChanged] never says so, and what it changes does not identify a store. *)
Definition same_identity (c c' : Config) : Prop :=
  ConfigProps.identity c' = ConfigProps.identity c /\ DbPath.GetDbPath c' = DbPath.GetDbPath c /\
  version_ c' = version_ c /\ IsMemoryRdb c' = IsMemoryRdb c.

Lemma config_changed path config (s : state) :
  wp (IsConfigInvalidChanged path config) (fun r s' => r.1 = false /\ same_identity config r.2) s.
Proof.
  unfold IsConfigInvalidChanged. case_match; [by apply wp_ret|]. case_match; [by apply wp_ret|].
  apply wp_bind. eapply wp_keeps; [apply quiet_config_get|]. intros cached s1 _.
  apply wp_bind. eapply (wp_keeps quiet); [unfold GetParamFromService; keeping|]. intros [p|] s2 _; [|by apply wp_ret].
  apply wp_bind. eapply wp_keeps; [apply quiet_config_set|]. intros _ s3 _.
  case_match; [by apply wp_ret|]. by case_match; apply wp_ret.
Qed.

(** *** Operations on a store *)

Lemma wp_on {A} id (f : run (StoreObject.t * W) A) (Q : A -> state -> Prop) s o : heap s.1 !! id = Some o ->
  wp f (fun a s' => Q a (set_heap (<[id := s'.1]> (heap s.1)) s.1, s'.2)) (o, s.2) -> wp (on id f) Q s.
Proof. intros Ho. unfold wp, on. rewrite Ho. by destruct (f (o, s.2)) as [[a [o' w']]|]. Qed.

Lemma open_spec id version acl (s : state) o : wf s.1 -> heap s.1 !! id = Some o ->
  wp (on id (StoreObject.Init version acl))
    (fun e s' => exists o', opened o e o' /\ s'.1 = set_heap (<[id := o']> (heap s.1)) s.1) s.
Proof.
  intros Hwf Ho. eapply wp_on; [done|]. eapply wp_mono; [apply store_init_spec; by eapply wf_settled|].
  intros e s' [Hopen _]. by exists s'.1.
Qed.

Lemma opened_settled o e o' : opened o e o' -> settled o'.
Proof. intros (_ & _ & _ & Hi & _). unfold settled. rewrite Hi. destruct (is_ok e); auto. Qed.

Lemma opened_path o e o' : opened o e o' -> DbPath.GetDbPath (StoreObject.config_ o') = DbPath.GetDbPath (StoreObject.config_ o).
Proof. intros (Hc & _). by apply const_path. Qed.

Lemma open_wf id o e o' m : heap m !! id = Some o -> opened o e o' -> wf m -> wf (set_heap (<[id := o']> (heap m)) m).
Proof. intros Ho Hopen. eapply update_wf; [done|by eapply opened_path|by eapply opened_settled]. Qed.

Lemma find_spec config (s : state) : wf s.1 ->
  wp (GetRdb config) (fun r s' =>
    match r with
    | None => s' = s
    | Some id => s' = (set_refs (refs s.1 ⊎ {[+ id +]}) s.1, s.2) /\ exists path o, DbPath.GetDbPath config = (E_OK, path) /\
        storeCache_ s.1 !! path = Some id /\ heap s.1 !! id = Some o /\ StoreObject.initStatus_ o = Some E_OK
    end) s.
Proof.
  intros Hwf. unfold GetRdb. destruct (DbPath.GetDbPath config) as [e path] eqn:Ep.
  destruct (is_ok e) eqn:He; cbn [negb]; [|by apply wp_ret]. apply is_ok_true in He as ->.
  apply wp_bind, wp_get. destruct (storeCache_ s.1 !! path) as [id|] eqn:Ec; [|by apply wp_ret].
  apply wp_bind, wp_lock. destruct (heap s.1 !! id) as [o|] eqn:Ho; [|by apply wp_ret].
  apply wp_bind. eapply wp_peek; [exact Ho|]. case_bool_decide; [apply wp_ret; by eauto 10|].
  apply wp_bind, wp_drop, wp_ret. cbn [fst snd]. rewrite drop_locked; [by destruct s|]. apply Hwf. by eexists.
Qed.

Lemma erase_wf path m : wf m -> wf (set_cache (delete path (storeCache_ m)) m).
Proof.
  intros []. split; simpl; auto; intros p id.
  - intros [_ Hc]%lookup_delete_Some. eauto.
  - intros o [_ Hc]%lookup_delete_Some. eauto.
Qed.

Lemma remove_spec path close (s : state) : wf s.1 ->
  wp (Remove path close) (fun r s' => wf s'.1 /\ refs s'.1 = refs s.1 /\ storeCache_ s'.1 = delete path (storeCache_ s.1) /\
    r = bool_decide (is_Some (storeCache_ s.1 !! path))) s.
Proof.
  intros Hwf. unfold Remove. apply wp_bind, wp_modify, wp_bind, wp_get. cbn [fst snd].
  match goal with |- context [storeCache_ ?x] => set (m := x) end.
  assert (quiet s.1 m) as Hq by (repeat split; apply capacity_delete).
  apply (quiet_wf _ _ Hq) in Hwf. destruct Hq as (Hc & Hh & Hr & _). rewrite <- Hc, <- Hr. clearbody m. clear Hc Hh Hr.
  destruct (storeCache_ m !! path) as [id|] eqn:Ec; cycle 1.
  { apply wp_ret. split; [done|]. split; [done|]. split; [|done]. by rewrite delete_id. }
  apply wp_bind, wp_lock. cbn [fst snd].
  match goal with |- context [bind _ ?k] => set (tail := k) end.
  assert (forall s', wf s'.1 -> refs s'.1 = refs m -> storeCache_ s'.1 = storeCache_ m ->
    wp (tail tt) (fun r s' => wf s'.1 /\ refs s'.1 = refs m /\ storeCache_ s'.1 = delete path (storeCache_ m) /\
      r = bool_decide (is_Some (Some id))) s') as Htail.
  { intros s' Hw Hr Hc. apply wp_bind, wp_modify, wp_ret. cbn [fst snd]. rewrite <- Hc. split; [by apply erase_wf|].
    by rewrite <- Hr. }
  destruct (heap m !! id) as [o|] eqn:Ho; [|apply wp_bind, wp_ret; by apply Htail].
  assert (id ∈ refs m) as Hin by (apply Hwf; by eexists). apply wp_bind, wp_bind. destruct close; cycle 1.
  { apply wp_ret, wp_drop. cbn [fst snd]. rewrite drop_locked by done. by apply Htail. }
  eapply wp_on; [exact Ho|]. eapply wp_keeps; [apply keeps_close|]. intros _ [o' w'] (Hcc & _ & _ & Hi).
  cbn [fst snd] in *. apply wp_drop. cbn [fst snd]. apply Htail; [|apply refs_back|done].
  apply drop_wf; [simpl; set_solver|]. eapply (update_wf id o o'); [exact Ho|by apply const_path| |apply lock_wf; [by eexists|done]].
  unfold settled. rewrite Hi. by eapply wf_settled.
Qed.

(** *** Interleavings *)

(** The critical sections of the manager and of its stores: the calls of several threads are
    sequences of them, mixed in any way.  [Stutter] is everything that touches no store. *)
Inductive label := Fetch (config : Config) | Open (id : nat) | Drop (id : nat) | Find | Forget | Stutter.

Inductive step : label -> state -> state -> Prop :=
| step_fetch path config e r s s' : DbPath.GetDbPath config = (E_OK, path) ->
    GetStoreFromCache path config e s = Some (r, s') -> step (Fetch config) s s'
| step_open id version acl e s s' : id ∈ refs s.1 -> on id (StoreObject.Init version acl) s = Some (e, s') -> step (Open id) s s'
| step_drop id s s' : id ∈ refs s.1 -> drop id s = Some (tt, s') -> step (Drop id) s s'
| step_find config r s s' : GetRdb config s = Some (r, s') -> step Find s s'
| step_remove path close r s s' : Remove path close s = Some (r, s') -> step Forget s s'
| step_clear s s' : Clear s = Some (tt, s') -> step Forget s s'
| step_quiet s s' : quiet s.1 s'.1 -> step Stutter s s'.

Inductive steps : list label -> state -> state -> Prop :=
| steps_nil s : steps [] s s
| steps_cons l ls s s1 s' : step l s s1 -> steps ls s1 s' -> steps (l :: ls) s s'.

Lemma steps_app ls ls' s s1 s' : steps ls s s1 -> steps ls' s1 s' -> steps (ls ++ ls') s s'.
Proof. induction 1; [done|]. intros. econstructor; eauto. Qed.

Lemma wp_result {S A} (m : run S A) (Q : A -> S -> Prop) s a s' : wp m Q s -> m s = Some (a, s') -> Q a s'.
Proof. unfold wp. intros Hm E. by rewrite E in Hm. Qed.

Lemma clear_wf a b c m : wf m -> wf (set_cache ∅ (set_params a b c m)).
Proof. intros []. split; simpl; auto; intros p id; by rewrite lookup_empty. Qed.

Lemma step_wf l s s' : step l s s' -> wf s.1 -> wf s'.1.
Proof.
  intros Hstep Hwf.
  destruct Hstep as [path config e r s s' Hp E|id version acl e s s' Hid E|id s s' Hid E|config r s s' E|path close r s s' E|s s' E|s s' Hq].
  - destruct (wp_result _ _ _ _ _ (fetch_spec path config e s Hwf) E) as (_ & Hf & _). by eapply fetched_wf.
  - apply Hwf in Hid as [o Ho]. destruct (wp_result _ _ _ _ _ (open_spec id version acl s o Hwf Ho) E) as (o' & Hopen & ->). by eapply open_wf.
  - injection E as <-. by apply drop_wf.
  - apply (wp_result _ _ _ _ _ (find_spec config s Hwf)) in E. destruct r as [id|]; [|by subst].
    destruct E as (-> & path & o & _ & _ & Ho & _). apply lock_wf; [by eexists|done].
  - by destruct (wp_result _ _ _ _ _ (remove_spec path close s Hwf) E) as (Hw & _).
  - injection E as <-. by apply clear_wf.
  - by eapply quiet_wf.
Qed.

Lemma steps_wf ls s s' : steps ls s s' -> wf s.1 -> wf s'.1.
Proof. induction 1; eauto using step_wf. Qed.

(** Every store from number [n] on that is alive is the one the cache has for its path, and was made for a
    configuration like [P] of the path. *)
Definition single (n : nat) (P : string -> Config) (m : t L) : Prop :=
  forall id o, (n <= id)%nat -> heap m !! id = Some o -> exists p, DbPath.GetDbPath (StoreObject.config_ o) = (E_OK, p) /\
    storeCache_ m !! p = Some id /\ ConfigProps.same_store (P p) (StoreObject.config_ o).

(** Calls that agree on the configuration of each path, and forget nothing. *)
Definition agreeing (P : string -> Config) (l : label) : Prop :=
  match l with
  | Fetch config => ConfigProps.same_store (P (DbPath.GetDbPath config).2) config
  | Forget => False
  | _ => True
  end.

Lemma single_heap n P m h r : single n P m -> (forall id o, h !! id = Some o -> heap m !! id = Some o) ->
  single n P (set_refs r (set_heap h m)).
Proof. intros Hs Hh id o Hn Ho. apply Hs; [done|]. by apply Hh. Qed.

Lemma fetched_single n P path config m r m' : DbPath.GetDbPath config = (E_OK, path) -> ConfigProps.same_store (P path) config ->
  fetched path config m r m' -> single n P m -> single n P m'.
Proof.
  intros Hp Hc [id o Hl Ho He|id o Hl Ho He Hf|Hnew] Hs; [by intros|done|].
  intros id o Hn. cbn [heap storeCache_ with_new set_stores]. intros [[<- <-]|[Hne Ho]]%lookup_insert_Some.
  { exists path. split; [done|]. split; [apply lookup_insert_eq|done]. }
  destruct (Hs _ _ Hn Ho) as (p & Hp' & Hl & Hc'). exists p. split; [done|]. split; [|done].
  destruct (decide (p = path)) as [->|]; [|by rewrite lookup_insert_ne]. exfalso.
  destruct (Hnew _ _ Hl Ho) as [Hneq _]. apply ConfigProps.eqb_identity in Hc, Hc'.
  rewrite (proj2 (ConfigProps.eqb_identity _ _)) in Hneq; congruence.
Qed.

Lemma opened_single n P m id o e o' : heap m !! id = Some o -> opened o e o' -> single n P m ->
  single n P (set_heap (<[id := o']> (heap m)) m).
Proof.
  intros Ho Hopen Hs id' o1 Hn. cbn [heap storeCache_ set_heap set_stores].
  intros [[<- <-]|[_ Ho1]]%lookup_insert_Some; [|by apply Hs].
  destruct (Hs _ _ Hn Ho) as (p & Hp & Hl & Hc). exists p. split; [by erewrite opened_path|]. split; [done|].
  unfold ConfigProps.same_store in *. rewrite ConfigProps.eqb_identity in *. rewrite Hc. symmetry. by apply const_identity, Hopen.
Qed.

Lemma step_single n P l s s' : step l s s' -> agreeing P l -> wf s.1 -> single n P s.1 -> single n P s'.1.
Proof.
  intros Hstep Hl Hwf Hs.
  destruct Hstep as [path config e r s s' Hp E|id version acl e s s' Hid E|id s s' Hid E|config r s s' E| | |s s' Hq]; try done.
  - destruct (wp_result _ _ _ _ _ (fetch_spec path config e s Hwf) E) as (_ & Hf & _). simpl in Hl. rewrite Hp in Hl. by eapply fetched_single.
  - apply Hwf in Hid as [o Ho]. destruct (wp_result _ _ _ _ _ (open_spec id version acl s o Hwf Ho) E) as (o' & Hopen & ->). by eapply opened_single.
  - injection E as <-. apply single_heap; [done|]. intros id' o Ho. case_bool_decide; [done|]. by apply lookup_delete_Some in Ho as [_ Ho].
  - apply (wp_result _ _ _ _ _ (find_spec config s Hwf)) in E. destruct r as [id|]; [|by subst]. by destruct E as (-> & _).
  - destruct Hq as (Hc & Hh & _). intros id o Hn. rewrite Hh, Hc. by apply Hs.
Qed.

Lemma steps_single n P ls s s' : steps ls s s' -> Forall (agreeing P) ls -> wf s.1 -> single n P s.1 -> single n P s'.1.
Proof. induction 1; inversion 1; subst; eauto using step_wf, step_single. Qed.

(** *** The calls as sequences of steps *)

(** The steps a call for [config] makes. *)
Definition own (config : Config) (l : label) : Prop :=
  match l with Fetch c => same_identity config c | Find | Forget => False | _ => True end.

Definition runs (config : Config) (s s' : state) : Prop :=
  wf s'.1 /\ capacity (configCache_ s'.1) = capacity (configCache_ s.1) /\ exists ls, steps ls s s' /\ Forall (own config) ls.

Lemma runs_refl config s : wf s.1 -> runs config s s.
Proof. intros Hwf. split; [done|]. split; [done|]. exists []. by split; [constructor|]. Qed.

Lemma runs_trans config s1 s2 s3 : runs config s1 s2 -> runs config s2 s3 -> runs config s1 s3.
Proof.
  intros (_ & C1 & l1 & S1 & O1) (Hw & C2 & l2 & S2 & O2). split; [done|]. split; [congruence|].
  exists (l1 ++ l2). split; [by eapply steps_app|by apply Forall_app].
Qed.

Lemma runs_step config l s s' : step l s s' -> own config l -> wf s.1 ->
  capacity (configCache_ s'.1) = capacity (configCache_ s.1) -> runs config s s'.
Proof.
  intros Hstep Hown Hwf Hcap. split; [by eapply step_wf|]. split; [done|]. exists [l].
  split; [by econstructor; [|constructor]|by constructor].
Qed.

Lemma runs_quiet config s s' : wf s.1 -> quiet s.1 s'.1 -> runs config s s'.
Proof. intros Hwf Hq. apply (runs_step config Stutter); [by constructor|done|done|apply Hq]. Qed.

Lemma wp_self_result {S A} (m : run S A) (Q : A -> S -> Prop) s : wp m Q s -> wp m (fun a s' => m s = Some (a, s') /\ Q a s') s.
Proof. unfold wp. by destruct (m s) as [[a s']|]. Qed.

(** [GetStoreFromCache] as a step of a call. *)
Lemma fetch_call path config c e (s : state) : wf s.1 -> DbPath.GetDbPath c = (E_OK, path) -> same_identity config c ->
  wp (GetStoreFromCache path c e) (fun r s' => runs config s s' /\
    match r.1 with
    | None => r.2 = E_CONFIG_INVALID_CHANGE /\ s' = s
    | Some id => r.2 = e /\ refs s'.1 = refs s.1 ⊎ {[+ id +]} /\ storeCache_ s'.1 !! path = Some id /\
        exists o, heap s'.1 !! id = Some o /\ ConfigProps.identity (StoreObject.config_ o) = ConfigProps.identity c
    end) s.
Proof.
  intros Hwf Hp Hsame. eapply wp_mono; [apply wp_self_result, fetch_spec, Hwf|].
  intros [r e'] [m' w'] (E & Hw & Hf & He). cbn [fst snd] in *. subst w'.
  assert (capacity (configCache_ m') = capacity (configCache_ s.1)) as Hcap by (by destruct Hf). split.
  { eapply (runs_step config (Fetch c)); [by econstructor|done..]. }
  destruct Hf as [id o Hl Ho Heq|id o Hl Ho Heq Hf|Hnew]; simpl.
  - split; [done|]. split; [done|]. split; [done|]. exists o. split; [done|]. by apply ConfigProps.eqb_identity.
  - split; [done|]. by destruct s.
  - split; [done|]. split; [done|]. split; [apply lookup_insert_eq|]. exists (StoreObject.new c). split; [apply lookup_insert_eq|done].
Qed.

(** [Init] as a step of a call. *)
Lemma open_call config id version acl (s : state) o : wf s.1 -> heap s.1 !! id = Some o ->
  wp (on id (StoreObject.Init version acl)) (fun e s' => runs config s s' /\ refs s'.1 = refs s.1 /\
    storeCache_ s'.1 = storeCache_ s.1 /\ exists o', heap s'.1 !! id = Some o' /\ const_changes (StoreObject.config_ o) (StoreObject.config_ o') /\
    StoreObject.initStatus_ o' = if is_ok e then Some E_OK else None) s.
Proof.
  intros Hwf Ho. eapply wp_mono; [by eapply wp_self_result, open_spec|].
  intros e [m' w'] (E & o' & Hopen & Hm). cbn [fst snd] in *. subst m'. split.
  { eapply (runs_step config (Open id)); [|done..]. econstructor; [|done]. apply Hwf. by eexists. }
  split; [done|]. split; [done|]. exists o'. split; [apply lookup_insert_eq|]. split; apply Hopen.
Qed.

Lemma drop_call config id (s : state) X : wf s.1 -> refs s.1 = X ⊎ {[+ id +]} ->
  wp (drop id) (fun _ s' => runs config s s' /\ refs s'.1 = X) s.
Proof.
  intros Hwf Hr. apply wp_drop. split; [|simpl; rewrite Hr; apply refs_back].
  apply (runs_step config (Drop id)); [|done..]. constructor; [rewrite Hr; set_solver|done].
Qed.

Lemma remember_call config path id (s : state) o : wf s.1 -> heap s.1 !! id = Some o ->
  wp (remember path id) (fun _ s' => runs config s s' /\ quiet s.1 s'.1 /\
    (IsMemoryRdb (StoreObject.config_ o) = false -> (0 < capacity (configCache_ s.1))%nat ->
     content (configCache_ s'.1) !! path = Some (GetSyncParam (StoreObject.config_ o)))) s.
Proof.
  intros Hwf Ho. unfold remember. apply wp_bind. eapply wp_peek; [exact Ho|]. case_match.
  { apply wp_ret. split; [by apply runs_refl|]. split; [reflexivity|done]. }
  apply wp_modify. match goal with |- context [runs config s (?m, _)] => assert (quiet s.1 m) as Hq end.
  { repeat split. apply capacity_set. }
  split; [by apply runs_quiet|]. split; [done|]. intros _ Hcap. by apply content_set.
Qed.

(** What a caller of [GetRdbStore] has: an error and no new reference, or a reference to an open
    store, the one of its path, which was made for a configuration like the caller's. *)
Definition outcome (config : Config) (s : state) (r : option nat * errno) (s' : state) : Prop :=
  match r.1 with
  | None => r.2 <> E_OK /\ refs s'.1 = refs s.1
  | Some id => r.2 = E_OK /\ refs s'.1 = refs s.1 ⊎ {[+ id +]} /\
      exists path o, DbPath.GetDbPath config = (E_OK, path) /\ storeCache_ s'.1 !! path = Some id /\ heap s'.1 !! id = Some o /\
        StoreObject.initStatus_ o = Some E_OK /\ ConfigProps.identity (StoreObject.config_ o) = ConfigProps.identity config /\
        (IsMemoryRdb (StoreObject.config_ o) = false -> (0 < capacity (configCache_ s.1))%nat ->
         content (configCache_ s'.1) !! path = Some (GetSyncParam (StoreObject.config_ o)))
  end.

(** Opening the store that [GetStoreFromCache] gave, and what follows if that succeeds. *)
Lemma attempt_call config path id version acl (s0 s : state) o (k : errno -> run state (option nat * errno)) :
  runs config s0 s -> refs s.1 = refs s0.1 ⊎ {[+ id +]} -> storeCache_ s.1 !! path = Some id ->
  heap s.1 !! id = Some o -> ConfigProps.identity (StoreObject.config_ o) = ConfigProps.identity config ->
  DbPath.GetDbPath config = (E_OK, path) ->
  (forall e s1, e <> E_OK -> runs config s0 s1 -> refs s1.1 = refs s0.1 ⊎ {[+ id +]} ->
     wp (k e) (fun r s' => runs config s0 s' /\ outcome config s0 r s') s1) ->
  wp (let! errCode := on id (StoreObject.Init version acl) in
      if is_ok errCode then let! _ := remember path id in ret (Some id, errCode) else k errCode)
    (fun r s' => runs config s0 s' /\ outcome config s0 r s') s.
Proof.
  intros Hr Hrefs Hl Ho Hid Hp Hk. apply wp_bind. eapply wp_mono; [eapply (open_call config); [apply Hr|done]|].
  intros e s1 (R1 & Hrefs1 & Hc1 & o1 & Ho1 & Hcc & Hi). pose proof (runs_trans _ _ _ _ Hr R1) as R01.
  destruct (is_ok e) eqn:He; cycle 1. { apply is_ok_false in He. apply Hk; [done|done|congruence]. }
  apply is_ok_true in He as ->. apply wp_bind. eapply wp_mono; [eapply (remember_call config); [apply R01|done]|].
  intros _ s2 (R2 & (Hc2 & Hh2 & Hr2 & _) & Hmem). apply wp_ret. split; [by eapply runs_trans|]. split; [done|].
  split; [simpl; congruence|]. exists path, o1. split; [done|]. split; [congruence|]. split; [congruence|]. split; [done|].
  split; [by rewrite (const_identity _ _ Hcc)|]. intros Hm Hcap. apply Hmem; [done|]. destruct R01 as (_ & Hcap1 & _). lia.
Qed.

Lemma call_spec config version (s : state) : wf s.1 ->
  wp (GetRdbStore config version) (fun r s' => runs config s s' /\ outcome config s r s') s.
Proof.
  intros Hwf. unfold GetRdbStore. destruct (DbPath.GetDbPath config) as [e path] eqn:Ep.
  destruct (is_ok e) eqn:He; cbn [negb]; cycle 1.
  { apply is_ok_false in He. apply wp_ret. split; [by apply runs_refl|done]. }
  apply is_ok_true in He as ->. apply wp_bind. eapply wp_keeps; [apply quiet_check|]. intros e1 s1 K1.
  destruct (is_ok e1) eqn:He1; cbn [negb]; cycle 1.
  { apply is_ok_false in He1. apply wp_ret. split; [by apply runs_quiet|]. split; [done|]. by destruct K1 as (_ & _ & -> & _). }
  apply is_ok_true in He1 as ->. apply wp_bind.
  eapply wp_mono with (Q := fun r s' => quiet s1.1 s'.1 /\ r.1 = false /\ same_identity config r.2).
  { case_match; [|by apply wp_ret]. apply wp_and; [apply quiet_changed|apply config_changed]. }
  intros [? c] s2 (K2 & Hr & Hsame). cbn [fst snd] in Hr, Hsame. subst.
  assert (quiet s.1 s2.1) as Q02 by (by etrans). assert (runs config s s2) as R02 by (by apply runs_quiet).
  assert (refs s2.1 = refs s.1) as Hr02 by apply Q02. assert (wf s2.1) as Hwf2 by apply R02.
  apply wp_bind. eapply wp_mono; [apply (fetch_call path config c); [done|by rewrite (proj1 (proj2 Hsame))|done]|].
  intros [[id|] e3] s3 [R3 K3]; cbn [fst snd] in K3; cycle 1.
  { destruct K3 as [-> ->]. apply wp_ret. split; [done|]. by split. }
  destruct K3 as (-> & Hr3 & Hl3 & o & Ho & Hid). apply wp_bind. eapply wp_keeps; [apply quiet_acl|]. intros acl s4 K4.
  assert (runs config s s4) as R04.
  { eapply runs_trans; [exact R02|]. eapply runs_trans; [exact R3|]. apply runs_quiet; [apply R3|done]. }
  destruct K4 as (Hc4 & Hh4 & Hr4 & _).
  eapply attempt_call; [done|congruence|congruence|by rewrite Hh4|by rewrite Hid; apply Hsame|done|].
  intros e5 s5 He5 R05 Hr5. destruct (Bool.eqb _ _).
  { apply wp_bind. eapply wp_mono; [apply (drop_call config); [apply R05|done]|]. intros _ s6 [R6 Hr6]. apply wp_ret.
    split; [by eapply runs_trans|]. by split. }
  apply wp_bind. eapply wp_mono; [apply (drop_call config); [apply R05|done]|]. intros _ s6 [R6 Hr6].
  assert (runs config s s6) as R06 by (by eapply runs_trans). apply wp_bind.
  eapply wp_mono; [apply (fetch_call path config config); [apply R06|done|done]|].
  intros [[id'|] e7] s7 [R7 K7]; cbn [fst snd] in K7; cycle 1.
  { destruct K7 as [-> ->]. apply wp_ret. split; [done|]. by split. }
  destruct K7 as (-> & Hr7 & Hl7 & o' & Ho' & Hid').
  eapply attempt_call; [by eapply runs_trans|congruence|done|done|done|done|].
  intros e8 s8 He8 R08 Hr8. apply wp_bind. eapply wp_mono; [apply (drop_call config); [apply R08|done]|].
  intros _ s9 [R9 Hr9]. apply wp_ret. split; [by eapply runs_trans|]. by split.
Qed.

End Steps.

#[export] Hint Resolve quiet_config_get quiet_config_set quiet_promise_get quiet_promise_set quiet_silent_get quiet_silent_set : keeps.

End ManagerInv.

(** ** Instances *)

Module SmallManager.
Import Lru RdbStoreConfig SmallOpening.

(** A bucket as a list with the newest value first. *)
Record bucket (V : Type) := { room : nat; entries : list (string * V) }.
Arguments room {V}. Arguments entries {V}.

#[export] Instance list_bucket : LRUBucket bucket := {
  create V n := {| room := n; entries := [] |};
  Get V k l := (list_to_map (M := gmap string V) (entries l) !! k, l);
  Set_ V k v l := {| room := room l; entries := take (room l) ((k, v) :: entries l) |};
  Delete V k l := {| room := room l; entries := filter (fun p => p.1 <> k) (entries l) |};
  ResetCapacity V n l := {| room := n; entries := take n (entries l) |}
}.

Lemma take_content {V} n (l : list (string * V)) :
  (list_to_map (take n l) : gmap string V) ⊆ list_to_map l.
Proof.
  assert (list_to_map l = (list_to_map (take n l) ∪ list_to_map (drop n l) : gmap string V)) as ->
    by (by rewrite <- list_to_map_app, take_drop).
  apply map_union_subseteq_l.
Qed.

Lemma filter_content {V} k (l : list (string * V)) :
  (list_to_map (filter (fun p => p.1 <> k) l) : gmap string V) = delete k (list_to_map l).
Proof.
  induction l as [|[k' v] l IH]; [symmetry; apply delete_empty|]. rewrite filter_cons. case_decide as Hk; simpl in *.
  - rewrite IH, delete_insert_ne; [done|congruence].
  - subst. by rewrite delete_insert_eq.
Qed.

#[export] Instance list_bucket_laws : LRULaws bucket.
Proof.
  refine {| content V l := list_to_map (entries l); capacity V l := room l |}; intros; simpl; try done.
  - by simplify_eq/=.
  - destruct (room l); [lia|]. apply lookup_insert_eq.
  - etrans; [apply delete_mono, take_content|]. simpl. rewrite delete_insert_eq. apply delete_subseteq.
  - apply filter_content.
  - apply take_content.
Defined.

(** A world in which every pool can be made. *)
#[export] Instance plain_opening : Opening unit := SmallOpening.opening_with E_OK.
#[export] Instance plain_opening_laws : OpenInv.OpeningLaws unit := SmallOpening.opening_with_laws E_OK.

#[export] Instance no_proxys : ProxyFile unit := { silentProxys _ := None }.

End SmallManager.

Module ManagerProps.
Import Lru RdbStoreConfig RdbStoreManager ManagerInv.

Section Props.
Context {L : Type -> Type} `{LRULaws L} {W : Type} `{Service W} `{OpenInv.OpeningLaws W} `{ProxyFile W}.

(** C36: [GetRdbStore] always answers.  Without a store the code says why and no reference is left
    over; with one the code is [E_OK], the caller has one reference more, to a store that is open,
    that the cache has under its path and that was made for a configuration equal to the
    caller's.  A call is a sequence of the steps of [ManagerInv], so that several calls at a
    time are interleavings of them. *)
Theorem store_handed_out config version (s : t L * W) : wf s.1 ->
  exists r s', GetRdbStore config version s = Some (r, s') /\ outcome config s r s' /\ wf s'.1 /\
    exists ls, steps ls s s' /\ Forall (own config) ls.
Proof.
  intros Hwf. destruct (wp_run _ _ _ (call_spec config version s Hwf)) as (r & s' & E & (Hw & _ & Hls) & Ho).
  exists r, s'. auto.
Qed.

(** C35: one store per path, between removals.  After any history of interleaved calls ([before], removals by [Remove],
    [Delete] and [Clear] and changes of configurations among them), take any interleaving of calls that remove no store and
    agree on the configuration of each path up to what [operator==] compares: two stores that were made during it, are alive and
    have the same path are the same object; from the start of the process on these are all stores.  A store that was made
    before a removal and is still held lives on beside the new one ([removed_store_doubled]). *)
Theorem one_store_per_path P before ls (w : W) (s0 s : t L * W) id id' o o' :
  steps before (new, w) s0 -> steps ls s0 s -> Forall (agreeing P) ls ->
  (next s0.1 <= id)%nat -> (next s0.1 <= id')%nat -> heap s.1 !! id = Some o -> heap s.1 !! id' = Some o' ->
  DbPath.GetDbPath (StoreObject.config_ o) = DbPath.GetDbPath (StoreObject.config_ o') -> id = id'.
Proof.
  intros Hbefore Hs Hl Hn Hn' Ho Ho' Hp. assert (wf s0.1) as Hwf by (eapply steps_wf; [exact Hbefore|apply new_wf]).
  assert (single (next s0.1) P s.1) as Hsingle.
  { eapply steps_single; [done|done|done|]. intros i x Hi Hx. exfalso.
    pose proof (wf_next _ Hwf i ltac:(by eexists)). lia. }
  destruct (Hsingle _ _ Hn Ho) as (p & Hp1 & Hc1 & _), (Hsingle _ _ Hn' Ho') as (p' & Hp2 & Hc2 & _). congruence.
Qed.

Lemma check_codes config path (s : t L * W) :
  wp (CheckConfig config path) (fun e s' => quiet s.1 s'.1 /\ (e = E_OK \/ e = E_NOT_SUPPORT)) s.
Proof.
  apply wp_and; [apply quiet_check|]. unfold CheckConfig. apply wp_bind.
  eapply (wp_keeps quiet); [unfold IsPermitted; keeping|]. intros refused s1 _.
  case_match; [apply wp_ret; by right|]. case_match; apply wp_ret; [by right|by left].
Qed.

(** a store that is in use is not replaced by one with a different configuration where that
    is forbidden, for databases in memory and for configurations with a version: the call is
    refused and no store changes. *)
Theorem conflicting_open_refused config version path id o (s : t L * W) :
  wf s.1 -> DbPath.GetDbPath config = (E_OK, path) -> storeCache_ s.1 !! path = Some id -> heap s.1 !! id = Some o ->
  eqb (StoreObject.config_ o) config = false -> forbids (StoreObject.config_ o) config ->
  exists e s', GetRdbStore config version s = Some ((None, e), s') /\ (e = E_CONFIG_INVALID_CHANGE \/ e = E_NOT_SUPPORT) /\
    storeCache_ s'.1 = storeCache_ s.1 /\ heap s'.1 = heap s.1 /\ refs s'.1 = refs s.1.
Proof.
  intros Hwf Hp Hl Ho Hne Hf.
  assert (wp (GetRdbStore config version) (fun r s' => r.1 = None /\ (r.2 = E_CONFIG_INVALID_CHANGE \/ r.2 = E_NOT_SUPPORT) /\
    quiet s.1 s'.1) s) as Hcall; cycle 1.
  { destruct (wp_run _ _ _ Hcall) as ([r e] & s' & E & Hr & He & Hq). cbn [fst snd] in *. subst. exists e, s'.
    split; [done|]. split; [done|]. by destruct Hq as (? & ? & ? & _). }
  unfold GetRdbStore. rewrite Hp. change (negb (is_ok E_OK)) with false. cbv iota.
  apply wp_bind. eapply wp_mono; [apply check_codes|]. intros e s1 [K1 [->| ->]]; cycle 1. { apply wp_ret. auto. }
  apply wp_bind.
  eapply wp_mono with (Q := fun r s' => quiet s1.1 s'.1 /\ r.1 = false /\ same_identity config r.2).
  { case_match; [|by apply wp_ret]. apply wp_and; [apply quiet_changed|apply config_changed]. }
  intros [? c] s2 (K2 & Hr & Hsame). cbn [fst snd] in Hr, Hsame. subst. assert (quiet s.1 s2.1) as Q02 by (by etrans).
  apply wp_bind. eapply wp_mono; [apply fetch_spec; by eapply quiet_wf|].
  intros [r e] [m3 w3] (_ & Hfetched & He). cbn [fst snd] in Hfetched, He.
  assert (r = None /\ m3 = s2.1) as [-> ->].
  { destruct Q02 as (Hc2 & Hh2 & _). destruct Hsame as (Hi & _ & Hv & Hm).
    assert (eqb (StoreObject.config_ o) c = false) as Hne'.
    { apply not_true_is_false. rewrite ConfigProps.eqb_identity, Hi, <- ConfigProps.eqb_identity. by rewrite Hne. }
    destruct Hfetched as [id' o' Hl' Ho' He'|id' o' Hl' Ho' He' Hf'|Hnew]; [|done|]; exfalso.
    - rewrite Hc2, Hl in Hl'. injection Hl' as <-. rewrite Hh2, Ho in Ho'. injection Ho' as <-. congruence.
    - destruct (Hnew id o) as [_ Hnf]; [congruence|congruence|]. apply Hnf. unfold forbids in *. by rewrite Hv, Hm. }
  subst. apply wp_ret. auto.
Qed.

Lemma wp_run_false {A} (m : run (t L * W) (bool * A)) (Q : A -> Prop) s :
  wp m (fun r _ => r.1 = false /\ Q r.2) s -> exists c s', m s = Some ((false, c), s') /\ Q c.
Proof. intros ([b c] & s' & E & Hb & Hq)%wp_run. simpl in Hb. subst. eauto. Qed.

(** how a database was encrypted is remembered.  After a store on disk was opened, a caller
    who asks for the same path with another encryption status, and brings no key, is given the
    status the store has. *)
Theorem encryption_remembered config version path id o config' (s s1 : t L * W) :
  wf s.1 -> (0 < capacity (configCache_ s.1))%nat -> GetRdbStore config version s = Some ((Some id, E_OK), s1) ->
  heap s1.1 !! id = Some o -> DbPath.GetDbPath config = (E_OK, path) ->
  IsMemoryRdb config = false -> IsMemoryRdb config' = false -> Str.empty (bundleName_ config') = false ->
  customDir_ config' = customDir_ (StoreObject.config_ o) -> moduleName_ config' = moduleName_ (StoreObject.config_ o) ->
  area_ config' = area_ (StoreObject.config_ o) -> GetEncryptKey config' = [] ->
  CryptoParam.encryptAlgo (cryptoParam_ config') <> CryptoParam.PLAIN_TEXT ->
  exists c s2, IsConfigInvalidChanged path config' s1 = Some ((false, c), s2) /\
    IsEncrypt c = IsEncrypt (StoreObject.config_ o).
Proof.
  intros Hwf Hcap E Ho Hp Hm Hm' Hb Hd Hn Ha Hk Halgo.
  destruct (wp_result _ _ _ _ _ (call_spec config version s Hwf) E) as (_ & _ & _ & path' & o' & Hp' & _ & Ho' & _ & Hid & Hmem).
  rewrite Hp in Hp'. injection Hp' as <-. rewrite Ho in Ho'. injection Ho' as <-.
  assert (IsMemoryRdb (StoreObject.config_ o) = false) as Hmo.
  { rewrite <- Hm. unfold IsMemoryRdb. by injection Hid as _ ->. }
  specialize (Hmem Hmo Hcap). apply wp_run_false. unfold IsConfigInvalidChanged. rewrite Hm', Hb.
  apply wp_bind. unfold wp at 1, config_get. destruct (Get path (configCache_ s1.1)) as [v l] eqn:Eg.
  apply content_get in Eg as (-> & _ & _). rewrite Hmem. apply wp_bind, wp_ret, wp_bind, wp_modify.
  change (SyncerParam.customDir_ (GetSyncParam ?c)) with (customDir_ c). change (SyncerParam.hapName_ (GetSyncParam ?c)) with (moduleName_ c).
  change (SyncerParam.area_ (GetSyncParam ?c)) with (area_ c). change (SyncerParam.isEncrypt_ (GetSyncParam ?c)) with (IsEncrypt c).
  rewrite Hd, Hn, Ha, !bool_decide_true, Z.eqb_refl by done. cbn [negb orb].
  destruct (Bool.eqb (IsEncrypt (StoreObject.config_ o)) (IsEncrypt config')) eqn:Ee; cbn [negb]; apply wp_ret; (split; [done|]).
  - symmetry. by apply Bool.eqb_prop.
  - change (IsEncrypt (SetEncryptStatus (IsEncrypt (StoreObject.config_ o)) config') = IsEncrypt (StoreObject.config_ o)).
    set (b := IsEncrypt (StoreObject.config_ o)).
    change ((if CryptoParam.encryptAlgo (cryptoParam_ config') =? CryptoParam.PLAIN_TEXT then false
             else b || negb (length (GetEncryptKey config') =? 0)%nat) = b).
    rewrite (proj2 (Z.eqb_neq _ _) Halgo), Hk. apply orb_false_r.
Qed.

(** a visitor that wants to write needs a permission.  While the cache of permissions does
    not have the path and the service grants none, the call is refused before a store is looked
    for. *)
Theorem visitor_write_refused config version path (s : t L * W) :
  DbPath.GetDbPath config = (E_OK, path) -> role_ config = VISITOR_WRITE -> content (promiseInfoCache_ s.1) !! path = None ->
  (forall p w, (VerifyPromiseInfo p w).1 <> RDB_OK) ->
  exists s', GetRdbStore config version s = Some ((None, E_NOT_SUPPORT), s') /\
    storeCache_ s'.1 = storeCache_ s.1 /\ heap s'.1 = heap s.1 /\ refs s'.1 = refs s.1.
Proof.
  intros Hp Hrole Hno Hv.
  assert (wp (IsPermitted (GetSyncParam config) path) (fun b s' => b = false /\ quiet s.1 s'.1) s) as Hperm.
  { apply wp_and; [|unfold IsPermitted; keeping]. unfold IsPermitted. apply wp_bind. unfold wp at 1, promise_get.
    destruct (Get path (promiseInfoCache_ s.1)) as [v l] eqn:Eg. apply content_get in Eg as (-> & _ & _). rewrite Hno.
    apply wp_bind, wp_sys. intros [err service] w1 _. case_match; [by apply wp_ret|]. case_match; [by apply wp_ret|].
    apply wp_bind, wp_sys. intros status w2 E. case_match eqn:Es; [|by apply wp_ret]. apply Z.eqb_eq in Es.
    cbn [fst snd] in E. destruct (Hv (GetSyncParam config) w1). by rewrite E. }
  destruct (wp_run _ _ _ Hperm) as (b & s' & E & -> & Hc & Hh & Hr & _). exists s'. split; [|done].
  unfold GetRdbStore. rewrite Hp. change (negb (is_ok E_OK)) with false. cbv iota. unfold CheckConfig, bind.
  rewrite Hrole, Z.eqb_refl, E. done.
Qed.

End Props.

(** *** Witnesses *)

Import SmallOpening SmallManager.

Definition disk : Config := {of_path "/d/a.db" with bundleName_ := "app" }.
Definition start : t bucket * unit := (new, tt).

(** The state behind an operation. *)
Definition behind {A} (m : run (t bucket * unit) A) (s : t bucket * unit) : t bucket * unit :=
  match m s with Some (_, s') => s' | None => s end.

Definition once : t bucket * unit := behind (GetStoreFromCache "/d/a.db" disk E_OK) start.
Definition twice : t bucket * unit := behind (GetStoreFromCache "/d/a.db" disk E_OK) once.
Definition opened_once : t bucket * unit := behind (GetRdbStore disk 1) start.

Lemma store_handed_out_witness : exists r s', GetRdbStore disk 1 start = Some (r, s') /\ outcome disk start r s' /\ wf s'.1 /\
  exists ls, steps ls start s' /\ Forall (own disk) ls.
Proof. apply (store_handed_out disk 1 start). apply new_wf. Defined.

Lemma twice_steps : steps [Fetch disk; Fetch disk] (new, tt) twice.
Proof. repeat (econstructor; [eapply (step_fetch "/d/a.db" disk E_OK); vm_compute; reflexivity|]). constructor. Qed.

Lemma one_store_per_path_witness : (exists o, heap twice.1 !! 0%nat = Some o) /\
  forall id o, heap twice.1 !! id = Some o -> DbPath.GetDbPath (StoreObject.config_ o) = (E_OK, "/d/a.db") -> id = 0%nat.
Proof.
  split; [eexists; vm_compute; reflexivity|]. intros id o Ho Hp.
  apply (one_store_per_path (fun _ => disk) [] [Fetch disk; Fetch disk] tt (new, tt) twice id 0 o (StoreObject.new disk));
    [constructor|apply twice_steps|repeat constructor|vm_compute; lia|vm_compute; lia|exact Ho|vm_compute; reflexivity|rewrite Hp; vm_compute; reflexivity].
Defined.

(** A store that is held while its path is removed, and one that is asked for afterwards with the same configuration:
    both are alive. *)
Theorem removed_store_doubled :
  let s := behind (GetStoreFromCache "/d/a.db" disk E_OK) (behind (Remove "/d/a.db" false) once) in
  exists o o', heap s.1 !! 0%nat = Some o /\ heap s.1 !! 1%nat = Some o' /\
    DbPath.GetDbPath (StoreObject.config_ o) = DbPath.GetDbPath (StoreObject.config_ o').
Proof. do 2 eexists. split; [vm_compute; reflexivity|]. split; vm_compute; reflexivity. Qed.

(** A configuration that may not be changed, of the same database with another page size. *)
Definition versioned : Config := {disk with version_ := INVALID_CONFIG_CHANGE_NOT_ALLOWED; pageSize_ := 8192 }.

Lemma once_wf : wf once.1.
Proof. eapply (steps_wf [Fetch disk] start); [|apply new_wf]. econstructor; [|constructor]. eapply (step_fetch "/d/a.db" disk E_OK); vm_compute; reflexivity. Qed.

Lemma conflicting_open_refused_witness : eqb disk versioned = false /\
  exists e s', GetRdbStore versioned 1 once = Some ((None, e), s') /\ (e = E_CONFIG_INVALID_CHANGE \/ e = E_NOT_SUPPORT) /\
    storeCache_ s'.1 = storeCache_ once.1 /\ heap s'.1 = heap once.1 /\ refs s'.1 = refs once.1.
Proof.
  split; [vm_compute; reflexivity|].
  apply (conflicting_open_refused versioned 1 "/d/a.db" 0 (StoreObject.new disk) once);
    [apply once_wf|vm_compute; reflexivity..|]. right; right; left. vm_compute. discriminate.
Defined.

Definition encrypted : Config := {disk with isEncrypt_ := true }.

Lemma encryption_remembered_witness : IsEncrypt encrypted = true /\
  exists c s2, IsConfigInvalidChanged "/d/a.db" encrypted opened_once = Some ((false, c), s2) /\ IsEncrypt c = IsEncrypt disk.
Proof.
  split; [vm_compute; reflexivity|].
  assert (exists o, heap opened_once.1 !! 0%nat = Some o /\ StoreObject.config_ o = disk) as (o & Ho & Hc)
    by (eexists; split; vm_compute; reflexivity).
  rewrite <- Hc. apply (encryption_remembered disk 1 "/d/a.db" 0 o encrypted start opened_once);
    [apply new_wf|vm_compute; lia|vm_compute; reflexivity|exact Ho|rewrite ?Hc; vm_compute; reflexivity..|].
  vm_compute. discriminate.
Defined.

Definition visitor : Config := {disk with role_ := VISITOR_WRITE; visitorDir_ := "/d/a.db" }.

Lemma visitor_write_refused_witness : role_ visitor = VISITOR_WRITE /\
  exists s', GetRdbStore visitor 1 start = Some ((None, E_NOT_SUPPORT), s') /\
    storeCache_ s'.1 = storeCache_ start.1 /\ heap s'.1 = heap start.1 /\ refs s'.1 = refs start.1.
Proof.
  split; [reflexivity|]. apply (visitor_write_refused visitor 1 "/d/a.db" start); [vm_compute; reflexivity|done|done|].
  intros p w. vm_compute. discriminate.
Defined.

(** The comparison of configurations does not look at [readOnly_]: a caller who asks for a
    database that another caller has opened read-only is given a store that cannot be written. *)
Theorem read_only_store_shared :
  let s := behind (GetRdbStore (SetReadOnly true disk) 1) start in
  exists s' o, GetRdbStore disk 1 s = Some ((Some 0%nat, E_OK), s') /\ heap s'.1 !! 0%nat = Some o /\
    readOnly_ disk = false /\ StoreObject.isReadOnly_ o = true.
Proof.
  do 2 eexists. split; [vm_compute; reflexivity|]. split; [vm_compute; reflexivity|]. split; vm_compute; reflexivity.
Qed.

End ManagerProps.
