(* ===== verification/Replica.v ===== *)
(** * The replica of a database

    [SqliteConnection]: of frameworks/native/rdb/src/sqlite_connection.cpp the connection to a database and
    to its replica (the slave): creating and verifying the replica, the strategy when a store is
    opened, backup, restore and repair, the binary log and checkpoints; of sqlite_utils.cpp the
    files that mark a replica ([SlaveMarks]); of rdb_store_impl.cpp what the store asks of them
    ([ReplicaStore]).

    SQLite, the files and the other threads are the classes [Disk] and [Engine].  A connection to
    SQLite is known by the file it was opened on.  A replica has no replica of its own, so the
    slave of a connection is a [Handle] and not a connection again.  The status of the replica is
    shared by the store, its connections and the tasks; here it is a member of the connection
    that runs.  The loops over the pages of a copy have fuel.  Fault reports are left out. *)
From Stdlib Require Import ZArith Lia Ascii.
From stdpp Require Import base gmap list strings pretty.
From coqutil Require Import Datatypes.RecordSetters.
Import OCamlLikeNotations.
From S2P Require Import Prelude CppStd Errno Values StringUtils SqliteStmt Security StoreConfig StoreOpen.

Local Open Scope Z_scope.
Import Run.
#[local] Arguments constant {E} newValue _ /.

(** The files.  [touch] opens a file for writing and closes it; [file_size] is [None] for a file
    that [stat] does not find; [remove_all] removes what is in a folder and, if asked, the folder;
    [entries] counts what is in a folder. *)
Class Disk (W : Type) := {
  access : string -> W -> bool;
  touch : string -> W -> bool * W;
  unlink : string -> W -> W;
  file_size : string -> W -> option Z;
  remove_all : string -> bool -> W -> W;
  entries : string -> W -> Z;
  has_acl : string -> W -> bool;
  set_gid : string -> list string -> W -> W;
  set_dir_gid : string -> W -> W
}.

(** [SlaveStatus]. *)
Inductive SlaveStatus := UNDEFINED | BACKING_UP | BACKUP_INTERRUPT | BACKUP_FINISHED | DB_CLOSING.

#[export] Instance SlaveStatus_dec : EqDecision SlaveStatus.
Proof. solve_decision. Defined.
#[export] Instance ExchangeStrategy_dec : EqDecision ExchangeStrategy.
Proof. solve_decision. Defined.

(** [Sqlite3BinlogMode] and [BinlogFileCleanModeE]. *)
Inductive BinlogMode := ROW | ROW_FOR_SEARCH.
Inductive CleanMode := CLEAN_ALL | CLEAN_READ | CLEAN_DONATED.

#[export] Instance BinlogMode_dec : EqDecision BinlogMode.
Proof. solve_decision. Defined.

(** What a connection to one file is: its configuration and flags, and whether [dbHandle_] is set. *)
Record Handle := {
  config_ : Config;
  isWriter_ : bool;
  isSlave_ : bool;
  isSupportBinlog_ : bool;
  dbHandle_ : bool
}.

(** SQLite, on files.  [InnerOpen] is the opening and configuration of a connection; a copy
    ([sqlite3_backup]) is known by its destination and its source; [page_count] reads the table of
    pages of a compressed database.  [interleave] is what other threads write into the status while
    a step of a copy runs. *)
Class Engine (W : Type) := {
  InnerOpen : Handle -> W -> errno * W;
  ExecuteForValue : string -> string -> W -> (errno * ValueObject) * W;
  sqlite3_backup_init : string -> string -> W -> bool * W;
  sqlite3_backup_step : string -> string -> Z -> W -> Z * W;
  sqlite3_backup_pagecount : string -> string -> W -> Z;
  sqlite3_backup_finish : string -> string -> W -> W;
  sqlite3_busy_timeout : string -> Z -> W -> W;
  sqlite3_wal_checkpoint : string -> W -> Z * W;
  sqlite3_is_support_binlog : string -> W -> bool;
  sqlite3_replay_binlog : string -> string -> W -> Z * W;
  sqlite3_clean_binlog : string -> CleanMode -> W -> Z * W;
  sqlite3_enable_binlog : string -> option BinlogMode -> W -> Z * W;
  sqlite3_open_v2 : string -> W -> Z * W;
  sqlite3_close_v2 : string -> W -> W;
  sqlite3_sleep : Z -> W -> W;
  sqlite3_interrupt : string -> W -> W;
  page_count : string -> W -> option Z;
  interleave : SlaveStatus -> W -> SlaveStatus * W;
  has_executor : W -> bool
}.

(** ** Marks (sqlite_utils.cpp) *)

Module SlaveMarks.
Section Marks.
Context {W : Type} `{Disk W}.
Implicit Type w : W.

Definition SLAVE_FAILURE : string := "-slaveFailure".
Definition SLAVE_INTERRUPT : string := "-syncInterrupt".
Definition SLAVE_RESTORE : string := "-restoring".
Definition SLAVE_ASYNC_REPAIR_CHECK_LIMIT : Z := 367001600.

Definition IsSlaveInvalid (dbPath : string) w : bool := access (dbPath +:+ SLAVE_FAILURE) w.
Definition IsSlaveInterrupted (dbPath : string) w : bool := access (dbPath +:+ SLAVE_INTERRUPT) w.
Definition IsSlaveRestoring (dbPath : string) w : bool := access (dbPath +:+ SLAVE_RESTORE) w.

(** A mark that is there is not written again. *)
Definition set_mark (file : string) w : errno * W :=
  if access file w then (E_OK, w)
  else let '(is_open, w1) := touch file w in (if is_open then E_OK else E_ERROR, w1).

Definition SetSlaveInvalid (dbPath : string) w : errno * W := set_mark (dbPath +:+ SLAVE_FAILURE) w.
Definition SetSlaveInterrupted (dbPath : string) w : errno * W := set_mark (dbPath +:+ SLAVE_INTERRUPT) w.

Definition SetSlaveRestoring (dbPath : string) (isRestore : bool) w : errno * W :=
  if IsSlaveRestoring dbPath w then (E_OK, if isRestore then w else unlink (dbPath +:+ SLAVE_RESTORE) w)
  else set_mark (dbPath +:+ SLAVE_RESTORE) w.

Definition SetSlaveValid (dbPath : string) w : W :=
  unlink (dbPath +:+ SLAVE_FAILURE) (unlink (dbPath +:+ SLAVE_INTERRUPT) w).

(** [GetFileSize]: a file that is not there has size 0. *)
Definition GetFileSize (fileName : string) w : Z :=
  if Str.empty fileName then 0 else default 0 (file_size fileName w).

Context `{Engine W}.

Definition SSIZE_MAX : Z := 2 ^ 63 - 1.

Definition GetDecompressedSize (dbPath : string) w : Z :=
  match page_count dbPath w with
  | None => 0
  | Some pageCount => let size := pageCount * 4096 in if SSIZE_MAX <? size then SSIZE_MAX else size
  end.

Definition IsSlaveLarge (dbPath : string) w : bool :=
  let slavePath := SqliteUtils.GetSlavePath dbPath in
  let size := if sqlite3_is_support_binlog (StringUtils.ExtractFileName dbPath) w then GetDecompressedSize slavePath w else 0 in
  if 0 <? size then SLAVE_ASYNC_REPAIR_CHECK_LIMIT <? size
  else match file_size slavePath w with Some n => SLAVE_ASYNC_REPAIR_CHECK_LIMIT <? n | None => false end.

Definition IsUseAsyncRestore (config : Config) (newPath backupPath : string) w : bool :=
  negb (bool_decide (RdbStoreConfig.path_ config = backupPath) || bool_decide (newPath = backupPath) ||
        (RdbStoreConfig.dbType_ config =? RdbStoreConfig.DB_VECTOR) || (RdbStoreConfig.haMode_ config =? RdbStoreConfig.HA_SINGLE) ||
        negb (SqliteUtils.IsSlaveDbName backupPath) || negb (IsSlaveLarge (RdbStoreConfig.path_ config) w)).

End Marks.
End SlaveMarks.

(** ** The connection (sqlite_connection.cpp) *)

Module SqliteConnection.
Import SlaveMarks SQLiteError.
Abbreviation path := RdbStoreConfig.path_.

Definition MAIN_REPLICA : Z := 1.
Definition MANUAL_TRIGGER : Z := 2.

Record t := {
  main : Handle;
  slaveConnection_ : option Handle;
  isReleaseTempSlaveConn_ : bool;
  backupId_ : bool;
  status : SlaveStatus
}.

(** The constructor. *)
Definition handle (config : Config) (isWriter isSlave : bool) : Handle :=
  {| config_ := config; isWriter_ := isWriter; isSlave_ := isSlave; isSupportBinlog_ := false; dbHandle_ := false |}.

Definition new (config : Config) (isWriter : bool) (st : SlaveStatus) : t :=
  {| main := handle config isWriter false; slaveConnection_ := None; isReleaseTempSlaveConn_ := false;
     backupId_ := false; status := st |}.

(** The connection with another status. *)
Definition with_status (st : SlaveStatus) (o : t) : t := {o with status := st}.

(** The file of a connection. *)
Definition file (h : Handle) : string := (DbPath.GetDbPath (config_ h)).2.

Definition QUERY_TABLE_COUNT_SQL : string := "SELECT COUNT(*) FROM sqlite_master WHERE type='table'".
Definition QUERY_INDEX_COUNT_SQL : string := "SELECT COUNT(*) FROM sqlite_master WHERE type='index'".
Definition TABLE_COUNT_SQL : string := QUERY_TABLE_COUNT_SQL +:+ ";".
Definition QUICK_CHECK : string := "PRAGMA quick_check".
Definition INTEGRITY_CHECK : string := "PRAGMA integrity_check".
Definition PRAGMA_VERSION : string := "PRAGMA user_version".

(** [FILE_SUFFIXES]: the suffix and the name in reports. *)
Definition FILE_SUFFIXES : list (string * option string) :=
  [(EmptyString, Some "DB"); ("-shm", Some "SHM"); ("-wal", Some "WAL"); ("-dwr", Some "DWR"); ("-journal", Some "JOURNAL");
   (SLAVE_FAILURE, None); (SLAVE_INTERRUPT, None); (".corruptedflg", None); ("-compare", None); ("-walcompress", None);
   ("-journalcompress", None); ("-shmcompress", None); ("-lockcompress", None)].

Definition CHECKPOINT_TIME : Z := 500.
Definition DEFAULT_BUSY_TIMEOUT_MS : Z := 2000.
Definition BACKUP_PAGES_PRE_STEP : Z := 12800.
Definition BACKUP_ALL_STEP : Z := -1.
Definition BACKUP_PRE_WAIT_TIME : Z := 10.
Definition RESTORE_PRE_WAIT_TIME : Z := 120.
Definition SLAVE_WAL_SIZE_LIMIT : Z := 2147483647.
Definition SLAVE_INTEGRITY_CHECK_LIMIT : Z := 524288000.
Definition BINLOG_FILE_REPLAY_LIMIT : Z := 50.
Definition SUFFIX_BINLOG : string := "_binlog/".
Definition GetBinlogFolderPath (dbPath : string) : string := dbPath +:+ "_binlog".

Inductive SlaveOpenPolicy := FORCE_OPEN | OPEN_IF_DB_VALID.

Definition GetSlaveRdbStoreConfig (c : Config) : Config :=
  let r := RdbStoreConfig.of_path (SqliteUtils.GetSlavePath (path c)) in
  let r := RdbStoreConfig.SetEncryptStatus (RdbStoreConfig.IsEncrypt c) r in
  let r := RdbStoreConfig.SetSearchable (RdbStoreConfig.isSearchable_ c) r in
  let r := RdbStoreConfig.SetIsVector (RdbStoreConfig.isVector_ c) r in
  let r := RdbStoreConfig.SetAutoClean (RdbStoreConfig.isAutoClean_ c) r in
  let r := RdbStoreConfig.SetSecurityLevel (RdbStoreConfig.securityLevel_ c) r in
  let r := RdbStoreConfig.SetDataGroupId (RdbStoreConfig.dataGroupId_ c) r in
  let r := RdbStoreConfig.SetName (SqliteUtils.GetSlavePath (RdbStoreConfig.name_ c)) r in
  let r := RdbStoreConfig.SetCustomDir (RdbStoreConfig.customDir_ c) r in
  let r := RdbStoreConfig.SetAllowRebuild (RdbStoreConfig.allowRebuilt_ c) r in
  let r := RdbStoreConfig.SetReadOnly (RdbStoreConfig.readOnly_ c) r in
  let r := RdbStoreConfig.SetAutoCheck (RdbStoreConfig.autoCheck_ c) r in
  let r := RdbStoreConfig.SetCreateNecessary (RdbStoreConfig.isCreateNecessary_ c) r in
  let r := RdbStoreConfig.SetJournalSize (RdbStoreConfig.journalSize_ c) r in
  let r := RdbStoreConfig.SetPageSize (RdbStoreConfig.pageSize_ c) r in
  let r := RdbStoreConfig.SetReadConSize (RdbStoreConfig.readConSize_ c) r in
  let r := RdbStoreConfig.SetReadTime (RdbStoreConfig.readTimeout_ c) r in
  let r := RdbStoreConfig.SetDBType (RdbStoreConfig.dbType_ c) r in
  let r := RdbStoreConfig.SetVisitorDir (RdbStoreConfig.visitorDir_ c) r in
  let r := RdbStoreConfig.SetScalarFunctions (RdbStoreConfig.customScalarFunctions_ c) r in
  let r := RdbStoreConfig.SetJournalModeText (RdbStoreConfig.journalMode_ c) r in
  let r := RdbStoreConfig.SetModuleName (RdbStoreConfig.moduleName_ c) r in
  let r := RdbStoreConfig.SetPluginLibs (RdbStoreConfig.pluginLibs_ c) r in
  let r := RdbStoreConfig.SetHaMode (RdbStoreConfig.haMode_ c) r in
  let r := RdbStoreConfig.SetCryptoParam (RdbStoreConfig.cryptoParam_ c) r in
  RdbStoreConfig.SetLocalOnly (RdbStoreConfig.isLocalOnly_ c) r.

Definition GetBinlogMode (config : Config) : BinlogMode :=
  if (RdbStoreConfig.haMode_ config =? MANUAL_TRIGGER) && RdbStoreConfig.isSearchable_ config then ROW_FOR_SEARCH else ROW.

Section Ops.
Context {W : Type} `{Disk W} `{Engine W}.
Abbreviation op := (run (t * W)).
Implicit Type w : W.

Definition IsSupportBinlog (config : Config) w : bool :=
  sqlite3_is_support_binlog (RdbStoreConfig.name_ config) w && negb (RdbStoreConfig.IsEncrypt config) &&
  negb (RdbStoreConfig.IsMemoryRdb config).

(** [Delete] of the files of one database, and of a database with its replica. *)
Definition Delete (path : string) w : W := fold_left (fun w '(suffix, _) => unlink (path +:+ suffix) w) FILE_SUFFIXES w.

Definition DeleteAll (config : Config) w : W :=
  Delete (path config) (Delete (SqliteUtils.GetSlavePath (path config)) (remove_all (GetBinlogFolderPath (path config)) true w)).

(** [Collect]: the sizes of the files that are there, by their names in reports. *)
Definition Collect (config : Config) w : gmap string Z :=
  if RdbStoreConfig.IsMemoryRdb config then ∅
  else
    let p := (DbPath.GetDbPath config).2 in
    let insert (name file : string) (m : gmap string Z) :=
      match m !! name, file_size file w with None, Some n => <[name := n]> m | _, _ => m end in
    let m := fold_left (fun m '(suffix, debug) => match debug with None => m | Some d => insert d (p +:+ suffix) m end) FILE_SUFFIXES ∅ in
    insert "newKey" (SecurityManager.GetKeyFile p SecurityManager.PUB_KEY_FILE_NEW_KEY)
      (insert "key" (SecurityManager.GetKeyFile p SecurityManager.PUB_KEY_FILE) m).

Definition GetDbFiles (config : Config) w : list string :=
  if RdbStoreConfig.IsMemoryRdb config then []
  else
    let files p := omap (fun '(suffix, _) => let f := p +:+ suffix in
      if bool_decide (is_Some (file_size f w)) then Some (StringUtils.ExtractFileName f) else None) FILE_SUFFIXES in
    let p := (DbPath.GetDbPath config).2 in
    files p ++ (if RdbStoreConfig.haMode_ config =? RdbStoreConfig.HA_SINGLE then [] else files (SqliteUtils.GetSlavePath p)).

(** *** Parts of the connection *)

Definition set_status (st : SlaveStatus) : op unit := modify (with_status st).
Definition set_slave (h : option Handle) : op unit := modify (fun o => {o with slaveConnection_ := h}).
Definition config : op Config := get (fun s => config_ (main s.1)).

(** [slaveConnection_->...], undefined for a null pointer. *)
Definition slave : op Handle :=
  let! o := self in match slaveConnection_ o with Some h => ret h | None => undefined end.

Definition query (h : Handle) (sql : string) : op (errno * ValueObject) := sys (ExecuteForValue (file h) sql).

Definition invalidate : op unit := let! c := config in let! _ := sys (SetSlaveInvalid (path c)) in ret tt.

Definition IsRowForSearch (c : Config) : bool := bool_decide (GetBinlogMode c = ROW_FOR_SEARCH).

Definition DeleteCorruptSlave (slavePath : string) : op unit :=
  let! o := self in
  let c := config_ (main o) in
  if IsRowForSearch c then
    let! _ := (if dbHandle_ (main o) then let! _ := sys (sqlite3_clean_binlog (file (main o)) CLEAN_DONATED) in ret tt else ret tt) in
    let! _ := set_slave None in
    let! _ := sys_ (Delete slavePath) in
    invalidate
  else
    let! _ := (if dbHandle_ (main o) then let! _ := sys (sqlite3_enable_binlog (file (main o)) None) in ret tt else ret tt) in
    let! _ := set_slave None in
    let! _ := sys_ (Delete slavePath) in
    sys_ (remove_all (GetBinlogFolderPath (path c)) false).

(** [InnerOpen] of a connection: on success it has a handle. *)
Definition open_handle (h : Handle) : op (errno * Handle) :=
  let! errCode := sys (InnerOpen h) in ret (errCode, if is_ok errCode then {h with dbHandle_ := true} else h).

Definition CreateSlaveConnection (slaveConfig : Config) (policy : SlaveOpenPolicy) : op (errno * option Handle) :=
  let! c := config in
  let! (isSlaveExist, isSlaveLockExist, hasFailure, walOverLimit, binlog) := get (fun s =>
    (access (path slaveConfig) s.2, IsSlaveInterrupted (path c) s.2, IsSlaveInvalid (path c) s.2,
     match Collect slaveConfig s.2 !! "WAL" with Some size => SLAVE_WAL_SIZE_LIMIT <? size | None => false end,
     IsSupportBinlog c s.2)) in
  if (RdbStoreConfig.haMode_ slaveConfig =? MANUAL_TRIGGER) &&
     (match policy with OPEN_IF_DB_VALID => true | FORCE_OPEN => false end &&
      (negb isSlaveExist || isSlaveLockExist || hasFailure || walOverLimit)) then
    let! _ := when walOverLimit invalidate in ret (E_ERROR, None)
  else
    let connection := {handle slaveConfig true true with isSupportBinlog_ := binlog} in
    let! (errCode, conn) := open_handle connection in
    if is_ok errCode then ret (errCode, Some conn)
    else
      let! _ := invalidate in
      if bool_decide (errCode = E_SQLITE_CORRUPT) then
        let! _ := DeleteCorruptSlave (path slaveConfig) in
        if RdbStoreConfig.haMode_ slaveConfig =? MANUAL_TRIGGER then ret (errCode, None)
        else
          let! (errCode, conn) := open_handle connection in
          ret (errCode, if is_ok errCode then Some conn else None)
      else ret (errCode, None).

(** *** The binary log *)

(** [SetBinlog] and [ResetBinlog] answer with SQLite's code. *)
Definition SetBinlog : op Z :=
  let! o := self in
  let c := config_ (main o) in
  let! support := get (fun s => IsSupportBinlog c s.2) in
  if negb support then ret 0 else sys (sqlite3_enable_binlog (file (main o)) (Some (GetBinlogMode c))).

Definition ReplayBinlogSqlite (dbFrom slaveDb : string) : op errno :=
  let! err := sys (sqlite3_replay_binlog dbFrom slaveDb) in ret (ErrNo err).

(** The static [ReplayBinlog]: through a connection of its own to the main database. *)
Definition ReplayBinlogOf (dbPath : string) (slaveConn : option Handle) (isNeedClean : bool) : op unit :=
  let! found := get (fun s => access dbPath s.2) in
  match found, slaveConn with
  | true, Some h =>
      if negb (dbHandle_ h) then ret tt
      else
        let! count := get (fun s => entries (GetBinlogFolderPath dbPath) s.2) in
        if (RdbStoreConfig.haMode_ (config_ h) =? MANUAL_TRIGGER) && (BINLOG_FILE_REPLAY_LIMIT <? count) then
          let! _ := sys (SetSlaveInvalid dbPath) in ret tt
        else
          let! err := sys (sqlite3_open_v2 dbPath) in
          if negb (err =? SQLITE_OK) then ret tt
          else
            let! _ := sys (sqlite3_enable_binlog dbPath (Some (GetBinlogMode (config_ h)))) in
            let! errCode := ReplayBinlogSqlite dbPath (file h) in
            let! _ := (if is_ok errCode && isNeedClean then
                         let! _ := sys (sqlite3_clean_binlog dbPath CLEAN_READ) in ret tt
                       else ret tt) in
            sys_ (sqlite3_close_v2 dbPath)
  | _, _ => ret tt
  end.

(** The member [ReplayBinlog], on the connection's own handle. *)
Definition ReplayBinlog (chkBinlogCount : bool) : op unit :=
  let! o := self in
  let c := config_ (main o) in
  let! (support, found, count) := get (fun s =>
    (IsSupportBinlog c s.2, access (path c) s.2, entries (GetBinlogFolderPath (path c)) s.2)) in
  match support, slaveConnection_ o with
  | true, Some h =>
      if negb found then ret tt
      else if chkBinlogCount && (RdbStoreConfig.haMode_ (config_ h) =? MANUAL_TRIGGER) && (BINLOG_FILE_REPLAY_LIMIT <? count) then
        invalidate
      else
        let! err := ReplayBinlogSqlite (file (main o)) (file h) in
        if is_ok err then let! _ := sys (sqlite3_clean_binlog (file (main o)) CLEAN_READ) in ret tt else ret tt
  | _, _ => ret tt
  end.

Definition ResetBinlog (isNeedSetAcl : bool) : op Z :=
  let! o := self in
  let c := config_ (main o) in
  let! _ := sys (sqlite3_enable_binlog (file (main o)) None) in
  let! _ := SetBinlog in
  let! err := (if IsRowForSearch c then sys (sqlite3_clean_binlog (file (main o)) CLEAN_DONATED)
               else
                 let! err := sys (sqlite3_clean_binlog (file (main o)) CLEAN_ALL) in
                 let! _ := (if negb (err =? SQLITE_OK) then
                              let! _ := sys (sqlite3_enable_binlog (file (main o)) None) in invalidate
                            else ret tt) in
                 ret err) in
  let! _ := when isNeedSetAcl (sys_ (set_dir_gid (path c +:+ SUFFIX_BINLOG))) in
  ret err.

(** [BinlogOnErrFunc] and [BinlogOnFullFunc], which SQLite calls; [replay] is the callback that
    [GetReplayCallback] finds. *)
Definition BinlogOnErrFunc (dbPath : option string) w : W :=
  match dbPath with None => w | Some p => (SetSlaveInvalid p w).2 end.

Definition BinlogOnFullFunc (replay : option (W -> W)) (dbPath : option string) w : W :=
  match dbPath with
  | None => w
  | Some p => if IsSlaveInvalid p w || IsSlaveInterrupted p w then w else match replay with Some f => f w | None => w end
  end.

(** *** Checkpoints *)

(** The main part of [TryCheckPoint], on one handle. *)
Definition checkpoint (h : Handle) (timeout : bool) w : errno * W :=
  let size := GetFileSize (file h +:+ "-wal") w in
  if size <? 0 then (E_ERROR, w)
  else if size <=? RdbStoreConfig.startCheckpointSize_ (config_ h) then (E_OK, w)
  else if negb timeout && (size <? RdbStoreConfig.checkpointSize_ (config_ h)) then (E_INNER_WARNING, w)
  else
    let w1 := sqlite3_busy_timeout (file h) (if isSlave_ h && isSupportBinlog_ h then 0 else CHECKPOINT_TIME) w in
    let '(errCode, w2) := sqlite3_wal_checkpoint (file h) w1 in
    let w3 := sqlite3_busy_timeout (file h) DEFAULT_BUSY_TIMEOUT_MS w2 in
    (if errCode =? SQLITE_OK then E_OK else ErrNo errCode, w3).

(** [TryCheckPoint] of a replica. *)
Definition checkpoint_slave (h : Handle) (timeout : bool) w : errno * W :=
  if negb (isWriter_ h) || RdbStoreConfig.IsMemoryRdb (config_ h) then (E_NOT_SUPPORT, w) else checkpoint h timeout w.

Definition TryCheckPoint (timeout : bool) : op errno :=
  let! o := self in
  if negb (isWriter_ (main o)) || RdbStoreConfig.IsMemoryRdb (config_ (main o)) then ret E_NOT_SUPPORT
  else
    let! errCode := sys (checkpoint (main o) timeout) in
    let! _ := (match slaveConnection_ o, backupId_ o with
               | Some h, false =>
                   let! rc := sys (checkpoint_slave h timeout) in
                   when (bool_decide (rc = E_SQLITE_CORRUPT)) (DeleteCorruptSlave (path (config_ h)))
               | _, _ => ret tt
               end) in
    ret errCode.

(** *** Copies *)

(** The loop of [SqliteBackupStep]; [None] is [E_CANCEL]. *)
Fixpoint backup_loop (fuel : nat) (isRestore : bool) (sleepTime : Z) (dst src : string) : op (option Z) :=
  match fuel with
  | O => undefined
  | S fuel =>
      let! o := self in
      if negb isRestore && (bool_decide (status o = BACKUP_INTERRUPT) || bool_decide (status o = DB_CLOSING)) then ret None
      else
        let! rc := sys (sqlite3_backup_step dst src BACKUP_PAGES_PRE_STEP) in
        let! st := sys (interleave (status o)) in
        let! _ := set_status st in
        let! _ := when (0 <? sleepTime) (sys_ (sqlite3_sleep sleepTime)) in
        let! count := get (fun s => sqlite3_backup_pagecount dst src s.2) in
        if negb (count =? 0) && ((rc =? SQLITE_OK) || (rc =? SQLITE_BUSY) || (rc =? SQLITE_LOCKED))
        then backup_loop fuel isRestore sleepTime dst src
        else ret (Some rc)
  end.

Definition SqliteBackupStep (fuel : nat) (isRestore : bool) (dst src : string) : op (option Z) :=
  let! c := config in
  let! sleepTime := get (fun s =>
    if isRestore then if IsSlaveRestoring (path c) s.2 then RESTORE_PRE_WAIT_TIME else 0 else BACKUP_PRE_WAIT_TIME) in
  let! rc := backup_loop fuel isRestore sleepTime dst src in
  let! _ := sys_ (sqlite3_backup_finish dst src) in
  ret rc.

Definition SqliteBackupCheckpoint (isRestore : bool) : op errno :=
  let! c := config in
  let! rc := (if isRestore then TryCheckPoint true else let! h := slave in sys (checkpoint_slave h true)) in
  if negb isRestore && bool_decide (rc = E_SQLITE_CORRUPT) then
    let! h := slave in
    let! _ := DeleteCorruptSlave (path (config_ h)) in
    let! _ := set_status BACKUP_INTERRUPT in
    ret rc
  else if negb (is_ok rc) && (RdbStoreConfig.haMode_ c =? MANUAL_TRIGGER) then
    let! _ := when (negb isRestore) (set_status BACKUP_INTERRUPT) in
    ret E_OK
  else
    let! _ := set_status BACKUP_FINISHED in
    let! _ := sys_ (SetSlaveValid (path c)) in
    ret E_OK.

Definition SqliteNativeBackup (fuel : nat) (isRestore isNeedSetAcl : bool) : op errno :=
  let! o := self in
  let! h := slave in
  let c := config_ (main o) in
  let dbFrom := if isRestore then file (main o) else file h in
  let dbTo := if isRestore then file h else file (main o) in
  let! pBackup := sys (sqlite3_backup_init dbFrom dbTo) in
  if negb pBackup then let! _ := set_status UNDEFINED in ret E_OK
  else
    let! rc := SqliteBackupStep fuel isRestore dbFrom dbTo in
    let! files := get (fun s => GetDbFiles c s.2) in
    let! _ := when isNeedSetAcl (sys_ (set_gid (path c) files)) in
    if bool_decide (rc = Some SQLITE_DONE) then SqliteBackupCheckpoint isRestore
    else
      let! _ := (if isRestore then ret tt
                 else
                   let! h := slave in
                   let! _ := when (negb (bool_decide (rc = Some SQLITE_BUSY)) && negb (bool_decide (rc = Some SQLITE_LOCKED)))
                               (DeleteCorruptSlave (path (config_ h))) in
                   set_status BACKUP_INTERRUPT) in
      ret (match rc with None => E_CANCEL | Some rc => ErrNo rc end).

(** The loop of [SqliteNativeCorruptedBackup]. *)
Fixpoint copy_loop (fuel : nat) (dst src : string) : op Z :=
  match fuel with
  | O => undefined
  | S fuel =>
      let! rc := sys (sqlite3_backup_step dst src BACKUP_ALL_STEP) in
      let! count := get (fun s => sqlite3_backup_pagecount dst src s.2) in
      if negb (count =? 0) && ((rc =? SQLITE_OK) || (rc =? SQLITE_BUSY) || (rc =? SQLITE_LOCKED))
      then copy_loop fuel dst src else ret rc
  end.

Definition SqliteNativeCorruptedBackup (fuel : nat) : op errno :=
  let! o := self in
  let c := config_ (main o) in
  let slaveCfg := RdbStoreConfig.SetName (SqliteUtils.GetMasterBackupPath (RdbStoreConfig.name_ c))
                    (RdbStoreConfig.SetPath (SqliteUtils.GetMasterBackupPath (path c)) (GetSlaveRdbStoreConfig c)) in
  let! (err, slaveConn) := CreateSlaveConnection slaveCfg FORCE_OPEN in
  match slaveConn with
  | None => ret err
  | Some h =>
      let! pBackup := sys (sqlite3_backup_init (file h) (file (main o))) in
      if negb pBackup then let! _ := set_status UNDEFINED in ret E_OK
      else
        let! rc := copy_loop fuel (file h) (file (main o)) in
        let! _ := sys_ (sqlite3_backup_finish (file h) (file (main o))) in
        ret (if rc =? SQLITE_DONE then E_OK else ErrNo rc)
  end.

(** *** Verification *)

Definition VerifyOrCreateTempSlaveConnection (isForceRestore : bool) : op errno :=
  let! o := self in
  match slaveConnection_ o with
  | Some _ => ret E_OK
  | None =>
      if isForceRestore then
        let! (err, slaveConn) := CreateSlaveConnection (GetSlaveRdbStoreConfig (config_ (main o))) FORCE_OPEN in
        if negb (is_ok err) then ret err
        else
          let! _ := modify (fun o => match slaveConnection_ o with
                                     | None => {o with slaveConnection_ := slaveConn; isReleaseTempSlaveConn_ := true}
                                     | Some _ => o
                                     end) in
          ret E_OK
      else ret E_ALREADY_CLOSED
  end.

(** [std::get_if<int64_t>]. *)
Definition get_if_int (v : ValueObject) : option Z := match v with VInt z => Some z | _ => None end.

(** The text of an answer is "ok": numbers have other texts. *)
Definition answers_ok (v : ValueObject) : bool := match v with VString s => bool_decide (s = "ok") | _ => false end.

Definition VerifySlaveIntegrity (isForceRestore : bool) : op errno :=
  let! ret_ := VerifyOrCreateTempSlaveConnection isForceRestore in
  if negb (is_ok ret_) then ret ret_
  else
    let! o := self in
    let c := config_ (main o) in
    let slaveCfg := GetSlaveRdbStoreConfig c in
    let! bugInfo := get (fun s => Collect slaveCfg s.2) in
    let! interrupted := get (fun s => IsSlaveInterrupted (path c) s.2) in
    if interrupted then ret E_SQLITE_CORRUPT
    else
      let! h := slave in
      let! (err, obj) := query h TABLE_COUNT_SQL in
      if bool_decide (err = E_SQLITE_CORRUPT) || bool_decide (get_if_int obj = Some 0) then ret E_SQLITE_CORRUPT
      else
        let! mCount := (if dbHandle_ (main o) then
                          let! (_, obj) := query (main o) TABLE_COUNT_SQL in ret (default 0 (get_if_int obj))
                        else ret 0) in
        let! slaveSize := get (fun s =>
          let size := if IsSupportBinlog c s.2 then GetDecompressedSize (path slaveCfg) s.2 else 0 in
          if size =? 0 then default 0 (bugInfo !! "DB") else size) in
        if (SLAVE_INTEGRITY_CHECK_LIMIT <? slaveSize) && (mCount =? 0) then
          let! invalid := get (fun s => IsSlaveInvalid (path c) s.2) in
          ret (if invalid then E_SQLITE_CORRUPT else E_OK)
        else
          let! (err, obj) := query h INTEGRITY_CHECK in
          if is_ok err && negb (answers_ok obj) then
            let! _ := invalidate in ret E_SQLITE_CORRUPT
          else ret E_OK.

Definition IsDbVersionBelowSlave : op bool :=
  let! o := self in
  match slaveConnection_ o with
  | None => ret false
  | Some h =>
      let! (cRet, cObj) := query (main o) TABLE_COUNT_SQL in
      if bool_decide (cRet = E_SQLITE_CORRUPT) || bool_decide (get_if_int cObj = Some 0) then ret true
      else
        let! (_, cObj) := query (main o) PRAGMA_VERSION in
        match get_if_int cObj with
        | Some v => if v =? 0 then let! (_, cObj) := query h PRAGMA_VERSION in ret (0 <? default 0 (get_if_int cObj)) else ret false
        | None => let! (_, cObj) := query h PRAGMA_VERSION in ret (0 <? default 0 (get_if_int cObj))
        end
  end.

Definition ExchangeVerify (isRestore isForceRestore : bool) : op errno :=
  if isRestore then
    let! _ := ReplayBinlog false in
    let! err := VerifySlaveIntegrity isForceRestore in
    if negb (is_ok err) then ret err
    else
      let! below := IsDbVersionBelowSlave in
      if below then ret E_OK
      else if isForceRestore then ret E_OK
      else
        let! c := config in
        let! invalid := get (fun s => IsSlaveInvalid (path c) s.2) in
        ret (if invalid then E_SQLITE_CORRUPT else E_OK)
  else
    let! o := self in
    let p := path (config_ (main o)) in
    match slaveConnection_ o with
    | None => ret E_ALREADY_CLOSED
    | Some _ =>
        let! found := get (fun s => access p s.2) in
        if negb found then ret E_DB_NOT_EXIST
        else
          let! (cRet, cObj) := query (main o) QUICK_CHECK in
          if is_ok cRet && negb (answers_ok cObj) then ret E_SQLITE_CORRUPT
          else let! _ := sys (SetSlaveInterrupted p) in ret E_OK
    end.

Definition CheckReplicaForRestore (isForceRestore : bool) : op errno := ExchangeVerify true isForceRestore.

(** *** Backup, restore, repair *)

Definition ReleaseTempSlaveConnection : op unit :=
  modify (fun o => if isReleaseTempSlaveConn_ o then {o with slaveConnection_ := None; isReleaseTempSlaveConn_ := false} else o).

(** The error path: the temporary connection is released. *)
Definition release_with (err : errno) : op errno := let! _ := ReleaseTempSlaveConnection in ret err.

(** The part of [ExchangeSlaverToMaster] behind the verification. *)
Definition exchange_copy (fuel : nat) (isRestore verifyDb isForceRestore isNeedSetAcl : bool) : op errno :=
  let! c := config in
  let! err := (if isRestore && verifyDb && isForceRestore then SqliteNativeCorruptedBackup fuel else ret E_OK) in
  if negb (is_ok err) then release_with err
  else
    let! err := SqliteNativeBackup fuel isRestore isNeedSetAcl in
    if negb (is_ok err) then release_with err
    else
      let! _ := when (isRestore && isForceRestore) (sys_ (SetSlaveValid (path c))) in
      let! support := get (fun s => IsSupportBinlog c s.2) in
      let! _ := (if negb isRestore && support && negb (RdbStoreConfig.haMode_ c =? RdbStoreConfig.HA_SINGLE)
                 then let! _ := ResetBinlog isNeedSetAcl in ret tt else ret tt) in
      ret E_OK.

Definition ExchangeSlaverToMaster (fuel : nat) (isRestore verifyDb isForceRestore : bool) : op errno :=
  let! c := config in
  let! isNeedSetAcl := get (fun s => has_acl (path c) s.2 || has_acl (SqliteUtils.GetSlavePath (path c)) s.2) in
  let! _ := set_status BACKING_UP in
  let! err := (if verifyDb then ExchangeVerify isRestore isForceRestore else ret E_OK) in
  if negb (is_ok err) then
    let! _ := ReleaseTempSlaveConnection in
    let! _ := set_status UNDEFINED in
    ret err
  else exchange_copy fuel isRestore verifyDb isForceRestore isNeedSetAcl.

(** [Backup].  An asynchronous backup only starts the task [backup_task]. *)
Definition Backup (fuel : nat) (isAsync verifyDb : bool) : op errno :=
  let! o := self in
  if bool_decide (status o = BACKING_UP) then ret E_OK
  else if negb isAsync then
    let! errCode := (match slaveConnection_ o with
                     | Some _ => ret E_OK
                     | None =>
                         let! (errCode, conn) := CreateSlaveConnection (GetSlaveRdbStoreConfig (config_ (main o))) FORCE_OPEN in
                         let! _ := when (is_ok errCode) (set_slave conn) in
                         ret errCode
                     end) in
    if negb (is_ok errCode) then ret errCode else ExchangeSlaverToMaster fuel false verifyDb false
  else if backupId_ o then ret E_OK
  else
    let! executor := get (fun s => has_executor s.2) in
    let! _ := when executor (modify (fun o => {o with backupId_ := true})) in
    ret E_OK.

Definition Restore (fuel : nat) (isForceRestore : bool) : op errno := ExchangeSlaverToMaster fuel true true isForceRestore.

(** [InnerCreate] on a new connection. *)
Definition inner_create : op errno :=
  let! o := self in
  let c := config_ (main o) in
  let! (errCode, h) := open_handle (main o) in
  if negb (is_ok errCode) then ret errCode
  else
    let! _ := modify (fun o => {o with main := h}) in
    if isWriter_ h && negb (RdbStoreConfig.haMode_ c =? RdbStoreConfig.HA_SINGLE) then
      let slaveCfg := GetSlaveRdbStoreConfig c in
      let! (err, slaveConn) := CreateSlaveConnection slaveCfg OPEN_IF_DB_VALID in
      if negb (is_ok err) then ret E_OK
      else
        let! _ := set_slave slaveConn in
        let! _ := SetBinlog in
        let! leftover := get (fun s => negb (IsSupportBinlog c s.2) && access (GetBinlogFolderPath (path c)) s.2) in
        let! _ := (if leftover then
                     let! _ := invalidate in
                     let! _ := sys_ (remove_all (GetBinlogFolderPath (path c)) true) in
                     sys_ (Delete (path slaveCfg))
                   else ret tt) in
        ret E_OK
    else ret E_OK.

(** An operation of another connection, which is dropped behind it; the status is shared. *)
Definition on_other {A} (o : t) (m : op A) : op A := fun s =>
  match m (with_status (status s.1) o, s.2) with
  | Some (a, (o', w)) => Some (a, (with_status (status o') s.1, w))
  | None => None
  end.

(** The task of an asynchronous backup. *)
Definition backup_task (fuel : nat) : op unit :=
  let! c := config in
  let! err := on_other (new c true UNDEFINED)
    (let! err := inner_create in
     if negb (is_ok err) then ret err else let! _ := ExchangeSlaverToMaster fuel false true false in ret E_OK) in
  when (is_ok err) (modify (fun o => {o with backupId_ := false})).

(** The start of [Repair] and of [CheckReplicaIntegrity], on a new connection. *)
Definition check_replica : op errno :=
  let! c := config in
  let slaveCfg := GetSlaveRdbStoreConfig c in
  let! found := get (fun s => access (path slaveCfg) s.2) in
  if negb found then ret E_NOT_SUPPORT
  else
    let! (err, conn) := CreateSlaveConnection slaveCfg FORCE_OPEN in
    if negb (is_ok err) then ret err
    else
      let! _ := set_slave conn in
      let! support := get (fun s => IsSupportBinlog c s.2) in
      let! _ := when support (ReplayBinlogOf (path c) conn false) in
      VerifySlaveIntegrity false.

Definition repair (fuel : nat) : op errno :=
  let! err := check_replica in
  if negb (is_ok err) then ret err
  else
    let! o := self in
    let! _ := sys_ (Delete (path (config_ (main o)))) in
    let! (err, h) := open_handle (main o) in
    if negb (is_ok err) then ret err
    else
      let! _ := modify (fun o => {o with main := h}) in
      let! _ := TryCheckPoint true in
      let! _ := set_status UNDEFINED in
      ExchangeSlaverToMaster fuel true false false.

(** [Repair], [CheckReplicaIntegrity] and [Create]. *)
Definition Repair (fuel : nat) (c : Config) : run W errno := fun w =>
  match repair fuel (new c true UNDEFINED, w) with Some (e, (_, w')) => Some (e, w') | None => None end.

Definition CheckReplicaIntegrity (c : Config) : run W errno := fun w =>
  match check_replica (new c true UNDEFINED, w) with Some (e, (_, w')) => Some (e, w') | None => None end.

Definition Create (c : Config) (isWrite : bool) (st : SlaveStatus) : run W (errno * option t) := fun w =>
  match inner_create (new c isWrite st, w) with
  | Some (e, (o, w')) => Some ((e, if is_ok e then Some o else None), w')
  | None => None
  end.

(** [Interrupt], of both databases. *)
Definition Interrupt : op unit :=
  let! o := self in
  let! _ := sys_ (sqlite3_interrupt (file (main o))) in
  match slaveConnection_ o with Some h => sys_ (sqlite3_interrupt (file h)) | None => ret tt end.

(** *** The strategy *)

(** One comparison of [ExchangeCompareInTrigger]; [rest] is what it does when both are empty. *)
Definition compare_in_trigger (rest : op ExchangeStrategy) : op ExchangeStrategy :=
  let! o := self in
  let! h := slave in
  let! (sRet, sObj) := query h QUERY_TABLE_COUNT_SQL in
  if bool_decide (sRet = E_SQLITE_CORRUPT) then ret NOT_HANDLE
  else
    let! (mRet, mObj) := query (main o) QUERY_TABLE_COUNT_SQL in
    let! (mIdxRet, _) := query (main o) QUERY_INDEX_COUNT_SQL in
    if bool_decide (mRet = E_SQLITE_CORRUPT) || bool_decide (mIdxRet = E_SQLITE_CORRUPT) then ret RESTORE
    else if negb (Value.to_int64 mObj =? 0) then ret NOT_HANDLE
    else if 0 <? Value.to_int64 sObj then ret RESTORE
    else rest.

(** The call of itself is with [isReplayed], and so the last. *)
Definition ExchangeCompareInTrigger (isReplayed : bool) : op ExchangeStrategy :=
  compare_in_trigger
    (if isReplayed then ret NOT_HANDLE
     else
       let! o := self in
       let c := config_ (main o) in
       let! support := get (fun s => IsSupportBinlog c s.2) in
       if support then
         let! _ := ReplayBinlogOf (path c) (slaveConnection_ o) false in
         compare_in_trigger (ret NOT_HANDLE)
       else ret NOT_HANDLE).

Definition ExchangeCompareWithMainEmpty (isReplayed : bool) (sCountRes : errno * ValueObject) : op ExchangeStrategy :=
  if negb (bool_decide (sCountRes.1 = E_SQLITE_CORRUPT)) && (0 <? Value.to_int64 sCountRes.2) then ret RESTORE
  else if isReplayed then ret NOT_HANDLE
  else
    let! o := self in
    let c := config_ (main o) in
    let! replay := get (fun s => IsSupportBinlog c s.2 &&
      negb (IsUseAsyncRestore c (path c) (SqliteUtils.GetSlavePath (path c)) s.2)) in
    if replay then
      let! _ := ReplayBinlogOf (path c) (slaveConnection_ o) false in
      let! h := slave in
      let! (sRet, sObj) := query h QUERY_TABLE_COUNT_SQL in
      let! (_, mObj) := query (main o) QUERY_TABLE_COUNT_SQL in
      ret (if negb (bool_decide (sRet = E_SQLITE_CORRUPT)) && (Value.to_int64 mObj =? 0) && (0 <? Value.to_int64 sObj)
           then RESTORE else NOT_HANDLE)
    else ret NOT_HANDLE.

Definition CompareWithSlave (mCount mIdxCount : Z) (sCountRes sIdxCountRes : errno * ValueObject) : op ExchangeStrategy :=
  if bool_decide (sCountRes.1 = E_SQLITE_CORRUPT) || bool_decide (sIdxCountRes.1 = E_SQLITE_CORRUPT) then ret BACKUP
  else
    let! c := config in
    let! invalid := get (fun s => IsSlaveInvalid (path c) s.2) in
    ret (if (mCount =? Value.to_int64 sCountRes.2) && (mIdxCount =? Value.to_int64 sIdxCountRes.2) && negb invalid
         then NOT_HANDLE else BACKUP).

Definition GenerateExchangeStrategy (isReplay : bool) : op ExchangeStrategy :=
  let! o := self in
  let c := config_ (main o) in
  match slaveConnection_ o with
  | Some h =>
      if negb (dbHandle_ (main o)) || negb (dbHandle_ h) || (RdbStoreConfig.haMode_ c =? RdbStoreConfig.HA_SINGLE) ||
         bool_decide (status o = BACKING_UP) then ret NOT_HANDLE
      else if RdbStoreConfig.haMode_ c =? MANUAL_TRIGGER then ExchangeCompareInTrigger false
      else if bool_decide (status o = DB_CLOSING) then ret NOT_HANDLE
      else
        let! support := get (fun s => IsSupportBinlog c s.2) in
        let! _ := when (support && isReplay) (ReplayBinlogOf (path c) (Some h) false) in
        let! sCountRes := query h QUERY_TABLE_COUNT_SQL in
        let! sIdxCountRes := query h QUERY_INDEX_COUNT_SQL in
        let! (mRet, mObj) := query (main o) QUERY_TABLE_COUNT_SQL in
        let! (mIdxRet, mIdxObj) := query (main o) QUERY_INDEX_COUNT_SQL in
        let! st := get (fun s => status s.1) in
        if bool_decide (mRet = E_SQLITE_CORRUPT) || bool_decide (mIdxRet = E_SQLITE_CORRUPT) then ret RESTORE
        else if bool_decide (st = BACKUP_INTERRUPT) then ret BACKUP
        else if Value.to_int64 mObj =? 0 then ExchangeCompareWithMainEmpty isReplay sCountRes
        else
          let! support := get (fun s => IsSupportBinlog c s.2) in
          if support && negb isReplay then ret PENDING_BACKUP
          else CompareWithSlave (Value.to_int64 mObj) (Value.to_int64 mIdxObj) sCountRes sIdxCountRes
  | None => ret NOT_HANDLE
  end.

End Ops.
End SqliteConnection.


(** ** The store (rdb_store_impl.cpp) *)

Module ReplicaStore.
Import RdbStoreConfig SlaveMarks SqliteConnection.

(** The name of the replica as the store makes it: from the first [.db] in the path. *)
Definition GetSlaveName (path : string) : string :=
  match Str.find path ".db" 0 with
  | None => path +:+ "_slave.db"
  | Some pos => Str.substr path 0 pos +:+ "_slave.db"
  end.

Section Ops.
Context {W : Type} `{Disk W} `{Engine W}.
Abbreviation op := (run (t * W)).
Implicit Type w : W.

(** [TryGetMasterSlaveBackupPath]: the path of the replica when no path is given. *)
Definition TryGetMasterSlaveBackupPath (config : Config) (srcPath : string) (isRestore : bool) w : option string :=
  if negb (Str.empty srcPath) || (haMode_ config =? HA_SINGLE) || negb (dbType_ config =? DB_SQLITE) then None
  else
    let destPath := GetSlaveName (path_ config) in
    if isRestore && negb (access destPath w) then None else Some destPath.

Definition IsSlaveDiffFromMaster (config : Config) w : bool :=
  IsSlaveInvalid (path_ config) w || negb (access (SqliteUtils.GetSlavePath (path_ config)) w).

Definition GetBackupStatus (config : Config) (st : SlaveStatus) : SlaveStatus :=
  if negb (haMode_ config =? MANUAL_TRIGGER) && negb (haMode_ config =? MAIN_REPLICA) then UNDEFINED else st.

(** [InterruptBackup], on the writer of the pool; [open] says that there is a pool. *)
Definition InterruptBackup (open : bool) : op errno :=
  let! o := self in
  if negb (haMode_ (config_ (main o)) =? MANUAL_TRIGGER) then ret E_NOT_SUPPORT
  else if negb (bool_decide (status o = BACKING_UP)) then ret E_CANCEL
  else if negb open then ret E_ALREADY_CLOSED
  else
    let! _ := Interrupt in
    let! _ := set_status BACKUP_INTERRUPT in
    ret E_OK.

(** The task of [StartAsyncBackupIfNeed], on a connection of its own. *)
Definition async_backup_task (fuel : nat) (config : Config) : op unit :=
  let! o := self in
  if bool_decide (status o = DB_CLOSING) then ret tt
  else
    on_other (new (SetCreateNecessary false config) true UNDEFINED)
      (let! err := inner_create in
       if negb (is_ok err) then ret tt
       else
         let! strategy := GenerateExchangeStrategy true in
         let! o := self in
         if bool_decide (status o = DB_CLOSING) then ret tt
         else match strategy with
              | BACKUP => let! _ := Backup fuel false true in ret tt
              | _ => ret tt
              end).

End Ops.
End ReplicaStore.
