(* ===== verification/ReplicaSteps.v ===== *)
(** * The worlds that a backup or a restore goes through

    [Crash]: the instances of [Disk] and [Engine] for worlds with their history.  [ReplicaInv]: the documented behaviour of SQLite
    and of the files ([ReplicaLaws]), the names of the files, and what the operations of [SqliteConnection]
    do to the main database, to the replica and to its marks. *)
From Stdlib Require Import ZArith Lia Ascii.
From stdpp Require Import base gmap list strings pretty.
From coqutil Require Import Datatypes.RecordSetters.
Import OCamlLikeNotations.
From S2P Require Import Prelude Traces CppStd Errno Values StringUtils SqliteStmt StoreConfig StoreOpen Replica.

Local Open Scope Z_scope.
Import Run.
#[local] Arguments constant {E} newValue _ /.

Create HintDb calm.

(** ** The worlds of a replica with their history *)

Module Crash.
Export Traces.

Section Instances.
Context {W : Type} `{Disk W} `{Engine W}.

#[export] Instance traced_disk : Disk (traced W) := {|
  access p s := access p s.1;
  touch p := lift (touch p);
  unlink p := lift_ (unlink p);
  file_size p s := file_size p s.1;
  remove_all p b := lift_ (remove_all p b);
  entries p s := entries p s.1;
  has_acl p s := has_acl p s.1;
  set_gid p l := lift_ (set_gid p l);
  set_dir_gid p := lift_ (set_dir_gid p) |}.

#[export] Instance traced_engine : Engine (traced W) := {|
  InnerOpen h := lift (InnerOpen h);
  ExecuteForValue p q := lift (ExecuteForValue p q);
  sqlite3_backup_init d s := lift (sqlite3_backup_init d s);
  sqlite3_backup_step d s n := lift (sqlite3_backup_step d s n);
  sqlite3_backup_pagecount d s w := sqlite3_backup_pagecount d s w.1;
  sqlite3_backup_finish d s := lift_ (sqlite3_backup_finish d s);
  sqlite3_busy_timeout p n := lift_ (sqlite3_busy_timeout p n);
  sqlite3_wal_checkpoint p := lift (sqlite3_wal_checkpoint p);
  sqlite3_is_support_binlog p w := sqlite3_is_support_binlog p w.1;
  sqlite3_replay_binlog s d := lift (sqlite3_replay_binlog s d);
  sqlite3_clean_binlog p m := lift (sqlite3_clean_binlog p m);
  sqlite3_enable_binlog p m := lift (sqlite3_enable_binlog p m);
  sqlite3_open_v2 p := lift (sqlite3_open_v2 p);
  sqlite3_close_v2 p := lift_ (sqlite3_close_v2 p);
  sqlite3_sleep n := lift_ (sqlite3_sleep n);
  sqlite3_interrupt p := lift_ (sqlite3_interrupt p);
  page_count p w := page_count p w.1;
  interleave st := lift (interleave st);
  has_executor w := has_executor w.1 |}.

End Instances.
End Crash.

(** ** What SQLite and the files promise *)

Module ReplicaInv.
Import SlaveMarks SqliteConnection Crash SQLiteError.

(** The files of one database, without its marks. *)
Definition DB_SUFFIXES : list string :=
  [EmptyString; "-shm"; "-wal"; "-dwr"; "-journal"; "-compare"; "-walcompress"; "-journalcompress"; "-shmcompress"; "-lockcompress"].
Definition MARKS : list string := [SLAVE_FAILURE; SLAVE_INTERRUPT; SLAVE_RESTORE].

Definition part_of (p q : string) : Prop := exists s, s ∈ DB_SUFFIXES /\ q = p +:+ s.

(** The documented behaviour of SQLite and of the files.  [content p w] is what the database [p]
    holds; [tables] counts its tables and [sound] says that [PRAGMA integrity_check] has nothing
    to report; a query that fails gives no value.  A copy changes its destination only, and is complete when SQLite says
    [SQLITE_DONE].  A read changes nothing.  Nobody else writes to the two databases meanwhile
    ([sleep_law], [interleave_law]).  Opening
    creates an empty database when there is none.  Replaying the binary log changes the replica,
    and may call [BinlogOnErrFunc]. *)
Class ReplicaLaws (W C : Type) `{Disk W} `{Engine W} := {
  content : string -> W -> C;
  absent : C -> Prop;
  tables : C -> Z;
  sound : C -> Prop;
  quiet : relation W := fun w w' => (forall p, content p w' = content p w) /\
    (forall p m, m ∈ MARKS -> access (p +:+ m) w' = access (p +:+ m) w);
  value_law p q w r w' : ExecuteForValue p q w = (r, w') -> quiet w w';
  failed_law p q w e v w' : ExecuteForValue p q w = ((e, v), w') -> e <> E_OK -> v = VNil;
  count_law p q w v w' : q ∈ [QUERY_TABLE_COUNT_SQL; TABLE_COUNT_SQL] ->
    ExecuteForValue p q w = ((E_OK, v), w') -> v = VInt (tables (content p w));
  check_law p w v w' : ExecuteForValue p INTEGRITY_CHECK w = ((E_OK, v), w') -> answers_ok v = true -> sound (content p w);
  corrupt_law p q w v w' : ExecuteForValue p q w = ((E_SQLITE_CORRUPT, v), w') -> ~ sound (content p w);
  init_law d s w r w' : sqlite3_backup_init d s w = (r, w') -> quiet w w';
  finish_law d s w : quiet w (sqlite3_backup_finish d s w);
  timeout_law p n w : quiet w (sqlite3_busy_timeout p n w);
  checkpoint_law p w r w' : sqlite3_wal_checkpoint p w = (r, w') -> quiet w w';
  clean_law p m w r w' : sqlite3_clean_binlog p m w = (r, w') -> quiet w w';
  enable_law p m w r w' : sqlite3_enable_binlog p m w = (r, w') -> quiet w w';
  connect_law p w r w' : sqlite3_open_v2 p w = (r, w') -> quiet w w';
  close_law p w : quiet w (sqlite3_close_v2 p w);
  sleep_law n w : quiet w (sqlite3_sleep n w);
  interleave_law st w st' w' : interleave st w = (st', w') -> quiet w w' /\
    (st' = st \/ st' = DB_CLOSING \/ st = BACKING_UP /\ st' = BACKUP_INTERRUPT);
  gid_law p l w : quiet w (set_gid p l w);
  dir_gid_law p w : quiet w (set_dir_gid p w);
  open_law h w e w' : InnerOpen h w = (e, w') ->
    (forall p, p <> file h -> content p w' = content p w) /\
    (forall p m, m ∈ MARKS -> access (p +:+ m) w' = access (p +:+ m) w) /\
    (content (file h) w' = content (file h) w \/ absent (content (file h) w) /\ tables (content (file h) w') = 0);
  step_law d s n w rc w' : sqlite3_backup_step d s n w = (rc, w') ->
    (forall p, p <> d -> content p w' = content p w) /\
    (forall p m, m ∈ MARKS -> access (p +:+ m) w' = access (p +:+ m) w) /\
    (rc = SQLITE_DONE -> content d w' = content s w');
  replay_law s d w r w' : sqlite3_replay_binlog s d w = (r, w') ->
    (forall p, p <> d -> content p w' = content p w) /\
    (forall p m, m ∈ [SLAVE_INTERRUPT; SLAVE_RESTORE] -> access (p +:+ m) w' = access (p +:+ m) w);
  touch_law q w b w' : touch q w = (b, w') ->
    (forall p, ~ part_of p q -> content p w' = content p w) /\
    (forall r, r <> q -> access r w' = access r w) /\ (b = true -> access q w' = true);
  unlink_law q w :
    (forall p, ~ part_of p q -> content p (unlink q w) = content p w) /\
    (forall r, r <> q -> access r (unlink q w) = access r w) /\
    absent (content q (unlink q w)) /\
    (forall p, absent (content p w) -> absent (content p (unlink q w)));
  remove_law q b w :
    (forall p, String.prefix q p = false -> content p (remove_all q b w) = content p w /\ access p (remove_all q b w) = access p w)
}.

(** What the loops over the pages need to come to an end; they have no bound of their own.  It is
    not for SQLite to promise: a step that answers [SQLITE_OK] has copied pages and is not undone, since nobody
    writes to the source (a write would start the copy again), and whoever makes a step answer
    [SQLITE_BUSY] or [SQLITE_LOCKED] lets go of the database after a number of tries.  [work] is what is left
    of both, at most [limit]. *)
Class CopyProgress (W : Type) `{Disk W} `{Engine W} := {
  limit : nat;
  work : string -> string -> W -> nat;
  step_progress d s n w rc w' : n <> 0 -> sqlite3_backup_step d s n w = (rc, w') ->
    rc ∈ [SQLITE_OK; SQLITE_BUSY; SQLITE_LOCKED] -> (work d s w' < work d s w)%nat;
  sleep_progress n w d s : (work d s (sqlite3_sleep n w) <= work d s w)%nat;
  interleave_progress st w st' w' d s : interleave st w = (st', w') -> (work d s w' <= work d s w)%nat;
  work_law d s w : (work d s w <= limit)%nat
}.

(** *** Names of files *)

Lemma rfind_split pat s n : SqliteUtils.rfind pat s = Some n -> exists r, s = Str.take n s +:+ pat +:+ r /\ Str.size (Str.take n s) = n.
Proof.
  revert n. induction s as [|c s IH]; intros n Hn; cbn [SqliteUtils.rfind] in Hn.
  - destruct (String.prefix pat EmptyString) eqn:E; [|done]. injection Hn as <-. apply Str.prefix_app in E as [r Hr].
    exists r. split; [exact Hr|done].
  - destruct (SqliteUtils.rfind pat s) as [k|].
    + injection Hn as <-. destruct (IH k eq_refl) as (r & Hr & Hk). exists r. split; [|simpl; by f_equal].
      change (String c s = String c (Str.take k s +:+ pat +:+ r)). by f_equal.
    + destruct (String.prefix pat (String c s)) eqn:E; [|done]. injection Hn as <-. apply Str.prefix_app in E as [r Hr].
      exists r. split; [exact Hr|done].
Qed.

(** The names of the replica and of the copy that is kept of a damaged database. *)
Lemma slave_base m : exists b, (m = b \/ m = b +:+ ".db") /\
  SqliteUtils.GetSlavePath m = b +:+ "_slave.db" /\ SqliteUtils.GetMasterBackupPath m = b +:+ "_master_corrupted.db".
Proof.
  unfold SqliteUtils.GetSlavePath, SqliteUtils.GetMasterBackupPath.
  destruct (SqliteUtils.suffix_pos ".db" m) as [n|] eqn:E; [|exists m; auto].
  exists (Str.take n m). unfold Str.substr. simpl Str.drop. split; [|done]. right.
  unfold SqliteUtils.suffix_pos in E. destruct (SqliteUtils.rfind ".db" m) as [k|] eqn:Ek; [|done].
  destruct (Nat.ltb_spec k (Str.size m - Str.size ".db")) as [|Hge]; [done|]. injection E as ->.
  destruct (rfind_split _ _ _ Ek) as (r & Hr & Hn). rewrite Hr in Hge at 1. rewrite !Str.size_app, Hn in Hge.
  assert (r = EmptyString) as -> by (destruct r; [done|simpl in Hge; lia]). by rewrite Str.app_nil_r in Hr.
Qed.

(** A name that is made of the base of [m], against one that is made of [m]. *)
Lemma base_cancel m b x y : m = b \/ m = b +:+ ".db" -> b +:+ x = m +:+ y -> x = y \/ x = ".db" +:+ y.
Proof. intros [-> | ->] Heq; [left|right; rewrite Str.app_assoc in Heq]; by apply Str.app_cancel_l in Heq. Qed.

Section Names.
Context (m : string).
Abbreviation S := (SqliteUtils.GetSlavePath m).
Abbreviation B := (SqliteUtils.GetMasterBackupPath m).

Ltac by_base :=
  destruct (slave_base m) as (b & Hm & Hs & Hb); intros Heq; rewrite ?Hs, ?Hb, ?Str.app_assoc in Heq;
  destruct (base_cancel _ _ _ _ Hm Heq) as [Hx|Hx]; cbn in Hx; discriminate Hx.

Lemma slave_part x s : s ∈ DB_SUFFIXES ++ MARKS -> S +:+ x <> m +:+ s.
Proof. intros Hin. cbn [app DB_SUFFIXES MARKS] in Hin. repeat (apply elem_of_cons in Hin as [->|Hin]; [by_base|]). by apply not_elem_of_nil in Hin. Qed.

Lemma backup_part x s : s ∈ DB_SUFFIXES ++ MARKS -> B +:+ x <> m +:+ s.
Proof. intros Hin. cbn [app DB_SUFFIXES MARKS] in Hin. repeat (apply elem_of_cons in Hin as [->|Hin]; [by_base|]). by apply not_elem_of_nil in Hin. Qed.

Lemma slave_backup x y : S +:+ x <> B +:+ y.
Proof.
  destruct (slave_base m) as (b & Hm & Hs & Hb). rewrite Hs, Hb, !Str.app_assoc. intros Heq. by apply Str.app_cancel_l in Heq.
Qed.

(** The folder of the binary log. *)
Lemma folder_apart p : (exists y, p = m +:+ y /\ String.prefix "_binlog" y = false) \/ (exists y, p = S +:+ y) \/ (exists y, p = B +:+ y) ->
  String.prefix (GetBinlogFolderPath m) p = false.
Proof.
  intros Hp. destruct (String.prefix (GetBinlogFolderPath m) p) eqn:E; [|done]. apply Str.prefix_app in E as [r Hr].
  unfold GetBinlogFolderPath in Hr. rewrite Str.app_assoc in Hr.
  destruct Hp as [(y & -> & Hy)|[(y & ->)|(y & ->)]].
  - apply Str.app_cancel_l in Hr as ->. by rewrite (proj2 (Str.prefix_app _ _)) in Hy by eauto.
  - revert Hr. by_base.
  - revert Hr. by_base.
Qed.

End Names.

(** *** Steps that leave a database alone *)

(** The configuration of the owner of a database on disk. *)
Definition owned (c : Config) : Prop :=
  RdbStoreConfig.storageMode_ c = RdbStoreConfig.MODE_DISK /\ RdbStoreConfig.role_ c = RdbStoreConfig.OWNER /\
  DbPath.front_is_slash (path c) = true.

Lemma owned_file h : owned (config_ h) -> file h = path (config_ h).
Proof.
  intros (Hm & Hr & Hs). unfold file, DbPath.GetDbPath. rewrite Hm, Hr, Hs.
  assert (Str.empty (path (config_ h)) = false) as -> by (by destruct (path (config_ h))). done.
Qed.

Lemma slash_base m b x : m = b \/ m = b +:+ ".db" -> DbPath.front_is_slash m = true -> DbPath.front_is_slash (b +:+ x) = true.
Proof. by intros [-> | ->]; destruct b. Qed.

Lemma slave_owned c : owned c -> owned (GetSlaveRdbStoreConfig c).
Proof.
  intros (_ & _ & Hs). split; [done|]. split; [done|]. destruct (slave_base (path c)) as (b & Hm & Hb & _).
  change (path (GetSlaveRdbStoreConfig c)) with (SqliteUtils.GetSlavePath (path c)). rewrite Hb. by eapply slash_base.
Qed.

Section Steps.
Context {W C : Type} `{ReplicaLaws W C} `{!CopyProgress W} (cfg : Config) (Hcfg : owned cfg).
Abbreviation op := (run (t * traced W)).
Abbreviation M := (path cfg).
Abbreviation S := (SqliteUtils.GetSlavePath (path cfg)).
Abbreviation B := (SqliteUtils.GetMasterBackupPath (path cfg)).
Abbreviation slaveCfg := (GetSlaveRdbStoreConfig cfg).
Implicit Types (o : t) (w : W).

(** A database without a table, or none at all. *)
Definition blank (c : C) : Prop := absent c \/ tables c = 0.

(** The main database and the mark of an unfinished copy stay; the replica may get empty. *)
Definition calm : relation W := fun w w' =>
  content M w' = content M w /\ IsSlaveInterrupted M w' = IsSlaveInterrupted M w /\
  (content S w' = content S w \/ blank (content S w')).

(** Both databases and the mark stay. *)
Definition hush : relation W := fun w w' =>
  content M w' = content M w /\ IsSlaveInterrupted M w' = IsSlaveInterrupted M w /\ content S w' = content S w.

(** The main database and the mark stay. *)
Definition tame : relation W := fun w w' => content M w' = content M w /\ IsSlaveInterrupted M w' = IsSlaveInterrupted M w.

Lemma hush_calm w w' : hush w w' -> calm w w'.
Proof. intros (? & ? & ?). split; [done|]. split; [done|by left]. Qed.

Lemma calm_tame w w' : calm w w' -> tame w w'.
Proof. intros (? & ? & _). by split. Qed.

(** A connection to the main database, with a connection to its replica if it has one. *)
Definition tied o : Prop :=
  config_ (main o) = cfg /\ forall h, slaveConnection_ o = Some h -> config_ h = slaveCfg.

(** The connection keeps the main database and the status, and at most loses the replica. *)
Definition still : relation t := fun o o' =>
  main o' = main o /\ status o' = status o /\ (slaveConnection_ o' = slaveConnection_ o \/ slaveConnection_ o' = None).

#[export] Instance still_preorder : PreOrder still.
Proof.
  split; [by intros o; split; [|split; [|left]]|]. intros o1 o2 o3 (Hm & Hs & Hc) (Hm' & Hs' & Hc').
  split; [congruence|]. split; [congruence|]. destruct Hc' as [Hc'|Hc']; [rewrite Hc'; destruct Hc; auto|by right].
Qed.

Lemma still_tied o o' : still o o' -> tied o -> tied o'.
Proof.
  intros (Hm & _ & Hc) [Ht Hh]. split; [by rewrite Hm|]. intros h Hs. apply Hh. destruct Hc as [<-|Hc]; [done|congruence].
Qed.

(** A relation that holds for all quiet steps. *)
Class Mild (T : relation W) := { mild_pre :: PreOrder T; mild_quiet w w' : quiet w w' -> T w w' }.

Lemma quiet_mark w w' : quiet w w' -> IsSlaveInterrupted M w' = IsSlaveInterrupted M w.
Proof. intros [_ Hm]. apply Hm. set_solver. Qed.

#[export] Instance quiet_mild : Mild quiet.
Proof.
  split; [|done]. split; [by intros w; split|]. intros w1 w2 w3 [Hc Hm] [Hc' Hm'].
  split; intros; [by rewrite Hc', Hc|by rewrite Hm', Hm].
Qed.

#[export] Instance hush_mild : Mild hush.
Proof.
  split; [|intros w w' Hq; split; [apply Hq|]; split; [by apply quiet_mark|apply Hq]].
  split; [by intros w|]. intros w1 w2 w3 (? & ? & ?) (? & ? & ?). repeat split; congruence.
Qed.

#[export] Instance calm_mild : Mild calm.
Proof.
  split; [|intros w w' Hq; split; [apply Hq|]; split; [by apply quiet_mark|left; apply Hq]].
  split; [by intros w; split; [|split; [|left]]|]. intros w1 w2 w3 (Hc & Hm & Hs) (Hc' & Hm' & Hs').
  split; [congruence|]. split; [congruence|]. destruct Hs' as [Hs'|Hs']; [rewrite Hs'; destruct Hs; auto|by right].
Qed.

#[export] Instance tame_mild : Mild tame.
Proof.
  split; [|intros w w' Hq; split; [apply Hq|by apply quiet_mark]].
  split; [by intros w; split|]. intros w1 w2 w3 [? ?] [? ?]. split; congruence.
Qed.

(** The operation gives an answer, and goes through worlds that [T] allows. *)
Definition calms {A} (T : relation W) (m : op A) : Prop := forall o w, tied o ->
  through (T w) m (fun _ o' w' => still o o' /\ T w w') o w.

Section Structure.
Context (T : relation W) `{!Mild T}.

Lemma th_step {A B} (m : op A) (k : A -> op B) (Q : B -> t -> W -> Prop) o w w0 (R : A -> t -> W -> Prop) :
  T w0 w -> through (T w) m (fun a o' w' => T w w' /\ R a o' w') o w ->
  (forall a o' w', T w0 w' -> R a o' w' -> through (T w0) (k a) Q o' w') -> through (T w0) (bind m k) Q o w.
Proof.
  intros Hw0 Hm Hk. apply th_bind. eapply th_mono.
  - eapply th_weaken; [|exact Hm]. intros w' Hw'. by etrans.
  - intros a o' w' [Hw' HR]. apply Hk; [by etrans|done].
Qed.

Lemma calms_ret {A} (a : A) : calms T (ret a).
Proof. intros o w _. apply th_ret. split; reflexivity. Qed.

Lemma calms_bind {A B} (m : op A) (k : A -> op B) : calms T m -> (forall a, calms T (k a)) -> calms T (bind m k).
Proof.
  intros Hm Hk o w Ht. apply th_bind. eapply th_mono; [by apply Hm|]. intros a o1 w1 [Hs1 Hw1].
  eapply th_mono; [eapply th_weaken; [|apply Hk; by eapply still_tied]|].
  - intros w' Hw'. by etrans.
  - intros b o2 w2 [Hs2 Hw2]. split; by etrans.
Qed.

Lemma calms_self {A} (k : t -> op A) : (forall o, tied o -> calms T (k o)) -> calms T (bind self k).
Proof. intros Hk o w Ht. apply th_bind, th_get. intros tr. by apply Hk. Qed.

Lemma calms_config {A} (k : Config -> op A) : calms T (k cfg) -> calms T (bind config k).
Proof. intros Hk o w Ht. apply th_bind, th_get. intros tr. simpl. rewrite (proj1 Ht). by apply Hk. Qed.

Lemma calms_get {A} (f : t * traced W -> A) : calms T (get f).
Proof. intros o w _. apply th_get. intros tr. split; reflexivity. Qed.

Lemma calms_modify f : (forall o, still o (f o)) -> calms T (modify f).
Proof. intros Hf o w _. apply th_modify. split; [apply Hf|reflexivity]. Qed.

Lemma calms_sys {A} (f : W -> A * W) : (forall w a w', f w = (a, w') -> T w w') -> calms T (sys (lift f)).
Proof. intros Hf o w _. apply th_sys. intros a w' Hw. specialize (Hf _ _ _ Hw). split; [done|]. split; [reflexivity|done]. Qed.

Lemma calms_sys_ (f : W -> W) : (forall w, T w (f w)) -> calms T (sys_ (lift_ f)).
Proof. intros Hf o w _. apply th_sys_; [apply Hf|]. split; [reflexivity|apply Hf]. Qed.

Lemma calms_when b m : calms T m -> calms T (when b m).
Proof. intros Hm. destruct b; [done|]. apply calms_ret. Qed.

(** Two changes of the world in one. *)
Lemma calms_then_ (f : W -> W) (g : traced W -> traced W) :
  (forall w, T w (f w)) -> calms T (sys_ g) -> calms T (sys_ (fun s => g (lift_ f s))).
Proof.
  intros Hf Hg o w Ht. apply th_sys_bind_; [apply Hf|]. eapply th_mono; [eapply th_weaken; [|by apply Hg]|].
  - intros w' Hw'. etrans; [apply Hf|done].
  - intros [] o' w' [Ho Hw']. split; [done|]. etrans; [apply Hf|done].
Qed.

End Structure.

Lemma calms_weaken {A} (T T' : relation W) (m : op A) : (forall w w', T w w' -> T' w w') -> calms T m -> calms T' m.
Proof.
  intros HT Hm o w Ht. eapply th_mono; [eapply th_weaken; [apply HT|by apply Hm]|].
  intros a o' w' [Ho Hw]. split; [done|by apply HT].
Qed.

Lemma calms_calm {A} (m : op A) : calms hush m -> calms calm m.
Proof. apply calms_weaken, hush_calm. Qed.

Lemma calms_tame {A} (m : op A) : calms calm m -> calms tame m.
Proof. apply calms_weaken, calm_tame. Qed.

(** *** The calls *)

Section Calls.
Context (T : relation W) `{!Mild T}.

Lemma calms_query h q : calms T (query h q).
Proof. apply calms_sys. intros w a w' Hw. by eapply mild_quiet, value_law. Qed.

Lemma calms_enable p m : calms T (sys (sqlite3_enable_binlog p m)).
Proof. apply calms_sys. intros w a w' Hw. by eapply mild_quiet, enable_law. Qed.

Lemma calms_clean p m : calms T (sys (sqlite3_clean_binlog p m)).
Proof. apply calms_sys. intros w a w' Hw. by eapply mild_quiet, clean_law. Qed.

Lemma calms_connect p : calms T (sys (sqlite3_open_v2 p)).
Proof. apply calms_sys. intros w a w' Hw. by eapply mild_quiet, connect_law. Qed.

Lemma calms_close p : calms T (sys_ (sqlite3_close_v2 p)).
Proof. apply calms_sys_. intros w. apply mild_quiet, close_law. Qed.

Lemma calms_gid p l : calms T (sys_ (set_gid p l)).
Proof. apply calms_sys_. intros w. apply mild_quiet, gid_law. Qed.

Lemma calms_dir_gid p : calms T (sys_ (set_dir_gid p)).
Proof. apply calms_sys_. intros w. apply mild_quiet, dir_gid_law. Qed.

Lemma calms_init d s : calms T (sys (sqlite3_backup_init d s)).
Proof. apply calms_sys. intros w a w' Hw. by eapply mild_quiet, init_law. Qed.

Lemma calms_finish d s : calms T (sys_ (sqlite3_backup_finish d s)).
Proof. apply calms_sys_. intros w. apply mild_quiet, finish_law. Qed.

(** A checkpoint, which is two timeouts around one call. *)
Lemma calms_checkpoint h timeout : calms T (sys (checkpoint h timeout)).
Proof.
  intros o w Ht tr. unfold wp, sys, checkpoint. simpl.
  assert ((exists ws, tr = ws ++ tr /\ Forall (T w) ws) /\ still o o /\ T w w) as Hnone.
  { split; [by exists []|]. split; reflexivity. }
  destruct (_ <? 0); [exact Hnone|]. destruct (_ <=? _); [exact Hnone|]. destruct (_ && _); [exact Hnone|].
  unfold lift_, lift. simpl. destruct (sqlite3_wal_checkpoint _ _) as [r w2] eqn:E. simpl.
  set (w1 := sqlite3_busy_timeout _ _ w) in *.
  assert (T w w1) as Hw1 by apply mild_quiet, timeout_law.
  assert (T w w2) as Hw2 by (etrans; [exact Hw1|by eapply mild_quiet, checkpoint_law]).
  assert (T w (sqlite3_busy_timeout (file h) DEFAULT_BUSY_TIMEOUT_MS w2)) as Hw3 by (etrans; [exact Hw2|apply mild_quiet, timeout_law]).
  split; [|by split; [reflexivity|]]. exists [sqlite3_busy_timeout (file h) DEFAULT_BUSY_TIMEOUT_MS w2; w2; w1]. by repeat constructor.
Qed.

Lemma calms_checkpoint_slave h timeout : calms T (sys (checkpoint_slave h timeout)).
Proof.
  unfold checkpoint_slave. destruct (_ || _); [|apply calms_checkpoint].
  intros o w _ tr. split; [by exists []|]. split; reflexivity.
Qed.

(** A mark: written once. *)
Lemma calms_mark p : (forall w b w', touch p w = (b, w') -> T w w') -> calms T (sys (set_mark p)).
Proof.
  intros Hp o w _ tr. unfold wp, sys, set_mark. simpl. destruct (access p w) eqn:E.
  { split; [by exists []|]. split; reflexivity. }
  unfold lift. simpl. destruct (touch p w) as [b w'] eqn:Et. specialize (Hp _ _ _ Et).
  split; [exists [w']; by repeat constructor|]. split; [reflexivity|done].
Qed.

End Calls.

Lemma mark_not_part p m : m ∈ MARKS -> ~ part_of p (p +:+ m).
Proof.
  intros Hm (s & Hs & Heq). apply Str.app_cancel_l in Heq as <-. apply (bool_decide_eq_true_2 _) in Hs.
  cbn [MARKS] in Hm. repeat (apply elem_of_cons in Hm as [->|Hm]; [vm_compute in Hs; discriminate Hs|]). by apply not_elem_of_nil in Hm.
Qed.

Lemma mark_not_slave m : m ∈ MARKS -> ~ part_of S (M +:+ m).
Proof. intros Hm (s & Hs & Heq). symmetry in Heq. revert Heq. apply slave_part. set_solver. Qed.

Lemma hush_invalid w b w' : touch (M +:+ SLAVE_FAILURE) w = (b, w') -> hush w w'.
Proof.
  intros Hw. destruct (touch_law _ _ _ _ Hw) as (Hc & Ha & _). assert (SLAVE_FAILURE ∈ MARKS) by set_solver.
  split; [apply Hc; by apply mark_not_part|]. split; [|apply Hc; by apply mark_not_slave].
  apply Ha. intros Heq. by apply Str.app_cancel_l in Heq.
Qed.

Lemma calms_invalidate : calms hush invalidate.
Proof.
  apply calms_config. apply calms_bind; try apply _; [|intros ?; apply calms_ret; apply _].
  apply calms_mark; [apply _|]. apply hush_invalid.
Qed.

(** The files beside the main database. *)
Definition beside (p : string) : Prop := p = S \/ p = B.

Lemma beside_main p x s : beside p -> s ∈ DB_SUFFIXES ++ MARKS -> p +:+ x <> M +:+ s.
Proof. intros [-> | ->]; [apply slave_part|apply backup_part]. Qed.

Lemma beside_ne p : beside p -> p <> M.
Proof.
  intros Hp Heq. apply (beside_main p EmptyString EmptyString Hp); [set_solver|]. by rewrite !Str.app_nil_r.
Qed.

Lemma unlink_beside p x w : beside p -> tame w (unlink (p +:+ x) w).
Proof.
  intros Hp. destruct (unlink_law (p +:+ x) w) as (Hc & Ha & _). split.
  - apply Hc. intros (s & Hs & Heq). revert Heq. apply beside_main; [done|]. set_solver.
  - apply Ha. apply not_eq_sym, beside_main; [done|]. set_solver.
Qed.

Lemma unlink_slave x w : absent (content S w) \/ x = EmptyString -> absent (content S (unlink (S +:+ x) w)).
Proof.
  destruct (unlink_law (S +:+ x) w) as (_ & _ & Hq & Hp). intros [Ha|Hx]; [by apply Hp|]. subst x.
  by rewrite Str.app_nil_r in *.
Qed.

Lemma calm_unlink p x w : beside p -> (p = S -> absent (content S w) \/ x = EmptyString) -> calm w (unlink (p +:+ x) w).
Proof.
  intros Hp Ha. destruct (unlink_beside p x w Hp) as [Hc Hm]. split; [done|]. split; [done|]. destruct Hp as [-> | ->].
  - right. left. by apply unlink_slave, Ha.
  - left. apply unlink_law. intros (s & _ & Heq). symmetry in Heq. revert Heq. apply slave_backup.
Qed.

Definition delete_files (p : string) (l : list (string * option string)) (s : traced W) : traced W :=
  fold_left (fun (w : traced W) '(x, _) => unlink (p +:+ x) w) l s.

(** Deleting files one by one: the first one of a replica is the database itself. *)
Lemma th_delete p l o w w0 : beside p -> calm w0 w -> (p = S -> absent (content S w) \/ head l.*1 = Some EmptyString) ->
  through (calm w0) (sys_ (delete_files p l)) (fun _ o' w' => still o o' /\ calm w0 w') o w.
Proof.
  intros Hp. revert w. induction l as [|[x d] l IH]; intros w Hw Ha.
  { intros tr. split; [by exists []|]. split; [reflexivity|done]. }
  assert (p = S -> absent (content S w) \/ x = EmptyString) as Hx by (intros Heq; destruct (Ha Heq) as [|[= ->]]; auto).
  assert (calm w0 (unlink (p +:+ x) w)) as Hw1 by (etrans; [exact Hw|by apply calm_unlink]).
  apply (th_sys_bind_ (calm w0) (unlink (p +:+ x)) (delete_files p l)); [done|]. apply IH; [done|].
  intros Heq. left. subst p. by apply unlink_slave, Hx.
Qed.

Lemma calms_delete p : beside p -> calms calm (sys_ (Delete p)).
Proof. intros Hp o w _. apply (th_delete p FILE_SUFFIXES); [done|reflexivity|by right]. Qed.

Lemma calms_remove b : calms calm (sys_ (remove_all (GetBinlogFolderPath M) b)).
Proof.
  apply calms_sys_; try apply _. intros w. pose proof (remove_law (GetBinlogFolderPath M) b w) as Hr.
  assert (forall p, (exists y, p = M +:+ y /\ String.prefix "_binlog" y = false) \/ (exists y, p = S +:+ y) ->
    content p (remove_all (GetBinlogFolderPath M) b w) = content p w /\
    access p (remove_all (GetBinlogFolderPath M) b w) = access p w) as Hp.
  { intros p Hp. apply Hr, folder_apart. destruct Hp; auto. }
  split; [apply Hp; left; exists EmptyString; by rewrite Str.app_nil_r|].
  split; [apply Hp; left; by exists SLAVE_INTERRUPT|left; apply Hp; right; exists EmptyString; by rewrite Str.app_nil_r].
Qed.

Hint Resolve calms_ret calms_get calms_query calms_enable calms_clean calms_connect calms_close calms_gid calms_dir_gid
  calms_init calms_finish calms_checkpoint calms_checkpoint_slave calms_invalidate calms_delete calms_remove calms_calm calms_tame : calm.

Ltac calming :=
  repeat first
    [ solve [eauto with calm typeclass_instances]
    | apply calms_self; try apply _; intros ? ?
    | apply calms_config; try apply _
    | apply calms_bind; try apply _; [|intros ?]
    | apply calms_when; try apply _
    | apply calms_modify; try apply _; intros ?; by repeat split; auto
    | case_match ].

Lemma calms_set_slave : calms calm (set_slave None).
Proof. apply calms_modify; try apply _. intros o. by split; [|split; [|right]]. Qed.
Hint Resolve calms_set_slave : calm.

Lemma calms_delete_corrupt p : beside p -> calms calm (DeleteCorruptSlave p).
Proof. intros Hp. unfold DeleteCorruptSlave. apply calms_self; try apply _. intros o [-> _]. calming. Qed.

(** A replica that is opened, at its own path or at that of the copy of a damaged database. *)
Lemma open_beside h w e w' : beside (file h) -> InnerOpen h w = (e, w') -> calm w w'.
Proof.
  intros Hh Hw. destruct (open_law _ _ _ _ Hw) as (Hc & Hm & Ho).
  split; [apply Hc, not_eq_sym, beside_ne; done|]. split; [apply Hm; set_solver|].
  destruct (decide (S = file h)) as [Heq|Hne]; [|left; by apply Hc].
  rewrite Heq. destruct Ho as [Ho|[_ Ho]]; [by left|right; by right].
Qed.

Lemma calms_open h : beside (file h) -> calms calm (open_handle h).
Proof.
  intros Hh. unfold open_handle. apply calms_bind; try apply _; [|calming].
  apply calms_sys; try apply _. intros w e w'. by apply open_beside.
Qed.
Hint Resolve calms_delete_corrupt calms_open : calm.

Lemma calms_create sc policy : beside (path sc) -> (DbPath.GetDbPath sc).2 = path sc -> calms calm (CreateSlaveConnection sc policy).
Proof.
  intros Hp Hf. unfold CreateSlaveConnection. assert (forall b, beside (file {handle sc true true with isSupportBinlog_ := b})) as Hh.
  { intros b. unfold file. simpl. by rewrite Hf. }
  calming.
Qed.

Lemma calms_create_slave policy : calms calm (CreateSlaveConnection slaveCfg policy).
Proof. apply calms_create; [by left|]. apply (owned_file (handle slaveCfg true true)), slave_owned, Hcfg. Qed.

Lemma calms_reset acl : calms hush (ResetBinlog acl).
Proof. unfold ResetBinlog, SetBinlog. calming. Qed.

Lemma slave_file o h : tied o -> slaveConnection_ o = Some h -> file h = S.
Proof. intros [_ Ht] Hs. rewrite (owned_file h); rewrite (Ht _ Hs); [done|by apply slave_owned]. Qed.

Lemma main_file o : tied o -> file (main o) = M.
Proof. intros [Ht _]. rewrite (owned_file (main o)); by rewrite Ht. Qed.

(** Replaying the log into the replica. *)
Lemma calms_replay src : calms tame (ReplayBinlogSqlite src S).
Proof.
  unfold ReplayBinlogSqlite. apply calms_bind; try apply _; [|calming]. apply calms_sys; try apply _. intros w r w' Hw.
  destruct (replay_law _ _ _ _ _ Hw) as [Hc Hm]. split; [apply Hc, not_eq_sym, beside_ne; by left|]. apply Hm. set_solver.
Qed.

Lemma calms_replay_of h clean : file h = S -> calms tame (ReplayBinlogOf M (Some h) clean).
Proof.
  intros Hh. unfold ReplayBinlogOf. rewrite Hh. pose proof (calms_replay M). unfold SetSlaveInvalid.
  assert (calms hush (sys (set_mark (M +:+ SLAVE_FAILURE)))) by (apply calms_mark; [apply _|]; apply hush_invalid).
  calming.
Qed.

Lemma calms_replay_binlog chk : calms tame (ReplayBinlog chk).
Proof.
  unfold ReplayBinlog. apply calms_self; try apply _. intros o Ht. pose proof (main_file o Ht) as Hm. rewrite (proj1 Ht).
  apply calms_bind; try apply _; [calming|]. intros [[b1 b2] n]. destruct b1; [|calming].
  destruct (slaveConnection_ o) as [h|] eqn:Eh; [|calming]. rewrite Hm, (slave_file o h) by done.
  pose proof (calms_replay M). calming.
Qed.

(** *** Answers *)

Lemma th_calms {A X} T (m : op A) (k : A -> op X) (J : W -> Prop) Q o w : calms T m -> tied o -> (forall w', T w w' -> J w') ->
  (forall a o' w', still o o' -> T w w' -> through J (k a) Q o' w') -> through J (bind m k) Q o w.
Proof.
  intros Hm Ht HJ Hk. apply th_bind. eapply th_mono; [eapply th_weaken; [exact HJ|by apply Hm]|].
  intros a o' w' [Ho Hw]. by apply Hk.
Qed.

(** A call of the world does not change the connection. *)
Lemma th_call {A} T (f : traced W -> A * traced W) o w : calms T (sys f) -> tied o ->
  through (T w) (sys f) (fun _ o' w' => o' = o /\ T w w') o w.
Proof.
  intros Hf Ht tr. specialize (Hf o w Ht tr). unfold wp, sys in *. simpl in *. destruct (f (w, tr)) as [a s].
  destruct Hf as [Hws [_ Hw]]. auto.
Qed.

Lemma th_call_ T (f : traced W -> traced W) o w : calms T (sys_ f) -> tied o ->
  through (T w) (sys_ f) (fun _ o' w' => o' = o /\ T w w') o w.
Proof. intros Hf Ht tr. specialize (Hf o w Ht tr) as [Hws [_ Hw]]. by split. Qed.

(** Operations that do not change the connection. *)
Definition inert {A} (m : op A) : Prop := forall s a s', m s = Some (a, s') -> s'.1 = s.1.

Lemma inert_ret {A} (a : A) : inert (ret a).
Proof. by intros s a' s' [= _ <-]. Qed.

Lemma inert_get {A} (f : t * traced W -> A) : inert (get f).
Proof. by intros s a' s' [= _ <-]. Qed.

Lemma inert_sys {A} (f : traced W -> A * traced W) : inert (sys f).
Proof. intros s a s' E. unfold sys in E. destruct (f s.2). by injection E as _ <-. Qed.

Lemma inert_sys_ (f : traced W -> traced W) : inert (sys_ f).
Proof. by intros s a s' [= _ <-]. Qed.

Lemma inert_bind {A X} (m : op A) (k : A -> op X) : inert m -> (forall a, inert (k a)) -> inert (bind m k).
Proof.
  intros Hm Hk s x s' E. unfold bind in E. destruct (m s) as [[a s1]|] eqn:Em; [|done].
  rewrite (Hk _ _ _ _ E). by eapply Hm.
Qed.

Lemma th_inert {A} (I : W -> Prop) (m : op A) (Q : A -> t -> W -> Prop) o w :
  inert m -> through I m Q o w -> through I m (fun a o' w' => o' = o /\ Q a o' w') o w.
Proof.
  intros Hi Hm tr. specialize (Hm tr). unfold wp in *. destruct (m _) as [[a s]|] eqn:E; [|done].
  destruct Hm as [? ?]. split; [done|]. split; [by apply Hi in E|done].
Qed.

(** What an operation answers, whatever the world. *)
Definition returns {A} (m : op A) (P : A -> Prop) : Prop := forall s a s', m s = Some (a, s') -> P a.

Lemma returns_ret {A} (a : A) (P : A -> Prop) : P a -> returns (ret a) P.
Proof. by intros HP s a' s' [= <- _]. Qed.

Lemma returns_bind {A X} (m : op A) (k : A -> op X) (P : A -> Prop) Q :
  returns m P -> (forall a, P a -> returns (k a) Q) -> returns (bind m k) Q.
Proof. intros Hm Hk s x s' E. unfold bind in E. destruct (m s) as [[a s1]|] eqn:Em; [|done]. eapply Hk; [by eapply Hm|done]. Qed.

Lemma returns_any {A} (m : op A) : returns m (fun _ => True).
Proof. done. Qed.

Lemma th_returns {A} (I : W -> Prop) (m : op A) (Q : A -> t -> W -> Prop) (P : A -> Prop) o w :
  through I m Q o w -> returns m P -> through I m (fun a o' w' => Q a o' w' /\ P a) o w.
Proof.
  intros Hm HP tr. specialize (Hm tr). unfold wp in *. destruct (m _) as [[a s]|] eqn:E; [|done].
  destruct Hm as [? ?]. split; [done|]. split; [done|]. by eapply HP.
Qed.

Definition new_slave (sc : Config) (x : errno * option Handle) : Prop :=
  match x.2 with Some h => x.1 = E_OK /\ config_ h = sc /\ dbHandle_ h = true | None => x.1 <> E_OK end.

Lemma create_answer sc policy : returns (CreateSlaveConnection sc policy) (new_slave sc).
Proof.
  assert (forall b, returns (open_handle {handle sc true true with isSupportBinlog_ := b})
    (fun x => x.1 = E_OK -> new_slave sc (x.1, Some x.2))) as Hopen.
  { intros b. unfold open_handle. eapply returns_bind; [apply returns_any|]. intros e _. apply returns_ret.
    intros He. simpl in He. subst e. done. }
  unfold CreateSlaveConnection. eapply returns_bind; [apply returns_any|]. intros c _.
  eapply returns_bind; [apply returns_any|]. intros [[[[? ?] ?] ?] ?] _. destruct (_ && _).
  { eapply returns_bind; [apply returns_any|]. intros _ _. by apply returns_ret. }
  eapply returns_bind; [apply Hopen|]. intros [e h] He. simpl in He. destruct (is_ok e) eqn:Ee.
  { apply returns_ret. by apply He, is_ok_true. }
  apply is_ok_false in Ee. eapply returns_bind; [apply returns_any|]. intros _ _. destruct (bool_decide _); [|by apply returns_ret].
  eapply returns_bind; [apply returns_any|]. intros _ _. destruct (_ =? _); [by apply returns_ret|].
  eapply returns_bind; [apply Hopen|]. intros [e' h'] He'. simpl in He'. apply returns_ret.
  destruct (is_ok e') eqn:Ee'; [by apply He', is_ok_true|by apply is_ok_false].
Qed.

(** [slaveConnection_] of a connection that has one. *)
Lemma th_slave {A} (k : Handle -> op A) J Q h o w : slaveConnection_ o = Some h -> through J (k h) Q o w -> through J (bind slave k) Q o w.
Proof. intros Hh Hk. apply th_bind. unfold slave. apply th_bind, th_get. intros tr. simpl. rewrite Hh. by apply th_ret. Qed.

Lemma th_config {A} (k : Config -> op A) J Q o w : tied o -> through J (k cfg) Q o w -> through J (bind config k) Q o w.
Proof. intros Ht Hk. apply th_bind, th_get. intros tr. simpl. by rewrite (proj1 Ht). Qed.

Lemma th_status {A} (k : unit -> op A) J Q st o w :
  through J (k tt) Q (with_status st o) w -> through J (bind (set_status st) k) Q o w.
Proof. intros Hk. by apply th_bind, th_modify. Qed.

Lemma th_release {A} (k : unit -> op A) J Q o w : tied o ->
  (forall o', tied o' -> status o' = status o -> through J (k tt) Q o' w) -> through J (bind ReleaseTempSlaveConnection k) Q o w.
Proof.
  intros Ht Hk. apply th_bind, th_modify, Hk; destruct (isReleaseTempSlaveConn_ o); try done. split; [apply Ht|done].
Qed.

Lemma tied_status st o : tied o -> tied (with_status st o).
Proof. done. Qed.

(** *** The loop over the pages *)

(** The connection keeps both databases; its status may change. *)
Definition alike : relation t := fun o o' => main o' = main o /\ slaveConnection_ o' = slaveConnection_ o.

Lemma alike_tied o o' : alike o o' -> tied o -> tied o'.
Proof. intros [Hm Hs] [Ht Hh]. split; [by rewrite Hm|by rewrite Hs]. Qed.

Lemma busy_codes rc : (rc =? SQLITE_OK) || (rc =? SQLITE_BUSY) || (rc =? SQLITE_LOCKED) = true -> rc ∈ [SQLITE_OK; SQLITE_BUSY; SQLITE_LOCKED].
Proof. rewrite !orb_true_iff, !Z.eqb_eq. set_solver. Qed.

Section Copy.
Context (d s : string) (K : W -> Prop).
Context (Kquiet : forall w w', quiet w w' -> K w -> K w')
        (Kstep : forall n w rc w', sqlite3_backup_step d s n w = (rc, w') -> K w -> K w').

Definition copied (rc : option Z) o o' w' : Prop :=
  alike o o' /\ K w' /\ (rc = Some SQLITE_DONE -> content d w' = content s w') /\
  (status o <> BACKUP_FINISHED -> status o' <> BACKUP_FINISHED).

Lemma th_loop fuel r n o w : (work d s w < fuel)%nat -> K w ->
  through K (backup_loop fuel r n d s) (fun rc o' w' => copied rc o o' w') o w.
Proof.
  revert o w. induction fuel as [|fuel IH]; intros o w Hf HK; [lia|]. cbn [backup_loop].
  apply th_bind, th_get. intros tr. simpl. destruct (negb r && _); [by apply th_ret|].
  apply th_bind, th_sys. intros rc w1 E. destruct (step_law _ _ _ _ _ _ E) as (_ & _ & Hdone).
  pose proof (step_progress _ _ _ _ _ _ (ltac:(done) : BACKUP_PAGES_PRE_STEP <> 0) E) as Hwork.
  assert (K w1) as HK1 by (by eapply Kstep). split; [done|].
  apply th_bind, th_sys. intros st w2 E2. destruct (interleave_law _ _ _ _ E2) as (Hq & Hst).
  pose proof (interleave_progress _ _ _ _ d s E2) as Hw2.
  assert (status o <> BACKUP_FINISHED -> st <> BACKUP_FINISHED) as Hfin by (destruct Hst as [->|[->|[-> ->]]]; done).
  assert (K w2) as HK2 by (by eapply Kquiet). split; [done|].
  apply th_bind, th_modify, th_bind.
  apply (th_mono _ _ (fun _ o' w' => o' = with_status st o /\ quiet w2 w' /\ (work d s w' <= work d s w1)%nat)).
  { destruct (0 <? n); simpl; [|by apply th_ret].
    pose proof (sleep_law n w2) as Hq3. pose proof (sleep_progress n w2 d s) as Hw3.
    apply th_sys_; [by eapply Kquiet|]. repeat split; [apply Hq3..|lia]. }
  intros _ o' w3 (-> & Hq3 & Hw3). assert (K w3) as HK3 by (by eapply Kquiet). apply th_bind, th_get. intros tr2. simpl.
  destruct (_ && _) eqn:Ego.
  - apply andb_true_iff in Ego as [_ Ego]. eapply th_mono; [apply IH; [|done]|].
    + enough (work d s w1 < work d s w)%nat by lia. by apply Hwork, busy_codes.
    + intros rc' o' w' ([Hm Hs] & ? & ? & Hf'). split; [by split|]. split; [done|]. split; [done|]. auto.
  - apply th_ret. split; [by split|]. split; [done|]. split; [|done]. intros [= ->].
    destruct Hq as [Hc _], Hq3 as [Hc3 _]. rewrite !Hc3, !Hc. by apply Hdone.
Qed.

Lemma th_backup_step fuel r o w : (limit < fuel)%nat -> K w ->
  through K (SqliteBackupStep fuel r d s) (fun rc o' w' => copied rc o o' w') o w.
Proof.
  intros Hf HK. unfold SqliteBackupStep. apply th_bind, th_get. intros tr. simpl. apply th_bind, th_get. intros tr2. simpl.
  apply th_bind. eapply th_mono; [apply th_loop; [|done]|]. { pose proof (work_law d s w). lia. }
  intros rc o' w' (Ho & HK' & Hd & Hfin). apply th_bind, th_sys_; [by eapply Kquiet, HK'; apply finish_law|].
  apply th_ret. destruct (finish_law d s w') as [Hc Hm]. split; [done|]. split; [by eapply Kquiet, HK'|].
  split; [|done]. intros Hrc. rewrite !Hc. auto.
Qed.

Lemma th_copy_loop fuel o w : (work d s w < fuel)%nat -> K w -> through K (copy_loop fuel d s) (fun _ o' w' => o' = o /\ K w') o w.
Proof.
  revert w. induction fuel as [|fuel IH]; intros w Hf HK; [lia|]. cbn [copy_loop].
  apply th_bind, th_sys. intros rc w1 E.
  pose proof (step_progress _ _ _ _ _ _ (ltac:(done) : BACKUP_ALL_STEP <> 0) E) as Hwork.
  assert (K w1) as HK1 by (by eapply Kstep). split; [done|]. apply th_bind, th_get. intros tr. simpl.
  destruct (_ && _) eqn:Ego; [|by apply th_ret]. apply andb_true_iff in Ego as [_ Ego]. apply IH; [|done].
  enough (work d s w1 < work d s w)%nat by lia. by apply Hwork, busy_codes.
Qed.

End Copy.

(** *** A backup *)

Section Backup.
Context (fuel : nat) (Hfuel : (limit < fuel)%nat).
Context (Hwr : forall w b w', touch (M +:+ SLAVE_INTERRUPT) w = (b, w') -> b = true).
Context (w0 : W).

(** The main database is that of [w0]; the replica is the old one, an empty one or a complete copy,
    or it is marked. *)
Definition fair w : Prop := content M w = content M w0 /\
  (content S w = content S w0 \/ blank (content S w) \/ content S w = content M w0 \/ IsSlaveInterrupted M w = true).

Definition unfinished w : Prop := content M w = content M w0 /\ IsSlaveInterrupted M w = true.

Definition complete w : Prop := content M w = content M w0 /\ content S w = content M w0.

Lemma unfinished_fair w : unfinished w -> fair w.
Proof. intros [? ?]. split; auto. Qed.

Lemma complete_fair w : complete w -> fair w.
Proof. intros [? ?]. split; auto. Qed.

Lemma fair_calm w w' : calm w w' -> fair w -> fair w'.
Proof.
  intros (Hc & Hm & Hs) [Hf Hc0]. split; [congruence|]. destruct Hs as [Hs|]; [|auto]. rewrite Hs, Hm. done.
Qed.

Lemma unfinished_tame w w' : tame w w' -> unfinished w -> unfinished w'.
Proof. intros [Hc Hm] [? ?]. split; congruence. Qed.

Lemma complete_hush w w' : hush w w' -> complete w -> complete w'.
Proof. intros (Hc & _ & Hs) [? ?]. split; congruence. Qed.

Lemma hush_quiet w w' : quiet w w' -> hush w w'.
Proof. apply mild_quiet. Qed.

Lemma unfinished_step n w rc w' : sqlite3_backup_step S M n w = (rc, w') -> unfinished w -> unfinished w'.
Proof.
  intros E. destruct (step_law _ _ _ _ _ _ E) as (Hc & Hm & _). apply unfinished_tame. split.
  - apply Hc, not_eq_sym, beside_ne. by left.
  - apply Hm. set_solver.
Qed.

Lemma th_interrupted o w : fair w -> through fair (sys (SetSlaveInterrupted M)) (fun _ o' w' => o' = o /\ unfinished w') o w.
Proof.
  intros Hf tr. unfold wp, sys, SetSlaveInterrupted, set_mark. simpl. destruct (access _ w) eqn:E.
  { split; [by exists []|]. split; [done|]. split; [apply Hf|done]. }
  unfold lift. simpl. destruct (touch _ w) as [b w'] eqn:Et. specialize (Hwr _ _ _ Et). destruct (touch_law _ _ _ _ Et) as (Hc & _ & Ha).
  assert (unfinished w') as Hu. { split; [|by apply Ha]. rewrite Hc; [apply Hf|]. apply mark_not_part. set_solver. }
  split; [exists [w']; split; [done|]; constructor; [by apply unfinished_fair|done]|done].
Qed.

Lemma th_verify_backup force o w : tied o -> fair w -> through fair (ExchangeVerify false force)
  (fun e o' w' => o' = o /\ fair w' /\ (e = E_OK -> unfinished w' /\ is_Some (slaveConnection_ o))) o w.
Proof.
  intros Ht Hf. unfold ExchangeVerify. apply th_bind, th_get. intros tr. simpl. rewrite (proj1 Ht).
  destruct (slaveConnection_ o) as [h|]; [|by apply th_ret]. apply th_bind, th_get. intros tr2. simpl.
  destruct (access M w); [|by apply th_ret]. simpl. apply th_bind. unfold query. apply th_sys. intros [e v] w1 E.
  assert (fair w1) as Hf1 by (eapply fair_calm, Hf; by eapply hush_calm, hush_quiet, value_law).
  split; [done|]. destruct (_ && _); [by apply th_ret|]. apply th_bind. eapply th_mono; [by apply th_interrupted|].
  intros _ o' w' [-> Hu]. apply th_ret. split; [done|]. split; [by apply unfinished_fair|done].
Qed.

(** Behind the copy. *)
Definition backed_up e o' w' : Prop :=
  tied o' /\ fair w' /\ (e = E_OK -> status o' = BACKUP_FINISHED -> complete w') /\ status o' <> BACKING_UP.

Lemma th_valid o w : complete w -> through fair (sys_ (SetSlaveValid M)) (fun _ o' w' => o' = o /\ complete w') o w.
Proof.
  assert (forall m w, m ∈ MARKS -> complete w -> complete (unlink (M +:+ m) w)) as Hun.
  { intros m w1 Hm [Hc Hs]. destruct (unlink_law (M +:+ m) w1) as (Hu & _). split; rewrite Hu; try done.
    - by apply mark_not_part.
    - by apply mark_not_slave. }
  intros Hcp. assert (complete (unlink (M +:+ SLAVE_INTERRUPT) w)) as Hu1 by (apply Hun; [set_solver|done]).
  assert (complete (unlink (M +:+ SLAVE_FAILURE) (unlink (M +:+ SLAVE_INTERRUPT) w))) as Hu2 by (apply Hun; [set_solver|done]).
  apply (th_sys_bind_ fair (unlink (M +:+ SLAVE_INTERRUPT)) (unlink (M +:+ SLAVE_FAILURE))); [by apply complete_fair|].
  apply th_sys_; [by apply complete_fair|done].
Qed.

Lemma th_delete_corrupt h o w : tied o -> slaveConnection_ o = Some h -> unfinished w ->
  through fair (DeleteCorruptSlave (path (config_ h))) (fun _ o' w' => tied o' /\ unfinished w') o w.
Proof.
  intros Ht Hh Hu. rewrite (proj2 Ht _ Hh). eapply th_mono; [eapply th_weaken; [|apply calms_delete_corrupt, Ht; by left]|].
  - intros w' Hw. by apply unfinished_fair, (unfinished_tame w), Hu; apply calm_tame.
  - intros [] o' w' [Ho Hw]. split; [by eapply still_tied|]. by eapply unfinished_tame, Hu; apply calm_tame.
Qed.

Lemma th_backup_checkpoint h o w : tied o -> slaveConnection_ o = Some h -> complete w -> unfinished w ->
  through fair (SqliteBackupCheckpoint false) (fun e o' w' => backed_up e o' w') o w.
Proof.
  intros Ht Hh Hc Hu. unfold SqliteBackupCheckpoint. apply th_config; [done|]. apply th_bind, (th_slave _ _ _ h); [done|].
  eapply th_mono; [eapply th_weaken; [|by apply th_call, Ht; apply (calms_checkpoint_slave hush)]|].
  { intros w' Hw. by apply complete_fair, (complete_hush w). }
  intros rc o1 w1 [-> Hw1]. assert (complete w1) as Hc1 by (by eapply complete_hush).
  assert (unfinished w1) as Hu1 by (by eapply unfinished_tame, Hu; apply calm_tame, hush_calm).
  destruct (bool_decide (rc = E_SQLITE_CORRUPT)) eqn:Erc; cbn [negb andb].
  { apply bool_decide_eq_true in Erc. subst rc. apply (th_slave _ _ _ h); [done|].
    eapply th_bind, th_mono; [by apply th_delete_corrupt|]. intros [] o2 w2 [Ht2 Hu2]. apply th_status, th_ret. split; [done|]. by split; [apply unfinished_fair|]. }
  destruct (_ && _).
  { apply th_status, th_ret. split; [done|]. split; [by apply complete_fair|done]. }
  apply th_status, th_bind. eapply th_mono; [by apply th_valid|]. intros _ o2 w2 [-> Hc2]. apply th_ret.
  split; [done|]. split; [by apply complete_fair|done].
Qed.

Lemma th_native_backup acl h o w : tied o -> slaveConnection_ o = Some h -> unfinished w ->
  through fair (SqliteNativeBackup fuel false acl) (fun e o' w' => backed_up e o' w') o w.
Proof.
  intros Ht Hh Hu. unfold SqliteNativeBackup. apply th_bind, th_get. intros tr. simpl. apply (th_slave _ _ _ h); [done|].
  rewrite (main_file o), (slave_file o h), (proj1 Ht) by done.
  eapply th_bind, th_mono; [eapply th_weaken; [|by apply th_call, Ht; apply (calms_init hush)]|].
  { intros w' Hw. by apply unfinished_fair, (unfinished_tame w), Hu; apply calm_tame, hush_calm. }
  intros ok o1 w1 [-> Hw1]. assert (unfinished w1) as Hu1 by (by eapply unfinished_tame, Hu; apply calm_tame, hush_calm).
  destruct ok; simpl. 2: { apply th_status, th_ret. split; [done|]. by split; [apply unfinished_fair|]. }
  apply th_bind. eapply th_mono; [eapply th_weaken, (th_backup_step S M unfinished)|]; try done.
  { apply unfinished_fair. } { intros ? ? Hq. by apply unfinished_tame, calm_tame, hush_calm, hush_quiet. } { apply unfinished_step. }
  intros rc o2 w2 (Ho2 & Hu2 & Hd & _). pose proof (alike_tied _ _ Ho2 Ht) as Ht2. destruct Ho2 as [_ Hh2]. rewrite Hh in Hh2.
  apply th_bind, th_get. intros tr2. simpl.
  apply th_bind, (th_mono _ _ (fun _ o' w' => o' = o2 /\ hush w2 w')).
  { destruct acl; simpl; [|by apply th_ret]. eapply th_weaken; [|apply th_call_; [apply calms_gid, _|done]].
    intros w' Hw. by apply unfinished_fair, (unfinished_tame w2), Hu2; apply calm_tame, hush_calm. }
  intros _ o3 w3 [-> Hw3]. assert (unfinished w3) as Hu3 by (by eapply unfinished_tame, Hu2; apply calm_tame, hush_calm).
  destruct (bool_decide (rc = _)) eqn:Erc.
  { apply bool_decide_eq_true in Erc. apply (th_backup_checkpoint h); try done. split; [apply Hu3|].
    destruct Hw3 as (_ & _ & ->). rewrite (Hd Erc). apply Hu2. }
  apply bool_decide_eq_false in Erc. apply th_bind, (th_slave _ _ _ h); [done|]. apply th_bind.
  apply (th_mono _ _ (fun _ o' w' => tied o' /\ unfinished w')).
  { destruct (_ && _); simpl; [|by apply th_ret].
    by apply th_delete_corrupt. }
  intros _ o4 w4 [Ht4 Hu4]. apply th_modify, th_ret. split; [done|]. split; [by apply unfinished_fair|done].
Qed.


Lemma th_exchange_backup force o w : tied o -> fair w ->
  through fair (ExchangeSlaverToMaster fuel false true force) (fun e o' w' => backed_up e o' w') o w.
Proof.
  intros Ht Hf. unfold ExchangeSlaverToMaster. apply th_config; [done|]. apply th_bind, th_get. intros tr2. apply th_status, th_bind. eapply th_mono; [by apply (th_verify_backup force)|].
  intros e o1 w1 (-> & Hf1 & He). destruct (is_ok e) eqn:Ee; simpl.
  2: { apply is_ok_false in Ee. apply th_release; [done|]. intros o' Ht' _. by apply th_status, th_ret. }
  apply is_ok_true in Ee. destruct (He Ee) as [Hu [h Hh]]. simpl in Hh. unfold exchange_copy. apply th_config; [done|].
  apply th_bind, th_ret. simpl. apply th_bind. eapply th_mono; [by apply (th_native_backup _ h)|]. intros e2 o2 w2 (Ht2 & Hf2 & Hc2 & Hst2).
  destruct (is_ok e2) eqn:Ee2; simpl.
  2: { apply is_ok_false in Ee2. apply th_release; [done|]. intros o' Ht' Hst'. apply th_ret. split; [done|]. by rewrite Hst'. }
  apply is_ok_true in Ee2. apply th_bind, th_ret, th_bind, th_get. intros tr3.
  apply th_bind, (th_mono _ _ (fun _ o' w' => tied o' /\ status o' = status o2 /\ fair w' /\ hush w2 w')).
  { destruct (_ && _); [|by apply th_ret]. eapply (th_calms hush); [apply calms_reset|done|..].
    - intros w' Hw. by eapply fair_calm, Hf2; apply hush_calm.
    - intros _ o' w' Ho Hw. apply th_ret. split; [by eapply still_tied|]. split; [apply Ho|]. split; [|done].
      by eapply fair_calm, Hf2; apply hush_calm. }
  intros _ o3 w3 (Ht3 & Hs3 & Hf3 & Hh3). apply th_ret. split; [done|]. split; [done|]. rewrite Hs3. split; [|done].
  intros _ Hfin. eapply complete_hush; [done|]. by apply Hc2.
Qed.

Lemma th_open_slave (o : t) w : tied o -> fair w -> through fair (CreateSlaveConnection slaveCfg FORCE_OPEN)
  (fun x o' w' => tied o' /\ fair w' /\ status o' = status o /\ new_slave slaveCfg x) o w.
Proof.
  intros Ht Hf. eapply th_mono; [apply th_returns, create_answer; eapply th_weaken; [|by apply calms_create_slave]|].
  - intros w' Hw. by eapply fair_calm.
  - intros x o' w' [[Ho Hw] Hx]. split; [by eapply still_tied|]. split; [by eapply fair_calm|]. split; [apply Ho|done].
Qed.

Lemma th_backup o w : tied o -> fair w -> through fair (Backup fuel false true)
  (fun e o' w' => status o <> BACKING_UP -> (e = E_OK -> status o' = BACKUP_FINISHED -> complete w') /\ status o' <> BACKING_UP) o w.
Proof.
  intros Ht Hf. unfold Backup. apply th_bind, th_get. intros tr. simpl.
  destruct (bool_decide (status o = BACKING_UP)) eqn:Est.
  { apply bool_decide_eq_true in Est. by apply th_ret. }
  apply bool_decide_eq_false in Est.
  apply th_bind, (th_mono _ _ (fun e o' w' => tied o' /\ fair w' /\ status o' <> BACKING_UP)).
  { destruct (slaveConnection_ o) as [h|] eqn:Eh; [by apply th_ret|]. rewrite (proj1 Ht). apply th_bind.
    eapply th_mono; [by apply th_open_slave|]. intros [e c] o1 w1 (Ht1 & Hf1 & Hs1 & Hx). rewrite <- Hs1 in Est. unfold new_slave in Hx. simpl in Hx.
    apply th_bind. destruct (is_ok e) eqn:Ee; simpl; [|by apply th_ret, th_ret]. apply is_ok_true in Ee.
    apply th_modify, th_ret. split; [|done]. split; [apply Ht1|]. simpl. intros h ->. apply Hx. }
  intros e o1 w1 (Ht1 & Hf1 & Hs1). destruct (is_ok e) eqn:Ee; simpl; [|apply th_ret; intros _; split; [by intros ->|done]].
  eapply th_mono; [by apply th_exchange_backup|]. intros e2 o2 w2 (_ & _ & Hc & Hs) _. by split.
Qed.

(** A new connection to a main database that is there. *)
Lemma open_main h w e w' : config_ h = cfg -> ~ absent (content M w) -> InnerOpen h w = (e, w') -> hush w w'.
Proof.
  intros Hh Ha Hw. assert (file h = M) as Hm by (rewrite (owned_file h); by rewrite Hh).
  destruct (open_law _ _ _ _ Hw) as (Hc & Hk & Ho). rewrite Hm in *.
  split; [destruct Ho as [|[? _]]; done|]. split; [apply Hk; set_solver|]. apply Hc, beside_ne. by left.
Qed.

Lemma calms_leftover : calms calm (let! _ := invalidate in
  let! _ := sys_ (remove_all (GetBinlogFolderPath M) true) in sys_ (Delete (path slaveCfg))).
Proof. assert (calms calm (sys_ (Delete (path slaveCfg)))) by (apply calms_delete; by left). calming. Qed.

Lemma th_inner_create o w : tied o -> fair w -> ~ absent (content M w0) ->
  through fair inner_create (fun _ o' w' => tied o' /\ fair w') o w.
Proof.
  intros Ht Hf Ha. unfold inner_create. apply th_bind, th_get. intros tr. simpl. rewrite (proj1 Ht). apply th_bind.
  apply (th_mono _ _ (fun x o' w' => o' = o /\ fair w' /\ config_ x.2 = cfg)).
  { unfold open_handle. apply th_bind, th_sys. intros e w1 E.
    assert (fair w1) as Hf1. { eapply fair_calm, Hf. eapply hush_calm, (open_main (main o)); [apply Ht| |done]. by rewrite (proj1 Hf). }
    split; [done|]. apply th_ret. split; [done|]. split; [done|]. simpl. destruct (is_ok e); apply Ht. }
  intros [e h] o1 w1 (-> & Hf1 & Hh). simpl in Hh. destruct (is_ok e); simpl; [|by apply th_ret].
  apply th_bind, th_modify. assert (tied {o with main := h}) as Ht1 by (split; [done|apply Ht]).
  destruct (_ && _); [|by apply th_ret]. apply th_bind.
  eapply th_mono; [apply th_returns, create_answer; eapply th_weaken; [|by apply calms_create_slave]|].
  { intros w' Hw. by eapply fair_calm. }
  intros [e2 c] o2 w2 [[Ho2 Hw2] Hx]. pose proof (still_tied _ _ Ho2 Ht1) as Ht2. pose proof (fair_calm _ _ Hw2 Hf1) as Hf2.
  unfold new_slave in Hx. simpl in Hx. destruct (is_ok e2); simpl; [|by apply th_ret].
  apply th_bind, th_modify. assert (tied {o2 with slaveConnection_ := c}) as Ht3.
  { split; [apply Ht2|]. simpl. intros h2 ->. apply Hx. }
  eapply (th_calms hush); [unfold SetBinlog; calming|done|intros w' Hw; by eapply fair_calm; [apply hush_calm|]|].
  intros _ o4 w4 Ho4 Hw4. pose proof (still_tied _ _ Ho4 Ht3) as Ht4. assert (fair w4) as Hf4 by (eapply fair_calm; [by apply hush_calm|done]).
  apply th_bind, th_get. intros tr4. simpl. destruct (negb _ && _); [|by apply th_bind, th_ret, th_ret].
  eapply (th_calms calm); [apply calms_leftover|done|intros w' Hw; by eapply fair_calm|].
  intros _ o5 w5 Ho5 Hw5. apply th_ret. split; [by eapply still_tied|by eapply fair_calm].
Qed.

Lemma th_other {A} (m : op A) J Q o' o w :
  through J m (fun a o1 => Q a (with_status (status o1) o)) (with_status (status o) o') w -> through J (on_other o' m) Q o w.
Proof.
  intros Hm tr. specialize (Hm tr). unfold wp, on_other in *. simpl. destruct (m _) as [[a [o1 s1]]|]; done.
Qed.

Lemma th_backup_task o w : tied o -> fair w -> ~ absent (content M w0) -> through fair (backup_task fuel) (fun _ _ w' => fair w') o w.
Proof.
  intros Ht Hf Ha. unfold backup_task. apply th_bind, th_get. intros tr. simpl. rewrite (proj1 Ht). apply th_bind, th_other.
  apply th_bind. eapply th_mono; [by apply th_inner_create|]. intros e o1 w1 [Ht1 Hf1].
  apply (th_mono _ _ (fun _ _ w' => fair w')).
  - destruct (is_ok e); simpl; [|by apply th_ret]. apply th_bind. eapply th_mono; [by apply th_exchange_backup|].
    intros e2 o2 w2 (_ & Hf2 & _). by apply th_ret.
  - intros e2 o2 w2 Hf2. destruct (is_ok e2); simpl; [by apply th_modify|by apply th_ret].
Qed.

End Backup.

(** *** Verification *)

(** The query fails, in this world or in one that only a read or a wait came after. *)
Definition fails (p q : string) w : Prop :=
  exists w1 e v w2, ExecuteForValue p q w1 = ((e, v), w2) /\ quiet w1 w /\ e <> E_OK.

Lemma fails_quiet p q w w' : quiet w w' -> fails p q w -> fails p q w'.
Proof. intros Hq (w1 & e & v & w2 & E & Hq1 & He). exists w1, e, v, w2. split; [done|]. split; [by etrans|done]. Qed.

(** A replica that passed the verification: it is not marked as unfinished; it has tables, or the
    query for their number failed; and its integrity was checked, or it is too large for that and
    nothing was reported of it, or the check failed. *)
Definition verified w : Prop :=
  IsSlaveInterrupted M w = false /\ (tables (content S w) <> 0 \/ fails S TABLE_COUNT_SQL w) /\
  (sound (content S w) \/ IsSlaveInvalid M w = false \/ fails S INTEGRITY_CHECK w).

Lemma verified_quiet w w' : quiet w w' -> verified w -> verified w'.
Proof.
  intros Hq (Hi & Ht & Hs). split; [by rewrite (quiet_mark w)|]. pose proof Hq as [Hc Hm]. rewrite !Hc. split.
  - destruct Ht as [Ht|Ht]; [by left|right; by eapply fails_quiet].
  - destruct Hs as [Hs|[Hs|Hs]]; [by left| |right; right; by eapply fails_quiet].
    right; left. unfold IsSlaveInvalid in *. rewrite !Hm; [done|set_solver..].
Qed.

Lemma th_query h q J Q o w : (forall r w', ExecuteForValue (file h) q w = (r, w') -> quiet w w' -> J w' /\ Q r o w') ->
  through J (query h q) Q o w.
Proof. intros HQ. apply th_sys. intros r w' E. apply HQ; [done|by eapply value_law]. Qed.

Lemma th_have_slave force o w : tied o -> through (calm w) (VerifyOrCreateTempSlaveConnection force)
  (fun e o' w' => tied o' /\ status o' = status o /\ calm w w' /\ (e = E_OK -> is_Some (slaveConnection_ o'))) o w.
Proof.
  intros Ht. unfold VerifyOrCreateTempSlaveConnection. apply th_bind, th_get. intros tr. simpl.
  destruct (slaveConnection_ o) as [h|] eqn:Eh; [apply th_ret; split; [done|]; split; [done|]; split; [reflexivity|done]|].
  destruct force; [|apply th_ret; split; [done|]; split; [done|]; split; [reflexivity|done]].
  rewrite (proj1 Ht). apply th_bind. eapply th_mono; [apply th_returns, create_answer; by apply calms_create_slave|].
  intros [e c] o1 w1 [[Ho1 Hw1] Hx]. pose proof (still_tied _ _ Ho1 Ht) as Ht1. unfold new_slave in Hx. simpl in Hx.
  assert (status o1 = status o) as Hst by apply Ho1.
  destruct (is_ok e) eqn:Ee; simpl. 2: { apply th_ret. split; [done|]. split; [done|]. split; [done|]. intros ->. done. }
  apply is_ok_true in Ee. destruct c as [h|]; [|done]. apply th_bind, th_modify, th_ret.
  destruct (slaveConnection_ o1) eqn:E1.
  - split; [done|]. split; [done|]. split; [done|]. intros _. by rewrite E1.
  - split; [|by split; [|split]]. split; [apply Ht1|]. simpl. intros h' [= <-]. apply Hx.
Qed.

Lemma th_verify force o w : tied o -> through (calm w) (VerifySlaveIntegrity force)
  (fun e o' w' => tied o' /\ status o' = status o /\ calm w w' /\ (e = E_OK -> is_Some (slaveConnection_ o') /\ verified w')) o w.
Proof.
  intros Ht. unfold VerifySlaveIntegrity. apply th_bind. eapply th_mono; [by apply th_have_slave|].
  intros e o1 w1 (Ht1 & <- & Hw1 & Hs1). destruct (is_ok e) eqn:Ee; cbn [negb]. 2: { apply th_ret. split; [done|]. split; [done|]. split; [done|]. by intros ->. }
  apply is_ok_true in Ee. destruct (Hs1 Ee) as [h Hh]. apply th_bind, th_get. intros tr. cbn [fst]. rewrite (proj1 Ht1).
  apply th_bind, th_get. intros tr2. apply th_bind, th_get. intros tr3. cbv beta.
  change (IsSlaveInterrupted M (o1, (w1, tr3)).2) with (IsSlaveInterrupted M w1).
  destruct (IsSlaveInterrupted M w1) eqn:Ei; [by apply th_ret|]. apply (th_slave _ _ _ h); [done|].
  assert (forall w', quiet w1 w' -> calm w w') as Hq by (intros w' Hw'; etrans; [done|by apply mild_quiet]).
  apply th_bind, th_query. rewrite (slave_file o1 h) by done. intros [e2 v2] w2 E2 Hw2. split; [by apply Hq|].
  destruct (bool_decide (e2 = E_SQLITE_CORRUPT) || _) eqn:Ebad; [apply th_ret; split; [done|]; by split; [|split; [apply Hq|]]|].
  apply orb_false_iff in Ebad as [Ebad Eno]. apply bool_decide_eq_false in Ebad, Eno.
  assert (tables (content S w1) <> 0 \/ fails S TABLE_COUNT_SQL w1) as Htab.
  { destruct (decide (e2 = E_OK)) as [->|Hne2]; [left|right; by exists w1, e2, v2, w2].
    apply count_law in E2; [|set_solver]. subst v2. intros H0'. apply Eno. simpl. by rewrite H0'. }
  assert (forall w', quiet w1 w' -> tables (content S w') <> 0 \/ fails S TABLE_COUNT_SQL w') as Htab'.
  { intros w' Hw'. destruct Htab as [Htab|Htab]; [left; by rewrite (proj1 Hw')|right; by eapply fails_quiet]. }
  apply th_bind, (th_mono _ _ (fun _ o' w' => o' = o1 /\ quiet w1 w')).
  { destruct (dbHandle_ (main o1)); [|by apply th_ret]. apply th_bind, th_query. intros [e3 v3] w3 E3 Hw3.
    assert (quiet w1 w3) by (by etrans). split; [by apply Hq|by apply th_ret]. }
  intros mCount o3 w3 [-> Hw3]. apply th_bind, th_get. intros tr4. destruct (_ && _).
  { apply th_bind, th_get. intros tr5. apply th_ret. split; [done|]. split; [done|]. split; [by apply Hq|].
    change (IsSlaveInvalid M (o1, (w3, tr5)).2) with (IsSlaveInvalid M w3). destruct (IsSlaveInvalid M w3) eqn:Einv; [done|]. intros _.
    split; [done|]. split; [by rewrite (quiet_mark w1)|]. split; [by apply Htab'|by right; left]. }
  apply th_bind, th_query. rewrite (slave_file o1 h) by done. intros [e4 v4] w4 E4 Hw4. assert (quiet w1 w4) as Hq4 by (by etrans).
  split; [by apply Hq|]. destruct (is_ok e4 && negb (answers_ok v4)) eqn:Eok.
  { eapply (th_calms hush); [apply calms_invalidate|done|..].
       - intros w' Hw'. etrans; [by apply Hq|by apply hush_calm].
       - intros _ o5 w5 Ho5 Hw5. apply th_ret. split; [by eapply still_tied|]. split; [apply Ho5|]. split; [|done]. etrans; [by apply Hq|by apply hush_calm]. }
  apply th_ret. split; [done|]. split; [done|]. split; [by apply Hq|]. intros _. split; [done|].
  split; [by rewrite (quiet_mark w1)|]. split; [by apply Htab'|]. apply andb_false_iff in Eok as [Ee4|Eok].
  - right; right. exists w3, e4, v4, w4. split; [done|]. split; [done|by apply is_ok_false].
  - destruct (decide (e4 = E_OK)) as [->|Hne4]; [left|right; right; by exists w3, e4, v4, w4].
    rewrite (proj1 Hw4). eapply check_law; [done|by apply negb_false_iff].
Qed.

(** *** A restore *)

Lemma th_verify_marked force o w : tied o -> IsSlaveInterrupted M w = true -> through (calm w) (VerifySlaveIntegrity force)
  (fun e o' w' => tied o' /\ calm w w' /\ e <> E_OK) o w.
Proof.
  intros Ht Hm. unfold VerifySlaveIntegrity. apply th_bind. eapply th_mono; [by apply th_have_slave|].
  intros e o1 w1 (Ht1 & _ & Hw1 & _). destruct (is_ok e) eqn:Ee; cbn [negb].
  2: { apply is_ok_false in Ee. by apply th_ret. }
  apply th_bind, th_get. intros tr. cbn [fst]. rewrite (proj1 Ht1). apply th_bind, th_get. intros tr2. apply th_bind, th_get.
  intros tr3. cbv beta. change (IsSlaveInterrupted M (o1, (w1, tr3)).2) with (IsSlaveInterrupted M w1).
  destruct Hw1 as (? & Hi & ?). rewrite Hi, Hm. by apply th_ret.
Qed.

Lemma calms_below : calms quiet IsDbVersionBelowSlave.
Proof. unfold IsDbVersionBelowSlave. calming. Qed.

Lemma inert_below : inert IsDbVersionBelowSlave.
Proof.
  unfold IsDbVersionBelowSlave, query. repeat first [apply inert_ret | apply inert_get | apply inert_sys | apply inert_bind; [|intros ?] | case_match].
Qed.

(** The verification leaves the main database alone; when it succeeds, there is a good replica. *)
Lemma th_exchange_verify force o w : tied o -> through (tame w) (ExchangeVerify true force)
  (fun e o' w' => tied o' /\ status o' = status o /\ tame w w' /\ (e = E_OK -> is_Some (slaveConnection_ o') /\ verified w')) o w.
Proof.
  intros Ht. unfold ExchangeVerify. eapply (th_calms tame); [apply calms_replay_binlog|done|done|].
  intros _ o1 w1 Ho1 Hw1. pose proof (still_tied _ _ Ho1 Ht) as Ht1. destruct Ho1 as (_ & Hst & _). rewrite <- Hst. clear Hst. apply th_bind.
  eapply th_mono; [eapply th_weaken; [|by apply th_verify]|]. { intros w' Hw. etrans; [done|by apply calm_tame]. }
  intros e o2 w2 (Ht2 & <- & Hw2 & Hok). assert (tame w w2) as Hw by (etrans; [done|by apply calm_tame]).
  destruct (is_ok e) eqn:Ee; cbn [negb]. 2: { apply th_ret. split; [done|]. split; [done|]. split; [done|]. by intros ->. }
  apply is_ok_true in Ee. destruct (Hok Ee) as [Hs Hv]. apply th_bind.
  eapply th_mono; [apply th_inert; [apply inert_below|]; eapply th_weaken; [|by apply calms_below]|].
  { intros w' Hq. etrans; [done|by apply mild_quiet]. }
  intros below o3 w3 (-> & _ & Hq). assert (tame w w3) by (etrans; [done|by apply mild_quiet]). pose proof (verified_quiet _ _ Hq Hv).
  destruct below; [by apply th_ret|]. destruct force; [by apply th_ret|]. apply th_config; [done|]. apply th_bind, th_get. intros tr.
  by apply th_ret.
Qed.

Lemma th_exchange_marked force o w : tied o -> IsSlaveInterrupted M w = true -> through (tame w) (ExchangeVerify true force)
  (fun e o' w' => tied o' /\ tame w w' /\ e <> E_OK) o w.
Proof.
  intros Ht Hm. unfold ExchangeVerify. eapply (th_calms tame); [apply calms_replay_binlog|done|done|].
  intros _ o1 w1 Ho1 Hw1. pose proof (still_tied _ _ Ho1 Ht) as Ht1. apply th_bind.
  eapply th_mono; [eapply th_weaken; [|apply th_verify_marked; [done|by rewrite (proj2 Hw1)]]|].
  { intros w' Hw. etrans; [done|by apply calm_tame]. }
  intros e o2 w2 (Ht2 & Hw2 & He). apply is_ok_false in He as He'. rewrite He'. apply th_ret. split; [done|]. split; [|done].
  etrans; [done|by apply calm_tame].
Qed.

Lemma calms_try_checkpoint b : calms calm (TryCheckPoint b).
Proof.
  unfold TryCheckPoint. apply calms_self; try apply _. intros o Ht. destruct (_ || _); [calming|].
  apply calms_bind; try apply _; [calming|]. intros e. apply calms_bind; try apply _; [|calming].
  destruct (slaveConnection_ o) as [h|] eqn:Eh; [|calming]. destruct (backupId_ o); [calming|].
  rewrite (proj2 Ht _ Eh). assert (calms calm (DeleteCorruptSlave (path slaveCfg))) by (apply calms_delete_corrupt; by left). calming.
Qed.

Section Restore.
Context (fuel : nat) (Hfuel : (limit < fuel)%nat) (w1 : W).

Definition restored e o' w' : Prop := e = E_OK -> status o' = BACKUP_FINISHED -> content M w' = content S w1.

Lemma th_restore_checkpoint o w : tied o -> content M w = content S w1 -> status o <> BACKUP_FINISHED ->
  through (fun _ => True) (SqliteBackupCheckpoint true) (fun e o' w' => tied o' /\ restored e o' w') o w.
Proof.
  intros Ht Hc Hst. unfold SqliteBackupCheckpoint. apply th_config; [done|]. apply (th_calms calm); [apply calms_try_checkpoint|done..|].
  intros rc o2 w2 Ho2 Hw2. pose proof (still_tied _ _ Ho2 Ht) as Ht2. destruct Ho2 as (_ & Hs2 & _). cbn [negb andb].
  destruct (_ && _). { apply th_bind, th_ret, th_ret. split; [done|]. intros _ Hf. congruence. }
  apply th_status, th_bind. eapply (th_mono _ _ (fun _ o' w' => tied o' /\ content M w' = content S w1)).
  { assert (forall m w, m ∈ MARKS -> content M (unlink (M +:+ m) w) = content M w) as Hun.
    { intros m w' Hm. apply unlink_law. by apply mark_not_part. }
    apply (th_sys_bind_ (fun _ => True) (unlink (M +:+ SLAVE_INTERRUPT)) (unlink (M +:+ SLAVE_FAILURE))); [done|].
    apply th_sys_; [done|]. split; [done|]. rewrite !Hun by set_solver. by rewrite (proj1 Hw2). }
  intros _ o3 w3 [Ht3 Hw3]. apply th_ret. split; [done|]. by intros _ _.
Qed.

Lemma th_native_restore acl h o w : tied o -> slaveConnection_ o = Some h -> content S w = content S w1 -> status o <> BACKUP_FINISHED ->
  through (fun _ => True) (SqliteNativeBackup fuel true acl) (fun e o' w' => tied o' /\ restored e o' w') o w.
Proof.
  intros Ht Hh Hs Hst. unfold SqliteNativeBackup. apply th_bind, th_get. intros tr. simpl. apply (th_slave _ _ _ h); [done|].
  rewrite (main_file o), (slave_file o h), (proj1 Ht) by done. set (K := fun w => content S w = content S w1).
  eapply th_bind, th_mono; [eapply th_weaken; [|by apply th_call, Ht; apply (calms_init hush)]|]; [done|].
  intros ok o1 w2 [-> Hw2]. assert (K w2) as HK by (unfold K; by destruct Hw2 as (_ & _ & ->)).
  destruct ok; simpl. 2: { by apply th_status, th_ret. }
  apply th_bind. eapply th_mono; [eapply th_weaken, (th_backup_step M S K); try done|].
  { by intros w' w'' [Hc _] Hk; unfold K; rewrite Hc. }
  { intros n w' rc w'' E Hk. destruct (step_law _ _ _ _ _ _ E) as (Hc & _). unfold K. rewrite Hc; [done|]. apply beside_ne. by left. }
  intros rc o2 w3 (Ho2 & HK3 & Hd & Hf2). pose proof (alike_tied _ _ Ho2 Ht) as Ht2. apply th_bind, th_get. intros tr2. simpl.
  apply th_bind, (th_mono _ _ (fun _ o' w' => o' = o2 /\ hush w3 w')).
  { destruct acl; simpl; [|by apply th_ret]. eapply th_weaken; [|apply th_call_; [apply calms_gid, _|done]]. done. }
  intros _ o3 w4 [-> Hw4]. destruct (bool_decide (rc = _)) eqn:Erc.
  { apply bool_decide_eq_true in Erc. apply th_restore_checkpoint; [done| |by apply Hf2]. destruct Hw4 as (-> & _). by rewrite (Hd Erc). }
  apply th_bind, th_ret, th_ret. split; [done|]. intros _ Hfin. by destruct (Hf2 Hst).
Qed.

Lemma th_restore_copy acl h o w : tied o -> slaveConnection_ o = Some h -> content S w = content S w1 -> status o <> BACKUP_FINISHED ->
  through (fun _ => True) (exchange_copy fuel true true false acl) restored o w.
Proof.
  intros Ht Hh Hs Hst. unfold exchange_copy. apply th_config; [done|]. apply th_bind, th_ret. simpl. apply th_bind.
  eapply th_mono; [by apply (th_native_restore _ h)|]. intros e o1 w2 [Ht1 Hr]. destruct (is_ok e) eqn:Ee; simpl.
  2: { apply is_ok_false in Ee. apply th_release; [done|]. intros o' _ _. apply th_ret. by intros He. }
  apply th_bind, th_ret, th_bind, th_get. intros tr. apply th_bind, th_ret, th_ret. apply is_ok_true in Ee. subst e. exact Hr.
Qed.

End Restore.

(** *** A repair *)

Lemma th_check_replica (R : W -> Prop) (P : errno -> W -> Prop) o w :
  (forall w w', tame w w' -> R w -> R w') -> (forall e w, e <> E_OK -> P e w) ->
  (forall o w, tied o -> R w -> through (calm w) (VerifySlaveIntegrity false) (fun e o' w' => tied o' /\ calm w w' /\ P e w') o w) ->
  tied o -> R w -> through (tame w) check_replica (fun e o' w' => tied o' /\ tame w w' /\ P e w') o w.
Proof.
  intros HR HP Hv Ht Hw. unfold check_replica. apply th_config; [done|]. apply th_bind, th_get. intros tr. cbv beta.
  destruct (access _ _); cbn [negb]; [|apply th_ret; split; [done|]; split; [reflexivity|by apply HP]].
  apply th_bind. eapply th_mono; [apply th_returns, create_answer; eapply th_weaken; [apply calm_tame|by apply calms_create_slave]|].
  intros [e c] o1 w1 [[Ho1 Hw1] Hx]. pose proof (still_tied _ _ Ho1 Ht) as Ht1. apply calm_tame in Hw1. unfold new_slave in Hx. simpl in Hx.
  destruct (is_ok e) eqn:Ee; cbn [negb].
  2: { apply th_ret. split; [done|]. split; [done|]. by apply HP, is_ok_false. }
  apply is_ok_true in Ee. destruct c as [h|]; [|done]. apply th_bind, th_modify.
  assert (tied {o1 with slaveConnection_ := Some h}) as Ht2 by (split; [apply Ht1|]; simpl; intros h' [= <-]; apply Hx).
  apply th_bind, th_get. intros tr2. cbv beta.
  eapply (th_calms tame); [apply calms_when; [apply _|]; apply calms_replay_of; by eapply slave_file|done|intros w' Hw'; by etrans|].
  intros _ o3 w3 Ho3 Hw3. assert (tame w w3) as Hw03 by (by etrans).
  eapply th_mono; [eapply th_weaken; [|apply Hv; [by eapply still_tied|by eapply HR]]|].
  - intros w' Hw'. etrans; [done|by apply calm_tame].
  - intros e4 o4 w4 (Ht4 & Hw4 & Hp4). split; [done|]. split; [|done]. etrans; [done|by apply calm_tame].
Qed.

(** *** The strategy *)

Section Strategy.
Context (w0 : W).

(** The number of tables of the main database could not be read, though it was not said to be
    damaged: it was busy, for example. *)
Definition unread : Prop := exists w e v w', tame w0 w /\
  ExecuteForValue M QUERY_TABLE_COUNT_SQL w = ((e, v), w') /\ e <> E_OK /\ e <> E_SQLITE_CORRUPT.

(** The main database is damaged, or it has nothing, or nobody knows. *)
Definition lost : Prop := ~ sound (content M w0) \/ tables (content M w0) = 0 \/ unread.

Lemma th_main q o w : tied o -> tame w0 w -> through (tame w0) (query (main o) q)
  (fun x o' w' => o' = o /\ tame w0 w' /\ (x.1 = E_SQLITE_CORRUPT -> lost) /\
     (x.1 <> E_SQLITE_CORRUPT -> q = QUERY_TABLE_COUNT_SQL ->
        Value.to_int64 x.2 = tables (content M w0) \/ Value.to_int64 x.2 = 0 /\ unread)) o w.
Proof.
  intros Ht Hw. apply th_query. rewrite main_file by done. intros [e v] w' E Hq.
  assert (tame w0 w') by (etrans; [done|by apply mild_quiet]). split; [done|]. split; [done|]. split; [done|]. split; simpl.
  - intros ->. left. rewrite <- (proj1 Hw). by eapply corrupt_law.
  - intros He ->. destruct (decide (e = E_OK)) as [->|Hne].
    + left. apply count_law in E; [|set_solver]. subst v. simpl. by rewrite (proj1 Hw).
    + right. pose proof (failed_law _ _ _ _ _ _ E Hne) as ->. split; [done|]. by exists w, e, VNil, w'.
Qed.

Lemma th_replica h q o w : tame w0 w -> through (tame w0) (query h q) (fun _ o' w' => o' = o /\ tame w0 w') o w.
Proof. intros Hw. apply th_query. intros x w' _ Hq. assert (tame w0 w') by (etrans; [done|by apply mild_quiet]). done. Qed.

Lemma th_replay h o w : tied o -> slaveConnection_ o = Some h -> tame w0 w ->
  through (tame w0) (ReplayBinlogOf M (Some h) false) (fun _ o' w' => o' = o /\ tame w0 w') o w.
Proof.
  intros Ht Hh Hw. eapply th_mono; [apply th_inert|].
  - unfold ReplayBinlogOf, ReplayBinlogSqlite.
    repeat first [apply inert_ret | apply inert_get | apply inert_sys | apply inert_sys_ | apply inert_bind; [|intros ?] | case_match].
  - eapply th_weaken; [|apply calms_replay_of, Ht; by eapply slave_file]. intros w' Hw'. by etrans.
  - intros [] o' w' (-> & _ & Hw'). split; [done|]. by etrans.
Qed.

(** In the mode with a trigger: restore a lost database, or nothing. *)
Definition triggered (r : ExchangeStrategy) : Prop := r = NOT_HANDLE \/ r = RESTORE /\ lost.

Lemma th_compare rest h o w : tied o -> slaveConnection_ o = Some h -> tame w0 w ->
  (forall w', tame w0 w' -> through (tame w0) rest (fun r _ _ => triggered r) o w') ->
  through (tame w0) (compare_in_trigger rest) (fun r _ _ => triggered r) o w.
Proof.
  intros Ht Hh Hw Hrest. unfold compare_in_trigger. apply th_bind, th_get. intros tr. simpl. apply (th_slave _ _ _ h); [done|].
  apply th_bind. eapply th_mono; [by apply th_replica|]. intros [se sv] o1 w1 [-> Hw1]. destruct (bool_decide _); [apply th_ret; by left|].
  apply th_bind. eapply th_mono; [by apply th_main|]. intros [me mv] o1 w2 (-> & Hw2 & Hlost & Hcount). simpl in *.
  apply th_bind. eapply th_mono; [by apply th_main|]. intros [ie iv] o1 w3 (-> & Hw3 & Hlost' & _). simpl in *.
  destruct (bool_decide (me = _) || _) eqn:Ec.
  { apply th_ret. right. split; [done|]. apply orb_true_iff in Ec as [Ec|Ec]; apply bool_decide_eq_true in Ec; auto. }
  apply orb_false_iff in Ec as [Ec _]. apply bool_decide_eq_false in Ec. specialize (Hcount Ec eq_refl).
  destruct (Z.eqb_spec (Value.to_int64 mv) 0) as [Hz|]; [|apply th_ret; by left]. simpl.
  destruct (_ <? _); [|by apply Hrest]. apply th_ret. right. split; [done|]. right. destruct Hcount as [Hx|[_ Hx]]; [left; congruence|by right].
Qed.

Lemma th_trigger h o w : tied o -> slaveConnection_ o = Some h -> tame w0 w ->
  through (tame w0) (ExchangeCompareInTrigger false) (fun r _ _ => triggered r) o w.
Proof.
  intros Ht Hh Hw. apply (th_compare _ h); [done..|]. intros w1 Hw1. apply th_bind, th_get. intros tr. cbn [fst]. rewrite (proj1 Ht), Hh.
  apply th_bind, th_get. intros tr2. cbv beta. destruct (IsSupportBinlog _ _); [|apply th_ret; by left].
  apply th_bind. eapply th_mono; [by apply th_replay|]. intros _ o1 w2 [-> Hw2]. apply (th_compare _ h); [done..|].
  intros w3 _. apply th_ret. by left.
Qed.

(** In every mode. *)
Definition decided (st : SlaveStatus) (r : ExchangeStrategy) : Prop :=
  match r with
  | NOT_HANDLE => True
  | RESTORE => lost
  | BACKUP => tables (content M w0) <> 0 \/ st = BACKUP_INTERRUPT
  | PENDING_BACKUP => tables (content M w0) <> 0
  end.

Lemma th_main_empty replayed x h o w : tied o -> slaveConnection_ o = Some h -> tame w0 w -> lost ->
  through (tame w0) (ExchangeCompareWithMainEmpty replayed x) (fun r _ _ => decided (status o) r) o w.
Proof.
  intros Ht Hh Hw Hz. unfold ExchangeCompareWithMainEmpty. destruct (_ && _); [by apply th_ret|].
  destruct replayed; [by apply th_ret|]. apply th_bind, th_get. intros tr. cbn [fst]. rewrite (proj1 Ht), Hh.
  apply th_bind, th_get. intros tr2. cbv beta. destruct (_ && _); [|by apply th_ret].
  apply th_bind. eapply th_mono; [by apply th_replay|]. intros _ o1 w1 [-> Hw1]. apply (th_slave _ _ _ h); [done|].
  apply th_bind. eapply th_mono; [by apply th_replica|]. intros [se sv] o1 w2 [-> Hw2].
  apply th_bind. eapply th_mono; [by apply th_main|]. intros [me mv] o1 w3 _. apply th_ret. by destruct (_ && _).
Qed.

Lemma th_strategy replay o w : tied o -> tame w0 w -> through (tame w0) (GenerateExchangeStrategy replay)
  (fun r _ _ => decided (status o) r /\ (RdbStoreConfig.haMode_ cfg = MANUAL_TRIGGER -> triggered r) /\
                (status o = BACKING_UP \/ slaveConnection_ o = None -> r = NOT_HANDLE)) o w.
Proof.
  intros Ht Hw. unfold GenerateExchangeStrategy. apply th_bind, th_get. intros tr. cbn [fst]. rewrite (proj1 Ht).
  assert (forall w', through (tame w0) (ret NOT_HANDLE)
    (fun r _ _ => decided (status o) r /\ (RdbStoreConfig.haMode_ cfg = MANUAL_TRIGGER -> triggered r) /\
                (status o = BACKING_UP \/ slaveConnection_ o = None -> r = NOT_HANDLE)) o w') as Hnone.
  { intros w'. apply th_ret. split; [done|]. split; [by left|done]. }
  destruct (slaveConnection_ o) as [h|] eqn:Eh; [|apply Hnone].
  destruct (_ || bool_decide (status o = BACKING_UP)) eqn:Eg; [apply Hnone|].
  apply orb_false_iff in Eg as [_ Eg]. apply bool_decide_eq_false in Eg.
  destruct (Z.eqb_spec (RdbStoreConfig.haMode_ cfg) MANUAL_TRIGGER) as [Hmode|Hmode].
  { eapply th_mono; [by eapply th_trigger|]. intros r o' w' Hr. split; [|split; [done|by intros []]]. by destruct Hr as [->|[-> ?]]. }
  eapply th_mono; [|intros r o' w' Hr; split; [exact Hr|]; split; [done|by intros []]].
  destruct (bool_decide (status o = DB_CLOSING)); [by apply th_ret|].
  apply th_bind, th_get. intros tr2. cbv beta. apply th_bind, (th_mono _ _ (fun _ o' w' => o' = o /\ tame w0 w')).
  { destruct (_ && _); simpl; [|by apply th_ret]. by apply th_replay. }
  intros _ o1 w1 [-> Hw1]. apply th_bind. eapply th_mono; [by apply th_replica|]. intros sc o1 w2 [-> Hw2].
  apply th_bind. eapply th_mono; [by apply th_replica|]. intros si o1 w3 [-> Hw3].
  apply th_bind. eapply th_mono; [by apply th_main|]. intros [me mv] o1 w4 (-> & Hw4 & Hlost & Hcount). simpl in Hlost, Hcount.
  apply th_bind. eapply th_mono; [by apply th_main|]. intros [ie iv] o1 w5 (-> & Hw5 & Hlost' & _). simpl in Hlost'.
  apply th_bind, th_get. intros tr3. cbn [fst]. destruct (bool_decide (me = _) || _) eqn:Ec.
  { apply th_ret. simpl. apply orb_true_iff in Ec as [Ec|Ec]; apply bool_decide_eq_true in Ec; auto. }
  apply orb_false_iff in Ec as [Ec _]. apply bool_decide_eq_false in Ec. specialize (Hcount Ec eq_refl).
  destruct (bool_decide (status o = BACKUP_INTERRUPT)) eqn:Est; [apply bool_decide_eq_true in Est; apply th_ret; by right|].
  destruct (Z.eqb_spec (Value.to_int64 mv) 0) as [Hz|Hz].
  { eapply th_main_empty; [done..|]. right. destruct Hcount as [Hx|[_ Hx]]; [left; congruence|by right]. }
  assert (tables (content M w0) <> 0) as Hz' by (destruct Hcount as [<-|[? _]]; done).
  apply th_bind, th_get. intros tr4. cbv beta. destruct (_ && _); [by apply th_ret|]. unfold CompareWithSlave.
  destruct (_ || _); [apply th_ret; by left|]. apply th_config; [done|]. apply th_bind, th_get. intros tr5. apply th_ret.
  destruct (_ && _); [done|by left].
Qed.

End Strategy.

End Steps.


End ReplicaInv.
