(* ===== verification/ReplicaProps.v ===== *)
(** * Theorems on the replica

    [SmallReplica]: a world of databases that are a number of tables and a state of health, where
    the codes of the coming steps and opens are lists; it satisfies the laws, and the witnesses and
    the examples run in it.  [ReplicaProps]: the theorems. *)
From Stdlib Require Import ZArith Lia Ascii.
From stdpp Require Import base gmap list strings pretty.
From coqutil Require Import Datatypes.RecordSetters.
Import OCamlLikeNotations.
From S2P Require Import Prelude Traces CppStd Errno Values StringUtils SqliteStmt StoreConfig StoreOpen Replica ReplicaSteps.

Local Open Scope Z_scope.
Import Run.
#[local] Arguments constant {E} newValue _ /.

Module SmallReplica.
Import SlaveMarks SqliteConnection Crash ReplicaInv SQLiteError.

(** The integrity check has nothing to report, reports something, or cannot even start. *)
Inductive health := Good | Damaged | Broken.

#[export] Instance health_dec : EqDecision health.
Proof. solve_decision. Defined.

Record database := { count : Z; state : health }.

#[export] Instance database_dec : EqDecision database.
Proof. solve_decision. Defined.

(** [plain]: the files that are no databases; [busy]: the databases that cannot be read for now;
    [opens] and [steps]: the codes of the coming opens of a file and steps of a copy; [requests]:
    the coming interrupts; [refused]: the destinations that no copy can be started to; [wals]: the
    sizes of logs; [torn]: the files whose checkpoint fails.  In a world that is not [faulty]
    every database can be read. *)
Record world (faulty : bool) := {
  plain : gset string;
  dbs : gmap string database;
  busy : gset string;
  opens : gmap string (list errno);
  steps : list Z;
  requests : list bool;
  refused : gset string;
  wals : gmap string Z;
  torn : gset string
}.
#[global] Arguments plain {_}.
#[global] Arguments dbs {_}.
#[global] Arguments busy {_}.
#[global] Arguments opens {_}.
#[global] Arguments steps {_}.
#[global] Arguments requests {_}.
#[global] Arguments refused {_}.
#[global] Arguments wals {_}.
#[global] Arguments torn {_}.

Section World.
Context {faulty : bool}.
Abbreviation world := (world faulty).

Definition partial : database := {| count := 1; state := Damaged |}.

Definition health_of (d : option database) : health := match d with Some d => state d | None => Good end.
Definition tables_of (d : option database) : Z := match d with Some d => count d | None => 0 end.

Definition read (d : option database) (q : string) : errno * ValueObject :=
  if faulty && bool_decide (health_of d = Broken) then (E_SQLITE_CORRUPT, VNil)
  else (E_OK, if bool_decide (q = INTEGRITY_CHECK) || bool_decide (q = QUICK_CHECK)
              then VString (if bool_decide (health_of d = Good) then "ok" else "row missing from index")
              else if bool_decide (q = PRAGMA_VERSION) then VInt 1
              else if bool_decide (q = QUERY_INDEX_COUNT_SQL) then VInt 0 else VInt (tables_of d)).

Definition set_db (p : string) (d : option database) (w : world) : world := {w with dbs ::= partial_alter (fun _ => d) p}.

(** A file that has the name of a mark is no database. *)
Definition is_mark (p : string) : bool :=
  bool_decide (Exists (fun m => Str.drop (Str.size p - Str.size m) p = m) MARKS).

#[export] Instance small_disk : Disk world := {|
  access p w :=
    if is_mark p then bool_decide (p ∈ plain w) else bool_decide (p ∈ plain w) || bool_decide (is_Some (dbs w !! p));
  touch p w := (true, {w with plain ::= union {[p]}});
  unlink p w := {w with plain := plain w ∖ {[p]}; dbs ::= delete p};
  file_size p w := match wals w !! p with Some n => Some n | None => match dbs w !! p with Some _ => Some 4096 | None => None end end;
  remove_all p b w := w;
  entries p w := 0;
  has_acl p w := false;
  set_gid p l w := w;
  set_dir_gid p w := w |}.

#[export] Instance small_engine : Engine world := {|
  InnerOpen h w :=
    match default [] (opens w !! file h) with
    | e :: rest => (e, {w with opens ::= insert (file h) rest})
    | [] => (E_OK, match dbs w !! file h with Some _ => w | None => set_db (file h) (Some {| count := 0; state := Good |}) w end)
    end;
  ExecuteForValue p q w := (if faulty && bool_decide (p ∈ busy w) then (E_SQLITE_BUSY, VNil) else read (dbs w !! p) q, w);
  sqlite3_backup_init d s w := (negb (bool_decide (d ∈ refused w)), w);
  sqlite3_backup_step d s n w :=
    match take 10 (steps w) with
    | rc :: rest =>
        (rc, set_db d (if rc =? SQLITE_DONE then dbs w !! s else Some partial) {w with steps := rest})
    | [] => (SQLITE_DONE, set_db d (dbs w !! s) w)
    end;
  sqlite3_backup_pagecount d s w := 1;
  sqlite3_backup_finish d s w := w;
  sqlite3_busy_timeout p n w := w;
  sqlite3_wal_checkpoint p w := (if bool_decide (p ∈ torn w) then 11 else SQLITE_OK, w);
  sqlite3_is_support_binlog p w := false;
  sqlite3_replay_binlog s d w := (SQLITE_OK, w);
  sqlite3_clean_binlog p m w := (SQLITE_OK, w);
  sqlite3_enable_binlog p m w := (SQLITE_OK, w);
  sqlite3_open_v2 p w := (SQLITE_OK, w);
  sqlite3_close_v2 p w := w;
  sqlite3_sleep n w := w;
  sqlite3_interrupt p w := w;
  page_count p w := None;
  interleave st w :=
    match requests w with
    | b :: rest => (if b && bool_decide (st = BACKING_UP) then BACKUP_INTERRUPT else st, {w with requests := rest})
    | [] => (st, w)
    end;
  has_executor w := true |}.

Lemma lookup_set_db p q d w : dbs (set_db q d w) !! p = if decide (q = p) then d else dbs w !! p.
Proof. apply lookup_partial_alter. Qed.

Lemma mark_is_mark p m : m ∈ MARKS -> is_mark (p +:+ m) = true.
Proof.
  intros Hm. apply bool_decide_eq_true, Exists_exists. exists m. split; [done|].
  rewrite Str.size_app, Nat.add_sub. apply Str.drop_app_size.
Qed.

Lemma small_access_mark p m w : m ∈ MARKS -> access (p +:+ m) w = bool_decide (p +:+ m ∈ plain w).
Proof. intros Hm. cbn [access small_disk]. by rewrite mark_is_mark. Qed.

Lemma small_marks w w' : plain w' = plain w -> forall p m, m ∈ MARKS -> access (p +:+ m) w' = access (p +:+ m) w.
Proof. intros Hp p m Hm. by rewrite !small_access_mark, Hp. Qed.

#[export] Program Instance small_laws : ReplicaLaws world (option database) := {|
  content p w := dbs w !! p;
  absent d := d = None;
  tables := tables_of;
  sound d := health_of d = Good |}.
Next Obligation. intros p q w r w' E. apply (f_equal snd) in E. simpl in E. by subst w'. Qed.
Next Obligation.
  intros p q w e v w' E He. simpl in E. destruct (faulty && _); [by injection E as _ <- _|]. injection E as E <-. unfold read in E.
  destruct (faulty && _); injection E as <- <-; done.
Qed.
Next Obligation.
  intros p q w v w' Hq E. simpl in E. destruct (faulty && _); [done|]. injection E as E <-. unfold read in E.
  destruct (faulty && _); [done|]. injection E as <-. set_unfold in Hq. by destruct Hq as [->|[->|[]]].
Qed.
Next Obligation.
  intros p w v w' E. simpl in E. destruct (faulty && _); [done|]. injection E as E <-. unfold read in E.
  destruct (faulty && _); [done|]. injection E as <-.
  destruct (bool_decide (health_of _ = Good)) eqn:Eh; [intros _; by apply bool_decide_eq_true in Eh|]. intros Hx. discriminate Hx.
Qed.
Next Obligation.
  intros p q w v w' E. simpl in E. destruct (faulty && _); [done|]. injection E as E <-. unfold read in E.
  destruct (faulty && _) eqn:Eb; [|done]. apply andb_true_iff in Eb as [_ Eb]. apply bool_decide_eq_true in Eb. by rewrite Eb.
Qed.
Next Obligation. by intros d s w r w' [= <- <-]. Qed.
Next Obligation. done. Qed.
Next Obligation. done. Qed.
Next Obligation. by intros p w r w' [= <- <-]. Qed.
Next Obligation. by intros p m w r w' [= <- <-]. Qed.
Next Obligation. by intros p m w r w' [= <- <-]. Qed.
Next Obligation. by intros p w r w' [= <- <-]. Qed.
Next Obligation. done. Qed.
Next Obligation. done. Qed.
Next Obligation.
  intros st w st' w' E. simpl in E. destruct (requests w) as [|b rest]; injection E as <- <-; [auto|].
  split; [done|]. destruct b; simpl; [|auto]. case_bool_decide; auto.
Qed.
Next Obligation. done. Qed.
Next Obligation. done. Qed.
Next Obligation.
  intros h w e w' E. simpl in E. destruct (default [] _) as [|e0 rest].
  - destruct (dbs w !! file h) as [d|] eqn:Ed; injection E as <- <-; [by split; [|split; [|left]]|].
    split; [|split; [by apply small_marks|]].
    + intros p Hp. rewrite lookup_set_db. by rewrite decide_False by done.
    + right. rewrite lookup_set_db, decide_True by done. auto.
  - injection E as <- <-. split; [done|]. split; [by apply small_marks|by left].
Qed.
Next Obligation.
  intros d s n w rc w' E. simpl in E. destruct (take 10 (steps w)) as [|r rest] eqn:Es; injection E as <- <-.
  - split; [|split; [by apply small_marks|]].
    + intros p Hp. rewrite lookup_set_db. by rewrite decide_False by done.
    + intros _. rewrite !lookup_set_db, decide_True by done. by destruct (decide (d = s)).
  - split; [|split; [by apply small_marks|]].
    + intros p Hp. rewrite lookup_set_db. by rewrite decide_False by done.
    + intros ->. rewrite !lookup_set_db, decide_True by done. by destruct (decide (d = s)).
Qed.
Next Obligation. by intros s d w r w' [= <- <-]. Qed.
Next Obligation.
  intros q w b w' [= <- <-]. split; [done|]. split; simpl.
  - intros r Hr. destruct (is_mark r); [|f_equal]; apply bool_decide_ext; set_solver.
  - intros _. destruct (is_mark q); [|apply orb_true_iff; left]; apply bool_decide_eq_true; set_solver.
Qed.
Next Obligation.
  intros q w. split; [|split; [|split]]; simpl.
  - intros p Hp. apply lookup_delete_ne. intros ->. apply Hp. exists EmptyString. rewrite Str.app_nil_r. split; [set_solver|done].
  - intros r Hr. rewrite lookup_delete_ne by done. destruct (is_mark r); [|f_equal]; apply bool_decide_ext; set_solver.
  - by rewrite lookup_delete_eq.
  - intros p Hp. rewrite lookup_delete. by case_decide.
Qed.
Next Obligation. done. Qed.

(** A copy has at most ten steps before it is done. *)
#[export] Program Instance small_progress : CopyProgress world := {|
  limit := 10;
  work d s w := length (take 10 (steps w)) |}.
Next Obligation.
  intros d s n w rc w' _ E Hin. simpl in E. destruct (take 10 (steps w)) as [|r rest] eqn:Es; injection E as <- <-.
  - apply (bool_decide_eq_true_2 _) in Hin. discriminate Hin.
  - cbn beta. rewrite Es. cbn -[take]. rewrite length_take. lia.
Qed.
Next Obligation. done. Qed.
Next Obligation. intros st w st' w' d s E. simpl in E. by destruct (requests w) as [|b rest]; injection E as <- <-. Qed.
Next Obligation. intros d s w. cbv beta. rewrite length_take. lia. Qed.

End World.
End SmallReplica.

Module ReplicaProps.
Import SlaveMarks SqliteConnection ReplicaStore Crash ReplicaInv SQLiteError.

Section Claims.
Context {W C : Type} `{ReplicaLaws W C} `{!CopyProgress W} (cfg : Config) (Hcfg : owned cfg).
Abbreviation M := (path cfg).
Abbreviation S := (SqliteUtils.GetSlavePath (path cfg)).
Implicit Types (o : t) (w : W).

(** C17: A backup with a verification ([verifyDb]), by the owner of a database on disk with an absolute path, can be cut off
    anywhere: in every world that such a synchronous [Backup], or the task of an asynchronous one for a main database that is there, goes through, the main database is the old one, and the
    replica is the old one, an empty one or a complete copy of the main database, or it is marked as
    unfinished.  This needs that the mark can be written, and that nobody else writes to the two
    databases meanwhile.  A [Backup] that began while no other one was running does not leave the status [BACKING_UP]; when it ends with
    [E_OK] and [BACKUP_FINISHED], the replica holds what the main database holds.  Both end, for a fuel
    beyond the work of the copy, if the copy makes progress ([CopyProgress]: whoever locks a
    database lets go of it after a number of tries); the loop of the code has no bound of its own. *)
Theorem replica_marked_while_partial o w fuel : tied cfg o -> (limit < fuel)%nat ->
  (forall w b w', touch (M +:+ SLAVE_INTERRUPT) w = (b, w') -> b = true) ->
  (exists e o' w' ws, Backup fuel false true (o, fresh w) = Some (e, (o', (w', ws))) /\ Forall (fair cfg w) ws /\
     (status o <> BACKING_UP ->
        (e = E_OK -> status o' = BACKUP_FINISHED -> content S w' = content M w) /\ status o' <> BACKING_UP)) /\
  (~ absent (content M w) -> exists o' w' ws, backup_task fuel (o, fresh w) = Some (tt, (o', (w', ws))) /\ Forall (fair cfg w) ws).
Proof.
  intros Ht Hf Hwr. assert (fair cfg w w) as Hw by (split; auto). split.
  - destruct (th_run _ _ _ _ _ [] (th_backup cfg Hcfg fuel Hf Hwr w o w Ht Hw)) as (e & o' & w' & ws & E & HI & HQ).
    rewrite app_nil_r in E. change (w, []) with (fresh w) in E. exists e, o', w', ws. split; [done|]. split; [done|]. intros Hst. destruct (HQ Hst) as [Hc Hs].
    split; [|done]. intros He Hfin. by apply Hc.
  - intros Ha. destruct (th_run _ _ _ _ _ [] (th_backup_task cfg Hcfg fuel Hf Hwr w o w Ht Hw Ha)) as ([] & o' & w' & ws & E & HI & _).
    rewrite app_nil_r in E. change (w, []) with (fresh w) in E. eauto.
Qed.

(** The beginning of a restore and of a repair. *)
Lemma restore_starts o w fuel force e o1 w1 ws : tied cfg o ->
  ExchangeVerify true force (with_status BACKING_UP o, fresh w) = Some (e, (o1, (w1, ws))) ->
  exists acl, Restore fuel force (o, fresh w) =
    if is_ok e then exchange_copy fuel true true force acl (o1, ((w1, ws) : traced W))
    else (let! _ := ReleaseTempSlaveConnection in let! _ := set_status UNDEFINED in ret e) (o1, ((w1, ws) : traced W)).
Proof.
  intros _ E. exists (has_acl (path (config_ (main o))) w || has_acl (SqliteUtils.GetSlavePath (path (config_ (main o)))) w).
  unfold Restore, ExchangeSlaverToMaster, bind, config, get, set_status, modify in *. cbn -[ExchangeVerify exchange_copy] in *.
  rewrite E. by destruct (is_ok e).
Qed.

(** C18: A replica that is marked as unfinished is never used: [Restore], forced or not, and
    [Repair] end with an error, and the main database is the old one in every world they go
    through. *)
Theorem unfinished_replica_refused o w fuel force : tied cfg o -> IsSlaveInterrupted M w = true ->
  (exists e o' w' ws, Restore fuel force (o, fresh w) = Some (e, (o', (w', ws))) /\ e <> E_OK /\
     Forall (fun w' => content M w' = content M w) ws) /\
  (exists e w' ws, Repair fuel cfg (fresh w) = Some (e, (w', ws)) /\ e <> E_OK /\
     Forall (fun w' => content M w' = content M w) ws).
Proof.
  intros Ht Hm. split.
  - destruct (th_run _ _ _ _ _ [] (th_exchange_marked cfg Hcfg force (with_status BACKING_UP o) w Ht Hm))
      as (e & o1 & w1 & ws & E & HI & (_ & _ & He)).
    rewrite app_nil_r in E. change (w, []) with (fresh w) in E. destruct (restore_starts o w fuel force _ _ _ _ Ht E) as [acl ->].
    rewrite (proj2 (is_ok_false e) He). eexists _, _, _, _. split; [reflexivity|]. split; [done|].
    eapply Forall_impl; [exact HI|]. by intros w' [? _].
  - destruct (th_run _ _ _ _ _ [] (th_check_replica cfg Hcfg (fun w => IsSlaveInterrupted M w = true) (fun e _ => e <> E_OK)
      (new cfg true UNDEFINED) w ltac:(intros ? ? [_ ->]; done) ltac:(done) ltac:(intros; by apply th_verify_marked) ltac:(done) Hm))
      as (e & o1 & w1 & ws & E & HI & (_ & _ & He)).
    rewrite app_nil_r in E. change (w, []) with (fresh w) in E. unfold Repair, repair, bind. rewrite E, (proj2 (is_ok_false e) He). eexists _, _, _.
    split; [reflexivity|]. split; [done|]. eapply Forall_impl; [exact HI|]. by intros w' [? _].
Qed.



End Claims.
(** ** A database with a replica *)

Section Example.
Import SmallReplica.

Definition cfg (mode : Z) : Config := RdbStoreConfig.SetHaMode mode (RdbStoreConfig.of_path "/d/a.db").
Definition writer (mode : Z) (st : SlaveStatus) : t :=
  {| main := {handle (cfg mode) true false with dbHandle_ := true};
     slaveConnection_ := Some {handle (GetSlaveRdbStoreConfig (cfg mode)) true true with dbHandle_ := true};
     isReleaseTempSlaveConn_ := false; backupId_ := false; status := st |}.

(** The main database has [m] tables and its replica [s]. *)
Definition pair_of {faulty} (m s : database) : world faulty :=
  {| plain := ∅; dbs := {["/d/a.db" := m; "/d/a_slave.db" := s]}; busy := ∅; opens := ∅; steps := []; requests := [];
     refused := ∅; wals := ∅; torn := ∅ |}.
Definition good (n : Z) : database := {| count := n; state := Good |}.

Lemma cfg_owned mode : owned (cfg mode).
Proof. done. Qed.

Lemma writer_tied mode st : tied (cfg mode) (writer mode st).
Proof. split; [done|]. by intros h [= <-]. Qed.

Definition interrupted : world true := {pair_of (good 3) (good 2) with plain := {["/d/a.db-syncInterrupt"]} }.

(** The copy takes two steps and waits once; then another thread asks for an end. *)
Definition busy_copy : world true := {pair_of (good 3) (good 2) with steps := [0; 5; 0]; requests := [false; false; true] }.

Lemma interrupted_marked : IsSlaveInterrupted (path (cfg MAIN_REPLICA)) interrupted = true.
Proof. vm_compute. reflexivity. Qed.

Lemma small_limit {faulty} : (limit (W := world faulty) < 11)%nat.
Proof. exact (Nat.lt_succ_diag_r 10). Qed.

Lemma replica_marked_while_partial_witness :
  (exists e o' w' ws, Backup 11 false true (writer MAIN_REPLICA UNDEFINED, fresh busy_copy) = Some (e, (o', (w', ws))) /\
     Forall (fair (cfg MAIN_REPLICA) busy_copy) ws /\ status o' <> BACKING_UP) /\
  Backup 11 false true (writer MAIN_REPLICA UNDEFINED, fresh busy_copy) <> None.
Proof.
  split; [|vm_compute; discriminate].
  destruct (replica_marked_while_partial (cfg MAIN_REPLICA) (cfg_owned _) (writer MAIN_REPLICA UNDEFINED) busy_copy 11
    (writer_tied _ _) small_limit ltac:(by intros w b w' [= <- _])) as [(e & o' & w' & ws & E & HI & HQ) _].
  exists e, o', w', ws. split; [exact E|]. split; [exact HI|]. by apply HQ.
Defined.

Lemma unfinished_replica_refused_witness :
  exists e o' w' ws, Restore 11 true (writer MAIN_REPLICA UNDEFINED, fresh interrupted) = Some (e, (o', (w', ws))) /\ e <> E_OK /\
     Forall (fun w' => content "/d/a.db" w' = Some (good 3)) ws.
Proof.
  destruct (unfinished_replica_refused (cfg MAIN_REPLICA) (cfg_owned _) (writer MAIN_REPLICA UNDEFINED) interrupted 11 true
    (writer_tied _ _) interrupted_marked) as [(e & o' & w' & ws & E & He & HI) _].
  exists e, o', w', ws. split; [exact E|]. split; [exact He|]. exact HI.
Defined.



(** ** What the code does not mean to do *)

(** The end of an operation: its answer, the status, and what the two databases hold. *)
Definition outcome {A} (m : run (t * world true) A) (o : t) (w : world true) : option (A * SlaveStatus * (option database * option database)) :=
  match m (o, w) with
  | Some (a, (o', w')) => Some (a, status o', (dbs w' !! "/d/a.db", dbs w' !! "/d/a_slave.db"))
  | None => None
  end.

Definition broken (n : Z) : database := {| count := n; state := Broken |}.

(** A restore that fails half way leaves the status [BACKING_UP]; every later [Backup] answers
    [E_OK] and makes no backup. *)
Theorem failed_restore_blocks_backup :
  outcome (Restore 11 false) (writer MAIN_REPLICA UNDEFINED) {pair_of (good 0) (good 2) with steps := [10] } =
    Some (E_SQLITE_IOERR, BACKING_UP, (Some partial, Some (good 2))) /\
  forall fuel isAsync verifyDb w, Backup fuel isAsync verifyDb (writer MAIN_REPLICA BACKING_UP, w) =
    Some (E_OK, (writer MAIN_REPLICA BACKING_UP, w : world true)).
Proof. split; [vm_compute; reflexivity|]. reflexivity. Qed.

(** A copy that cannot be started is reported as a success: a backup that copied nothing, and a
    repair that deleted the main database and copied nothing. *)
Theorem unstarted_copy_reported :
  outcome (Backup 11 false true) (writer MAIN_REPLICA UNDEFINED) {pair_of (good 3) (good 2) with refused := {["/d/a_slave.db"]} } =
    Some (E_OK, UNDEFINED, (Some (good 3), Some (good 2))) /\
  outcome (repair 11) (new (cfg MAIN_REPLICA) true UNDEFINED) {pair_of (broken 3) (good 2) with refused := {["/d/a.db"]} } =
    Some (E_OK, UNDEFINED, (Some (good 0), Some (good 2))).
Proof. split; vm_compute; reflexivity. Qed.

(** A main database that cannot be read for now counts as empty: the strategy is to replace it. *)
Theorem busy_main_restored :
  outcome (GenerateExchangeStrategy true) (writer MAIN_REPLICA UNDEFINED) {pair_of (good 3) (good 2) with busy := {["/d/a.db"]} } =
    Some (RESTORE, UNDEFINED, (Some (good 3), Some (good 2))).
Proof. vm_compute. reflexivity. Qed.

(** A main database whose quick check fails instead of reporting is copied over a good replica. *)
Theorem broken_main_backed_up :
  outcome (Backup 11 false true) (writer MAIN_REPLICA UNDEFINED) (pair_of (broken 3) (good 2)) =
    Some (E_OK, BACKUP_FINISHED, (Some (broken 3), Some (broken 3))).
Proof. vm_compute. reflexivity. Qed.

(** A forced restore whose old copy of the damaged database is damaged itself drops the connection
    to the replica, and then uses it. *)
Theorem forced_restore_null : Restore 11 true (writer MAIN_REPLICA UNDEFINED,
  {pair_of (faulty := true) (good 0) (good 2) with opens := {["/d/a_master_corrupted.db" := [E_SQLITE_CORRUPT]]} }) = None /\
  outcome (Restore 11 true) (writer MAIN_REPLICA UNDEFINED) (pair_of (good 0) (good 2)) =
    Some (E_OK, BACKUP_FINISHED, (Some (good 2), Some (good 2))).
Proof. split; vm_compute; reflexivity. Qed.

(** A repair deletes the main database, and when the checkpoint of the replica then fails it deletes
    the replica too and uses the connection it dropped. *)
Theorem repair_null : repair 11 (new (cfg MAIN_REPLICA) true UNDEFINED,
  {pair_of (faulty := true) (broken 3) (good 2) with torn := {["/d/a_slave.db"]}; wals := {["/d/a_slave.db-wal" := 2000000000]} }) = None /\
  outcome (repair 11) (new (cfg MAIN_REPLICA) true UNDEFINED) (pair_of (broken 3) (good 2)) =
    Some (E_OK, BACKUP_FINISHED, (Some (good 2), Some (good 2))).
Proof. split; vm_compute; reflexivity. Qed.

(** A task that cannot open its connection keeps [backupId_], and no further task is started. *)
Theorem failed_task_blocks :
  match backup_task 11 ({writer MAIN_REPLICA UNDEFINED with backupId_ := true},
          {pair_of (faulty := true) (good 3) (good 2) with opens := {["/d/a.db" := [E_SQLITE_CANTOPEN]]} }) with
  | Some (_, (o, _)) => backupId_ o = true | None => False end /\
  forall fuel verifyDb w, Backup fuel true verifyDb ({writer MAIN_REPLICA UNDEFINED with backupId_ := true}, w) =
    Some (E_OK, ({writer MAIN_REPLICA UNDEFINED with backupId_ := true}, w : world true)).
Proof. split; [vm_compute; reflexivity|]. reflexivity. Qed.

(** A backup without verification does not mark the replica: a world it goes through has a partial
    replica that nothing distinguishes from a good one. *)
Theorem unverified_backup_unmarked :
  match Backup 11 false false (writer MAIN_REPLICA UNDEFINED, fresh {pair_of (faulty := true) (good 3) (good 2) with steps := [0] }) with
  | Some (_, (_, (_, ws))) =>
      existsb (fun w => bool_decide (dbs w !! "/d/a_slave.db" = Some partial) && negb (IsSlaveInterrupted "/d/a.db" w)) ws = true
  | None => False end.
Proof. vm_compute. reflexivity. Qed.

End Example.

(** The store and the connection agree on the name of the replica when the first [.db] of the path
    is its end; otherwise they may not, and [Restore] without a path then finds no replica. *)
Theorem slave_names base :
  (Str.find (base +:+ ".db") ".db" 0 = Some (Str.size base) ->
   GetSlaveName (base +:+ ".db") = SqliteUtils.GetSlavePath (base +:+ ".db")) /\
  GetSlaveName "/data/my.db.app/rdb/a.db" <> SqliteUtils.GetSlavePath "/data/my.db.app/rdb/a.db".
Proof.
  split; [|vm_compute; discriminate]. intros Hf. unfold GetSlaveName, SqliteUtils.GetSlavePath.
  by rewrite Hf, SqliteUtils.suffix_pos_app.
Qed.

End ReplicaProps.
