(* ===== verification/FileBackup.v ===== *)
(** * Backup to a file and restore from it

    [FileBackup]: of frameworks/native/rdb/src/rdb_store_impl.cpp the backup of a store to a file
    ([Backup], [InnerBackup]) and the restore from a file or from the replica ([RestoreCommon]),
    also in the background; of connection_pool.cpp the restore of the file of a database
    ([RestoreMasterDb]); of sqlite_utils.cpp the functions on files they use.

    The object is the store of [StoreOpen]; the pool has a reference to the configuration of the
    store, so its functions are operations on the same object.  Statements are those of
    [Transactions.Conn]; connections, the pool and the copying of files are the class [Backing].
    Reports of faults are left out. *)
From Stdlib Require Import ZArith Lia Ascii.
From stdpp Require Import base gmap list strings pretty.
From coqutil Require Import Datatypes.RecordSetters.
Import OCamlLikeNotations.
From S2P Require Import Prelude CppStd Errno Values StringUtils Security StoreConfig Encryption Transactions StoreOpen Replica.

Local Open Scope Z_scope.
Import Run.
#[local] Arguments constant {E} newValue _ /.

(** What backup and restore ask of the rest of the library and of the system.
    [CreateConn] is [Connection::Create] and [CloseConn] the destructor of a connection that was
    made so; [GetStatement] is [RdbStoreImpl::GetStatement] on a connection ([Store]);
    [PoolFull] is [writers_.IsFull()], [PoolInit] the function [Init] of the pool, which may change
    the mutable members of the configuration, [ReleaseConn] gives a connection of the pool back.
    [SlaveBackup] and [SlaveRestore] are [Backup] and [Restore] of a connection ([Replica]).
    [KeyLock] and [KeyUnlock] are [Lock] and [Unlock] of the lock file of a path, [would_block] says
    that [errno] is EWOULDBLOCK.  [real_path] says that [PathToRealPath] succeeds.  [open_in] and
    [open_out] open the streams of [CopyFile], and [pump] writes the one into the other. *)
Class Backing (W : Type) `{Conn.Statements W} := {
  conn : Type;
  CreateConn : Config -> bool -> W -> (errno * option conn) * W;
  CloseConn : conn -> W -> W;
  GetStatement : string -> conn -> W -> (errno * option Conn.stmt) * W;
  PoolFull : W -> bool;
  CloseAllConnections : W -> W;
  PoolInit : Config -> W -> (errno * Config) * W;
  AcquireConnection : bool -> W -> option conn * W;
  ReleaseConn : conn -> W -> W;
  ReopenConns : W -> W;
  AcquireAndDisableTrans : W -> errno * W;
  EnableTrans : bool -> W -> W;
  SlaveBackup : conn -> string -> bool -> W -> errno * W;
  SlaveRestore : conn -> string -> list Z -> bool -> W -> errno * W;
  CheckReplicaForRestore : conn -> bool -> W -> errno * W;
  VectorBackup : conn -> string -> list Z -> W -> errno * W;
  KeyLock : string -> bool -> W -> errno * W;
  KeyUnlock : string -> W -> W;
  would_block : W -> bool;
  real_path : string -> W -> bool;
  open_in : string -> W -> bool;
  open_out : string -> W -> bool * W;
  pump : string -> string -> W -> W;
  NotifyDataChange : W -> W;
  DoCloudSync : string -> W -> W
}.

Module FileBackup.
Import Conn StoreObject.

Definition BACKUP_RESTORE : string := "backup.restore".
Definition ASYNC_RESTORE : string := "-async.restore".
Definition ATTACH_BACKUP_SQL : string := "ATTACH ? AS backup KEY ?".
Definition PRAGMA_BACKUP_JOUR_MODE_WAL : string := "PRAGMA backup.journal_mode=WAL".
Definition EXPORT_SQL : string := "SELECT export_database('backup')".
Definition DETACH_BACKUP_SQL : string := "detach backup".
Definition CIPHER_DEFAULT_ATTACH_CIPHER_PREFIX : string := "PRAGMA cipher_default_attach_cipher='".
Definition CIPHER_DEFAULT_ATTACH_KDF_ITER_PREFIX : string := "PRAGMA cipher_default_attach_kdf_iter=".
Definition CIPHER_DEFAULT_ATTACH_HMAC_ALGO_PREFIX : string := "PRAGMA cipher_default_attach_hmac_algo='".
Definition CIPHER_DEFAULT_ATTACH_KDF_ALGO_PREFIX : string := "PRAGMA cipher_default_attach_kdf_algo='".
Definition CIPHER_DEFAULT_ATTACH_PAGE_SIZE_PREFIX : string := "PRAGMA cipher_default_attach_page_size=".
Definition ALGO_SUFFIX : string := "'".
Definition ITER_V1 : Z := 5000.
Definition ITERS_COUNT : nat := 2.

Section Ops.
Context {W : Type} `{Disk W} `{Files.Files W} `{Backing W}.
Abbreviation op := (run (StoreObject.t * W)).
Implicit Type w : W.

(** *** Files (sqlite_utils.cpp) *)

(** [res = DeleteFile(...) && res]: every file is removed, whatever the others do. *)
Definition DeleteDirtyFiles (backupFilePath : string) w : bool * W :=
  let '(r1, w) := Files.DeleteFile backupFilePath w in
  let '(r2, w) := Files.DeleteFile (backupFilePath +:+ "-shm") w in
  let '(r3, w) := Files.DeleteFile (backupFilePath +:+ "-wal") w in
  (r3 && (r2 && r1), w).

(** A stream that cannot be written to the end is only reported. *)
Definition CopyFile (srcFile destFile : string) w : bool * W :=
  if negb (open_in srcFile w) then (false, w)
  else let '(is_open, w) := open_out destFile w in if negb is_open then (false, w) else (true, pump srcFile destFile w).

(** *** The path of the backup *)

Definition ISFILE (filePath : string) : bool := bool_decide (Str.find filePath "/" 0 = None).

Definition GetDataBasePath (path databasePath : string) w : errno + string :=
  if Str.empty databasePath then inl E_INVALID_FILE_PATH
  else
    let backup :=
      if ISFILE databasePath then Some (StringUtils.ExtractFilePath path +:+ databasePath)
      else if negb (real_path (StringUtils.ExtractFilePath databasePath) w) ||
              bool_decide (Str.substr databasePath (Str.size databasePath - 1) 1 = "/") ||
              bool_decide (Str.substr databasePath (Str.size databasePath - 2) 2 = "\")
           then None else Some databasePath in
    match backup with
    | None => inl E_INVALID_FILE_PATH
    | Some p => if bool_decide (p = path) then inl E_INVALID_FILE_PATH else inr p
    end.

(** The interrupted backup leaves the last complete one under [.tmp]. *)
Definition GetDestPath (path backupPath : string) w : errno + string :=
  match GetDataBasePath path backupPath w with
  | inl e => inl e
  | inr p =>
      let destPath := if access (p +:+ ".tmp") w then p +:+ ".tmp" else p in
      if access destPath w then inr destPath else inl E_INVALID_FILE_PATH
  end.

(** *** Statements for the encryption of an attached database *)

Definition SetDefaultEncryptSql (sql : string) (statement : stmt) : op (errno * stmt) :=
  let! (errCode, statement) := sys (Prepare sql statement) in
  if negb (is_ok errCode) then ret (errCode, statement) else sys (Execute [] statement).

Fixpoint encrypt_sqls (sqls : list string) (statement : stmt) : op errno :=
  match sqls with
  | [] => ret E_OK
  | sql :: rest =>
      let! (errCode, statement) := SetDefaultEncryptSql sql statement in
      if negb (is_ok errCode) then ret errCode else encrypt_sqls rest statement
  end.

(** The statement is used without looking whether there is one. *)
Definition SetDefaultEncryptAlgo (c : option conn) (config : Config) : op errno :=
  match c with
  | None => ret E_DATABASE_BUSY
  | Some h =>
      let p := RdbStoreConfig.cryptoParam_ config in
      if negb (CryptoParam.IsValid p) then ret E_INVALID_ARGS
      else
        let sql := CIPHER_DEFAULT_ATTACH_CIPHER_PREFIX +:+ Encryption.EncryptAlgoDescription (CryptoParam.encryptAlgo p) +:+ ALGO_SUFFIX in
        let! (_, statement) := sys (GetStatement sql h) in
        match statement with
        | None => undefined
        | Some st =>
            encrypt_sqls ([sql] ++
              (if 0 <? CryptoParam.iterNum p then [CIPHER_DEFAULT_ATTACH_KDF_ITER_PREFIX +:+ pretty (CryptoParam.iterNum p)] else []) ++
              [CIPHER_DEFAULT_ATTACH_HMAC_ALGO_PREFIX +:+ Encryption.HmacAlgoDescription (CryptoParam.hmacAlgo p) +:+ ALGO_SUFFIX;
               CIPHER_DEFAULT_ATTACH_KDF_ALGO_PREFIX +:+ Encryption.KdfAlgoDescription (CryptoParam.kdfAlgo p) +:+ ALGO_SUFFIX;
               CIPHER_DEFAULT_ATTACH_PAGE_SIZE_PREFIX +:+ pretty (CryptoParam.cryptoPageSize p)]) st
        end
  end.

(** *** Backup *)

Definition CreateBackupBindArgs (config : Config) (databasePath : string) (destEncryptKey : list Z) : list ValueObject :=
  [VString databasePath;
   if negb (bool_decide (destEncryptKey = [])) && negb (RdbStoreConfig.IsEncrypt config) then VBlob destEncryptKey
   else if RdbStoreConfig.IsEncrypt config then VBlob (RdbStoreConfig.GetEncryptKey config)
   else VString EmptyString].

(** [GetConn(false)]. *)
Definition GetConn : op (errno * option conn) :=
  let! o := self in
  if negb (connectionPool_ o) then ret (E_ALREADY_CLOSED, None)
  else
    let! c := sys (AcquireConnection false) in
    ret (match c with None => E_DATABASE_BUSY | Some _ => E_OK end, c).

Definition SetFileGid (config : Config) : op unit :=
  let p := RdbStoreConfig.path_ config in
  let! _ := sys_ (set_dir_gid p) in
  let! dbFiles := get (fun s => SqliteConnection.GetDbFiles config s.2) in
  let! _ := sys_ (set_gid p dbFiles) in
  if (RdbStoreConfig.haMode_ config =? RdbStoreConfig.HA_SINGLE) || RdbStoreConfig.IsEncrypt config || RdbStoreConfig.IsMemoryRdb config
  then ret tt else sys_ (set_dir_gid (p +:+ SqliteConnection.SUFFIX_BINLOG)).

(** A connection of the pool goes back at the end of the function that has it. *)
Definition with_conn {A} (h : conn) (m : op A) : op A := let! a := m in let! _ := sys_ (ReleaseConn h) in ret a.

(** [GetConn] and the call on the connection; the guard of the transactions ends with the function. *)
Definition BackupSlaveDb (databasePath : string) (verifyDb : bool) : op errno :=
  let! (errCode, c) := GetConn in
  match c with
  | None => ret errCode
  | Some h =>
      let! o := self in
      let guarded := RdbStoreConfig.haMode_ (config_ o) =? SqliteConnection.MANUAL_TRIGGER in
      with_conn h
        (let! errCode := (if guarded then sys AcquireAndDisableTrans else ret E_OK) in
         if negb (is_ok errCode) then ret errCode
         else
           let! errCode := sys (SlaveBackup h databasePath verifyDb) in
           let! acl := get (fun s => has_acl (RdbStoreConfig.path_ (config_ o)) s.2) in
           let! _ := when acl (SetFileGid (config_ o)) in
           let! _ := when guarded (sys_ (EnableTrans (is_ok errCode))) in
           ret errCode)
  end.

Definition CreateWritableConn (config : Config) : op (errno * option conn) :=
  let! (result, c) := sys (CreateConn config true) in
  match c with Some _ => if is_ok result then ret (E_OK, c) else ret (result, None) | None => ret (result, None) end.

(** The export through an attached database: the code of each [Prepare] is overwritten by the one
    of the [Execute] behind it. *)
Definition export (config : Config) (databasePath : string) (destEncryptKey : list Z) (c : option conn) : op errno :=
  let! result := (if RdbStoreConfig.IsEncrypt config then SetDefaultEncryptAlgo c config else ret E_OK) in
  if negb (is_ok result) then ret result
  else
    let! (_, statement) := match c with None => ret (E_DATABASE_BUSY, None) | Some h => sys (GetStatement ATTACH_BACKUP_SQL h) end in
    match statement with
    | None => undefined
    | Some st =>
        let! (errCode, st) := sys (Execute (CreateBackupBindArgs config databasePath destEncryptKey) st) in
        if negb (is_ok errCode) then ret errCode
        else
          let! (_, st) := sys (Prepare PRAGMA_BACKUP_JOUR_MODE_WAL st) in
          let! (errCode, st) := sys (Execute [] st) in
          if negb (is_ok errCode) then ret errCode
          else
            let! (_, st) := sys (Prepare EXPORT_SQL st) in
            let! (ret_, st) := sys (Execute [] st) in
            let! (_, st) := sys (Prepare DETACH_BACKUP_SQL st) in
            let! (res, _) := sys (Execute [] st) in
            ret (if is_ok res then ret_ else res)
    end.

Definition InnerBackup (databasePath : string) (destEncryptKey : list Z) (verifyDb : bool) : op errno :=
  let! o := self in
  if isReadOnly_ o then ret E_NOT_SUPPORT
  else if RdbStoreConfig.dbType_ (config_ o) =? RdbStoreConfig.DB_VECTOR then
    let! (errCode, c) := GetConn in
    match c with None => ret errCode | Some h => with_conn h (sys (VectorBackup h databasePath destEncryptKey)) end
  else if negb (RdbStoreConfig.haMode_ (config_ o) =? RdbStoreConfig.HA_SINGLE) && SqliteUtils.IsSlaveDbName databasePath
  then BackupSlaveDb databasePath verifyDb
  else
    let config := RdbStoreConfig.SetCreateNecessary false (RdbStoreConfig.SetHaMode RdbStoreConfig.HA_SINGLE (config_ o)) in
    let! (result, c) := CreateWritableConn config in
    if negb (is_ok result) then ret result
    else
      let! errCode := export (config_ o) databasePath destEncryptKey c in
      let! _ := match c with Some h => sys_ (CloseConn h) | None => ret tt end in
      ret errCode.

(** The backup to a file: the old file is kept under [.tmp] until the new one is there. *)
Definition backup_file (backupFilePath : string) (encryptKey : list Z) : op errno :=
  let walFile := backupFilePath +:+ "-wal" in
  let tempPath := backupFilePath +:+ ".tmp" in
  let! wal := get (fun s => access walFile s.2) in
  let! clean := (if wal then sys (DeleteDirtyFiles backupFilePath) else ret true) in
  if negb clean then ret E_ERROR
  else
    let! temp := get (fun s => access tempPath s.2) in
    let! moved :=
      (if temp then let! _ := sys (Files.DeleteFile backupFilePath) in ret true
       else
         let! found := get (fun s => access backupFilePath s.2) in
         if found then sys (Files.RenameFile backupFilePath tempPath) else ret true) in
    if negb moved then ret E_ERROR
    else
      let! ret_ := InnerBackup backupFilePath encryptKey true in
      let! wal := get (fun s => access walFile s.2) in
      let! _ :=
        (if negb (is_ok ret_) || wal then
           let! clean := sys (DeleteDirtyFiles backupFilePath) in
           when clean (let! _ := sys (Files.RenameFile tempPath backupFilePath) in ret tt)
         else let! _ := sys (Files.DeleteFile tempPath) in ret tt) in
      ret ret_.

(** An operation under the lock file of backups; whether the lock was obtained is not looked at. *)
Definition locked {A} (m : op A) : op A :=
  let! o := self in
  let! _ := sys (KeyLock (path_ o +:+ BACKUP_RESTORE) true) in
  let! a := m in
  let! _ := sys_ (KeyUnlock (path_ o +:+ BACKUP_RESTORE)) in
  ret a.

Definition Backup (databasePath : string) (encryptKey : list Z) (verifyDb : bool) : op errno :=
  let! o := self in
  if isReadOnly_ o || isMemoryRdb_ o then ret E_NOT_SUPPORT
  else
    let! slave := get (fun s => ReplicaStore.TryGetMasterSlaveBackupPath (config_ o) databasePath false s.2) in
    match slave with
    | Some p => InnerBackup p encryptKey verifyDb
    | None =>
        let! p := get (fun s => GetDataBasePath (path_ o) databasePath s.2) in
        match p with
        | inl e => ret e
        | inr backupFilePath => locked (backup_file backupFilePath encryptKey)
        end
    end.

(** *** Restoring the file of a database (connection_pool.cpp) *)

(** [Init] of the pool, on the configuration of the store. *)
Definition pool_init : op errno := fun s =>
  let '((errCode, config), w) := PoolInit (config_ s.1) s.2 in Some (errCode, ({s.1 with config_ := config }, w)).

Fixpoint check_integrity (rounds : nat) (config : Config) : op bool :=
  match rounds with
  | O => ret false
  | S rounds =>
      let! (ret_, c) := sys (CreateConn config true) in
      let! _ := match c with Some h => sys_ (CloseConn h) | None => ret tt end in
      if is_ok ret_ then ret true
      else if negb (bool_decide (ret_ = E_SQLITE_CORRUPT)) || negb (RdbStoreConfig.IsEncrypt config) then ret false
      else check_integrity rounds (RdbStoreConfig.SetIter ITER_V1 config)
  end.

Definition CheckIntegrity (dbPath : string) : op bool :=
  let! o := self in
  check_integrity ITERS_COUNT
    (RdbStoreConfig.SetHaMode RdbStoreConfig.HA_SINGLE
      (RdbStoreConfig.SetIntegrityCheck RdbStoreConfig.CHECK_FULL (RdbStoreConfig.SetPath dbPath (config_ o)))).

(** The loop that opens the restored file, with the number of iterations of old files. *)
Fixpoint open_restored (rounds : nat) (errCode : errno) : op errno :=
  match rounds with
  | O => ret errCode
  | S rounds =>
      let! errCode := pool_init in
      let! o := self in
      if is_ok errCode then ret errCode
      else if negb (bool_decide (errCode = E_SQLITE_CORRUPT)) || negb (RdbStoreConfig.IsEncrypt (config_ o)) then ret errCode
      else
        let! _ := modify (fun o => {o with config_ := RdbStoreConfig.SetIter ITER_V1 (config_ o) }) in
        open_restored rounds errCode
  end.

(** The old database is removed before the backup is copied to its place. *)
Definition replace_master (newPath backupPath : string) : op errno :=
  let! _ := sys (Files.DeleteFile (backupPath +:+ "-shm")) in
  let! _ := sys (Files.DeleteFile (backupPath +:+ "-wal")) in
  let! _ := sys_ CloseAllConnections in
  let! o := self in
  let! _ := sys_ (SqliteConnection.DeleteAll (config_ o)) in
  let! _ := when (negb (bool_decide (RdbStoreConfig.path_ (config_ o) = newPath)))
              (sys_ (SqliteConnection.DeleteAll (RdbStoreConfig.SetPath newPath (RdbStoreConfig.of_path newPath)))) in
  let! copyRet := sys (CopyFile backupPath newPath) in
  let! errCode := open_restored ITERS_COUNT E_OK in
  let! errCode :=
    (if is_ok errCode then ret errCode
     else
       let! _ := sys_ CloseAllConnections in
       let! o := self in
       let! _ := sys_ (SqliteConnection.DeleteAll (config_ o)) in
       pool_init) in
  ret (if copyRet then errCode else E_ERROR).

Definition RestoreMasterDb (newPath backupPath : string) : op errno :=
  let! sound := CheckIntegrity backupPath in
  if negb sound then ret E_SQLITE_CORRUPT
  else
    let! size := get (fun s => SlaveMarks.GetFileSize (backupPath +:+ "-wal") s.2) in
    if negb (size =? 0) then ret E_SQLITE_CORRUPT else replace_master newPath backupPath.

Definition RestoreByDbSqliteType (newPath backupPath : string) (isForceRestore : bool) : op errno :=
  let! o := self in
  if SqliteUtils.IsSlaveDbName backupPath && negb (RdbStoreConfig.haMode_ (config_ o) =? RdbStoreConfig.HA_SINGLE) then
    let! c := sys (AcquireConnection false) in
    match c with
    | None => ret E_DATABASE_BUSY
    | Some h => with_conn h (sys (SlaveRestore h backupPath [] isForceRestore))
    end
  else RestoreMasterDb newPath backupPath.

(** The branch for a vector database opens a connection of its own for the restore. *)
Definition ChangeDbFileForRestore (newPath backupPath : string) (newKey : list Z) (isForceRestore : bool) : op errno :=
  let! o := self in
  let! full := get (fun s => PoolFull s.2) in
  if negb full || bool_decide (RdbStoreConfig.path_ (config_ o) = backupPath) || bool_decide (newPath = backupPath) then ret E_ERROR
  else if RdbStoreConfig.dbType_ (config_ o) =? RdbStoreConfig.DB_VECTOR then
    let! _ := sys_ CloseAllConnections in
    let! (retVal, c) := sys (CreateConn (config_ o) false) in
    if negb (is_ok retVal) then ret retVal
    else
      match c with
      | None => undefined
      | Some h =>
          let! retVal := sys (SlaveRestore h backupPath newKey isForceRestore) in
          let! _ := sys_ (CloseConn h) in
          if negb (is_ok retVal) then ret retVal else pool_init
      end
  else RestoreByDbSqliteType newPath backupPath isForceRestore.

End Ops.

(** *** Restore (rdb_store_impl.cpp) *)

Section Restore.
Context {W : Type} `{Disk W} `{Engine W} `{Files.Files W} `{Backing W}.
Abbreviation op := (run (StoreObject.t * W)).

Definition RestoreWithPool (pool : bool) (path : string) (isForceRestore : bool) : op errno :=
  if negb pool then ret E_OK
  else
    let! c := sys (AcquireConnection false) in
    match c with
    | None => ret E_DATABASE_BUSY
    | Some h => with_conn h (let! _ := sys_ ReopenConns in sys (SlaveRestore h path [] isForceRestore))
    end.

(** The task that [StartAsyncRestore] gives to the executor. *)
Definition async_restore_task (pool isNeedSetAcl isForceRestore : bool) : op unit :=
  let! o := self in
  let dbPath := RdbStoreConfig.path_ (config_ o) in
  let! result := RestoreWithPool pool dbPath isForceRestore in
  let! result := (if is_ok result then ret result else RestoreWithPool pool dbPath isForceRestore) in
  let! _ := when (negb (is_ok result)) (let! _ := sys (SlaveMarks.SetSlaveInvalid dbPath) in ret tt) in
  let! _ := sys (SlaveMarks.SetSlaveRestoring dbPath false) in
  let! _ := when pool (sys_ ReopenConns) in
  let! _ := when isNeedSetAcl (SetFileGid (config_ o)) in
  sys_ (KeyUnlock (path_ o +:+ ASYNC_RESTORE)).

(** The code, and [isNeedSetAcl] of the task if there is one. *)
Definition StartAsyncRestore : op (errno * option bool) :=
  let! o := self in
  let lock := path_ o +:+ ASYNC_RESTORE in
  let! _ := sys (SlaveMarks.SetSlaveRestoring (path_ o) true) in
  let! err := sys (KeyLock lock false) in
  if negb (is_ok err) then ret (E_OK, None)
  else
    let! executor := get (fun s => has_executor s.2) in
    if negb executor then let! _ := sys_ (KeyUnlock lock) in ret (E_ERROR, None)
    else
      let! acl := get (fun s => isNeedSetAcl_ o || has_acl (RdbStoreConfig.path_ (config_ o)) s.2) in
      ret (E_OK, Some acl).

Definition RestoreInner (destPath : string) (newKey : list Z) (isForceRestore : bool) : op (errno * option bool) :=
  let! o := self in
  let! async := get (fun s => SlaveMarks.IsUseAsyncRestore (config_ o) (path_ o) destPath s.2) in
  if negb async then
    let! acl := get (fun s => isNeedSetAcl_ o || has_acl (RdbStoreConfig.path_ (config_ o)) s.2) in
    let! err := ChangeDbFileForRestore (path_ o) destPath newKey isForceRestore in
    let! o := self in
    let! _ := when acl (SetFileGid (config_ o)) in
    ret (err, None)
  else
    let! c := sys (AcquireConnection false) in
    match c with
    | None => ret (E_DATABASE_BUSY, None)
    | Some h =>
        with_conn h
          (let! errCode := sys (CheckReplicaForRestore h isForceRestore) in
           if negb (is_ok errCode) then ret (errCode, None) else StartAsyncRestore)
    end.

(** A mark without a process that holds the lock is removed. *)
Definition IsInAsyncRestore (dbPath : string) : op bool :=
  let! restoring := get (fun s => SlaveMarks.IsSlaveRestoring dbPath s.2) in
  if negb restoring then ret false
  else
    let! err := sys (KeyLock (dbPath +:+ ASYNC_RESTORE) false) in
    if is_ok err then
      let! _ := sys (SlaveMarks.SetSlaveRestoring dbPath false) in
      let! _ := sys_ (KeyUnlock (dbPath +:+ ASYNC_RESTORE)) in
      ret false
    else get (fun s => would_block s.2).

Context `{Service W} `{Opening W}.

(** What follows a restore, whatever its code. *)
Definition after_restore (service : bool) (errCode : errno) : op unit :=
  let! _ := on_config SecurityPolicy.SetSecurityLabel in
  let! o := self in
  let! _ := when service
    (let! _ := sys_ (Enable (syncerParam_ o)) in
     when (is_ok errCode) (let! _ := sys_ (AfterOpen (syncerParam_ o)) in sys_ NotifyDataChange)) in
  let! _ := when (is_ok errCode)
    (let! _ := ExchangeSlaverToMaster in modify (fun o => {o with rebuild_ := NONE })) in
  sys_ (DoCloudSync EmptyString).

Definition RestoreCommon (backupPath : string) (newKey : list Z) (isForceRestore : bool) : op (errno * option bool) :=
  let! o := self in
  if isReadOnly_ o || isMemoryRdb_ o then ret (E_NOT_SUPPORT, None)
  else if negb (connectionPool_ o) || negb (isOpen_ o) then ret (E_ALREADY_CLOSED, None)
  else
    let lock := path_ o +:+ BACKUP_RESTORE in
    let! _ := sys (KeyLock lock true) in
    let! dest := get (fun s =>
      match ReplicaStore.TryGetMasterSlaveBackupPath (config_ o) backupPath true s.2 with
      | Some p => inr p
      | None => GetDestPath (path_ o) backupPath s.2
      end) in
    match dest with
    | inl e => let! _ := sys_ (KeyUnlock lock) in ret (e, None)
    | inr destPath =>
        let! (_, service) := sys (GetRdbService (syncerParam_ o)) in
        let! _ := when service (sys_ (Disable (syncerParam_ o))) in
        let! r := RestoreInner destPath newKey isForceRestore in
        let! _ := sys_ (KeyUnlock lock) in
        let! _ := after_restore service r.1 in
        ret r
    end.

Definition Restore (backupPath : string) (newKey : list Z) : op (errno * option bool) := RestoreCommon backupPath newKey false.
Definition ForceRestore (backupPath : string) (newKey : list Z) : op (errno * option bool) := RestoreCommon backupPath newKey true.

End Restore.
End FileBackup.
