(* ===== verification/FileBackupProps.v ===== *)
(** * Theorems on backups to files

    [BackupInv]: the documented behaviour of the file system, of SQLite and of its export
    ([BackupLaws]), and what backup and restore do to the files, in the logic of [Traces].
    [SmallBackup]: an instance of the laws.  [BackupProps]: the theorems. *)
From Stdlib Require Import ZArith Lia Ascii.
From stdpp Require Import base gmap list strings pretty.
From coqutil Require Import Datatypes.RecordSetters.
Import OCamlLikeNotations.
From S2P Require Import Prelude Traces CppStd Errno Values StringUtils Security StoreConfig Encryption Transactions StoreOpen Replica ReplicaSteps FileBackup.

Local Open Scope Z_scope.
Import Run.
#[local] Arguments constant {E} newValue _ /.

Module BackupInv.
Import Conn StoreObject Crash FileBackup.

(** *** Worlds with their history *)

Section Instances.
Context {W : Type} `{Files.Files W} `{Backing W}.

#[export] Instance traced_files : Files.Files (traced W) := {|
  Files.stat_size p s := Files.stat_size p s.1;
  Files.LoadBufferFromFile p s := Files.LoadBufferFromFile p s.1;
  Files.open_create p := lift (Files.open_create p);
  Files.SaveBufferToFile p b := lift (Files.SaveBufferToFile p b);
  Files.remove p := lift (Files.remove p);
  Files.rename p q := lift (Files.rename p q);
  Files.access p s := Files.access p s.1;
  Files.MkDir p := lift (Files.MkDir p) |}.

#[export] Instance traced_statements : Statements (traced W) := {|
  stmt := stmt;
  Prepare q st := lift (Prepare q st);
  Reset st := lift (Reset st);
  Execute args st := lift (Execute args st);
  ExecuteForValue args st := lift (ExecuteForValue args st);
  ExecuteForRows args n st := lift (ExecuteForRows args n st);
  Changes st s := Changes st s.1;
  LastInsertRowId st s := LastInsertRowId st s.1;
  GetColumnCount := GetColumnCount;
  GetColumn n st s := GetColumn n st s.1 |}.

#[export] Instance traced_backing : Backing (traced W) := {|
  conn := conn;
  CreateConn c b := lift (CreateConn c b);
  CloseConn h := lift_ (CloseConn h);
  GetStatement q h := lift (GetStatement q h);
  PoolFull s := PoolFull s.1;
  CloseAllConnections := lift_ CloseAllConnections;
  PoolInit c := lift (PoolInit c);
  AcquireConnection b := lift (AcquireConnection b);
  ReleaseConn h := lift_ (ReleaseConn h);
  ReopenConns := lift_ ReopenConns;
  AcquireAndDisableTrans := lift AcquireAndDisableTrans;
  EnableTrans b := lift_ (EnableTrans b);
  SlaveBackup h p b := lift (SlaveBackup h p b);
  SlaveRestore h p k b := lift (SlaveRestore h p k b);
  CheckReplicaForRestore h b := lift (CheckReplicaForRestore h b);
  VectorBackup h p k := lift (VectorBackup h p k);
  KeyLock p b := lift (KeyLock p b);
  KeyUnlock p := lift_ (KeyUnlock p);
  would_block s := would_block s.1;
  real_path p s := real_path p s.1;
  open_in p s := open_in p s.1;
  open_out p := lift (open_out p);
  pump p q := lift_ (pump p q);
  NotifyDataChange := lift_ NotifyDataChange;
  DoCloudSync t := lift_ (DoCloudSync t) |}.

End Instances.

(** *** What the system promises *)

Import ReplicaInv.

Definition file_of (c : Config) : string := (DbPath.GetDbPath c).2.

(** Statements that do not write to the main database. *)
Definition harmless (sql : string) : Prop :=
  sql ∈ [ATTACH_BACKUP_SQL; PRAGMA_BACKUP_JOUR_MODE_WAL; EXPORT_SQL; DETACH_BACKUP_SQL] \/
  String.prefix "PRAGMA cipher_default_attach_" sql = true.

(** [data p w] is the content of the file [p], lock files aside; [held p w] is what the database
    [p] holds, which depends on its files only; [full d c]: a file that contains [d] is without any
    other file a database that holds [c].  [attached h w] is the database that is attached to a
    connection as [backup].  Opening, closing and statements change the files of the databases of
    their connection only.  [export_database] makes the attached database hold what the main one
    holds; detaching it moves its log into the file. *)
Class BackupLaws (W D C : Type) `{Disk W} `{Files.Files W} `{Backing W} := {
  data : string -> W -> option D;
  held : string -> W -> C;
  full : D -> C -> Prop;
  db : conn -> string;
  text : stmt -> string;
  owner : stmt -> conn;
  attached : conn -> W -> option string;
  silent : relation W := fun w w' => (forall p, data p w' = data p w) /\ forall h, attached h w' = attached h w;
  touches (ps : list string) : relation W := fun w w' =>
    forall q, (forall p, p ∈ ps -> ~ part_of p q) -> data q w' = data q w;
  found_law p w : access p w = bool_decide (is_Some (data p w));
  held_law p w w' : (forall q, part_of p q -> data q w' = data q w) -> held p w' = held p w;
  del_law p w r w' : Files.remove p w = (r, w') -> (forall h, attached h w' = attached h w) /\
    (forall q, q <> p -> data q w' = data q w) /\
    (if bool_decide (r = None \/ r = Some Files.ENOENT) then data p w' = None else data p w' = data p w);
  rename_law p q w b w' : Files.rename p q w = (b, w') -> p <> q -> (forall h, attached h w' = attached h w) /\
    (forall r, r <> p -> r <> q -> data r w' = data r w) /\
    (if b then is_Some (data p w) /\ data q w' = data p w /\ data p w' = None else silent w w');
  lock_law p b w e w' : KeyLock p b w = (e, w') -> silent w w';
  unlock_law p w : silent w (KeyUnlock p w);
  create_law c b w e r w' : CreateConn c b w = ((e, r), w') ->
    touches [file_of c] w w' /\ held (file_of c) w' = held (file_of c) w /\ (e = E_OK -> is_Some r) /\
    forall h, r = Some h -> db h = file_of c /\ attached h w' = None;
  shut_law h w : touches (db h :: option_list (attached h w)) w (CloseConn h w) /\ held (db h) (CloseConn h w) = held (db h) w;
  statement_law q h w e r w' : GetStatement q h w = ((e, r), w') ->
    silent w w' /\ forall st, r = Some st -> text st = q /\ owner st = h;
  prepare_law q st w e st' w' : Prepare q st w = (e, st', w') ->
    silent w w' /\ owner st' = owner st /\ text st' = if is_ok e then q else text st;
  execute_law args st w e st' w' (h := owner st) : Execute args st w = (e, st', w') -> harmless (text st) ->
    owner st' = h /\ text st' = text st /\
    touches (db h :: option_list (attached h w) ++ option_list (attached h w')) w w' /\ held (db h) w' = held (db h) w /\
    (attached h w' = attached h w \/ attached h w' = None \/
       text st = ATTACH_BACKUP_SQL /\ exists p, args !! 0%nat = Some (VString p) /\ attached h w' = Some p) /\
    (e = E_OK -> text st = ATTACH_BACKUP_SQL -> forall p, args !! 0%nat = Some (VString p) -> attached h w' = Some p) /\
    (e = E_OK -> text st = PRAGMA_BACKUP_JOUR_MODE_WAL -> attached h w' = attached h w) /\
    (e = E_OK -> text st = EXPORT_SQL -> attached h w' = attached h w /\
       forall p, attached h w = Some p -> held p w' = held (db h) w) /\
    (e = E_OK -> text st = DETACH_BACKUP_SQL -> attached h w' = None /\
       forall p, attached h w = Some p -> data (p +:+ "-wal") w' = None -> exists d, data p w' = Some d /\ full d (held p w))
}.

(** *** The backup *)

Lemma temp_apart p : ~ part_of p (p +:+ ".tmp").
Proof.
  intros (s & Hs & Heq). apply Str.app_cancel_l in Heq as <-.
  by repeat (apply elem_of_cons in Hs as [Hs|Hs]; [discriminate Hs|]); apply not_elem_of_nil in Hs.
Qed.

Lemma temp_other p : p +:+ ".tmp" <> p.
Proof. intros Heq. apply (temp_apart p). exists EmptyString. rewrite Str.app_nil_r. split; [by left|done]. Qed.

Lemma part_self p s : s ∈ DB_SUFFIXES -> part_of p (p +:+ s).
Proof. by exists s. Qed.

Lemma part_refl p : part_of p p.
Proof. exists EmptyString. split; [by left|]. by rewrite Str.app_nil_r. Qed.

Section Backup.
Context {W D C : Type} `{BackupLaws W D C} (m p : string) (Happart : forall q, part_of p q \/ q = p +:+ ".tmp" -> ~ part_of m q).
Abbreviation op := (run (StoreObject.t * traced W)).
Abbreviation tmp := (p +:+ ".tmp").
Abbreviation wal := (p +:+ "-wal").
Implicit Types (w : W) (o : StoreObject.t) (h : conn).

(** The main database and every file that belongs neither to it nor to the new backup stay. *)
Definition mild : relation W := fun w w' =>
  held m w' = held m w /\ forall q, ~ part_of m q -> ~ part_of p q -> data q w' = data q w.

#[export] Instance mild_preorder : PreOrder mild.
Proof.
  split; [by intros w; split|]. intros w1 w2 w3 [Hh Hd] [Hh' Hd']. split; [congruence|]. intros q Hm Hp.
  rewrite Hd', Hd; done.
Qed.

Lemma silent_mild w w' : silent w w' -> mild w w'.
Proof. intros [Hd _]. split; [apply held_law|]; intros; apply Hd. Qed.

Lemma mild_temp w w' : mild w w' -> data tmp w' = data tmp w.
Proof. intros [_ Hd]. apply Hd; [apply Happart; by right|apply temp_apart]. Qed.

(** Removing a file of the backup. *)
Lemma delete_mild q w b w' : part_of p q -> Files.DeleteFile q w = (b, w') ->
  mild w w' /\ (forall r, r <> q -> data r w' = data r w) /\ (b = true -> data q w' = None).
Proof.
  unfold Files.DeleteFile. intros Hq Hdel. destruct (Files.remove q w) as [r w1] eqn:E. injection Hdel as <- <-.
  destruct (del_law _ _ _ _ E) as (_ & Hd & Hr). assert (mild w w1) as Hm.
  { split; [apply held_law|]; intros r' Hr'; [|intros ?]; apply Hd; intros ->; [|done]. revert Hr'. apply Happart. by left. }
  split; [done|]. split; [done|]. intros Hb. destruct r as [e|]; [|by rewrite bool_decide_true in Hr by auto].
  apply Z.eqb_eq in Hb as ->. by rewrite bool_decide_true in Hr by auto.
Qed.

(** A connection to the main database, to which the backup is attached or nothing. *)
Definition tied h w : Prop := db h = m /\ (attached h w = None \/ attached h w = Some p).

Lemma silent_tied h w w' : silent w w' -> tied h w -> tied h w'.
Proof. intros [_ Ha] [Hd Ht]. split; [done|]. by rewrite Ha. Qed.

Lemma touches_mild ps w w' : touches ps w w' -> (forall q, q ∈ ps -> q = m \/ q = p) -> held m w' = held m w -> mild w w'.
Proof. intros Ht Hps Hh. split; [done|]. intros q Hm Hp. apply Ht. intros q' Hq'. by destruct (Hps _ Hq') as [-> | ->]. Qed.

Lemma tied_list h w q : tied h w -> q ∈ db h :: option_list (attached h w) -> q = m \/ q = p.
Proof.
  intros [Hd Ha] Hq. apply elem_of_cons in Hq as [->|Hq]; [by left|]. right.
  destruct Ha as [Ha|Ha]; rewrite Ha in Hq; [by apply not_elem_of_nil in Hq|by apply list_elem_of_singleton in Hq].
Qed.

(** Executing a statement, of which the backup may be attached. *)
Lemma execute_mild args st w e st' w' : tied (owner st) w -> harmless (text st) ->
  (forall q, args !! 0%nat = Some (VString q) -> q = p) -> Execute args st w = (e, st', w') ->
  mild w w' /\ tied (owner st) w' /\ owner st' = owner st /\ text st' = text st.
Proof.
  intros Ht Hh Hargs E. destruct (execute_law _ _ _ _ _ _ E Hh) as (Ho & Htext & Htouch & Hheld & Ha & _).
  pose proof Ht as [Hd Hat]. assert (tied (owner st) w') as Ht'.
  { split; [done|]. destruct Ha as [->|[->|(_ & q & Hq & ->)]]; [done|by left|right]. by rewrite (Hargs _ Hq). }
  split; [|done]. rewrite Hd in Hheld. eapply touches_mild; [done| |done]. intros q Hq.
  rewrite app_comm_cons in Hq. apply elem_of_app in Hq as [Hq|Hq]; [exact (tied_list _ _ _ Ht Hq)|].
  apply (tied_list _ _ _ Ht'). by right.
Qed.

(** A step that keeps [mild], from a world that was reached from [w0]. *)
Lemma th_silent {A} (f : W -> A * W) (Q : A -> StoreObject.t -> W -> Prop) w0 o w : mild w0 w ->
  (forall a w', f w = (a, w') -> silent w w') -> (forall a w', f w = (a, w') -> mild w0 w' -> Q a o w') ->
  through (mild w0) (sys (lift f)) Q o w.
Proof.
  intros Hm Hs HQ. apply th_sys. intros a w' E. assert (mild w0 w') by (etrans; [done|by eapply silent_mild, Hs]). eauto.
Qed.

Lemma th_prepare q st w0 o w (Q : errno * stmt -> StoreObject.t -> W -> Prop) : mild w0 w -> tied (owner st) w ->
  (forall e st' w', Prepare q st w = (e, st', w') -> mild w0 w' -> silent w w' -> tied (owner st) w' -> owner st' = owner st ->
     text st' = (if is_ok e then q else text st) -> Q (e, st') o w') ->
  through (mild w0) (sys (Prepare (C := traced W) q st)) Q o w.
Proof.
  intros Hm Ht HQ. apply th_silent; [done| |]; intros [e st'] w' E; destruct (prepare_law (W := W) _ _ _ _ _ _ E) as (Hs & Ho & Htx); [done|].
  intros. eapply HQ; eauto using silent_tied.
Qed.

Lemma th_execute args st w0 o w (Q : errno * stmt -> StoreObject.t -> W -> Prop) : mild w0 w -> tied (owner st) w ->
  harmless (text st) -> (forall q, args !! 0%nat = Some (VString q) -> q = p) ->
  (forall e st' w', Execute args st w = (e, st', w') -> mild w0 w' -> tied (owner st) w' -> owner st' = owner st ->
     text st' = text st -> Q (e, st') o w') ->
  through (mild w0) (sys (Execute (C := traced W) args st)) Q o w.
Proof.
  intros Hm Ht Hh Ha HQ. apply th_sys. intros [e st'] w' E. destruct (execute_mild _ _ _ _ _ _ Ht Hh Ha E) as (Hmw & ? & ? & ?).
  assert (mild w0 w') by (by etrans). eauto.
Qed.

Lemma harmless_fixed sql : sql ∈ [ATTACH_BACKUP_SQL; PRAGMA_BACKUP_JOUR_MODE_WAL; EXPORT_SQL; DETACH_BACKUP_SQL] -> harmless sql.
Proof. by left. Qed.

(** Where a statement can be made at all. *)
Definition obtainable : Prop := forall q h w e r w', GetStatement q h w = ((e, r), w') -> is_Some r.

Lemma th_encrypt sqls st w0 o w : mild w0 w -> tied (owner st) w -> harmless (text st) -> Forall harmless sqls ->
  through (mild w0) (encrypt_sqls (W := traced W) sqls st) (fun _ o' w' => o' = o /\ mild w0 w' /\ tied (owner st) w') o w.
Proof.
  intros Hm Ht Hh Hs. revert st w Hm Ht Hh. induction Hs as [|sql sqls Hsql Hs IH]; intros st w Hm Ht Hh; simpl.
  { by apply th_ret. }
  apply th_bind. unfold SetDefaultEncryptSql. apply th_bind, th_prepare; [done|done|].
  intros e st1 w1 E Hm1 _ Ht1 Ho1 Htx. destruct (is_ok e) eqn:He; cbn [negb].
  - rewrite <- Ho1 in Ht1. apply th_execute; [done|done|by rewrite Htx|done|]. intros e2 st2 w2 _ Hm2 Ht2 Ho2 Htx2.
    destruct (is_ok e2); cbn [negb]; [|apply th_ret; by rewrite <- Ho1].
    rewrite <- Ho1, <- Ho2. apply IH; [done|by rewrite Ho2|by rewrite Htx2, Htx].
  - apply th_ret. rewrite He. by apply th_ret.
Qed.

Lemma th_algo h c w0 o w : obtainable -> mild w0 w -> tied h w ->
  through (mild w0) (SetDefaultEncryptAlgo (W := traced W) (Some h) c) (fun _ o' w' => o' = o /\ mild w0 w' /\ tied h w') o w.
Proof.
  intros Hob Hm Ht. unfold SetDefaultEncryptAlgo. destruct (CryptoParam.IsValid _); cbn [negb]; [|by apply th_ret].
  apply th_bind, th_silent; [done| |].
  { intros [e r] w' E. by destruct (statement_law (W := W) _ _ _ _ _ _ E). }
  intros [e r] w1 E Hm1. destruct (statement_law (W := W) _ _ _ _ _ _ E) as [Hs Hst], (Hob _ _ _ _ _ _ E) as [st ->].
  destruct (Hst _ eq_refl) as [Htx <-]. eapply th_mono; [apply th_encrypt|by intros ? ? ? ?]; [done|by eapply silent_tied| |].
  - right. by rewrite Htx.
  - cbn [app]. repeat first [apply Forall_cons; split; [by right|] | case_match; cbn [app] | constructor].
Qed.

(** Where preparing never fails. *)
Definition prepares : Prop := forall q st w e st' w', Prepare q st w = (e, st', w') -> e = E_OK.

(** Where the log is gone with the last connection. *)
Definition tidy : Prop := forall args st w st' w' q, Execute args st w = (E_OK, st', w') -> text st = DETACH_BACKUP_SQL ->
  attached (owner st) w = Some q -> data (q +:+ "-wal") w' = None.

(** The backup file has the main database of [w0] in it, once its log is gone. *)
Definition exported (w0 w : W) : Prop :=
  (data wal w = None -> exists d, data p w = Some d /\ full d (held m w0)) /\ (tidy -> data wal w = None).

Lemma bind_args c key q : CreateBackupBindArgs c p key !! 0%nat = Some (VString q) -> q = p.
Proof. by intros [= ->]. Qed.

(** The two statements at the end of the export. *)
Lemma th_export_end st w0 o w : mild w0 w -> tied (owner st) w -> harmless (text st) ->
  through (mild w0)
    (let! (_, st) := sys (Prepare (C := traced W) EXPORT_SQL st) in
     let! (ret_, st) := sys (Execute (C := traced W) [] st) in
     let! (_, st) := sys (Prepare (C := traced W) DETACH_BACKUP_SQL st) in
     let! (res, _) := sys (Execute (C := traced W) [] st) in
     ret (if is_ok res then ret_ else res))
    (fun e o' w' => o' = o /\ mild w0 w' /\ tied (owner st) w' /\
       (prepares -> attached (owner st) w = Some p -> e = E_OK -> attached (owner st) w' = None /\ exported w0 w')) o w.
Proof.
  intros Hm Ht Hh. apply th_bind, th_prepare; [done|done|]. intros e1 st1 w1 E1 Hm1 Hs1 Ht1 Ho1 Hx1.
  apply th_bind, th_execute; [done|by rewrite Ho1|rewrite Hx1; case_match; [by left; right; right; left|done]|done|].
  intros e2 st2 w2 E2 Hm2 Ht2 Ho2 Hx2. rewrite Ho1 in *.
  apply th_bind, th_prepare; [done|by rewrite Ho2|]. intros e3 st3 w3 E3 Hm3 Hs3 Ht3 Ho3 Hx3. rewrite Ho2 in *.
  assert (harmless (text st3)) as Hh3.
  { rewrite Hx3, Hx2, Hx1. case_match; [by left; right; right; right; left|]. case_match; [by left; right; right; left|done]. }
  apply th_bind, th_execute; [done|by rewrite Ho3|done|done|]. intros e4 st4 w4 E4 Hm4 Ht4 Ho4 Hx4. rewrite Ho3 in *.
  apply th_ret. split; [done|]. split; [done|]. split; [done|]. intros Hp Ha He.
  assert (e4 = E_OK) as -> by (revert He; destruct (is_ok e4) eqn:H4; [by apply is_ok_true in H4|done]).
  simpl in He. subst e2. rewrite (Hp _ _ _ _ _ _ E1) in Hx1. rewrite (Hp _ _ _ _ _ _ E3) in Hx3. simpl in Hx1, Hx3.
  destruct (execute_law (W := W) _ _ _ _ _ _ E2) as (_ & _ & _ & _ & _ & _ & _ & Hexp & _); [rewrite Hx1; by left; right; right; left|].
  destruct (execute_law (W := W) _ _ _ _ _ _ E4 Hh3) as (_ & _ & _ & _ & _ & _ & _ & _ & Hdet). rewrite Ho1 in Hexp. rewrite Ho3 in Hdet.
  destruct (Hexp eq_refl Hx1) as [Ha2 Hheld]. destruct (Hdet eq_refl Hx3) as [Ha4 Hfull]. split; [done|].
  assert (attached (owner st) w1 = Some p) as Ha1 by (destruct Hs1 as [_ Hat]; by rewrite Hat).
  assert (attached (owner st) w3 = Some p) as Ha3 by (destruct Hs3 as [_ Hat]; rewrite Hat; congruence).
  split; [|intros Htidy; eapply Htidy; [done|done|by rewrite Ho3]]. intros Hwal.
  specialize (Hheld _ Ha1). destruct (Hfull p Ha3 Hwal) as (d & Hd & Hf).
  exists d. split; [done|]. destruct Hs3 as [Hd3 _]. rewrite (held_law p w2 w3), Hheld in Hf by (intros; apply Hd3).
  destruct Ht1 as [Hdb _]. rewrite Hdb in Hf. destruct Hm1 as [Hm1 _]. by rewrite Hm1 in Hf.
Qed.

Lemma th_export h c key w0 o w : obtainable -> mild w0 w -> tied h w ->
  through (mild w0) (export (W := traced W) c p key (Some h)) (fun e o' w' => o' = o /\ mild w0 w' /\ tied h w' /\
    (prepares -> e = E_OK -> attached h w' = None /\ exported w0 w')) o w.
Proof.
  intros Hob Hm Ht. unfold export. apply th_bind.
  eapply th_mono with (Q := fun _ o' w' => o' = o /\ mild w0 w' /\ tied h w').
  { destruct (RdbStoreConfig.IsEncrypt c); [by apply th_algo|by apply th_ret]. }
  intros e o1 w1 (-> & Hm1 & Ht1). destruct (is_ok e) eqn:He; cbn [negb]; [|apply is_ok_false in He; apply th_ret; by auto 6].
  apply th_bind, th_silent; [done| |].
  { intros [e2 r] w' E. by destruct (statement_law (W := W) _ _ _ _ _ _ E). }
  intros [e2 r] w2 E Hm2. destruct (statement_law (W := W) _ _ _ _ _ _ E) as [Hs Hst], (Hob _ _ _ _ _ _ E) as [st ->].
  destruct (Hst _ eq_refl) as [Htx <-]. pose proof (silent_tied _ _ _ Hs Ht1) as Ht2.
  apply th_bind, th_execute; [done|done|rewrite Htx; by left; left|apply bind_args|].
  intros e3 st3 w3 E3 Hm3 Ht3 Ho3 Hx3. assert (e3 = E_OK -> attached (owner st) w3 = Some p) as Ha3.
  { intros ->. destruct (execute_law (W := W) _ _ _ _ _ _ E3) as (_ & _ & _ & _ & _ & Hat & _); [rewrite Htx; by left; left|]. by apply Hat. }
  destruct (is_ok e3) eqn:He3; cbn [negb]; [apply is_ok_true in He3; specialize (Ha3 He3)|].
  2: { apply is_ok_false in He3. apply th_ret. by auto 6. }
  apply th_bind, th_prepare; [done|by rewrite Ho3|]. intros e4 st4 w4 E4 Hm4 Hs4 Ht4 Ho4 Hx4. rewrite Ho3 in *.
  assert (harmless (text st4)) as Hh4.
  { rewrite Hx4, Hx3, Htx. case_match; [by left; right; left|by left; left]. }
  apply th_bind, th_execute; [done|by rewrite Ho4|done|done|]. intros e5 st5 w5 E5 Hm5 Ht5 Ho5 Hx5. rewrite Ho4 in *.
  destruct (is_ok e5) eqn:He5; cbn [negb]; [apply is_ok_true in He5 as ->|apply is_ok_false in He5; apply th_ret; by auto 6].
  eapply th_mono; [apply th_export_end; [done|by rewrite Ho5|by rewrite Hx5]|]. rewrite Ho5.
  intros e6 o6 w6 (-> & Hm6 & Ht6 & Hok). split; [done|]. split; [done|]. split; [done|]. intros Hp. apply Hok; [done|].
  rewrite (Hp _ _ _ _ _ _ E4) in Hx4. simpl in Hx4.
  destruct (execute_law (W := W) _ _ _ _ _ _ E5 Hh4) as (_ & _ & _ & _ & _ & _ & Hpr & _). rewrite Ho4 in Hpr.
  rewrite (Hpr eq_refl Hx4). destruct Hs4 as [_ Hat]. by rewrite Hat.
Qed.

Lemma th_inner_backup c key verify w0 o w : obtainable -> mild w0 w -> c = config_ o -> file_of c = m ->
  (RdbStoreConfig.dbType_ c =? RdbStoreConfig.DB_VECTOR) = false ->
  negb (RdbStoreConfig.haMode_ c =? RdbStoreConfig.HA_SINGLE) && SqliteUtils.IsSlaveDbName p = false ->
  through (mild w0) (InnerBackup (W := traced W) p key verify) (fun e o' w' => o' = o /\ mild w0 w' /\
    (prepares -> e = E_OK -> exported w0 w')) o w.
Proof.
  intros Hob Hm -> Hf Hv Hs. unfold InnerBackup. apply th_bind, th_get. intros tr. cbn [fst]; clear tr.
  destruct (isReadOnly_ o); [by apply th_ret|]. rewrite Hv, Hs.
  set (c := RdbStoreConfig.SetCreateNecessary _ _). assert (file_of c = m) as Hc by exact Hf.
  unfold CreateWritableConn. apply th_bind, th_bind, th_sys. intros [e r] w1 E.
  destruct (create_law (W := W) _ _ _ _ _ _ E) as (Ht & Hheld & Hsome & Hdb). rewrite Hc in *.
  assert (mild w w1) as Hm1 by (eapply touches_mild; [done|intros q Hq; apply list_elem_of_singleton in Hq; by left|done]).
  split; [by etrans|]. assert (mild w0 w1) as Hm01 by (by etrans). clear Hm1.
  destruct r as [h|]; [destruct (is_ok e) eqn:He|]; apply th_ret.
  - cbn [is_ok negb]. destruct (Hdb _ eq_refl) as [Hh Ha]. apply th_bind.
    eapply th_mono; [apply (th_export h (config_ o) key w0 o w1 Hob Hm01); split; [done|by left]|].
    intros e2 o2 w2 (-> & Hm2 & Ht2 & Hok). apply th_bind.
    destruct (shut_law (W := W) h w2) as [Hts Hhs]. rewrite Hh in Hhs.
    assert (mild w2 (CloseConn h w2)) as Hm3 by (eapply touches_mild; [exact Hts|intros q Hq; by eapply tied_list|done]).
    apply th_sys_; [by etrans|]. apply th_ret. split; [done|]. split; [by etrans|]. intros Hp Hok2.
    destruct (Hok Hp Hok2) as [Ha2 Hexp]. rewrite Ha2, Hh in Hts.
    assert (forall q, part_of p q -> data q (CloseConn h w2) = data q w2) as Hsame.
    { intros q Hq. apply Hts. intros q' Hq'. apply list_elem_of_singleton in Hq' as ->. apply Happart. by left. }
    unfold exported. rewrite !Hsame; [done|apply part_refl|apply part_self; by repeat (left || right)].
  - rewrite He. apply is_ok_false in He. apply th_ret. by auto.
  - assert (e <> E_OK) as He by (intros ->; by destruct (Hsome eq_refl)). apply is_ok_false in He as Hf2. rewrite Hf2.
    apply th_ret. by auto.
Qed.

(** *** The file *)

(** What a restore is offered ([GetDestPath]). *)
Definition offered w : option D := match data tmp w with Some d => Some d | None => data p w end.

(** A backup that was there is there, or the new one is complete. *)
Definition kept (w0 w : W) : Prop := held m w = held m w0 /\
  forall d, offered w0 = Some d -> exists d', offered w = Some d' /\ (d' = d \/ full d' (held m w0)).

(** The old backup is under [.tmp], if there was one. *)
Definition backed (w0 w : W) : Prop := held m w = held m w0 /\ forall d, offered w0 = Some d -> data tmp w = Some d.

Lemma backed_kept w0 w : backed w0 w -> kept w0 w.
Proof. intros [Hh Hb]. split; [done|]. intros d Hd. exists d. split; [|by left]. unfold offered at 1. by rewrite (Hb _ Hd). Qed.

Lemma mild_backed w0 w w' : mild w w' -> backed w0 w -> backed w0 w'.
Proof. intros Hm [Hh Hb]. split; [destruct Hm; congruence|]. intros d Hd. rewrite (mild_temp _ _ Hm). by apply Hb. Qed.

Lemma backed_offered w0 w d : backed w0 w -> offered w0 = Some d -> offered w = Some d.
Proof. intros [_ Hb] Hd. unfold offered at 1. by rewrite (Hb _ Hd). Qed.

Lemma th_erase I q o w (Q : bool -> StoreObject.t -> W -> Prop) : (forall b w', Files.DeleteFile q w = (b, w') -> I w' /\ Q b o w') ->
  through I (sys (Files.DeleteFile (W := traced W) q)) Q o w.
Proof.
  intros HQ. unfold Files.DeleteFile. apply th_sys_then with (f := lift (Files.remove q)), th_sys. intros r w' E.
  destruct (HQ (match r with None => true | Some e => e =? Files.ENOENT end) w') as [HI Hq]; [by unfold Files.DeleteFile; rewrite E|].
  split; [done|]. intros tr. by split; [exists []|].
Qed.

Lemma th_dirty w0 o w (Q : bool -> StoreObject.t -> W -> Prop) : backed w0 w ->
  (forall b w', mild w w' -> (b = true -> data p w' = None) -> Q b o w') ->
  through (kept w0) (sys (DeleteDirtyFiles (W := traced W) p)) Q o w.
Proof.
  intros Hb HQ. unfold DeleteDirtyFiles.
  apply th_sys_then, th_erase. intros b1 w1 E1. destruct (delete_mild _ _ _ _ (part_refl p) E1) as (Hm1 & _ & Hn1).
  split; [by eapply backed_kept, mild_backed|].
  apply th_sys_then, th_erase. intros b2 w2 E2. destruct (delete_mild (p +:+ "-shm") w1 b2 w2) as (Hm2 & Hd2 & _); [apply part_self; by repeat (left || right)|done|].
  assert (mild w w2) as Hm12 by (by etrans). split; [by eapply backed_kept, mild_backed|].
  apply th_sys_then, th_erase. intros b3 w3 E3. destruct (delete_mild wal w2 b3 w3) as (Hm3 & Hd3 & _); [apply part_self; by repeat (left || right)|done|].
  assert (mild w w3) as Hm13 by (by etrans). split; [by eapply backed_kept, mild_backed|].
  intros tr. split; [by exists []|]. apply HQ; [done|]. intros Hb3. apply andb_true_iff in Hb3 as [_ Hb3]. apply andb_true_iff in Hb3 as [_ Hb3].
  assert (forall s, s <> EmptyString -> p <> p +:+ s) as Hne.
  { intros s Hs Heq. rewrite <- (Str.app_nil_r p) in Heq at 1. apply Str.app_cancel_l in Heq. by apply Hs. }
  rewrite Hd3, Hd2; [auto|by apply Hne|by apply Hne].
Qed.

Lemma access_data q w : access q w = true <-> is_Some (data q w).
Proof. rewrite found_law. apply bool_decide_eq_true. Qed.

Lemma access_none q w : access q w = false <-> data q w = None.
Proof. rewrite found_law, bool_decide_eq_false. destruct (data q w); split; [intros []; eauto|done|done|by intros _ [? [=]]]. Qed.

(** Renaming the backup and its old name into each other. *)
Lemma rename_held q r w b w' : (q = p /\ r = tmp \/ q = tmp /\ r = p) -> Files.rename q r w = (b, w') -> held m w' = held m w.
Proof.
  intros Hqr E. destruct (rename_law (W := W) _ _ _ _ _ E) as (_ & Hd & _); [pose proof (temp_other p); destruct Hqr as [[-> ->]|[-> ->]]; congruence|].
  apply held_law. intros s Hs. assert (s <> p /\ s <> tmp) as [].
  { split; intros ->; [apply (Happart p)|apply (Happart tmp)]; [left; apply part_refl|done|by right|done]. }
  apply Hd; destruct Hqr as [[-> ->]|[-> ->]]; done.
Qed.

Lemma th_access I q o w (Q : bool -> StoreObject.t -> W -> Prop) : Q (access q w) o w ->
  through I (get (fun s : StoreObject.t * traced W => access q s.2)) Q o w.
Proof. intros HQ. by apply th_get. Qed.

Lemma th_aside w0 o w : w = w0 \/ backed w0 w -> held m w = held m w0 ->
  through (kept w0)
    (if access tmp w then let! _ := sys (Files.DeleteFile p) in ret true
     else
       let! found := get (fun s => access p s.2) in
       if found then sys (Files.RenameFile p tmp) else ret true)
    (fun moved o' w' => o' = o /\ kept w0 w' /\
       if moved then backed w0 w' else forall d, offered w0 = Some d -> offered w' = Some d) o w.
Proof.
  intros Hw Hh. destruct (access tmp w) eqn:Ht.
  - apply access_data in Ht as [d0 Ht]. assert (backed w0 w) as Hb.
    { destruct Hw as [->|]; [|done]. split; [done|]. intros d. unfold offered. by rewrite Ht. }
    apply th_bind, th_erase. intros b w' E. destruct (delete_mild _ _ _ _ (part_refl p) E) as (Hm & _).
    pose proof (mild_backed _ _ _ Hm Hb). pose proof (backed_kept w0 w'). split; [by auto|]. apply th_ret. by auto.
  - apply access_none in Ht. apply th_bind, th_access.
    assert (forall d, offered w0 = Some d -> data p w = Some d) as Hold.
    { intros d Hd. destruct Hw as [->|[_ Hb]]; [unfold offered in Hd; by rewrite Ht in Hd|]. rewrite (Hb _ Hd) in Ht. done. }
    destruct (access p w) eqn:Hp; [|apply access_none in Hp].
    + apply th_sys. intros b w' E. pose proof (rename_held _ _ _ _ _ (or_introl (conj eq_refl eq_refl)) E) as Hh'.
      destruct (rename_law (W := W) _ _ _ _ _ E) as (_ & _ & Hr); [intros Heq; by apply (temp_other p)|]. destruct b.
      * destruct Hr as (_ & Hr & _). assert (backed w0 w') as Hb; [|by auto using backed_kept]. split; [congruence|].
        intros d Hd. rewrite Hr. auto.
      * destruct Hr as [Hr _]. assert (forall d, offered w0 = Some d -> offered w' = Some d) as Ho.
        { intros d Hd. unfold offered at 1. rewrite !Hr, Ht. auto. }
        assert (kept w0 w') by (split; [congruence|]; intros d Hd; eauto). by auto.
    + apply th_ret. split; [done|]. assert (backed w0 w) by (split; [done|]; intros d Hd; rewrite (Hold d Hd) in Hp; done).
      by auto using backed_kept.
Qed.

(** The new file is removed and the old one gets its name back. *)
Lemma th_restored w0 o w : backed w0 w ->
  through (kept w0)
    (let! clean := sys (DeleteDirtyFiles (W := traced W) p) in
     when clean (let! _ := sys (Files.RenameFile (W := traced W) tmp p) in ret tt))
    (fun _ o' w' => o' = o /\ kept w0 w' /\ forall d, offered w0 = Some d -> offered w' = Some d) o w.
Proof.
  intros Hb. apply th_bind, (th_dirty w0); [done|]. intros b w1 Hm _. pose proof (mild_backed _ _ _ Hm Hb) as Hb1.
  destruct b; cbn [when]; [|apply th_ret; split; [done|]; split; [by apply backed_kept|]; intros d; by apply backed_offered].
  apply th_bind, th_sys. intros b w2 E. pose proof (rename_held _ _ _ _ _ (or_intror (conj eq_refl eq_refl)) E) as Hh.
  destruct (rename_law (W := W) _ _ _ _ _ E (temp_other p)) as (_ & _ & Hr).
  assert (forall d, offered w0 = Some d -> offered w2 = Some d) as Ho.
  { destruct b; [|destruct Hr as [Hr _]; intros d Hd; unfold offered at 1; rewrite !Hr; by apply backed_offered with w0].
    destruct Hr as (_ & Hp & Ht). intros d Hd. unfold offered at 1. rewrite Ht, Hp. by apply Hb1. }
  assert (kept w0 w2) as Hk by (split; [destruct Hb1; congruence|]; intros d Hd; eauto). split; [done|]. by apply th_ret.
Qed.

Lemma th_finish ret_ w0 o w : backed w0 w -> (ret_ = E_OK -> exported w0 w) ->
  through (kept w0)
    (let! wal := get (fun s => access wal s.2) in
     let! _ :=
       (if negb (is_ok ret_) || wal then
          let! clean := sys (DeleteDirtyFiles p) in
          when clean (let! _ := sys (Files.RenameFile tmp p) in ret tt)
        else let! _ := sys (Files.DeleteFile tmp) in ret tt) in
     ret ret_)
    (fun e o' w' => o' = o /\ kept w0 w' /\ (e <> E_OK -> forall d, offered w0 = Some d -> offered w' = Some d) /\
       (e = E_OK -> tidy -> exists d, data p w' = Some d /\ full d (held m w0))) o w.
Proof.
  intros Hb Hexp. apply th_bind, th_access. apply th_bind.
  destruct (is_ok ret_) eqn:Hr; cbn [negb orb]; [apply is_ok_true in Hr as ->; specialize (Hexp eq_refl) as [Hexp Htidy]|apply is_ok_false in Hr].
  - destruct (access wal w) eqn:Hw; cbn [orb].
    + apply access_data in Hw as [d0 Hw]. eapply th_mono; [by apply (th_restored w0)|]. intros [] o' w' (-> & Hk & _). apply th_ret. split; [done|].
      split; [done|]. split; [done|]. intros _ Ht. rewrite (Htidy Ht) in Hw. done.
    + apply access_none in Hw. destruct (Hexp Hw) as (d0 & Hd0 & Hf). apply th_bind, th_erase. intros b w' E.
      unfold Files.DeleteFile in E. destruct (Files.remove tmp w) as [r w1] eqn:Er. injection E as <- <-.
      destruct (del_law (W := W) _ _ _ _ Er) as (_ & Hd & Hr).
      assert (data p w1 = Some d0) as Hp1 by (rewrite Hd; [done|intros Heq; by apply (temp_other p)]).
      assert (kept w0 w1); [|split; [done|]; apply th_ret, th_ret; split; [done|]; split; [done|]; split; [done|]; eauto]. split.
      { destruct Hb as [Hb _]. rewrite <- Hb. apply held_law. intros s Hs. apply Hd. intros ->. apply (Happart tmp); [by right|done]. }
      intros d Ho. unfold offered at 1. rewrite Hp1. destruct (data tmp w1) as [d1|] eqn:Hd1; [|eauto].
      destruct Hb as [_ Hb]. specialize (Hb _ Ho). case_bool_decide; [congruence|]. exists d1. split; [done|]. left. congruence.
  - eapply th_mono; [by apply (th_restored w0)|]. intros [] o' w' (-> & Hk & Ho). apply th_ret. by split.
Qed.

Lemma th_backup_file key w0 o : obtainable -> prepares -> file_of (config_ o) = m ->
  (RdbStoreConfig.dbType_ (config_ o) =? RdbStoreConfig.DB_VECTOR) = false ->
  negb (RdbStoreConfig.haMode_ (config_ o) =? RdbStoreConfig.HA_SINGLE) && SqliteUtils.IsSlaveDbName p = false ->
  (is_Some (data wal w0) -> is_Some (data tmp w0)) ->
  through (kept w0) (backup_file (W := traced W) p key)
    (fun e o' w' => o' = o /\ kept w0 w' /\ (e <> E_OK -> forall d, offered w0 = Some d -> offered w' = Some d) /\
       (e = E_OK -> tidy -> exists d, data p w' = Some d /\ full d (held m w0))) o w0.
Proof.
  intros Hob Hpr Hf Hv Hs Hstart. unfold backup_file. apply th_bind, th_access, th_bind.
  eapply th_mono with (Q := fun _ o' w => o' = o /\ held m w = held m w0 /\ (w = w0 \/ backed w0 w)).
  { destruct (access wal w0) eqn:Hw; [|apply th_ret; by auto]. apply access_data in Hw. destruct (Hstart Hw) as [d0 Hd0].
    assert (backed w0 w0) as Hb by (split; [done|]; intros d; unfold offered; by rewrite Hd0).
    apply (th_dirty w0 _ _ _ Hb). intros b w' Hm _. split; [done|]. split; [by destruct Hm|]. right. by eapply mild_backed. }
  intros clean o1 w1 (-> & Hh1 & Hw1).
  assert (kept w0 w1 /\ forall d, offered w0 = Some d -> offered w1 = Some d) as [Hk1 Ho1].
  { destruct Hw1 as [->|Hb]; [split; [split; [done|]; eauto|done]|]. split; [by apply backed_kept|]. intros d. by apply backed_offered. }
  destruct clean; cbn [negb]; [|by apply th_ret]. apply th_bind, th_access, th_bind.
  eapply th_mono; [by apply (th_aside w0)|]. intros moved o2 w2 (-> & Hk2 & Hb). destruct moved; cbn [negb]; [|by apply th_ret].
  apply th_bind. eapply th_mono with (Q := fun e o' w' => o' = o /\ mild w2 w' /\ (prepares -> e = E_OK -> exported w2 w')).
  { eapply th_weaken; [|by apply (th_inner_backup (config_ o))]. intros w' Hm. by eapply backed_kept, mild_backed. }
  intros e o3 w3 (-> & Hm & Hexp). apply th_finish; [by eapply mild_backed|]. intros He. destruct (Hexp Hpr He) as [Hd Ht].
  split; [|done]. intros Hw. destruct Hb as [<- _]. by apply Hd.
Qed.

(** The lock file does not matter. *)
Lemma silent_kept w0 w w' : silent w w' -> kept w0 w -> kept w0 w'.
Proof.
  intros Hs [Hh Hk]. pose proof (silent_mild _ _ Hs) as [Hm _]. destruct Hs as [Hd _]. split; [congruence|].
  intros d Ho. unfold offered at 1. rewrite !Hd. by apply Hk.
Qed.

Lemma silent_start w0 w1 w : silent w0 w1 -> kept w1 w -> kept w0 w.
Proof.
  intros Hs [Hh Hk]. pose proof (silent_mild _ _ Hs) as [Hm _]. destruct Hs as [Hd _]. rewrite Hm in *. split; [done|].
  intros d Ho. apply Hk. unfold offered. by rewrite !Hd.
Qed.

Lemma th_file_backup path key w0 o : obtainable -> prepares -> file_of (config_ o) = m ->
  (RdbStoreConfig.dbType_ (config_ o) =? RdbStoreConfig.DB_VECTOR) = false ->
  negb (RdbStoreConfig.haMode_ (config_ o) =? RdbStoreConfig.HA_SINGLE) && SqliteUtils.IsSlaveDbName p = false ->
  (is_Some (data wal w0) -> is_Some (data tmp w0)) -> GetDataBasePath (path_ o) path w0 = inr p ->
  forall verify, through (kept w0) (Backup (W := traced W) path key verify)
    (fun e o' w' => o' = o /\ kept w0 w' /\ (e <> E_OK -> forall d, offered w0 = Some d -> offered w' = Some d) /\
       (e = E_OK -> tidy -> exists d, data p w' = Some d /\ full d (held m w0))) o w0.
Proof.
  intros Hob Hpr Hf Hv Hs Hstart Hp verify. assert (kept w0 w0) as Hk0 by (split; [done|]; eauto). unfold Backup. apply th_bind, th_get. intros tr. cbn [fst]. clear tr.
  destruct (isReadOnly_ o || isMemoryRdb_ o); [by apply th_ret|]. apply th_bind, th_get. intros tr. cbn [fst snd].
  unfold ReplicaStore.TryGetMasterSlaveBackupPath. assert (Str.empty path = false) as ->.
  { unfold GetDataBasePath in Hp. by destruct (Str.empty path). }
  cbn [negb orb]. apply th_bind, th_get. intros tr'. cbn [fst snd].
  change (GetDataBasePath (path_ o) path (w0, tr')) with (GetDataBasePath (path_ o) path w0). rewrite Hp. clear tr tr'.
  unfold locked. apply th_bind, th_get. intros tr. cbn [fst]. clear tr. apply th_bind, th_sys. intros e1 w1 E1.
  pose proof (lock_law (W := W) _ _ _ _ _ E1) as Hs1.
  split; [by eapply silent_kept|]. apply th_bind.
  pose proof (silent_mild _ _ Hs1) as [Hm1 _]. assert (offered w1 = offered w0) as Ho1 by (unfold offered; by rewrite !(proj1 Hs1)).
  eapply th_weaken; [intros w; exact (silent_start w0 w1 w Hs1)|].
  eapply th_mono; [apply th_backup_file; try done; by rewrite !(proj1 Hs1)|]. rewrite Ho1, Hm1.
  intros e o2 w2 (-> & Hk & Hno & Hyes). pose proof (unlock_law (W := W) (path_ o +:+ BACKUP_RESTORE) w2) as Hs2.
  apply (silent_start w0) in Hk; [|done]. apply (silent_kept _ _ _ Hs2) in Hk. apply th_bind, th_sys_; [done|]. apply th_ret.
  unfold offered at 2. by rewrite !(proj1 Hs2).
Qed.

End Backup.

(** *** The restore *)

(** The files that the removal of the database [m] may remove, and those of [m] itself. *)
Definition victim (m q : string) : Prop :=
  part_of m q \/ (exists s d, (s, d) ∈ SqliteConnection.FILE_SUFFIXES /\ (q = m +:+ s \/ q = SqliteUtils.GetSlavePath m +:+ s)) \/
  String.prefix (SqliteConnection.GetBinlogFolderPath m) q = true.

(** More of the file system and of SQLite.  A file that is [full] and has no other files beside it
    is a database with that content; a log of size zero holds nothing, and nor does the index of the
    log.  The pool opens and closes the database of its configuration. *)
Class RestoreLaws (W D C : Type) `{BackupLaws W D C} := {
  home : string;
  alone_law p w d c : data p w = Some d -> full d c ->
    (forall s, s ∈ DB_SUFFIXES -> s <> EmptyString -> data (p +:+ s) w = None) -> held p w = c;
  closed_law p w d : data p w = Some d -> SlaveMarks.GetFileSize (p +:+ "-wal") w = 0 -> full d (held p w);
  log_law p w w' : SlaveMarks.GetFileSize (p +:+ "-wal") w = 0 ->
    (forall q, q <> p +:+ "-shm" -> q <> p +:+ "-wal" -> data q w' = data q w) ->
    (data (p +:+ "-wal") w' = None \/ data (p +:+ "-wal") w' = data (p +:+ "-wal") w) -> held p w' = held p w;
  gone_law p w : data p (unlink p w) = None /\ forall q, q <> p -> data q (unlink p w) = data q w;
  folder_law p b w q : String.prefix p q = false -> data q (remove_all p b w) = data q w;
  close_all_law w : touches [home] w (CloseAllConnections w) /\ held home (CloseAllConnections w) = held home w;
  reopen_law c w e c' w' : PoolInit c w = ((e, c'), w') -> file_of c = home ->
    touches [home] w w' /\ held home w' = held home w /\ OpenInv.const_changes c c';
  open_in_law p w : open_in p w = true -> is_Some (data p w);
  open_out_law p w b w' : open_out p w = (b, w') -> forall q, q <> p -> data q w' = data q w;
  pump_law p q w r : r <> q -> data r (pump p q w) = data r w
}.

Section Restore.
Context {W D C : Type} `{RestoreLaws W D C} (b : string) (Hslash : DbPath.front_is_slash b = true)
  (Hapart : forall q, part_of b q -> ~ victim home q).
Abbreviation op := (run (StoreObject.t * traced W)).
Abbreviation m := home.
Implicit Types (w : W) (o : StoreObject.t).

(** Both databases stay. *)
Definition intact : relation W := fun w w' => held m w' = held m w /\ held b w' = held b w.

(** The files of the backup stay. *)
Definition spared : relation W := fun w w' => forall q, part_of b q -> data q w' = data q w.

#[export] Instance intact_preorder : PreOrder intact.
Proof. split; [by split|]. intros w1 w2 w3 [] []. split; congruence. Qed.

#[export] Instance spared_preorder : PreOrder spared.
Proof. split; [by intros w q|]. intros w1 w2 w3 Ha Hb q Hq. rewrite Hb, Ha; done. Qed.

Lemma part_home q : part_of b q -> ~ part_of m q.
Proof. intros Hq Hm. apply (Hapart q Hq). by left. Qed.

Lemma touches_intact w w' : touches [b] w w' -> held b w' = held b w -> intact w w'.
Proof.
  intros Ht Hh. split; [|done]. apply held_law. intros q Hq. apply Ht. intros q' Hq'. apply list_elem_of_singleton in Hq' as ->.
  intros Hb. by apply (part_home q).
Qed.

Lemma touches_spared w w' : touches [m] w w' -> spared w w'.
Proof. intros Ht q Hq. apply Ht. intros q' Hq'. apply list_elem_of_singleton in Hq' as ->. by apply part_home. Qed.

(** The store of the database [m]. *)
Definition of_home o : Prop := owned (config_ o) /\ RdbStoreConfig.path_ (config_ o) = m.

Lemma th_check n c w0 o w : owned c -> RdbStoreConfig.path_ c = b -> intact w0 w ->
  through (intact w0) (check_integrity (W := traced W) n c) (fun _ o' w' => o' = o /\ intact w0 w') o w.
Proof.
  revert c w. induction n as [|n IH]; intros c w Hc Hb Hw; simpl; [by apply th_ret|].
  assert (file_of c = b) as Hf.
  { destruct Hc as (Hm & Hr & Hs). unfold file_of, DbPath.GetDbPath. rewrite Hm, Hr, Hb, Hslash. simpl. by destruct b. }
  apply th_bind, th_sys. intros [e r] w1 E. destruct (create_law (W := W) _ _ _ _ _ _ E) as (Ht & Hh & _ & Hdb). rewrite Hf in *.
  assert (intact w0 w1) as Hw1 by (etrans; [done|by apply touches_intact]). split; [done|]. apply th_bind.
  eapply th_mono with (Q := fun _ o' w' => o' = o /\ intact w0 w').
  - destruct r as [h|]; [|by apply th_ret]. destruct (Hdb h eq_refl) as [Hd Ha], (shut_law (W := W) h w1) as [Ht2 Hh2].
    rewrite Hd, Ha in Ht2. rewrite Hd in Hh2. assert (intact w0 (CloseConn h w1)) by (etrans; [done|by apply touches_intact]).
    by apply th_sys_.
  - intros [] o2 w2 [-> Hw2]. destruct (is_ok e); [by apply th_ret|]. destruct (_ || _); [by apply th_ret|].
    by apply IH.
Qed.

(** *** Replacing the database *)

Lemma th_unlinks x (l : list (string * option string)) w0 o w : (forall s d, (s, d) ∈ l -> ~ part_of b (x +:+ s)) -> spared w0 w ->
  through (spared w0) (sys_ (fold_left (fun (w : traced W) '(s, _) => unlink (x +:+ s) w) l))
    (fun _ o' w' => o' = o /\ spared w0 w' /\ (forall q, data q w = None -> data q w' = None) /\
       forall s d, (s, d) ∈ l -> data (x +:+ s) w' = None) o w.
Proof.
  intros Hl. revert w. induction l as [|[s d] l IH]; intros w Hw.
  { intros tr. split; [by exists []|]. split; [done|]. split; [done|]. split; [done|]. intros s d Hs. by apply not_elem_of_nil in Hs. }
  destruct (gone_law (x +:+ s) w) as [Hgone Hothers].
  assert (spared w0 (unlink (x +:+ s) w)) as Hw1.
  { etrans; [exact Hw|]. intros q Hq. apply Hothers. intros ->. by apply (Hl s d); [left|]. }
  apply (th_sys_bind_ _ (unlink (x +:+ s)) (fold_left (fun (w : traced W) '(s, _) => unlink (x +:+ s) w) l)); [done|].
  eapply th_mono; [apply IH; [|done]|].
  { intros s' d' Hs. by apply (Hl s' d'); right. }
  intros [] o' w' (-> & Hs & Hn & Hall). split; [done|]. split; [done|]. split.
  - intros q Hq. apply Hn. destruct (decide (q = x +:+ s)) as [->|Hne]; [done|]. by rewrite Hothers.
  - intros s' d' Hs'. apply elem_of_cons in Hs' as [[= -> ->]|Hs']; [by apply Hn|by eapply Hall].
Qed.

Lemma suffix_file s : s ∈ DB_SUFFIXES -> exists d, (s, d) ∈ SqliteConnection.FILE_SUFFIXES.
Proof.
  intros Hs. cbn [DB_SUFFIXES] in Hs. repeat (apply elem_of_cons in Hs as [->|Hs]; [eexists; by repeat (left || right)|]).
  by apply not_elem_of_nil in Hs.
Qed.

Lemma th_delete_all c w0 o w : RdbStoreConfig.path_ c = m -> spared w0 w ->
  through (spared w0) (sys_ (SqliteConnection.DeleteAll (W := traced W) c))
    (fun _ o' w' => o' = o /\ spared w0 w' /\ forall s, s ∈ DB_SUFFIXES -> data (m +:+ s) w' = None) o w.
Proof.
  intros Hm Hw. unfold SqliteConnection.DeleteAll. rewrite Hm. set (f := SqliteConnection.GetBinlogFolderPath m).
  apply (th_sys_after _ (fun s => SqliteConnection.Delete (SqliteUtils.GetSlavePath m) (remove_all f true s)) (SqliteConnection.Delete m)).
  apply (th_sys_after _ (remove_all f true) (SqliteConnection.Delete (SqliteUtils.GetSlavePath m))).
  assert (spared w0 (remove_all f true w)) as Hw1.
  { etrans; [exact Hw|]. intros q Hq. apply folder_law. destruct (String.prefix f q) eqn:E; [|done]. exfalso. apply (Hapart q Hq). by right; right. }
  apply (th_sys_ _ (remove_all f true)); [done|].
  eapply th_mono; [apply th_unlinks; [|done]|].
  { intros s d Hs Hb. apply (Hapart _ Hb). right. left. eauto. }
  intros [] o1 w1 (-> & Hw2 & _). eapply th_mono; [apply th_unlinks; [|done]|].
  { intros s d Hs Hb. apply (Hapart _ Hb). right. left. eauto. }
  intros [] o2 w2 (-> & Hw3 & _ & Hall). split; [done|]. split; [done|]. intros s Hs. destruct (suffix_file s Hs) as [d Hd]. by eapply Hall.
Qed.

Lemma home_not_part : ~ part_of b m.
Proof. intros Hm. apply (part_home m Hm), part_refl. Qed.

Lemma spared_home w w' : (forall q, q <> m -> data q w' = data q w) -> spared w w'.
Proof. intros Hd q Hq. apply Hd. intros ->. by apply home_not_part. Qed.

(** Where the copy is complete. *)
Definition lossless : Prop := forall x y w, data y (pump x y w) = data x w.

Lemma th_copy w0 o w : spared w0 w -> (forall s, s ∈ DB_SUFFIXES -> data (m +:+ s) w = None) ->
  through (spared w0) (sys (CopyFile (W := traced W) b m))
    (fun r o' w' => o' = o /\ spared w0 w' /\ (r = true -> lossless -> is_Some (data b w') /\ data m w' = data b w' /\
       forall s, s ∈ DB_SUFFIXES -> s <> EmptyString -> data (m +:+ s) w' = None)) o w.
Proof.
  intros Hw Hn. intros tr. unfold CopyFile, wp, sys. cbn [snd fst]. change (open_in b (w, tr)) with (open_in b w).
  destruct (open_in b w) eqn:Ein; cbn [negb]; [|split; [by exists []|by split]].
  change (open_out m (w, tr)) with (lift (open_out m) (w, tr)). unfold lift. cbn [fst snd].
  destruct (open_out m w) as [ok w1] eqn:Eo. pose proof (open_out_law _ _ _ _ Eo) as Ho.
  assert (spared w0 w1) as Hw1 by (etrans; [exact Hw|by apply spared_home]).
  destruct ok; cbn [negb]; [|split; [exists [w1]; by repeat constructor|by split]].
  assert (spared w0 (pump b m w1)) as Hw2 by (etrans; [exact Hw1|]; apply spared_home; intros q; apply pump_law).
  split; [exists [pump b m w1; w1]; by repeat constructor|]. split; [done|]. split; [done|]. intros _ Hl.
  assert (b <> m) as Hne by (intros Heq; apply home_not_part; rewrite <- Heq; apply part_refl).
  change (is_Some (data b (pump b m w1)) /\ data m (pump b m w1) = data b (pump b m w1) /\
    forall s, s ∈ DB_SUFFIXES -> s <> EmptyString -> data (m +:+ s) (pump b m w1) = None).
  rewrite Hl, (pump_law _ _ _ b Hne), (Ho b Hne). split; [by apply open_in_law|]. split; [done|]. intros s Hs Hse.
  assert (m +:+ s <> m) as Hms by (intros Heq; rewrite <- (Str.app_nil_r m) in Heq at 2; by apply Str.app_cancel_l in Heq).
  rewrite pump_law, Ho by done. by apply Hn.
Qed.

Lemma home_file c : owned c -> RdbStoreConfig.path_ c = m -> file_of c = m.
Proof.
  intros (Hm & Hr & Hs) Hp. unfold file_of, DbPath.GetDbPath. rewrite Hm, Hr, Hp. rewrite Hp in Hs. simpl. rewrite Hs.
  by destruct m.
Qed.

Lemma th_init w0 o w (Q : errno -> StoreObject.t -> W -> Prop) : of_home o -> spared w0 w ->
  (forall e o' w', of_home o' -> spared w0 w' -> held m w' = held m w -> (exists c, PoolInit (config_ o) w = ((e, c), w')) -> Q e o' w') ->
  through (spared w0) (pool_init (W := traced W)) Q o w.
Proof.
  intros [Ho Hp] Hw HQ tr. unfold pool_init, wp. cbn [fst snd].
  change (PoolInit (config_ o) (w, tr)) with (lift (PoolInit (config_ o)) (w, tr)). unfold lift. cbn [fst snd].
  destruct (PoolInit (config_ o) w) as [[e c] w1] eqn:E.
  destruct (reopen_law _ _ _ _ _ E (home_file _ Ho Hp)) as (Ht & Hh & Hc).
  assert (spared w0 w1) as Hw1 by (etrans; [exact Hw|by apply touches_spared]). split; [exists [w1]; by repeat constructor|].
  apply HQ; [|done|done|by exists c]. rewrite Hc. split; [exact Ho|exact Hp].
Qed.

(** Where the database can always be opened. *)
Definition opens : Prop := forall c w r w', PoolInit c w = (r, w') -> r.1 = E_OK.

Lemma th_open_restored n e0 w0 o w : of_home o -> spared w0 w ->
  through (spared w0) (open_restored (W := traced W) n e0)
    (fun e o' w' => of_home o' /\ spared w0 w' /\ (opens -> (n <> 0)%nat -> e = E_OK /\ held m w' = held m w)) o w.
Proof.
  revert e0 o w. induction n as [|n IH]; intros e0 o w Ho Hw; simpl; [by apply th_ret|].
  apply th_bind, th_init; [done|done|]. intros e o1 w1 Ho1 Hw1 Hh1 [c E]. apply th_bind, th_get. intros tr. cbn [fst].
  destruct (is_ok e) eqn:He; [apply is_ok_true in He; by apply th_ret|]. apply is_ok_false in He.
  assert (~ opens) as Hno by (intros Hop; apply He; exact (Hop _ _ _ _ E)).
  destruct (_ || _); [by apply th_ret|]. apply th_bind, th_modify.
  eapply th_mono; [by apply IH|]. intros e2 o2 w2 (Ho2 & Hw2 & _). by split.
Qed.

(** The part of a restore that changes the database, from the world [w1] where it was verified. *)
Lemma th_replace o w1 : of_home o -> SlaveMarks.GetFileSize (b +:+ "-wal") w1 = 0 ->
  through (fun w' => held b w' = held b w1) (replace_master (W := traced W) m b)
    (fun e o' w' => held b w' = held b w1 /\ (lossless -> opens -> e = E_OK -> held m w' = held b w1)) o w1.
Proof.
  intros Ho Hz. set (wal := b +:+ "-wal") in *. set (shm := b +:+ "-shm").
  assert (shm <> wal) as Hne by (intros Heq; by apply Str.app_cancel_l in Heq).
  assert (forall q w r w', Files.DeleteFile q w = (r, w') -> (forall x, x <> q -> data x w' = data x w) /\
    (data q w' = None \/ data q w' = data q w)) as Hdel.
  { intros q w r w' E. unfold Files.DeleteFile in E. destruct (Files.remove q w) as [x w2] eqn:Er. injection E as <- <-.
    destruct (del_law (W := W) _ _ _ _ Er) as (_ & Hd & Hx). split; [done|]. case_bool_decide; auto. }
  unfold replace_master. apply th_bind, th_erase. intros r1 w2 E1. destruct (Hdel _ _ _ _ E1) as [Hd1 _].
  assert (held b w2 = held b w1) as Hh2 by (apply log_law; [done|by auto|right; by apply Hd1]). split; [done|].
  apply th_bind, th_erase. intros r2 w3 E2. destruct (Hdel _ _ _ _ E2) as [Hd2 Hn2].
  assert (held b w3 = held b w1) as Hh3.
  { apply log_law; [done|intros q ? ?; rewrite Hd2, Hd1 by done; done|].
    destruct Hn2 as [Hn2|Hn2]; [by left|right]. etrans; [exact Hn2|]. by apply Hd1, not_eq_sym. }
  split; [done|]. eapply th_weaken with (I := spared w3).
  { intros w' Hw'. rewrite (held_law b w3 w'); [done|exact Hw']. }
  assert (forall w', spared w3 w' -> held b w' = held b w1) as Hb by (intros w' Hw'; rewrite (held_law b w3 w'); done).
  apply th_bind. destruct (close_all_law w3) as [Hc _]. apply touches_spared in Hc. apply th_sys_; [done|].
  apply th_bind, th_get. intros tr. cbn [fst]. clear tr. apply th_bind. destruct Ho as [Hown Hpath].
  eapply th_mono; [by apply th_delete_all|]. intros [] o4 w4 (-> & Hw4 & Hn4). rewrite bool_decide_true by done. cbn [negb when].
  apply th_bind, th_ret, th_bind. eapply th_mono; [by apply th_copy|]. intros copied o5 w5 (-> & Hw5 & Hcopy).
  apply th_bind. eapply th_mono; [by apply th_open_restored|]. intros e6 o6 w6 (Ho6 & Hw6 & Hopen). apply th_bind.
  destruct (is_ok e6) eqn:He6; [apply is_ok_true in He6 as ->; apply th_ret, th_ret|].
  - split; [by apply Hb|]. intros Hl Hop He. destruct copied; [|done]. destruct (Hopen Hop) as [_ ->]; [done|].
    destruct (Hcopy eq_refl Hl) as ([d Hd] & Hdm & Hnone). apply (alone_law m w5 d); [by rewrite Hdm| |done].
    assert (data b w1 = Some d) as Hd1b.
    { rewrite <- Hd1, <- Hd2, <- (Hw5 b); [done|apply part_refl| |]; intros Heq;
        (rewrite <- (Str.app_nil_r b) in Heq at 1; by apply Str.app_cancel_l in Heq). }
    by apply closed_law.
  - apply th_bind. destruct (close_all_law w6) as [Hc6 _]. apply touches_spared in Hc6. apply th_sys_; [by etrans|].
    apply th_bind, th_get. intros tr. cbn [fst]. clear tr. destruct Ho6 as [Hown6 Hpath6]. apply th_bind.
    eapply th_mono; [apply th_delete_all; [done|by etrans]|]. intros [] o7 w7 (-> & Hw7 & _).
    apply th_init; [by split|done|]. intros e8 o8 w8 _ Hw8 _ _. apply th_ret. split; [by apply Hb|]. intros _ Hop.
    destruct (Hopen Hop) as [-> _]; done.
Qed.

End Restore.

End BackupInv.

(** ** A small system *)

Module SmallBackup.
Import Conn StoreObject Crash FileBackup ReplicaInv BackupInv.

(** What may go wrong: preparing a statement, making one, the log after a detach, the end of a
    copy, opening a file for writing, and opening a database with some content. *)
Record faults := {
  no_prepare : string -> bool; no_statement : bool; leaves_log : bool; short_copy : bool; no_open_out : bool; no_init : Z -> bool
}.

Definition none : faults :=
  {| no_prepare _ := false; no_statement := false; leaves_log := false; short_copy := false; no_open_out := false; no_init _ := false |}.

(** A file is a number, which is its size too; an empty file is 0.  [att] is what is attached. *)
Record world (F : faults) := { files : gmap string Z; att : option string }.
Arguments files {F}. Arguments att {F}.

Definition MAIN : string := "/d/a.db".

Section System.
Context (F : faults).
Abbreviation W := (world F).
Implicit Type w : W.

Definition on_files (f : gmap string Z -> gmap string Z) w : W := {| files := f (files w); att := att w |}.
Definition set_att (a : option string) w : W := {| files := files w; att := a |}.

(** The content of a database: the log, if there is something in it. *)
Definition content_of (p : string) w : Z :=
  match files w !! (p +:+ "-wal") with Some z => if z =? 0 then default 0 (files w !! p) else z | None => default 0 (files w !! p) end.

Definition create_file (p : string) : W -> W := on_files (fun m => match m !! p with Some _ => m | None => <[p := 0]> m end).

#[export] Instance small_disk : Disk W := {|
  access p w := bool_decide (is_Some (files w !! p));
  touch p w := (true, create_file p w);
  unlink p := on_files (delete p);
  file_size p w := files w !! p;
  remove_all p _ := on_files (filter (fun kv => String.prefix p kv.1 = false));
  entries _ _ := 0;
  has_acl _ _ := false;
  set_gid _ _ w := w;
  set_dir_gid _ w := w |}.

#[export] Instance small_files : Files.Files W := {|
  Files.stat_size p w := files w !! p;
  Files.LoadBufferFromFile _ _ := None;
  Files.open_create p w := (true, create_file p w);
  Files.SaveBufferToFile _ _ w := (false, w);
  Files.remove p w := (match files w !! p with Some _ => None | None => Some Files.ENOENT end, on_files (delete p) w);
  Files.rename p q w := match files w !! p with Some z => (true, on_files (fun m => <[q := z]> (delete p m)) w) | None => (false, w) end;
  Files.access p w := bool_decide (is_Some (files w !! p));
  Files.MkDir _ w := (None, w) |}.

(** A database that can be attached beside the main one [h]. *)
Definition free (h p : string) : bool := bool_decide (Forall (fun q => q <> h /\ q <> h +:+ "-wal") [p; p +:+ "-wal"]).

(** A statement is its connection and its text. *)
Definition execute (args : list ValueObject) (st : string * string) w : errno * W :=
  let '(h, sql) := st in
  if bool_decide (sql = ATTACH_BACKUP_SQL) then
    match args with VString p :: _ => if free h p then (E_OK, set_att (Some p) (create_file p w)) else (E_ERROR, w) | _ => (E_ERROR, w) end
  else if bool_decide (sql = EXPORT_SQL) then
    match att w with
    | Some p => if free h p then (E_OK, on_files (fun m => <[p +:+ "-wal" := content_of h w]> (<[p := 0]> m)) w) else (E_ERROR, w)
    | None => (E_ERROR, w)
    end
  else if bool_decide (sql = DETACH_BACKUP_SQL) then
    match att w with
    | Some p =>
        if free h p then
          (E_OK, set_att None (on_files (fun m =>
             let m := <[p := content_of p w]> m in if leaves_log F then <[p +:+ "-wal" := 1]> m else delete (p +:+ "-wal") m) w))
        else (E_ERROR, w)
    | None => (E_ERROR, w)
    end
  else (E_OK, w).

#[export] Instance small_statements : Statements W := {|
  stmt := string * string;
  Prepare q st w := if no_prepare F q then (E_ERROR, st, w) else (E_OK, (st.1, q), w);
  Reset st w := (E_OK, st, w);
  Execute args st w := let '(e, w') := execute args st w in (e, st, w');
  ExecuteForValue _ st w := (E_ERROR, VNil, st, w);
  ExecuteForRows _ _ st w := (E_ERROR, [], st, w);
  Changes _ _ := 0;
  LastInsertRowId _ _ := 0;
  GetColumnCount _ := 0;
  GetColumn _ _ _ := (E_ERROR, VNil) |}.

#[export] Instance small_backing : Backing W := {|
  conn := string;
  CreateConn c _ w := ((E_OK, Some (file_of c)), set_att None (create_file (file_of c) w));
  CloseConn _ := set_att None;
  GetStatement q h w := (if no_statement F then (E_ERROR, None) else (E_OK, Some (h, q)), w);
  PoolFull _ := true;
  CloseAllConnections w := w;
  PoolInit c w := if no_init F (content_of (file_of c) w) then ((E_SQLITE_CORRUPT, c), w) else ((E_OK, c), create_file (file_of c) w);
  AcquireConnection _ w := (Some MAIN, w);
  ReleaseConn _ w := w;
  ReopenConns w := w;
  AcquireAndDisableTrans w := (E_OK, w);
  EnableTrans _ w := w;
  SlaveBackup _ _ _ w := (E_OK, w);
  SlaveRestore _ _ _ _ w := (E_OK, w);
  CheckReplicaForRestore _ _ w := (E_OK, w);
  VectorBackup _ _ _ w := (E_OK, w);
  KeyLock _ _ w := (E_OK, w);
  KeyUnlock _ w := w;
  would_block _ := false;
  real_path _ _ := true;
  open_in p w := bool_decide (is_Some (files w !! p));
  open_out p w := if no_open_out F then (false, w) else (true, on_files (<[p := 0]>) w);
  pump p q := on_files (fun m => match m !! p with Some z => <[q := if short_copy F then 1 else z]> m | None => delete q m end);
  NotifyDataChange w := w;
  DoCloudSync _ w := w |}.

(** *** The laws *)

Lemma wal_other p : p +:+ "-wal" <> p.
Proof. intros Heq. rewrite <- (Str.app_nil_r p) in Heq at 2. by apply Str.app_cancel_l in Heq. Qed.

Lemma content_same p w w' : (forall q, part_of p q -> files w' !! q = files w !! q) -> content_of p w' = content_of p w.
Proof.
  intros Hd. unfold content_of. rewrite !Hd; [done| |]; [apply part_refl|apply part_self; by repeat (left || right)].
Qed.

Lemma create_file_lookup p w q : files (create_file p w) !! q = if decide (q = p) then Some (default 0 (files w !! p)) else files w !! q.
Proof.
  unfold create_file, on_files. simpl. destruct (files w !! p) as [z|] eqn:E; case_decide; simplify_map_eq; try done.
Qed.

Lemma create_content p q w : content_of q (create_file p w) = content_of q w.
Proof.
  unfold content_of. rewrite !create_file_lookup. pose proof (wal_other q).
  destruct (decide (q +:+ "-wal" = p)) as [<-|]; [rewrite decide_False by congruence; by destruct (files w !! (q +:+ "-wal"))|].
  case_decide; [subst p; by destruct (files w !! q)|done].
Qed.

Lemma free_content h p w w' : free h p = true -> (forall q, q <> p -> q <> p +:+ "-wal" -> files w' !! q = files w !! q) ->
  content_of h w' = content_of h w.
Proof.
  intros Hf Hd. apply bool_decide_eq_true in Hf. rewrite !Forall_cons in Hf. destruct Hf as ((H1 & H2) & (H3 & H4) & _).
  unfold content_of. by rewrite !Hd by congruence.
Qed.

(** What a statement does to the files. *)
Lemma execute_spec args h sql w e w' : execute args (h, sql) w = (e, w') ->
  (w' = w /\ e <> E_OK) \/ (w' = w /\ sql ∉ [ATTACH_BACKUP_SQL; EXPORT_SQL; DETACH_BACKUP_SQL]) \/
  e = E_OK /\ exists p, free h p = true /\ (forall q, q <> p -> q <> p +:+ "-wal" -> files w' !! q = files w !! q) /\
    ((sql = ATTACH_BACKUP_SQL /\ args !! 0%nat = Some (VString p) /\ att w' = Some p) \/
     (sql = EXPORT_SQL /\ att w = Some p /\ att w' = Some p /\ content_of p w' = content_of h w) \/
     (sql = DETACH_BACKUP_SQL /\ att w = Some p /\ att w' = None /\ files w' !! p = Some (content_of p w) /\
      (leaves_log F = false -> files w' !! (p +:+ "-wal") = None) /\ (leaves_log F = true -> is_Some (files w' !! (p +:+ "-wal"))))).
Proof.
  assert (forall (z : Z) p, content_of p (on_files (fun m => <[p +:+ "-wal" := z]> (<[p := 0]> m)) w) = z) as Hc.
  { intros z p. unfold content_of. simpl. pose proof (wal_other p). simplify_map_eq. case_match eqn:E; [by apply Z.eqb_eq in E|done]. }
  unfold execute. case_bool_decide as Ha; [|case_bool_decide as He; [|case_bool_decide as Hd]].
  - destruct args as [|[] args]; try (intros [= <- <-]; by left). destruct (free h s) eqn:Hf; intros [= <- <-]; [|by left].
    right; right. split; [done|]. exists s. split; [done|]. split; [|by left]. intros q Hq _. simpl.
    change (files (create_file s w) !! q = files w !! q). rewrite create_file_lookup. by case_decide.
  - destruct (att w) as [p|] eqn:Hat; [|intros [= <- <-]; by left]. destruct (free h p) eqn:Hf; intros [= <- <-]; [|by left].
    right; right. split; [done|]. exists p. split; [done|]. split; [intros q Hq Hq2; simpl; by simplify_map_eq|]. right; left. by rewrite Hc.
  - destruct (att w) as [p|] eqn:Hat; [|intros [= <- <-]; by left]. destruct (free h p) eqn:Hf; intros [= <- <-]; [|by left].
    right; right. split; [done|]. exists p. split; [done|]. pose proof (wal_other p). split.
    { intros q Hq Hq2. simpl. destruct (leaves_log F); by simplify_map_eq. }
    right; right. split; [done|]. split; [done|]. split; [done|]. simpl.
    destruct (leaves_log F); simplify_map_eq; split; try done; split; try done; intros _; eauto.
  - intros [= <- <-]. right; left. split; [done|]. set_solver.
Qed.

#[export] Program Instance small_laws : BackupLaws W Z Z := {|
  data p w := files w !! p;
  held := content_of;
  full d c := d = c;
  db h := h;
  text st := st.2;
  owner st := st.1;
  attached _ w := att w |}.
Next Obligation. done. Qed.
Next Obligation. intros p w w'. apply content_same. Qed.
Next Obligation.
  intros p w r w' [= <- <-]. split; [done|]. simpl. split; [intros q Hq; by simplify_map_eq|].
  case_bool_decide as Hr; [by simplify_map_eq|]. destruct (files w !! p); destruct Hr; auto.
Qed.
Next Obligation.
  intros p q w b w' E Hne. simpl in E. destruct (files w !! p) as [z|] eqn:Hp; injection E as <- <-; simpl.
  - split; [done|]. split; [intros r Hr Hr'; by simplify_map_eq|]. by simplify_map_eq.
  - by repeat split.
Qed.
Next Obligation. by intros p b w e w' [= <- <-]. Qed.
Next Obligation. done. Qed.
Next Obligation.
  intros c b w e r w' [= <- <- <-]. split.
  - intros q Hq. change (files (create_file (file_of c) w) !! q = files w !! q). rewrite create_file_lookup.
    case_decide as Heq; [|done]. destruct (Hq (file_of c)); [by left|]. rewrite Heq. apply part_refl.
  - split; [apply (create_content (file_of c) (file_of c) w)|]. split; [by eauto|]. by intros h [= <-].
Qed.
Next Obligation. done. Qed.
Next Obligation. intros q h w e r w' E. simpl in E. destruct (no_statement F); simplify_eq; (split; [done|]); intros st Hst; by simplify_eq. Qed.
Next Obligation. intros q st w e st' w' E. simpl in E. destruct (no_prepare F q); injection E as <- <- <-; by destruct st. Qed.
Next Obligation.
  intros args [h sql] w e st' w' h' E Hh. cbn [Execute small_statements] in E. destruct (execute args (h, sql) w) as [e1 w1] eqn:Ex. injection E as <- <- <-.
  cbn [fst snd] in *. subst h'. split; [done|]. split; [done|].
  destruct (execute_spec _ _ _ _ _ _ Ex) as [[-> Hno]|[[-> Hsql]|(-> & p & Hf & Hfiles & Hcase)]].
  - split; [done|]. split; [done|]. split; [by left|]. by repeat split; intros.
  - split; [done|]. split; [done|]. split; [by left|]. split; [intros _ ->; set_solver|]. split; [done|]. split; intros _ ->; set_solver.
  - split.
    { intros q Hq. apply Hfiles; intros ->; (destruct (Hq p); [|first [apply part_refl|apply part_self; by repeat (left || right)]]);
        right; destruct Hcase as [(_ & _ & ->)|[(_ & -> & _)|(_ & -> & _)]]; rewrite ?elem_of_app; (by left) || (by right; left) || (left; by left). }
    split; [by eapply free_content|]. destruct Hcase as [(-> & Ha & Hw)|[(-> & Ha & Hw & Hc)|(-> & Ha & Hw & Hp & Hl & Hl')]].
    + split; [right; right; split; [done|]; by exists p|]. split; [intros _ _ q; rewrite Ha; by intros [= ->]|]. by repeat split; intros.
    + split; [left; congruence|]. split; [done|]. split; [done|]. split; [|done]. intros _ _. split; [congruence|]. intros q Hq.
      assert (q = p) as -> by congruence. done.
    + split; [by right; left|]. split; [done|]. split; [done|]. split; [done|]. intros _ _. split; [done|]. intros q Hq Hw'.
      assert (q = p) as -> by congruence. eauto.
Qed.

Lemma size_zero p w : SlaveMarks.GetFileSize (p +:+ "-wal") w = 0 -> content_of p w = default 0 (files w !! p).
Proof.
  unfold SlaveMarks.GetFileSize, content_of. assert (Str.empty (p +:+ "-wal") = false) as -> by (by destruct p). simpl.
  destruct (files w !! (p +:+ "-wal")); [|done]. intros Hz. cbn in Hz. by subst.
Qed.

#[export] Program Instance small_restore : RestoreLaws W Z Z := {| home := MAIN |}.
Next Obligation.
  intros p w d c Hd Hc Hn. cbn in *. subst c. unfold content_of.
  rewrite (Hn "-wal"), Hd; [done|by repeat (left || right)|done].
Qed.
Next Obligation. intros p w d Hd Hz. cbn in *. by rewrite size_zero, Hd. Qed.
Next Obligation.
  intros p w w' Hz Hd Hw. cbn in *. rewrite (size_zero p w), (size_zero p w'); [|revert Hz|done].
  - rewrite Hd; [done| |by intros Heq; apply (wal_other p)]. intros Heq. rewrite <- (Str.app_nil_r p) in Heq at 1.
    by apply Str.app_cancel_l in Heq.
  - unfold SlaveMarks.GetFileSize. simpl. case_match; [done|]. by destruct Hw as [-> | ->].
Qed.
Next Obligation. intros p w. cbn. split; [by simplify_map_eq|]. intros q Hq. by simplify_map_eq. Qed.
Next Obligation.
  intros p b w q Hq. cbn. destruct (files w !! q) as [z|] eqn:E.
  - by apply map_lookup_filter_Some.
  - apply map_lookup_filter_None. by left.
Qed.
Next Obligation. done. Qed.
Next Obligation.
  intros c w e c' w' E Hc. cbn [PoolInit small_backing] in E. destruct (no_init F _); injection E as <- <- <-.
  - split; [done|]. by split; [|destruct c].
  - rewrite Hc. split; [|split; [apply create_content|by destruct c]]. intros q Hq.
    change (files (create_file MAIN w) !! q = files w !! q). rewrite create_file_lookup.
    case_decide as Heq; [|done]. destruct (Hq MAIN); [by left|]. rewrite Heq. apply part_refl.
Qed.
Next Obligation. intros p w Hp. by apply bool_decide_eq_true in Hp. Qed.
Next Obligation.
  intros p w b w' E q Hq. cbn [open_out small_backing] in E. destruct (no_open_out F); injection E as <- <-; [done|].
  cbn. by simplify_map_eq.
Qed.
Next Obligation. intros p q w r Hr. cbn. destruct (files w !! p); by simplify_map_eq. Qed.

End System.
End SmallBackup.

(** ** The theorems *)

Module BackupProps.
Import Conn StoreObject Crash FileBackup ReplicaInv BackupInv.

(** The path that a restore takes has what is offered. *)
Lemma dest_offered {W D C} `{BackupLaws W D C} (w : W) path backupPath p q :
  GetDataBasePath path backupPath w = inr p -> GetDestPath path backupPath w = inr q -> data q w = offered p w.
Proof.
  unfold GetDestPath, offered. intros ->. destruct (access (p +:+ ".tmp") w) eqn:Ht.
  - apply access_data in Ht as Hs. destruct Hs as [d Hd]. rewrite Ht. intros [= <-]. by rewrite Hd.
  - apply access_none in Ht. destruct (access p w); [|done]. intros [= <-]. by rewrite Ht.
Qed.

(** C21: A backup to a file can be cut off anywhere: in every world it goes through the main database
    is the old one, and where there was a backup a restore is offered that one, under its own name
    or under [.tmp], or the complete new one.  A backup that fails leaves the old one; one that
    succeeds leaves a file that is alone a database with the content of the main one, if its log
    went with the connection ([tidy]).  Needed are: the path resolves to a file that has no part in
    common with the main database; a connection gives statements ([obtainable]) and preparing them
    succeeds ([prepares]; a failure there is not noticed); the store is not a vector store; the file
    does not have the name of a replica, where the store has one (such a file is not removed with its backup);
    and a log beside the old backup is there only if the backup before was interrupted.  Where
    preparing fails, where there is another log, or where the file has such a name, the claim fails:
    [unprepared_export_reported], [stray_log_drops_backup], [slave_name_drops_backup]. *)
Theorem file_backup_safe {W D C} `{BackupLaws W D C} o (w : W) path key verify p :
  file_of (config_ o) = path_ o -> GetDataBasePath (path_ o) path w = inr p ->
  (forall q, part_of p q \/ q = p +:+ ".tmp" -> ~ part_of (path_ o) q) ->
  obtainable (W := W) -> prepares (W := W) ->
  (RdbStoreConfig.dbType_ (config_ o) =? RdbStoreConfig.DB_VECTOR) = false ->
  negb (RdbStoreConfig.haMode_ (config_ o) =? RdbStoreConfig.HA_SINGLE) && SqliteUtils.IsSlaveDbName p = false ->
  (is_Some (data (p +:+ "-wal") w) -> is_Some (data (p +:+ ".tmp") w)) ->
  exists e w' ws, Backup path key verify (o, fresh w) = Some (e, (o, (w', ws))) /\ Forall (kept (path_ o) p w) ws /\
    (e <> E_OK -> forall d, offered p w = Some d -> offered p w' = Some d) /\
    (e = E_OK -> tidy (W := W) -> exists d, data p w' = Some d /\ full d (held (path_ o) w)).
Proof.
  intros Hf Hp Ha Hob Hpr Hv Hs Hstart.
  destruct (th_run _ _ _ _ _ [] (th_file_backup (path_ o) p Ha path key w o Hob Hpr Hf Hv Hs Hstart Hp verify))
    as (e & o' & w' & ws & E & Hws & (-> & _ & Hno & Hyes)).
  rewrite app_nil_r in E. exists e, w', ws. auto.
Qed.

(** C22: A restore of a database on disk, by its owner, from a file that is given by its absolute path and has no part in common with the files the restore removes,
    replaces the database only by a backup that passed [CheckIntegrity],
    so that a connection to it could be made.  The check leaves both databases as they are; when it
    fails, or when the backup has a log, [RestoreMasterDb] gives [E_SQLITE_CORRUPT] and has done nothing
    else.  Otherwise it ends, and the backup holds the same in every world on the way, so it can be restored
    again after an interruption.  With [E_OK] the database holds what the backup holds, provided that
    copying loses nothing ([lossless]; a short copy is not noticed, [short_copy_reported]) and that the pool
    over the restored file opens ([opens]; a failure there is not reported, [unopened_restore_reported]). *)
Theorem file_restore_verified {W D C} `{RestoreLaws W D C} o (w : W) b :
  DbPath.front_is_slash b = true -> (forall q, part_of b q -> ~ victim home q) -> of_home o ->
  exists sound w1 ws, CheckIntegrity b (o, fresh w) = Some (sound, (o, (w1, ws))) /\ Forall (intact b w) ws /\
    (sound && (SlaveMarks.GetFileSize (b +:+ "-wal") w1 =? 0) = false ->
       RestoreMasterDb home b (o, fresh w) = Some (E_SQLITE_CORRUPT, (o, (w1, ws)))) /\
    (sound && (SlaveMarks.GetFileSize (b +:+ "-wal") w1 =? 0) = true ->
       exists e o' w' ws', RestoreMasterDb home b (o, fresh w) = Some (e, (o', (w', ws' ++ ws))) /\
         Forall (fun w2 => held b w2 = held b w) ws' /\
         (lossless (W := W) -> opens (W := W) -> e = E_OK -> held home w' = held b w)).
Proof.
  intros Hslash Hapart Ho. assert (through (intact b w) (CheckIntegrity (W := traced W) b) (fun _ o' w' => o' = o /\ intact b w w') o w) as Hc.
  { unfold CheckIntegrity. apply th_bind, th_get. intros tr. cbn [fst]. apply th_check; [done|done| |done|reflexivity].
    destruct Ho as [(Hm & Hr & _) _]. by split. }
  destruct (th_run _ _ _ _ _ [] Hc) as (sound & o1 & w1 & ws & E & Hws & -> & Hi). rewrite app_nil_r in E.
  exists sound, w1, ws. split; [done|]. split; [done|]. unfold RestoreMasterDb, bind. unfold fresh. rewrite E. split; intros Hs.
  - destruct sound; [|done]. cbn [andb negb] in *. unfold get. cbn [snd].
    change (SlaveMarks.GetFileSize (b +:+ "-wal") (w1, ws)) with (SlaveMarks.GetFileSize (b +:+ "-wal") w1). by rewrite Hs.
  - apply andb_true_iff in Hs as [-> Hz]. cbn [negb]. unfold get. cbn [snd].
    change (SlaveMarks.GetFileSize (b +:+ "-wal") (w1, ws)) with (SlaveMarks.GetFileSize (b +:+ "-wal") w1). rewrite Hz. cbn [negb].
    apply Z.eqb_eq in Hz. destruct Hi as [_ Hb].
    destruct (th_run _ _ _ _ _ ws (th_replace b Hapart o w1 Ho Hz)) as (e & o' & w' & ws' & E' & Hws' & _ & Hfin).
    exists e, o', w', ws'. split; [exact E'|]. rewrite Hb in *. by split.
Qed.

(** *** Examples *)

Import SmallBackup.

(** A store on [MAIN]. *)
Definition store (config : Config) : StoreObject.t := {StoreObject.new config with connectionPool_ := true; isOpen_ := true }.
Definition plain : Config := RdbStoreConfig.of_path MAIN.

Definition BACKUP_FILE : string := "/d/b.db".

(** The main database holds 7 and the old backup 3. *)
Definition start (F : faults) : world F := {| files := {[ MAIN := 7; BACKUP_FILE := 3 ]}; att := None |}.

(** The code, what a restore is offered in every world of the history, the oldest first, and the
    files of the backup in the end. *)
Definition backup_run {F} (config : Config) (path : string) (w : world F) : option (errno * list (option Z) * list (option Z)) :=
  let p := "/d/" +:+ path in
  match Backup path [] true (store config, fresh w) with
  | Some (e, (_, (w', ws))) => Some (e, rev (offered p <$> ws), [files w' !! p; files w' !! (p +:+ ".tmp"); files w' !! (p +:+ "-wal")])
  | None => None
  end.

Definition restore_run {F} (w : world F) : option (errno * Z) :=
  match RestoreMasterDb MAIN BACKUP_FILE (store plain, fresh w) with
  | Some (e, (_, (w', _))) => Some (e, content_of F MAIN w')
  | None => None
  end.

Lemma apart_names q : part_of BACKUP_FILE q \/ q = BACKUP_FILE +:+ ".tmp" -> ~ part_of MAIN q.
Proof. by intros [(s & _ & ->)| -> ] (s' & _ & Heq). Qed.

Lemma file_backup_safe_witness : exists e w' ws, Backup "b.db" [] true (store plain, fresh (start none)) = Some (e, (store plain, (w', ws))) /\
  Forall (kept MAIN BACKUP_FILE (start none)) ws /\ e = E_OK /\ data BACKUP_FILE w' = Some 7.
Proof.
  destruct (file_backup_safe (store plain) (start none) "b.db" [] true BACKUP_FILE) as (e & w' & ws & E & Hk & _ & Hok).
  - reflexivity.
  - reflexivity.
  - exact apart_names.
  - intros q h w e r w' [= <- <- <-]. eauto.
  - by intros q st w e st' w' [= <- <- <-].
  - reflexivity.
  - reflexivity.
  - intros [z Hz]. vm_compute in Hz. discriminate Hz.
  - exists e, w', ws. assert (e = E_OK) as ->.
    { assert ((fun r => r.1) <$> Backup "b.db" [] true (store plain, fresh (start none)) = Some E_OK) as Hr by (vm_compute; reflexivity).
      rewrite E in Hr. by injection Hr. }
    split; [done|]. split; [done|]. split; [done|]. destruct Hok as (d & Hd & Hf); [done| |by rewrite Hd, Hf].
    intros args [h sql] w st' w2 q Ex Htext Hat. cbn in Htext, Hat. subst sql. cbn [Execute small_statements] in Ex.
    destruct (execute none args (h, DETACH_BACKUP_SQL) w) as [e2 w3] eqn:Es. injection Ex as -> _ ->.
    destruct (execute_spec _ _ _ _ _ _ _ Es) as [[_ Hno]|[[_ Hno]|(_ & p & _ & _ & [(Hx & _)|[(Hx & _)|(_ & Ha & _ & _ & Hl & _)]])]];
      [by destruct Hno|exfalso; apply Hno; do 2 right; by left|discriminate Hx|discriminate Hx|].
    assert (q = p) as -> by congruence. by apply Hl.
Defined.

Lemma file_restore_verified_witness : exists w1 ws, CheckIntegrity BACKUP_FILE (store plain, fresh (start none)) = Some (true, (store plain, (w1, ws))) /\
  exists o' w' ws', RestoreMasterDb (home (W := world none)) BACKUP_FILE (store plain, fresh (start none)) = Some (E_OK, (o', (w', ws' ++ ws))) /\
    Forall (fun w2 : world none => held BACKUP_FILE w2 = 3) ws' /\ held (home (W := world none)) w' = 3.
Proof.
  destruct (file_restore_verified (store plain) (start none) BACKUP_FILE) as (sound & w1 & ws & E & _ & _ & Hok).
  - reflexivity.
  - intros q (s & _ & ->) [(s' & _ & Heq)|[(s' & d & _ & [Heq|Heq])|Hpre]]; [discriminate Heq|discriminate Heq|discriminate Heq|].
    discriminate Hpre.
  - split; [|reflexivity]. split; [reflexivity|]. split; reflexivity.
  - assert ((fun r => (r.1, SlaveMarks.GetFileSize (BACKUP_FILE +:+ "-wal") r.2.2.1)) <$> CheckIntegrity BACKUP_FILE (store plain, fresh (start none))
      = Some (true, 0)) as Hr by (vm_compute; reflexivity).
    rewrite E in Hr. injection Hr as -> Hz. exists w1, ws. split; [exact E|].
    destruct Hok as (e & o' & w' & ws' & E' & Hall & Hfin); [by rewrite Hz|].
    assert (e = E_OK) as ->.
    { assert ((fun r => r.1) <$> RestoreMasterDb MAIN BACKUP_FILE (store plain, fresh (start none)) = Some E_OK) as Hr by (vm_compute; reflexivity).
      change (RestoreMasterDb MAIN BACKUP_FILE (store plain, fresh (start none)))
        with (RestoreMasterDb (home (W := world none)) BACKUP_FILE (store plain, fresh (start none))) in Hr.
      rewrite E' in Hr. by injection Hr. }
    exists o', w', ws'. split; [exact E'|]. split; [exact Hall|]. apply Hfin; [| |reflexivity].
    + intros x y w. cbn. destruct (files w !! x) eqn:Ex; [by rewrite lookup_insert_eq|by rewrite lookup_delete_eq].
    + by intros c w r w2 [= <- _].
Defined.

(** *** Behaviour to know of *)

(** A backup whose log stays is thrown away and the old one is put back, but the code is [E_OK]. *)
Theorem discarded_backup_reported : exists h, backup_run plain "b.db" (start {none with leaves_log := true }) = Some (E_OK, h, [Some 3; None; None]).
Proof. eexists. vm_compute. reflexivity. Qed.

(** The code of preparing the export is not looked at: when it fails, the statement before is executed again,
    the backup stays empty, and the old one is deleted. *)
Theorem unprepared_export_reported : exists h,
  backup_run plain "b.db" (start {none with no_prepare := String.eqb EXPORT_SQL }) = Some (E_OK, h, [Some 0; None; None]).
Proof. eexists. vm_compute. reflexivity. Qed.

(** An empty log beside a complete backup, as a check of the backup leaves it when it is cut off:
    the old backup is deleted before the new one is made. *)
Theorem stray_log_drops_backup : exists h,
  backup_run plain "b.db" (F := none) {| files := {[ MAIN := 7; BACKUP_FILE := 3; BACKUP_FILE +:+ "-wal" := 0 ]}; att := None |} =
    Some (E_OK, [Some 3; None; None] ++ h, [Some 7; None; None]).
Proof. eexists. vm_compute. reflexivity. Qed.

(** A path with the ending of a replica, in a store that has one: the replica is brought up to date,
    nothing is written to the path, and the old backup there is deleted. *)
Theorem slave_name_drops_backup : exists h,
  backup_run (RdbStoreConfig.SetHaMode SqliteConnection.MAIN_REPLICA plain) "b_slave.db" (F := none)
    {| files := {[ MAIN := 7; "/d/b_slave.db" := 3 ]}; att := None |} = Some (E_OK, h, [None; None; None]).
Proof. eexists. vm_compute. reflexivity. Qed.

(** A statement that could not be made is used. *)
Theorem backup_without_statement : Backup "b.db" [] true (store plain, fresh (start {none with no_statement := true })) = None.
Proof. vm_compute. reflexivity. Qed.

(** A backup that cannot be opened in its new place is deleted there, and the empty database that is made
    instead is reported as a success. *)
Theorem unopened_restore_reported : restore_run (start {none with no_init := Z.eqb 3 }) = Some (E_OK, 0).
Proof. vm_compute. reflexivity. Qed.

(** The database is deleted before its file can be opened for the copy. *)
Theorem failed_copy_loses_database : restore_run (start {none with no_open_out := true }) = Some (E_ERROR, 0).
Proof. vm_compute. reflexivity. Qed.

(** A copy that ends too early counts as a success. *)
Theorem short_copy_reported : restore_run (start {none with short_copy := true }) = Some (E_OK, 1).
Proof. vm_compute. reflexivity. Qed.

(** The log of the database itself is taken as the path of a backup, and so is a path that ends in
    a backslash: the two last characters are compared with one. *)
Theorem backup_paths_accepted :
  GetDataBasePath MAIN "a.db-wal" (start none) = inr (MAIN +:+ "-wal") /\ GetDataBasePath MAIN "/d/b.db\" (start none) = inr "/d/b.db\".
Proof. vm_compute. by split. Qed.

End BackupProps.
