(* ===== verification/DefaultFunctions.v ===== *)
(** * The SQL functions of every connection (sqlite_default_function.cpp)

    [AssetMerge]: the merge of the assets of a row with the assets of an update, which SQLite calls
    as [merge_asset] and [merge_assets].  [DbImport]: the function [import_db_from_path], which copies a
    database file over the connected one, over the class [Source] of what it calls.  [MergeProps] and
    [ImportProps] hold the theorems; the loop of the import has fuel, and [ImportProps.import_ends]
    shows that it is enough.

    A missing argument and a value that is no blob are the same for the functions: a null pointer
    ([None]).  The registration in a table of function pointers is left out. *)
From Stdlib Require Import ZArith Lia Ascii.
From stdpp Require Import base gmap list strings pretty.
From S2P Require Import Prelude CppStd Errno Values RawData StringUtils SqliteStmt.

Local Open Scope Z_scope.

Module AssetMerge.
Import Asset OMap.

(** An asset that is marked as deleted loses what it says of its content. *)
Definition set_deleted (a : AssetValue) : AssetValue :=
  mkAsset (a_version a) STATUS_DELETE (a_expiresTime a) (a_id a) (a_name a) (a_uri a) (a_createTime a) EmptyString EmptyString
    EmptyString (a_path a) EmptyString.

(** The cases of the switch, on the status without its four highest bits. *)
Definition mergeable (oldStatus : Z) : bool :=
  let status := Z.land oldStatus 0x0FFFFFFF in
  (status =? STATUS_UNKNOWN) || (status =? STATUS_NORMAL) || (status =? STATUS_ABNORMAL) || (status =? STATUS_INSERT) ||
  (status =? STATUS_UPDATE).

(** [MergeAsset(oldAsset, newAsset)]: the old asset afterwards. *)
Definition MergeAsset (oldAsset newAsset : AssetValue) : AssetValue :=
  let differs (f : AssetValue -> string) : bool := negb (String.eqb (f oldAsset) (f newAsset)) in
  if a_status newAsset =? STATUS_DELETE then set_deleted oldAsset
  else if negb (mergeable (a_status oldAsset)) then oldAsset
  else if differs a_modifyTime || differs a_size || differs a_uri || differs a_path || differs a_extension then
    let update := differs a_modifyTime || differs a_size || negb (differs a_uri) || negb (differs a_path) in
    mkAsset (a_version newAsset) (if update then STATUS_UPDATE else a_status oldAsset)
      (if update then a_expiresTime newAsset else a_expiresTime oldAsset) (a_id oldAsset) (a_name oldAsset) (a_uri newAsset)
      (a_createTime newAsset) (a_modifyTime newAsset) (a_size newAsset)
      (if update then a_hash newAsset else a_hash oldAsset) (a_path newAsset) (a_extension newAsset)
  else oldAsset.

(** The loop of [CompAssets] over the two maps, in the order of their keys: the old assets, merged,
    and the new ones that are left. *)
Fixpoint comp_loop (assets : smap AssetValue) : smap AssetValue -> smap AssetValue * smap AssetValue :=
  match assets with
  | [] => fun newAssets => ([], newAssets)
  | (k, v) :: assets' =>
      fix inner newAssets :=
        match newAssets with
        | [] => ((k, v) :: assets', [])
        | (k', v') :: newAssets' =>
            if String.eqb k k' then let '(o, n) := comp_loop assets' newAssets' in ((k, MergeAsset v v') :: o, n)
            else if Str.ltb k k' then let '(o, n) := comp_loop assets' newAssets in ((k, v) :: o, n)
            else let '(o, n) := inner newAssets' in (o, (k', v') :: n)
        end
  end.

Definition CompAssets (assets newAssets : smap AssetValue) : smap AssetValue :=
  let '(o, n) := comp_loop assets newAssets in
  fold_left (fun m '(k, v) => insert Str.ltb k (set_status STATUS_INSERT v) m) n o.

Section Functions.
Context `{JsonText} (now : Z).

(** A blob of an argument, read into a map. *)
Definition read_assets (arg : option (list Z)) : option (smap AssetValue) :=
  match arg with None => Some [] | Some data => '(_, m) ← RawDataParser.ParserAssetMap now data []; Some m end.

Definition MergeAssets (arg0 arg1 : option (list Z)) : option (list Z) :=
  assets ← read_assets arg0;
  newAssets ← read_assets arg1;
  Some (RawDataParser.PackageAssetMap (CompAssets assets newAssets)).

Definition read_asset (arg : option (list Z)) : option (Z * AssetValue) :=
  match arg with None => Some (0, Asset.empty) | Some data => RawDataParser.ParserAsset now data Asset.empty end.

(** The function of one asset, [MergeAsset(ctx, argc, argv)]. *)
Definition MergeAssetBlob (arg0 arg1 : option (list Z)) : option (list Z) :=
  '(size, asset) ← read_asset arg0;
  '(_, newAsset) ← read_asset arg1;
  let result :=
    if size =? 0 then if a_status newAsset =? STATUS_DELETE then newAsset else set_status STATUS_INSERT newAsset
    else if String.eqb (a_name asset) (a_name newAsset) then MergeAsset asset newAsset
    else asset in
  Some (RawDataParser.PackageAsset result).

End Functions.
End AssetMerge.

(** *** Copying a database file over the connected one *)

(** What [import_db] calls: the file system, and SQLite on the two databases.  [rows] are the rows
    of [PRAGMA integrity_check] on the source and the code behind the last one. *)
Class Source (W : Type) := {
  stat : string -> W -> bool;
  sqlite3_open_v2 : string -> W -> Z * W;
  integrity_rows : W -> list (list (option string)) * Z;
  sqlite3_close : W -> W;
  sqlite3_backup_init : W -> bool * W;
  sqlite3_backup_step : Z -> W -> Z * W;
  sqlite3_backup_pagecount : W -> Z;
  sqlite3_backup_finish : W -> W;
  steady_now : W -> Z;
  sqlite3_sleep : Z -> W -> W
}.

Module DbImport.
Import SQLiteError Run.

Definition BACKUP_PAGES_PRE_STEP : Z := 12800.
Definition BACKUP_MAX_RETRY_COUNT : Z := 10000.
Definition BACKUP_MAX_TIME : Z := 10000.
Definition BACKUP_SLEEP_TIME : Z := 1000.
Definition SQLITE_ERROR : Z := 1.
Definition SQLITE_ABORT : Z := 4.
Definition SQLITE_CORRUPT : Z := 11.
Definition SQLITE_CANTOPEN : Z := 14.

(** What the function gives to SQLite; the result that it does not set is null. *)
Inductive result : Type := ResultNull | ResultError (code : Z).

Section Import.
Context {W : Type} `{Source W}.

(** The callback of the check: whether it goes on behind the row. *)
Definition row_ok (row : list (option string)) : bool :=
  match row with [] => false | cell :: _ => String.eqb (default EmptyString cell) "ok" end.

(** [sqlite3_exec] ends with [SQLITE_ABORT] at the first row that the callback refuses. *)
Definition IntegrityCheck (w : W) : Z :=
  let '(rows, rc) := integrity_rows w in
  let errCode := if forallb row_ok rows then rc else SQLITE_ABORT in
  if errCode =? SQLITE_OK then SQLITE_OK else SQLITE_CORRUPT.

Definition waiting (errCode : Z) : bool := (errCode =? SQLITE_BUSY) || (errCode =? SQLITE_LOCKED).

(** The loop of [BackUpDB]; the time is in milliseconds. *)
Fixpoint backup_loop (fuel : nat) (retryCount startTime : Z) : run W Z :=
  match fuel with
  | O => undefined
  | S fuel =>
      let! errCode := call (sqlite3_backup_step BACKUP_PAGES_PRE_STEP) in
      let retryCount := if waiting errCode then retryCount + 1 else 0 in
      if BACKUP_MAX_RETRY_COUNT <? retryCount then ret SQLITE_ERROR
      else
        let! now := get steady_now in
        let late := BACKUP_MAX_TIME <? now - startTime in
        let! _ := (if late then call (fun w => (tt, sqlite3_sleep BACKUP_SLEEP_TIME w)) else ret tt) in
        let! count := get sqlite3_backup_pagecount in
        if negb (count =? 0) && ((errCode =? SQLITE_OK) || waiting errCode)
        then backup_loop fuel retryCount (if late then now else startTime)
        else ret errCode
  end.

Definition BackUpDB (fuel : nat) : run W Z :=
  let! started := call sqlite3_backup_init in
  if negb started then ret SQLITE_BUSY
  else
    let! now := get steady_now in
    let! errCode := backup_loop fuel 0 now in
    let! _ := call (fun w => (tt, sqlite3_backup_finish w)) in
    ret errCode.

(** The deleter of the handle of the source, which runs on every path behind the opening. *)
Definition leave (errCode : Z) : run W result :=
  let! _ := call (fun w => (tt, sqlite3_close w)) in
  ret (if (errCode =? SQLITE_OK) || (errCode =? SQLITE_DONE) then ResultNull else ResultError errCode).

Definition ImportDB (fuel : nat) (arg : option (list Z)) : run W result :=
  let path := SqliteUtils.c_str (default EmptyString (Value.string_of_bytes <$> arg)) in
  let! found := get (stat path) in
  if negb found then ret (ResultError SQLITE_CANTOPEN)
  else
    let! errCode := call (sqlite3_open_v2 path) in
    if negb (errCode =? SQLITE_OK) then leave errCode
    else
      let! errCode := get IntegrityCheck in
      if negb (errCode =? SQLITE_OK) then leave errCode
      else let! errCode := BackUpDB fuel in leave errCode.

End Import.
End DbImport.

(** ** What the merge does *)

Module MergeProps.
Import Asset OMap AssetMerge.

(** The merge of two maps, key by key. *)
Definition merged (old new : option AssetValue) : option AssetValue :=
  match old, new with
  | Some o, Some n => Some (MergeAsset o n)
  | Some o, None => Some o
  | None, Some n => Some (set_status STATUS_INSERT n)
  | None, None => None
  end.

Abbreviation get := (@lookup string AssetValue Str.ltb).
Abbreviation ordered := (@sorted string AssetValue Str.ltb).

Lemma comp_loop_cons k v old k' v' new :
  comp_loop ((k, v) :: old) ((k', v') :: new) =
    if String.eqb k k' then let '(o, n) := comp_loop old new in ((k, MergeAsset v v') :: o, n)
    else if Str.ltb k k' then let '(o, n) := comp_loop old ((k', v') :: new) in ((k, v) :: o, n)
    else let '(o, n) := comp_loop ((k, v) :: old) new in (o, (k', v') :: n).
Proof. reflexivity. Qed.

Lemma keys_above k (m m' : smap AssetValue) : map fst m = map fst m' -> Forall (fun p => Str.ltb k p.1 = true) m' -> Forall (fun p => Str.ltb k p.1 = true) m.
Proof.
  rewrite !Forall_forall. intros Hk Hall [k1 v1] Hp. assert (k1 ∈ map fst m') as Hin by (rewrite <- Hk; apply list_elem_of_fmap; by exists (k1, v1)).
  apply list_elem_of_fmap in Hin as ([k2 v2] & -> & Hp2). by apply (Hall (k2, v2)).
Qed.

Lemma ordered_keys (m m' : smap AssetValue) : map fst m = map fst m' -> ordered m' -> ordered m.
Proof.
  intros Hk Hs. revert m Hk. induction Hs as [|[k v] m' Hs IH Hall]; intros m Hk.
  - apply fmap_nil_inv in Hk as ->. constructor.
  - destruct m as [|[k1 v1] m]; [done|]. simpl in Hk. injection Hk as -> Hk. constructor; [by apply IH|]. by apply (keys_above _ _ m').
Qed.

(** A map, and the rest of one, below a key that is above [k]. *)
Lemma get_below k p m : ordered (p :: m) -> Str.ltb k p.1 = true -> get k (p :: m) = None.
Proof. intros Hs Hk. apply lookup_below. constructor; [done|]. by eapply sorted_below. Qed.

(** What the loop leaves in the two maps, key by key. *)
Record looped (old new o n : smap AssetValue) : Prop := {
  lp_keys : map fst o = map fst old;
  lp_rest : forall p, p ∈ n -> p ∈ new;
  lp_new : ordered n;
  lp_get k : get k o = match get k old, get k new with Some a, Some b => Some (MergeAsset a b) | x, _ => x end;
  lp_left k : get k n = match get k old with Some _ => None | None => get k new end
}.

Lemma loop_spec old new : ordered old -> ordered new -> forall o n, comp_loop old new = (o, n) -> looped old new o n.
Proof.
  intros Ho. revert new. induction Ho as [|[k v] old Hold IH Hall]; intros new Hn; [by intros o n [= <- <-]|].
  assert (ordered ((k, v) :: old)) as Hso by (by constructor).
  induction Hn as [|[k' v'] new Hnew IHn Hall']; intros o n.
  { intros [= <- <-]. split; [done|done|by constructor|intros x..]; by destruct (get x ((k, v) :: old)). }
  assert (ordered ((k', v') :: new)) as Hsn by (by constructor). rewrite comp_loop_cons. destruct (String.eqb_spec k k') as [<-|Hne].
  - destruct (comp_loop old new) as [o1 n1] eqn:E. intros [= <- <-]. destruct (IH _ Hnew _ _ E) as [H1 H2 H3 H4 H5].
    assert (ordered ((k, MergeAsset v v') :: o1)) by (apply (ordered_keys _ ((k, v) :: old)); [simpl; congruence|done]).
    split; [simpl; congruence|set_solver|done| |]; intros x; rewrite !lookup_cons by done; [case_decide; [done|apply H4]|].
    case_decide as Hx; [subst x|by apply H5]. apply (lookup_below k n1). apply Forall_forall. intros p Hp.
    apply H2 in Hp. by apply (proj1 (Forall_forall _ _) Hall').
  - destruct (Str.ltb k k') eqn:Hlt.
    + destruct (comp_loop old ((k', v') :: new)) as [o1 n1] eqn:E. intros [= <- <-]. destruct (IH _ Hsn _ _ E) as [H1 H2 H3 H4 H5].
      assert (get k ((k', v') :: new) = None) as Hk by (by apply get_below).
      assert (ordered ((k, v) :: o1)) by (apply (ordered_keys _ ((k, v) :: old)); [simpl; congruence|done]).
      split; [simpl; congruence|done|done| |]; intros x; rewrite (lookup_cons x k) by done.
      * case_decide as Hx; [subst x; by rewrite lookup_cons, decide_True, Hk by done|].
        rewrite (lookup_cons x k v old), decide_False by done. apply H4.
      * case_decide as Hx; [subst x; rewrite H5, Hk; by destruct (get k old)|]. apply H5.
    + assert (Str.ltb k' k = true) as Hlt' by (destruct (Str.ltb k' k) eqn:E; [done|]; destruct Hne; by apply Str.ltb_total).
      destruct (comp_loop ((k, v) :: old) new) as [o1 n1] eqn:E. intros [= <- <-]. destruct (IHn _ _ eq_refl) as [H1 H2 H3 H4 H5].
      assert (get k' ((k, v) :: old) = None) as Hk by (by apply get_below).
      assert (ordered ((k', v') :: n1)) as Hn1.
      { constructor; [done|]. apply Forall_forall. intros p Hp. apply H2 in Hp. by apply (proj1 (Forall_forall _ _) Hall'). }
      split; [done|intros p Hp; apply elem_of_cons in Hp as [->|Hp]; [by left|right; by apply H2]|done| |]; intros x.
      * rewrite (lookup_cons x k' v' new) by done. case_decide as Hx; [subst x|apply H4]. rewrite H4, Hk. done.
      * rewrite (lookup_cons x k' v' n1), (lookup_cons x k' v' new) by done. case_decide as Hx; [subst x; by rewrite Hk|]. apply H5.
Qed.

Lemma insert_all n : forall m, ordered n -> ordered m -> (forall p, p ∈ n -> get p.1 m = None) ->
  ordered (fold_left (fun m '(k, v) => insert Str.ltb k (set_status STATUS_INSERT v) m) n m) /\
  forall k, get k (fold_left (fun m '(k, v) => insert Str.ltb k (set_status STATUS_INSERT v) m) n m) =
    match get k m with Some a => Some a | None => set_status STATUS_INSERT <$> get k n end.
Proof.
  induction n as [|[k v] n IH]; intros m Hn Hm Hd; simpl; [split; [done|]; intros k; by destruct (get k m)|].
  pose proof (sorted_tail _ _ Hn) as Hn'. set (v1 := set_status STATUS_INSERT v).
  assert (get k m = None) as Hk by (apply (Hd (k, v)); by left).
  destruct (IH (insert Str.ltb k v1 m)) as [Hs Hg]; [done|by apply insert_sorted| |].
  { intros p Hp. rewrite lookup_insert by done. case_decide as Hx; [|apply Hd; by right].
    assert (get p.1 n = Some p.2) as Hp2 by (apply lookup_elem; [done|by destruct p]).
    rewrite Hx, (lookup_below k n) in Hp2; [done|]. by inversion Hn. }
  split; [done|]. intros x. rewrite Hg, lookup_insert, Hk, (lookup_cons x k v n) by done. simpl. case_decide as Hx; [by subst; rewrite Hk|done].
Qed.

Lemma comp_assets_spec old new : ordered old -> ordered new ->
  ordered (CompAssets old new) /\ forall k, get k (CompAssets old new) = merged (get k old) (get k new).
Proof.
  intros Ho Hn. unfold CompAssets. destruct (comp_loop old new) as [o n] eqn:E. destruct (loop_spec old new Ho Hn o n E) as [H1 H2 H3 H4 H5].
  destruct (insert_all n o H3) as [Hs Hg].
  { by apply (ordered_keys _ old). }
  { intros [k v] Hp. simpl. rewrite H4. specialize (H5 k). rewrite (proj2 (lookup_elem k v n H3) Hp) in H5. by destruct (get k old). }
  split; [done|]. intros k. rewrite Hg, H4, H5. destruct (get k old), (get k new); done.
Qed.

Lemma merge_same o n : a_status n <> STATUS_DELETE -> a_modifyTime o = a_modifyTime n -> a_size o = a_size n ->
  a_uri o = a_uri n -> a_path o = a_path n -> a_extension o = a_extension n -> MergeAsset o n = o.
Proof.
  intros Hn H1 H2 H3 H4 H5. unfold MergeAsset. rewrite (proj2 (Z.eqb_neq _ _) Hn), H1, H2, H3, H4, H5, !String.eqb_refl. simpl.
  by destruct (mergeable (a_status o)).
Qed.

Lemma merge_again o n : MergeAsset (MergeAsset o n) n = MergeAsset o n.
Proof.
  destruct (Z.eqb_spec (a_status n) STATUS_DELETE) as [Hd|Hd]; [unfold MergeAsset; by rewrite Hd|].
  assert (MergeAsset o n = o \/ MergeAsset (MergeAsset o n) n = MergeAsset o n) as [Ho|Ho]; [|by rewrite !Ho|done].
  unfold MergeAsset at 1 3 4. rewrite (proj2 (Z.eqb_neq _ _) Hd). destruct (mergeable (a_status o)); simpl; [|by left].
  match goal with |- context [if ?b then _ else o] => destruct b end; [right; by apply merge_same|by left].
Qed.

Lemma merge_inserted n : a_status n <> STATUS_DELETE -> MergeAsset (set_status STATUS_INSERT n) n = set_status STATUS_INSERT n.
Proof. intros Hn. by apply merge_same. Qed.

(** C38: [CompAssets], which walks over two ordered maps at once and erases from the second one, is
    the merge key by key: an asset of both maps is merged, an asset that only the row has is kept,
    an asset that only the update has is inserted, and the result is an ordered map again.  Sending
    the update a second time changes nothing at a key, unless the update added an asset there that is marked as deleted (it is
    inserted the first time, [deleted_asset_inserted], and deleted the second time). *)
Theorem comp_assets_pointwise (old new : smap AssetValue) (Hold : ordered old) (Hnew : ordered new) :
  ordered (CompAssets old new) /\ (forall k, get k (CompAssets old new) = merged (get k old) (get k new)) /\
  (forall k, (forall n, get k old = None -> get k new = Some n -> a_status n <> STATUS_DELETE) ->
   get k (CompAssets (CompAssets old new) new) = get k (CompAssets old new)).
Proof.
  destruct (comp_assets_spec old new Hold Hnew) as [Hs Hg]. split; [done|]. split; [done|]. intros k Hd.
  destruct (comp_assets_spec _ new Hs Hnew) as [_ Hg2]. rewrite Hg2, Hg.
  destruct (get k old) as [o|], (get k new) as [n|]; simpl; [by rewrite merge_again|done|rewrite merge_inserted; [done|by apply Hd]|done].
Qed.

Definition row_asset (name uri : string) (status : Z) : AssetValue :=
  mkAsset 1 status 10 "i" name uri "c" "m" "s" "h" "p" "e".

Definition demo_old : smap AssetValue := [("a", row_asset "a" "1" STATUS_NORMAL); ("c", row_asset "c" "1" STATUS_NORMAL); ("d", row_asset "d" "1" STATUS_NORMAL)].
Definition demo_new : smap AssetValue := [("a", row_asset "a" "2" STATUS_NORMAL); ("b", row_asset "b" "1" STATUS_NORMAL); ("d", row_asset "d" "1" STATUS_DELETE)].

Lemma comp_assets_pointwise_witness :
  ordered (CompAssets demo_old demo_new) /\
  get "b" (CompAssets (CompAssets demo_old demo_new) demo_new) = Some (row_asset "b" "1" STATUS_INSERT).
Proof.
  assert (ordered demo_old) as Ho by (repeat constructor). assert (ordered demo_new) as Hn by (repeat constructor).
  destruct (comp_assets_pointwise demo_old demo_new Ho Hn) as (Hs & Hg & Ha). split; [exact Hs|].
  rewrite Ha; [rewrite Hg; reflexivity|]. intros n _ Hkn. vm_compute in Hkn. injection Hkn as <-. discriminate.
Defined.

(** A deleted asset that the row does not have: the merge of maps inserts it, while the merge of one
    asset keeps the mark. *)
Theorem deleted_asset_inserted `{JsonText} (now used : Z) (data : list Z) (k : string) (n : AssetValue) :
  a_status n = STATUS_DELETE -> RawDataParser.ParserAsset now data Asset.empty = Some (used, n) ->
  a_status <$> get k (CompAssets [] [(k, n)]) = Some STATUS_INSERT /\
  MergeAssetBlob now None (Some data) = Some (RawDataParser.PackageAsset n).
Proof.
  intros Hn Hd. split; [simpl; unfold lookup; simpl; by rewrite Str.ltb_irrefl|]. unfold MergeAssetBlob, read_asset.
  rewrite Hd. simpl. by rewrite Hn.
Qed.

End MergeProps.

(** ** The import ends, and copies only a sound database *)

(** What SQLite documents: only a step answers [SQLITE_DONE], and the opening and the closing of the source leave the
    destination as it is. *)
Class SourceLaws (W D : Type) `{Source W} := {
  content : W -> D;
  open_rc p w : (sqlite3_open_v2 p w).1 <> SQLiteError.SQLITE_DONE;
  open_content p w : content (sqlite3_open_v2 p w).2 = content w;
  close_content w : content (sqlite3_close w) = content w
}.

(** What is asked of the surroundings of an import, and is not for SQLite to promise: a write of another connection to the
    source makes the copy start again, so there are only finitely many of them.  [remaining] bounds the pages that are still
    copied, those that are copied anew included: a step of pages that answers [SQLITE_OK] has copied some of them, one
    that answers [SQLITE_BUSY] or [SQLITE_LOCKED] has not added any. *)
Class ImportProgress (W : Type) `{Source W} := {
  remaining : W -> nat;
  step_ok n w w' : n <> 0 -> sqlite3_backup_step n w = (SQLiteError.SQLITE_OK, w') -> (remaining w' < remaining w)%nat;
  step_waiting n w rc w' : n <> 0 -> sqlite3_backup_step n w = (rc, w') -> DbImport.waiting rc = true -> (remaining w' <= remaining w)%nat;
  sleep_remaining t w : (remaining (sqlite3_sleep t w) <= remaining w)%nat
}.

Module ImportProps.
Import SQLiteError Run DbImport.

Section Laws.
Context {W : Type} `{ImportProgress W}.

(** The operation gives the answer for every fuel from [n] on. *)
Definition ends {A} (n : nat) (m : nat -> run W A) (w : W) : Prop := exists a w', forall fuel, (n <= fuel)%nat -> m fuel w = Some (a, w').

Definition budget (retryCount : Z) (w : W) : nat :=
  (remaining w * Z.to_nat (BACKUP_MAX_RETRY_COUNT + 1) + Z.to_nat (BACKUP_MAX_RETRY_COUNT - retryCount))%nat.

Lemma loop_ends n : forall retryCount startTime w, 0 <= retryCount <= BACKUP_MAX_RETRY_COUNT -> (budget retryCount w < n)%nat ->
  ends n (fun fuel => backup_loop fuel retryCount startTime) w.
Proof.
  assert (BACKUP_PAGES_PRE_STEP <> 0) as Hpages by done.
  induction n as [|n IH]; intros retryCount startTime w Hr Hn; [lia|]. unfold ends.
  destruct (sqlite3_backup_step BACKUP_PAGES_PRE_STEP w) as [rc w1] eqn:Hstep.
  set (retry1 := if waiting rc then retryCount + 1 else 0). destruct (BACKUP_MAX_RETRY_COUNT <? retry1) eqn:Hmax.
  { exists SQLITE_ERROR, w1. intros [|fuel] Hf; [lia|]. simpl. unfold bind, call. rewrite Hstep. fold retry1. by rewrite Hmax. }
  set (late := BACKUP_MAX_TIME <? steady_now w1 - startTime). set (w2 := if late then sqlite3_sleep BACKUP_SLEEP_TIME w1 else w1).
  set (again := negb (sqlite3_backup_pagecount w2 =? 0) && ((rc =? SQLITE_OK) || waiting rc)).
  assert (forall fuel, backup_loop (S fuel) retryCount startTime w =
    if again then backup_loop fuel retry1 (if late then steady_now w1 else startTime) w2 else Some (rc, w2)) as Hunf.
  { intros fuel. simpl. unfold bind, call, get, ret. rewrite Hstep. fold retry1. rewrite Hmax. fold late. unfold again, w2. destruct late; by case_match. }
  assert (remaining w2 <= remaining w1)%nat as Hw2 by (unfold w2; destruct late; [apply sleep_remaining|done]).
  destruct again eqn:Hag; [|exists rc, w2; intros [|fuel] Hf; [lia|apply Hunf]].
  destruct (IH retry1 (if late then steady_now w1 else startTime) w2) as (a & w' & He).
  - unfold retry1 in *. destruct (waiting rc); unfold BACKUP_MAX_RETRY_COUNT in *; lia.
  - unfold budget in *. destruct (waiting rc) eqn:Hw.
    + pose proof (step_waiting _ _ _ _ Hpages Hstep Hw). unfold retry1, BACKUP_MAX_RETRY_COUNT in *. nia.
    + assert (rc = SQLITE_OK) as -> by (unfold again in Hag; rewrite ?Hw, orb_false_r in Hag; apply andb_true_iff in Hag as [_ Hag]; by apply Z.eqb_eq).
      pose proof (step_ok _ _ _ Hpages Hstep). unfold retry1, BACKUP_MAX_RETRY_COUNT in *. nia.
  - exists a, w'. intros [|fuel] Hf; [lia|]. rewrite Hunf. apply He. lia.
Qed.

Lemma backup_ends w : exists n, ends n (fun fuel => BackUpDB fuel) w.
Proof.
  unfold BackUpDB. destruct (sqlite3_backup_init w) as [[|] w1] eqn:Hi.
  - destruct (loop_ends (S (budget 0 w1)) 0 (steady_now w1) w1) as (a & w' & He); [by unfold BACKUP_MAX_RETRY_COUNT; lia|lia|].
    exists (S (budget 0 w1)), a, (sqlite3_backup_finish w'). intros fuel Hf. unfold bind, call, get. rewrite Hi. simpl. by rewrite He.
  - exists O, SQLITE_BUSY, w1. intros fuel _. unfold bind, call. by rewrite Hi.
Qed.

End Laws.

Definition path_of (arg : option (list Z)) : string := SqliteUtils.c_str (default EmptyString (Value.string_of_bytes <$> arg)).

Definition sound_source {W : Type} `{Source W} (path : string) (w : W) : Prop :=
  stat path w = true /\ exists w1, sqlite3_open_v2 path w = (SQLITE_OK, w1) /\ IntegrityCheck w1 = SQLITE_OK.

(** A source that is not sound is refused, whatever the fuel, and the connected database stays. *)
Lemma unsound_refused {W D : Type} `{SourceLaws W D} (arg : option (list Z)) (w : W) :
  sound_source (path_of arg) w \/
  exists rc w', rc <> SQLITE_OK /\ content w' = content w /\ forall fuel, ImportDB fuel arg w = Some (ResultError rc, w').
Proof.
  unfold ImportDB, sound_source. fold (path_of arg). set (path := path_of arg). unfold bind at 1, get at 1. cbv beta.
  destruct (stat path w) eqn:Hf; simpl; [|right; by exists SQLITE_CANTOPEN, w].
  unfold bind at 1, call at 1. pose proof (open_content path w) as Hc1. pose proof (open_rc path w) as Hd.
  destruct (sqlite3_open_v2 path w) as [rc w1]. simpl in Hc1, Hd.
  destruct (Z.eqb_spec rc SQLITE_OK) as [->|Hrc]; simpl.
  - unfold bind at 1, get at 1. destruct (Z.eqb_spec (IntegrityCheck w1) SQLITE_OK) as [Hi|Hi]; simpl.
    + left. split; [done|]. by exists w1.
    + right. assert (IntegrityCheck w1 = SQLITE_CORRUPT) as -> by (unfold IntegrityCheck in *; by repeat case_match).
      exists SQLITE_CORRUPT, (sqlite3_close w1). split; [done|]. by rewrite close_content.
  - right. exists rc, (sqlite3_close w1). split; [done|]. split; [by rewrite close_content|]. intros fuel. unfold leave, bind, call, ret.
    by rewrite (proj2 (Z.eqb_neq _ _) Hrc), (proj2 (Z.eqb_neq _ _) Hd).
Qed.

Lemma sound_ends {W : Type} `{ImportProgress W} (arg : option (list Z)) (w : W) : sound_source (path_of arg) w ->
  exists n, ends n (fun fuel => ImportDB fuel arg) w.
Proof.
  intros (Hf & w1 & Ho & Hi). destruct (backup_ends w1) as (n & a & w' & He). exists n. do 2 eexists. intros fuel Hn.
  unfold ImportDB. fold (path_of arg). unfold bind, get, call. rewrite Hf. simpl. rewrite Ho. simpl. rewrite Hi. simpl. by rewrite (He fuel Hn).
Qed.

(** C39: The import of a database file reports success, and changes the connected database, only where the
    file is there, can be opened and passes the integrity check.  And it ends, if other connections write to the source
    only finitely often while it is copied ([ImportProgress]; each such write makes SQLite start the copy again): with fuel enough it
    gives an answer, however often the locks make a step wait, since of the waiting steps in a row no more than
    [BACKUP_MAX_RETRY_COUNT] are made and every other step copies pages. *)
Theorem import_ends {W D : Type} `{SourceLaws W D} (arg : option (list Z)) (w : W) :
  (forall fuel r w', ImportDB fuel arg w = Some (r, w') -> r = ResultNull \/ content w' <> content w -> sound_source (path_of arg) w) /\
  (forall P : ImportProgress W, exists n r w', forall fuel, (n <= fuel)%nat -> ImportDB fuel arg w = Some (r, w')).
Proof.
  destruct (unsound_refused arg w) as [Hs|(rc & w1 & Hrc & Hc & E)].
  - split; [done|]. intros P. exact (sound_ends arg w Hs).
  - split; [|intros P; by exists O, (ResultError rc), w1]. intros fuel r w'. rewrite E. intros [= <- <-] [?|?]; done.
Qed.

(** A source of [s_left] steps behind [s_waits] locked ones. *)
Record small_source := { s_left : nat; s_waits : nat; s_copied : bool }.

Definition small_step (w : small_source) : Z * small_source :=
  match s_waits w, s_left w with
  | S n, _ => (SQLITE_BUSY, {| s_left := s_left w; s_waits := n; s_copied := s_copied w |})
  | O, S (S k) => (SQLITE_OK, {| s_left := S k; s_waits := 0; s_copied := s_copied w |})
  | O, _ => (SQLITE_DONE, {| s_left := 0; s_waits := 0; s_copied := true |})
  end.

Definition small_import : Source small_source := {|
  stat p _ := negb (String.eqb p EmptyString); sqlite3_open_v2 _ w := (SQLITE_OK, w);
  integrity_rows _ := ([[Some "ok"]], SQLITE_OK); sqlite3_close w := w; sqlite3_backup_init w := (true, w);
  sqlite3_backup_step _ := small_step; sqlite3_backup_pagecount w := 3; sqlite3_backup_finish w := w;
  steady_now _ := 0; sqlite3_sleep _ w := w |}.

#[refine] Instance small_laws : @SourceLaws small_source bool small_import := {| content := s_copied |}.
Proof. all: by intros. Defined.

#[refine] Instance small_progress : @ImportProgress small_source small_import := {| remaining := s_left |}.
Proof. all: intros; simpl in *; try done; destruct w as [[|[|?]] [|?] ?]; unfold small_step in *; simpl in *; simplify_eq; simpl; first [done|lia]. Defined.

(** A file of three steps behind two locked ones is copied: the answer that the theorem gives is the
    one that the function computes. *)
Lemma import_ends_witness : exists n,
  (forall fuel, (n <= fuel)%nat -> ImportDB (H := small_import) fuel (Some [97]) {| s_left := 3; s_waits := 2; s_copied := false |} =
     Some (ResultNull, {| s_left := 0; s_waits := 0; s_copied := true |})) /\
  sound_source (H := small_import) "a" {| s_left := 3; s_waits := 2; s_copied := false |}.
Proof.
  destruct (import_ends (H0 := small_laws) (Some [97]) {| s_left := 3; s_waits := 2; s_copied := false |}) as [Hs He].
  destruct (He small_progress) as (n & r & w' & E).
  assert (Some (r, w') = Some (ResultNull, {| s_left := 0; s_waits := 0; s_copied := true |})) as Hr
    by (rewrite <- (E (n + 6)%nat) by lia; rewrite Nat.add_comm; reflexivity).
  exists n. injection Hr as -> ->. split; [exact E|]. apply (Hs (n + 6)%nat ResultNull {| s_left := 0; s_waits := 0; s_copied := true |}); [apply E; lia|by left].
Defined.

(** The number of pages is 0 until a step has read the source.  Where the first step finds the source
    locked, the loop therefore ends at once, and the import fails without a second attempt. *)
Theorem locked_source_not_retried {W : Type} `{Source W} (fuel : nat) (startTime rc : Z) (w w1 : W) :
  sqlite3_backup_step BACKUP_PAGES_PRE_STEP w = (rc, w1) -> waiting rc = true -> sqlite3_backup_pagecount w1 = 0 ->
  (forall t, sqlite3_backup_pagecount (sqlite3_sleep t w1) = 0) ->
  exists w', backup_loop (S fuel) 0 startTime w = Some (rc, w').
Proof.
  intros Hs Hw Hc Hc'. simpl. unfold bind, call, get, ret. rewrite Hs, Hw. simpl.
  destruct (BACKUP_MAX_TIME <? steady_now w1 - startTime); rewrite ?Hc, ?Hc'; simpl; eauto.
Qed.

End ImportProps.
