(* ===== verification/Attach.v ===== *)
(** * Databases attached to a store

    [Attach]: [AttachInner], [Attach] and [Detach] of frameworks/native/rdb/src/rdb_store_impl.cpp.  The
    state is the map [attachedInfo_] beside the store of [StoreOpen] and the world.  Statements and
    connections are those of [FileBackup]; the class [AttachPool] adds the functions of the pool that take
    every connection or open the database again.  [AttachInv]: what the pool and SQLite promise, and
    lemmas.  [AttachProps]: the theorems. *)
From Stdlib Require Import ZArith Lia Ascii.
From stdpp Require Import base gmap list strings pretty.
From S2P Require Import Prelude CppStd Errno Values StringUtils Security StoreConfig Transactions StoreOpen Replica FileBackup.

Local Open Scope Z_scope.
Import Run.

(** [AcquireAll] takes the writer and the readers, and [ReleaseAll] gives back what a function holds; [DisableWal] opens
    the pool again in the mode TRUNCATE and gives its writer, [EnableWal] opens it as it is configured.
    [InitializeKey] is [Initialize] of a configuration, which may read or make its key. *)
Class AttachPool (W : Type) `{Backing W} := {
  AcquireAll : Z -> W -> option conn * W;
  ReleaseAll : W -> W;
  GetJournalMode : conn -> W -> Z;
  DisableWal : W -> (errno * option conn) * W;
  EnableWal : W -> errno * W;
  InitializeKey : Config -> W -> Config * W
}.

Module Attach.
Import Conn StoreObject FileBackup.

Definition ATTACH_WITH_KEY_SQL : string := "ATTACH DATABASE ? AS ? KEY ?".
Definition ATTACH_SQL : string := "ATTACH DATABASE ? AS ?".
Definition DETACH_SQL : string := "DETACH DATABASE ?".
Definition MODE_TRUNCATE : Z := 1.
Definition MODE_WAL : Z := 4.

Section Ops.
Context {W : Type} `{Disk W} `{AttachPool W}.
Abbreviation store_op := (run (StoreObject.t * W)).
Abbreviation info := (gmap string string).
Abbreviation op := (run (info * (StoreObject.t * W))).

(** A function of the store that does not use the map. *)
Definition on_store {A} (m : store_op A) : op A :=
  fun s => match m s.2 with Some (a, s') => Some (a, (s.1, s')) | None => None end.

(** [GetStatement] on a connection that may be missing. *)
Definition statement_on (sql : string) (c : option conn) : store_op (errno * option stmt) :=
  match c with None => ret (E_DATABASE_BUSY, None) | Some h => sys (GetStatement sql h) end.

(** The statement is made and executed.  Without one the connection is asked for a message; [code] is
    what is returned then. *)
Definition execute_on (sql : string) (args : list ValueObject) (code : errno -> errno) (c : option conn) : store_op errno :=
  let! (errCode, statement) := statement_on sql c in
  match statement with
  | Some st => if is_ok errCode then let! (errCode, _) := sys (Execute args st) in ret errCode else ret (code errCode)
  | None => match c with None => undefined | Some _ => ret (code errCode) end
  end.

(** The connection that [AttachInner] works on: in the mode WAL every connection is closed and the
    database is opened again. *)
Definition without_wal (h : conn) : store_op (errno * option conn) :=
  let! o := self in
  let! mode := get (fun s => GetJournalMode h s.2) in
  if negb (isMemoryRdb_ o) && (mode =? MODE_WAL) then
    let! _ := sys_ CloseAllConnections in
    let! _ := sys_ ReleaseAll in
    sys DisableWal
  else ret (E_OK, Some h).

Definition AttachInner (config : Config) (attachName dbPath : string) (key : list Z) (waitTime : Z) : store_op errno :=
  let! o := self in
  if negb (connectionPool_ o) then ret E_ALREADY_CLOSED
  else
    let! c := sys (AcquireAll (waitTime * 1000)) in
    match c with
    | None => ret E_DATABASE_BUSY
    | Some h =>
        let! (err, c) := without_wal h in
        let! result :=
          (if negb (is_ok err) then ret err
           else
             match key with
             | [] => execute_on ATTACH_SQL [VString dbPath; VString attachName] id c
             | _ =>
                 let! ret_ := SetDefaultEncryptAlgo c config in
                 if negb (is_ok ret_) then ret ret_
                 else execute_on ATTACH_WITH_KEY_SQL [VString dbPath; VString attachName; VBlob key] (fun _ => E_ERROR) c
             end) in
        let! _ := sys_ ReleaseAll in
        ret result
    end.

Definition Attach (config : Config) (attachName : string) (waitTime : Z) : op (errno * Z) :=
  let! o := get (fun s => s.2.1) in
  if isReadOnly_ o || (RdbStoreConfig.dbType_ (config_ o) =? RdbStoreConfig.DB_VECTOR) ||
     negb (RdbStoreConfig.haMode_ (config_ o) =? RdbStoreConfig.HA_SINGLE) ||
     (RdbStoreConfig.IsMemoryRdb config && RdbStoreConfig.IsEncrypt config)
  then ret (E_NOT_SUPPORT, 0)
  else
    let '(err, dbPath) := DbPath.GetDbPath config in
    let! found := get (fun s => access dbPath s.2.2) in
    if negb (is_ok err) || (negb found && negb (RdbStoreConfig.IsMemoryRdb config)) then ret (E_INVALID_FILE_PATH, 0)
    else if negb (RdbStoreConfig.IsEncrypt config) && RdbStoreConfig.IsEncrypt (config_ o) then ret (E_NOT_SUPPORT, 0)
    else
      let! attachedInfo_ := get fst in
      if bool_decide (is_Some (attachedInfo_ !! attachName)) then ret (E_ATTACHED_DATABASE_EXIST, 0)
      else
        let! config := on_store (sys (InitializeKey config)) in
        let key := if RdbStoreConfig.IsEncrypt config then RdbStoreConfig.GetEncryptKey config else [] in
        let! err := on_store (AttachInner config attachName dbPath key waitTime) in
        if bool_decide (err = E_SQLITE_ERROR) then ret (E_ATTACHED_DATABASE_EXIST, 0)
        else if negb (is_ok err) then ret (err, 0)
        else
          let! attachedInfo_ := get fst in
          if bool_decide (is_Some (attachedInfo_ !! attachName)) then ret (E_ATTACHED_DATABASE_EXIST, 0)
          else
            let! _ := modify (fun m => <[attachName := dbPath]> m) in
            let! attachedInfo_ := get fst in
            ret (E_OK, Z.of_nat (size attachedInfo_)).

(** The end of [Detach], when no database is attached any more. *)
Definition reopen_wal (h : conn) : store_op errno :=
  let! o := self in
  let! mode := get (fun s => GetJournalMode h s.2) in
  if negb (isMemoryRdb_ o) && (mode =? MODE_WAL) then
    let! _ := sys_ CloseAllConnections in
    let! _ := sys_ ReleaseAll in
    sys EnableWal
  else let! _ := sys_ ReleaseAll in ret E_OK.

Definition Detach (attachName : string) (waitTime : Z) : op (errno * Z) :=
  let! o := get (fun s => s.2.1) in
  let! attachedInfo_ := get fst in
  if isReadOnly_ o || (RdbStoreConfig.dbType_ (config_ o) =? RdbStoreConfig.DB_VECTOR) then ret (E_NOT_SUPPORT, 0)
  else if negb (bool_decide (is_Some (attachedInfo_ !! attachName))) then ret (E_OK, Z.of_nat (size attachedInfo_))
  else if negb (connectionPool_ o) then ret (E_ALREADY_CLOSED, 0)
  else
    let! c := on_store (sys (AcquireAll (waitTime * 1000))) in
    match c with
    | None => ret (E_DATABASE_BUSY, 0)
    | Some h =>
        let! errCode := on_store (execute_on DETACH_SQL [VString attachName] id (Some h)) in
        if negb (is_ok errCode) then let! _ := on_store (sys_ ReleaseAll) in ret (errCode, 0)
        else
          let! _ := modify (fun m => delete attachName m) in
          let! attachedInfo_ := get fst in
          if negb (bool_decide (attachedInfo_ = ∅)) then
            let! _ := on_store (sys_ ReleaseAll) in ret (E_OK, Z.of_nat (size attachedInfo_))
          else let! errCode := on_store (reopen_wal h) in ret (errCode, 0)
    end.

End Ops.
End Attach.

Module AttachInv.
Import Conn StoreObject FileBackup Attach.

Definition CIPHER_PRAGMA : string := "PRAGMA cipher_default_attach_".

(** What the pool and SQLite promise.  [attached] are the databases that are attached to the writer of
    the pool and [journal] is its mode.  A pool that is opened again has nothing attached.  A statement
    that fails changes nothing. *)
Class AttachLaws (W : Type) `{AttachPool W} := {
  attached : W -> gset string;
  journal : W -> Z;
  is_writer : conn -> W -> Prop;
  text : stmt -> string;
  owner : stmt -> conn;
  calm : relation W := fun w w' => attached w' = attached w /\ journal w' = journal w /\ forall h, is_writer h w -> is_writer h w';
  mode_law h w : is_writer h w -> GetJournalMode h w = journal w;
  acquire_law ms w c w' : AcquireAll ms w = (c, w') -> calm w w' /\ forall h, c = Some h -> is_writer h w';
  release_law w : calm w (ReleaseAll w);
  close_law w : attached (CloseAllConnections w) = ∅;
  disable_law w e c w' : DisableWal w = ((e, c), w') -> attached w = ∅ ->
    attached w' = ∅ /\ (e = E_OK -> journal w' = MODE_TRUNCATE /\ exists h, c = Some h /\ is_writer h w');
  enable_law w e w' : EnableWal w = (e, w') -> attached w = ∅ -> attached w' = ∅;
  key_law c w c' w' : InitializeKey c w = (c', w') -> calm w w';
  statement_law q h w e r w' : GetStatement q h w = ((e, r), w') ->
    calm w w' /\ forall st, r = Some st -> text st = q /\ owner st = h;
  prepare_law q st w e st' w' : Prepare q st w = (e, st', w') ->
    calm w w' /\ owner st' = owner st /\ text st' = if is_ok e then q else text st;
  execute_law args st w e st' w' : Execute args st w = (e, st', w') -> is_writer (owner st) w ->
    journal w' = journal w /\ (forall h, is_writer h w -> is_writer h w') /\ owner st' = owner st /\ text st' = text st /\
    (e <> E_OK -> attached w' = attached w) /\ (String.prefix CIPHER_PRAGMA (text st) = true -> attached w' = attached w) /\
    (forall n, e = E_OK -> text st ∈ [ATTACH_SQL; ATTACH_WITH_KEY_SQL] -> args !! 1%nat = Some (VString n) ->
       (n ∉ attached w) /\ attached w' = {[n]} ∪ attached w) /\
    (forall n, e = E_OK -> text st = DETACH_SQL -> args = [VString n] -> attached w' = attached w ∖ {[n]})
}.

Section Laws.
Context {W : Type} `{Disk W} `{AttachLaws W}.
Abbreviation store_op := (run (StoreObject.t * W)).
Implicit Types (w : W) (o : StoreObject.t) (h : conn) (n : string).

#[export] Instance calm_preorder : PreOrder calm.
Proof.
  split; [by intros w|]. intros w1 w2 w3 (Ha & Hj & Hw) (Ha' & Hj' & Hw'). repeat split; [congruence..|]. auto.
Qed.

(** Statements can be made. *)
Definition obtainable : Prop := forall q h w e r w', GetStatement q h w = ((e, r), w') -> is_Some r.

(** Where something is attached, the writer is not in the mode WAL, so nothing opens the pool again. *)
Definition steady o w : Prop := isMemoryRdb_ o = true \/ journal w <> MODE_WAL \/ attached w = ∅.

Lemma steady_calm o w w' : calm w w' -> steady o w -> steady o w'.
Proof. intros (Ha & Hj & _). unfold steady. by rewrite Ha, Hj. Qed.

(** The operation leaves the store and, but for what calm calls do, the world, and answers as [Q] says. *)
Definition calmly {A} (m : store_op A) (Q : A -> W -> Prop) o w : Prop := wp m (fun a s => s.1 = o /\ calm w s.2 /\ Q a s.2) (o, w).

Lemma encrypt_calm st h o sqls : forall w0 w, Forall (fun sql => String.prefix CIPHER_PRAGMA sql = true) sqls ->
  owner st = h -> String.prefix CIPHER_PRAGMA (text st) = true -> is_writer h w -> calm w0 w ->
  wp (encrypt_sqls sqls st) (fun _ s => s.1 = o /\ calm w0 s.2) (o, w).
Proof.
  revert st. induction sqls as [|sql sqls IH]; intros st w0 w Hall Ho Ht Hw Hc; [by apply wp_ret|]. inversion Hall as [|? ? Hsql Hall']; subst.
  apply wp_bind. unfold SetDefaultEncryptSql. apply wp_bind, wp_sys. intros [e st1] w1 Hp. destruct (prepare_law _ _ _ _ _ _ Hp) as (Hc1 & Ho1 & Ht1).
  assert (calm w0 w1) by (by etrans). destruct (is_ok e) eqn:He; simpl.
  - apply wp_sys. intros [e2 st2] w2 Hx.
    destruct (execute_law _ _ _ _ _ _ Hx) as (Hj & Hk & Ho2 & Ht2 & _ & Hcip & _); [rewrite Ho1; by apply Hc1|].
    rewrite Ht1 in Hcip. assert (calm w0 w2) as Hc2.
    { etrans; [done|]. split; [by apply Hcip|done]. }
    destruct (is_ok e2) eqn:He2; simpl; [|by apply wp_ret]. apply (IH st2 w0 w2); [done|congruence|by rewrite Ht2, Ht1|apply Hk; by apply Hc1|done].
  - unfold wp, ret, bind. simpl. destruct e; try done; by rewrite ?He.
Qed.

Lemma algo_calm c h o w : obtainable -> is_writer h w ->
  wp (SetDefaultEncryptAlgo (Some h) c) (fun _ s => s.1 = o /\ calm w s.2) (o, w).
Proof.
  intros Hob Hw. unfold SetDefaultEncryptAlgo. destruct (CryptoParam.IsValid _); cbn [negb]; [|by apply wp_ret].
  apply wp_bind, wp_sys. intros [e r] w1 Hg. cbn [fst snd] in Hg. destruct (Hob _ _ _ _ _ _ Hg) as [st ->].
  destruct (statement_law _ _ _ _ _ _ Hg) as [Hc Hst]. destruct (Hst st eq_refl) as [Ht Ho].
  apply (encrypt_calm st h o _ w w1); [|done|by rewrite Ht|by apply Hc|done].
  repeat apply Forall_cons_2; [done|]. apply Forall_app. split; [destruct (_ <? _); by repeat constructor|by repeat constructor].
Qed.

(** What a statement on the writer does to the set of attached databases, if it succeeds. *)
Definition changes (f : gset string -> gset string -> Prop) (w : W) (e : errno) (w' : W) : Prop :=
  journal w' = journal w /\ (forall h, is_writer h w -> is_writer h w') /\
  if is_ok e then f (attached w) (attached w') else attached w' = attached w.

Definition adds n (x y : gset string) : Prop := (n ∉ x) /\ y = {[n]} ∪ x.
Definition drops n (x y : gset string) : Prop := y = x ∖ {[n]}.

Lemma execute_changes f sql args code h o w : obtainable -> is_writer h w -> (forall e, is_ok e = false -> is_ok (code e) = false) ->
  (forall st w1 st' w2, text st = sql -> is_writer (owner st) w1 -> Execute args st w1 = (E_OK, st', w2) -> f (attached w1) (attached w2)) ->
  wp (execute_on sql args code (Some h)) (fun e s => s.1 = o /\ changes f w e s.2) (o, w).
Proof.
  intros Hob Hw Hcode Hf. unfold execute_on, statement_on. apply wp_bind, wp_sys. intros [e r] w1 Hg. cbn [fst snd] in Hg.
  destruct (Hob _ _ _ _ _ _ Hg) as [st ->]. destruct (statement_law _ _ _ _ _ _ Hg) as [(Ha & Hj & Hk) Hst].
  destruct (Hst st eq_refl) as [Ht Ho]. destruct (is_ok e) eqn:He; simpl.
  - apply wp_bind, wp_sys. intros [e2 st2] w2 Hx. cbn [fst snd] in Hx. apply wp_ret. simpl.
    destruct (execute_law _ _ _ _ _ _ Hx) as (Hj2 & Hk2 & _ & _ & Hfail & _); [rewrite Ho; by apply Hk|].
    split; [done|]. split; [congruence|]. split; [auto|]. destruct (is_ok e2) eqn:He2.
    + apply is_ok_true in He2 as ->. rewrite <- Ha. apply (Hf st w1 st2 w2); [done|rewrite Ho; by apply Hk|done].
    + rewrite <- Ha. apply Hfail. intros ->. done.
  - apply wp_ret. simpl. split; [done|]. split; [congruence|]. split; [auto|]. by rewrite (Hcode e He).
Qed.

Lemma attach_changes sql args n code h o w : obtainable -> is_writer h w -> (forall e, is_ok e = false -> is_ok (code e) = false) ->
  sql ∈ [ATTACH_SQL; ATTACH_WITH_KEY_SQL] -> args !! 1%nat = Some (VString n) ->
  wp (execute_on sql args code (Some h)) (fun e s => s.1 = o /\ changes (adds n) w e s.2) (o, w).
Proof.
  intros Hob Hw Hcode Hsql Hn. apply execute_changes; [done..|]. intros st w1 st' w2 <- Hw1 Hx.
  by apply (execute_law _ _ _ _ _ _ Hx Hw1).
Qed.

Lemma detach_changes n h o w : obtainable -> is_writer h w ->
  wp (execute_on DETACH_SQL [VString n] id (Some h)) (fun e s => s.1 = o /\ changes (drops n) w e s.2) (o, w).
Proof.
  intros Hob Hw. apply execute_changes; [done..|]. intros st w1 st' w2 Ht Hw1 Hx.
  by apply (execute_law _ _ _ _ _ _ Hx Hw1).
Qed.

Lemma wal_disabled h o w : is_writer h w -> steady o w ->
  wp (without_wal h) (fun '(e, c) s => s.1 = o /\ attached s.2 = attached w /\
    (e = E_OK -> exists h', c = Some h' /\ is_writer h' s.2 /\ (isMemoryRdb_ o = true \/ journal s.2 <> MODE_WAL)) /\ steady o s.2) (o, w).
Proof.
  intros Hw Hst. unfold without_wal. apply wp_bind, wp_get. cbv beta. apply wp_bind, wp_get. simpl. rewrite (mode_law h w Hw).
  destruct (isMemoryRdb_ o) eqn:Hm; simpl; [apply wp_ret; simpl; eauto 8|]. destruct (Z.eqb_spec (journal w) MODE_WAL) as [Hj|Hj].
  - destruct Hst as [?|[?|Ha]]; [congruence|done|]. apply wp_bind. unfold sys_. unfold wp at 1. apply wp_bind. unfold wp at 1. simpl.
    apply wp_sys. intros [e c] w' Hd. simpl in *. destruct (release_law (CloseAllConnections w)) as (Hr & _).
    destruct (disable_law _ _ _ _ Hd) as [Ha' Hok]; [by rewrite Hr, close_law|]. split; [done|]. split; [congruence|]. split; [|right; by right].
    intros He. destruct (Hok He) as (Hj' & h' & -> & Hw'). exists h'. repeat split; [done|]. right. by rewrite Hj'.
  - apply wp_ret. simpl. eauto 10.
Qed.

Lemma release_steady {A} (m : store_op A) (Q : A -> gset string -> Z -> Prop) o w :
  wp m (fun a s => s.1 = o /\ Q a (attached s.2) (journal s.2)) (o, w) ->
  wp (bind m (fun a => bind (sys_ ReleaseAll) (fun _ => ret a))) (fun a s => s.1 = o /\ Q a (attached s.2) (journal s.2)) (o, w).
Proof.
  intros Hm. apply wp_bind. eapply wp_mono; [exact Hm|]. intros a [o1 w1] [Ho Hq]. simpl in *. subst.
  unfold wp, bind, sys_, ret. simpl. destruct (release_law w1) as (-> & -> & _). done.
Qed.

(** What [AttachInner] leaves of the attached databases and of the mode. *)
Definition attached_as o n (x : gset string) (e : errno) (y : gset string) (mode : Z) : Prop :=
  if is_ok e then adds n x y /\ (isMemoryRdb_ o = true \/ mode <> MODE_WAL)
  else y = x /\ (isMemoryRdb_ o = true \/ mode <> MODE_WAL \/ y = ∅).

Lemma changes_attached o n w0 w e w' : changes (adds n) w e w' -> attached w = attached w0 ->
  isMemoryRdb_ o = true \/ journal w <> MODE_WAL -> attached_as o n (attached w0) e (attached w') (journal w').
Proof.
  intros (Hj & _ & Hc) Ha Hm. unfold attached_as. rewrite Hj, <- Ha. destruct (is_ok e); [done|]. rewrite Hc. split; [done|].
  destruct Hm; auto.
Qed.

Lemma inner_attaches c n p key wt o w : obtainable -> steady o w ->
  wp (AttachInner c n p key wt) (fun e s => s.1 = o /\ attached_as o n (attached w) e (attached s.2) (journal s.2)) (o, w).
Proof.
  intros Hob Hst. assert (forall e, is_ok e = false -> attached_as o n (attached w) e (attached w) (journal w)) as Hfail
    by (intros e He; unfold attached_as; by rewrite He).
  unfold AttachInner. apply wp_bind, wp_get. cbv beta. cbn [fst]. destruct (connectionPool_ o); cbn [negb]; [|apply wp_ret; split; [done|by apply Hfail]].
  apply wp_bind, wp_sys. intros [h|] w1 Hq; cbn [fst snd] in Hq; destruct (acquire_law _ _ _ _ Hq) as [(Ha & Hj & Hk) Hw];
    [|apply wp_ret; simpl; rewrite Ha, Hj; split; [done|by apply Hfail]].
  rewrite <- Ha. assert (steady o w1) as Hst1 by (by apply (steady_calm o w)).
  apply wp_bind. eapply wp_mono; [apply (wal_disabled h o w1); [by apply Hw|done]|]. intros [e c1] [o2 w2] (Ho2 & Ha2 & Hok & Hst2). cbn [fst snd] in *. subst o2.
  apply (release_steady _ (attached_as o n (attached w1))). destruct (is_ok e) eqn:He; cbn [negb].
  - destruct (Hok (proj1 (is_ok_true e) He)) as (h' & -> & Hw' & Hm). destruct key as [|k0 key].
    + eapply wp_mono; [apply (attach_changes _ _ n); [done|done|done|by left|done]|]. intros e2 s2 [Ho Hc]. split; [done|]. by apply (changes_attached o n w1 w2).
    + apply wp_bind. eapply wp_mono; [by apply (algo_calm c h' o w2)|]. intros e2 [o3 w3] [Ho3 (Ha3 & Hj3 & Hk3)]. cbn [fst snd] in *. subst o3.
      destruct (is_ok e2) eqn:He2; cbn [negb].
      * eapply wp_mono; [apply (attach_changes _ _ n); [done|by apply Hk3|done|by right; left|done]|]. intros e3 s3 [Ho Hc]. split; [done|].
        apply (changes_attached o n w1 w3); [done|congruence|by rewrite Hj3].
      * apply wp_ret. simpl. split; [done|]. unfold attached_as. rewrite He2, Ha3, Ha2, Hj3. split; [done|]. destruct Hm; auto.
  - apply wp_ret. simpl. split; [done|]. unfold attached_as. rewrite He, Ha2. unfold steady in Hst2. rewrite Ha2 in Hst2. done.
Qed.

Lemma wp_on_store {A} (m : store_op A) (Q : A -> gmap string string * (StoreObject.t * W) -> Prop) s :
  wp m (fun a s' => Q a (s.1, s')) s.2 -> wp (on_store m) Q s.
Proof. unfold wp, on_store. destruct (m s.2) as [[a s']|]; done. Qed.

(** *** Sequences of calls *)

Inductive call : Type := DoAttach (config : Config) (n : string) (waitTime : Z) | DoDetach (n : string) (waitTime : Z).

Definition do (c : call) : run (gmap string string * (StoreObject.t * W)) (errno * Z) :=
  match c with DoAttach config n wt => Attach config n wt | DoDetach n wt => Detach n wt end.

Fixpoint calls (cs : list call) : run (gmap string string * (StoreObject.t * W)) (list (errno * Z)) :=
  match cs with [] => ret [] | c :: cs => let! r := do c in let! rs := calls cs in ret (r :: rs) end.

(** The specification: a set of names, and the answers that a call may give. *)
Definition answer (c : call) (x : gset string) (r : errno * Z) (y : gset string) : Prop :=
  if is_ok r.1 then match c with DoAttach _ n _ => adds n x y | DoDetach n _ => drops n x y end /\ r.2 = Z.of_nat (size y)
  else y = x /\ r.2 = 0.

Inductive follows (x : gset string) : list call -> list (errno * Z) -> gset string -> Prop :=
| follows_nil : follows x [] [] x
| follows_cons c r y cs rs z : answer c x r y -> follows y cs rs z -> follows x (c :: cs) (r :: rs) z.

(** The map of the store is what is attached. *)
Definition tracked (info : gmap string string) o w : Prop := dom info = attached w /\ steady o w.

Lemma refused c info o w e : is_ok e = false -> tracked info o w ->
  answer c (dom info) (e, 0) (dom info) /\ o = o /\ tracked info o w.
Proof. intros He Ht. unfold answer. cbn [fst snd]. by rewrite He. Qed.

Lemma attach_follows config n wt info o w : obtainable -> tracked info o w ->
  wp (Attach config n wt) (fun r s => answer (DoAttach config n wt) (dom info) r (dom s.1) /\ s.2.1 = o /\ tracked s.1 o s.2.2) (info, (o, w)).
Proof.
  intros Hob Ht. unfold Attach. apply wp_bind, wp_get. cbv beta. cbn [fst snd]. destruct (_ || _ || _ || _); [by apply wp_ret, refused|].
  destruct (DbPath.GetDbPath config) as [err dbPath]. apply wp_bind, wp_get. destruct (_ || _); [by apply wp_ret, refused|].
  destruct (_ && _); [by apply wp_ret, refused|]. apply wp_bind, wp_get. cbn [fst].
  destruct (info !! n) as [v|] eqn:Hn; [rewrite bool_decide_true by done; by apply wp_ret, refused|]. rewrite bool_decide_false by (by intros [? ?]).
  apply wp_bind, wp_on_store, wp_sys. intros config' w1 Hk. cbn [fst snd] in *. destruct Ht as [Hd Hs].
  destruct (key_law _ _ _ _ Hk) as (Ha & Hj & Hkw). apply wp_bind, wp_on_store. eapply wp_mono.
  { apply inner_attaches; [done|]. by apply (steady_calm o w). }
  intros e [o2 w2] [Ho Hat]. cbn [fst snd] in *. subst o2. unfold attached_as in Hat. rewrite Ha in Hat. destruct (is_ok e) eqn:He.
  - apply is_ok_true in He as ->. rewrite bool_decide_false by done. cbn [is_ok negb]. destruct Hat as [[Hin Hadd] Hm].
    apply wp_bind, wp_get. cbn [fst]. rewrite bool_decide_false by (rewrite Hn; by intros [? ?]). apply wp_bind, wp_modify. cbn [fst snd].
    apply wp_bind, wp_get, wp_ret. cbn [fst snd]. unfold answer. cbn [is_ok fst snd]. rewrite dom_insert_L, Hd. split; [|split; [done|]].
    + split; [by split|]. by rewrite <- size_dom, dom_insert_L, Hd.
    + split; [by rewrite dom_insert_L, Hd|]. unfold steady. destruct Hm; auto.
  - destruct Hat as [Ha2 Hm]. assert (tracked info o w2) by (split; [congruence|done]).
    case_bool_decide; [by apply wp_ret, refused|]. by apply wp_ret, refused.
Qed.

Lemma released r c x o w info : tracked info o w -> answer c x r (dom info) ->
  wp (bind (on_store (sys_ ReleaseAll)) (fun _ => ret r)) (fun r s => answer c x r (dom s.1) /\ s.2.1 = o /\ tracked s.1 o s.2.2) (info, (o, w)).
Proof.
  intros [Hd Hs] Hr. unfold wp, bind, on_store, sys_, ret. simpl. pose proof (release_law w) as Hc. split; [done|]. split; [done|].
  split; [by destruct Hc as [-> _]|by apply (steady_calm o w)].
Qed.

Lemma detach_follows n wt info o w : obtainable -> tracked info o w ->
  wp (Detach n wt) (fun r s => answer (DoDetach n wt) (dom info) r (dom s.1) /\ s.2.1 = o /\ tracked s.1 o s.2.2) (info, (o, w)).
Proof.
  intros Hob Ht. unfold Detach. apply wp_bind, wp_get. apply wp_bind, wp_get. cbn [fst snd]. destruct (_ || _); [by apply wp_ret, refused|].
  destruct (info !! n) as [v|] eqn:Hn.
  2:{ rewrite bool_decide_false by (by intros [? ?]). apply wp_ret. split; [|done]. unfold answer, drops. cbn [is_ok fst snd].
      apply not_elem_of_dom in Hn. split; [set_solver|]. by rewrite size_dom. }
  rewrite bool_decide_true by done. cbn [negb]. destruct (connectionPool_ o); cbn [negb]; [|by apply wp_ret, refused].
  apply wp_bind, wp_on_store, wp_sys. intros c w1 Hq. cbn [fst snd] in *. destruct (acquire_law _ _ _ _ Hq) as [Hc Hw].
  assert (tracked info o w1) as Ht1 by (split; [destruct Hc as [-> _]; apply Ht|by apply (steady_calm o w), Ht]).
  destruct c as [h|]; [|by apply wp_ret, refused]. apply wp_bind, wp_on_store. eapply wp_mono; [apply (detach_changes n h o w1); [done|by apply Hw]|].
  intros e [o2 w2] [Ho (Hj & Hk & Ha)]. cbn [fst snd] in *. subst o2. destruct Ht1 as [Hd1 Hs1]. destruct (is_ok e) eqn:He; cbn [negb].
  - apply wp_bind, wp_modify. cbn [fst snd]. apply wp_bind, wp_get. cbn [fst].
    assert (isMemoryRdb_ o = true \/ journal w2 <> MODE_WAL) as Hm.
    { rewrite Hj. destruct Hs1 as [?|[?|Hemp]]; [by left|by right|]. rewrite <- Hd1 in Hemp. apply elem_of_dom_2 in Hn. set_solver. }
    assert (tracked (delete n info) o w2) as Ht2.
    { split; [rewrite dom_delete_L, Ha, <- Hd1; set_solver|]. unfold steady. destruct Hm; auto. }
    assert (drops n (dom info) (dom (delete n info))) as Hdrop by (unfold drops; rewrite dom_delete_L; set_solver).
    case_bool_decide as Hemp; cbn [negb]; [|apply released; [done|]; unfold answer; cbn [is_ok fst snd]; by rewrite size_dom].
    apply wp_bind, wp_on_store. unfold reopen_wal. apply wp_bind, wp_get. cbv beta. apply wp_bind, wp_get. cbn [fst snd].
    rewrite (mode_law h w2) by (by apply Hk, Hw).
    assert (negb (isMemoryRdb_ o) && (journal w2 =? MODE_WAL) = false) as -> by (destruct Hm as [-> |Hm]; [done|]; apply Z.eqb_neq in Hm as ->; by destruct (isMemoryRdb_ o)).
    unfold wp, bind, sys_, ret. simpl. unfold answer. cbn [is_ok fst snd]. pose proof (release_law w2) as Hr. rewrite Hemp in Hdrop |- *.
    split; [split; [done|by rewrite size_dom, map_size_empty]|]. split; [done|].
    rewrite Hemp in Ht2. split; [destruct Hr as [-> _]; apply Ht2|]. by apply (steady_calm o w2), Ht2.
  - apply released; [split; [congruence|]; unfold steady in *; by rewrite Hj, Ha|]. unfold answer. simpl. by rewrite He.
Qed.

Lemma calls_follow cs : forall info o w, obtainable -> tracked info o w ->
  wp (calls cs) (fun rs s => follows (dom info) cs rs (dom s.1) /\ s.2.1 = o /\ tracked s.1 o s.2.2) (info, (o, w)).
Proof.
  induction cs as [|c cs IH]; intros info o w Hob Ht; [apply wp_ret; split; [constructor|done]|]. apply wp_bind. eapply wp_mono.
  { destruct c; [by apply attach_follows|by apply detach_follows]. }
  intros r [info1 [o1 w1]] (Hr & Ho & Ht1). cbn [fst snd] in *. subst o1. apply wp_bind. eapply wp_mono; [by apply IH|].
  intros rs [info2 [o2 w2]] (Hrs & Ho2 & Ht2). apply wp_ret. split; [by econstructor|done].
Qed.

End Laws.
End AttachInv.

(** ** A small pool *)

Module SmallPool.
Import Conn StoreObject FileBackup Attach AttachInv.

(** Names that are attached and the mode of the writer; whether the pool can be opened again, and whether
    databases can be attached. *)
Record world := { names : gset string; mode : Z; reopens : bool; takes : bool }.

Definition set_names (x : gset string) (w : world) : world := {| names := x; mode := mode w; reopens := reopens w; takes := takes w |}.
Definition reopened (m : Z) (w : world) : world := {| names := ∅; mode := m; reopens := reopens w; takes := takes w |}.

Definition execute (args : list ValueObject) (sql : string) (w : world) : errno * world :=
  if bool_decide (sql ∈ [ATTACH_SQL; ATTACH_WITH_KEY_SQL]) then
    match args !! 1%nat with
    | Some (VString n) =>
        if bool_decide (n ∈ names w) then (E_SQLITE_ERROR, w)
        else if takes w then (E_OK, set_names ({[n]} ∪ names w) w) else (E_SQLITE_CANTOPEN, w)
    | _ => (E_SQLITE_ERROR, w)
    end
  else if bool_decide (sql = DETACH_SQL) then
    match args with [VString n] => (E_OK, set_names (names w ∖ {[n]}) w) | _ => (E_SQLITE_ERROR, w) end
  else (E_OK, w).

#[export] Instance small_disk : Disk world := {|
  access _ _ := true; touch _ w := (true, w); unlink _ w := w; file_size _ _ := None; remove_all _ _ w := w; entries _ _ := 0;
  has_acl _ _ := false; set_gid _ _ w := w; set_dir_gid _ w := w |}.

#[export] Instance small_statements : Statements world := {|
  stmt := string; Prepare q _ w := (E_OK, q, w); Reset st w := (E_OK, st, w);
  Execute args st w := let '(e, w') := execute args st w in (e, st, w');
  ExecuteForValue _ st w := (E_ERROR, VNil, st, w); ExecuteForRows _ _ st w := (E_ERROR, [], st, w); Changes _ _ := 0;
  LastInsertRowId _ _ := 0; GetColumnCount _ := 0; GetColumn _ _ _ := (E_ERROR, VNil) |}.

#[export] Instance small_backing : Backing world := {|
  conn := unit; CreateConn _ _ w := ((E_ERROR, None), w); CloseConn _ w := w; GetStatement q _ w := ((E_OK, Some q), w);
  PoolFull _ := true; CloseAllConnections w := reopened (mode w) w; PoolInit c w := ((E_OK, c), w); AcquireConnection _ w := (None, w);
  ReleaseConn _ w := w; ReopenConns w := w; AcquireAndDisableTrans w := (E_OK, w); EnableTrans _ w := w; SlaveBackup _ _ _ w := (E_ERROR, w);
  SlaveRestore _ _ _ _ w := (E_ERROR, w); CheckReplicaForRestore _ _ w := (E_ERROR, w); VectorBackup _ _ _ w := (E_ERROR, w);
  KeyLock _ _ w := (E_OK, w); KeyUnlock _ w := w; would_block _ := false; real_path _ _ := true; open_in _ _ := false;
  open_out _ w := (false, w); pump _ _ w := w; NotifyDataChange w := w; DoCloudSync _ w := w |}.

#[export] Instance small_pool : AttachPool world := {|
  AcquireAll _ w := (Some tt, w); ReleaseAll w := w; GetJournalMode _ := mode;
  DisableWal w := if reopens w then ((E_OK, Some tt), reopened MODE_TRUNCATE w) else ((E_SQLITE_CANTOPEN, None), reopened (mode w) w);
  EnableWal w := (E_OK, reopened MODE_WAL w); InitializeKey c w := (c, w) |}.

Lemma small_execute_spec args sql w e w' : execute args sql w = (e, w') ->
  mode w' = mode w /\ (e <> E_OK -> names w' = names w) /\ (String.prefix CIPHER_PRAGMA sql = true -> names w' = names w) /\
  (forall n, e = E_OK -> sql ∈ [ATTACH_SQL; ATTACH_WITH_KEY_SQL] -> args !! 1%nat = Some (VString n) -> (n ∉ names w) /\ names w' = {[n]} ∪ names w) /\
  (forall n, e = E_OK -> sql = DETACH_SQL -> args = [VString n] -> names w' = names w ∖ {[n]}).
Proof.
  unfold execute. case_bool_decide as Hs.
  - assert (String.prefix CIPHER_PRAGMA sql = false /\ sql <> DETACH_SQL) as [Hp Hd]
      by (by repeat (apply elem_of_cons in Hs as [-> |Hs]; [done|]); apply not_elem_of_nil in Hs).
    rewrite Hp. destruct (args !! 1%nat) as [[]|] eqn:Hn; try (intros [= <- <-]; naive_solver).
    case_bool_decide as Hin; [intros [= <- <-]; naive_solver|]. destruct (takes w); intros [= <- <-]; naive_solver.
  - case_bool_decide as Hd; [subst sql; destruct args as [|[] []]; intros [= <- <-]; repeat split; naive_solver|]. intros [= <- <-]. naive_solver.
Qed.

#[export, refine] Instance small_laws : AttachLaws world := {|
  attached := names; journal := mode; is_writer _ _ := True; text st := st; owner _ := tt |}.
Proof.
  all: try (intros; simpl in *; simplify_eq; naive_solver).
  - intros w e c w' Hd Hn. simpl in Hd. destruct (reopens w); simplify_eq; simpl; naive_solver.
  - intros q h w e r w' Hg. simpl in Hg. simplify_eq. split; [done|]. intros st [= <-]. by destruct h.
  - intros args st w e st' w' Hx _. simpl in Hx. destruct (execute args st w) as [e1 w1] eqn:He. simplify_eq.
    destruct (small_execute_spec _ _ _ _ _ He) as (Hm & Hf & Hp & Ha & Hd). repeat split; try done; naive_solver.
Defined.

End SmallPool.

(** ** What the attached databases are *)

Module AttachProps.
Import Conn StoreObject FileBackup Attach AttachInv SmallPool.

(** C23: Every call of [Attach] and [Detach] gives an answer, and the answers are those of a set of names:
    [Attach] succeeds only for a name that is not in it and adds it, [Detach] takes one out, a call that fails
    changes nothing, and the number in the answer is the size of the set.  Both the map of the store and
    what is attached to the writer in SQLite are this set, though a call may close every connection
    and open the database again. *)
Theorem attachments_follow {W : Type} `{Disk W} `{AttachLaws W} (cs : list call) (o : StoreObject.t) (w : W)
  (Hob : obtainable (W := W)) (Hw : attached w = ∅) :
  exists rs info w', calls cs (∅, (o, w)) = Some (rs, (info, (o, w'))) /\ follows ∅ cs rs (dom info) /\ attached w' = dom info.
Proof.
  assert (tracked ∅ o w) as Ht by (split; [by rewrite Hw, dom_empty_L|by right; right]).
  destruct (wp_run _ _ _ (calls_follow cs ∅ o w Hob Ht)) as (rs & [info [o' w']] & Hrun & Hf & Ho & Hd & _).
  rewrite dom_empty_L in Hf. simpl in *. subst o'. by exists rs, info, w'.
Qed.

Definition other (p : string) : Config := RdbStoreConfig.of_path p.
Definition opened_store : StoreObject.t :=
  let o := StoreObject.new (other "/d/a.db") in
  {| isOpen_ := true; isReadOnly_ := false; isMemoryRdb_ := false; isUseReplicaDb_ := false; isNeedSetAcl_ := false;
     rebuild_ := rebuild_ o; initStatus_ := Some E_OK; config_ := config_ o; syncerParam_ := syncerParam_ o; path_ := path_ o;
     connectionPool_ := true |}.
Definition wal_world (reopens takes : bool) : world := {| names := ∅; mode := MODE_WAL; reopens := reopens; takes := takes |}.

(** The answers, the names and the mode behind some calls. *)
Definition outcome (cs : list call) (w : world) : option (list (errno * Z) * list string * Z) :=
  match calls cs (∅, (opened_store, w)) with
  | Some (rs, (info, (_, w'))) => Some (rs, elements (dom info), mode w')
  | None => None
  end.

Lemma attachments_follow_witness :
  exists rs info w', calls [DoAttach (other "/d/b.db") "b" 2; DoAttach (other "/d/c.db") "c" 2; DoAttach (other "/d/c.db") "b" 2; DoDetach "b" 2]
    (∅, (opened_store, wal_world true true)) = Some (rs, (info, (opened_store, w'))) /\
  rs = [(E_OK, 1); (E_OK, 2); (E_ATTACHED_DATABASE_EXIST, 0); (E_OK, 1)] /\ attached w' = {["c"]}.
Proof.
  destruct (attachments_follow [DoAttach (other "/d/b.db") "b" 2; DoAttach (other "/d/c.db") "c" 2; DoAttach (other "/d/c.db") "b" 2; DoDetach "b" 2]
    opened_store (wal_world true true)) as (rs & info & w' & Hrun & _ & Ha); [by intros q h w e r w' [= _ <- _]|reflexivity|].
  exists rs, info, w'. split; [exact Hrun|]. vm_compute in Hrun. injection Hrun as <- <- <-. split; reflexivity.
Defined.

(** The last [Detach] leaves the store in the mode TRUNCATE: [EnableWal] is called for a writer in the mode
    WAL only, and a writer that has something attached is not. *)
Theorem wal_stays_disabled :
  outcome [DoAttach (other "/d/b.db") "b" 2; DoDetach "b" 2] (wal_world true true) = Some ([(E_OK, 1); (E_OK, 0)], [], MODE_TRUNCATE).
Proof. vm_compute. reflexivity. Qed.

(** So does an [Attach] that fails behind [DisableWal], and no [Detach] can follow it. *)
Theorem failed_attach_disables_wal :
  outcome [DoAttach (other "/d/b.db") "b" 2; DoDetach "b" 2] (wal_world true false) = Some ([(E_SQLITE_CANTOPEN, 0); (E_OK, 0)], [], MODE_TRUNCATE).
Proof. vm_compute. reflexivity. Qed.

End AttachProps.
