(* ===== verification/Configure.v ===== *)
(** * Opening one connection

    [OpenConnection]: [InnerOpen] of frameworks/native/rdb/src/sqlite_connection.cpp with everything it calls:
    the opening of the file, the pragmas ([Configure] and the functions below it), the key ([Encryption]), the
    functions and extensions that are registered, and the check of the database.  The calls of SQLite and
    of the file system are the class [Database], beside the codec of [Encryption].  [ConfigureInv]: what SQLite
    promises, and lemmas.  [ConfigureProps]: the theorems.

    Reports of faults are left out.  The state is the connection, and the key files and the database of
    [Encryption]; the configuration is an argument and, as its keys are mutable, part of the result. *)
From Stdlib Require Import ZArith Lia Ascii.
From stdpp Require Import base gmap list strings pretty.
From coqutil Require Import Datatypes.RecordSetters.
Import OCamlLikeNotations.
From S2P Require Import Prelude CppStd Errno Values StringUtils Security StoreConfig SqliteStmt Encryption.

Local Open Scope Z_scope.
Import Run.
#[local] Arguments constant {E} newValue _ /.

(** What opening asks of the system.  [file_found] and [dir_writable] are [access]; [not_compressed] says that
    the extended code is [SQLITE_WARNING_NOTCOMPRESSDB], [disk_full] that the system's is 28.  [QueryValue] and
    [ExecuteArgs] are [ExecuteForValue] and [ExecuteSql] of the connection, a statement that is made, run and
    dropped.  [load_config] switches the loading of extensions.  [double_text] is the text of a floating
    point number, which no pragma gives. *)
Class Database (D : Type) := {
  file_found : string -> D -> bool;
  dir_writable : string -> D -> bool;
  sqlite3_open_v2 : string -> Z -> option string -> D -> Z * D;
  not_compressed : D -> bool;
  variable_limit : D -> Z;
  ConfigLocale : string -> D -> D;
  create_function : string -> Z -> D -> Z * D;
  busy_timeout : Z -> D -> Z * D;
  st_mode : string -> D -> option Z;
  chmod : string -> Z -> D -> D;
  persist_wal : D -> Z * D;
  QueryValue : string -> D -> (errno * ValueObject) * D;
  ExecuteArgs : string -> list ValueObject -> D -> errno * D;
  disk_full : D -> bool;
  RegisterDbHook : D -> D;
  CreateDataChangeTempTrigger : D -> D;
  load_config : Z -> D -> Z * D;
  load_extension : string -> D -> Z * D;
  enable_icu : D -> D;
  double_text : Z -> string
}.

Module OpenConnection.
Import SQLiteError.
Abbreviation Config := RdbStoreConfig.t.

(** A result: a code of the library, or one of SQLite that is returned as it is. *)
Inductive code : Type := Code (e : errno) | Raw (rc : Z).

Definition succeeded (c : code) : bool := match c with Code e => is_ok e | Raw _ => false end.

(** [S_IXUSR | S_IXGRP | S_IRWXO] and [S_IRUSR | S_IWUSR | S_IRGRP | S_IWGRP]. *)
Definition LIMITED_RIGHTS : Z := 0x4F.
Definition KEPT_RIGHTS : Z := 0x1B0.
Definition SQLITE_WARNING : Z := 28.
Definition SQLITE_OPEN_READONLY : Z := 0x1.
Definition SQLITE_OPEN_READWRITE : Z := 0x2.
Definition SQLITE_OPEN_CREATE : Z := 0x4.
Definition SQLITE_OPEN_URI : Z := 0x40.
Definition SQLITE_OPEN_FULLMUTEX : Z := 0x10000.
Definition MODE_TRUNCATE : Z := 1.
Definition MODE_WAL : Z := 4.
Definition ICU_TOKENIZER : Z := 1.
Definition CUSTOM_TOKENIZER : Z := 2.
Definition DEFAULT_BUSY_TIMEOUT_MS : Z := 2000.
Definition WAL_AUTO_CHECKPOINT : Z := 100.
Definition DEFAULE_SYNC_MODE : string := "FULL".
Definition PRAGMA_META_DOUBLE_WRITE : string := "PRAGMA meta_double_write=enabled".
Definition MAX_LOAD_EXTENSION_COUNT : nat := 16.
Definition ENABLE_LOAD_EXTENSION : Z := 1.
Definition DISABLE_LOAD_EXTENSION : Z := 0.
Definition CUSTOM_TOKENIZER_LIB : string := "libcustomtokenizer.z.so".
Definition FUNCTIONS : list (string * Z) := [("merge_assets", 2); ("merge_asset", 2); ("import_db_from_path", 1)].

Definition INTEGRITIES (check : RdbStoreConfig.IntegrityCheck) : option string :=
  match check with
  | RdbStoreConfig.CHECK_NONE => None
  | RdbStoreConfig.CHECK_QUICK => Some "PRAGMA quick_check"
  | RdbStoreConfig.CHECK_FULL => Some "PRAGMA integrity_check"
  end.

(** The members of [SqliteConnection] that opening uses. *)
Record t := {
  isWriter_ : bool;
  isReadOnly_ : bool;
  isConfigured_ : bool;
  isSupportBinlog_ : bool;
  isSlave_ : bool;
  mode_ : Z;
  maxVariableNumber_ : Z;
  customScalarFunctions_ : OMap.smap RdbStoreConfig.ScalarFunctionInfo;
  config_ : Config
}.

(** The constructor. *)
Definition new (config : Config) (isWriter isSlave : bool) : t :=
  {| isWriter_ := isWriter; isReadOnly_ := false; isConfigured_ := false; isSupportBinlog_ := false; isSlave_ := isSlave;
     mode_ := MODE_WAL; maxVariableNumber_ := 0; customScalarFunctions_ := []; config_ := config |}.

Section Ops.
Context {K D : Type} `{Huks.Huks K} `{Files.Files K} `{Encryption.Codec D} `{Database D}.
Abbreviation world := ((SecurityManager.t * K) * D)%type.
Abbreviation op := (run (t * world)).

(** A call on the database, and a question. *)
Definition db {A} (f : D -> A * D) : op A := sys (fun w : world => let '(a, d) := f w.2 in (a, (w.1, d))).
Definition db_ (f : D -> D) : op unit := sys_ (fun w : world => (w.1, f w.2)).
Definition ask {A} (f : D -> A) : op A := get (fun s => f s.2.2).

(** [ValueObject::operator std::string]. *)
Definition text_of (v : ValueObject) : string :=
  match v with
  | VInt z => pretty z
  | VBool b => if b then "1" else "0"
  | VDouble d => double_text d
  | VString s => s
  | _ => EmptyString
  end.

(** Steps that are made until one fails. *)
Definition then_ (m k : op code) : op code := let! c := m in if succeeded c then k else ret c.

Definition SetTokenizer (config : Config) : op errno :=
  let tokenizer := RdbStoreConfig.tokenizer_ config in
  if (tokenizer =? RdbStoreConfig.NONE_TOKENIZER) || (tokenizer =? CUSTOM_TOKENIZER) then ret E_OK
  else if tokenizer =? ICU_TOKENIZER then let! _ := db_ enable_icu in ret E_OK
  else ret E_INVALID_ARGS.

Definition CheckDbNotExist (config : Config) (dbPath : string) : op errno :=
  let! found := ask (file_found dbPath) in
  ret (if negb found && negb (RdbStoreConfig.isCreateNecessary_ config) then E_DB_NOT_EXIST else E_OK).

(** The directory of a file: up to the last slash of either kind. *)
Definition dir_of (dbPath : string) : option string :=
  (fun pos => Str.substr dbPath 0 pos) <$> Str.find_last (fun c => Ascii.eqb c "\" || Ascii.eqb c "/") dbPath.

Definition OpenDatabase (dbPath : string) (openFileFlags : Z) : op errno :=
  let! o := self in
  let! errCode := db (sqlite3_open_v2 dbPath openFileFlags (if isSlave_ o && isSupportBinlog_ o then Some "compressvfs" else None)) in
  if errCode =? SQLITE_OK then ret E_OK
  else
    let! plain := ask not_compressed in
    if isSlave_ o && (errCode =? SQLITE_WARNING) && plain then ret E_SQLITE_CORRUPT
    else
      let! writable := ask (fun d => match dir_of dbPath with Some p => dir_writable p d | None => true end) in
      ret (if negb writable then E_INVALID_FILE_PATH else ErrNo errCode).

Fixpoint register (functions : list (string * Z)) (failed : Z -> code) : op code :=
  match functions with
  | [] => ret (Code E_OK)
  | (name, argc) :: rest =>
      let! rc := db (create_function name argc) in
      if rc =? SQLITE_OK then register rest failed else ret (failed rc)
  end.

Definition RegDefaultFunctions : op code := register FUNCTIONS (fun rc => Code (ErrNo rc)).

(** The code of SQLite is not translated. *)
Definition SetCustomFunctions (config : Config) : op code :=
  let functions := RdbStoreConfig.customScalarFunctions_ config in
  let! _ := modify (fun o => {o with customScalarFunctions_ := functions }) in
  register (map (fun '(name, info) => (name, RdbStoreConfig.argc_ info)) functions) Raw.

(** Execute rights and the rights of others are taken away. *)
Definition LimitPermission (config : Config) (dbPath : string) : op unit :=
  if RdbStoreConfig.IsMemoryRdb config then ret tt
  else
    let! st := ask (st_mode dbPath) in
    match st with
    | Some mode => when (negb (Z.land mode LIMITED_RIGHTS =? 0)) (db_ (chmod dbPath (Z.land mode KEPT_RIGHTS)))
    | None => ret tt
    end.

Definition SetDwrEnable (config : Config) : op unit :=
  if RdbStoreConfig.IsEncrypt config || RdbStoreConfig.IsMemoryRdb config then ret tt
  else let! _ := db (ExecuteArgs PRAGMA_META_DOUBLE_WRITE []) in ret tt.

Definition SetPersistWal (config : Config) : op code :=
  if RdbStoreConfig.IsMemoryRdb config then ret (Code E_OK)
  else let! rc := db persist_wal in ret (Code (if rc =? SQLITE_OK then E_OK else E_SET_PERSIST_WAL)).

Definition SetPageSize (config : Config) : op code :=
  let! o := self in
  let targetValue := RdbStoreConfig.pageSize_ config in
  if isReadOnly_ o || (targetValue =? GlobalConfig.DB_PAGE_SIZE) then ret (Code E_OK)
  else
    let! (errCode, object) := db (QueryValue "PRAGMA page_size") in
    if negb (is_ok errCode) then ret (Code errCode)
    else if Value.to_int64 object =? targetValue then ret (Code E_OK)
    else let! errCode := db (ExecuteArgs ("PRAGMA page_size=" +:+ pretty targetValue) []) in ret (Code errCode).

(** [SetEncrypt], on the key files and the database. *)
Definition SetEncrypt (config : Config) : op (code * Config) :=
  fun s => match Encryption.SetEncrypt (isWriter_ s.1) config s.2 with
           | Some ((errCode, config), w) => Some ((Code errCode, config), (s.1, w))
           | None => None
           end.

Definition SetWalSyncMode (syncMode : string) : op errno :=
  let targetValue := if Str.empty syncMode then DEFAULE_SYNC_MODE else syncMode in
  let! (errCode, object) := db (QueryValue "PRAGMA synchronous") in
  if negb (is_ok errCode) then ret errCode
  else if bool_decide (SqliteUtils.StrToUpper (text_of object) = targetValue) then ret E_OK
  else db (ExecuteArgs ("PRAGMA synchronous=" +:+ targetValue) []).

(** The end of [SetJournalMode], when the mode is the one of the configuration. *)
Definition journal_set (config : Config) : op code :=
  let! errCode :=
    (if bool_decide (RdbStoreConfig.journalMode_ config = "WAL") then SetWalSyncMode (RdbStoreConfig.syncMode_ config) else ret E_OK) in
  let! _ := when (bool_decide (RdbStoreConfig.journalMode_ config = "TRUNCATE")) (modify (fun o => {o with mode_ := MODE_TRUNCATE })) in
  ret (Code errCode).

Definition SetJournalMode (config : Config) : op code :=
  let! o := self in
  let target := RdbStoreConfig.journalMode_ config in
  if isReadOnly_ o || RdbStoreConfig.IsMemoryRdb config then ret (Code E_OK)
  else
    let! (errCode, object) := db (QueryValue "PRAGMA journal_mode") in
    if negb (is_ok errCode) then
      let! full := ask disk_full in
      ret (Code (if bool_decide (errCode = E_SQLITE_IOERR) && full then E_SQLITE_IOERR_FULL else errCode))
    else if bool_decide (target = text_of object) then ret (Code E_OK)
    else if bool_decide (SqliteUtils.StrToUpper (text_of object) = target) then journal_set config
    else
      let! (errorCode, journalMode) := db (QueryValue ("PRAGMA journal_mode=" +:+ target)) in
      if negb (is_ok errorCode) then ret (Code errorCode)
      else if negb (bool_decide (SqliteUtils.StrToUpper (text_of journalMode) = target)) then ret (Code E_EXECUTE_RESULT_INCORRECT)
      else journal_set config.

(** The version is written back so that there is a log. *)
Definition SetWalFile (config : Config) : op errno :=
  let! o := self in
  if negb (isWriter_ o) then ret E_OK
  else
    let! (errCode, version) := db (QueryValue Encryption.PRAGMA_VERSION) in
    if negb (is_ok errCode) then ret errCode else db (ExecuteArgs (Encryption.PRAGMA_VERSION +:+ "=?") [version]).

Definition SetAutoCheckpoint (config : Config) : op code :=
  let! o := self in
  if isReadOnly_ o || RdbStoreConfig.IsMemoryRdb config then ret (Code E_OK)
  else
    let! (errCode, value) := db (QueryValue "PRAGMA wal_autocheckpoint") in
    if negb (is_ok errCode) then ret (Code errCode)
    else if Value.to_int64 value =? WAL_AUTO_CHECKPOINT then ret (Code E_OK)
    else let! (errCode, _) := db (QueryValue ("PRAGMA wal_autocheckpoint=" +:+ pretty WAL_AUTO_CHECKPOINT)) in ret (Code errCode).

(** The observers that are registered; the codes of the two handlers are not looked at. *)
Definition RegisterHookIfNecessary : op unit :=
  let! o := self in
  if negb (isWriter_ o) then ret tt
  else
    let info := RdbStoreConfig.registerInfo_ (config_ o) in
    let! _ := when (RegisterInfo.Get RegisterInfo.STORE_OBSERVER info)
                (let! _ := db_ RegisterDbHook in db_ CreateDataChangeTempTrigger) in
    when (RegisterInfo.Get RegisterInfo.CLIENT_OBSERVER info) (db_ RegisterDbHook).

(** The loop over the libraries: the last code, or [None] when a library that could not be loaded is
    not there, which ends the function at once. *)
Fixpoint load_loop (libs : list string) : op (option Z) :=
  match libs with
  | [] => ret (Some SQLITE_OK)
  | lib :: rest =>
      if Str.empty lib then load_loop rest
      else
        let! err := db (load_extension lib) in
        if err =? SQLITE_OK then load_loop rest
        else let! found := ask (file_found lib) in ret (if found then Some err else None)
  end.

Definition LoadExtension (config : Config) : op code :=
  let custom := RdbStoreConfig.tokenizer_ config =? CUSTOM_TOKENIZER in
  let pluginLibs := RdbStoreConfig.pluginLibs_ config ++ (if custom then [CUSTOM_TOKENIZER_LIB] else []) in
  match pluginLibs with
  | [] => ret (Code E_OK)
  | _ =>
      if (MAX_LOAD_EXTENSION_COUNT + (if custom then 1 else 0) <? length pluginLibs)%nat then ret (Code E_INVALID_ARGS)
      else
        let! err := db (load_config ENABLE_LOAD_EXTENSION) in
        if negb (err =? SQLITE_OK) then ret (Code (ErrNo err))
        else
          let! err := load_loop pluginLibs in
          match err with
          | None => ret (Code E_INVALID_FILE_PATH)
          | Some err =>
              let! ret_ := db (load_config DISABLE_LOAD_EXTENSION) in
              ret (Code (ErrNo (if err =? SQLITE_OK then ret_ else err)))
          end
  end.

(** The part of [Configure] behind the key. *)
Definition configure_rest (config : Config) : op code :=
  then_ (SetJournalMode config)
    (let! _ := SetWalFile config in
     then_ (SetAutoCheckpoint config)
       (then_ (SetCustomFunctions config)
          (let! _ := RegisterHookIfNecessary in LoadExtension config))).

Definition Configure (config : Config) (dbPath : string) : op (code * Config) :=
  let! _ := when (negb (Str.empty (RdbStoreConfig.collatorLocales_ config))) (db_ (ConfigLocale (RdbStoreConfig.collatorLocales_ config))) in
  if RdbStoreConfig.role_ config =? RdbStoreConfig.VISITOR then ret (Code E_OK, config)
  else
    let! errCode :=
      then_ RegDefaultFunctions
        (let! _ := db (busy_timeout DEFAULT_BUSY_TIMEOUT_MS) in
         let! _ := LimitPermission config dbPath in
         let! _ := SetDwrEnable config in
         then_ (SetPersistWal config) (SetPageSize config)) in
    if negb (succeeded errCode) then ret (errCode, config)
    else
      let! (errCode, config) := SetEncrypt config in
      if negb (succeeded errCode) then ret (errCode, config)
      else let! errCode := configure_rest config in ret (errCode, config).

(** The check of a writer: what it finds is reported, and not returned. *)
Definition check_database (config : Config) : op unit :=
  let! o := self in
  if negb (isWriter_ o) then ret tt
  else
    match INTEGRITIES (RdbStoreConfig.checkType_ config) with
    | Some sql => let! _ := db (QueryValue sql) in ret tt
    | None => ret tt
    end.

Definition open_flags (config : Config) : Z :=
  Z.lor (Z.lor (if RdbStoreConfig.readOnly_ config then SQLITE_OPEN_READONLY else Z.lor SQLITE_OPEN_READWRITE SQLITE_OPEN_CREATE)
           SQLITE_OPEN_FULLMUTEX)
        (if RdbStoreConfig.IsMemoryRdb config then SQLITE_OPEN_URI else 0).

Definition InnerOpen (config : Config) : op (code * Config) :=
  let '(errCode, dbPath) := DbPath.GetDbPath config in
  if negb (is_ok errCode) then ret (Code errCode, config)
  else
    let! _ := SetTokenizer config in
    let! errCode := CheckDbNotExist config dbPath in
    if negb (is_ok errCode) then ret (Code errCode, config)
    else
      let! _ := modify (fun o => {o with isReadOnly_ := negb (isWriter_ o) || RdbStoreConfig.readOnly_ config }) in
      let! errCode := OpenDatabase dbPath (open_flags config) in
      if negb (is_ok errCode) then ret (Code errCode, config)
      else
        let! limit := ask variable_limit in
        let! _ := modify (fun o => {o with maxVariableNumber_ := limit }) in
        let! (errCode, config) := Configure config dbPath in
        let! _ := modify (fun o => {o with isConfigured_ := true }) in
        if negb (succeeded errCode) then ret (errCode, config)
        else let! _ := check_database config in ret (Code E_OK, config).

End Ops.
End OpenConnection.

Module ConfigureInv.
Import SQLiteError Encryption OpenConnection.

(** The pragmas that set and read nothing that is looked at below. *)
Definition known (sql : string) : bool :=
  existsb (fun p => String.prefix p sql)
    ["PRAGMA page_size"; "PRAGMA meta_double_write"; "PRAGMA synchronous"; "PRAGMA user_version"; "PRAGMA codec_";
     "PRAGMA quick_check"; "PRAGMA integrity_check"] || bool_decide (sql ∈ ["PRAGMA journal_mode"; "PRAGMA wal_autocheckpoint"]).

(** What SQLite promises of a connection: [journal] is the mode of its database in upper case, [checkpoint] the
    number of pages behind which the log is moved, [persistent] says that the log stays when the connection
    is closed, [loading] that extensions can be loaded by a statement, and [functions] are the functions that
    were registered.  [moves j c l] allows the mode, the number and the loading to change. *)
Class DatabaseLaws (D : Type) `{Codec D} `{Database D} := {
  journal : D -> string;
  checkpoint : D -> Z;
  persistent : D -> bool;
  loading : D -> bool;
  functions : D -> gset string;
  moves (j c l : bool) : relation D := fun d d' =>
    (j = false -> journal d' = journal d) /\ (c = false -> checkpoint d' = checkpoint d) /\ (l = false -> loading d' = loading d) /\
    (persistent d = true -> persistent d' = true) /\ functions d ⊆ functions d';
  rests : relation D := moves false false false;
  open_law p fl v d rc d' : sqlite3_open_v2 p fl v d = (rc, d') -> journal d' = journal d /\ rc <> SQLITE_ROW /\ (rc = SQLITE_OK -> loading d' = false);
  icu_law d : rests d (enable_icu d);
  locale_law s d : rests d (ConfigLocale s d);
  busy_law n d rc d' : busy_timeout n d = (rc, d') -> rests d d';
  chmod_law p n d : rests d (chmod p n d);
  hook_law d : rests d (RegisterDbHook d);
  trigger_law d : rests d (CreateDataChangeTempTrigger d);
  extension_law s d rc d' : load_extension s d = (rc, d') -> rests d d' /\ rc <> SQLITE_ROW;
  function_law s n d rc d' : create_function s n d = (rc, d') -> rests d d' /\ rc <> SQLITE_ROW /\ (rc = SQLITE_OK -> s ∈ functions d');
  persist_law d rc d' : persist_wal d = (rc, d') -> rests d d' /\ (rc = SQLITE_OK -> persistent d' = true);
  load_law n d rc d' : load_config n d = (rc, d') ->
    moves false false true d d' /\ rc <> SQLITE_ROW /\ loading d' = if rc =? SQLITE_OK then n =? ENABLE_LOAD_EXTENSION else loading d;
  query_law q d e v d' : QueryValue q d = ((e, v), d') -> known q = true -> rests d d';
  run_law q args d e d' : ExecuteArgs q args d = (e, d') -> known q = true -> rests d d';
  journal_law d v d' : QueryValue "PRAGMA journal_mode" d = ((E_OK, v), d') ->
    SqliteUtils.StrToUpper (text_of v) = journal d /\ text_of v <> journal d;
  set_journal_law m d e v d' : QueryValue ("PRAGMA journal_mode=" +:+ m) d = ((e, v), d') ->
    moves true false false d d' /\ (e = E_OK -> journal d' = SqliteUtils.StrToUpper (text_of v));
  checkpoint_law d v d' : QueryValue "PRAGMA wal_autocheckpoint" d = ((E_OK, v), d') -> Value.to_int64 v = checkpoint d;
  set_checkpoint_law d e v d' : QueryValue ("PRAGMA wal_autocheckpoint=" +:+ pretty WAL_AUTO_CHECKPOINT) d = ((e, v), d') ->
    moves false true false d d' /\ (e = E_OK -> checkpoint d' = WAL_AUTO_CHECKPOINT);
  codec_key_law k d rc d' : sqlite3_key k d = (rc, d') -> rests d d';
  codec_rekey_law k d rc d' : sqlite3_rekey k d = (rc, d') -> rests d d';
  codec_sql_law q d e d' : Encryption.ExecuteSql q d = (e, d') -> known q = true -> rests d d';
  codec_value_law q d e d' : Encryption.ExecuteForValue q d = (e, d') -> known q = true -> rests d d';
  password_law d ks d' : GetPassword d = (ks, d') -> rests d d'
}.

Section Laws.
Context {K D : Type} `{Huks.Huks K} `{Files.Files K} `{DatabaseLaws D}.
Abbreviation world := ((SecurityManager.t * K) * D)%type.
Abbreviation op := (run (t * world)).
Implicit Types (o : t) (d : D).

#[export] Instance moves_preorder j c l : PreOrder (moves j c l).
Proof.
  split; [intros d; unfold moves; naive_solver|]. intros d1 d2 d3 (A1 & A2 & A3 & A4 & A5) (B1 & B2 & B3 & B4 & B5).
  repeat split; [intros E; by rewrite B1, A1|intros E; by rewrite B2, A2|intros E; by rewrite B3, A3|auto|set_solver].
Qed.

Lemma moves_more j c l d d' : rests d d' -> moves j c l d d'.
Proof. unfold rests, moves. naive_solver. Qed.

(** The operation gives an answer; from the database [d] it changes what [moves] allows, and [Q] holds of the end. *)
Definition goes {A} (j c l : bool) (m : op A) (Q : A -> t -> D -> Prop) o d : Prop :=
  forall k, wp m (fun a s => moves j c l d s.2.2 /\ Q a s.1 s.2.2) (o, (k, d)).

Section Rules.
Context (j c l : bool).

Lemma goes_ret {A} (a : A) (Q : A -> t -> D -> Prop) o d : Q a o d -> goes j c l (ret a) Q o d.
Proof. intros HQ k. by apply wp_ret. Qed.

Lemma goes_bind {A B} (m : op A) (f : A -> op B) Q o d : goes j c l m (fun a => goes j c l (f a) Q) o d -> goes j c l (bind m f) Q o d.
Proof.
  intros Hm k. apply wp_bind. eapply wp_mono; [apply Hm|]. intros a [o1 [k1 d1]] [Hd Hf]. simpl in *.
  eapply wp_mono; [apply Hf|]. intros b s [Hd1 HQ]. split; [by etrans|done].
Qed.

Lemma goes_mono {A} (m : op A) (Q R : A -> t -> D -> Prop) o d :
  goes j c l m Q o d -> (forall a o' d', moves j c l d d' -> Q a o' d' -> R a o' d') -> goes j c l m R o d.
Proof. intros Hm HR k. eapply wp_mono; [apply Hm|]. intros a s [Hd HQ]. auto. Qed.

Lemma goes_self (Q : t -> t -> D -> Prop) o d : Q o o d -> goes j c l self Q o d.
Proof. intros HQ k. apply wp_get. by split. Qed.

Lemma goes_ask {A} (f : D -> A) (Q : A -> t -> D -> Prop) o d : Q (f d) o d -> goes j c l (ask f) Q o d.
Proof. intros HQ k. apply wp_get. by split. Qed.

Lemma goes_modify f (Q : unit -> t -> D -> Prop) o d : Q tt (f o) d -> goes j c l (modify f) Q o d.
Proof. intros HQ k. apply wp_modify. by split. Qed.

Lemma goes_db {A} (f : D -> A * D) (Q : A -> t -> D -> Prop) o d :
  (forall a d', f d = (a, d') -> moves j c l d d' /\ Q a o d') -> goes j c l (db f) Q o d.
Proof. intros Hf k. apply wp_sys. intros a w. cbn [snd]. destruct (f d) as [a' d'] eqn:E. intros [= <- <-]. by apply Hf. Qed.

Lemma goes_db_ f (Q : unit -> t -> D -> Prop) o d : rests d (f d) -> Q tt o (f d) -> goes j c l (db_ f) Q o d.
Proof. intros Hf HQ k. split; [by apply moves_more|done]. Qed.

Lemma goes_more {A} (m : op A) Q o d : goes false false false m Q o d -> goes j c l m (fun a o' d' => rests d d' /\ Q a o' d') o d.
Proof. intros Hm k. eapply wp_mono; [apply Hm|]. intros a s [Hd HQ]. split; [by apply moves_more|done]. Qed.

Lemma goes_then (m f : op code) Q o d :
  goes j c l m (fun r o' d' => if succeeded r then goes j c l f Q o' d' else Q r o' d') o d -> goes j c l (then_ m f) Q o d.
Proof. intros Hm. apply goes_bind. eapply goes_mono; [exact Hm|]. intros r o1 d1 _. cbv beta. destruct (succeeded r); [done|apply goes_ret]. Qed.

End Rules.
(** A call that changes nothing that is looked at. *)
Lemma goes_quiet {A} j c l (f : D -> A * D) o d : (forall d a d', f d = (a, d') -> rests d d') -> goes j c l (db f) (fun _ o' _ => o' = o) o d.
Proof. intros Hf. apply goes_db. intros a d' E. split; [|done]. apply moves_more. by eapply Hf. Qed.

Lemma query_quiet q d r d' : known q = true -> QueryValue q d = (r, d') -> rests d d'.
Proof. intros Hq. destruct r as [e v]. intros E. by eapply query_law. Qed.

Lemma run_quiet q args d e d' : known q = true -> ExecuteArgs q args d = (e, d') -> rests d d'.
Proof. intros Hq E. by eapply run_law. Qed.

Create HintDb quiet.
Hint Resolve icu_law locale_law chmod_law hook_law trigger_law : quiet.
Hint Extern 1 (known _ = true) => reflexivity : quiet.
Hint Extern 2 (rests _ _) => first [eapply query_quiet; [|eassumption] | eapply run_quiet; [|eassumption] | eapply busy_law; eassumption] : quiet.

(** Walks through an operation whose calls are all quiet. *)
Ltac quiet :=
  repeat first
    [ done
    | apply goes_ret
    | apply goes_self
    | apply goes_ask
    | apply goes_bind
    | match goal with
      | |- goes _ _ _ (db_ _) _ _ _ => apply goes_db_; [by auto with quiet|]
      | |- goes _ _ _ (db _) _ _ _ => eapply goes_mono; [apply goes_quiet; intros; by auto with quiet|intros; simpl in *; subst]
      | |- goes _ _ _ (when ?b _) _ _ _ => unfold when
      | |- goes _ _ _ (if ?b then _ else _) _ _ _ => destruct b eqn:?
      | |- goes _ _ _ (match ?b with _ => _ end) _ _ _ => destruct b eqn:?
      end
    | progress cbv beta ].

Lemma goes_tokenizer cfg o d : goes false false false (SetTokenizer cfg) (fun _ o' _ => o' = o) o d.
Proof. unfold SetTokenizer. quiet. Qed.

Lemma goes_permission cfg p o d : goes false false false (LimitPermission cfg p) (fun _ o' _ => o' = o) o d.
Proof. unfold LimitPermission. quiet. Qed.

Lemma goes_dwr cfg o d : goes false false false (SetDwrEnable cfg) (fun _ o' _ => o' = o) o d.
Proof. unfold SetDwrEnable. quiet. Qed.

Lemma goes_page cfg o d : goes false false false (SetPageSize cfg) (fun _ o' _ => o' = o) o d.
Proof. unfold SetPageSize. quiet. Qed.

Lemma goes_wal_file cfg o d : goes false false false (SetWalFile cfg) (fun _ o' _ => o' = o) o d.
Proof. unfold SetWalFile. quiet. Qed.

Lemma goes_hooks o d : goes false false false RegisterHookIfNecessary (fun _ o' _ => o' = o) o d.
Proof. unfold RegisterHookIfNecessary. quiet. Qed.

Lemma goes_sync s o d : goes false false false (SetWalSyncMode s) (fun _ o' _ => o' = o) o d.
Proof. unfold SetWalSyncMode. quiet. Qed.

Lemma goes_check cfg o d : goes false false false (check_database cfg) (fun _ o' _ => o' = o) o d.
Proof. unfold check_database. destruct (RdbStoreConfig.checkType_ cfg); simpl; quiet. Qed.

Lemma goes_register fs failed o d : (forall rc, rc <> SQLITE_OK -> rc <> SQLITE_ROW -> succeeded (failed rc) = false) ->
  goes false false false (register fs failed) (fun r o' d' => o' = o /\ (succeeded r = true -> forall f, f ∈ fs -> f.1 ∈ functions d')) o d.
Proof.
  intros Hf. revert d. induction fs as [|[name argc] fs IH]; intros d; [apply goes_ret; set_solver|]. apply goes_bind, goes_db.
  intros rc d' E. destruct (function_law _ _ _ _ _ E) as (Hm & Hrow & Hok). split; [done|]. destruct (Z.eqb_spec rc SQLITE_OK) as [Hrc|Hrc].
  - eapply goes_mono; [apply IH|]. intros r o' d2 (_ & _ & _ & _ & Hsub) [Ho Hr]. split; [done|]. intros Hs f [-> |Hin]%elem_of_cons; [simpl; set_solver|auto].
  - apply goes_ret. split; [done|]. by rewrite Hf.
Qed.

Lemma raw_failed rc : rc <> SQLITE_OK -> rc <> SQLITE_ROW -> succeeded (Code (ErrNo rc)) = false.
Proof. intros Hok Hrow. simpl. apply is_ok_false. intros He. by apply StatementProps.ErrNo_ok in He as [?|?]. Qed.

Lemma goes_persist cfg o d : goes false false false (SetPersistWal cfg)
  (fun r o' d' => o' = o /\ (succeeded r = true -> RdbStoreConfig.IsMemoryRdb cfg = false -> persistent d' = true)) o d.
Proof.
  unfold SetPersistWal. destruct (RdbStoreConfig.IsMemoryRdb cfg); [by apply goes_ret|]. apply goes_bind, goes_db. intros rc d' E.
  destruct (persist_law _ _ _ E) as [Hm Hok]. split; [done|]. apply goes_ret. split; [done|]. destruct (Z.eqb_spec rc SQLITE_OK); [auto|done].
Qed.

(** A connection that may write: not in memory, and not for reading only. *)
Definition writes cfg o : bool := negb (isReadOnly_ o) && negb (RdbStoreConfig.IsMemoryRdb cfg).

Definition set_mode cfg o : t := if bool_decide (RdbStoreConfig.journalMode_ cfg = "TRUNCATE") then {o with mode_ := MODE_TRUNCATE } else o.

Lemma goes_journal_set cfg o d : goes false false false (journal_set cfg) (fun _ o' _ => o' = set_mode cfg o) o d.
Proof.
  unfold journal_set, set_mode. apply goes_bind. eapply (goes_mono _ _ _ _ (fun _ o' _ => o' = o)).
  { case_bool_decide; [apply goes_sync|by apply goes_ret]. }
  intros e o1 d1 _ ->. apply goes_bind. unfold when. case_bool_decide; [apply goes_modify, goes_ret|apply goes_ret, goes_ret]; done.
Qed.

Lemma journal_read d v d' : QueryValue "PRAGMA journal_mode" d = ((E_OK, v), d') ->
  rests d d' /\ journal d' = SqliteUtils.StrToUpper (text_of v) /\ text_of v <> SqliteUtils.StrToUpper (text_of v).
Proof.
  intros E. pose proof (query_law _ _ _ _ _ E eq_refl) as Hm. destruct (journal_law _ _ _ E) as [Hu Hn]. split; [done|].
  destruct Hm as (Hj & _). rewrite Hj by done. by rewrite Hu.
Qed.

Lemma goes_journal cfg o d : SqliteUtils.StrToUpper (RdbStoreConfig.journalMode_ cfg) = RdbStoreConfig.journalMode_ cfg -> writes cfg o = true ->
  goes true false false (SetJournalMode cfg) (fun r o' d' => (o' = o \/ o' = set_mode cfg o) /\
    (succeeded r = true -> journal d' = RdbStoreConfig.journalMode_ cfg /\ o' = set_mode cfg o)) o d.
Proof.
  intros Hup Hw. unfold SetJournalMode. apply goes_bind, goes_self. unfold writes in Hw. apply andb_prop in Hw as [Hw1 Hw2].
  apply negb_true_iff in Hw1, Hw2. rewrite Hw1, Hw2. simpl. apply goes_bind, goes_db. intros [e v] d1 E.
  pose proof (query_law _ _ _ _ _ E eq_refl) as Hm. split; [by apply moves_more|]. destruct (is_ok e) eqn:He; simpl.
  2:{ apply goes_bind, goes_ask, goes_ret. split; [by left|]. destruct (_ && _); simpl; [done|by rewrite He]. }
  apply is_ok_true in He as ->. destruct (journal_read _ _ _ E) as (_ & Hj & Hn).
  case_bool_decide as Hcmp; [destruct Hn; by rewrite <- Hcmp|]. case_bool_decide as Hcur.
  - eapply goes_mono; [apply goes_more, goes_journal_set|]. intros r o' d2 _ [(Hj2 & _) ->]. split; [by right|]. intros _.
    by rewrite Hj2, Hj.
  - apply goes_bind, goes_db. intros [e v2] d2 E2. destruct (set_journal_law _ _ _ _ _ E2) as [Hm2 Hj2]. split; [done|].
    destruct (is_ok e) eqn:He; simpl; [|apply goes_ret; split; [by left|]; simpl; by rewrite He]. apply is_ok_true in He as ->.
    case_bool_decide as Hres; simpl; [|apply goes_ret; by split; [left|]].
    eapply goes_mono; [apply goes_more, goes_journal_set|]. intros r o' d3 _ [(Hj3 & _) ->]. split; [by right|]. intros _.
    by rewrite Hj3, (Hj2 eq_refl).
Qed.

Lemma idle_guard cfg o : writes cfg o = false -> isReadOnly_ o || RdbStoreConfig.IsMemoryRdb cfg = true.
Proof. unfold writes. by destruct (isReadOnly_ o), (RdbStoreConfig.IsMemoryRdb cfg). Qed.

Lemma goes_journal_idle cfg o d : writes cfg o = false -> goes false false false (SetJournalMode cfg) (fun r o' _ => o' = o) o d.
Proof. intros Hw. unfold SetJournalMode. apply goes_bind, goes_self. rewrite (idle_guard cfg o Hw). by apply goes_ret. Qed.

Lemma goes_checkpoint cfg o d : goes false true false (SetAutoCheckpoint cfg)
  (fun r o' d' => o' = o /\ if writes cfg o then succeeded r = true -> checkpoint d' = WAL_AUTO_CHECKPOINT else rests d d') o d.
Proof.
  unfold SetAutoCheckpoint. apply goes_bind, goes_self. destruct (writes cfg o) eqn:Hw; [|rewrite (idle_guard cfg o Hw); by apply goes_ret].
  unfold writes in Hw. apply andb_prop in Hw as [Hw1 Hw2]. apply negb_true_iff in Hw1, Hw2. rewrite Hw1, Hw2. simpl.
  apply goes_bind, goes_db. intros [e v] d1 E. pose proof (query_law _ _ _ _ _ E eq_refl) as Hm. split; [by apply moves_more|].
  destruct (is_ok e) eqn:He; simpl; [|apply goes_ret; split; [done|]; simpl; by rewrite He]. apply is_ok_true in He as ->.
  destruct (Z.eqb_spec (Value.to_int64 v) WAL_AUTO_CHECKPOINT) as [Hv|Hv].
  - apply goes_ret. split; [done|]. intros _. destruct Hm as (_ & Hc & _). by rewrite Hc, <- (checkpoint_law _ _ _ E).
  - apply goes_bind, goes_db. intros [e v2] d2 E2. destruct (set_checkpoint_law _ _ _ _ E2) as [Hm2 Hok]. split; [done|].
    apply goes_ret. split; [done|]. simpl. intros He%is_ok_true. by apply Hok.
Qed.

Lemma goes_load_loop libs o d : goes false false true (load_loop libs) (fun r o' d' => o' = o /\ rests d d' /\ r <> Some SQLITE_ROW) o d.
Proof.
  revert d. induction libs as [|lib libs IH]; intros d; [by apply goes_ret|]. simpl. destruct (Str.empty lib); [apply IH|].
  apply goes_bind, goes_db. intros rc d1 E. destruct (extension_law _ _ _ _ E) as [Hm Hrow]. split; [by apply moves_more|].
  destruct (Z.eqb_spec rc SQLITE_OK) as [Hrc|Hrc].
  - eapply goes_mono; [apply IH|]. intros r o' d2 _ (Ho & Hm2 & Hr). split; [done|]. split; [unfold rests in *; by etrans|done].
  - apply goes_bind, goes_ask, goes_ret. split; [done|]. split; [done|]. destruct (file_found lib d1); [by intros [= ?]|done].
Qed.

Lemma goes_load cfg o d : goes false false true (LoadExtension cfg)
  (fun r o' d' => o' = o /\ (succeeded r = true -> loading d = false -> loading d' = false)) o d.
Proof.
  unfold LoadExtension. destruct (_ ++ _) as [|lib libs]; [by apply goes_ret|]. destruct (_ <? _)%nat; [by apply goes_ret|].
  apply goes_bind, goes_db. intros rc d1 E. destruct (load_law _ _ _ _ E) as (Hm & Hrow & _). split; [done|].
  destruct (Z.eqb_spec rc SQLITE_OK) as [Hrc|Hrc]; cbn [negb]; [|apply goes_ret; split; [done|]; by rewrite raw_failed].
  apply goes_bind. eapply goes_mono; [apply goes_load_loop|]. intros [err|] o1 d2 _ (-> & Hm2 & Hr); [|by apply goes_ret].
  apply goes_bind, goes_db. intros rc3 d3 E3. destruct (load_law _ _ _ _ E3) as (Hm3 & Hrow3 & Hl). split; [done|]. apply goes_ret.
  split; [done|]. simpl. intros Hs%is_ok_true%StatementProps.ErrNo_ok _. rewrite Hl. destruct (Z.eqb_spec err SQLITE_OK) as [->|Herr].
  - destruct Hs as [-> | ->]; done.
  - destruct Hs as [?|?]; congruence.
Qed.

(** *** The key *)

(** The answers of an operation on the key files and the database. *)
Definition rests_with {A} (P : A -> Prop) (m : run world A) : Prop := forall s a s', m s = Some (a, s') -> rests s.2 s'.2 /\ P a.

Lemma rests_ret {A} (P : A -> Prop) a : P a -> rests_with P (ret a).
Proof. intros HP s b s' [= <- <-]. split; [unfold rests; reflexivity|done]. Qed.

Lemma rests_bind {A B} (P : A -> Prop) (Q : B -> Prop) m (f : A -> run world B) :
  rests_with P m -> (forall a, P a -> rests_with Q (f a)) -> rests_with Q (bind m f).
Proof.
  intros Hm Hf s b s' E. unfold bind in E. destruct (m s) as [[a s1]|] eqn:E1; [|done]. destruct (Hm _ _ _ E1) as [Hr Ha].
  destruct (Hf a Ha _ _ _ E) as [Hr2 Hb]. split; [|done]. unfold rests in *. by etrans.
Qed.

Lemma rests_keys {A} (P : A -> Prop) (m : run (SecurityManager.t * K) A) : (forall k a k', m k = Some (a, k') -> P a) -> rests_with P (on_keys m).
Proof.
  intros HP s a s' E. unfold on_keys in E. destruct (m s.1) as [[b k]|] eqn:E1; [|done]. injection E as <- <-. split; [unfold rests; reflexivity|by eapply HP].
Qed.

Lemma rests_db {A} (f : D -> A * D) : (forall d a d', f d = (a, d') -> rests d d') -> rests_with (fun _ => True) (on_db f).
Proof. intros Hf s a s' E. unfold on_db in E. destruct (f s.2) as [b d] eqn:E1. injection E as <- <-. split; [by eapply Hf|done]. Qed.

(** A configuration with other keys. *)
Definition rekeyed (cfg cfg' : RdbStoreConfig.t) : Prop :=
  cfg' = {cfg with RdbStoreConfig.cryptoParam_ := RdbStoreConfig.cryptoParam_ cfg'; RdbStoreConfig.newEncryptKey_ := RdbStoreConfig.newEncryptKey_ cfg' }.

Lemma rekeyed_refl cfg : rekeyed cfg cfg.
Proof. by destruct cfg. Qed.

Lemma restore_rekeyed key cfg (k : SecurityManager.t * K) cfg' k' : RdbStoreConfig.RestoreEncryptKey key cfg k = Some (cfg', k') -> rekeyed cfg cfg'.
Proof. unfold RdbStoreConfig.RestoreEncryptKey, bind, ret. destruct (SecurityManager.RestoreKeyFile _ _ _) as [[? ?]|]; [|done]. intros [= <- _]. by destruct cfg. Qed.

Lemma change_rekeyed cfg (k : SecurityManager.t * K) cfg' k' : RdbStoreConfig.ChangeEncryptKey cfg k = Some (cfg', k') -> rekeyed cfg cfg'.
Proof.
  unfold RdbStoreConfig.ChangeEncryptKey, bind, ret. destruct (SecurityManager.ChangeKeyFile _ _) as [[? ?]|]; [|done].
  intros [= <- _]. destruct (RdbStoreConfig.newEncryptKey_ cfg) eqn:E; [apply rekeyed_refl|by destruct cfg].
Qed.

Lemma rests_execute sqls : Forall (fun q => known q = true) sqls -> rests_with (fun _ => True) (execute_all sqls).
Proof.
  induction 1 as [|q sqls Hq _ IH]; [by apply rests_ret|]. eapply rests_bind; [apply rests_db; intros d e d' E; by eapply codec_sql_law|].
  intros e _. destruct (is_ok e); [done|by apply rests_ret].
Qed.

Lemma rests_algo p : rests_with (fun _ => True) (SetEncryptAgo p).
Proof.
  unfold SetEncryptAgo. destruct (CryptoParam.IsValid p); [|by apply rests_ret]. apply rests_execute, Forall_app.
  split; [destruct (_ =? _)|]; by repeat constructor.
Qed.

Lemma rests_key b key cfg : rests_with (fun _ => True) (SetEncryptKey b key cfg).
Proof.
  unfold SetEncryptKey. destruct key as [|k0 key]; [by apply rests_ret|]. eapply rests_bind; [apply rests_db, codec_key_law|]. intros rc _.
  destruct (rc =? SQLITE_OK); [|by apply rests_ret]. eapply rests_bind; [apply rests_algo|]. intros e _. destruct (is_ok e); [|by apply rests_ret].
  destruct (_ || _); [|by apply rests_ret]. apply rests_db. intros d e' d' E. by eapply codec_value_law.
Qed.

Abbreviation answer cfg := (fun r : errno * RdbStoreConfig.t => rekeyed cfg r.2).

Lemma rests_service b keys cfg last : rests_with (answer cfg) (service_loop b keys cfg last).
Proof.
  revert last. induction keys as [|key keys IH]; intros last; [apply rests_ret, rekeyed_refl|]. eapply rests_bind; [apply rests_key|]. intros e _.
  destruct (is_ok e); [|apply IH]. eapply rests_bind; [apply (rests_keys (rekeyed cfg)), restore_rekeyed|]. intros cfg' Hc. by apply rests_ret.
Qed.

Lemma rests_encrypt b cfg : rests_with (answer cfg) (Encryption.SetEncrypt b cfg).
Proof.
  unfold Encryption.SetEncrypt. destruct (RdbStoreConfig.IsEncrypt cfg); [|apply rests_ret, rekeyed_refl].
  destruct (RdbStoreConfig.IsMemoryRdb cfg); [apply rests_ret, rekeyed_refl|]. eapply rests_bind; [apply rests_key|]. intros e _.
  destruct (is_ok e); cbn [negb].
  - destruct (RdbStoreConfig.newEncryptKey_ cfg); [apply rests_ret, rekeyed_refl|]. eapply (rests_bind (rekeyed cfg)); [|intros c' Hc; by apply rests_ret].
    unfold ResetKey. destruct b; [|apply rests_ret, rekeyed_refl]. eapply rests_bind; [apply rests_db, codec_rekey_law|]. intros rc _.
    destruct (rc =? SQLITE_OK); [apply rests_keys, change_rekeyed|].
    eapply (rests_bind (fun _ => True)); [by apply rests_keys|]. intros _ _. apply rests_ret, rekeyed_refl.
  - eapply (rests_bind (fun _ => True)); [destruct (RdbStoreConfig.newEncryptKey_ cfg); [by apply rests_ret|apply rests_key]|]. intros e2 _.
    destruct (is_ok e2); cbn [negb].
    + eapply (rests_bind (rekeyed cfg)); [apply rests_keys, change_rekeyed|]. intros c' Hc. by apply rests_ret.
    + unfold SetServiceKey. eapply rests_bind; [apply rests_db, password_law|]. intros [keys|] _; [apply rests_service|apply rests_ret, rekeyed_refl].
Qed.

(** The key files answer. *)
Definition keys_answer b cfg : Prop := forall s : world, is_Some (Encryption.SetEncrypt b cfg s).

(** A database that is not encrypted asks nothing of the keys. *)
Lemma encrypted_answers b cfg : (RdbStoreConfig.IsEncrypt cfg = true -> keys_answer b cfg) -> keys_answer b cfg.
Proof. intros Hk. destruct (RdbStoreConfig.IsEncrypt cfg) eqn:Hc; [auto|]. intros s. unfold Encryption.SetEncrypt. rewrite Hc. by eexists. Qed.

Lemma goes_encrypt cfg o d : keys_answer (isWriter_ o) cfg -> goes false false false (SetEncrypt cfg) (fun r o' _ => o' = o /\ rekeyed cfg r.2) o d.
Proof.
  intros Hk k. unfold wp, SetEncrypt. simpl. destruct (Hk (k, d)) as [[[e cfg'] w'] E]. rewrite E.
  destruct (rests_encrypt _ _ _ _ _ E) as [Hr Hc]. split; [exact Hr|]. by split.
Qed.

(** *** [Configure] *)

Definition names_of cfg : list string := FUNCTIONS.*1 ++ (RdbStoreConfig.customScalarFunctions_ cfg).*1.

Lemma goes_custom cfg o d : goes false false false (SetCustomFunctions cfg)
  (fun r o' d' => o' = {o with customScalarFunctions_ := RdbStoreConfig.customScalarFunctions_ cfg } /\
     (succeeded r = true -> forall n, n ∈ (RdbStoreConfig.customScalarFunctions_ cfg).*1 -> n ∈ functions d')) o d.
Proof.
  unfold SetCustomFunctions. apply goes_bind, goes_modify. eapply goes_mono; [by apply goes_register|]. intros r o' d' _ [-> Hr].
  split; [done|]. intros Hs n ([n' info] & -> & Hin)%list_elem_of_fmap. apply (Hr Hs (n', RdbStoreConfig.argc_ info)).
  apply list_elem_of_fmap. by exists (n', info).
Qed.

(** An operation inside of one that may change everything. *)
Lemma goes_stage {A} j c l (m : op A) Q o d :
  goes j c l m Q o d -> goes true true true m (fun a o' d' => moves j c l d d' /\ Q a o' d') o d.
Proof. intros Hm k. eapply wp_mono; [apply Hm|]. intros a s [Hd HQ]. split; [|done]. destruct Hd as (_ & _ & _ & Hp & Hf). done. Qed.

Definition kin o o' : Prop := isWriter_ o' = isWriter_ o /\ isReadOnly_ o' = isReadOnly_ o.

Lemma kin_mode cfg o : kin o (set_mode cfg o).
Proof. unfold set_mode. by case_bool_decide. Qed.

Definition upper cfg : Prop := SqliteUtils.StrToUpper (RdbStoreConfig.journalMode_ cfg) = RdbStoreConfig.journalMode_ cfg.

Lemma goes_journal_any cfg o d : upper cfg -> goes true false false (SetJournalMode cfg)
  (fun r o' d' => kin o o' /\ (succeeded r = true ->
     if writes cfg o then journal d' = RdbStoreConfig.journalMode_ cfg /\ mode_ o' = mode_ (set_mode cfg o) else journal d' = journal d)) o d.
Proof.
  intros Hup. destruct (writes cfg o) eqn:Hw.
  - eapply goes_mono; [by apply goes_journal|]. intros r o' d' _ [Ho Hs].
    split; [destruct Ho as [-> | ->]; [done|apply kin_mode]|]. intros Hr. by destruct (Hs Hr) as [? ->].
  - eapply goes_mono; [by apply goes_more, goes_journal_idle|]. intros r o' d' _ [(Hj & _) ->]. split; [done|]. intros _. by apply Hj.
Qed.

(** What a connection has behind [configure_rest]. *)
Record settled cfg o d o' d' : Prop := {
  st_journal : if writes cfg o then journal d' = RdbStoreConfig.journalMode_ cfg /\ mode_ o' = mode_ (set_mode cfg o) else journal d' = journal d;
  st_checkpoint : writes cfg o = true -> checkpoint d' = WAL_AUTO_CHECKPOINT;
  st_custom n : n ∈ (RdbStoreConfig.customScalarFunctions_ cfg).*1 -> n ∈ functions d';
  st_loading : loading d = false -> loading d' = false
}.

Lemma goes_rest cfg o d : upper cfg ->
  goes true true true (configure_rest cfg) (fun r o' d' => kin o o' /\ (succeeded r = true -> settled cfg o d o' d')) o d.
Proof.
  intros Hup. unfold configure_rest. apply goes_then. eapply goes_mono; [by apply goes_stage, goes_journal_any|].
  intros r1 o1 d1 _ ((_ & _ & Hl1 & _) & Hk1 & Hj). destruct (succeeded r1) eqn:Hr1; [|by split]. specialize (Hj eq_refl).
  apply goes_bind. eapply goes_mono; [apply goes_stage, goes_wal_file|]. intros e2 o2 d2 _ ((Hj2 & _ & Hl2 & _) & ->).
  apply goes_then. eapply goes_mono; [apply goes_stage, goes_checkpoint|]. intros r3 o3 d3 _ ((Hj3 & _ & Hl3 & _) & -> & Hc).
  destruct (succeeded r3) eqn:Hr3; [|by split].
  apply goes_then. eapply goes_mono; [apply goes_stage, goes_custom|]. intros r4 o4 d4 _ ((Hj4 & Hc4 & Hl4 & _) & -> & Hf).
  destruct (succeeded r4) eqn:Hr4; [|by split]. specialize (Hf eq_refl).
  apply goes_bind. eapply goes_mono; [apply goes_stage, goes_hooks|]. intros [] o5 d5 _ ((Hj5 & Hc5 & Hl5 & _ & Hf5) & ->).
  eapply goes_mono; [apply goes_stage, goes_load|]. intros r6 o6 d6 _ ((Hj6 & Hc6 & _ & _ & Hf6) & -> & Hload).
  split; [done|]. intros Hr6. assert (journal d6 = journal d1) as Hj61 by (by rewrite Hj6, Hj5, Hj4, Hj3, Hj2). split.
  - rewrite Hj61. by destruct (writes cfg o).
  - intros Hw. rewrite Hc6, Hc5, Hc4 by done. unfold writes in *. destruct Hk1 as [_ Hk1]. rewrite Hk1, Hw in Hc. by apply Hc.
  - intros n Hn. apply Hf6, Hf5, Hf, Hn.
  - intros Hd. apply Hload; [done|]. by rewrite Hl5, Hl4, Hl3, Hl2, Hl1.
Qed.

Record configured cfg o d o' d' : Prop := {
  cf_settled : settled cfg o d o' d';
  cf_functions n : n ∈ FUNCTIONS.*1 -> n ∈ functions d';
  cf_persistent : RdbStoreConfig.IsMemoryRdb cfg = false -> persistent d' = true
}.

Lemma settled_rekeyed cfg cfg' o d o' d' : rekeyed cfg cfg' -> settled cfg' o d o' d' -> settled cfg o d o' d'.
Proof. intros Hr. unfold rekeyed in Hr. rewrite Hr. intros [Hj Hc Hf Hl]. by split. Qed.

Lemma settled_rests cfg o d d1 o' d' : rests d d1 -> settled cfg o d1 o' d' -> settled cfg o d o' d'.
Proof.
  intros (Hj & _ & Hl & _) [Sj Sc Sf Sl]. split; [destruct (writes cfg o); [done|by rewrite Sj, Hj]|done|done|].
  intros Hd. apply Sl. by rewrite Hl.
Qed.

Lemma goes_first cfg p o d : goes false false false
  (then_ RegDefaultFunctions
     (let! _ := db (busy_timeout DEFAULT_BUSY_TIMEOUT_MS) in
      let! _ := LimitPermission cfg p in
      let! _ := SetDwrEnable cfg in
      then_ (SetPersistWal cfg) (SetPageSize cfg)))
  (fun r o' d' => o' = o /\ (succeeded r = true -> (forall n, n ∈ FUNCTIONS.*1 -> n ∈ functions d') /\
     (RdbStoreConfig.IsMemoryRdb cfg = false -> persistent d' = true))) o d.
Proof.
  apply goes_then. eapply goes_mono; [apply goes_register, raw_failed|]. intros r1 o1 d1 _ [-> Hf]. destruct (succeeded r1) eqn:Hr1; [|done].
  specialize (Hf eq_refl). apply goes_bind. eapply goes_mono; [apply goes_quiet, busy_law|]. intros rc o2 d2 (_ & _ & _ & _ & F2) ->.
  apply goes_bind. eapply goes_mono; [apply goes_permission|]. intros [] o3 d3 (_ & _ & _ & _ & F3) ->.
  apply goes_bind. eapply goes_mono; [apply goes_dwr|]. intros [] o4 d4 (_ & _ & _ & _ & F4) ->.
  apply goes_then. eapply goes_mono; [apply goes_persist|]. intros r5 o5 d5 (_ & _ & _ & _ & F5) [-> Hp]. destruct (succeeded r5); [|done].
  eapply goes_mono; [apply goes_page|]. intros r6 o6 d6 (_ & _ & _ & P6 & F6) ->. split; [done|]. intros _. split; [|auto].
  intros n ([n' c] & -> & Hin)%list_elem_of_fmap. apply F6, F5, F4, F3, F2, (Hf (n', c) Hin).
Qed.

(** A visitor's connection is left as the opening made it. *)
Definition visits cfg : bool := RdbStoreConfig.role_ cfg =? RdbStoreConfig.VISITOR.

Definition prepared cfg o d o' d' : Prop := if visits cfg then o' = o /\ rests d d' else configured cfg o d o' d'.

Lemma goes_configure cfg p o d : upper cfg -> keys_answer (isWriter_ o) cfg ->
  goes true true true (Configure cfg p) (fun r o' d' => kin o o' /\ rekeyed cfg r.2 /\ (succeeded r.1 = true -> prepared cfg o d o' d')) o d.
Proof.
  intros Hup Hkey. unfold Configure. apply goes_bind. eapply (goes_mono _ _ _ _ (fun _ o' d' => rests d d' /\ o' = o)).
  { apply goes_more. unfold when. destruct (Str.empty _); simpl; quiet. }
  intros [] o1 d1 _ [R1 ->]. unfold prepared, visits. destruct (_ =? RdbStoreConfig.VISITOR).
  { apply goes_ret. split; [done|]. split; [apply rekeyed_refl|done]. }
  apply goes_bind. eapply goes_mono; [apply goes_more, goes_first|].
  intros r2 o2 d2 _ (R2 & -> & Hfirst). destruct (succeeded r2) eqn:Hr2; cbn [negb]; [|apply goes_ret; simpl; rewrite Hr2; split; [done|]; split; [apply rekeyed_refl|done]].
  destruct (Hfirst eq_refl) as [F2 P2]. apply goes_bind. eapply goes_mono; [by apply goes_more, goes_encrypt|].
  intros [r3 cfg'] o3 d3 _ (R3 & -> & Hc). simpl in Hc. destruct (succeeded r3) eqn:Hr3; cbn [negb]; [|apply goes_ret; simpl; by rewrite Hr3].
  apply goes_bind. eapply goes_mono; [apply goes_rest; unfold upper; by rewrite Hc|]. intros r4 o4 d4 (_ & _ & _ & P4 & F4) [Hk4 Hs]. apply goes_ret.
  split; [done|]. split; [done|]. intros Hr4. pose proof R3 as (_ & _ & _ & P3 & F3). split.
  - apply (settled_rests cfg o d d1); [done|]. apply (settled_rests cfg o d1 d2); [done|]. apply (settled_rests cfg o d2 d3); [done|].
    by apply (settled_rekeyed cfg cfg'); [|apply Hs].
  - intros n Hn. apply F4, F3, F2, Hn.
  - auto.
Qed.

Lemma opens_database p fl o d (k : SecurityManager.t * K) : wp (OpenDatabase p fl)
  (fun e s => s.1 = o /\ journal s.2.2 = journal d /\ (e = E_OK -> loading s.2.2 = false)) (o, (k, d)).
Proof.
  unfold OpenDatabase. apply wp_bind, wp_get. cbv beta. apply wp_bind, wp_sys. intros rc w. cbn [snd].
  destruct (sqlite3_open_v2 _ _ _ d) as [rc1 d1] eqn:E. intros [= <- <-]. destruct (open_law _ _ _ _ _ _ E) as (Hj & Hrow & Hl).
  destruct (Z.eqb_spec rc1 SQLITE_OK) as [Hok|Hok]; [apply wp_ret; simpl; auto|]. apply wp_bind, wp_get. cbn [fst].
  destruct (_ && _ && _); [by apply wp_ret|]. apply wp_bind, wp_get, wp_ret. simpl. split; [done|]. split; [done|].
  destruct (negb _); [done|]. intros [?|?]%StatementProps.ErrNo_ok; congruence.
Qed.

(** What a connection is that was opened. *)
Definition ready cfg o d o' d' : Prop :=
  isConfigured_ o' = true /\ isReadOnly_ o' = negb (isWriter_ o) || RdbStoreConfig.readOnly_ cfg /\ loading d' = false /\
  if visits cfg then journal d' = journal d /\ mode_ o' = mode_ o
  else
    (forall n, n ∈ names_of cfg -> n ∈ functions d') /\ (RdbStoreConfig.IsMemoryRdb cfg = false -> persistent d' = true) /\
    if writes cfg o' then journal d' = RdbStoreConfig.journalMode_ cfg /\ checkpoint d' = WAL_AUTO_CHECKPOINT /\ mode_ o' = mode_ (set_mode cfg o)
    else journal d' = journal d.

Lemma prepared_ready cfg o o0 d0 d o1 d1 o' d' : prepared cfg o d o1 d1 -> kin o o1 -> rests d1 d' -> mode_ o = mode_ o0 ->
  isReadOnly_ o = negb (isWriter_ o0) || RdbStoreConfig.readOnly_ cfg -> journal d = journal d0 -> loading d = false ->
  o' = {o1 with isConfigured_ := true } -> ready cfg o0 d0 o' d'.
Proof.
  unfold prepared, ready. destruct (visits cfg).
  { intros [-> (Hj1 & _ & Hl1 & _)] _ (Hj & _ & Hl & _) Hm Hr Hj0 Hl0 ->. destruct o. simpl in *.
    repeat split; [done|by rewrite Hl, Hl1|by rewrite Hj, Hj1|done]. }
  intros [[Sj Sc Sf Sl] Cf Cp] [_ Hk] (Hj & Hc & Hl & Hp & Hf) Hm Hr Hj0 Hl0 ->. rewrite Hr in Hk. unfold writes in *. destruct o1. simpl in *. rewrite Hk. rewrite Hr in Sj, Sc.
  split; [done|]. split; [done|]. split; [rewrite Hl by done; auto|]. split; [|split; [auto|]].
  - intros n [Hn|Hn]%elem_of_app; apply Hf; [by apply Cf|by apply Sf].
  - destruct (negb _ && negb _); [|by rewrite Hj, Sj].
    destruct Sj as [Sj Sm]. rewrite Hj, Hc by done. split; [done|]. split; [by apply Sc|]. rewrite Sm. unfold set_mode. by case_bool_decide.
Qed.

Lemma inner_open_ready cfg o (k : SecurityManager.t * K) d :
  upper cfg -> keys_answer (isWriter_ o) cfg ->
  wp (InnerOpen cfg) (fun r s => rekeyed cfg r.2 /\ (succeeded r.1 = true -> ready cfg o d s.1 s.2.2)) (o, (k, d)).
Proof.
  intros Hup Hkey. pose proof (rekeyed_refl cfg) as Hrefl. unfold InnerOpen. destruct (DbPath.GetDbPath cfg) as [e p].
  destruct (is_ok e) eqn:He; cbn [negb]; [|apply wp_ret; simpl; by rewrite He].
  apply wp_bind. eapply wp_mono; [apply goes_tokenizer|]. intros e1 [o1 [k1 d1]] [(Hj1 & _) Ho1]. cbn [fst snd] in *. subst o1.
  apply wp_bind. unfold CheckDbNotExist. apply wp_bind, wp_get. cbv beta. apply wp_ret.
  match goal with |- context [is_ok ?x] => set (e2 := x) end. destruct (is_ok e2) eqn:He2; cbn [negb]; [|apply wp_ret; simpl; by rewrite He2].
  apply wp_bind, wp_modify. cbn [fst snd]. set (o2 := {o with isReadOnly_ := _ }). apply wp_bind. eapply wp_mono; [apply opens_database|].
  intros e3 [o3 [k3 d3]] (Ho3 & Hj3 & Hl3). cbn [fst snd] in *. subst o3. destruct (is_ok e3) eqn:He3; cbn [negb]; [|apply wp_ret; simpl; by rewrite He3].
  apply is_ok_true in He3. specialize (Hl3 He3). apply wp_bind, wp_get. cbv beta. apply wp_bind, wp_modify. cbn [fst snd].
  apply wp_bind. eapply wp_mono; [by apply (goes_configure cfg p)|]. intros [r4 cfg'] [o4 [k4 d4]] (_ & Hk4 & Hc & Hs). cbn [fst snd] in *.
  apply wp_bind, wp_modify. cbn [fst snd]. destruct (succeeded r4) eqn:Hr4; cbn [negb]; [|apply wp_ret; simpl; by rewrite Hr4].
  apply wp_bind. eapply wp_mono; [apply goes_check|]. intros [] [o5 [k5 d5]] [Hm5 Ho5]. apply wp_ret. cbn [fst snd] in *. subst o5. split; [done|]. intros _.
  eapply prepared_ready; [by apply Hs|done|exact Hm5|done|done|by rewrite Hj3, Hj1|done|done].
Qed.

End Laws.
End ConfigureInv.

(** ** A small database *)

Module SmallDatabase.
Import SQLiteError Encryption OpenConnection ConfigureInv.

Inductive jmode := JDelete | JWal | JTruncate.
Definition lower_name (m : jmode) : string := match m with JDelete => "delete" | JWal => "wal" | JTruncate => "truncate" end.
Definition upper_name (m : jmode) : string := match m with JDelete => "DELETE" | JWal => "WAL" | JTruncate => "TRUNCATE" end.

(** The mode, the checkpoint, whether the log stays and extensions can be loaded, the functions, what a check answers,
    a function that cannot be registered, and the libraries that are there. *)
Record small := { s_mode : jmode; s_pages : Z; s_stays : bool; s_load : bool; s_functions : gset string; s_health : string;
  s_refused : string; s_libs : list string }.

Definition set_value (q : string) (d : small) : ValueObject * small :=
  if bool_decide (q = "PRAGMA journal_mode=WAL") then (VString "wal", {d with s_mode := JWal })
  else if bool_decide (q = "PRAGMA journal_mode=TRUNCATE") then (VString "truncate", {d with s_mode := JTruncate })
  else if bool_decide (q = "PRAGMA wal_autocheckpoint") then (VInt (s_pages d), d)
  else if bool_decide (q = "PRAGMA wal_autocheckpoint=100") then (VInt 100, {d with s_pages := 100 })
  else if bool_decide (q = "PRAGMA integrity_check") then (VString (s_health d), d)
  else (VString (lower_name (s_mode d)), d).

#[export] Instance small_codec : Codec small := {|
  sqlite3_key _ d := (SQLITE_OK, d); sqlite3_rekey _ d := (SQLITE_OK, d); sqlite3_rekey_v3 _ _ d := (SQLITE_OK, d);
  Encryption.ExecuteSql _ d := (E_OK, d); Encryption.ExecuteForValue _ d := (E_OK, d); GetPassword d := (None, d) |}.

#[export] Instance small_database : Database small := {|
  file_found p d := bool_decide (p ∈ s_libs d); dir_writable _ _ := true;
  sqlite3_open_v2 _ _ _ d := (SQLITE_OK, {d with s_load := false });
  not_compressed _ := false; variable_limit _ := 500; ConfigLocale _ d := d;
  create_function n _ d := if bool_decide (n = s_refused d) then (SQLITE_BUSY, d) else (SQLITE_OK, {d with s_functions ::= union {[n]} });
  busy_timeout _ d := (SQLITE_OK, d); st_mode _ _ := None; chmod _ _ d := d; persist_wal d := (SQLITE_OK, {d with s_stays := true });
  QueryValue q d := let '(v, d') := set_value q d in ((E_OK, v), d'); ExecuteArgs _ _ d := (E_OK, d); disk_full _ := false;
  RegisterDbHook d := d; CreateDataChangeTempTrigger d := d; load_config n d := (SQLITE_OK, {d with s_load := n =? 1 });
  load_extension p d := (if bool_decide (p ∈ s_libs d) then SQLITE_OK else 1, d); enable_icu d := d; double_text _ := EmptyString |}.

Lemma set_value_rests q d v d' : set_value q d = (v, d') -> known q = true ->
  d' = d.
Proof. unfold set_value. repeat (case_bool_decide; [subst q; by intros [= <- <-]|]). by intros [= <- <-]. Qed.

#[export, refine] Instance small_laws : DatabaseLaws small := {|
  journal d := upper_name (s_mode d); checkpoint := s_pages; persistent := s_stays; loading := s_load; functions := s_functions |}.
Proof.
  all: cbv beta.
  - intros p fl v d rc d' [= <- <-]. done.
  - done.
  - done.
  - intros n d rc d' [= <- <-]. done.
  - done.
  - done.
  - done.
  - intros s d rc d' [= <- <-]. split; [done|]. by case_bool_decide.
  - intros s n d rc d' E. simpl in E. case_bool_decide; injection E as <- <-; [done|]. split; [|split; [done|]; simpl; set_solver].
    repeat split; try done. simpl. set_solver.
  - intros d rc d' [= <- <-]. done.
  - intros n d rc d' [= <- <-]. done.
  - intros q d e v d' E Hq. unfold QueryValue, small_database in E. destruct (set_value q d) as [v1 d1] eqn:E1. injection E as <- <- <-. by rewrite (set_value_rests _ _ _ _ E1 Hq).
  - intros q args d e d' [= <- <-]. done.
  - intros d v d' [= <- <-]. by destruct (s_mode d).
  - intros m d e v d' E. unfold QueryValue, small_database in E. destruct (set_value _ d) as [v1 d1] eqn:E1. injection E as <- <- <-. unfold set_value in E1.
    repeat (case_bool_decide as Hq; [first [discriminate Hq|by injection E1 as <- <-]|clear Hq]). injection E1 as <- <-. split; [done|].
    intros _. by destruct (s_mode d).
  - intros d v d' [= <- <-]. done.
  - intros d e v d' [= <- <- <-]. done.
  - intros k d rc d' [= <- <-]. done.
  - intros k d rc d' [= <- <-]. done.
  - intros q d e d' [= <- <-]. done.
  - intros q d e d' [= <- <-]. done.
  - intros d ks d' [= <- <-]. done.
Defined.

End SmallDatabase.

(** ** What an open connection is *)

Module ConfigureProps.
Import SQLiteError Encryption OpenConnection ConfigureInv SmallKeys SmallDatabase.

(** C24: The opening of a connection gives an answer, if the journal mode of the configuration is written in
    capitals and, for an encrypted database, if [SetEncrypt] gives one (a key file that is too short makes it read
    past the end; an unencrypted database asks nothing).  If the opening succeeds, the connection is configured, it is
    read only exactly if it is not the writer or the configuration says so, and no statement can load extensions.  On a
    connection of any role but [VISITOR] the functions of the library and of the caller are registered, the log of a database that is
    not in memory stays when the connection is closed, and a connection that may write has the configured journal mode
    and the checkpoint of the library, and knows whether the mode is TRUNCATE; any other connection has left the mode of
    the database as it is.  None of that is done on a connection of the role [VISITOR], which leaves the mode of the
    database, and its own idea of it, as they are. *)
Theorem connection_configured {K D : Type} `{Huks.Huks K} `{Files.Files K} `{DatabaseLaws D} (cfg : RdbStoreConfig.t) (o : t)
  (k : SecurityManager.t * K) (d : D)
  (Hup : upper cfg) (Hkey : RdbStoreConfig.IsEncrypt cfg = true -> keys_answer (K := K) (D := D) (isWriter_ o) cfg) :
  exists r cfg' o' k' d', InnerOpen cfg (o, (k, d)) = Some ((r, cfg'), (o', (k', d'))) /\ rekeyed cfg cfg' /\
  (succeeded r = true ->
     isConfigured_ o' = true /\ isReadOnly_ o' = negb (isWriter_ o) || RdbStoreConfig.readOnly_ cfg /\ loading d' = false /\
     if RdbStoreConfig.role_ cfg =? RdbStoreConfig.VISITOR then journal d' = journal d /\ mode_ o' = mode_ o
     else
       (forall n, n ∈ names_of cfg -> n ∈ functions d') /\ (RdbStoreConfig.IsMemoryRdb cfg = false -> persistent d' = true) /\
       if writes cfg o' then journal d' = RdbStoreConfig.journalMode_ cfg /\ checkpoint d' = WAL_AUTO_CHECKPOINT /\
         mode_ o' = mode_ (set_mode cfg o)
       else journal d' = journal d).
Proof.
  destruct (wp_run _ _ _ (inner_open_ready cfg o k d Hup (encrypted_answers _ _ Hkey))) as ([r cfg'] & [o' [k' d']] & E & Hc & Hr).
  by exists r, cfg', o', k', d'.
Qed.

(** *** On the small database *)

Definition no_keys : SecurityManager.t * SmallKeys.world := (SecurityManager.new, {| SmallKeys.disk := ∅; SmallKeys.current := None |}).
Definition fresh_db : small :=
  {| s_mode := JDelete; s_pages := 1000; s_stays := false; s_load := true; s_functions := ∅; s_health := "ok"; s_refused := "f"; s_libs := ["/d/a.db"; "lib"] |}.
Definition plain : RdbStoreConfig.t := RdbStoreConfig.of_path "/d/a.db".

(** What opening a writer gives: the code, the mode that the connection knows, and the database. *)
Definition open_writer (cfg : RdbStoreConfig.t) (d : small) : option (code * Z * small) :=
  match InnerOpen cfg (new cfg true false, (no_keys, d)) with
  | Some ((r, _), (o, (_, d'))) => Some (r, mode_ o, d')
  | None => None
  end.

Lemma connection_configured_witness : exists r cfg' o' k' d',
  InnerOpen plain (new plain true false, (no_keys, fresh_db)) = Some ((r, cfg'), (o', (k', d'))) /\
  r = Code E_OK /\ s_mode d' = JWal /\ s_pages d' = 100 /\ s_load d' = false /\ "merge_assets" ∈ s_functions d'.
Proof.
  destruct (connection_configured plain (new plain true false) no_keys fresh_db) as (r & cfg' & o' & k' & d' & E & _ & Hr);
    [reflexivity|discriminate|].
  exists r, cfg', o', k', d'. split; [exact E|].
  assert (r = Code E_OK /\ s_mode d' = JWal /\ s_pages d' = 100) as (Hc & Hm & Hp) by (vm_compute in E; injection E as <- <- <- <- <-; repeat split; reflexivity).
  split; [exact Hc|]. split; [exact Hm|]. split; [exact Hp|]. subst r. destruct (Hr eq_refl) as (_ & _ & Hl & Hf & _). split; [exact Hl|].
  apply Hf. left.
Defined.

(** A check that finds damage is not reported to the caller of [InnerOpen]. *)
Theorem damage_ignored : exists d', open_writer (RdbStoreConfig.SetIntegrityCheck RdbStoreConfig.CHECK_FULL plain) {fresh_db with s_health := "malformed" } =
  Some (Code E_OK, MODE_WAL, d').
Proof. eexists. vm_compute. reflexivity. Qed.

(** A function of the caller that cannot be registered gives the code of SQLite, which is none of the library's. *)
Theorem raw_code_returned : exists m d', open_writer (RdbStoreConfig.SetScalarFunctions [("f", {| RdbStoreConfig.function_ := 0; RdbStoreConfig.argc_ := 1 |})] plain) fresh_db =
  Some (Raw SQLITE_BUSY, m, d').
Proof. do 2 eexists. vm_compute. reflexivity. Qed.

(** A library that is not there ends [LoadExtension] before the loading of extensions is switched off. *)
Theorem missing_library_leaves_loading : exists m d', open_writer (RdbStoreConfig.SetPluginLibs ["lib"; "gone"] plain) fresh_db =
  Some (Code E_INVALID_FILE_PATH, m, d') /\ s_load d' = true.
Proof. do 2 eexists. split; [vm_compute; reflexivity|reflexivity]. Qed.

(** A writer with a mode that is neither WAL nor TRUNCATE takes itself for one in the mode WAL. *)
Theorem other_modes_taken_for_wal : exists d', open_writer (RdbStoreConfig.SetJournalModeText "DELETE" plain) fresh_db = Some (Code E_OK, MODE_WAL, d') /\ s_mode d' = JDelete.
Proof. eexists. split; [vm_compute; reflexivity|reflexivity]. Qed.

End ConfigureProps.
